(* ===== verification/_CoqProject ===== *)
-Q . S2P
Prelude.v
GoRuntime.v
Errors.v
KubeApi.v
Frame.v
Evolution.v
GoJson.v
ConfigTypes.v
ComponentTypes.v
QueueTypes.v
RpcTypes.v
PrqTypes.v
PrtTypes.v
Values.v
QueueCtrl.v
QueueSpec.v
TeamTypes.v
AtpTypes.v
KubeObjects.v
Interfaces.v
PrqCtrl.v
PrqMachine.v
PrqSpec.v
PrtFetch.v
PrqSim.v
PrqClaims.v
PrtCtrl.v
PrtClaims.v
ConfigCtrl.v
ConfigSpec.v
Cleanup.v
StgTypes.v
StgUtil.v
StgDeploy.v
StgTest.v
StgCollect.v
StgCtrl.v
StgRunners.v
StgFrame.v
StgMachine.v
StgSpec.v
StgRunnerSpec.v
StgSim.v
StgEnd.v
StgDeployClaims.v
StgClaims.v
StgRuns.v
Outdated.v
AtpCtrl.v
SamsahaiCtrl.v
AtpMachine.v
AtpFrame.v
AtpSpec.v
TeamFrame.v
AtpSim.v
AtpClaims.v
AtpFindings.v
TeamClaims.v
StbCtrl.v
StbClaims.v
DesCtrl.v
DesClaims.v
Reporters.v
S2hProcess.v
S2hProcClaims.v
S2hRpc.v
S2hRpcClaims.v
Versions.v
HttpClient.v
Checkers.v
CheckerClaims.v
Commands.v
MSTeams.v
ReporterPackages.v
ReporterClaims.v
S2hLoad.v
Webhook.v
WebhookClaims.v
K8sObjects.v
K8sClaims.v
