(* ===== verification/Prelude.v ===== *)
(** * Samsahai: a model of the program and its properties

    Samsahai runs verification environments for teams on Kubernetes.  A team has a staging
    namespace, where every changed component waits in a queue to be deployed and tested; a
    pull request gets a namespace of its own for the same purpose; a promotion builds a
    pre-active namespace from the stable components, tests it, and switches the team to it.
    The program is a set of controllers that watch stored objects (teams, queues,
    promotions, configurations) and are called with the name of one that changed
    ([Reconcile]).  Those of the staging side run in each team's namespace and ask Samsahai
    by remote calls; Samsahai looks for new versions in image registries, answers web hooks
    and reports to other systems.  The controllers call each other through Go interfaces and
    otherwise meet in the objects they store.

    ** The files

    Shared parts:
    - [Prelude]: outcomes of a Go call, the state-and-error monad of the controllers with
      its weakest preconditions, loops, record update, machine integers.
    - [GoRuntime]: the clock, the order of a [range] over a map, [sort.Sort], random
      numbers: classes with their documented laws, and implementations of them.
    - [Errors] (internal/errors/errors.go): sentinels, wrapping, tests.
    - [KubeApi], [KubeObjects]: metadata, conditions (the [SetCondition] that every status
      has), the calls of the Kubernetes client as a class with laws, a server in memory, and
      the kinds of objects that an environment consists of.
    - [Frame], [Evolution]: what a call leaves alone, and how the stored objects of a kind
      move by the transitions of a machine; every refinement proof is built on them.
    - [ConfigTypes], [ComponentTypes], [QueueTypes], [TeamTypes], [AtpTypes], [PrqTypes],
      [PrtTypes], [StgTypes], [RpcTypes] (api/v1/*_types.go, internal/staging.go,
      pkg/samsahai/rpc/service.proto and extra.go): the data and the operations on it.
    - [Interfaces] (internal/configuration.go, deploy.go, samsahai.go, reporter.go): what the
      controllers ask of each other, as classes; [RpcTypes.SamsahaiRPC] is the interface of
      the remote calls.
    - [GoJson]: the JSON text of a string, as Go's encoding/json writes and reads it, with
      its round trip; the criteria of [ConfigTypes] are read and written with it.
    - [Values] (internal/util/valuesutil/values.go, internal/util/map.go): merging the values
      of charts, and pinning components to their stable versions.

    The staging side:
    - [QueueCtrl] (internal/queue/controller.go): the queues of components; [QueueSpec]
      has its properties.
    - [StgUtil], [StgDeploy], [StgTest], [StgCollect], [StgCtrl], [Cleanup]
      (internal/staging/*.go): the loop that picks a queue, detects missing images, cleans,
      deploys, tests, collects the result and deletes the queue, one file of the model for
      each file of the package.  [StgMachine] is its specification, a state machine on the
      queue; [StgFrame], [StgSpec], [StgEnd] and [StgDeployClaims] prove what the steps do;
      [StgSim] is a cluster in memory; [StgClaims] and [StgRuns] hold properties and runs.
      [StgRunners] (internal/staging/testrunner) are the test runners of Gitlab, Teamcity
      and the mock, and [StgRunnerSpec] shows that they do what the loop relies on.
    - [PrqCtrl] (internal/pullrequest/queue) with [PrqMachine], [PrqSpec], [PrqSim] and
      [PrqClaims]: the queues of pull requests, their machine, its refinement, a cluster in
      memory and the properties.
    - [PrtFetch], [PrtCtrl] (internal/pullrequest/trigger/controller.go and
      internal/samsahai/pullrequest.go) with [PrtClaims]: the triggers of pull requests, the
      concurrent look-up of versions by goroutines and channels included.
    - [DesCtrl], [DesClaims] (internal/desiredcomponent/controller.go): the wanted versions
      are put into the queues.
    - [Outdated] (internal/util/outdated): how long a component has been outdated, without
      weekends.

    Samsahai:
    - [ConfigCtrl] (internal/config/controller.go, internal/util/config) with [ConfigSpec]:
      the configurations, the jobs that check components for new versions, and the removal
      of what is not configured any more.  It implements the interface that others call.
    - [AtpCtrl] (internal/samsahai/activepromotion) with [AtpMachine], [AtpFrame], [AtpSpec],
      [AtpSim], [AtpClaims] and [AtpFindings]: the promotions, one definition per method, and
      their state machine.
    - [SamsahaiCtrl] (internal/samsahai/controller.go): the teams and their namespaces; it
      implements the interface that the promotions call.  [TeamFrame] discharges the
      assumptions of [AtpSpec] for it, [TeamClaims] has its properties and those of the
      composition.  [StbCtrl], [StbClaims] (internal/stablecomponent/controller.go): the
      stable components are mirrored in the team.  [K8sObjects]
      (internal/samsahai/k8sobject/object.go): the objects that run the staging side in a
      namespace, and the comparison of a stored one with the wanted one; its
      [staging_objects] implements the interface [StagingObjects] of [SamsahaiCtrl], and
      [K8sClaims] shows what stands after [createEnvironmentObjects].
    - [S2hProcess] (internal/samsahai/internal_process.go) with [S2hProcClaims]: the work
      queue, which asks the checkers for versions.
    - [S2hRpc] (internal/samsahai/rpc.go) with [S2hRpcClaims]: the remote calls; its
      [samsahai_rpc] implements the interface that the staging side is proved against.
    - [S2hLoad] (the rest of internal/samsahai/controller.go): the loading of checkers,
      reporters and plugins, and what is read for the pages.
    - [Webhook] (internal/samsahai/webhook) with [WebhookClaims]: the web hooks and pages.
    - [Versions] (internal/version.go), [HttpClient] (internal/util/http, gitlab, github),
      [Checkers] (internal/samsahai/checker) with [CheckerClaims], [Commands]
      (internal/util/cmd, internal/samsahai/plugin): the order of versions, requests, the
      checkers of registries and the plugins.
    - [Reporters] (internal/reporter.go), [MSTeams] (internal/util/msteams),
      [ReporterPackages] (the packages under internal/reporter) with [ReporterClaims]: what
      is reported to whom.

    ** How the model corresponds to the code

    A method of a controller is a function in the monad [M W] over the state [W] of the
    world; a method that is given a pointer to an object works in [M (W * X)], with the
    caller's copy in the second half, so that what is stored and what a handler has in its
    hands are apart.  An error leaves the state as the code leaves it: the changes made
    before it stay.  A panic (an index out of range, a [nil] pointer) is an outcome of its
    own.  Handlers are total functions of the whole answer of every call, so a theorem
    about [Reconcile] covers every error of every client call.

    Go's string enumerations are inductive types with a constructor for any other text; a
    pointer that the code tests for [nil] is an [option]; maps are [gmap]; [int] is [Z]
    with additions wrapped to 64 bits, [int32] to 32; times are [Z] nanoseconds since the
    zero time of the model, durations likewise.  A time zone is a fixed offset.

    Goroutines: the look-up of a trigger's images is modelled with all interleavings of the
    goroutines and the receiver, and shown equal to the sequential look-up under each of
    them.  Goroutines that only answer once (missing images, the two kinds of a rollback,
    the components of a deployment, the tests of a queue) run in an order that the runtime
    chooses ([GoSchedule], [rt_first_wins]).  A time-out of one call is a choice of the runtime; for a search
    page by page it is the number of pages that are read in time ([Deadline]).  What a
    goroutine does that is left behind after a time-out is not followed.

    Parameters, each a class with documented laws where a theorem needs them:
    - the cluster: the Kubernetes client ([KClient], [KClientLaws], [KFrame], and
      [StagingClient] for the objects of an environment), the deploy engines ([DeployEngine]), the logs of a deployment;
    - the runtime: the clock, the order of maps and of sorting, the schedule, parsing of
      durations, the work queue ([WorkQueue]);
    - libraries: merging, hashing, templates and formatting, regular expressions
      ([GoRegexp]), names of images ([ImageNames]), JSON and YAML of messages ([GitJSON],
      [RegistryJSON], [TeamsJSON], [WebEncoding]);
    - other systems: the transport of requests ([HttpTransport]), the servers of the test
      runners ([RunnerServers]), Slack ([SlackAPI]), programs that are run ([Executables]),
      nodes, services and ingresses ([ConnectionOutside]).
    A library call that gets a pointer and may change what it points to ([Merge]) answers
    with both the result and what became of its argument.  Every property with hypotheses
    has a witness on a concrete world.

    Fuel: the loop over the days of a weekend has as many steps as there are days between
    the two instants and [weekend_fuel] counts them; the deletion of histories counts down
    from the length of the list, one step below zero, where the code panics; the work list
    of [GetComponents] has one step for each component and each dependency
    ([collect_fuel]), and [GetComponents_flattens] shows that it ends with nothing left; the
    look-up of a trigger has three steps for each goroutine ([fetch_fuel]), and
    [fetch_components_sequential] shows that they are enough; a search of Harbor has a
    hundred pages at most ([harbor_search_ends]).

    ** The properties

    - State machines: [Reconcile] of promotions, [Reconcile] of pull request queues and
      [process] of the staging loop refine their machines on every branch, errors and panics
      included; the machines' invariants are kept; the promotions also refine theirs on the
      real team controller.  A settled success is final; the queues start the longest
      waiting ones within their limits; only success makes components stable.
    - Teams: the switch of the active namespace; a team, and a stable component, is given up
      last; the objects of a namespace stand, as they are wanted, when they were created
      without an error.
    - Configurations: [GetComponents] is the flat list of components and dependencies; the
      jobs that check a component converge.
    - Values: merging prefers the target path by path; stable versions are pinned.
    - Queues: the order of queues, what [add] does to the list, numbering, retries, what a
      finished queue becomes, what is handed to the engine.
    - Versions: tags of numbers are ordered by their numbers; the checkers answer the last of
      the sorted matches, which is the newest when they are numbers, or the first match, or
      the right error; the desired component follows the checker and
      ends in the queue.
    - Remote calls and web hooks: nothing without the token; missing images equal a
      reference without goroutines; an environment is destroyed only when it is gone; a
      trigger is stored before the web hook answers; a history is shown to its own team only.
    - Reports: Slack is told in every channel, also after one that fails.
    - Data: the tear-down criteria through its JSON text, and as messages.
    - What the code does where its comments, tests or names suggest something else: the
      theorems of [AtpFindings], and, among others, [DestroyActiveEnvironment_clears_active],
      [LastQueueOrder_held_back_collides], [add_write_back_panics],
      [failed_trigger_never_deployed], [history_limit_below_one_panics],
      [Less_ignores_prefixed_numbers], [ensure_accepts_longer_tag],
      [expired_token_never_renewed], [git_token_of_another_team],
      [webhook_without_configuration_panics], [cluster_role_never_updated],
      [sidecar_panics], [quota_ignores_team].

    ** Not modelled

    - Logging, metrics and sleeps have no effect on the controllers.  The start-up of the
      programs (cmd), the registration of watches and the table of routes are wiring.
    - Resource versions, and therefore lost updates between controllers: an update that
      conflicts is an error like any other.  The clock is read once per sort.  Lists of
      pointers to components hold no [nil].
    - The error that a JSON decoder gives for a text, and what merging values writes into
      maps that it shares with its arguments (see [Values]).  A quantity is its text.
    - The texts of messages and reports, which are rendered from templates; the transport of
      the remote calls with its headers; reflection (protostruct, dotaccess) and mail.
    - The Helm engine (internal/staging/deploy/helm3), which only calls the Helm library: a
      parameter behind the interface of the code.
    - Generated code (deep copies, twirp, protobuf, swagger), third-party code, the
      end-to-end tests. *)

From stdpp Require Export base tactics list gmap strings numbers.
From Stdlib Require Export ZArith Lia.

Open Scope Z_scope.

(** ** Outcomes of a Go call *)

(** Why a Go statement panics. *)
Inductive panic_reason := IndexOutOfRange | NilDereference | DivideByZero | TypeAssertion.

(** The reasons of a Kubernetes API status that the code tests for. *)
Inductive status_reason := ReasonNotFound | ReasonAlreadyExists | ReasonConflict | ReasonOther.

#[export] Instance panic_reason_eq_dec : EqDecision panic_reason.
Proof. solve_decision. Defined.
#[export] Instance status_reason_eq_dec : EqDecision status_reason.
Proof. solve_decision. Defined.

(** A Go [error] value: its text and, when an API status is somewhere in its
    chain, the reason of that status. *)
Record error := mkError { err_text : string; err_reason : option status_reason }.

#[export] Instance error_eq_dec : EqDecision error.
Proof. solve_decision. Defined.

Inductive outcome (A : Type) :=
| Ok (a : A)
| Err (e : error)
| Panic (p : panic_reason).
Arguments Ok {_} _.
Arguments Err {_} _.
Arguments Panic {_} _.

(** ** The state-and-error monad of the controllers

    The state survives an error: a Go function that returns an error leaves the
    objects it mutated and the calls it made as they are. *)
Definition M (S A : Type) : Type := S -> outcome A * S.

#[export] Instance M_ret {S} : MRet (M S) := fun A a s => (Ok a, s).
#[export] Instance M_bind {S} : MBind (M S) := fun A B k m s =>
  match m s with
  | (Ok a, s') => k a s'
  | (Err e, s') => (Err e, s')
  | (Panic p, s') => (Panic p, s')
  end.

Declare Scope go_scope.
Delimit Scope go_scope with go.

Notation "'do' x <- m ; k" := (mbind (fun x => k) m)
  (at level 10, x name, m at level 100, k at level 200,
   format "'[v' 'do'  x  <-  m ;  '/' k ']'") : go_scope.
Notation "'do' ' p <- m ; k" := (mbind (fun x => match x with p => k end) m)
  (at level 10, p pattern, m at level 100, k at level 200) : go_scope.
Notation "'run' m ; k" := (mbind (fun _ => k) m)
  (at level 10, m at level 100, k at level 200,
   format "'[v' 'run'  m ;  '/' k ']'") : go_scope.
#[global] Open Scope go_scope.

(** [return err] and a run-time panic. *)
Definition throw {S A} (e : error) : M S A := fun s => (Err e, s).
Definition go_panic {S A} (p : panic_reason) : M S A := fun s => (Panic p, s).

(** [x, err := m()]: the caller looks at the error itself. *)
Definition attempt {S A} (m : M S A) : M S (error + A) := fun s =>
  match m s with
  | (Ok a, s') => (Ok (inr a), s')
  | (Err e, s') => (Ok (inl e), s')
  | (Panic p, s') => (Panic p, s')
  end.

(** [_ = m()]: the caller drops the error. *)
Definition ignore_error {S} (m : M S unit) : M S unit :=
  do r <- attempt m; mret tt.

(** Dereference of a pointer. *)
Definition deref {S A} (o : option A) : M S A :=
  match o with Some a => mret a | None => go_panic NilDereference end.

(** Access to the memory half of a state made of the world and the objects the
    running handler points to. *)
Definition get_obj {W X} : M (W * X) X := fun s => (Ok (snd s), s).
Definition mod_obj {W X} (f : X -> X) : M (W * X) unit := fun s => (Ok tt, (fst s, f (snd s))).
Definition onW {W X A} (m : M W A) : M (W * X) A := fun s =>
  match m (fst s) with (r, w') => (r, (w', snd s)) end.

(** Run a call on an object that the handler allocates: its last state comes back
    with the result. *)
Definition with_obj {W X A} (x : X) (m : M (W * X) A) : M W (A * X) := fun w =>
  match m (w, x) with
  | (Ok a, (w', x')) => (Ok (a, x'), w')
  | (Err e, (w', _)) => (Err e, w')
  | (Panic p, (w', _)) => (Panic p, w')
  end.

(** [l[i]]. *)
Definition index {S A} (l : list A) (i : nat) : M S A :=
  match l !! i with Some a => mret a | None => go_panic IndexOutOfRange end.

(** ** Loops *)

(** How one turn of a [for] body ends. *)
Inductive turn (B R : Type) := Next (b : B) | Brk (b : B) | Rtn (r : R).
Arguments Next {_ _} _.
Arguments Brk {_ _} _.
Arguments Rtn {_ _} _.

(** [for _, x := range l { body }] with the local variables [b]: the result is
    [inl b] when the loop ends and [inr r] when its body returns. *)
Fixpoint for_range {S X B R} (l : list X) (b : B) (body : X -> B -> M S (turn B R)) : M S (B + R) :=
  match l with
  | [] => mret (inl b)
  | x :: l' =>
      do t <- body x b;
      match t with
      | Next b' => for_range l' b' body
      | Brk b' => mret (inl b')
      | Rtn r => mret (inr r)
      end
  end.

(** A loop whose body only has effects and errors. *)
Fixpoint for_each {S X} (l : list X) (body : X -> M S unit) : M S unit :=
  match l with
  | [] => mret tt
  | x :: l' => run body x; for_each l' body
  end.

(** ** Weakest preconditions *)

Definition wp {S A} (m : M S A) (s : S) (Q : outcome A -> S -> Prop) : Prop :=
  Q (fst (m s)) (snd (m s)).

Section wp_rules.
Context {S : Type}.

Lemma wp_mono {A} (m : M S A) s (Q Q' : outcome A -> S -> Prop) :
  wp m s Q -> (forall r s', Q r s' -> Q' r s') -> wp m s Q'.
Proof. unfold wp. auto. Qed.

Lemma wp_ret {A} (a : A) s (Q : outcome A -> S -> Prop) : Q (Ok a) s -> wp (mret a) s Q.
Proof. done. Qed.

Lemma wp_throw {A} e s (Q : outcome A -> S -> Prop) : Q (Err e) s -> wp (throw e) s Q.
Proof. done. Qed.

Lemma wp_panic {A} p s (Q : outcome A -> S -> Prop) : Q (Panic p) s -> wp (go_panic p) s Q.
Proof. done. Qed.

Lemma wp_bind {A B} (m : M S A) (k : A -> M S B) s (Q : outcome B -> S -> Prop) :
  wp m s (fun r s' => match r with
                      | Ok a => wp (k a) s' Q
                      | Err e => Q (Err e) s'
                      | Panic p => Q (Panic p) s'
                      end) ->
  wp (mbind k m) s Q.
Proof. unfold wp, mbind, M_bind. destruct (m s) as [[a|e|p] s']; done. Qed.

Lemma wp_attempt {A} (m : M S A) s (Q : outcome (error + A) -> S -> Prop) :
  wp m s (fun r s' => match r with
                      | Ok a => Q (Ok (inr a)) s'
                      | Err e => Q (Ok (inl e)) s'
                      | Panic p => Q (Panic p) s'
                      end) ->
  wp (attempt m) s Q.
Proof. unfold wp, attempt. destruct (m s) as [[a|e|p] s']; done. Qed.

Lemma wp_deref {A} (o : option A) s (Q : outcome A -> S -> Prop) :
  match o with Some a => Q (Ok a) s | None => Q (Panic NilDereference) s end ->
  wp (deref o) s Q.
Proof. destruct o; done. Qed.

Lemma wp_index {A} (l : list A) i s (Q : outcome A -> S -> Prop) :
  match l !! i with Some a => Q (Ok a) s | None => Q (Panic IndexOutOfRange) s end ->
  wp (index l i) s Q.
Proof. unfold index. destruct (l !! i); done. Qed.

(** The loop rule for [for_each]: [I l s] holds with the elements [l] left. *)
Lemma wp_for_each {X} (I : list X -> S -> Prop) (body : X -> M S unit) l s
    (Q : outcome unit -> S -> Prop) :
  I l s ->
  (forall x l' s, I (x :: l') s ->
     wp (body x) s (fun r s' => match r with Ok _ => I l' s' | _ => Q r s' end)) ->
  (forall s, I [] s -> Q (Ok tt) s) ->
  wp (for_each l body) s Q.
Proof.
  intros HI Hstep Hend. revert s HI.
  induction l as [|x l IH]; intros s HI; cbn [for_each]; [by apply wp_ret, Hend|].
  apply wp_bind. eapply wp_mono; [by apply Hstep|].
  intros [a|e|p] s' Hs'; [by apply IH|done..].
Qed.

Lemma wp_for_range {X B R} (I : list X -> B -> S -> Prop)
    (body : X -> B -> M S (turn B R)) l b s (Q : outcome (B + R) -> S -> Prop) :
  I l b s ->
  (forall x l' b s, I (x :: l') b s ->
     wp (body x b) s (fun r s' =>
       match r with
       | Ok (Next b') => I l' b' s'
       | Ok (Brk b') => Q (Ok (inl b')) s'
       | Ok (Rtn v) => Q (Ok (inr v)) s'
       | Err e => Q (Err e) s'
       | Panic p => Q (Panic p) s'
       end)) ->
  (forall b s, I [] b s -> Q (Ok (inl b)) s) ->
  wp (for_range l b body) s Q.
Proof.
  intros HI Hstep Hend. revert b s HI.
  induction l as [|x l IH]; intros b s HI; cbn [for_range]; [by apply wp_ret, Hend|].
  apply wp_bind. eapply wp_mono; [by apply Hstep|].
  intros [[b'|b'|v]|e|p] s' Hs'; [by apply IH|by apply wp_ret..|done|done].
Qed.
End wp_rules.

Lemma wp_get_obj {W X} (s : W * X) (Q : outcome X -> W * X -> Prop) :
  Q (Ok (snd s)) s -> wp get_obj s Q.
Proof. done. Qed.

Lemma wp_mod_obj {W X} (f : X -> X) (s : W * X) (Q : outcome unit -> W * X -> Prop) :
  Q (Ok tt) (fst s, f (snd s)) -> wp (mod_obj f) s Q.
Proof. done. Qed.

Lemma wp_onW {W X A} (m : M W A) (s : W * X) (Q : outcome A -> W * X -> Prop) :
  wp m (fst s) (fun r w' => Q r (w', snd s)) -> wp (onW m) s Q.
Proof. unfold wp, onW. destruct (m (fst s)); done. Qed.

Lemma wp_with_obj {W X A} (x : X) (m : M (W * X) A) w (Q : outcome (A * X) -> W -> Prop) :
  wp m (w, x) (fun r s => match r with
                          | Ok a => Q (Ok (a, snd s)) (fst s)
                          | Err e => Q (Err e) (fst s)
                          | Panic p => Q (Panic p) (fst s)
                          end) ->
  wp (with_obj x m) w Q.
Proof. unfold wp, with_obj. destruct (m (w, x)) as [[] []]; done. Qed.

(** A call about which nothing is known leaves the memory half alone. *)
Lemma wp_onW_any {W X A} (m : M W A) (s : W * X) (Q : outcome A -> W * X -> Prop) :
  (forall r w', Q r (w', snd s)) -> wp (onW m) s Q.
Proof. intros HQ. apply wp_onW. unfold wp. apply HQ. Qed.

Lemma wp_ext {S A} (m m' : M S A) s (Q : outcome A -> S -> Prop) :
  (forall s, m s = m' s) -> wp m s Q -> wp m' s Q.
Proof. unfold wp. intros Heq. by rewrite Heq. Qed.

(** Lifting commutes with sequencing. *)
Lemma onW_bind {W X A B} (m : M W A) (k : A -> M W B) (s : W * X) :
  onW (mbind k m) s = mbind (fun a => onW (k a)) (onW m) s.
Proof. unfold onW, mbind, M_bind. by destruct (m (fst s)) as [[] w']. Qed.

Lemma onW_for_each {W X T} (l : list T) (body : T -> M W unit) (s : W * X) :
  onW (for_each l body) s = for_each l (fun x => onW (body x)) s.
Proof.
  revert s. induction l as [|x l IH]; intros s; [by destruct s|].
  cbn [for_each]. rewrite onW_bind. unfold mbind, M_bind.
  by destruct (onW (body x) s) as [[] s'].
Qed.

Lemma bind_ext {S A B} (m m' : M S A) (k k' : A -> M S B) :
  (forall s, m s = m' s) -> (forall a s, k a s = k' a s) ->
  forall s, mbind k m s = mbind k' m' s.
Proof. intros Hm Hk s. unfold mbind, M_bind. rewrite Hm. by destruct (m' s) as [[] s']. Qed.

Lemma bind_assoc {S A B C} (m : M S A) (h : A -> M S B) (k : B -> M S C) s :
  mbind k (mbind h m) s = mbind (fun a => mbind k (h a)) m s.
Proof. unfold mbind, M_bind. by destruct (m s) as [[] s']. Qed.

(** A call whose outcome is known, with what follows it. *)
Lemma bind_run {S A B} (m : M S A) (k : A -> M S B) s a s' : m s = (Ok a, s') -> mbind k m s = k a s'.
Proof. intros H. unfold mbind, M_bind. by rewrite H. Qed.

Lemma bind_ok {S A B} (m : M S A) (k : A -> M S B) s a : fst (m s) = Ok a -> mbind k m s = k a (snd (m s)).
Proof. intros H. apply bind_run. rewrite <- H. by destruct (m s). Qed.

Lemma wp_run {S A} (m : M S A) s r s' (Q : outcome A -> S -> Prop) :
  wp m s Q -> m s = (r, s') -> Q r s'.
Proof. unfold wp. intros HQ Heq. by rewrite Heq in HQ. Qed.

Lemma ok_run {S A} (m : M S A) s (a : A) : fst (m s) = Ok a -> m s = (Ok a, snd (m s)).
Proof. intros <-. apply surjective_pairing. Qed.

Lemma run_wp {S A} (m : M S A) s (Q : outcome A -> S -> Prop) :
  (forall r s', m s = (r, s') -> Q r s') -> wp m s Q.
Proof. unfold wp. intros H. apply H. by destruct (m s). Qed.

(** The run itself is known to the rest of the proof. *)
Lemma wp_remember {S A} (m : M S A) s (Q : outcome A -> S -> Prop) :
  wp m s (fun r s' => m s = (r, s') -> Q r s') -> wp m s Q.
Proof. unfold wp. intros H. apply H, surjective_pairing. Qed.

Lemma wp_elim {S A} (m : M S A) s (Q : outcome A -> S -> Prop) :
  wp m s Q -> Q (fst (m s)) (snd (m s)).
Proof. done. Qed.

(** A call that is shown to succeed. *)
Lemma wp_total {S A} (m : M S A) s (P : A -> S -> Prop) :
  wp m s (fun r s' => exists a, r = Ok a /\ P a s') ->
  exists a s', m s = (Ok a, s') /\ P a s'.
Proof.
  intros (a & Ha & HP)%wp_elim. exists a, (snd (m s)). split; [|done].
  rewrite <- Ha. by destruct (m s).
Qed.

#[global] Opaque wp.

(** One symbolic step of a handler. *)
Ltac wp_step :=
  lazy beta iota;
  lazymatch goal with
  | |- wp (mbind _ _) _ _ => apply wp_bind
  | |- wp (mret _) _ _ => apply wp_ret
  | |- wp (throw _) _ _ => apply wp_throw
  | |- wp (go_panic _) _ _ => apply wp_panic
  | |- wp (attempt _) _ _ => apply wp_attempt
  | |- wp get_obj _ _ => apply wp_get_obj
  | |- wp (mod_obj _) _ _ => apply wp_mod_obj
  | |- wp (deref _) _ _ => apply wp_deref
  | |- wp (index _ _) _ _ => apply wp_index
  | |- wp (onW _) _ _ => apply wp_onW
  | |- wp (let x := _ in _) _ _ => cbv zeta
  end.

(** The components of a state; the local definitions of the rest stay folded. *)
Ltac wp_fst := lazy beta iota delta [fst snd].
(** Enter a local definition. *)
Ltac wp_let :=
  lazy beta iota;
  lazymatch goal with
  | |- wp (let x := ?v in @?k x) ?s ?Q => change (wp (k v) s Q); lazy beta
  end.

(** ** Record update *)

(** A record type comes with its eta expansion; the setter of a field is found
    by abstracting the projection in it. *)
Class Eta (R : Type) := eta_record : R -> R.
Class FieldSetter {R T : Type} (proj : R -> T) := field_setter : (T -> T) -> R -> R.

Ltac solve_field_setter :=
  match goal with
  | |- @FieldSetter ?R ?T ?proj =>
      let e := constr:(_ : Eta R) in
      let e' := eval hnf in e in
      let r := constr:(fun (f : T -> T) (x : R) =>
        ltac:(let body := eval cbv beta in (e' x) in
              let g := eval pattern (proj x) in body in
              match g with
              | ?h _ => let out := eval cbv beta in (h (f (proj x))) in exact out
              end)) in
      exact r
  end.
#[export] Hint Extern 1 (FieldSetter _) => solve_field_setter : typeclass_instances.

Definition set_field {R T : Type} (proj : R -> T) {fs : FieldSetter proj} (v : T) (x : R) : R :=
  fs (fun _ => v) x.
Definition over_field {R T : Type} (proj : R -> T) {fs : FieldSetter proj} (f : T -> T) (x : R) : R :=
  fs f x.
Arguments set_field {_ _} _ {_} _ _ /.
Arguments over_field {_ _} _ {_} _ _ /.
Notation "x <| proj := v |>" := (set_field proj v x)
  (at level 1, left associativity, proj at level 99) : go_scope.
Notation "x <| proj ::= f |>" := (over_field proj f x)
  (at level 1, left associativity, proj at level 99) : go_scope.

(** ** Machine integers *)

(** Go's [int] has 64 bits here: additions wrap around. *)
Definition wrap64 (z : Z) : Z := (z + 2 ^ 63) mod 2 ^ 64 - 2 ^ 63.
Definition in64 (z : Z) : Prop := - 2 ^ 63 <= z < 2 ^ 63.
Definition int_add (a b : Z) : Z := wrap64 (a + b).
Definition int_sub (a b : Z) : Z := wrap64 (a - b).

(** A conversion to [int32]. *)
Definition wrap32 (z : Z) : Z := (z + 2 ^ 31) mod 2 ^ 32 - 2 ^ 31.
Definition in32 (z : Z) : Prop := - 2 ^ 31 <= z < 2 ^ 31.

Lemma wrap32_id z : in32 z -> wrap32 z = z.
Proof. unfold in32, wrap32. intros. rewrite Z.mod_small; lia. Qed.

#[export] Instance in64_dec z : Decision (in64 z).
Proof. unfold in64. apply _. Defined.

Lemma wrap64_id z : in64 z -> wrap64 z = z.
Proof. unfold in64, wrap64. intros. rewrite Z.mod_small; lia. Qed.

Lemma wrap64_range z : in64 (wrap64 z).
Proof.
  unfold in64, wrap64. pose proof (Z.mod_pos_bound (z + 2 ^ 63) (2 ^ 64)). lia.
Qed.

Lemma int_add_id a b : in64 (a + b) -> int_add a b = a + b.
Proof. apply wrap64_id. Qed.

Lemma int_sub_id a b : in64 (a - b) -> int_sub a b = a - b.
Proof. apply wrap64_id. Qed.

(** ** Lists *)

Lemma Forall_perm {A} (P : A -> Prop) l l' :
  l ≡ₚ l' -> Forall P l -> Forall P l'.
Proof. intros Hp. by rewrite Hp. Qed.

Lemma filter_all {A} (P : A -> Prop) `{forall x, Decision (P x)} l :
  Forall P l -> filter P l = l.
Proof.
  induction 1 as [|x l Hx _ IH]; [done|]. by rewrite filter_cons_True, IH.
Qed.

Lemma filter_none {A} (P : A -> Prop) `{forall x, Decision (P x)} l :
  Forall (fun x => ~ P x) l -> filter P l = [].
Proof.
  induction 1 as [|x l Hx _ IH]; [done|]. by rewrite filter_cons_False.
Qed.

Lemma filter_same_length {A} (P : A -> Prop) `{forall x, Decision (P x)} l :
  length (filter P l) = length l -> filter P l = l.
Proof.
  induction l as [|x l IH]; [done|]. rewrite filter_cons. case_decide; simpl; intros Hl.
  - f_equal. apply IH. lia.
  - pose proof (length_filter P l). lia.
Qed.

Lemma length_filter_map {A B} (f : A -> B) (P : B -> Prop)
    `{forall x, Decision (P (f x))} `{forall y, Decision (P y)} (l : list A) :
  length (filter (fun x => P (f x)) l) = length (filter P (f <$> l)).
Proof.
  induction l as [|x l IH]; [done|]. rewrite fmap_cons, !filter_cons.
  repeat case_decide; simpl; try done. by rewrite IH.
Qed.

Lemma fmap_NoDup_inj {A B} (f : A -> B) (l : list A) (x y : A) :
  NoDup (f <$> l) -> x ∈ l -> y ∈ l -> f x = f y -> x = y.
Proof.
  intros Hnd (i & Hi)%list_elem_of_lookup (j & Hj)%list_elem_of_lookup He.
  enough (i = j) as -> by congruence. eapply NoDup_lookup; [exact Hnd|..]; rewrite list_lookup_fmap.
  - by rewrite Hi.
  - by rewrite Hj, He.
Qed.

Create HintDb go.
#[export] Hint Resolve wrap64_range wrap64_id int_add_id int_sub_id : go.
