(* ===== verification/GoRuntime.v ===== *)
(** The parts of Go and of its standard library that the controllers use:
    instants and durations, [sort.Sort], iteration over a map, substring search
    and the pseudo-random generator.  What depends on the run of the program
    (the clock, the order of a map iteration, the algorithm behind [sort.Sort])
    is a class whose laws are the documented behaviour. *)

From S2P Require Import Prelude.
From stdpp Require Export sorting pretty.
Open Scope Z_scope.

(** ** Instants and durations, in nanoseconds *)

(** The zero [time.Time], January 1 of year 1 UTC, from the Unix epoch. *)
Definition zero_time : Z := -62135596800 * 10 ^ 9.

Definition Second : Z := 10 ^ 9.
Definition Minute : Z := 60 * Second.
Definition Hour : Z := 60 * Minute.

(** [t.Sub(u)] saturates at the bounds of a 64-bit duration. *)
Definition time_sub (t u : Z) : Z := Z.max (- 2 ^ 63) (Z.min (2 ^ 63 - 1) (t - u)).

(** [t.IsZero()] on a pointer to a time: also true of [nil]. *)
Definition time_is_zero (t : option Z) : bool :=
  match t with None => true | Some z => bool_decide (z = zero_time) end.

Lemma time_sub_exact t u : in64 (t - u) -> time_sub t u = t - u.
Proof. unfold time_sub, in64. lia. Qed.

Lemma time_sub_gt t u d : d < 2 ^ 63 - 1 -> d < time_sub t u <-> d < - 2 ^ 63 \/ d < t - u.
Proof. unfold time_sub. lia. Qed.

(** ** The runtime *)

Class GoRuntime (W : Type) := {
  (** [time.Now()], every call reads the clock again. *)
  rt_now : W -> Z * W;
  (** The order in which [range] visits a map. *)
  rt_range : forall {V : Type}, gmap string V -> W -> list (string * V) * W;
  (** Which of two goroutines that report on a channel comes first. *)
  rt_first_wins : W -> bool * W;
  (** [t.Format("20060102-150405")]. *)
  rt_stamp : Z -> string;
  (** The n-th [rand.Intn(bound)] after [rand.Seed(seed)]. *)
  rt_intn : Z -> nat -> Z -> Z;
}.

Definition now {W} `{GoRuntime W} : M W Z := fun w =>
  match rt_now w with (t, w') => (Ok t, w') end.
Definition range_map {W V} `{GoRuntime W} (m : gmap string V) : M W (list (string * V)) := fun w =>
  match rt_range m w with (l, w') => (Ok l, w') end.
Definition first_wins {W} `{GoRuntime W} : M W bool := fun w =>
  match rt_first_wins w with (b, w') => (Ok b, w') end.

Class GoRuntimeLaws (W : Type) `{GoRuntime W} := {
  rt_range_perm V (m : gmap string V) w : fst (rt_range m w) ≡ₚ map_to_list m;
  rt_intn_bound seed n bound : 0 < bound -> 0 <= rt_intn seed n bound < bound;
}.

(** [v] reads the world, and the call [m] does not change what it reads. *)
Class Preserves {W A V : Type} (m : M W A) (v : W -> V) : Prop :=
  preserves : forall w, v (snd (m w)) = v w.

Section preserves.
Context {W V : Type} (v : W -> V).

#[export] Instance ret_preserves {A} (a : A) : Preserves (W:=W) (mret a) v.
Proof. by intros w. Qed.
#[export] Instance throw_preserves {A} e : Preserves (W:=W) (A:=A) (throw e) v.
Proof. by intros w. Qed.
#[export] Instance panic_preserves {A} p : Preserves (W:=W) (A:=A) (go_panic p) v.
Proof. by intros w. Qed.
#[export] Instance bind_preserves {A B} (m : M W A) (k : A -> M W B) :
  Preserves m v -> (forall a, Preserves (k a) v) -> Preserves (mbind k m) v.
Proof.
  intros Hm Hk w. unfold mbind, M_bind. specialize (Hm w).
  destruct (m w) as [[a|e|p] w']; simpl in *; [|done..]. by rewrite (Hk a w').
Qed.
#[export] Instance attempt_preserves {A} (m : M W A) :
  Preserves m v -> Preserves (attempt m) v.
Proof. intros Hm w. unfold attempt. specialize (Hm w). by destruct (m w) as [[] w']. Qed.

(** What a call preserves may be used after it. *)
Lemma wp_preserve {A} (m : M W A) `{!Preserves m v} w (Q : outcome A -> W -> Prop) :
  wp m w (fun r w' => v w' = v w -> Q r w') -> wp m w Q.
Proof.
  intros H. apply run_wp. intros r w' Heq. apply (wp_run _ _ _ _ _ H Heq).
  pose proof (preserves (m:=m) (v:=v) w) as Hp. by rewrite Heq in Hp.
Qed.
End preserves.

Class RuntimeFrame (W : Type) `{GoRuntime W} {V : Type} (v : W -> V) : Prop := {
  now_frame w : v (snd (rt_now w)) = v w;
  range_frame T (m : gmap string T) w : v (snd (rt_range m w)) = v w;
  wins_frame w : v (snd (rt_first_wins w)) = v w;
}.

Lemma wp_now {W} `{GoRuntime W} w (Q : outcome Z -> W -> Prop) :
  (forall t w', rt_now w = (t, w') -> Q (Ok t) w') -> wp now w Q.
Proof.
  intros HQ. apply run_wp. unfold now. intros r s' Heq.
  destruct (rt_now w) as [t w'] eqn:E. simplify_eq. by apply HQ.
Qed.

Lemma wp_range_map {W V} `{GoRuntime W} (m : gmap string V) w
    (Q : outcome (list (string * V)) -> W -> Prop) :
  (forall l w', rt_range m w = (l, w') -> Q (Ok l) w') -> wp (range_map m) w Q.
Proof.
  intros HQ. apply run_wp. unfold range_map. intros r s' Heq.
  destruct (rt_range m w) as [l w'] eqn:E. simplify_eq. by apply HQ.
Qed.

(** A runtime for concrete runs: a clock that advances by one tick per reading,
    maps visited in a fixed order. *)
Class HasClock (W : Type) := { clock_get : W -> Z; clock_set : Z -> W -> W }.

#[export] Instance clock_Z : HasClock Z := {| clock_get := id; clock_set t _ := t |}.

Section sim_runtime.
Context {W : Type} `{HasClock W}.

#[export] Instance sim_runtime : GoRuntime W := {|
  rt_now w := (clock_get w, clock_set (clock_get w + 1) w);
  rt_range V m w := (map_to_list m, w);
  rt_first_wins w := (true, w);
  rt_stamp t := pretty t;
  rt_intn seed n bound := (seed + Z.of_nat n) mod bound;
|}.

#[export] Instance sim_runtime_laws : GoRuntimeLaws W.
Proof. split; simpl; [done|]. intros. by apply Z.mod_pos_bound. Qed.

Lemma sim_runtime_frame {V} (v : W -> V) :
  (forall t w, v (clock_set t w) = v w) -> RuntimeFrame W v.
Proof. intros Hv. split; intros; simpl; auto. Qed.
End sim_runtime.

(** ** [sort.Sort] *)

(** What the documentation of [sort.Interface] asks of [Less]: both its truth and
    its falsity are transitive.  It need not be irreflexive: two elements may each
    be less than the other, they are then in no particular order. *)
Record sort_ordering {A} (less : A -> A -> bool) : Prop := {
  so_trans x y z : less x y = true -> less y z = true -> less x z = true;
  so_neg_trans x y z : less x y = false -> less y z = false -> less x z = false;
}.

(** [y] may come after [x]. *)
Definition may_follow {A} (less : A -> A -> bool) (x y : A) : Prop :=
  less y x = true -> less x y = true.

(** Ascending order as determined by [Less]. *)
Definition in_order {A} (less : A -> A -> bool) (l : list A) : Prop :=
  StronglySorted (may_follow less) l.

(** [sort.Sort] only swaps, and puts the list in ascending order; it is not
    stable. *)
Class GoSort := {
  go_sort : forall {A : Type}, (A -> A -> bool) -> list A -> list A;
  go_sort_perm {A} (less : A -> A -> bool) l : go_sort less l ≡ₚ l;
  go_sort_in_order {A} (less : A -> A -> bool) l :
    sort_ordering less -> in_order less (go_sort less l);
}.

Section sorting.
Context {A : Type} (less : A -> A -> bool).

(** The relation is a total preorder. *)
Lemma may_follow_refl x : may_follow less x x.
Proof. by unfold may_follow. Qed.

Lemma may_follow_total x y : may_follow less x y \/ may_follow less y x.
Proof. unfold may_follow. destruct (less x y), (less y x); auto. Qed.

Lemma may_follow_trans x y z :
  sort_ordering less -> may_follow less x y -> may_follow less y z -> may_follow less x z.
Proof.
  unfold may_follow. intros [Ht Hn] Hxy Hyz Hzx.
  destruct (less x z) eqn:Hxz; [done|].
  destruct (less y x) eqn:Hyx.
  - specialize (Hxy eq_refl). destruct (less z y) eqn:Hzy.
    + by rewrite (Ht x y z) in Hxz by auto.
    + by rewrite (Hn x z y) in Hxy.
  - destruct (less z y) eqn:Hzy.
    + specialize (Hyz eq_refl). by rewrite (Hn y x z) in Hyz.
    + by rewrite (Hn z y x) in Hzx.
Qed.

Lemma not_less_may_follow x y : less y x = false -> may_follow less x y.
Proof. unfold may_follow. congruence. Qed.

(** Go's insertion sort, which [sort.Sort] runs on short slices: the sorted
    prefix is kept reversed, the next element moves left while it is less. *)
Fixpoint insert_back (x : A) (rprefix : list A) : list A :=
  match rprefix with
  | [] => [x]
  | y :: ys => if less x y then y :: insert_back x ys else x :: y :: ys
  end.

Definition insertion_sort (l : list A) : list A :=
  reverse (foldl (fun acc x => insert_back x acc) [] l).

Lemma insert_back_perm x l : insert_back x l ≡ₚ x :: l.
Proof. induction l as [|y l IH]; simpl; [done|]. case_match; [|done]. rewrite IH. constructor. Qed.

Lemma insertion_foldl_perm l acc :
  foldl (fun acc x => insert_back x acc) acc l ≡ₚ acc ++ l.
Proof.
  revert acc. induction l as [|x l IH]; intros acc; simpl; [by rewrite app_nil_r|].
  rewrite IH, insert_back_perm. by rewrite <- Permutation_middle.
Qed.

Lemma insertion_sort_perm l : insertion_sort l ≡ₚ l.
Proof. unfold insertion_sort. by rewrite reverse_Permutation, insertion_foldl_perm. Qed.

Lemma insert_back_sorted x l :
  sort_ordering less ->
  StronglySorted (flip (may_follow less)) l ->
  StronglySorted (flip (may_follow less)) (insert_back x l).
Proof.
  intros Hso Hs. induction Hs as [|y l Hs IH Hy]; simpl; [repeat constructor|].
  destruct (less x y) eqn:Hxy; constructor; auto.
  - rewrite insert_back_perm. constructor; [|done]. by intros _.
  - by constructor.
  - apply not_less_may_follow in Hxy. constructor; [done|].
    eapply Forall_impl; [exact Hy|]. intros z Hz. by eapply may_follow_trans.
Qed.

Lemma insertion_foldl_sorted l acc :
  sort_ordering less ->
  StronglySorted (flip (may_follow less)) acc ->
  StronglySorted (flip (may_follow less)) (foldl (fun acc x => insert_back x acc) acc l).
Proof.
  intros Hso. revert acc. induction l as [|x l IH]; intros acc Hs; simpl; [done|].
  by apply IH, insert_back_sorted.
Qed.
End sorting.

Lemma StronglySorted_reverse {A} (R : relation A) l :
  StronglySorted R l -> StronglySorted (flip R) (reverse l).
Proof.
  induction 1 as [|x l Hs IH Hx]; [constructor|].
  rewrite reverse_cons. clear Hs.
  assert (Forall (fun y => R x y) (reverse l)) as Hr by by rewrite reverse_Permutation.
  revert IH Hr. generalize (reverse l) as k. clear Hx l.
  induction k as [|y k IHk]; simpl; intros Hs Hr; [repeat constructor|].
  inversion Hs; inversion Hr; subst. constructor; [by apply IHk|].
  apply Forall_app. split; [done|by repeat constructor].
Qed.

Lemma insertion_sort_in_order {A} (less : A -> A -> bool) l :
  sort_ordering less -> in_order less (insertion_sort less l).
Proof.
  intros Hso. unfold in_order, insertion_sort.
  change (may_follow less) with (flip (flip (may_follow less))).
  apply StronglySorted_reverse, insertion_foldl_sorted; [done|constructor].
Qed.

Definition insertion_GoSort : GoSort := {|
  go_sort := @insertion_sort;
  go_sort_perm := @insertion_sort_perm;
  go_sort_in_order := @insertion_sort_in_order;
|}.

(** A list that is already in order, by a [Less] that only leaves equal elements
    unordered, is what [sort.Sort] returns. *)
Lemma go_sort_unique {A} `{GoSort} (less : A -> A -> bool) l l' :
  sort_ordering less -> l ≡ₚ l' -> in_order less l' ->
  (forall x y, x ∈ l -> y ∈ l -> may_follow less x y -> may_follow less y x -> x = y) ->
  go_sort less l = l'.
Proof.
  intros Hso Hp Hs Htot.
  eapply (StronglySorted_unique_strong (may_follow less)).
  - intros x y Hx Hy Hyx Hxy. rewrite go_sort_perm in Hx. rewrite <- Hp in Hy. auto.
  - by apply go_sort_in_order.
  - done.
  - by rewrite go_sort_perm.
Qed.

Lemma in_order_head {A} (less : A -> A -> bool) x l y :
  in_order less (x :: l) -> y ∈ x :: l -> may_follow less x y.
Proof.
  intros Hs [->|Hy]%elem_of_cons; [apply may_follow_refl|]. inversion Hs as [|?? _ Hx]; subst.
  rewrite Forall_forall in Hx. auto.
Qed.

Lemma in_order_suffix {A} (less : A -> A -> bool) l l' : in_order less (l ++ l') -> in_order less l'.
Proof. induction l as [|y l IH]; [done|]. intros Hs. inversion Hs. auto. Qed.

Lemma in_order_last {A} (less : A -> A -> bool) l x y :
  in_order less l -> last l = Some x -> y ∈ l -> may_follow less y x.
Proof.
  intros Hs Hl Hy. induction Hs as [|z l Hs IH Hz]; [done|].
  destruct l as [|z' l]; simplify_eq/=; [apply list_elem_of_singleton in Hy as ->; apply may_follow_refl|].
  apply elem_of_cons in Hy as [->|Hy]; [|auto].
  rewrite Forall_forall in Hz. apply Hz. by apply last_Some_elem_of.
Qed.

(** ** Strings *)

(** [strings.Contains(s, sub)]. *)
Fixpoint string_contains (s sub : string) : bool :=
  match s with
  | EmptyString => String.prefix sub EmptyString
  | String _ s' => String.prefix sub s || string_contains s' sub
  end.

(** [a < b] on strings, byte by byte. *)
Definition string_less (a b : string) : bool := String.ltb a b.

Lemma ascii_compare_lt_trans a b c :
  Ascii.compare a b = Lt -> Ascii.compare b c = Lt -> Ascii.compare a c = Lt.
Proof. unfold Ascii.compare. rewrite !N.compare_lt_iff. apply N.lt_trans. Qed.

Lemma ascii_compare_refl a : Ascii.compare a a = Eq.
Proof. unfold Ascii.compare. apply N.compare_refl. Qed.

Lemma string_compare_refl s : String.compare s s = Eq.
Proof. induction s as [|c s IH]; simpl; [done|]. by rewrite ascii_compare_refl. Qed.

Lemma string_compare_lt_trans a b c :
  String.compare a b = Lt -> String.compare b c = Lt -> String.compare a c = Lt.
Proof.
  revert b c. induction a as [|x a IH]; intros [|y b] [|z c]; simpl; try done.
  destruct (Ascii.compare x y) eqn:Hxy, (Ascii.compare y z) eqn:Hyz; try done; intros Hab Hbc.
  - apply Ascii.compare_eq_iff in Hxy as ->, Hyz as ->. rewrite ascii_compare_refl. eauto.
  - apply Ascii.compare_eq_iff in Hxy as ->. by rewrite Hyz.
  - apply Ascii.compare_eq_iff in Hyz as ->. by rewrite Hxy.
  - by rewrite (ascii_compare_lt_trans x y z).
Qed.

Lemma string_compare_ge_trans a b c :
  String.compare a b <> Gt -> String.compare b c <> Gt -> String.compare a c <> Gt.
Proof.
  intros Hab Hbc.
  destruct (String.compare a b) eqn:E1; [|destruct (String.compare b c) eqn:E2|done].
  - by apply String.compare_eq_iff in E1 as ->.
  - apply String.compare_eq_iff in E2 as <-. by rewrite E1.
  - by rewrite (string_compare_lt_trans a b c).
  - done.
Qed.

Lemma string_less_ordering : sort_ordering string_less.
Proof.
  split; intros x y z; unfold string_less, String.ltb.
  - destruct (String.compare x y) eqn:?, (String.compare y z) eqn:?; try done. intros _ _.
    by erewrite string_compare_lt_trans.
  - assert (forall a b, match String.compare a b with Lt => true | _ => false end = false
                        <-> String.compare b a <> Gt) as Hge.
    { intros a b. rewrite (String.compare_antisym b a). by destruct (String.compare a b). }
    rewrite !Hge. intros Hxy Hyz. by eapply string_compare_ge_trans.
Qed.

Lemma string_less_antisym a b : string_less a b = false -> string_less b a = false -> a = b.
Proof.
  unfold string_less, String.ltb. rewrite (String.compare_antisym b a).
  destruct (String.compare a b) eqn:E; simpl; try done.
  by apply String.compare_eq_iff in E.
Qed.

Lemma string_less_irrefl a : string_less a a = false.
Proof. unfold string_less, String.ltb. by rewrite string_compare_refl. Qed.

(** [time.ParseDuration], a part of the standard library: what it answers for a text. *)
Class GoDuration := parse_duration : string -> error + Z.

(** ** Goroutines *)

(** The runtime decides which of [n] events comes first. *)
Class GoSchedule (W : Type) := rt_choose : nat -> W -> nat * W.
Class GoScheduleLaws (W : Type) `{GoSchedule W} :=
  rt_choose_below n w : (0 < n)%nat -> (fst (rt_choose n w) < n)%nat.

(** The order in which [l] goroutines, that do not wait for each other, get to their end. *)
Fixpoint finish_order {W A} `{GoSchedule W} (n : nat) (l : list A) : M W (list A) := fun w =>
  match n, l with
  | S n, _ :: _ =>
      match rt_choose (length l) w with
      | (i, w') =>
          match l !! i with
          | None => (Ok l, w')
          | Some x =>
              match finish_order n (take i l ++ drop (S i) l) w' with
              | (r, w'') => (match r with Ok rest => Ok (x :: rest) | Err e => Err e | Panic p => Panic p end, w'')
              end
          end
      end
  | _, _ => (Ok l, w)
  end.
Definition in_finish_order {W A} `{GoSchedule W} (l : list A) : M W (list A) := finish_order (length l) l.
(** One of two things happens first. *)
Definition coin {W} `{GoSchedule W} : M W bool := fun w =>
  match rt_choose 2 w with (i, w') => (Ok (Nat.eqb i 0), w') end.

Lemma finish_order_perm {W A} `{GoSchedule W} n (l : list A) w :
  exists l', fst (finish_order n l w) = Ok l' /\ l' ≡ₚ l.
Proof.
  revert l w. induction n as [|n IH]; intros l w; [by exists l|].
  destruct l as [|x l]; [by exists []|]. cbn [finish_order].
  destruct (rt_choose (length (x :: l)) w) as [i w']. destruct ((x :: l) !! i) as [y|] eqn:Hi; [|by eexists].
  destruct (IH (take i (x :: l) ++ drop (S i) (x :: l)) w') as (l' & Heq & Hp).
  destruct (finish_order n _ w') as [r w''] eqn:E. simpl in Heq. subst r. exists (y :: l'). split; [done|].
  rewrite Hp. rewrite <- (take_drop_middle _ _ _ Hi) at 3. apply Permutation_middle.
Qed.

(** What a choice of the schedule leaves alone. *)
Class ScheduleFrame (W : Type) `{GoSchedule W} {V : Type} (v : W -> V) : Prop :=
  choose_frame n w : v (snd (rt_choose n w)) = v w.

Lemma finish_order_frame {W A V} `{GoSchedule W} (v : W -> V) `{!ScheduleFrame W v} n (l : list A) :
  Preserves (finish_order n l) v.
Proof.
  intros w. revert l w. induction n as [|n IH]; intros l w; [done|].
  destruct l as [|x l]; [done|]. cbn [finish_order].
  pose proof (choose_frame (v:=v) (length (x :: l)) w) as Hc.
  destruct (rt_choose (length (x :: l)) w) as [i w']. simpl in Hc.
  destruct ((x :: l) !! i) as [y|]; [|done].
  specialize (IH (take i (x :: l) ++ drop (S i) (x :: l)) w').
  destruct (finish_order n _ w') as [r w'']. simpl in *. congruence.
Qed.
#[export] Instance in_finish_order_preserves {W A V} `{GoSchedule W} (v : W -> V) `{!ScheduleFrame W v} (l : list A) :
  Preserves (in_finish_order l) v.
Proof. by apply finish_order_frame. Qed.
#[export] Instance coin_preserves {W V} `{GoSchedule W} (v : W -> V) `{!ScheduleFrame W v} :
  Preserves coin v.
Proof. intros w. unfold coin. rewrite <- (choose_frame (v:=v) 2 w). by destruct (rt_choose 2 w). Qed.

(** ** Sorting with a [Less] that is an order on the slice at hand *)

(** [sort.Interface] asks [Less] to be an order on the elements of the slice only. *)
Record sort_ordering_on {A} (P : A -> Prop) (less : A -> A -> bool) : Prop := {
  so_on_trans x y z : P x -> P y -> P z -> less x y = true -> less y z = true -> less x z = true;
  so_on_neg_trans x y z : P x -> P y -> P z -> less x y = false -> less y z = false -> less x z = false;
}.
Class GoSortOn `{GoSort} : Prop :=
  go_sort_in_order_on : forall (A : Type) (less : A -> A -> bool) (l : list A),
    sort_ordering_on (fun x => x ∈ l) less -> in_order less (go_sort less l).

Section sorting_on.
Context {A : Type} (P : A -> Prop) (less : A -> A -> bool).

Lemma may_follow_trans_on x y z :
  sort_ordering_on P less -> P x -> P y -> P z ->
  may_follow less x y -> may_follow less y z -> may_follow less x z.
Proof.
  unfold may_follow. intros [Ht Hn] Px Py Pz Hxy Hyz Hzx.
  destruct (less x z) eqn:Hxz; [done|].
  destruct (less y x) eqn:Hyx.
  - specialize (Hxy eq_refl). destruct (less z y) eqn:Hzy.
    + by rewrite (Ht x y z) in Hxz by auto.
    + by rewrite (Hn x z y) in Hxy.
  - destruct (less z y) eqn:Hzy.
    + specialize (Hyz eq_refl). by rewrite (Hn y x z) in Hyz.
    + by rewrite (Hn z y x) in Hzx.
Qed.

Lemma insert_back_sorted_on x l :
  sort_ordering_on P less -> P x -> Forall P l ->
  StronglySorted (flip (may_follow less)) l ->
  StronglySorted (flip (may_follow less)) (insert_back less x l).
Proof.
  intros Hso Px Hl Hs. induction Hs as [|y l Hs IH Hy]; simpl; [repeat constructor|].
  inversion Hl as [|?? Py Pl]; subst. destruct (less x y) eqn:Hxy.
  - constructor; [by apply IH|]. rewrite insert_back_perm. constructor; [|done]. by intros _.
  - apply not_less_may_follow in Hxy. constructor; [by constructor|]. constructor; [done|].
    rewrite Forall_forall in *. intros z Hz. apply (may_follow_trans_on z y x); auto. by apply Hy.
Qed.

Lemma insertion_foldl_sorted_on l acc :
  sort_ordering_on P less -> Forall P l -> Forall P acc ->
  StronglySorted (flip (may_follow less)) acc ->
  StronglySorted (flip (may_follow less)) (foldl (fun acc x => insert_back less x acc) acc l).
Proof.
  intros Hso Hl. revert acc. induction Hl as [|x l Px Hl IH]; intros acc Ha Hs; simpl; [done|].
  apply IH; [|by apply insert_back_sorted_on]. rewrite insert_back_perm. by constructor.
Qed.
End sorting_on.

Lemma insertion_sort_in_order_on : @GoSortOn insertion_GoSort.
Proof.
  intros A less l Hso. unfold in_order. simpl. unfold insertion_sort.
  change (may_follow less) with (flip (flip (may_follow less))).
  apply StronglySorted_reverse. eapply insertion_foldl_sorted_on; [exact Hso| |done|constructor].
  by rewrite Forall_forall.
Qed.
