(* ===== verification/Errors.v ===== *)
(** Model of [internal/errors/errors.go]: the sentinel errors of the program and
    the tests on an error's text.  An error is told apart by its text, so an error
    that was wrapped is no longer recognised by an equality test. *)

From S2P Require Import Prelude.
From S2P Require Import GoRuntime.
Open Scope string_scope.

(** [Error(s)]: a string as an error. *)
Definition Error (s : string) : error := mkError s None.

(** [errors.New(s)] and [fmt.Errorf]. *)
Definition New (s : string) : error := mkError s None.

(** [errors.Wrapf(err, msg)]: the message goes in front of the text; the cause
    stays reachable, so the API status does too. *)
Definition Wrap (e : error) (msg : string) : error :=
  mkError (msg ++ ": " ++ err_text e) (err_reason e).

Definition ErrInternalError : error := Error "internal error".
Definition ErrNotImplemented : error := Error "not implemented".
Definition ErrDeployTimeout : error := Error "deploy timeout".
Definition ErrReleaseFailed : error := Error "release failed".
Definition ErrTestTimeout : error := Error "test timeout".
Definition ErrTestRunnerNotFound : error := Error "test runner not found".
Definition ErrRequestTimeout : error := Error "request timeout".
Definition ErrExecutionTimeout : error := Error "execution timeout".
Definition ErrImageVersionNotFound : error := Error "image version not found".
Definition ErrInternalCheckerError : error := Error "internal checker error".
Definition ErrNoDesiredComponentVersion : error := Error "no desired component version".
Definition ErrTeamNamespaceStillCreating : error := Error "still creating namespace".
Definition ErrTeamNamespaceStillExists : error := Error "destroyed namespace still exists".
Definition ErrTeamNamespaceEnvObjsCreated : error := Error "environment objects is creating".
Definition ErrTeamNamespaceComponentNotified : error := Error "new components is notifying changed".
Definition ErrTeamNamespacePromotionCreated : error := Error "active promotion is creating".
Definition ErrActivePromotionTimeout : error := Error "active promotion timeout".
Definition ErrActiveDemotionTimeout : error := Error "demoted active environment timeout".
Definition ErrRollbackActivePromotionTimeout : error := Error "rollback active promotion timeout".
Definition ErrEnsurePreActiveEnvironmentCreated : error := Error "pre-active environment is being created".
Definition ErrEnsureNamespaceDestroyed : error := Error "namespace has not been destroyed".
Definition ErrEnsureActiveDemoted : error := Error "active environment is being demoted".
Definition ErrEnsureActivePromoted : error := Error "active environment is being promoted".
Definition ErrEnsureComponentDeployed : error := Error "components are being deployed".
Definition ErrEnsureComponentTested : error := Error "components are being tested".
Definition ErrDeletingReleases : error := Error "deleting releases".
Definition ErrForceDeletingComponents : error := Error "force deleting components".
Definition ErrRollingBackActivePromotion : error := Error "rolling back active promotion process".
Definition ErrEnsureStableComponentsDestroyed : error := Error "all stable components has not been destroyed".
Definition ErrPullRequestBundleNotFound : error := Error "pull request bundle name not found in configuration".
Definition ErrPullRequestRPCTearDownDurationCriteriaUnknown : error := Error "pull request tearDownDuration criteria unknown".
Definition ErrUnauthorized : error := Error "unauthorized".
Definition ErrAuthTokenNotFound : error := Error "auth token not found".
Definition ErrInvalidJSONData : error := Error "invalid json data".
Definition ErrCannotMarshalJSON : error := Error "cannot marshal to json".
Definition ErrCannotMarshalYAML : error := Error "cannot marshal to yaml".
Definition ErrTestConfigurationNotFound : error := Error "test configuration not found".
Definition ErrTestPipelineIDNotFound : error := Error "test pipeline id not found".
Definition ErrConfigurationRequiredField : error := Error "required filed cannot be empty".
Definition ErrEnsureConfigDestroyed : error := Error "config been being destroyed".
Definition ErrParsingRuntimeObject : error := Error "cannot parse runtime object".

(** [k8serrors.IsNotFound] and the like read the reason of the API status. *)
Definition has_reason (r : status_reason) (e : error) : bool :=
  bool_decide (err_reason e = Some r).
Definition IsNotFound : error -> bool := has_reason ReasonNotFound.
Definition IsAlreadyExists : error -> bool := has_reason ReasonAlreadyExists.
Definition IsConflict : error -> bool := has_reason ReasonConflict.

Definition same_text (sentinel e : error) : bool := String.eqb (err_text sentinel) (err_text e).

Definition IsImageNotFound (err : error) : bool := same_text ErrImageVersionNotFound err.
Definition IsInternalCheckerError (err : error) : bool :=
  same_text ErrInternalCheckerError err || string_contains (err_text err) (err_text ErrInternalCheckerError).
Definition IsNamespaceStillCreating (err : error) : bool :=
  same_text ErrTeamNamespaceStillCreating err || string_contains (err_text err) (err_text ErrTeamNamespaceStillCreating).
Definition IsNamespaceStillExists (err : error) : bool :=
  same_text ErrTeamNamespaceStillExists err || string_contains (err_text err) (err_text ErrTeamNamespaceStillExists).
Definition IsNewNamespaceEnvObjsCreated (err : error) : bool := same_text ErrTeamNamespaceEnvObjsCreated err.
Definition IsNewNamespaceComponentNotified (err : error) : bool := same_text ErrTeamNamespaceComponentNotified err.
Definition IsNewNamespacePromotionCreated (err : error) : bool := same_text ErrTeamNamespacePromotionCreated err.
Definition IsEnsuringPreActiveEnvironmentCreated (err : error) : bool := same_text ErrEnsurePreActiveEnvironmentCreated err.
Definition IsEnsuringActivePromoted (err : error) : bool := same_text ErrEnsureActivePromoted err.
Definition IsEnsuringActiveDemoted (err : error) : bool := same_text ErrEnsureActiveDemoted err.
Definition IsEnsuringComponentDeployed (err : error) : bool := same_text ErrEnsureComponentDeployed err.
Definition IsEnsuringComponentTested (err : error) : bool := same_text ErrEnsureComponentTested err.
Definition IsEnsuringNamespaceDestroyed (err : error) : bool := same_text ErrEnsureNamespaceDestroyed err.
Definition IsErrRequestTimeout (err : error) : bool := same_text ErrRequestTimeout err.
Definition IsDeletingReleases (err : error) : bool := same_text ErrDeletingReleases err.
Definition IsErrActivePromotionTimeout (err : error) : bool := same_text ErrActivePromotionTimeout err.
Definition IsErrActiveDemotionTimeout (err : error) : bool := same_text ErrActiveDemotionTimeout err.
Definition IsErrRollbackActivePromotionTimeout (err : error) : bool := same_text ErrRollbackActivePromotionTimeout err.
Definition IsRollingBackActivePromotion (err : error) : bool := same_text ErrRollingBackActivePromotion err.
Definition IsEnsuringConfigDestroyed (err : error) : bool := same_text ErrEnsureConfigDestroyed err.
Definition IsErrReleaseFailed (err : error) : bool := same_text ErrReleaseFailed err.
Definition IsEnsuringStableComponentsDestroyed (err : error) : bool := same_text ErrEnsureStableComponentsDestroyed err.
Definition IsErrPullRequestBundleNotFound (err : error) : bool := same_text ErrPullRequestBundleNotFound err.
Definition IsErrPullRequestRPCTearDownDurationCriteriaUnknown (err : error) : bool := same_text ErrPullRequestRPCTearDownDurationCriteriaUnknown err.

(** [if err := m(); err != nil { return errors.Wrapf(err, msg) }]. *)
Definition wrapping {S A} (msg : string) (m : M S A) : M S A :=
  do r <- attempt m;
  match r with
  | inl err => throw (Wrap err msg)
  | inr a => mret a
  end.
Lemma wp_wrapping {S A} msg (m : M S A) s (Q : outcome A -> S -> Prop) :
  wp m s (fun r s' => match r with Err e => Q (Err (Wrap e msg)) s' | _ => Q r s' end) ->
  wp (wrapping msg m) s Q.
Proof.
  intros H. unfold wrapping. wp_step. wp_step. eapply wp_mono; [exact H|]. intros [a|e|p] s' Hs; try wp_step; done.
Qed.

(** ** Facts *)

Lemma same_text_refl e : same_text e e = true.
Proof. apply String.eqb_refl. Qed.

Lemma Wrap_reason e msg : err_reason (Wrap e msg) = err_reason e.
Proof. done. Qed.

Lemma string_app_length (a b : string) :
  String.length (a ++ b) = (String.length a + String.length b)%nat.
Proof. induction a as [|c a IH]; simpl; [done|]. by rewrite IH. Qed.

(** Wrapping hides the sentinel from an equality test, whatever the message. *)
Lemma same_text_Wrap e msg : same_text e (Wrap e msg) = false.
Proof.
  unfold same_text. apply String.eqb_neq. intros Heq.
  apply (f_equal String.length) in Heq. unfold Wrap in Heq. simpl in Heq.
  rewrite !string_app_length in Heq. simpl in Heq. lia.
Qed.

Lemma string_prefix_refl (s : string) : String.prefix s s = true.
Proof.
  induction s as [|c s IH]; simpl; [done|]. by destruct (Ascii.ascii_dec c c).
Qed.

(** A substring test still finds the sentinel. *)
Lemma string_contains_suffix (pre s : string) : string_contains (pre ++ s) s = true.
Proof.
  induction pre as [|c pre IH]; simpl.
  - pose proof (string_prefix_refl s) as Hp. destruct s as [|c s]; [done|].
    change (String.prefix (String c s) (String c s) ||
            string_contains s (String c s) = true). by rewrite Hp.
  - rewrite IH. apply orb_true_r.
Qed.
