(* ===== verification/KubeApi.v ===== *)
(** The Kubernetes side of the model.  [ObjectMeta] holds the metadata fields the
    code uses; [Condition] is the shape shared by the [Conditions] lists of all
    the custom resources; [KClient] is the API client, one instance per kind,
    with the documented behaviour of the API server as laws over a view of the
    stored objects.  [MemStore] is an API server in memory: it satisfies the laws
    and is the cluster of the concrete runs. *)

From S2P Require Import Prelude.
From S2P Require Import GoRuntime.
From S2P Require Import Errors.
Open Scope string_scope.
Open Scope list_scope.
Open Scope Z_scope.

(** ** Object metadata *)

Record OwnerReference := mkOwnerRef { or_Kind : string; or_Name : string }.

Record ObjectMeta := mkMeta {
  om_Name : string;
  om_Namespace : string;
  om_Labels : gmap string string;
  om_Finalizers : list string;
  om_DeletionTimestamp : option Z;
  om_CreationTimestamp : Z;
  om_OwnerReferences : list OwnerReference;
}.
#[export] Instance eta_ObjectMeta : Eta ObjectMeta := fun x =>
  mkMeta (om_Name x) (om_Namespace x) (om_Labels x) (om_Finalizers x)
    (om_DeletionTimestamp x) (om_CreationTimestamp x) (om_OwnerReferences x).
#[export] Instance owner_ref_eq_dec : EqDecision OwnerReference.
Proof. solve_decision. Defined.
#[export] Instance object_meta_eq_dec : EqDecision ObjectMeta.
Proof. solve_decision. Defined.

(** The zero [ObjectMeta]. *)
Definition noMeta : ObjectMeta := mkMeta "" "" ∅ [] None zero_time [].
Definition namedMeta (ns name : string) : ObjectMeta :=
  noMeta <| om_Name := name |> <| om_Namespace := ns |>.

Class KObject (T : Type) := kmeta : T -> ObjectMeta.
Definition kname {T} `{KObject T} (x : T) : string := om_Name (kmeta x).
Definition kns {T} `{KObject T} (x : T) : string := om_Namespace (kmeta x).
Definition kkey {T} `{KObject T} (x : T) : string * string := (kns x, kname x).

(** ** Conditions *)

Inductive ConditionStatus := ConditionTrue | ConditionFalse | ConditionUnknown.
#[export] Instance condition_status_eq_dec : EqDecision ConditionStatus.
Proof. solve_decision. Defined.

Record Condition (C : Type) := mkCondition {
  c_Type : C;
  c_Status : ConditionStatus;
  c_LastTransitionTime : Z;
  c_Reason : string;
  c_Message : string;
}.
Arguments mkCondition {_} _ _ _ _ _.
Arguments c_Type {_} _.
Arguments c_Status {_} _.
Arguments c_LastTransitionTime {_} _.
Arguments c_Reason {_} _.
Arguments c_Message {_} _.
#[export] Instance condition_eq_dec {C} `{EqDecision C} : EqDecision (Condition C).
Proof. solve_decision. Defined.

Section conditions.
Context {C : Type} `{EqDecision C}.
Implicit Types (cs : list (Condition C)) (cond : C).

(** The first entry of the type decides. *)
Fixpoint is_condition_true cond cs : bool :=
  match cs with
  | [] => false
  | c :: cs' => if decide (c_Type c = cond) then bool_decide (c_Status c = ConditionTrue)
                else is_condition_true cond cs'
  end.

Fixpoint contains_condition cond cs : bool :=
  match cs with
  | [] => false
  | c :: cs' => if decide (c_Type c = cond) then true else contains_condition cond cs'
  end.

Fixpoint condition_time cond cs : option Z :=
  match cs with
  | [] => None
  | c :: cs' => if decide (c_Type c = cond) then Some (c_LastTransitionTime c)
                else condition_time cond cs'
  end.

(** The first entry of the type is rewritten in place (its reason stays), and a
    missing one is appended. *)
Fixpoint set_condition cond (status : ConditionStatus) (message : string) (t : Z) cs
    : list (Condition C) :=
  match cs with
  | [] => [mkCondition cond status t "" message]
  | c :: cs' => if decide (c_Type c = cond)
                then mkCondition (c_Type c) status t (c_Reason c) message :: cs'
                else c :: set_condition cond status message t cs'
  end.

Lemma is_condition_true_set cond status msg t cs :
  is_condition_true cond (set_condition cond status msg t cs)
  = bool_decide (status = ConditionTrue).
Proof.
  induction cs as [|c cs IH]; simpl; [by rewrite decide_True|].
  destruct (decide (c_Type c = cond)) as [He|Hne]; simpl.
  - by rewrite decide_True.
  - by rewrite decide_False.
Qed.

Lemma is_condition_true_set_ne cond cond' status msg t cs :
  cond <> cond' ->
  is_condition_true cond' (set_condition cond status msg t cs) = is_condition_true cond' cs.
Proof.
  intros Hne. induction cs as [|c cs IH]; simpl; [by rewrite decide_False|].
  destruct (decide (c_Type c = cond)) as [He|]; simpl; [|by rewrite IH].
  by rewrite !decide_False by congruence.
Qed.

Lemma condition_time_set cond status msg t cs :
  condition_time cond (set_condition cond status msg t cs) = Some t.
Proof.
  induction cs as [|c cs IH]; simpl; [by rewrite decide_True|].
  destruct (decide (c_Type c = cond)); simpl; [by rewrite decide_True|by rewrite decide_False].
Qed.

Lemma condition_time_set_ne cond cond' status msg t cs :
  cond <> cond' ->
  condition_time cond' (set_condition cond status msg t cs) = condition_time cond' cs.
Proof.
  intros Hne. induction cs as [|c cs IH]; simpl; [by rewrite decide_False|].
  destruct (decide (c_Type c = cond)) as [He|]; simpl; [|by rewrite IH].
  by rewrite !decide_False by congruence.
Qed.

Lemma contains_condition_set cond status msg t cs :
  contains_condition cond (set_condition cond status msg t cs) = true.
Proof.
  induction cs as [|c cs IH]; simpl; [by rewrite decide_True|].
  destruct (decide (c_Type c = cond)); simpl; [by rewrite decide_True|by rewrite decide_False].
Qed.

Lemma is_condition_true_contains cond cs :
  is_condition_true cond cs = true -> contains_condition cond cs = true.
Proof. induction cs as [|c cs IH]; simpl; [done|]. by case_decide. Qed.

(** No type is listed twice. *)
Definition conditions_wf cs : Prop := NoDup (c_Type <$> cs).

Lemma set_condition_types cond status msg t cs :
  c_Type <$> set_condition cond status msg t cs
  = (c_Type <$> cs) ++ (if contains_condition cond cs then [] else [cond]).
Proof.
  induction cs as [|c cs IH]; simpl; [done|].
  case_decide; csimpl; [by rewrite app_nil_r|]. by rewrite IH.
Qed.

Lemma contains_condition_elem cond cs :
  contains_condition cond cs = true <-> cond ∈ c_Type <$> cs.
Proof.
  induction cs as [|c cs IH]; csimpl.
  - split; [done|]. by intros ?%elem_of_nil.
  - rewrite elem_of_cons. case_decide; [naive_solver|]. rewrite IH. naive_solver.
Qed.

Lemma set_condition_wf cond status msg t cs :
  conditions_wf cs -> conditions_wf (set_condition cond status msg t cs).
Proof.
  unfold conditions_wf. intros Hnd. rewrite set_condition_types.
  destruct (contains_condition cond cs) eqn:Hc; [by rewrite app_nil_r|].
  apply NoDup_app. split; [done|]. split; [|apply NoDup_singleton].
  intros c Hin ->%list_elem_of_singleton.
  apply contains_condition_elem in Hin. congruence.
Qed.
End conditions.

(** ** The client *)

Record ListOptions := mkListOptions {
  lo_Namespace : string;                      (* "" lists every namespace *)
  lo_Labels : gmap string string;             (* the labels that must be there *)
}.

Definition list_matches {T} `{KObject T} (opts : ListOptions) (x : T) : Prop :=
  (lo_Namespace opts = "" \/ kns x = lo_Namespace opts) /\
  (lo_Labels opts ⊆ om_Labels (kmeta x)).
#[export] Instance list_matches_dec {T} `{KObject T} opts (x : T) : Decision (list_matches opts x).
Proof. unfold list_matches. apply _. Defined.

Definition InNamespace (ns : string) : ListOptions := mkListOptions ns ∅.
Definition MatchingLabels (m : gmap string string) : ListOptions := mkListOptions "" m.

(** The calls on the objects of kind [T] of a cluster [W]. *)
Class KClient (W T : Type) := {
  k_get : string * string -> M W T;
  k_list : ListOptions -> M W (list T);
  k_create : T -> M W unit;
  k_update : T -> M W unit;
  k_delete : T -> M W unit;
  k_delete_all_of : ListOptions -> M W unit;
}.
Arguments k_get {W} T {_} _.
Arguments k_list {W} T {_} _.
Arguments k_delete_all_of {W} T {_} _.

(** What is stored. *)
Class KView (W T : Type) := kview : W -> gmap (string * string) T.
Arguments kview {W} T {_} _.

(** An object that is being deleted disappears with its last finalizer. *)
Definition is_gone (m : ObjectMeta) : Prop :=
  om_DeletionTimestamp m <> None /\ om_Finalizers m = [].
#[export] Instance is_gone_dec m : Decision (is_gone m).
Proof.
  unfold is_gone. apply and_dec; [|apply _].
  destruct (om_DeletionTimestamp m); [by left|by right; intros []].
Defined.

Definition store_update {T} `{KObject T} (x : T) (m : gmap (string * string) T) :=
  if decide (is_gone (kmeta x)) then delete (kkey x) m else <[kkey x := x]> m.

(** A deletion at [t] marks the metadata of an object that a finalizer holds back. *)
Definition mark_deleted (t : Z) (m : ObjectMeta) : ObjectMeta :=
  match om_DeletionTimestamp m with
  | Some _ => m
  | None => m <| om_DeletionTimestamp := Some t |>
  end.
Class KMark (T : Type) := kmark : Z -> T -> T.

Lemma mark_deleted_key t (m : ObjectMeta) :
  (om_Namespace (mark_deleted t m), om_Name (mark_deleted t m)) = (om_Namespace m, om_Name m).
Proof. unfold mark_deleted. by case_match. Qed.

(** The documented behaviour: a call that fails stores nothing, a read reports
    what is stored, a write that succeeds stores what it is given.  A deleted
    object without finalizers is gone; one with finalizers is marked. *)
Class KClientLaws (W T : Type) `{KObject T, KMark T, KClient W T, KView W T} := {
  k_get_law key w :
    match k_get T key w with
    | (Ok x, w') => kview T w !! key = Some x /\ kview T w' = kview T w
    | (Err e, w') => (IsNotFound e = true -> kview T w !! key = None) /\ kview T w' = kview T w
    | (Panic _, _) => False
    end;
  k_list_law opts w :
    match k_list T opts w with
    | (Ok l, w') => l ≡ₚ filter (list_matches opts) (map_to_list (kview T w)).*2
                    /\ kview T w' = kview T w
    | (Err e, w') => kview T w' = kview T w
    | (Panic _, _) => False
    end;
  k_create_law x w :
    match k_create x w with
    | (Ok _, w') => kview T w !! kkey x = None /\ kview T w' = <[kkey x := x]> (kview T w)
    | (Err e, w') => (IsAlreadyExists e = true -> is_Some (kview T w !! kkey x))
                     /\ kview T w' = kview T w
    | (Panic _, _) => False
    end;
  k_update_law x w :
    match k_update x w with
    | (Ok _, w') => is_Some (kview T w !! kkey x) /\ kview T w' = store_update x (kview T w)
    | (Err e, w') => kview T w' = kview T w
    | (Panic _, _) => False
    end;
  k_delete_law x w :
    match k_delete x w with
    | (Ok _, w') =>
        exists y, kview T w !! kkey x = Some y /\
          (om_Finalizers (kmeta y) = [] -> kview T w' = delete (kkey x) (kview T w)) /\
          (om_Finalizers (kmeta y) <> [] ->
             exists t, kview T w' = <[kkey x := kmark t y]> (kview T w))
    | (Err e, w') => (IsNotFound e = true -> kview T w !! kkey x = None) /\ kview T w' = kview T w
    | (Panic _, _) => False
    end;
  k_view_keyed w key x : kview T w !! key = Some x -> kkey x = key;
}.

(** The calls on kind [T] leave the reading [v] of the world alone. *)
Class KFrame (W T : Type) `{KClient W T} {V : Type} (v : W -> V) : Prop := {
  k_get_frame key w : v (snd (k_get T key w)) = v w;
  k_list_frame opts w : v (snd (k_list T opts w)) = v w;
  k_create_frame x w : v (snd (k_create x w)) = v w;
  k_update_frame x w : v (snd (k_update x w)) = v w;
  k_delete_frame x w : v (snd (k_delete x w)) = v w;
  k_delete_all_frame opts w : v (snd (k_delete_all_of T opts w)) = v w;
}.

(** The rules of the calls. *)
Section client_rules.
Context {W T : Type} `{KO : KObject T, KMk : KMark T, KC : KClient W T, KV : KView W T}.
Context {KL : KClientLaws W T}.
Implicit Types (w : W) (x : T).

Lemma wp_k_get key w (Q : outcome T -> W -> Prop) :
  (forall x w', kview T w !! key = Some x -> kview T w' = kview T w -> Q (Ok x) w') ->
  (forall e w', (IsNotFound e = true -> kview T w !! key = None) ->
     kview T w' = kview T w -> Q (Err e) w') ->
  wp (k_get T key) w Q.
Proof.
  intros Hok Herr. apply run_wp. intros r w' Heq.
  pose proof (k_get_law (T:=T) key w) as H. rewrite Heq in H.
  destruct r; naive_solver.
Qed.

Lemma wp_k_list opts w (Q : outcome (list T) -> W -> Prop) :
  (forall l w', l ≡ₚ filter (list_matches opts) (map_to_list (kview T w)).*2 ->
     kview T w' = kview T w -> Q (Ok l) w') ->
  (forall e w', kview T w' = kview T w -> Q (Err e) w') ->
  wp (k_list T opts) w Q.
Proof.
  intros Hok Herr. apply run_wp. intros r w' Heq.
  pose proof (k_list_law (T:=T) opts w) as H. rewrite Heq in H.
  destruct r; naive_solver.
Qed.

Lemma wp_k_create x w (Q : outcome unit -> W -> Prop) :
  (forall w', kview T w !! kkey x = None ->
     kview T w' = <[kkey x := x]> (kview T w) -> Q (Ok tt) w') ->
  (forall e w', (IsAlreadyExists e = true -> is_Some (kview T w !! kkey x)) ->
     kview T w' = kview T w -> Q (Err e) w') ->
  wp (k_create x) w Q.
Proof.
  intros Hok Herr. apply run_wp. intros r w' Heq.
  pose proof (k_create_law x w) as H. rewrite Heq in H.
  destruct r as [[]| |]; naive_solver.
Qed.

Lemma wp_k_update x w (Q : outcome unit -> W -> Prop) :
  (forall w', is_Some (kview T w !! kkey x) ->
     kview T w' = store_update x (kview T w) -> Q (Ok tt) w') ->
  (forall e w', kview T w' = kview T w -> Q (Err e) w') ->
  wp (k_update x) w Q.
Proof.
  intros Hok Herr. apply run_wp. intros r w' Heq.
  pose proof (k_update_law x w) as H. rewrite Heq in H.
  destruct r as [[]| |]; naive_solver.
Qed.

(** Deletion of an object that no finalizer holds back. *)
Lemma wp_k_delete x w (Q : outcome unit -> W -> Prop) :
  (forall y, kview T w !! kkey x = Some y -> om_Finalizers (kmeta y) = []) ->
  (forall w', is_Some (kview T w !! kkey x) ->
     kview T w' = delete (kkey x) (kview T w) -> Q (Ok tt) w') ->
  (forall e w', (IsNotFound e = true -> kview T w !! kkey x = None) ->
     kview T w' = kview T w -> Q (Err e) w') ->
  wp (k_delete x) w Q.
Proof.
  intros Hfin Hok Herr. apply run_wp. intros r w' Heq.
  pose proof (k_delete_law x w) as H. rewrite Heq in H.
  destruct r as [[]| |]; [|naive_solver..].
  destruct H as (y & Hy & Hgone & _). apply Hok; [by eexists|]. apply Hgone; eauto.
Qed.

Lemma store_update_plain x (m : gmap (string * string) T) :
  om_DeletionTimestamp (kmeta x) = None -> store_update x m = <[kkey x := x]> m.
Proof. intros Hd. unfold store_update. rewrite decide_False; [done|]. by intros []. Qed.

Lemma store_update_other x (m : gmap (string * string) T) k :
  kkey x <> k -> store_update x m !! k = m !! k.
Proof.
  intros Hk. unfold store_update. case_decide; [by rewrite lookup_delete_ne|by rewrite lookup_insert_ne].
Qed.
End client_rules.

Lemma wp_frame {W A V} (m : M W A) (v : W -> V) `{!Preserves m v} w (Q : outcome A -> W -> Prop) :
  (forall r w', m w = (r, w') -> v w' = v w -> Q r w') -> wp m w Q.
Proof.
  intros HQ. apply run_wp. intros r w' Heq. apply HQ; [done|].
  pose proof (preserves (m:=m) (v:=v) w) as Hp. by rewrite Heq in Hp.
Qed.

Section frame_instances.
Context {W T V : Type} `{KC : KClient W T} (v : W -> V) {KF : KFrame W T v}.
#[export] Instance get_preserves key : Preserves (k_get T key) v.
Proof. intros w. apply k_get_frame. Qed.
#[export] Instance list_preserves opts : Preserves (k_list T opts) v.
Proof. intros w. apply k_list_frame. Qed.
#[export] Instance create_preserves x : Preserves (k_create x) v.
Proof. intros w. apply k_create_frame. Qed.
#[export] Instance update_preserves x : Preserves (k_update x) v.
Proof. intros w. apply k_update_frame. Qed.
#[export] Instance delete_preserves x : Preserves (k_delete x) v.
Proof. intros w. apply k_delete_frame. Qed.
End frame_instances.

#[export] Instance now_preserves {W V} `{GoRuntime W} (v : W -> V) `{!RuntimeFrame W v} :
  Preserves now v.
Proof. intros w. unfold now. rewrite <- (now_frame (v:=v) w). by destruct (rt_now w). Qed.

(** ** An API server in memory *)

(** The stored objects of kind [T] are a part of the cluster [W]. *)
Class HasStore (W T : Type) := {
  store_get : W -> gmap (string * string) T;
  store_set : gmap (string * string) T -> W -> W;
  store_get_set m w : store_get (store_set m w) = m;
}.

Definition NotFoundError : error := mkError "not found" (Some ReasonNotFound).
Definition AlreadyExistsError : error := mkError "already exists" (Some ReasonAlreadyExists).

(** Only objects filed under their own name count. *)
Definition well_filed {T} `{KObject T} (m : gmap (string * string) T) : gmap (string * string) T :=
  filter (fun p => kkey p.2 = p.1) m.

(** A mark leaves the name alone. *)
Class KMarkLaws (T : Type) `{KObject T, KMark T} := kmark_key t (x : T) : kkey (kmark t x) = kkey x.

Section mem_store.
Context {W T : Type} `{KO : KObject T, KMk : KMark T, KML : !KMarkLaws T, HS : HasStore W T}.

#[export] Instance mem_view : KView W T := fun w => well_filed (store_get w).

#[export] Instance mem_client : KClient W T := {|
  k_get key := fun w =>
    match kview T w !! key with Some x => (Ok x, w) | None => (Err NotFoundError, w) end;
  k_list opts := fun w =>
    (Ok (filter (list_matches opts) (map_to_list (kview T w)).*2), w);
  k_create x := fun w =>
    match kview T w !! kkey x with
    | Some _ => (Err AlreadyExistsError, w)
    | None => (Ok tt, store_set (<[kkey x := x]> (kview T w)) w)
    end;
  k_update x := fun w =>
    match kview T w !! kkey x with
    | Some _ => (Ok tt, store_set (store_update x (kview T w)) w)
    | None => (Err NotFoundError, w)
    end;
  k_delete x := fun w =>
    match kview T w !! kkey x with
    | Some y =>
        (Ok tt, store_set (if decide (om_Finalizers (kmeta y) = [])
                           then delete (kkey x) (kview T w)
                           else <[kkey x := kmark 0 y]> (kview T w)) w)
    | None => (Err NotFoundError, w)
    end;
  k_delete_all_of opts := fun w =>
    (Ok tt, store_set (filter (fun p => ~ list_matches opts p.2) (kview T w)) w);
|}.

Lemma well_filed_lookup (m : gmap (string * string) T) k x :
  well_filed m !! k = Some x <-> m !! k = Some x /\ kkey x = k.
Proof. unfold well_filed. by rewrite map_lookup_filter_Some. Qed.

Lemma well_filed_id (m : gmap (string * string) T) :
  (forall k x, m !! k = Some x -> kkey x = k) -> well_filed m = m.
Proof. intros Hm. apply map_filter_id. intros k x Hx. simpl. by apply Hm. Qed.

Lemma mem_view_keyed (w : W) k x : kview T w !! k = Some x -> kkey x = k.
Proof. intros Hx. by apply well_filed_lookup in Hx as [_ ?]. Qed.

Lemma mem_view_set (m : gmap (string * string) T) (w : W) :
  (forall k x, m !! k = Some x -> kkey x = k) -> kview T (store_set m w) = m.
Proof. intros Hm. unfold kview, mem_view. rewrite store_get_set. by apply well_filed_id. Qed.

Lemma mem_view_insert (w : W) x :
  kview T (store_set (<[kkey x := x]> (kview T w)) w) = <[kkey x := x]> (kview T w).
Proof.
  apply mem_view_set. intros k y [[<- <-]|[_ Hy]]%lookup_insert_Some; [done|].
  by eapply mem_view_keyed.
Qed.

Lemma mem_view_delete (w : W) k :
  kview T (store_set (delete k (kview T w)) w) = delete k (kview T w).
Proof.
  apply mem_view_set. intros k' y [_ Hy]%lookup_delete_Some. by eapply mem_view_keyed.
Qed.

#[export] Instance mem_laws : KClientLaws W T.
Proof.
  split.
  - intros key w. simpl. by destruct (kview T w !! key) eqn:E.
  - intros opts w. done.
  - intros x w. simpl. destruct (kview T w !! kkey x) eqn:E; [by split; [eexists|]|].
    split; [done|]. apply mem_view_insert.
  - intros x w. simpl. destruct (kview T w !! kkey x) eqn:E; [|done].
    split; [by eexists|]. unfold store_update.
    case_decide; [apply mem_view_delete|apply mem_view_insert].
  - intros x w. simpl. destruct (kview T w !! kkey x) as [y|] eqn:E; [|done].
    exists y. split; [done|]. split; intros Hf.
    + rewrite decide_True by done. apply mem_view_delete.
    + rewrite decide_False by done. exists 0. apply mem_view_set.
      intros k z [[<- <-]|[_ Hz]]%lookup_insert_Some; [|by eapply mem_view_keyed].
      rewrite kmark_key. by eapply mem_view_keyed.
  - intros w key x. apply mem_view_keyed.
Qed.

Lemma mem_frame {V} (v : W -> V) :
  (forall m w, v (store_set m w) = v w) -> KFrame W T v.
Proof. intros Hv. split; intros; simpl; repeat case_match; simpl; auto. Qed.
End mem_store.
