(* ===== verification/Frame.v ===== *)
(** What a call leaves alone: [Preserves m v] for the parts of a handler, by which it
    follows the shape of the code that a call keeps a reading of the world that none of
    its parts touches. *)

From S2P Require Import Prelude.
From S2P Require Import GoRuntime.
From S2P Require Import Errors.
From S2P Require Import KubeApi.
Open Scope string_scope.
Open Scope list_scope.
Open Scope Z_scope.

(** The reading of the world in a handler's state. *)
Definition of_world {W X V : Type} (v : W -> V) (s : W * X) : V := v (fst s).

(** The same together with a part of the object. *)
Definition of_both {W X V G : Type} (v : W -> V) (g : X -> G) (s : W * X) : V * G := (v (fst s), g (snd s)).

(** ** Generic calls *)

Section generic.
Context {W V : Type} (v : W -> V).

#[export] Instance deref_preserves {A} (o : option A) : Preserves (W:=W) (deref o) v.
Proof. destruct o; apply _. Qed.
#[export] Instance index_preserves {A} (l : list A) i : Preserves (W:=W) (index l i) v.
Proof. unfold index. case_match; apply _. Qed.
#[export] Instance ignore_preserves (m : M W unit) : Preserves m v -> Preserves (ignore_error m) v.
Proof. intros. unfold ignore_error. apply _. Qed.
#[export] Instance for_each_preserves {X} (l : list X) (body : X -> M W unit) :
  (forall x, Preserves (body x) v) -> Preserves (for_each l body) v.
Proof. intros. induction l as [|x l IH]; cbn [for_each]; apply _. Qed.
Lemma for_range_preserves {X B R} (l : list X) (b : B) (body : X -> B -> M W (turn B R)) :
  (forall x b, Preserves (body x b) v) -> Preserves (for_range l b body) v.
Proof.
  intros Hbody. revert b. induction l as [|x l IH]; intros b; cbn [for_range]; [apply _|].
  apply bind_preserves; [apply Hbody|]. intros []; [apply IH|apply _..].
Qed.

#[export] Instance wrapping_preserves {A} msg (m : M W A) :
  Preserves m v -> Preserves (wrapping msg m) v.
Proof. intros. unfold wrapping. apply bind_preserves; [apply _|]. intros []; apply _. Qed.

#[export] Instance onW_preserves {X A} (m : M W A) :
  Preserves m v -> Preserves (onW (X:=X) m) (of_world v).
Proof. intros Hm [w x]. unfold onW, of_world. specialize (Hm w). simpl. by destruct (m w). Qed.
#[export] Instance onW_both {X G A} (g : X -> G) (m : M W A) :
  Preserves m v -> Preserves (onW m) (of_both v g).
Proof. intros Hm [w x]. unfold onW, of_both. specialize (Hm w). simpl. destruct (m w). simpl in *. congruence. Qed.
#[export] Instance get_obj_both {X G} (g : X -> G) : Preserves get_obj (of_both v g).
Proof. by intros []. Qed.
Lemma mod_obj_both {X G} (g : X -> G) (f : X -> X) :
  (forall x, g (f x) = g x) -> Preserves (mod_obj f) (of_both v g).
Proof. intros Hf [w x]. unfold mod_obj, of_both. simpl. by rewrite Hf. Qed.
#[export] Instance with_obj_preserves {X A} (x : X) (m : M (W * X) A) :
  Preserves m (of_world v) -> Preserves (with_obj x m) v.
Proof. intros Hm w. specialize (Hm (w, x)). unfold with_obj. by destruct (m (w, x)) as [[] [w' x']]. Qed.
End generic.

(** What is known of the result of a call may be used after it. *)
Lemma bind_preserves_post {W V A B} (v : W -> V) (P : A -> Prop) (m : M W A) (k : A -> M W B) :
  (forall w a w', m w = (Ok a, w') -> P a) -> Preserves m v -> (forall a, P a -> Preserves (k a) v) ->
  Preserves (mbind k m) v.
Proof.
  intros HP Hm Hk w. unfold mbind, M_bind. specialize (Hm w). destruct (m w) as [[a|e|p] w'] eqn:Heq; [|done..].
  simpl in *. rewrite <- Hm. apply Hk. by eapply HP.
Qed.

#[export] Instance get_obj_preserves {W X V} (v : W -> V) : Preserves (get_obj (X:=X)) (of_world v).
Proof. by intros []. Qed.
#[export] Instance mod_obj_preserves {W X V} (v : W -> V) (f : X -> X) :
  Preserves (mod_obj f) (of_world v).
Proof. by intros []. Qed.

Section runtime_frame.
Context {W V : Type} `{GR : GoRuntime W} (v : W -> V) {RF : RuntimeFrame W v}.
#[export] Instance range_map_preserves {T} (m : gmap string T) : Preserves (range_map m) v.
Proof. intros w. unfold range_map. rewrite <- (range_frame (v:=v) T m w). by destruct (rt_range m w). Qed.
#[export] Instance first_wins_preserves : Preserves first_wins v.
Proof. intros w. unfold first_wins. rewrite <- (wins_frame (v:=v) w). by destruct (rt_first_wins w). Qed.
End runtime_frame.

#[export] Instance delete_all_preserves {W T V} `{KC : KClient W T} (v : W -> V) {KF : KFrame W T v} opts :
  Preserves (k_delete_all_of T opts) v.
Proof. intros w. apply k_delete_all_frame. Qed.

(** Walk through a call. *)
Ltac preserves :=
  repeat (intros; lazy beta iota zeta;
    first [assumption | progress apply bind_preserves | apply _ | progress apply onW_preserves | progress apply onW_both
          | apply mod_obj_both; by intros []
          | progress apply attempt_preserves | progress apply ignore_preserves | progress apply wrapping_preserves
          | progress apply for_each_preserves | progress apply for_range_preserves
          | match goal with |- Preserves (match ?x with _ => _ end) _ => destruct x end
          | match goal with |- Preserves ((match ?x with _ => _ end) _) _ => destruct x end]).

(** Reads keep what is stored. *)
Lemma get_own_preserves {W T} `{KL : KClientLaws W T} key : Preserves (k_get T key) (kview (W:=W) T).
Proof. intros w. pose proof (k_get_law (T:=T) key w) as Hl. destruct (k_get T key w) as [[]]; by destruct Hl. Qed.
Lemma list_own_preserves {W T} `{KL : KClientLaws W T} opts : Preserves (k_list T opts) (kview (W:=W) T).
Proof.
  intros w. pose proof (k_list_law (T:=T) opts w) as Hl.
  by destruct (k_list T opts w) as [[]]; destruct Hl.
Qed.
