(* ===== verification/Evolution.v ===== *)
(** How the stored objects of one kind develop: [evolves] says that nothing appears and
    that what is there afterwards has moved by the transitions of a machine; [ahead] and
    [good] are the invariant of a handler that holds a copy of one of the objects, and the
    rules below carry it through its steps.  The promotions and the queues of pull
    requests are verified against their machines with it. *)

From S2P Require Import Prelude.
From S2P Require Import GoRuntime.
From S2P Require Import Errors.
From S2P Require Import KubeApi.
From S2P Require Import Frame.
From stdpp Require Import relations.
Open Scope string_scope.
Open Scope list_scope.
Open Scope Z_scope.

(** [ctl] reads off an object what the machine [move] is about; the key is a part of it
    that no transition changes. *)
Class Evolution {T C : Type} `{KObject T} (ctl : T -> C) (move : relation C) := {
  ev_key : C -> string * string;
  ev_ctl_key a : kkey a = ev_key (ctl a);
  ev_move_key c c' : move c c' -> ev_key c' = ev_key c;
}.

Section evolution.
Context {W T C : Type} `{KO : KObject T, KMk : KMark T, KC : KClient W T, KV : KView W T}.
Context (ctl : T -> C) (move : relation C).

Notation store := (gmap (string * string) T).
Notation view s := (kview T (fst s)).
Implicit Types (V : store) (s : W * T).

(** Nothing appears, and what is there afterwards has moved by transitions. *)
Definition evolves V V' : Prop :=
  forall k a', V' !! k = Some a' -> exists a, V !! k = Some a /\ rtc move (ctl a) (ctl a').

(** The object at hand is ahead of the stored one. *)
Definition ahead V s : Prop :=
  evolves V (view s) /\
  (forall a, view s !! kkey (snd s) = Some a -> rtc move (ctl a) (ctl (snd s))).

(** The outcome of a handler. *)
Definition good {A} V (P : A -> C -> Prop) (r : outcome A) s : Prop :=
  evolves V (view s) /\
  match r with Ok x => ahead V s /\ P x (ctl (snd s)) | _ => True end.

Lemma evolves_refl V : evolves V V.
Proof. intros k a Hk. by exists a. Qed.

Lemma evolves_trans V1 V2 V3 : evolves V1 V2 -> evolves V2 V3 -> evolves V1 V3.
Proof.
  intros H12 H23 k a3 H3. destruct (H23 k a3 H3) as (a2 & H2 & Hm2).
  destruct (H12 k a2 H2) as (a1 & H1 & Hm1). exists a1. split; [done|]. by etrans.
Qed.

Lemma good_weaken {A} V (P P' : A -> C -> Prop) (r : outcome A) s :
  (forall x c, P x c -> P' x c) -> good V P r s -> good V P' r s.
Proof. intros HP [He Hr]. split; [done|]. destruct r; [|done..]. naive_solver. Qed.

(** An update of one object that has moved. *)
Lemma evolves_update V V' x a :
  evolves V V' -> V !! kkey x = Some a -> rtc move (ctl a) (ctl x) -> evolves V (store_update x V').
Proof.
  intros He Ha Hm k a' Hk. unfold store_update in Hk. case_decide.
  - apply lookup_delete_Some in Hk as [_ Hk]. by apply He.
  - apply lookup_insert_Some in Hk as [[<- <-]|[_ Hk]]; [by exists a|by apply He].
Qed.

Lemma ahead_put V s V' :
  ahead V s -> is_Some (view s !! kkey (snd s)) -> V' = store_update (snd s) (view s) ->
  evolves V V'.
Proof.
  intros [He Ha] [a Hl] ->. destruct (He _ _ Hl) as (a0 & Hl0 & Hm0).
  apply evolves_update with (a := a0); [done..|]. etrans; [exact Hm0|]. by apply Ha.
Qed.

(** A call that keeps the store and the control. *)
Lemma wp_keeps {A} (m : M (W * T) A) `{!Preserves m (of_both (kview T) ctl)} s V c
    (Q : outcome A -> W * T -> Prop) :
  view s = V -> ctl (snd s) = c ->
  (forall r s', view s' = V -> ctl (snd s') = c -> Q r s') -> wp m s Q.
Proof.
  intros Hv Hc HQ. apply run_wp. intros r s' Heq.
  pose proof (preserves (m:=m) (v:=of_both (kview T) ctl) s) as Hp.
  rewrite Heq in Hp. unfold of_both in Hp. cbn [fst snd] in Hp.
  apply pair_equal_spec in Hp as [Hp1 Hp2]. apply HQ; congruence.
Qed.

Context {EV : Evolution ctl move}.

Lemma moves_key c c' : rtc move c c' -> ev_key c' = ev_key c.
Proof. induction 1 as [|c1 c2 c3 H _ IH]; [done|]. rewrite IH. by apply ev_move_key. Qed.

Lemma ahead_move V s s' :
  ahead V s -> view s' = view s -> rtc move (ctl (snd s)) (ctl (snd s')) -> ahead V s'.
Proof.
  intros [He Ha] Hv Hm. split; [by rewrite Hv|]. intros a. rewrite Hv.
  rewrite (ev_ctl_key (snd s')), (moves_key _ _ Hm), <- ev_ctl_key. intros Hl.
  etrans; [by apply Ha|done].
Qed.

(** The stored object is the one at hand. *)
Lemma ahead_stored V s :
  evolves V (view s) -> view s !! kkey (snd s) = Some (snd s) -> ahead V s.
Proof. intros He Hs. split; [done|]. intros a Ha. by simplify_eq. Qed.

Lemma good_moved {A} V s s' (P : A -> C -> Prop) x :
  ahead V s -> view s' = view s -> rtc move (ctl (snd s)) (ctl (snd s')) -> P x (ctl (snd s')) ->
  good V P (Ok x) s'.
Proof.
  intros Hs Hv Hm HP. pose proof Hs as [He _]. split; [by rewrite Hv|].
  split; [by eapply ahead_move|done].
Qed.

Lemma good_same {A} V s s' (P : A -> C -> Prop) (r : outcome A) :
  ahead V s -> view s' = view s -> ctl (snd s') = ctl (snd s) ->
  match r with Ok x => P x (ctl (snd s')) | _ => True end -> good V P r s'.
Proof.
  intros Hs Hv Hc HP. pose proof Hs as [He _]. split; [by rewrite Hv|]. destruct r; [|done..].
  split; [|done]. eapply ahead_move; [done..|]. by rewrite Hc.
Qed.

(** The object at hand is stored. *)
Lemma ahead_store V s w' :
  ahead V s -> is_Some (view s !! kkey (snd s)) -> kview T w' = store_update (snd s) (view s) ->
  ahead V (w', snd s).
Proof.
  intros Hs Hin Hw. split; simpl; rewrite Hw; [by eapply ahead_put|].
  unfold store_update. intros a. case_decide; [by rewrite lookup_delete_eq|].
  rewrite lookup_insert_eq. by intros [= ->].
Qed.

Context {KL : KClientLaws W T}.

Lemma wp_put V s c (Q : outcome unit -> W * T -> Prop) :
  ahead V s -> ctl (snd s) = c ->
  (forall r s', good V (fun _ _ => True) r s' -> snd s' = snd s -> ctl (snd s') = c -> Q r s') ->
  wp (onW (k_update (snd s))) s Q.
Proof.
  intros Hs Hc HQ. apply wp_onW, wp_k_update.
  - intros w' Hin Hw. assert (ahead V (w', snd s)) as Hs' by by apply (ahead_store V s).
    apply HQ; [|done..]. split; [apply Hs'|by split].
  - intros e w' Hw. destruct Hs as [He Ha]. apply HQ; [|done..]. split; [|done].
    simpl. by rewrite Hw.
Qed.

(** A deletion marks the object or removes it. *)
Lemma evolves_delete V x r w w' :
  (forall t a, rtc move (ctl a) (ctl (kmark t a))) ->
  evolves V (kview T w) -> k_delete x w = (r, w') -> evolves V (kview T w').
Proof.
  intros Hmark He Hdel. pose proof (k_delete_law x w) as Hl. rewrite Hdel in Hl.
  destruct r as [[]|e|p]; [|destruct Hl as [_ Hw]; by rewrite Hw|done].
  destruct Hl as (y & Hy & Hgone & Hmk).
  destruct (decide (om_Finalizers (kmeta y) = [])) as [Hf|Hf].
  - rewrite (Hgone Hf). intros k a [_ Hk]%lookup_delete_Some. by apply He.
  - destruct (Hmk Hf) as [t ->]. intros k a [[<- <-]|[_ Hk]]%lookup_insert_Some; [|by apply He].
    destruct (He _ _ Hy) as (a0 & H0 & Hm). exists a0. split; [done|]. etrans; [exact Hm|apply Hmark].
Qed.
End evolution.

(** ** Counting stored objects *)

Section counting.
Context {T : Type} `{KObject T} (P : T -> Prop) `{forall x, Decision (P x)}.
Implicit Types (V : gmap (string * string) T).

Definition count_stored V : Z := Z.of_nat (length (filter P (map_to_list V).*2)).

Lemma count_delete (k : string * string) V : count_stored (delete k V) <= count_stored V.
Proof.
  unfold count_stored. destruct (V !! k) as [y|] eqn:Hy; [|by rewrite delete_id].
  rewrite <- (map_to_list_delete _ _ _ Hy). rewrite fmap_cons, filter_cons. case_decide; simpl; lia.
Qed.

Lemma count_insert (k : string * string) x V : count_stored (<[k := x]> V) <= count_stored V + 1.
Proof.
  pose proof (count_delete k V) as Hd. rewrite <- insert_delete_eq. unfold count_stored in *.
  rewrite map_to_list_insert by apply lookup_delete_eq. rewrite fmap_cons, filter_cons.
  case_decide; simpl; lia.
Qed.

Lemma count_update x V : count_stored (store_update x V) <= count_stored V + 1.
Proof.
  unfold store_update. case_decide; [|apply count_insert]. pose proof (count_delete (kkey x) V). lia.
Qed.
End counting.

(** What a list call finds. *)
Lemma listed_in {W T} `{KL : KClientLaws W T} opts (l : list T) (w : W) x :
  l ≡ₚ filter (list_matches opts) (map_to_list (kview T w)).*2 ->
  x ∈ l <-> kview T w !! kkey x = Some x /\ list_matches opts x.
Proof.
  intros Hl. rewrite Hl, list_elem_of_filter, list_elem_of_fmap. split.
  - intros [Hm ([k y] & -> & Hk%elem_of_map_to_list)]. simpl in *. by rewrite (k_view_keyed _ _ _ Hk).
  - intros [Hk Hm]. split; [done|]. exists (kkey x, x). by rewrite elem_of_map_to_list.
Qed.

(** What a list call finds in a namespace has different names. *)
Lemma listed_names {W T} `{KL : KClientLaws W T} ns labels (l : list T) (w : W) :
  ns <> "" -> l ≡ₚ filter (list_matches (mkListOptions ns labels)) (map_to_list (kview T w)).*2 ->
  NoDup (kname <$> l).
Proof.
  intros Hns Hl. apply NoDup_fmap_2_strong.
  - intros x y [Hx [Hnx _]]%(listed_in _ _ _ _ Hl) [Hy [Hny _]]%(listed_in _ _ _ _ Hl) He.
    simpl in *. destruct Hnx as [?|Hnx]; [done|]. destruct Hny as [?|Hny]; [done|].
    unfold kkey in *. rewrite Hnx, He in Hx. rewrite Hny in Hy. by rewrite Hx in Hy; injection Hy.
  - rewrite Hl. apply NoDup_filter, NoDup_fmap_2_strong; [|apply NoDup_map_to_list].
    intros [k x] [k' y] Hx%elem_of_map_to_list Hy%elem_of_map_to_list He. simpl in He. subst.
    by rewrite <- (k_view_keyed _ _ _ Hx), <- (k_view_keyed _ _ _ Hy).
Qed.

(** ** Removing stored objects *)

Section removing.
Context {T : Type} `{KObject T}.
Implicit Types (V : gmap (string * string) T) (items : list T) (x : T).

(** The store without some objects. *)
Definition without items V : gmap (string * string) T := filter (fun p => p.1 ∉ kkey <$> items) V.

Lemma without_nil V : without [] V = V.
Proof. apply map_filter_id. intros k x _. simpl. apply not_elem_of_nil. Qed.

Lemma without_cons x items V : without (x :: items) V = delete (kkey x) (without items V).
Proof.
  apply map_eq. intros k. unfold without. destruct (decide (k = kkey x)) as [->|Hk].
  - rewrite lookup_delete_eq. apply map_lookup_filter_None. right. intros y _. simpl. intros Hn. apply Hn. by left.
  - rewrite lookup_delete_ne by done. apply option_eq. intros y. rewrite !map_lookup_filter_Some. csimpl.
    rewrite elem_of_cons. naive_solver.
Qed.

Lemma without_lookup items V k x : without items V !! k = Some x <-> V !! k = Some x /\ k ∉ kkey <$> items.
Proof. unfold without. by rewrite map_lookup_filter_Some. Qed.
End removing.

(** The rules, with the machine of the goal. *)
Ltac by_ahead_move := match goal with |- ahead ?c ?m _ _ => eapply (ahead_move c m) end.
Ltac by_good_same := match goal with |- good ?c ?m _ _ _ _ => eapply (good_same c m) end.
Ltac by_good_moved := match goal with |- good ?c ?m _ _ _ _ => eapply (good_moved c m) end.
