(* ===== verification/GoJson.v ===== *)
(** The JSON text of a string, as [encoding/json] of Go 1.17 writes and reads it: the bytes of
    the text are taken apart into characters (a byte that starts no UTF-8 sequence is one
    that stands for U+FFFD), [Marshal] escapes them, [Unmarshal] into a string variable reads
    a quoted string or [null], between spaces.  The round trip holds for every string, up to
    the bytes that are no UTF-8. *)

From S2P Require Import Prelude.
From Stdlib Require Import Ascii.
Open Scope list_scope.
Open Scope Z_scope.

Definition code (b : ascii) : Z := Z.of_N (N_of_ascii b).
Definition byte (z : Z) : ascii := ascii_of_N (Z.to_N z).
Definition between (lo hi : Z) (b : ascii) : bool := (lo <=? code b) && (code b <=? hi).

(** ** Characters *)

Inductive character :=
| Single (b : ascii)              (* below 0x80 *)
| Multi (bs : list ascii)         (* a UTF-8 sequence *)
| Bad.                            (* a byte that starts none *)

Definition two (b b1 : ascii) : bool := between 194 223 b && between 128 191 b1.
Definition three (b b1 b2 : ascii) : bool :=
  between 128 191 b2 &&
  ((between 224 224 b && between 160 191 b1) || (between 225 236 b && between 128 191 b1) ||
   (between 237 237 b && between 128 159 b1) || (between 238 239 b && between 128 191 b1)).
Definition four (b b1 b2 b3 : ascii) : bool :=
  between 128 191 b2 && between 128 191 b3 &&
  ((between 240 240 b && between 144 191 b1) || (between 241 243 b && between 128 191 b1) ||
   (between 244 244 b && between 128 143 b1)).

(** [range s] of a string: [utf8.DecodeRune] again and again. *)
Fixpoint characters (s : list ascii) : list character :=
  match s with
  | [] => []
  | b :: s1 =>
      if between 0 127 b then Single b :: characters s1 else
      match s1 with
      | b1 :: s2 =>
          if two b b1 then Multi [b; b1] :: characters s2 else
          match s2 with
          | b2 :: s3 =>
              if three b b1 b2 then Multi [b; b1; b2] :: characters s3 else
              match s3 with
              | b3 :: s4 => if four b b1 b2 b3 then Multi [b; b1; b2; b3] :: characters s4 else Bad :: characters s1
              | [] => Bad :: characters s1
              end
          | [] => Bad :: characters s1
          end
      | [] => Bad :: characters s1
      end
  end.

(** The bytes of a code point below 0x10000, and of one above. *)
Definition utf8 (r : Z) : list ascii :=
  let low n := byte (128 + (r / n) mod 64) in
  if r <? 128 then [byte r]
  else if r <? 2048 then [byte (192 + r / 64); low 1]
  else if r <? 65536 then [byte (224 + r / 4096); low 64; low 1]
  else [byte (240 + r / 262144); low 4096; low 64; low 1].
Definition replacement : Z := 65533.

Definition character_bytes (c : character) : list ascii :=
  match c with Single b => [b] | Multi bs => bs | Bad => utf8 replacement end.

(** The string with U+FFFD for the bytes that are no UTF-8. *)
Definition valid_bytes (s : list ascii) : list ascii := concat (map character_bytes (characters s)).
Definition ToValidUTF8 (s : string) : string := String.string_of_list_ascii (valid_bytes (String.list_ascii_of_string s)).

(** ** Writing *)

Definition hex_digit (z : Z) : ascii := byte (if z <? 10 then 48 + z else 87 + z).
Definition backslash : ascii := byte 92.
Definition quotation : ascii := byte 34.
Definition unicode_escape (z : Z) : list ascii :=
  [backslash; "u"%char; hex_digit (z / 4096); hex_digit ((z / 256) mod 16); hex_digit ((z / 16) mod 16); hex_digit (z mod 16)].

(** The texts of [<], [>] and [&] are escaped, too. *)
Definition html_unsafe (b : ascii) : bool := existsb (Ascii.eqb b) ["<"%char; ">"%char; "&"%char].

Definition escaped (c : character) : list ascii :=
  match c with
  | Single b =>
      if Ascii.eqb b backslash || Ascii.eqb b quotation then [backslash; b]
      else if code b =? 10 then [backslash; "n"%char]
      else if code b =? 13 then [backslash; "r"%char]
      else if code b =? 9 then [backslash; "t"%char]
      else if (code b <? 32) || html_unsafe b then unicode_escape (code b)
      else [b]
  | Multi bs =>
      if decide (bs = utf8 8232) then unicode_escape 8232
      else if decide (bs = utf8 8233) then unicode_escape 8233
      else bs
  | Bad => unicode_escape replacement
  end.

Definition marshal_bytes (s : list ascii) : list ascii :=
  quotation :: concat (map escaped (characters s)) ++ [quotation].
(** [json.Marshal(s)]; it has no error for a string. *)
Definition json_Marshal_string (s : string) : string :=
  String.string_of_list_ascii (marshal_bytes (String.list_ascii_of_string s)).

(** ** Reading *)

Definition hex_value (b : ascii) : option Z :=
  if between 48 57 b then Some (code b - 48)
  else if between 97 102 b then Some (code b - 87)
  else if between 65 70 b then Some (code b - 55)
  else None.
Definition hex4 (a b c d : ascii) : option Z :=
  match hex_value a, hex_value b, hex_value c, hex_value d with
  | Some a, Some b, Some c, Some d => Some (4096 * a + 256 * b + 16 * c + d)
  | _, _, _, _ => None
  end.
(** The escapes of one letter. *)
Definition short_escape (b : ascii) : option ascii :=
  if Ascii.eqb b backslash || Ascii.eqb b quotation || Ascii.eqb b "/"%char then Some b
  else if Ascii.eqb b "b"%char then Some (byte 8)
  else if Ascii.eqb b "f"%char then Some (byte 12)
  else if Ascii.eqb b "n"%char then Some (byte 10)
  else if Ascii.eqb b "r"%char then Some (byte 13)
  else if Ascii.eqb b "t"%char then Some (byte 9)
  else None.

(** What stands between the quotes: bytes, and the numbers of [\u] escapes. *)
Inductive token := Plain (bs : list ascii) | Unit16 (u : Z).

Fixpoint tokens (l : list character) : option (list token * list character) :=
  match l with
  | [] => None
  | Single b :: l1 =>
      if Ascii.eqb b quotation then Some ([], l1)
      else if Ascii.eqb b backslash then
        match l1 with
        | Single e :: l2 =>
            if Ascii.eqb e "u"%char then
              match l2 with
              | Single h1 :: Single h2 :: Single h3 :: Single h4 :: l3 =>
                  match hex4 h1 h2 h3 h4, tokens l3 with
                  | Some u, Some (ts, rest) => Some (Unit16 u :: ts, rest)
                  | _, _ => None
                  end
              | _ => None
              end
            else match short_escape e, tokens l2 with
                 | Some b, Some (ts, rest) => Some (Plain [b] :: ts, rest)
                 | _, _ => None
                 end
        | _ => None
        end
      else if code b <? 32 then None
      else match tokens l1 with Some (ts, rest) => Some (Plain [b] :: ts, rest) | None => None end
  | c :: l1 => match tokens l1 with Some (ts, rest) => Some (Plain (character_bytes c) :: ts, rest) | None => None end
  end.

Definition is_high (u : Z) : bool := (55296 <=? u) && (u <? 56320).
Definition is_low (u : Z) : bool := (56320 <=? u) && (u <? 57344).

(** Two surrogates in a row are one code point; one on its own is replaced. *)
Fixpoint unescape (ts : list token) : list ascii :=
  match ts with
  | [] => []
  | Plain bs :: ts => bs ++ unescape ts
  | Unit16 u :: ts1 =>
      if is_high u || is_low u then
        match ts1 with
        | Unit16 v :: ts2 =>
            if is_high u && is_low v then utf8 (65536 + 1024 * (u - 55296) + (v - 56320)) ++ unescape ts2
            else utf8 replacement ++ unescape ts1
        | _ => utf8 replacement ++ unescape ts1
        end
      else utf8 u ++ unescape ts1
  end.

Definition is_space (c : character) : bool :=
  match c with Single b => existsb (Z.eqb (code b)) [32; 9; 13; 10] | _ => false end.
Fixpoint skip_spaces (l : list character) : list character :=
  match l with c :: l1 => if is_space c then skip_spaces l1 else l | [] => [] end.

(** [json.Unmarshal(b, &str)] of an empty [str]: [null] leaves it as it is; [None] is an error,
    for what is no JSON as well as for another kind of value. *)
Definition unmarshal_bytes (b : list ascii) : option (list ascii) :=
  match skip_spaces (characters b) with
  | Single q :: l =>
      if Ascii.eqb q quotation then
        match tokens l with
        | Some (ts, rest) => if forallb is_space rest then Some (unescape ts) else None
        | None => None
        end
      else match l with
           | Single u :: Single l1 :: Single l2 :: rest =>
               if String.eqb (String.string_of_list_ascii [q; u; l1; l2]) "null" && forallb is_space rest
               then Some [] else None
           | _ => None
           end
  | _ => None
  end.
Definition json_Unmarshal_string (b : string) : option string :=
  String.string_of_list_ascii <$> unmarshal_bytes (String.list_ascii_of_string b).

(** ** Round trip *)

Definition well_formed (c : character) : Prop :=
  match c with
  | Single b => between 0 127 b = true
  | Multi [b; b1] => two b b1 = true
  | Multi [b; b1; b2] => three b b1 b2 = true
  | Multi [b; b1; b2; b3] => four b b1 b2 b3 = true
  | Multi _ => False
  | Bad => True
  end.

(** The length of a sequence is told by its first byte. *)
Lemma two_first b b1 : two b b1 = true -> 194 <= code b <= 223.
Proof. unfold two, between. lia. Qed.
Lemma three_first b b1 b2 : three b b1 b2 = true -> 224 <= code b <= 239.
Proof. unfold three, between. lia. Qed.
Lemma four_first b b1 b2 b3 : four b b1 b2 b3 = true -> 240 <= code b <= 244.
Proof. unfold four, between. lia. Qed.
Lemma between_false lo hi b : code b < lo \/ hi < code b -> between lo hi b = false.
Proof. unfold between. lia. Qed.

Lemma characters_app c s :
  c <> Bad -> well_formed c -> characters (character_bytes c ++ s) = c :: characters s.
Proof.
  destruct c as [b|bs|]; [|destruct bs as [|b [|b1 [|b2 [|b3 [|]]]]]|]; intros Hb H; try done; simpl in *.
  - by rewrite H.
  - pose proof (two_first _ _ H). rewrite between_false by lia. by rewrite H.
  - pose proof (three_first _ _ _ H). rewrite between_false by lia.
    destruct (two b b1) eqn:E; [apply two_first in E; lia|]. by rewrite H.
  - pose proof (four_first _ _ _ _ H). rewrite between_false by lia.
    destruct (two b b1) eqn:E; [apply two_first in E; lia|].
    destruct (three b b1 b2) eqn:E3; [apply three_first in E3; lia|]. by rewrite H.
Qed.

(** Induction along the characters of a string. *)
Lemma characters_ind (P : list ascii -> Prop) :
  P [] ->
  (forall c s, c <> Bad -> well_formed c -> P s -> P (character_bytes c ++ s)) ->
  (forall b s, characters (b :: s) = Bad :: characters s -> P s -> P (b :: s)) ->
  forall s, P s.
Proof.
  intros Hnil Hgood Hbad s. induction s as [s IH] using (induction_ltof1 _ length). unfold ltof in IH.
  destruct s as [|b s]; [done|].
  destruct (between 0 127 b) eqn:E; [apply (Hgood (Single b)); [done..|]; apply IH; simpl; lia|].
  destruct s as [|b1 s]; [apply Hbad; [by simpl; rewrite E|done]|].
  destruct (two b b1) eqn:E2; [apply (Hgood (Multi [b; b1])); [done..|]; apply IH; simpl; lia|].
  destruct s as [|b2 s]; [apply Hbad; [by simpl; rewrite E, E2|apply IH; simpl; lia]|].
  destruct (three b b1 b2) eqn:E3; [apply (Hgood (Multi [b; b1; b2])); [done..|]; apply IH; simpl; lia|].
  destruct s as [|b3 s]; [apply Hbad; [by cbn [characters]; rewrite E, E2, E3|apply IH; simpl; lia]|].
  destruct (four b b1 b2 b3) eqn:E4; [apply (Hgood (Multi [b; b1; b2; b3])); [done..|]; apply IH; simpl; lia|].
  apply Hbad; [by cbn [characters]; rewrite E, E2, E3, E4|apply IH; simpl; lia].
Qed.

Lemma characters_well_formed s : Forall well_formed (characters s).
Proof.
  induction s as [|c s Hc Hw IH|b s Hs IH] using characters_ind; [constructor|..].
  - rewrite characters_app by done. by constructor.
  - rewrite Hs. by constructor.
Qed.

(** What the reader makes of an escaped character. *)
Definition token_of (c : character) : token :=
  match c with
  | Single b =>
      if (code b <? 32) && negb (existsb (Z.eqb (code b)) [9; 10; 13]) || html_unsafe b then Unit16 (code b)
      else Plain [b]
  | Multi bs => if decide (bs = utf8 8232) then Unit16 8232 else if decide (bs = utf8 8233) then Unit16 8233 else Plain bs
  | Bad => Unit16 replacement
  end.

Lemma tokens_escaped c s :
  well_formed c ->
  tokens (characters (escaped c ++ s)) =
    match tokens (characters s) with Some (ts, rest) => Some (token_of c :: ts, rest) | None => None end.
Proof.
  destruct c as [b|bs|]; intros Hc.
  - destruct b as [[] [] [] [] [] [] [] []]; try done; reflexivity.
  - unfold escaped, token_of. case_decide; [reflexivity|]. case_decide; [reflexivity|].
    by rewrite (characters_app (Multi bs)).
  - reflexivity.
Qed.

Lemma unescape_token c ts : well_formed c -> unescape (token_of c :: ts) = character_bytes c ++ unescape ts.
Proof.
  destruct c as [b|bs|]; intros Hc.
  - destruct b as [[] [] [] [] [] [] [] []]; try done; reflexivity.
  - unfold token_of. case_decide; [by subst|]. by case_decide; [subst|].
  - reflexivity.
Qed.

Lemma tokens_written cs :
  Forall well_formed cs ->
  tokens (characters (concat (map escaped cs) ++ [quotation])) = Some (map token_of cs, []).
Proof.
  induction 1 as [|c cs Hc _ IH]; [reflexivity|]. cbn [map concat]. rewrite <- app_assoc.
  by rewrite tokens_escaped, IH.
Qed.

Lemma unescape_tokens cs : Forall well_formed cs -> unescape (map token_of cs) = concat (map character_bytes cs).
Proof. induction 1 as [|c cs Hc _ IH]; [done|]. cbn [map concat]. by rewrite unescape_token, IH. Qed.

(** Reading what has been written gives the string, with U+FFFD for what is no UTF-8. *)
Lemma json_string_round_trip s : json_Unmarshal_string (json_Marshal_string s) = Some (ToValidUTF8 s).
Proof.
  unfold json_Unmarshal_string, json_Marshal_string, ToValidUTF8. rewrite String.list_ascii_of_string_of_list_ascii.
  set (l := String.list_ascii_of_string s). unfold unmarshal_bytes, marshal_bytes.
  change (characters (quotation :: ?x)) with (Single quotation :: characters x). simpl.
  pose proof (characters_well_formed l) as Hw. rewrite tokens_written by done. simpl. by rewrite unescape_tokens.
Qed.

(** A string that comes out as ASCII went in as it is. *)
Definition ascii_only (s : string) : bool := forallb (between 0 127) (String.list_ascii_of_string s).
Lemma valid_bytes_ascii l : forallb (between 0 127) (valid_bytes l) = true -> valid_bytes l = l.
Proof.
  unfold valid_bytes. induction l as [|c s Hc Hw IH|b s Hs IH] using characters_ind; [done|..].
  - rewrite characters_app by done. cbn [map concat]. rewrite forallb_app. intros [_ H]%andb_prop. by rewrite IH.
  - rewrite Hs. done.
Qed.
Lemma ToValidUTF8_ascii s : ascii_only (ToValidUTF8 s) = true -> ToValidUTF8 s = s.
Proof.
  unfold ascii_only, ToValidUTF8. rewrite String.list_ascii_of_string_of_list_ascii. intros H.
  by rewrite valid_bytes_ascii, String.string_of_list_ascii_of_string.
Qed.
Lemma ascii_valid l : forallb (between 0 127) l = true -> valid_bytes l = l.
Proof.
  unfold valid_bytes. induction l as [|b l IH]; [done|]. cbn [forallb characters]. intros [-> H]%andb_prop.
  cbn [map concat character_bytes app]. by rewrite IH.
Qed.
Lemma ascii_ToValidUTF8 s : ascii_only s = true -> ToValidUTF8 s = s.
Proof. unfold ToValidUTF8. intros H. by rewrite ascii_valid, String.string_of_list_ascii_of_string. Qed.
