(* ===== verification/ConfigTypes.v ===== *)
(** Model of [api/v1/config_types.go]: the configuration of a team, and the
    overriding of a test runner's configuration field by field. *)

From S2P Require Import Prelude.
From S2P Require Import GoRuntime.
From S2P Require Import Errors.
From S2P Require Import KubeApi.
From S2P Require Import GoJson.
Open Scope string_scope.
Open Scope list_scope.
Open Scope Z_scope.

(** A JSON value; a number is kept as its literal. *)
Inductive Json :=
| JNull
| JBool (b : bool)
| JNumber (literal : string)
| JString (s : string)
| JArray (l : list Json)
| JObject (l : list (string * Json)).

(** [corev1.ResourceList]: quantities by resource name. *)
Definition ResourceList := gmap string string.
(** [metav1.Duration], in nanoseconds. *)
Definition Duration := Z.

Definition ComponentValues := list (string * Json).

Record ComponentImage := mkComponentImage {
  ci_Repository : string; ci_Tag : string; ci_Pattern : string }.
Record ComponentChart := mkComponentChart {
  cc_Repository : string; cc_Name : string; cc_Version : string }.

(** [UpdatingSource] is a string with one known value per checker. *)
Definition UpdatingSource := string.

Record Dependency := mkDependency {
  dep_Parent : string;
  dep_Name : string;
  dep_Chart : ComponentChart;
  dep_Image : ComponentImage;
  dep_Values : ComponentValues;
  dep_Source : option UpdatingSource;
  dep_Schedules : list string;
}.

Record Component := mkComponent {
  cp_Parent : string;
  cp_Name : string;
  cp_Chart : ComponentChart;
  cp_Image : ComponentImage;
  cp_Values : ComponentValues;
  cp_Source : option UpdatingSource;
  cp_Schedules : list string;
  cp_Dependencies : list Dependency;
}.

Definition ConfigBundles := gmap string (list string).

(** ** Test runners *)

Record ConfigTeamcity := mkConfigTeamcity { tc_BuildTypeID : string; tc_Branch : string }.
Record ConfigTeamcityOverrider := mkConfigTeamcityOverrider {
  tco_BuildTypeID : option string; tco_Branch : option string }.
Record ConfigGitlab := mkConfigGitlab {
  gl_ProjectID : string;
  gl_PipelineTriggerToken : string;
  gl_Branch : string;
  gl_InferBranch : option bool;
}.
Record ConfigGitlabOverrider := mkConfigGitlabOverrider {
  glo_ProjectID : option string;
  glo_PipelineTriggerToken : option string;
  glo_Branch : option string;
  glo_InferBranch : option bool;
}.
Record ConfigTestMock := mkConfigTestMock { tm_Result : bool }.
Record ConfigTestRunner := mkConfigTestRunner {
  tr_Timeout : Duration;
  tr_PollingTime : Duration;
  tr_Gitlab : option ConfigGitlab;
  tr_Teamcity : option ConfigTeamcity;
  tr_TestMock : option ConfigTestMock;
}.
Record ConfigTestRunnerOverrider := mkConfigTestRunnerOverrider {
  tro_Timeout : option Duration;
  tro_PollingTime : option Duration;
  tro_Gitlab : option ConfigGitlabOverrider;
  tro_Teamcity : option ConfigTeamcityOverrider;
  tro_TestMock : option ConfigTestMock;
}.
#[export] Instance eta_ConfigTeamcity : Eta ConfigTeamcity := fun x =>
  mkConfigTeamcity (tc_BuildTypeID x) (tc_Branch x).
#[export] Instance eta_ConfigGitlab : Eta ConfigGitlab := fun x =>
  mkConfigGitlab (gl_ProjectID x) (gl_PipelineTriggerToken x) (gl_Branch x) (gl_InferBranch x).
#[export] Instance eta_ConfigTestRunner : Eta ConfigTestRunner := fun x =>
  mkConfigTestRunner (tr_Timeout x) (tr_PollingTime x) (tr_Gitlab x) (tr_Teamcity x) (tr_TestMock x).

#[export] Instance config_teamcity_eq_dec : EqDecision ConfigTeamcity.
Proof. solve_decision. Defined.
#[export] Instance config_teamcity_overrider_eq_dec : EqDecision ConfigTeamcityOverrider.
Proof. solve_decision. Defined.
#[export] Instance config_gitlab_eq_dec : EqDecision ConfigGitlab.
Proof. solve_decision. Defined.
#[export] Instance config_gitlab_overrider_eq_dec : EqDecision ConfigGitlabOverrider.
Proof. solve_decision. Defined.
#[export] Instance config_test_mock_eq_dec : EqDecision ConfigTestMock.
Proof. solve_decision. Defined.
#[export] Instance config_test_runner_eq_dec : EqDecision ConfigTestRunner.
Proof. solve_decision. Defined.
#[export] Instance config_test_runner_overrider_eq_dec : EqDecision ConfigTestRunnerOverrider.
Proof. solve_decision. Defined.

Definition zeroTeamcity : ConfigTeamcity := mkConfigTeamcity "" "".
Definition zeroGitlab : ConfigGitlab := mkConfigGitlab "" "" "" None.
Definition zeroTestRunner : ConfigTestRunner := mkConfigTestRunner 0 0 None None None.

(** One [if c.Field != nil { ensure(); conf.Field = *c.Field }]. *)
Definition override_field {R V} (zero : R) (set : V -> R -> R) (v : option V) (conf : option R)
    : option R :=
  match v with
  | None => conf
  | Some v => Some (set v (default zero conf))
  end.

(** The [Override] methods rewrite the configuration they are given in place, or
    return a new one when they are given [nil]: the result is the new value of the
    object in both cases. *)
Definition TeamcityOverride (c : ConfigTeamcityOverrider) (conf : option ConfigTeamcity)
    : option ConfigTeamcity :=
  let conf := override_field zeroTeamcity (set_field tc_BuildTypeID) (tco_BuildTypeID c) conf in
  override_field zeroTeamcity (set_field tc_Branch) (tco_Branch c) conf.

Definition GitlabOverride (c : ConfigGitlabOverrider) (conf : option ConfigGitlab)
    : option ConfigGitlab :=
  let conf := override_field zeroGitlab (set_field gl_ProjectID) (glo_ProjectID c) conf in
  let conf := override_field zeroGitlab (set_field gl_Branch) (glo_Branch c) conf in
  let conf := override_field zeroGitlab (set_field gl_PipelineTriggerToken)
                (glo_PipelineTriggerToken c) conf in
  override_field zeroGitlab (fun b => set_field gl_InferBranch (Some b)) (glo_InferBranch c) conf.

Definition Override (c : ConfigTestRunnerOverrider) (conf : option ConfigTestRunner)
    : option ConfigTestRunner :=
  let conf := override_field zeroTestRunner (set_field tr_Timeout) (tro_Timeout c) conf in
  let conf := override_field zeroTestRunner (set_field tr_PollingTime) (tro_PollingTime c) conf in
  let conf := override_field zeroTestRunner
                (fun g r => r <| tr_Gitlab := GitlabOverride g (tr_Gitlab r) |>) (tro_Gitlab c) conf in
  let conf := override_field zeroTestRunner
                (fun t r => r <| tr_Teamcity := TeamcityOverride t (tr_Teamcity r) |>)
                (tro_Teamcity c) conf in
  override_field zeroTestRunner (fun m => set_field tr_TestMock (Some m)) (tro_TestMock c) conf.

Definition GetInferBranch (c : ConfigGitlab) : bool := default true (gl_InferBranch c).
Definition SetInferBranch (inferBranch : bool) (c : ConfigGitlab) : ConfigGitlab :=
  c <| gl_InferBranch := Some inferBranch |>.

(** ** Deployment, staging and promotion *)

Record ConfigDeploy := mkConfigDeploy {
  cd_Timeout : Duration;
  cd_ComponentCleanupTimeout : Duration;
  cd_Engine : option string;
  cd_TestRunner : option ConfigTestRunner;
}.
Record ConfigStaging := mkConfigStaging {
  cs_Deployment : option ConfigDeploy;
  cs_MaxRetry : Z;
  cs_MaxHistoryDays : Z;
}.
Record OutdatedNotification := mkOutdatedNotification {
  on_ExceedDuration : Duration;
  on_ExcludeWeekendCalculation : bool;
}.
Record ConfigActivePromotion := mkConfigActivePromotion {
  ca_Timeout : Duration;
  ca_DemotionTimeout : Duration;
  ca_RollbackTimeout : Duration;
  ca_MaxRetry : option Z;
  ca_MaxHistories : Z;
  ca_TearDownDuration : Duration;
  ca_OutdatedNotification : option OutdatedNotification;
  ca_NoDowntimeGuarantee : bool;
  ca_Deployment : option ConfigDeploy;
}.

(** ** Reporters *)

Record ReportOption := mkReportOption { ro_Key : string; ro_Value : string }.
Inductive ReporterInterval := IntervalEveryTime | IntervalRetry | OtherInterval (s : string).
Inductive ReporterCriteria :=
  CriteriaSuccess | CriteriaFailure | CriteriaBoth | OtherCriteria (s : string).

Record ConfigComponentUpgradeReport := mkConfigComponentUpgradeReport {
  cur_Interval : ReporterInterval;
  cur_Criteria : ReporterCriteria;
  cur_ExtraMessage : string;
}.
Record ConfigActivePromotionReport := mkConfigActivePromotionReport { apr_ExtraMessage : string }.
Record ConfigPullRequestTriggerReport := mkConfigPullRequestTriggerReport {
  ptr_Criteria : ReporterCriteria;
  ptr_ExtraMessage : string;
}.
Record ConfigPullRequestQueueReport := mkConfigPullRequestQueueReport {
  pqr_Interval : ReporterInterval;
  pqr_Criteria : ReporterCriteria;
  pqr_ExtraMessage : string;
}.
Record ReporterSlack := mkReporterSlack {
  rs_Channels : list string;
  rs_ExtraMessage : string;
  rs_ComponentUpgrade : option ConfigComponentUpgradeReport;
  rs_ActivePromotion : option ConfigActivePromotionReport;
  rs_PullRequestTrigger : option ConfigPullRequestTriggerReport;
  rs_PullRequestQueue : option ConfigPullRequestQueueReport;
}.
Record MSTeamsGroup := mkMSTeamsGroup {
  mg_GroupNameOrID : string; mg_ChannelNameOrIDs : list string }.
Record ReporterMSTeams := mkReporterMSTeams {
  rm_Groups : list MSTeamsGroup;
  rm_ComponentUpgrade : option ConfigComponentUpgradeReport;
  rm_PullRequestTrigger : option ConfigPullRequestTriggerReport;
  rm_PullRequestQueue : option ConfigPullRequestQueueReport;
}.
Record ReporterGithub := mkReporterGithub { rgh_Enabled : bool; rgh_BaseURL : string }.
Record ReporterGitlab := mkReporterGitlab { rgl_Enabled : bool; rgl_BaseURL : string }.
Record Endpoint := mkEndpoint { ep_URL : string }.
Record RestObject := mkRestObject { rest_Endpoints : list Endpoint }.
Record ReporterRest := mkReporterRest {
  rr_ComponentUpgrade : option RestObject;
  rr_ActivePromotion : option RestObject;
  rr_ImageMissing : option RestObject;
  rr_PullRequestTrigger : option RestObject;
  rr_PullRequestQueue : option RestObject;
}.
Record CommandAndArgs := mkCommandAndArgs { ca_Command : list string; ca_Args : list string }.
Record ReporterShell := mkReporterShell {
  rsh_ComponentUpgrade : option CommandAndArgs;
  rsh_ActivePromotion : option CommandAndArgs;
  rsh_ImageMissing : option CommandAndArgs;
  rsh_PullRequestTrigger : option CommandAndArgs;
  rsh_PullRequestQueue : option CommandAndArgs;
  rsh_ActiveEnvironmentDeleted : option CommandAndArgs;
}.
Record ConfigReporter := mkConfigReporter {
  cr_Optional : list ReportOption;
  cr_Slack : option ReporterSlack;
  cr_MSTeams : option ReporterMSTeams;
  cr_Github : option ReporterGithub;
  cr_Gitlab : option ReporterGitlab;
  cr_Rest : option ReporterRest;
  cr_Shell : option ReporterShell;
  cr_ReportMock : bool;
}.

(** ** Environments and pull requests *)

Inductive EnvType :=
  EnvBase | EnvStaging | EnvPreActive | EnvActive | EnvDeActive | EnvPullRequest
| OtherEnv (s : string).
#[export] Instance env_type_eq_dec : EqDecision EnvType.
Proof. solve_decision. Defined.

Definition env_string (e : EnvType) : string :=
  match e with
  | EnvBase => "base"
  | EnvStaging => "staging"
  | EnvPreActive => "pre-active"
  | EnvActive => "active"
  | EnvDeActive => "de-active"
  | EnvPullRequest => "pull-request"
  | OtherEnv s => s
  end.

Definition ChartValuesURLs := gmap string (list string).

(** The criteria is a string; the unmarshaller lets four texts in. *)
Definition PullRequestTearDownDurationCriteria := string.
Definition PullRequestTearDownDurationCriteriaBoth : string := "both".
Definition PullRequestTearDownDurationCriteriaFailure : string := "failure".
Definition PullRequestTearDownDurationCriteriaSuccess : string := "success".

(** On a JSON text; the error of [json.Unmarshal] for a text is a parameter. *)
Definition UnmarshalCriteria (json_error : string -> error) (b : string) : error + PullRequestTearDownDurationCriteria :=
  match json_Unmarshal_string b with
  | None => inl (json_error b)
  | Some str =>
      if String.eqb str "" then inr PullRequestTearDownDurationCriteriaFailure
      else if String.eqb str PullRequestTearDownDurationCriteriaBoth
      then inr PullRequestTearDownDurationCriteriaBoth
      else if String.eqb str PullRequestTearDownDurationCriteriaFailure
      then inr PullRequestTearDownDurationCriteriaFailure
      else if String.eqb str PullRequestTearDownDurationCriteriaSuccess
      then inr PullRequestTearDownDurationCriteriaSuccess
      else inl (New (str +:+ " is not a valid tearDownDuration criteria"))
  end.

(** The JSON text; [json.Marshal] has no error for a string. *)
Definition MarshalCriteria (c : PullRequestTearDownDurationCriteria) : string :=
  json_Marshal_string (if String.eqb c "" then PullRequestTearDownDurationCriteriaFailure else c).

Record PullRequestTearDownDuration := mkPullRequestTearDownDuration {
  td_Duration : Duration;
  td_Criteria : PullRequestTearDownDurationCriteria;
}.
Record PullRequestTriggerConfig := mkPullRequestTriggerConfig {
  ptc_PollingTime : Duration;
  ptc_MaxRetry : option Z;
}.
Record PullRequestExtraConfig := mkPullRequestExtraConfig {
  pec_MaxRetry : option Z;
  pec_Resources : option ResourceList;
  pec_TearDownDuration : option PullRequestTearDownDuration;
}.
Record PullRequestComponent := mkPullRequestComponent {
  prc_Name : string;
  prc_Image : ComponentImage;
  prc_Source : option UpdatingSource;
  prc_Extra : PullRequestExtraConfig;
}.
Record PullRequestBundle := mkPullRequestBundle {
  prb_Name : string;
  prb_Components : list PullRequestComponent;
  prb_Deployment : option ConfigDeploy;
  prb_Dependencies : list string;
  prb_GitRepository : string;
  prb_GitProjectID : string;
  prb_Extra : PullRequestExtraConfig;
}.
Record ConfigPullRequest := mkConfigPullRequest {
  cpr_MaxHistoryDays : Z;
  cpr_Trigger : PullRequestTriggerConfig;
  cpr_BundleSlice : option (list PullRequestBundle);   (* [nil] when it is not given *)
  cpr_Concurrences : Z;
  cpr_Extra : PullRequestExtraConfig;
}.

Definition cpr_Bundles (c : ConfigPullRequest) : list PullRequestBundle := default [] (cpr_BundleSlice c).

(** ** The configuration *)

Record ConfigSpec := mkConfigSpec {
  cf_Components : list Component;
  cf_Bundles : ConfigBundles;
  cf_PriorityQueues : list string;
  cf_Staging : option ConfigStaging;
  cf_ActivePromotion : option ConfigActivePromotion;
  cf_PullRequest : option ConfigPullRequest;
  cf_Envs : list (EnvType * ChartValuesURLs);
  cf_Reporter : option ConfigReporter;
  cf_Template : string;
}.

Inductive ConfigConditionType := ConfigUsedUpdated | ConfigRequiredFieldsValidated.
#[export] Instance config_condition_type_eq_dec : EqDecision ConfigConditionType.
Proof. solve_decision. Defined.

Record ConfigStatus := mkConfigStatus {
  cst_Used : ConfigSpec;
  cst_TemplateUID : string;
  cst_SyncTemplate : bool;
  cst_Conditions : list (Condition ConfigConditionType);
}.
#[export] Instance eta_ConfigStatus : Eta ConfigStatus := fun x =>
  mkConfigStatus (cst_Used x) (cst_TemplateUID x) (cst_SyncTemplate x) (cst_Conditions x).

Record Config := mkConfig {
  config_Meta : ObjectMeta;
  config_Spec : ConfigSpec;
  config_Status : ConfigStatus;
}.
#[export] Instance eta_Config : Eta Config := fun x =>
  mkConfig (config_Meta x) (config_Spec x) (config_Status x).
#[export] Instance config_object : KObject Config := config_Meta.
#[export] Instance config_mark : KMark Config := fun t x => x <| config_Meta ::= mark_deleted t |>.
#[export] Instance config_mark_laws : KMarkLaws Config.
Proof. intros t x. apply (mark_deleted_key t (config_Meta x)). Qed.

Definition ConfigIsConditionTrue (cs : ConfigStatus) (cond : ConfigConditionType) : bool :=
  is_condition_true cond (cst_Conditions cs).
Definition ConfigSetCondition (t : Z) (cond : ConfigConditionType) (status : ConditionStatus)
    (message : string) (cs : ConfigStatus) : ConfigStatus :=
  cs <| cst_Conditions ::= set_condition cond status message t |>.

(** ** Facts about overriding *)

Section override.
Context {R V : Type} (zero : R) (set : V -> R -> R).

Lemma override_field_default v conf :
  default zero (override_field zero set v conf)
  = match v with None => default zero conf | Some v => set v (default zero conf) end.
Proof. by destruct v. Qed.

Lemma override_field_none v conf :
  override_field zero set v conf = None <-> v = None /\ conf = None.
Proof. destruct v; naive_solver. Qed.
End override.

Definition given {A} (v : option A) (old : A) : A := default old v.

Lemma TeamcityOverride_fields c conf :
  let r := default zeroTeamcity (TeamcityOverride c conf) in
  let o := default zeroTeamcity conf in
  r = mkConfigTeamcity (given (tco_BuildTypeID c) (tc_BuildTypeID o))
        (given (tco_Branch c) (tc_Branch o)).
Proof. destruct c as [[] []], conf as [[]|]; done. Qed.

Lemma GitlabOverride_fields c conf :
  let r := default zeroGitlab (GitlabOverride c conf) in
  let o := default zeroGitlab conf in
  r = mkConfigGitlab (given (glo_ProjectID c) (gl_ProjectID o))
        (given (glo_PipelineTriggerToken c) (gl_PipelineTriggerToken o))
        (given (glo_Branch c) (gl_Branch o))
        (match glo_InferBranch c with Some b => Some b | None => gl_InferBranch o end).
Proof. destruct c as [[] [] [] []], conf as [[]|]; done. Qed.

Lemma TeamcityOverride_nil c conf :
  TeamcityOverride c conf = None <-> c = mkConfigTeamcityOverrider None None /\ conf = None.
Proof. destruct c as [[] []], conf as [[]|]; naive_solver. Qed.

Lemma GitlabOverride_nil c conf :
  GitlabOverride c conf = None <-> c = mkConfigGitlabOverrider None None None None /\ conf = None.
Proof. destruct c as [[] [] [] []], conf as [[]|]; naive_solver. Qed.

Lemma TeamcityOverride_idem c conf :
  TeamcityOverride c (TeamcityOverride c conf) = TeamcityOverride c conf.
Proof. destruct c as [[] []], conf as [[]|]; done. Qed.

Lemma GitlabOverride_idem c conf :
  GitlabOverride c (GitlabOverride c conf) = GitlabOverride c conf.
Proof. destruct c as [[] [] [] []], conf as [[]|]; done. Qed.

(** What a test runner overrider means, field by field, on the configuration
    behind a pointer ([nil] counts as the zero configuration). *)
Definition overridden (c : ConfigTestRunnerOverrider) (o : ConfigTestRunner) : ConfigTestRunner :=
  mkConfigTestRunner (given (tro_Timeout c) (tr_Timeout o))
    (given (tro_PollingTime c) (tr_PollingTime o))
    (match tro_Gitlab c with Some g => GitlabOverride g (tr_Gitlab o) | None => tr_Gitlab o end)
    (match tro_Teamcity c with
     | Some t => TeamcityOverride t (tr_Teamcity o) | None => tr_Teamcity o end)
    (match tro_TestMock c with Some m => Some m | None => tr_TestMock o end).

Lemma overridden_idem c o : overridden c (overridden c o) = overridden c o.
Proof.
  destruct c as [[] [] [] [] []]; unfold overridden; simpl; f_equal;
    auto using GitlabOverride_idem, TeamcityOverride_idem.
Qed.

Lemma Override_default c conf :
  default zeroTestRunner (Override c conf) = overridden c (default zeroTestRunner conf).
Proof. destruct c as [[] [] [] [] []], conf as [[]|]; done. Qed.

Lemma Override_nil c conf :
  Override c conf = None <->
  c = mkConfigTestRunnerOverrider None None None None None /\ conf = None.
Proof. destruct c as [[] [] [] [] []], conf as [[]|]; naive_solver. Qed.

Definition nothing_overridden : ConfigTestRunnerOverrider :=
  mkConfigTestRunnerOverrider None None None None None.

(** an overrider replaces the fields that it gives and keeps the others, the nested
    runners field by field as well; only an overrider that gives nothing returns the
    configuration, [nil] or not, as it is; to override twice is to override once. *)
Theorem Override_reference c conf :
  Override c conf = (if decide (c = nothing_overridden) then conf
                     else Some (overridden c (default zeroTestRunner conf))) /\
  Override c (Override c conf) = Override c conf.
Proof.
  assert (forall conf, Override c conf = if decide (c = nothing_overridden) then conf
    else Some (overridden c (default zeroTestRunner conf))) as H.
  { intros o. case_decide as Hc; [by rewrite Hc|]. rewrite <- Override_default.
    destruct (Override c o) eqn:Ho; [done|]. by apply Override_nil in Ho as [? _]. }
  split; [apply H|]. rewrite (H (Override c conf)), (H conf). case_decide; [done|]. simpl. by rewrite overridden_idem.
Qed.

Definition criteria : list PullRequestTearDownDurationCriteria :=
  [PullRequestTearDownDurationCriteriaBoth; PullRequestTearDownDurationCriteriaFailure;
   PullRequestTearDownDurationCriteriaSuccess].

Lemma criteria_spec c : c ∈ criteria <-> c = "both" \/ c = "failure" \/ c = "success".
Proof. unfold criteria. rewrite !elem_of_cons, elem_of_nil. naive_solver. Qed.

(** Every string is one of the three, unset, or refused. *)
Lemma UnmarshalCriteria_cases json_error b str :
  json_Unmarshal_string b = Some str ->
  str = "" /\ UnmarshalCriteria json_error b = inr PullRequestTearDownDurationCriteriaFailure \/
  str ∈ criteria /\ UnmarshalCriteria json_error b = inr str \/
  str <> "" /\ str ∉ criteria /\
    UnmarshalCriteria json_error b = inl (New (str +:+ " is not a valid tearDownDuration criteria")).
Proof.
  intros H. unfold UnmarshalCriteria. rewrite H, criteria_spec.
  unfold PullRequestTearDownDurationCriteriaBoth, PullRequestTearDownDurationCriteriaFailure,
    PullRequestTearDownDurationCriteriaSuccess.
  repeat match goal with |- context [String.eqb ?a ?b] => destruct (String.eqb_spec a b); subst end; naive_solver.
Qed.

Lemma criteria_ascii c : c ∈ criteria -> ascii_only c = true.
Proof. rewrite criteria_spec. by intros [->|[->| ->]]. Qed.

(** C40: the round trip of the tear-down criteria through its JSON text.  Exactly the three
    criteria come back from their text; an unset one is written, and comes back, as "failure", and any other
    is refused.  Of the texts, those of a string that is one of the three are accepted as
    it; those of the empty string, and [null], are accepted as "failure"; those of another
    string, and what is no JSON string at all, are errors, the latter the one of the
    decoder. *)
Theorem criteria_round_trip json_error c :
  (UnmarshalCriteria json_error (MarshalCriteria c) = inr c <-> c ∈ criteria) /\
  MarshalCriteria "" = MarshalCriteria PullRequestTearDownDurationCriteriaFailure /\
  UnmarshalCriteria json_error (MarshalCriteria "") = inr PullRequestTearDownDurationCriteriaFailure /\
  (c <> "" -> c ∉ criteria -> exists e, UnmarshalCriteria json_error (MarshalCriteria c) = inl e) /\
  UnmarshalCriteria json_error "null" = inr PullRequestTearDownDurationCriteriaFailure /\
  forall text,
    match json_Unmarshal_string text with
    | Some str =>
        if decide (str ∈ criteria) then UnmarshalCriteria json_error text = inr str
        else if decide (str = "") then UnmarshalCriteria json_error text = inr PullRequestTearDownDurationCriteriaFailure
        else UnmarshalCriteria json_error text = inl (New (str +:+ " is not a valid tearDownDuration criteria"))
    | None => UnmarshalCriteria json_error text = inl (json_error text)
    end.
Proof.
  assert (c <> "" -> json_Unmarshal_string (MarshalCriteria c) = Some (ToValidUTF8 c)) as Hread.
  { intros Hc. unfold MarshalCriteria. apply String.eqb_neq in Hc as ->. apply json_string_round_trip. }
  assert (c ∉ criteria -> c <> "" -> exists e, UnmarshalCriteria json_error (MarshalCriteria c) = inl e) as Hother.
  { intros Hno Hc. destruct (UnmarshalCriteria_cases json_error _ _ (Hread Hc)) as [[Hv _]|[[Hv _]|(_ & _ & He)]];
      [| |by eexists]; exfalso.
    - apply Hc. rewrite <- Hv. symmetry. apply ToValidUTF8_ascii. by rewrite Hv.
    - apply Hno. rewrite <- (ToValidUTF8_ascii c); [done|]. by apply criteria_ascii. }
  split_and!; [|done|done|auto|done|].
  - split.
    + intros H. destruct (decide (c ∈ criteria)) as [|Hno]; [done|]. destruct (decide (c = "")) as [->|Hc]; [by vm_compute in H|].
      destruct (Hother Hno Hc) as [e He]. by rewrite H in He.
    + intros Hin. assert (c <> "") as Hc by (intros ->; by apply criteria_spec in Hin as [?|[?|?]]).
      specialize (Hread Hc). rewrite (ascii_ToValidUTF8 _ (criteria_ascii _ Hin)) in Hread.
      by destruct (UnmarshalCriteria_cases json_error _ _ Hread) as [[? _]|[[_ ?]|(_ & ? & _)]].
  - intros text. destruct (json_Unmarshal_string text) as [str|] eqn:H; [|unfold UnmarshalCriteria; by rewrite H].
    destruct (UnmarshalCriteria_cases json_error _ _ H) as [[-> Hr]|[[Hin Hr]|(Hne & Hno & Hr)]].
    + rewrite decide_False by (by intros [?|[?|?]]%criteria_spec). by rewrite decide_True.
    + by rewrite decide_True.
    + by rewrite !decide_False.
Qed.

(** Texts of the configuration, with spaces and an escape, and three that are refused. *)
Lemma criteria_round_trip_witness :
  let json_error text := New ("invalid text " +:+ text) in
  let quoted s := String quotation (s +:+ String quotation "") in
  map (UnmarshalCriteria json_error) [quoted "both"; " " +:+ quoted "\u0062oth"; " null "; quoted ""; MarshalCriteria ""]
    = [inr "both"; inr "both"; inr "failure"; inr "failure"; inr "failure"] /\
  map (UnmarshalCriteria json_error) [quoted "never"; "both"; "5"]
    = [inl (New "never is not a valid tearDownDuration criteria"); inl (json_error "both"); inl (json_error "5")] /\
  UnmarshalCriteria json_error (MarshalCriteria "success") = inr "success".
Proof.
  intros json_error quoted. split; [|split]; [vm_compute; reflexivity..|].
  apply (criteria_round_trip json_error "success"). apply criteria_spec. right. right. reflexivity.
Defined.
