(* ===== verification/ComponentTypes.v ===== *)
(** Model of [api/v1/stablecomponent_types.go] and
    [api/v1/desiredcomponent_types.go]: the last good version of a component and
    the version that is wanted. *)

From S2P Require Import Prelude.
From S2P Require Import GoRuntime.
From S2P Require Import Errors.
From S2P Require Import KubeApi.
Open Scope string_scope.
Open Scope list_scope.
Open Scope Z_scope.

Record StableComponentSpec := mkStableComponentSpec {
  sc_Name : string; sc_Repository : string; sc_Version : string; sc_UpdatedBy : string }.
Record StableComponentStatus := mkStableComponentStatus {
  scs_CreatedAt : option Z; scs_UpdatedAt : option Z }.
Record StableComponent := mkStableComponent {
  stable_Meta : ObjectMeta;
  stable_Spec : StableComponentSpec;
  stable_Status : StableComponentStatus;
}.
#[export] Instance eta_StableComponentSpec : Eta StableComponentSpec := fun x =>
  mkStableComponentSpec (sc_Name x) (sc_Repository x) (sc_Version x) (sc_UpdatedBy x).
#[export] Instance eta_StableComponentStatus : Eta StableComponentStatus := fun x =>
  mkStableComponentStatus (scs_CreatedAt x) (scs_UpdatedAt x).
#[export] Instance eta_StableComponent : Eta StableComponent := fun x =>
  mkStableComponent (stable_Meta x) (stable_Spec x) (stable_Status x).
#[export] Instance stable_spec_eq_dec : EqDecision StableComponentSpec.
Proof. solve_decision. Defined.
#[export] Instance stable_status_eq_dec : EqDecision StableComponentStatus.
Proof. solve_decision. Defined.
#[export] Instance stable_eq_dec : EqDecision StableComponent.
Proof. solve_decision. Defined.
#[export] Instance stable_object : KObject StableComponent := stable_Meta.
#[export] Instance stable_mark : KMark StableComponent := fun t x => x <| stable_Meta ::= mark_deleted t |>.
#[export] Instance stable_mark_laws : KMarkLaws StableComponent.
Proof. intros t x. apply (mark_deleted_key t (stable_Meta x)). Qed.

(** [StableComponent{}]. *)
Definition zeroStable : StableComponent :=
  mkStableComponent noMeta (mkStableComponentSpec "" "" "" "") (mkStableComponentStatus None None).

Record DesiredComponentSpec := mkDesiredComponentSpec {
  dc_Name : string; dc_Version : string; dc_Repository : string; dc_Bundle : string }.
Record DesiredComponentStatus := mkDesiredComponentStatus {
  dcs_CreatedAt : option Z; dcs_UpdatedAt : option Z }.
Record DesiredComponent := mkDesiredComponent {
  desired_Meta : ObjectMeta;
  desired_Spec : DesiredComponentSpec;
  desired_Status : DesiredComponentStatus;
}.
#[export] Instance eta_DesiredComponentSpec : Eta DesiredComponentSpec := fun x =>
  mkDesiredComponentSpec (dc_Name x) (dc_Version x) (dc_Repository x) (dc_Bundle x).
#[export] Instance eta_DesiredComponentStatus : Eta DesiredComponentStatus := fun x =>
  mkDesiredComponentStatus (dcs_CreatedAt x) (dcs_UpdatedAt x).
#[export] Instance eta_DesiredComponent : Eta DesiredComponent := fun x =>
  mkDesiredComponent (desired_Meta x) (desired_Spec x) (desired_Status x).
#[export] Instance desired_spec_eq_dec : EqDecision DesiredComponentSpec.
Proof. solve_decision. Defined.
#[export] Instance desired_status_eq_dec : EqDecision DesiredComponentStatus.
Proof. solve_decision. Defined.
#[export] Instance desired_eq_dec : EqDecision DesiredComponent.
Proof. solve_decision. Defined.
#[export] Instance desired_object : KObject DesiredComponent := desired_Meta.
#[export] Instance desired_mark : KMark DesiredComponent := fun t x => x <| desired_Meta ::= mark_deleted t |>.
#[export] Instance desired_mark_laws : KMarkLaws DesiredComponent.
Proof. intros t x. apply (mark_deleted_key t (desired_Meta x)). Qed.

Definition IsSame (c d : DesiredComponent) : bool :=
  String.eqb (dc_Name (desired_Spec c)) (dc_Name (desired_Spec d)) &&
  String.eqb (dc_Repository (desired_Spec c)) (dc_Repository (desired_Spec d)) &&
  String.eqb (dc_Version (desired_Spec c)) (dc_Version (desired_Spec d)) &&
  String.eqb (dc_Bundle (desired_Spec c)) (dc_Bundle (desired_Spec d)).

Lemma IsSame_spec c d : IsSame c d = true <-> desired_Spec c = desired_Spec d.
Proof.
  unfold IsSame. rewrite !andb_true_iff, !String.eqb_eq.
  destruct c as [? [] ?], d as [? [] ?]; simpl. naive_solver.
Qed.
