(* ===== verification/QueueTypes.v ===== *)
(** Model of [api/v1/queue_types.go]: a queue of components waiting to be deployed
    and tested, its conditions, and the list of queues with its ordering. *)

From S2P Require Import Prelude.
From S2P Require Import GoRuntime.
From S2P Require Import Errors.
From S2P Require Import KubeApi.
From S2P Require Import ConfigTypes.
Open Scope string_scope.
Open Scope list_scope.
Open Scope Z_scope.

(** ** Data *)

Inductive QueueType :=
| QueueTypeUpgrade | QueueTypeReverify | QueueTypePreActive | QueueTypePromoteToActive
| QueueTypeDemoteFromActive | QueueTypePullRequest
| OtherQueueType (s : string).

Inductive QueueState :=
| Waiting | CleaningBefore | DetectingImageMissing | Creating | Testing | CleaningAfter
| Collecting | Deleting | Cancelling | Finished
| OtherQueueState (s : string).              (* "" is the state of a new object *)

Inductive QueueConditionType :=
| QueueDeployStarted | QueueDeployed | QueueTestTriggered | QueueTestPendingStatusSent
| QueueTested | QueueTeamcityTestResult | QueueGitlabTestResult
| QueueCleaningBeforeStarted | QueueCleanedBefore | QueueCleaningAfterStarted
| QueueCleanedAfter | QueueCollected | QueueFinished.

#[export] Instance queue_type_eq_dec : EqDecision QueueType.
Proof. solve_decision. Defined.
#[export] Instance queue_state_eq_dec : EqDecision QueueState.
Proof. solve_decision. Defined.
#[export] Instance queue_condition_type_eq_dec : EqDecision QueueConditionType.
Proof. solve_decision. Defined.

Record QueueExtraParameters := mkQueueExtraParameters {
  qe_TestRunner : option ConfigTestRunnerOverrider }.
Record Image := mkImage { img_Repository : string; img_Tag : string }.
Record QueueComponent := mkQueueComponent {
  qc_Name : string; qc_Repository : string; qc_Version : string }.
Definition QueueComponents := list QueueComponent.
Definition QueueCondition := Condition QueueConditionType.

Record Teamcity := mkTeamcity {
  tmc_Branch : string;
  tmc_BuildID : string;
  tmc_BuildNumber : string;
  tmc_BuildTypeID : string;
  tmc_BuildURL : string;
}.
Record Gitlab := mkGitlab {
  git_Branch : string;
  git_PipelineID : string;
  git_PipelineURL : string;
  git_PipelineNumber : string;
}.
Record TestRunner := mkTestRunner { trn_Teamcity : Teamcity; trn_Gitlab : Gitlab }.
Record FailureComponent := mkFailureComponent {
  fc_ComponentName : string;
  fc_FirstFailureContainerName : string;
  fc_RestartCount : Z;
  fc_NodeName : string;
}.
Inductive DeploymentIssueType :=
| DeploymentIssueImagePullBackOff | DeploymentIssueCrashLoopBackOff
| DeploymentIssueReadinessProbeFailed | DeploymentIssueContainerCreating
| DeploymentIssuePending | DeploymentIssueWaitForInitContainer
| DeploymentIssueJobNotComplete | DeploymentIssueUndefined
| OtherDeploymentIssue (s : string).
Record DeploymentIssue := mkDeploymentIssue {
  di_IssueType : DeploymentIssueType;
  di_FailureComponents : list FailureComponent;
}.

Record QueueSpec := mkQueueSpec {
  qs_Name : string;
  qs_Bundle : string;
  qs_Components : QueueComponents;
  qs_Type : QueueType;
  qs_NoOfRetry : Z;
  qs_NoOfOrder : Z;
  qs_NextProcessAt : option Z;
  qs_TeamName : string;
  qs_PRNumber : string;
  qs_SkipTestRunner : bool;
  qs_QueueExtraParameters : option QueueExtraParameters;
}.
Record QueueStatus := mkQueueStatus {
  qst_CreatedAt : option Z;
  qst_UpdatedAt : option Z;
  qst_NextProcessAt : option Z;
  qst_StartDeployTime : option Z;
  qst_StartTestingTime : option Z;
  qst_State : QueueState;
  qst_NoOfProcessed : Z;
  qst_Conditions : list QueueCondition;
  qst_TestRunner : TestRunner;
  qst_QueueHistoryName : string;
  qst_KubeZipLog : string;
  qst_DeploymentIssues : list DeploymentIssue;
  qst_ImageMissingList : list Image;
  qst_DeployEngine : string;
}.
Record Queue := mkQueue {
  queue_Meta : ObjectMeta;
  queue_Spec : QueueSpec;
  queue_Status : QueueStatus;
}.
(** [QueueList.Items]. *)
Notation QueueList := (list Queue).

#[export] Instance eta_Teamcity : Eta Teamcity := fun x =>
  mkTeamcity (tmc_Branch x) (tmc_BuildID x) (tmc_BuildNumber x) (tmc_BuildTypeID x) (tmc_BuildURL x).
#[export] Instance eta_Gitlab : Eta Gitlab := fun x =>
  mkGitlab (git_Branch x) (git_PipelineID x) (git_PipelineURL x) (git_PipelineNumber x).
#[export] Instance eta_TestRunner : Eta TestRunner := fun x =>
  mkTestRunner (trn_Teamcity x) (trn_Gitlab x).
#[export] Instance eta_QueueComponent : Eta QueueComponent := fun x =>
  mkQueueComponent (qc_Name x) (qc_Repository x) (qc_Version x).
#[export] Instance eta_QueueSpec : Eta QueueSpec := fun x =>
  mkQueueSpec (qs_Name x) (qs_Bundle x) (qs_Components x) (qs_Type x) (qs_NoOfRetry x)
    (qs_NoOfOrder x) (qs_NextProcessAt x) (qs_TeamName x) (qs_PRNumber x) (qs_SkipTestRunner x)
    (qs_QueueExtraParameters x).
#[export] Instance eta_QueueStatus : Eta QueueStatus := fun x =>
  mkQueueStatus (qst_CreatedAt x) (qst_UpdatedAt x) (qst_NextProcessAt x) (qst_StartDeployTime x)
    (qst_StartTestingTime x) (qst_State x) (qst_NoOfProcessed x) (qst_Conditions x)
    (qst_TestRunner x) (qst_QueueHistoryName x) (qst_KubeZipLog x) (qst_DeploymentIssues x)
    (qst_ImageMissingList x) (qst_DeployEngine x).
#[export] Instance eta_Queue : Eta Queue := fun x =>
  mkQueue (queue_Meta x) (queue_Spec x) (queue_Status x).

#[export] Instance queue_extra_eq_dec : EqDecision QueueExtraParameters.
Proof. solve_decision. Defined.
#[export] Instance image_eq_dec : EqDecision Image.
Proof. solve_decision. Defined.
#[export] Instance queue_component_eq_dec : EqDecision QueueComponent.
Proof. solve_decision. Defined.
#[export] Instance teamcity_eq_dec : EqDecision Teamcity.
Proof. solve_decision. Defined.
#[export] Instance gitlab_eq_dec : EqDecision Gitlab.
Proof. solve_decision. Defined.
#[export] Instance test_runner_eq_dec : EqDecision TestRunner.
Proof. solve_decision. Defined.
#[export] Instance failure_component_eq_dec : EqDecision FailureComponent.
Proof. solve_decision. Defined.
#[export] Instance deployment_issue_type_eq_dec : EqDecision DeploymentIssueType.
Proof. solve_decision. Defined.
#[export] Instance deployment_issue_eq_dec : EqDecision DeploymentIssue.
Proof. solve_decision. Defined.
#[export] Instance queue_spec_eq_dec : EqDecision QueueSpec.
Proof. solve_decision. Defined.
#[export] Instance queue_status_eq_dec : EqDecision QueueStatus.
Proof. solve_decision. Defined.
#[export] Instance queue_eq_dec : EqDecision Queue.
Proof. solve_decision. Defined.
#[export] Instance queue_object : KObject Queue := queue_Meta.
#[export] Instance queue_mark : KMark Queue := fun t x => x <| queue_Meta ::= mark_deleted t |>.
#[export] Instance queue_mark_laws : KMarkLaws Queue.
Proof. intros t x. apply (mark_deleted_key t (queue_Meta x)). Qed.

(** The zero values. *)
Definition noTestRunner : TestRunner :=
  mkTestRunner (mkTeamcity "" "" "" "" "") (mkGitlab "" "" "" "").
Definition zeroQueueStatus : QueueStatus :=
  mkQueueStatus None None None None None (OtherQueueState "") 0 [] noTestRunner "" "" [] [] "".
Definition zeroQueueSpec : QueueSpec :=
  mkQueueSpec "" "" [] (OtherQueueType "") 0 0 None "" "" false None.
Definition zeroQueue : Queue := mkQueue noMeta zeroQueueSpec zeroQueueStatus.

(** ** Methods of a queue *)

Definition GetTestRunnerExtraParameter (q : Queue) : option ConfigTestRunnerOverrider :=
  match qs_QueueExtraParameters (queue_Spec q) with
  | None => None
  | Some p => qe_TestRunner p
  end.

Definition SetTeamcity (branch buildID buildTypeID buildURL : string) (t : Teamcity) : Teamcity :=
  t <| tmc_Branch := branch |> <| tmc_BuildID := buildID |> <| tmc_BuildTypeID := buildTypeID |>
    <| tmc_BuildURL := buildURL |>.
Definition SetGitlab (branch pipelineID pipelineURL pipelineNumber : string) (t : Gitlab) : Gitlab :=
  t <| git_Branch := branch |> <| git_PipelineID := pipelineID |>
    <| git_PipelineURL := pipelineURL |> <| git_PipelineNumber := pipelineNumber |>.

Definition SetDeploymentIssues (l : list DeploymentIssue) (qs : QueueStatus) : QueueStatus :=
  qs <| qst_DeploymentIssues := l |>.
Definition SetImageMissingList (l : list Image) (qs : QueueStatus) : QueueStatus :=
  qs <| qst_ImageMissingList := l |>.

Definition IsConditionTrue (qs : QueueStatus) (cond : QueueConditionType) : bool :=
  is_condition_true cond (qst_Conditions qs).
Definition IsContains (qs : QueueStatus) (cond : QueueConditionType) : bool :=
  contains_condition cond (qst_Conditions qs).
Definition GetConditionLatestTime (qs : QueueStatus) (cond : QueueConditionType) : option Z :=
  condition_time cond (qst_Conditions qs).
(** The clock reads [t]. *)
Definition SetCondition (t : Z) (cond : QueueConditionType) (status : ConditionStatus)
    (message : string) (qs : QueueStatus) : QueueStatus :=
  qs <| qst_Conditions ::= set_condition cond status message t |>.

Definition same_component (a b : QueueComponent) : bool :=
  String.eqb (qc_Name a) (qc_Name b) && String.eqb (qc_Repository a) (qc_Repository b) &&
  String.eqb (qc_Version a) (qc_Version b).

Definition ContainSameComponent (q : Queue) (dName : string) (dComp : QueueComponent) : bool :=
  if negb (String.eqb dName (qs_Name (queue_Spec q))) then false
  else existsb (fun qComp => same_component qComp dComp) (qs_Components (queue_Spec q)).

Definition SetState (t : Z) (state : QueueState) (q : Queue) : Queue :=
  q <| queue_Status ::= fun s => s <| qst_UpdatedAt := Some t |> <| qst_State := state |> |>.

Definition IsDeploySuccess (q : Queue) : bool := IsConditionTrue (queue_Status q) QueueDeployed.
Definition IsTestSuccess (q : Queue) : bool := IsConditionTrue (queue_Status q) QueueTested.
Definition IsTeamcityTestSuccess (q : Queue) : bool :=
  IsConditionTrue (queue_Status q) QueueTeamcityTestResult.
Definition IsGitlabTestSuccess (q : Queue) : bool :=
  IsConditionTrue (queue_Status q) QueueGitlabTestResult.

Definition IsReverify (q : Queue) : bool := bool_decide (qs_Type (queue_Spec q) = QueueTypeReverify).
Definition IsActivePromotionQueue (q : Queue) : bool :=
  bool_decide (qs_Type (queue_Spec q) = QueueTypePreActive) ||
  bool_decide (qs_Type (queue_Spec q) = QueueTypePromoteToActive) ||
  bool_decide (qs_Type (queue_Spec q) = QueueTypeDemoteFromActive).
Definition IsComponentUpgradeQueue (q : Queue) : bool :=
  bool_decide (qs_Type (queue_Spec q) = QueueTypeUpgrade).
Definition IsPullRequestQueue (q : Queue) : bool :=
  bool_decide (qs_Type (queue_Spec q) = QueueTypePullRequest).

Definition GetEnvType (q : Queue) : string :=
  match qs_Type (queue_Spec q) with
  | QueueTypePreActive => "pre-active"
  | QueueTypePromoteToActive => "active"
  | QueueTypePullRequest => "pull-request"
  | _ => "staging"
  end.
Definition GetQueueType (q : Queue) : string :=
  match qs_Type (queue_Spec q) with
  | QueueTypeUpgrade => "component-upgrade"
  | QueueTypeReverify => "reverification"
  | QueueTypePullRequest => "pull-request"
  | _ => "active-promotion"
  end.

(** ** The ordering of queues *)

(** [t.After(now)] on a pointer that was tested against [nil]. *)
Definition after_now (now : Z) (t : option Z) : bool :=
  match t with Some z => now <? z | None => false end.

(** [QueueByNoOfOrder.Less], with the clock at [now].  [sort.Sort] reads the clock
    at each comparison; the model reads it once per sort. *)
Definition Less (now : Z) (a b : Queue) : bool :=
  let na := qs_NextProcessAt (queue_Spec a) in
  let nb := qs_NextProcessAt (queue_Spec b) in
  if qs_NoOfOrder (queue_Spec a) =? qs_NoOfOrder (queue_Spec b) then
    match na, nb with
    | None, _ => true
    | Some _, None => false
    | Some ta, Some tb => ta <? tb
    end
  else if after_now now na && after_now now nb then
    match na, nb with Some ta, Some tb => ta <? tb | _, _ => false end
  else if after_now now na then false
  else if after_now now nb then true
  else qs_NoOfOrder (queue_Spec a) <? qs_NoOfOrder (queue_Spec b).

Definition ComponentLess (a b : QueueComponent) : bool := string_less (qc_Name a) (qc_Name b).

Section sorting.
Context {W : Type} `{GoRuntime W} `{GoSort}.

(** [ql.Sort()]. *)
Definition Sort (ql : QueueList) : M W QueueList :=
  do t <- now; mret (go_sort (Less t) ql).

Definition SortComponents (qc : QueueComponents) : QueueComponents := go_sort ComponentLess qc.

(** The value and the list, which is left sorted. *)
Definition TopQueueOrder (ql : QueueList) : M W (Z * QueueList) :=
  match ql with
  | [] => mret (1, ql)
  | _ =>
      do items <- Sort ql;
      match head items with
      | None => go_panic IndexOutOfRange
      | Some q => mret (int_sub (qs_NoOfOrder (queue_Spec q)) 1, items)
      end
  end.

Definition LastQueueOrder (ql : QueueList) : M W (Z * QueueList) :=
  match ql with
  | [] => mret (1, ql)
  | _ =>
      do items <- Sort ql;
      match last items with
      | None => go_panic IndexOutOfRange
      | Some q => mret (int_add (qs_NoOfOrder (queue_Spec q)) 1, items)
      end
  end.

(** The first queue that satisfies the test. *)
Fixpoint find_index (P : Queue -> bool) (l : list Queue) : option nat :=
  match l with
  | [] => None
  | q :: l' => if P q then Some 0%nat else S <$> find_index P l'
  end.

Definition is_due (now : Z) (q : Queue) : bool :=
  match qs_NextProcessAt (queue_Spec q) with None => true | Some t => t <? now end.

(** [ql.First()] returns a pointer into [ql.Items]: the slot, and the sorted list. *)
Definition First (ql : QueueList) : M W (option nat * QueueList) :=
  match ql with
  | [] => mret (None, ql)
  | _ =>
      do items <- Sort ql;
      match find_index (fun q => negb (bool_decide (qst_State (queue_Status q) = Waiting))) items with
      | Some i => mret (Some i, items)
      | None =>
          do t <- now;
          match find_index (is_due t) items with
          | Some i => mret (Some i, items)
          | None => mret (Some 0%nat, items)
          end
      end
  end.
End sorting.

(** ** The ordering is what [sort.Sort] needs *)

(** The queue is held back until an instant that is still to come. *)
Definition held_back (t : Z) (q : Queue) : bool := after_now t (qs_NextProcessAt (queue_Spec q)).

(** [a] belongs before [b]: the queues that can run first, by their number; then the
    ones that are held back, by the instant they wait for. *)
Definition precedes (t : Z) (a b : Queue) : Prop :=
  match held_back t a, held_back t b with
  | false, true => True
  | true, false => False
  | true, true => default 0 (qs_NextProcessAt (queue_Spec a))
                  <= default 0 (qs_NextProcessAt (queue_Spec b))
  | false, false =>
      qs_NoOfOrder (queue_Spec a) < qs_NoOfOrder (queue_Spec b) \/
      qs_NoOfOrder (queue_Spec a) = qs_NoOfOrder (queue_Spec b) /\
      match qs_NextProcessAt (queue_Spec a), qs_NextProcessAt (queue_Spec b) with
      | None, _ => True
      | Some _, None => False
      | Some ta, Some tb => ta <= tb
      end
  end.

(** [Less] on queues of which some are held back. *)
Lemma Less_held_held t a b :
  held_back t a = true -> held_back t b = true ->
  Less t a b = (default 0 (qs_NextProcessAt (queue_Spec a))
                <? default 0 (qs_NextProcessAt (queue_Spec b))).
Proof.
  unfold held_back, Less.
  destruct (qs_NextProcessAt (queue_Spec a)), (qs_NextProcessAt (queue_Spec b)); simpl;
    intros Ha Hb; try done.
  rewrite Ha, Hb. by case_match.
Qed.

Lemma Less_held_free t a b : held_back t a = true -> held_back t b = false -> Less t a b = false.
Proof.
  unfold held_back, Less, after_now.
  destruct (qs_NextProcessAt (queue_Spec a)) as [ta|], (qs_NextProcessAt (queue_Spec b)) as [tb|];
    intros; simplify_eq/=; repeat case_match; simplify_eq/=; lia.
Qed.

Lemma Less_free_held t a b : held_back t a = false -> held_back t b = true -> Less t a b = true.
Proof.
  unfold held_back, Less, after_now.
  destruct (qs_NextProcessAt (queue_Spec a)) as [ta|], (qs_NextProcessAt (queue_Spec b)) as [tb|];
    intros; simplify_eq/=; repeat case_match; simplify_eq/=; lia.
Qed.

Definition nil_or_before (na nb : option Z) : bool :=
  match na, nb with
  | None, _ => true
  | Some _, None => false
  | Some ta, Some tb => ta <? tb
  end.

Lemma Less_free_free t a b :
  held_back t a = false -> held_back t b = false ->
  Less t a b = (qs_NoOfOrder (queue_Spec a) <? qs_NoOfOrder (queue_Spec b)) ||
    (qs_NoOfOrder (queue_Spec a) =? qs_NoOfOrder (queue_Spec b)) &&
    nil_or_before (qs_NextProcessAt (queue_Spec a)) (qs_NextProcessAt (queue_Spec b)).
Proof.
  unfold held_back, Less. intros -> ->. simpl.
  destruct (Z.eqb_spec (qs_NoOfOrder (queue_Spec a)) (qs_NoOfOrder (queue_Spec b))) as [->|];
    simpl; [|by rewrite orb_false_r]. rewrite Z.ltb_irrefl. done.
Qed.

(** Reduce [Less] by which queues are held back. *)
Ltac less_cases t :=
  repeat match goal with
  | H : context [Less t ?a ?b] |- _ =>
      first [ rewrite (Less_held_held t a b) in H by assumption
            | rewrite (Less_held_free t a b) in H by assumption
            | rewrite (Less_free_held t a b) in H by assumption
            | rewrite (Less_free_free t a b) in H by assumption ]
  | |- context [Less t ?a ?b] =>
      first [ rewrite (Less_held_held t a b) by assumption
            | rewrite (Less_held_free t a b) by assumption
            | rewrite (Less_free_held t a b) by assumption
            | rewrite (Less_free_free t a b) by assumption ]
  end.

Lemma nil_or_before_ordering : sort_ordering nil_or_before.
Proof. split; intros [] [] []; simpl; intros; simplify_eq/=; lia. Qed.

Lemma Less_ordering t : sort_ordering (Less t).
Proof.
  destruct nil_or_before_ordering as [Ht Hn].
  split; intros x y z;
    destruct (held_back t x) eqn:?, (held_back t y) eqn:?, (held_back t z) eqn:?;
    less_cases t; intros Hxy Hyz; try done; try lia.
  - rewrite !orb_true_iff, !andb_true_iff in *.
    rewrite !Z.ltb_lt, !Z.eqb_eq in *.
    destruct Hxy as [|[? ?]], Hyz as [|[? ?]]; [left; lia..|].
    right. split; [lia|]. eauto.
  - rewrite !orb_false_iff, !andb_false_iff in *.
    rewrite !Z.ltb_ge, !Z.eqb_neq in *.
    destruct Hxy as [? [?|?]], Hyz as [? [?|?]]; split; try lia; [left; lia..|].
    right. eauto.
Qed.

Lemma Less_precedes t a b : may_follow (Less t) a b <-> precedes t a b.
Proof.
  unfold may_follow, precedes.
  destruct (held_back t a) eqn:?, (held_back t b) eqn:?; less_cases t; [lia|naive_solver..|].
  rewrite !orb_true_iff, !andb_true_iff, !Z.ltb_lt, !Z.eqb_eq.
  destruct (qs_NextProcessAt (queue_Spec a)), (qs_NextProcessAt (queue_Spec b)); simpl;
    rewrite ?Z.ltb_lt; lia.
Qed.

#[export] Instance precedes_dec t a b : Decision (precedes t a b).
Proof.
  unfold precedes. destruct (held_back t a), (held_back t b); [apply _..|].
  apply or_dec; [apply _|]. apply and_dec; [apply _|]. repeat case_match; apply _.
Defined.

Lemma precedes_total t a b : precedes t a b \/ precedes t b a.
Proof. rewrite <- !Less_precedes. apply may_follow_total. Qed.

Lemma precedes_refl t a : precedes t a a.
Proof. by destruct (precedes_total t a a). Qed.

Lemma precedes_trans t a b c : precedes t a b -> precedes t b c -> precedes t a c.
Proof. rewrite <- !Less_precedes. apply may_follow_trans, Less_ordering. Qed.

Lemma ComponentLess_ordering : sort_ordering ComponentLess.
Proof. destruct string_less_ordering as [Ht Hn]. split; intros ???; [apply Ht|apply Hn]. Qed.

(** ** The operations of a queue list *)

Lemma find_index_Some P l i :
  find_index P l = Some i ->
  exists q, l !! i = Some q /\ P q = true /\
            forall j q', (j < i)%nat -> l !! j = Some q' -> P q' = false.
Proof.
  revert i. induction l as [|q l IH]; intros i; simpl; [done|].
  destruct (P q) eqn:HP.
  - intros [= <-]. exists q. split_and!; [done..|]. intros j q' Hj. lia.
  - destruct (find_index P l) as [i'|]; [|done]. intros [= <-].
    destruct (IH _ eq_refl) as (q0 & Hq & HP0 & Hbefore). exists q0. split_and!; [done..|].
    intros [|j] q' Hj Hq'; simplify_eq/=; [done|]. eapply Hbefore; [|done]. lia.
Qed.

Lemma find_index_None P l : find_index P l = None -> Forall (fun q => P q = false) l.
Proof.
  induction l as [|q l IH]; simpl; [constructor|].
  destruct (P q) eqn:HP; [done|]. destruct (find_index P l); [done|]. intros _. constructor; auto.
Qed.

Lemma sorted_lookup_lt {A} (R : relation A) l i j x y :
  StronglySorted R l -> (i < j)%nat -> l !! i = Some x -> l !! j = Some y -> R x y.
Proof.
  intros Hs. revert i j. induction Hs as [|z l Hs IH Hz]; intros i j Hij Hi Hj; [done|].
  destruct i as [|i], j as [|j]; simplify_eq/=; [lia| |lia|].
  - rewrite Forall_forall in Hz. apply Hz. by eapply list_elem_of_lookup_2.
  - eapply IH; [|done..]. lia.
Qed.

(** The first element of a sorted list that satisfies a test precedes the others
    that do. *)
Lemma find_index_first t P l i q :
  StronglySorted (precedes t) l -> find_index P l = Some i -> l !! i = Some q ->
  forall q', q' ∈ l -> P q' = true -> precedes t q q'.
Proof.
  intros Hs Hi Hq q' Hq' HP. apply find_index_Some in Hi as (q0 & ? & _ & Hbefore).
  simplify_eq. apply list_elem_of_lookup in Hq' as [j Hj].
  destruct (decide (j < i)%nat) as [Hji|]; [by rewrite (Hbefore _ _ Hji Hj) in HP|].
  destruct (decide (j = i)) as [->|]; simplify_eq.
  - apply precedes_refl.
  - eapply (sorted_lookup_lt _ l i j); eauto. lia.
Qed.

Section sort_facts.
Context {W : Type} `{GR : GoRuntime W} `{GS : GoSort}.
Implicit Types (w : W) (ql items : QueueList).

Lemma go_sort_precedes t ql : StronglySorted (precedes t) (go_sort (Less t) ql).
Proof.
  pose proof (go_sort_in_order (Less t) ql (Less_ordering t)) as Hs.
  unfold in_order in Hs. induction Hs as [|q l Hs IH Hq]; constructor; [done|].
  eapply Forall_impl; [exact Hq|]. intros q'. apply Less_precedes.
Qed.

Lemma wp_Sort ql w (Q : outcome QueueList -> W -> Prop) :
  (forall t w' items, rt_now w = (t, w') -> items = go_sort (Less t) ql ->
     items ≡ₚ ql -> StronglySorted (precedes t) items -> Q (Ok items) w') ->
  wp (Sort ql) w Q.
Proof.
  intros HQ. unfold Sort. wp_step. apply wp_now. intros t w' Ht. wp_step.
  eapply HQ; [done|done|apply go_sort_perm|apply go_sort_precedes].
Qed.

Lemma sorted_head t q items q' :
  StronglySorted (precedes t) (q :: items) -> q' ∈ q :: items -> precedes t q q'.
Proof.
  intros Hs [->|Hq']%elem_of_cons; [apply precedes_refl|].
  inversion Hs as [|?? _ Hall]; subst. rewrite Forall_forall in Hall. auto.
Qed.

Lemma sorted_last t items q q' :
  StronglySorted (precedes t) items -> last items = Some q -> q' ∈ items -> precedes t q' q.
Proof.
  intros Hs Hl Hq'. rewrite last_lookup in Hl.
  apply list_elem_of_lookup in Hq' as [j Hj].
  pose proof (lookup_lt_Some _ _ _ Hj) as Hlen.
  destruct (decide (j = pred (length items))) as [->|].
  - simplify_eq. apply precedes_refl.
  - eapply (sorted_lookup_lt _ items j (pred (length items))); [done|lia|done..].
Qed.

Lemma wp_TopQueueOrder ql w (Q : outcome (Z * QueueList) -> W -> Prop) :
  (ql = [] -> Q (Ok (1, [])) w) ->
  (forall t w' q items, rt_now w = (t, w') -> q :: items ≡ₚ ql ->
     StronglySorted (precedes t) (q :: items) ->
     Q (Ok (int_sub (qs_NoOfOrder (queue_Spec q)) 1, q :: items)) w') ->
  wp (TopQueueOrder ql) w Q.
Proof.
  intros Hnil HQ. destruct ql as [|q0 ql]; [by apply wp_ret, Hnil|].
  unfold TopQueueOrder. wp_step. apply wp_Sort. intros t w' items Ht _ Hp Hs.
  destruct items as [|q items]; [by apply Permutation_nil_l in Hp|]. simpl. wp_step. eauto.
Qed.

Lemma wp_LastQueueOrder ql w (Q : outcome (Z * QueueList) -> W -> Prop) :
  (ql = [] -> Q (Ok (1, [])) w) ->
  (forall t w' q items, rt_now w = (t, w') -> last items = Some q -> items ≡ₚ ql ->
     StronglySorted (precedes t) items ->
     Q (Ok (int_add (qs_NoOfOrder (queue_Spec q)) 1, items)) w') ->
  wp (LastQueueOrder ql) w Q.
Proof.
  intros Hnil HQ. destruct ql as [|q0 ql]; [by apply wp_ret, Hnil|].
  unfold LastQueueOrder. wp_step. apply wp_Sort. intros t w' items Ht _ Hp Hs.
  destruct (last items) as [q|] eqn:Hl; [wp_step; eauto|].
  apply last_None in Hl as ->. by apply Permutation_nil_l in Hp.
Qed.
End sort_facts.

(** ** Properties *)

Section properties.
Context {W : Type} `{GR : GoRuntime W} `{GS : GoSort}.
Implicit Types (w : W) (ql items : QueueList).

(** C29: sorting a queue list always succeeds, keeps its queues, and puts the ones
    that may run in front, by their number, and the ones held back until a later
    instant at the end, by that instant. *)
Theorem Sort_orders_queues ql w :
  exists items w',
    Sort ql w = (Ok items, w') /\ items ≡ₚ ql /\
    exists t, rt_now w = (t, w') /\ StronglySorted (precedes t) items.
Proof. apply wp_total, wp_Sort. intros t w1 items Ht _ Hp Hs. by eauto 8. Qed.

(** What [First] selects at the instants [t] of the sort and [t'] of the choice. *)
Definition first_choice (t t' : Z) (ql : QueueList) (q : Queue) : Prop :=
  let active q := qst_State (queue_Status q) <> Waiting in
  (active q /\ forall q', q' ∈ ql -> active q' -> precedes t q q')
  \/ (forall q', q' ∈ ql -> ~ active q') /\
     ((is_due t' q = true /\ forall q', q' ∈ ql -> is_due t' q' = true -> precedes t q q')
      \/ (forall q', q' ∈ ql -> is_due t' q' = false /\ precedes t q q')).

(** The clock as [First] reads it: once for the sort, and once more for the choice when no
    queue is being processed. *)
Definition clock_of_sort (w : W) : Z := fst (rt_now w).
Definition clock_of_choice (w : W) : Z := fst (rt_now (snd (rt_now w))).
Definition is_active (q : Queue) : bool := negb (bool_decide (qst_State (queue_Status q) = Waiting)).
Definition clock_read (ql : QueueList) (w : W) : W :=
  if existsb is_active ql then snd (rt_now w) else snd (rt_now (snd (rt_now w))).

Lemma is_active_spec q : is_active q = true <-> qst_State (queue_Status q) <> Waiting.
Proof. unfold is_active. rewrite negb_true_iff. by rewrite bool_decide_eq_false. Qed.

Lemma wp_First ql w (Q : outcome (option nat * QueueList) -> W -> Prop) :
  (ql = [] -> Q (Ok (None, [])) w) ->
  (forall i q items, items ≡ₚ ql -> items !! i = Some q ->
     StronglySorted (precedes (clock_of_sort w)) items ->
     first_choice (clock_of_sort w) (clock_of_choice w) ql q -> Q (Ok (Some i, items)) (clock_read ql w)) ->
  wp (First ql) w Q.
Proof.
  intros Hnil HQ. unfold First. destruct ql as [|q0 ql0]; [by wp_step; apply Hnil|].
  remember (q0 :: ql0) as ql eqn:Hql. unfold clock_of_sort, clock_of_choice, clock_read in HQ.
  wp_step. apply wp_Sort. intros t w1 items Ht _ Hp Hs. rewrite Ht in HQ. simpl in HQ.
  change (fun q => negb _) with is_active.
  destruct (find_index is_active items) as [i|] eqn:Hi.
  - wp_step. destruct (find_index_Some _ _ _ Hi) as (q & Hq & HP & _).
    assert (existsb is_active ql = true) as Hact.
    { apply existsb_exists. exists q. rewrite <- list_elem_of_In, <- Hp. by apply list_elem_of_lookup_2 in Hq. }
    rewrite Hact in HQ. apply (HQ i q items); [done..|]. left. split; [by apply is_active_spec|].
    intros q'; rewrite <- Hp; intros Hq' Ha. eapply find_index_first; [done..|]. by apply is_active_spec.
  - apply find_index_None in Hi. rewrite Forall_forall in Hi.
    assert (existsb is_active ql = false) as Hact.
    { apply not_true_iff_false. intros (q & Hq & Ha)%existsb_exists.
      rewrite <- list_elem_of_In, <- Hp in Hq. by rewrite (Hi q Hq) in Ha. }
    assert (forall q', q' ∈ ql -> ~ qst_State (queue_Status q') <> Waiting) as Hwait.
    { intros q'. rewrite <- Hp, <- is_active_spec. intros Hq'. by rewrite (Hi q' Hq'). }
    rewrite Hact in HQ. wp_step. apply wp_now. intros t' w2 Ht'. rewrite Ht' in HQ. simpl in HQ.
    destruct (find_index _ items) as [i|] eqn:Hd; wp_step.
    + destruct (find_index_Some _ _ _ Hd) as (q & Hq & HP & _).
      apply (HQ i q items); [done..|]. right. split; [done|]. left. split; [done|].
      intros q'; rewrite <- Hp; intros Hq' Hdue. by eapply find_index_first.
    + destruct items as [|q items]; [subst; by apply Permutation_nil_l in Hp|].
      apply (HQ 0%nat q (q :: items)); [done..|]. right. split; [done|]. right.
      apply find_index_None in Hd. rewrite Forall_forall in Hd.
      intros q'; rewrite <- Hp; intros Hq'. split; [auto|]. eapply sorted_head; [exact Hs|exact Hq'].
Qed.

(** C28: [First] never fails; it finds nothing only in an empty list, and changes nothing but
    the order.  A queue that is already being processed comes before all that wait;
    otherwise the best queue that is due is taken, and when none is due, the one whose
    turn is next.  What is held back is judged by the clock as the sort reads it, and what
    is due by the clock as it is read afterwards. *)
Theorem First_selects ql w :
  exists r, First ql w = (Ok r, match ql with [] => w | _ => clock_read ql w end) /\ r.2 ≡ₚ ql /\
    match r.1 with
    | None => ql = []
    | Some i => exists q, r.2 !! i = Some q /\ first_choice (clock_of_sort w) (clock_of_choice w) ql q
    end.
Proof.
  assert (wp (First ql) w (fun r w' => exists l, r = Ok l /\ w' = match ql with [] => w | _ => clock_read ql w end /\
    l.2 ≡ₚ ql /\ match l.1 with
                 | None => ql = []
                 | Some i => exists q, l.2 !! i = Some q /\ first_choice (clock_of_sort w) (clock_of_choice w) ql q
                 end)) as (r & Hr & Hw & H).
  - apply wp_First.
    + intros ->. by exists (None, []).
    + intros i q items Hp Hq _ Hc. exists (Some i, items). split_and!; [done| |done|by exists q].
      destruct ql; [|done]. apply Permutation_nil_r in Hp as ->. done.
  - exists r. split; [|exact H]. rewrite (surjective_pairing (First ql w)), Hr. by rewrite Hw.
Qed.

Definition order_of (q : Queue) : Z := qs_NoOfOrder (queue_Spec q).
Definition next_of (q : Queue) : option Z := qs_NextProcessAt (queue_Spec q).

(** Strictly in front, at every sort done at the instant [t]. *)
Definition strictly_precedes (t : Z) (a b : Queue) : Prop := precedes t a b /\ ~ precedes t b a.

Lemma free_smaller_precedes t a b :
  next_of a = None -> held_back t b = true \/ order_of a < order_of b ->
  strictly_precedes t a b.
Proof.
  unfold strictly_precedes, precedes, order_of, next_of. intros Ha Hor.
  assert (held_back t a = false) as -> by (unfold held_back; by rewrite Ha).
  destruct (held_back t b) eqn:E; [naive_solver|]. rewrite Ha.
  destruct Hor; [done|]. split; [by left|]. lia.
Qed.

Lemma precedes_free_order t a b :
  held_back t b = false -> precedes t a b -> order_of a <= order_of b.
Proof.
  unfold precedes, order_of. intros ->. destruct (held_back t a); [done|]. lia.
Qed.

(** C30: the number that [TopQueueOrder] hands out is in front of every queue of the
    list: a queue with that number that waits for no instant sorts strictly before
    all of them (as long as the numbers stay clear of the lower end of an int). *)
Theorem TopQueueOrder_in_front ql w :
  Forall (fun q => -2 ^ 63 < order_of q < 2 ^ 63) ql ->
  exists r w', TopQueueOrder ql w = (Ok r, w') /\ r.2 ≡ₚ ql /\
    (ql = [] -> r.1 = 1) /\
    (ql <> [] -> exists t, rt_now w = (t, w') /\
       forall new, order_of new = r.1 -> next_of new = None ->
         Forall (strictly_precedes t new) ql).
Proof.
  intros Hrange. apply wp_total, wp_TopQueueOrder.
  - intros ->. by exists (1, []).
  - intros t w' q items Ht Hp Hs.
    assert (-2 ^ 63 < order_of q < 2 ^ 63) as Hq.
    { rewrite Forall_forall in Hrange. apply Hrange. rewrite <- Hp. set_solver. }
    unfold order_of in Hq. rewrite int_sub_id by (unfold in64; lia).
    exists (order_of q - 1, q :: items). split_and!; [done..| |].
    + intros ->. by apply Permutation_nil_r in Hp.
    + intros _. exists t. split; [done|]. intros new Ho Hn.
      eapply Forall_perm; [exact Hp|]; apply Forall_forall. intros q' Hq'.
      apply free_smaller_precedes; [done|]. destruct (held_back t q') eqn:Hh; [by left|right].
      pose proof (precedes_free_order _ _ _ Hh (sorted_head _ _ _ _ Hs Hq')). simpl in Ho. lia.
Qed.

(** the number that [LastQueueOrder] hands out is behind every queue of the
    list, provided no queue is held back until a later instant. *)
Theorem LastQueueOrder_behind ql w :
  Forall (fun q => -2 ^ 63 <= order_of q < 2 ^ 63 - 1) ql ->
  Forall (fun q => held_back (fst (rt_now w)) q = false) ql ->
  exists r w', LastQueueOrder ql w = (Ok r, w') /\ r.2 ≡ₚ ql /\
    (ql = [] -> r.1 = 1) /\ Forall (fun q => order_of q < r.1) ql.
Proof.
  intros Hrange Hfree. apply wp_total, wp_LastQueueOrder.
  - intros ->. by exists (1, []).
  - intros t w' q items Ht Hl Hp Hs. rewrite Ht in Hfree. simpl in Hfree.
    assert (q ∈ ql) as Hin by (rewrite <- Hp; by apply last_Some_elem_of).
    rewrite Forall_forall in Hrange, Hfree. specialize (Hrange q Hin).
    unfold order_of in Hrange. rewrite int_add_id by (unfold in64; lia).
    exists (order_of q + 1, items). split_and!; [done..| |].
    + intros ->. by apply elem_of_nil in Hin.
    + apply Forall_forall. intros q' Hq'. simpl. rewrite <- Hp in Hq'.
      pose proof (sorted_last _ _ _ _ Hs Hl Hq') as Hpre.
      pose proof (precedes_free_order _ _ _ (Hfree _ Hin) Hpre). lia.
Qed.
End properties.

(** ** Concrete runs *)

Definition sample_queue (name : string) (order : Z) (next : option Z) : Queue :=
  zeroQueue <| queue_Meta := namedMeta "team" name |>
    <| queue_Spec := zeroQueueSpec <| qs_Name := name |> <| qs_NoOfOrder := order |>
                       <| qs_NextProcessAt := next |>
                       <| qs_Components := [mkQueueComponent name "repo" "1.0"] |> |>
    <| queue_Status := zeroQueueStatus <| qst_State := Waiting |> |>.

Definition sample_list : QueueList :=
  [sample_queue "b" 2 None; sample_queue "late" 1 (Some 50); sample_queue "a" 1 (Some 3)].

(** At the instant 10, the queue "late" waits until 50 though its number is as low as any,
    and "a" is due; at the instant 2 both wait and "b" goes first; a queue that is being
    processed is taken whenever it may run. *)
Lemma First_selects_witness :
  let name_of (r : option nat * QueueList) :=
    match r.1 with Some i => kname <$> r.2 !! i | None => None end in
  let busy := (sample_queue "busy" 9 (Some 70)) <| queue_Status ::= fun s => s <| qst_State := Creating |> |> in
  (exists r w', @First Z sim_runtime insertion_GoSort sample_list 10 = (Ok r, w') /\ name_of r = Some "a") /\
  (exists r w', @First Z sim_runtime insertion_GoSort sample_list 2 = (Ok r, w') /\ name_of r = Some "b") /\
  (exists r w', @First Z sim_runtime insertion_GoSort (tl sample_list) 2 = (Ok r, w') /\ name_of r = Some "a") /\
  (exists r w', @First Z sim_runtime insertion_GoSort (busy :: sample_list) 10 = (Ok r, w') /\ name_of r = Some "busy").
Proof.
  intros name_of busy. split_and!.
  all: match goal with |- exists r w', @First _ _ _ ?ql ?t = _ /\ _ =>
         destruct (@First_selects Z sim_runtime insertion_GoSort ql t) as (r & Hr & _);
         exists r; eexists; split; [exact Hr|]; vm_compute in Hr; injection Hr as <-; vm_compute; reflexivity end.
Defined.

Lemma TopQueueOrder_in_front_witness :
  exists r w', @TopQueueOrder Z sim_runtime insertion_GoSort sample_list 10 = (Ok r, w') /\
    r.2 ≡ₚ sample_list /\ (sample_list = [] -> r.1 = 1) /\
    (sample_list <> [] -> exists t, rt_now (W:=Z) 10 = (t, w') /\
       forall new, order_of new = r.1 -> next_of new = None ->
         Forall (strictly_precedes t new) sample_list).
Proof.
  apply (@TopQueueOrder_in_front Z sim_runtime insertion_GoSort sample_list 10).
  repeat constructor.
Defined.

Lemma LastQueueOrder_behind_witness :
  exists r w', @LastQueueOrder Z sim_runtime insertion_GoSort sample_list 60 = (Ok r, w') /\
    r.2 ≡ₚ sample_list /\ (sample_list = [] -> r.1 = 1) /\
    Forall (fun q => order_of q < r.1) sample_list.
Proof.
  apply (@LastQueueOrder_behind Z sim_runtime insertion_GoSort sample_list 60);
    repeat constructor; done.
Defined.

(** a queue that is held back spoils [LastQueueOrder]: it sorts last whatever
    its number, so the number handed out, one more than its own, is not behind the
    others, and is handed out again to the next queue that is added. *)
Theorem LastQueueOrder_held_back_collides :
  exists n items w' n' items' w'',
    @LastQueueOrder Z sim_runtime insertion_GoSort sample_list 10 = (Ok (n, items), w') /\
    (exists q, q ∈ sample_list /\ n <= order_of q) /\
    @LastQueueOrder Z sim_runtime insertion_GoSort (sample_queue "c" n None :: sample_list) w'
      = (Ok (n', items'), w'') /\ n' = n.
Proof.
  eexists _, _, _, _, _, _. split; [by vm_compute|]. split.
  - exists (sample_queue "b" 2 None). split; [set_solver|]. by vm_compute.
  - split; by vm_compute.
Qed.
