(* ===== verification/RpcTypes.v ===== *)
(** The messages of [pkg/samsahai/rpc/service.proto] that the staging controller and
    Samsahai exchange, the conversions of [pkg/samsahai/rpc/extra.go], and the service as
    a class: the controllers of the staging side are proved against it.  A field that
    holds a message is a pointer in the code, an [option] here. *)

From S2P Require Import Prelude.
From S2P Require Import GoRuntime.
From S2P Require Import Errors.
From S2P Require Import ConfigTypes.
Open Scope string_scope.
Open Scope list_scope.
Open Scope Z_scope.

Inductive UpgradeStatus := UpgradeStatus_FAILURE | UpgradeStatus_SUCCESS | UpgradeStatus_CANCELED.
Inductive IssueType :=
| IssueType_UNKNOWN | IssueType_DESIRED_VERSION_FAILED | IssueType_IMAGE_MISSING
| IssueType_ENVIRONMENT_ISSUE.
Inductive ReverificationStatus :=
| ReverificationStatus_UNKNOWN | ReverificationStatus_FAILURE | ReverificationStatus_SUCCESS.

#[export] Instance upgrade_status_eq_dec : EqDecision UpgradeStatus.
Proof. solve_decision. Defined.
#[export] Instance issue_type_eq_dec : EqDecision IssueType.
Proof. solve_decision. Defined.
#[export] Instance reverification_status_eq_dec : EqDecision ReverificationStatus.
Proof. solve_decision. Defined.

Record RpcImage := mkRpcImage { ri_Repository : string; ri_Tag : string }.
Record RpcComponent := mkRpcComponent { rc_Name : string; rc_Image : option RpcImage }.
Record RpcFailureComponent := mkRpcFailureComponent {
  rfc_ComponentName : string;
  rfc_FirstFailureContainerName : string;
  rfc_RestartCount : Z;
  rfc_NodeName : string;
}.
Record RpcDeploymentIssue := mkRpcDeploymentIssue {
  rdi_IssueType : string;
  rdi_FailureComponents : list RpcFailureComponent;
}.
Record TeamWithPullRequest := mkTeamWithPullRequest {
  tpr_TeamName : string;
  tpr_BundleName : string;
  tpr_PRNumber : string;
  tpr_CommitSHA : string;
  tpr_Namespace : string;
  tpr_MaxRetryQueue : Z;
  tpr_ImageMissingList : list RpcImage;
}.
Record ComponentUpgrade := mkComponentUpgrade {
  cu_Status : UpgradeStatus;
  cu_Name : string;
  cu_TeamName : string;
  cu_Components : list RpcComponent;
  cu_IssueType : IssueType;
  cu_QueueHistoryName : string;
  cu_ImageMissingList : list RpcImage;
  cu_Namespace : string;
  cu_TestBuildTypeID : string;
  cu_Runs : Z;
  cu_IsReverify : bool;
  cu_ReverificationStatus : ReverificationStatus;
  cu_DeploymentIssues : list RpcDeploymentIssue;
  cu_PullRequestComponent : option TeamWithPullRequest;
  cu_PullRequestNamespace : string;
}.

Record TeamWithBundleName := mkTeamWithBundleName { twb_TeamName : string; twb_BundleName : string }.
Record TeamWithNamespace := mkTeamWithNamespace { twn_TeamName : string; twn_Namespace : string }.
Record TeamWithCurrentComponent := mkTeamWithCurrentComponent {
  twc_TeamName : string; twc_Components : list RpcComponent }.
Record RpcComponentSource := mkRpcComponentSource {
  csr_ComponentName : string;
  csr_Source : string;
  csr_Pattern : string;
  csr_Image : option RpcImage;
}.
Record RpcPullRequestTrigger := mkRpcPullRequestTrigger {
  rpt_Name : string;
  rpt_Namespace : string;
  rpt_TeamName : string;
  rpt_Result : string;
  rpt_ImageMissingList : list RpcImage;
}.

Inductive Criteria :=
| Criteria_UNKNOWN | Criteria_BOTH | Criteria_FAILURE | Criteria_SUCCESS
| OtherCriteria (n : Z).
#[export] Instance criteria_eq_dec : EqDecision Criteria.
Proof. solve_decision. Defined.
Record RpcTearDownDuration := mkRpcTearDownDuration { rtd_Duration : Z; rtd_Criteria : Criteria }.
Record RpcTriggerConfig := mkRpcTriggerConfig { rtc_MaxRetry : Z; rtc_PollingTime : string }.
Record RpcPullRequestConfig := mkRpcPullRequestConfig {
  rpc_Concurrences : Z;
  rpc_MaxRetry : Z;
  rpc_MaxHistoryDays : Z;
  rpc_Trigger : option RpcTriggerConfig;
  rpc_GitRepository : string;
  rpc_GitProjectID : string;
  rpc_TearDownDuration : option RpcTearDownDuration;
}.
#[export] Instance eta_RpcComponentSource : Eta RpcComponentSource := fun x =>
  mkRpcComponentSource (csr_ComponentName x) (csr_Source x) (csr_Pattern x) (csr_Image x).
#[export] Instance eta_RpcImage : Eta RpcImage := fun x => mkRpcImage (ri_Repository x) (ri_Tag x).

(** ** [extra.go] *)

Definition FromCrdCriteria (criteria : PullRequestTearDownDurationCriteria) : error + Criteria :=
  if String.eqb criteria PullRequestTearDownDurationCriteriaBoth then inr Criteria_BOTH
  else if String.eqb criteria PullRequestTearDownDurationCriteriaFailure then inr Criteria_FAILURE
  else if String.eqb criteria PullRequestTearDownDurationCriteriaSuccess then inr Criteria_SUCCESS
  else inl (New (criteria +:+ " is not a valid tearDownDuration criteria")).

Definition ToCrdCriteria (x : Criteria) : error + PullRequestTearDownDurationCriteria :=
  match x with
  | Criteria_UNKNOWN => inl ErrPullRequestRPCTearDownDurationCriteriaUnknown
  | Criteria_BOTH => inr PullRequestTearDownDurationCriteriaBoth
  | Criteria_FAILURE => inr PullRequestTearDownDurationCriteriaFailure
  | Criteria_SUCCESS => inr PullRequestTearDownDurationCriteriaSuccess
  | OtherCriteria n => inl (New (pretty n +:+ " is not a valid tearDownDuration criteria"))
  end.

(** ** The service *)

Class SamsahaiRPC (W : Type) := {
  rpc_GetTeamActiveNamespace : string -> M W TeamWithNamespace;
  rpc_RunPostComponentUpgrade : ComponentUpgrade -> M W unit;
  rpc_RunPostPullRequestQueue : ComponentUpgrade -> M W unit;
  rpc_RunPostPullRequestTrigger : RpcPullRequestTrigger -> M W unit;
  rpc_RunPostPullRequestQueueTestRunnerTrigger : TeamWithPullRequest -> M W unit;
  rpc_GetMissingVersions : TeamWithCurrentComponent -> M W (list RpcImage);
  rpc_SendUpdateStateQueueMetric : ComponentUpgrade -> M W unit;
  rpc_GetBundleName : TeamWithBundleName -> M W string;
  rpc_GetPriorityQueues : string -> M W (list string);
  rpc_GetPullRequestBundleDependencies : TeamWithBundleName -> M W (list RpcComponent);
  rpc_GetPullRequestConfig : TeamWithBundleName -> M W RpcPullRequestConfig;
  rpc_GetPullRequestComponentSources : TeamWithPullRequest -> M W (list RpcComponentSource);
  rpc_GetComponentVersion : RpcComponentSource -> M W string;
  rpc_DeployActiveServicesIntoPullRequestEnvironment : TeamWithNamespace -> M W unit;
  rpc_CreatePullRequestEnvironment : TeamWithPullRequest -> M W unit;
  rpc_DestroyPullRequestEnvironment : TeamWithNamespace -> M W unit;
}.
