(* ===== verification/PrqTypes.v ===== *)
(** Model of [api/v1/pullrequestqueue_types.go] and
    [api/v1/pullrequestqueuehistory_types.go]: a pull request that waits to be deployed
    and tested in an environment of its own, its conditions, and the order of the queue. *)

From S2P Require Import Prelude.
From S2P Require Import GoRuntime.
From S2P Require Import Errors.
From S2P Require Import KubeApi.
From S2P Require Import ConfigTypes.
From S2P Require Import QueueTypes.
Open Scope string_scope.
Open Scope list_scope.
Open Scope Z_scope.

(** ** Data *)

Inductive PullRequestQueueState :=
| PullRequestQueueWaiting | PullRequestQueueEnvCreating | PullRequestQueueDeploying
| PullRequestQueueTesting | PullRequestQueueCollecting | PullRequestQueueEnvDestroying
| PullRequestQueueFinished
| PullRequestQueueNew                        (* "", the state of a new object *)
| OtherPullRequestQueueState (s : string).

Inductive PullRequestQueueConditionType :=
| PullRequestQueueCondStarted | PullRequestQueueCondEnvCreated
| PullRequestQueueCondDependenciesUpdated | PullRequestQueueCondDeployed
| PullRequestQueueCondTested | PullRequestQueueCondResultCollected
| PullRequestQueueCondEnvDestroyed.

Inductive PullRequestQueueResult :=
| PullRequestQueueCanceled | PullRequestQueueSuccess | PullRequestQueueFailure
| NoPullRequestQueueResult                   (* "" *)
| OtherPullRequestQueueResult (s : string).

#[export] Instance prq_state_eq_dec : EqDecision PullRequestQueueState.
Proof. solve_decision. Defined.
#[export] Instance prq_condition_type_eq_dec : EqDecision PullRequestQueueConditionType.
Proof. solve_decision. Defined.
#[export] Instance prq_result_eq_dec : EqDecision PullRequestQueueResult.
Proof. solve_decision. Defined.

Record PullRequestQueueSpec := mkPullRequestQueueSpec {
  ps_BundleName : string;
  ps_PRNumber : string;
  ps_CommitSHA : string;
  ps_Components : QueueComponents;
  ps_UpcomingCommitSHA : string;
  ps_UpcomingComponents : QueueComponents;
  ps_NoOfRetry : Z;
  ps_NoOfOrder : Z;
  ps_TeamName : string;
  ps_GitRepository : string;
  ps_ImageMissingList : list Image;
  ps_IsPRTriggerFailed : option bool;
  ps_PRTriggerCreatedAt : option Z;
  ps_PRTriggerFinishedAt : option Z;
  ps_TearDownDuration : PullRequestTearDownDuration;
  ps_TestRunner : option ConfigTestRunnerOverrider;
}.
Definition PullRequestQueueCondition := Condition PullRequestQueueConditionType.
Record PullRequestQueueStatus := mkPullRequestQueueStatus {
  pst_CreatedAt : option Z;
  pst_UpdatedAt : option Z;
  pst_State : PullRequestQueueState;
  pst_PullRequestNamespace : string;
  pst_PullRequestQueueHistoryName : string;
  pst_Result : PullRequestQueueResult;
  pst_Conditions : list PullRequestQueueCondition;
  pst_DeploymentQueue : option Queue;
  pst_DestroyedTime : option Z;
}.
Record PullRequestQueue := mkPullRequestQueue {
  prq_Meta : ObjectMeta;
  prq_Spec : PullRequestQueueSpec;
  prq_Status : PullRequestQueueStatus;
}.
Record PullRequestQueueHistory := mkPullRequestQueueHistory {
  pqh_Meta : ObjectMeta;
  pqh_PullRequestQueue : option PullRequestQueue;
}.

#[export] Instance eta_PullRequestQueueSpec : Eta PullRequestQueueSpec := fun x =>
  mkPullRequestQueueSpec (ps_BundleName x) (ps_PRNumber x) (ps_CommitSHA x) (ps_Components x)
    (ps_UpcomingCommitSHA x) (ps_UpcomingComponents x) (ps_NoOfRetry x) (ps_NoOfOrder x)
    (ps_TeamName x) (ps_GitRepository x) (ps_ImageMissingList x) (ps_IsPRTriggerFailed x)
    (ps_PRTriggerCreatedAt x) (ps_PRTriggerFinishedAt x) (ps_TearDownDuration x) (ps_TestRunner x).
#[export] Instance eta_PullRequestQueueStatus : Eta PullRequestQueueStatus := fun x =>
  mkPullRequestQueueStatus (pst_CreatedAt x) (pst_UpdatedAt x) (pst_State x)
    (pst_PullRequestNamespace x) (pst_PullRequestQueueHistoryName x) (pst_Result x)
    (pst_Conditions x) (pst_DeploymentQueue x) (pst_DestroyedTime x).
#[export] Instance eta_PullRequestQueue : Eta PullRequestQueue := fun x =>
  mkPullRequestQueue (prq_Meta x) (prq_Spec x) (prq_Status x).
#[export] Instance eta_PullRequestQueueHistory : Eta PullRequestQueueHistory := fun x =>
  mkPullRequestQueueHistory (pqh_Meta x) (pqh_PullRequestQueue x).
#[export] Instance prq_object : KObject PullRequestQueue := prq_Meta.
#[export] Instance prq_mark : KMark PullRequestQueue := fun t x => x <| prq_Meta ::= mark_deleted t |>.
#[export] Instance prq_mark_laws : KMarkLaws PullRequestQueue.
Proof. intros t x. apply (mark_deleted_key t (prq_Meta x)). Qed.
#[export] Instance pqh_object : KObject PullRequestQueueHistory := pqh_Meta.
#[export] Instance pqh_mark : KMark PullRequestQueueHistory := fun t x => x <| pqh_Meta ::= mark_deleted t |>.
#[export] Instance pqh_mark_laws : KMarkLaws PullRequestQueueHistory.
Proof. intros t x. apply (mark_deleted_key t (pqh_Meta x)). Qed.

(** The zero values. *)
Definition zeroPrqStatus : PullRequestQueueStatus :=
  mkPullRequestQueueStatus None None PullRequestQueueNew "" "" NoPullRequestQueueResult [] None None.
Definition zeroPrqSpec : PullRequestQueueSpec :=
  mkPullRequestQueueSpec "" "" "" [] "" [] 0 0 "" "" [] None None None
    (mkPullRequestTearDownDuration 0 "") None.

(** ** Methods *)

Definition SetPullRequestNamespace (namespace : string) (s : PullRequestQueueStatus) :=
  s <| pst_PullRequestNamespace := namespace |>.
Definition PrqSetResult (res : PullRequestQueueResult) (s : PullRequestQueueStatus) :=
  s <| pst_Result := res |>.
Definition SetPullRequestQueueHistoryName (name : string) (s : PullRequestQueueStatus) :=
  s <| pst_PullRequestQueueHistoryName := name |>.
(** The metadata of the queue are not kept. *)
Definition SetDeploymentQueue (q : Queue) (s : PullRequestQueueStatus) :=
  s <| pst_DeploymentQueue := Some (mkQueue noMeta (queue_Spec q) (queue_Status q)) |>.
Definition PrqSetDestroyedTime (t : Z) (s : PullRequestQueueStatus) :=
  s <| pst_DestroyedTime := Some t |>.
Definition PrqIsConditionTrue (s : PullRequestQueueStatus) (cond : PullRequestQueueConditionType) : bool :=
  is_condition_true cond (pst_Conditions s).
(** The clock reads [t]. *)
Definition PrqSetCondition (t : Z) (cond : PullRequestQueueConditionType) (status : ConditionStatus)
    (message : string) (s : PullRequestQueueStatus) : PullRequestQueueStatus :=
  s <| pst_Conditions ::= set_condition cond status message t |>.

Definition PrqSetState (t : Z) (state : PullRequestQueueState) (prq : PullRequestQueue) : PullRequestQueue :=
  prq <| prq_Status ::= fun s =>
    s <| pst_UpdatedAt := Some t |> <| pst_State := state |>
      <| pst_CreatedAt := match pst_CreatedAt s with None => Some t | c => c end |> |>.

Definition IsPrqFailure (prq : PullRequestQueue) : bool :=
  bool_decide (pst_Result (prq_Status prq) = PullRequestQueueFailure).
Definition IsPrqCanceled (prq : PullRequestQueue) : bool :=
  bool_decide (pst_Result (prq_Status prq) = PullRequestQueueCanceled).

(** ** The order of the queue *)

(** [PullRequestQueueByNoOfOrder.Less]. *)
Definition PrqLess (a b : PullRequestQueue) : bool :=
  if ps_NoOfOrder (prq_Spec a) =? ps_NoOfOrder (prq_Spec b)
  then string_less (kname a) (kname b)
  else ps_NoOfOrder (prq_Spec a) <? ps_NoOfOrder (prq_Spec b).

(** [PullRequestQueueHistoryByCreatedTimeDESC.Less]. *)
Definition PqhGreater (a b : PullRequestQueueHistory) : bool :=
  om_CreationTimestamp (pqh_Meta b) <? om_CreationTimestamp (pqh_Meta a).

Section sorting.
Context `{GoSort}.

Definition PrqSort (l : list PullRequestQueue) : list PullRequestQueue := go_sort PrqLess l.
Definition PqhSortDESC (l : list PullRequestQueueHistory) : list PullRequestQueueHistory :=
  go_sort PqhGreater l.

Definition PrqLastQueueOrder {W} (l : list PullRequestQueue) : M W Z :=
  match l with
  | [] => mret 1
  | _ =>
      match last (PrqSort l) with
      | None => go_panic IndexOutOfRange
      | Some q => mret (int_add (ps_NoOfOrder (prq_Spec q)) 1)
      end
  end.
End sorting.

(** ** Facts *)

Lemma PrqLess_ordering : sort_ordering PrqLess.
Proof.
  destruct string_less_ordering as [Ht Hn].
  split; intros x y z; unfold PrqLess;
    destruct (Z.eqb_spec (ps_NoOfOrder (prq_Spec x)) (ps_NoOfOrder (prq_Spec y))),
      (Z.eqb_spec (ps_NoOfOrder (prq_Spec y)) (ps_NoOfOrder (prq_Spec z))),
      (Z.eqb_spec (ps_NoOfOrder (prq_Spec x)) (ps_NoOfOrder (prq_Spec z))); try lia; eauto.
Qed.

Lemma PqhGreater_ordering : sort_ordering PqhGreater.
Proof. split; intros x y z; unfold PqhGreater; rewrite ?Z.ltb_lt, ?Z.ltb_ge; lia. Qed.

(** The order of two queues decides, and their names when it is the same. *)
Lemma PrqLess_follow a b :
  may_follow PrqLess a b ->
  ps_NoOfOrder (prq_Spec a) < ps_NoOfOrder (prq_Spec b) \/
  (ps_NoOfOrder (prq_Spec a) = ps_NoOfOrder (prq_Spec b) /\ string_less (kname b) (kname a) = false).
Proof.
  unfold may_follow, PrqLess. rewrite (Z.eqb_sym (ps_NoOfOrder (prq_Spec b))).
  destruct (Z.eqb_spec (ps_NoOfOrder (prq_Spec a)) (ps_NoOfOrder (prq_Spec b))) as [He|Hne].
  - intros Hf. right. split; [done|]. destruct (string_less (kname b) (kname a)) eqn:E; [|done].
    destruct string_less_ordering as [Ht _]. specialize (Ht _ _ _ E (Hf eq_refl)).
    by rewrite string_less_irrefl in Ht.
  - rewrite !Z.ltb_lt. lia.
Qed.

