(* ===== verification/PrtTypes.v ===== *)
(** Model of [api/v1/pullrequesttrigger_types.go]: the trigger of a pull request, which
    looks for the images of its components until the pull request can be queued. *)

From S2P Require Import Prelude.
From S2P Require Import GoRuntime.
From S2P Require Import Errors.
From S2P Require Import KubeApi.
From S2P Require Import ConfigTypes.
From S2P Require Import QueueTypes.
Open Scope string_scope.
Open Scope list_scope.
Open Scope Z_scope.

Record PullRequestTriggerComponent := mkPullRequestTriggerComponent {
  pt_ComponentName : string;
  pt_Image : option Image;
  pt_Pattern : string;
  pt_Source : UpdatingSource;
}.
Record PullRequestTriggerSpec := mkPullRequestTriggerSpec {
  pts_BundleName : string;
  pts_PRNumber : string;
  pts_CommitSHA : string;
  pts_Components : list PullRequestTriggerComponent;
  pts_NextProcessAt : option Z;
  pts_NoOfRetry : option Z;
  pts_GitRepository : string;
  pts_TearDownDuration : option PullRequestTearDownDuration;
  pts_TestRunner : option ConfigTestRunnerOverrider;
}.
Inductive PullRequestTriggerResult :=
| PullRequestTriggerSuccess | PullRequestTriggerFailure
| OtherPullRequestTriggerResult (s : string).
Inductive PullRequestTriggerConditionType := PullRequestTriggerCondFailed.
#[export] Instance prt_condition_type_eq_dec : EqDecision PullRequestTriggerConditionType.
Proof. solve_decision. Defined.
Definition PullRequestTriggerCondition := Condition PullRequestTriggerConditionType.
Record PullRequestTriggerStatus := mkPullRequestTriggerStatus {
  ptst_CreatedAt : option Z;
  ptst_UpdatedAt : option Z;
  ptst_Result : PullRequestTriggerResult;
  ptst_ImageMissingList : list Image;
  ptst_Conditions : list PullRequestTriggerCondition;
}.
Record PullRequestTrigger := mkPullRequestTrigger {
  prt_Meta : ObjectMeta;
  prt_Spec : PullRequestTriggerSpec;
  prt_Status : PullRequestTriggerStatus;
}.

#[export] Instance eta_PullRequestTriggerComponent : Eta PullRequestTriggerComponent := fun x =>
  mkPullRequestTriggerComponent (pt_ComponentName x) (pt_Image x) (pt_Pattern x) (pt_Source x).
#[export] Instance eta_PullRequestTriggerSpec : Eta PullRequestTriggerSpec := fun x =>
  mkPullRequestTriggerSpec (pts_BundleName x) (pts_PRNumber x) (pts_CommitSHA x) (pts_Components x)
    (pts_NextProcessAt x) (pts_NoOfRetry x) (pts_GitRepository x) (pts_TearDownDuration x) (pts_TestRunner x).
#[export] Instance eta_PullRequestTriggerStatus : Eta PullRequestTriggerStatus := fun x =>
  mkPullRequestTriggerStatus (ptst_CreatedAt x) (ptst_UpdatedAt x) (ptst_Result x)
    (ptst_ImageMissingList x) (ptst_Conditions x).
#[export] Instance eta_PullRequestTrigger : Eta PullRequestTrigger := fun x =>
  mkPullRequestTrigger (prt_Meta x) (prt_Spec x) (prt_Status x).
#[export] Instance prt_object : KObject PullRequestTrigger := prt_Meta.
#[export] Instance prt_mark : KMark PullRequestTrigger := fun t x => x <| prt_Meta ::= mark_deleted t |>.
#[export] Instance prt_mark_laws : KMarkLaws PullRequestTrigger.
Proof. intros t x. apply (mark_deleted_key t (prt_Meta x)). Qed.

(** The zero status. *)
Definition zeroPrtStatus : PullRequestTriggerStatus :=
  mkPullRequestTriggerStatus None None (OtherPullRequestTriggerResult "") [] [].

Definition trigger_result_string (r : PullRequestTriggerResult) : string :=
  match r with
  | PullRequestTriggerSuccess => "Success"
  | PullRequestTriggerFailure => "Failure"
  | OtherPullRequestTriggerResult s => s
  end.

Definition PrtSetResult (res : PullRequestTriggerResult) (st : PullRequestTriggerStatus)
    : PullRequestTriggerStatus := st <| ptst_Result := res |>.
Definition PrtSetCondition (t : Z) (cond : PullRequestTriggerConditionType) (status : ConditionStatus)
    (message : string) (st : PullRequestTriggerStatus) : PullRequestTriggerStatus :=
  st <| ptst_Conditions ::= set_condition cond status message t |>.
