(* ===== verification/Values.v ===== *)
(** Model of [internal/util/valuesutil/values.go] and [internal/util/map.go]: the values of
    a component, merged from those of its environment, its own and the stable versions of
    itself and its dependencies.

    A [map\[string\]interface{}] is a list of entries with distinct keys; the order means
    nothing.  [MergeValues] updates its first argument in place and returns it, and a map of
    its second argument that the first has nothing for is taken over as it is: what is merged
    in later is then also written into the [Values] of the component.  The model gives the
    value that is returned, and not what the component has afterwards; the callers read
    their components afresh from the configuration. *)

From S2P Require Import Prelude.
From S2P Require Import GoRuntime.
From S2P Require Import Errors.
From S2P Require Import KubeApi.
From S2P Require Import ConfigTypes.
From S2P Require Import ComponentTypes.
Open Scope string_scope.
Open Scope list_scope.
Open Scope Z_scope.

(** [m[k]] and [m[k] = v]. *)
Fixpoint jget (k : string) (m : ComponentValues) : option Json :=
  match m with
  | [] => None
  | (k', v) :: m' => if String.eqb k' k then Some v else jget k m'
  end.
Fixpoint jset (k : string) (v : Json) (m : ComponentValues) : ComponentValues :=
  match m with
  | [] => [(k, v)]
  | (k', v') :: m' => if String.eqb k' k then (k, v) :: m' else (k', v') :: jset k v m'
  end.

(** What is stored for a key that has [old] already, and the loop over the target. *)
Fixpoint merge_value (v old : Json) : Json :=
  match v, old with
  | JObject target, JObject base =>
      JObject ((fix merge (target base : ComponentValues) : ComponentValues :=
        match target with
        | [] => base
        | (k, v) :: target' =>
            merge target' (jset k (match jget k base with None => v | Some old => merge_value v old end) base)
        end) target base)
  | _, _ => v
  end.
Fixpoint MergeValues (base target : ComponentValues) : ComponentValues :=
  match target with
  | [] => base
  | (k, v) :: target' =>
      MergeValues (jset k (match jget k base with None => v | Some old => merge_value v old end) base) target'
  end.

Fixpoint copy_value (v : Json) : Json :=
  match v with
  | JObject m => JObject ((fix copy (m : ComponentValues) : ComponentValues :=
      match m with [] => [] | (k, v) :: m' => (k, copy_value v) :: copy m' end) m)
  | _ => v
  end.
Definition CopyMap (m : ComponentValues) : ComponentValues := map (fun p => (p.1, copy_value p.2)) m.

(** ** The values of a component *)

Definition genCompValueFromStableComponent (stableComp : StableComponent) : ComponentValues :=
  [("image", JObject [("repository", JString (sc_Repository (stable_Spec stableComp)));
                      ("tag", JString (sc_Version (stable_Spec stableComp)))])].

Definition GenStableComponentValues (comp : Component) (stableMap : gmap string StableComponent)
    (baseValues : ComponentValues) : ComponentValues :=
  let values := if (0 <? length baseValues)%nat then MergeValues (CopyMap baseValues) (cp_Values comp)
                else CopyMap (cp_Values comp) in
  let values := match stableMap !! cp_Name comp with
                | Some stableComp => MergeValues values (genCompValueFromStableComponent stableComp)
                | None => values
                end in
  fold_left (fun values dep => match stableMap !! dep_Name dep with
    | Some stableComp =>
        MergeValues values [(dep_Name dep, JObject (genCompValueFromStableComponent stableComp))]
    | None => values
    end) (cp_Dependencies comp) values.

(** The last of two stable components with the same name wins. *)
Definition GetStableComponentsMap {W} `{KClient W StableComponent} (namespace : string)
    : M W (gmap string StableComponent) :=
  do stableList <- k_list StableComponent (InNamespace namespace);
  mret (fold_left (fun m stable => <[kname stable := stable]> m) stableList ∅).

(** ** Facts *)

Lemma jget_jset k k' v m : jget k (jset k' v m) = if String.eqb k' k then Some v else jget k m.
Proof.
  induction m as [|[k1 v1] m IH]; simpl; [done|].
  destruct (String.eqb_spec k1 k') as [->|Hne]; simpl.
  - by destruct (String.eqb_spec k' k).
  - destruct (String.eqb_spec k1 k) as [->|Hne']; [|done]. by destruct (String.eqb_spec k' k) as [->|].
Qed.

Lemma merge_value_object target base :
  merge_value (JObject target) (JObject base) = JObject (MergeValues base target).
Proof.
  simpl. f_equal. revert base. induction target as [|[k v] target IH]; intros base; [done|]. apply IH.
Qed.

Lemma jget_notin k m : k ∉ m.*1 -> jget k m = None.
Proof.
  induction m as [|[k' v] m IH]; simpl; [done|]. rewrite not_elem_of_cons. intros [Hne Hin].
  destruct (String.eqb_spec k' k); [congruence|auto].
Qed.

(** An entry of the target replaces that of the base, except that two maps are merged. *)
Definition merged_entry (base target : option Json) : option Json :=
  match target, base with
  | None, _ => base
  | Some v, None => Some v
  | Some v, Some old => Some (merge_value v old)
  end.

Lemma jget_MergeValues k base target :
  NoDup target.*1 -> jget k (MergeValues base target) = merged_entry (jget k base) (jget k target).
Proof.
  revert base. induction target as [|[k' v] target IH]; intros base Hnd; [done|].
  apply NoDup_cons in Hnd as [Hin Hnd]. cbn [MergeValues jget]. rewrite (IH _ Hnd), jget_jset.
  destruct (String.eqb_spec k' k) as [->|Hne]; [|done].
  rewrite (jget_notin k target) by done. simpl. by destruct (jget k base).
Qed.

(** The value at a path of keys. *)
Fixpoint at_path (p : list string) (v : Json) : option Json :=
  match p, v with
  | [], _ => Some v
  | k :: p', JObject m => match jget k m with Some v' => at_path p' v' | None => None end
  | _, _ => None
  end.

(** Maps have distinct keys, at every level. *)
Fixpoint json_wf (v : Json) : Prop :=
  match v with
  | JObject m => NoDup m.*1 /\
      (fix all (m : ComponentValues) : Prop := match m with [] => True | (_, v) :: m' => json_wf v /\ all m' end) m
  | JArray _ => True
  | _ => True
  end.

Lemma json_wf_get k v m : json_wf (JObject m) -> jget k m = Some v -> json_wf v.
Proof.
  intros [_ Hall]. induction m as [|[k' v'] m IH]; simpl; [done|].
  destruct Hall as [Hv Hall]. destruct (String.eqb_spec k' k); [by intros [= ->]|by apply IH].
Qed.

Definition is_object (v : Json) : bool := match v with JObject _ => true | _ => false end.

(** The target has nothing at the path [p], and only maps on the way. *)
Fixpoint silent (p : list string) (v : Json) : Prop :=
  match p, v with
  | k :: p', JObject m => match jget k m with Some v' => silent p' v' | None => True end
  | _, _ => False
  end.

Lemma silent_at_path p v : silent p v -> at_path p v = None.
Proof.
  revert v. induction p as [|k p IH]; intros v Hs; [by destruct v|].
  destruct v as [| | | | |m]; try done. simpl in *. destruct (jget k m); [by apply IH|done].
Qed.

Lemma merge_leaf p target base v :
  json_wf target -> at_path p target = Some v -> is_object v = false -> at_path p (merge_value target base) = Some v.
Proof.
  revert target base. induction p as [|k p IH]; intros t b Hwf Hat Hleaf; cbn [at_path] in Hat.
  - simplify_eq. by destruct v, b.
  - destruct t as [| | | | |target]; try done. destruct (jget k target) as [t'|] eqn:Hk; [|done].
    destruct b as [| | | | |base]; try (cbn [merge_value at_path]; by rewrite Hk).
    rewrite merge_value_object. cbn [at_path]. rewrite jget_MergeValues by apply Hwf. rewrite Hk.
    destruct (jget k base) as [b'|]; simpl; [|done]. apply IH; [by eapply json_wf_get|done..].
Qed.

Lemma merge_silent p target base :
  json_wf target -> silent p target -> is_object base = true -> at_path p (merge_value target base) = at_path p base.
Proof.
  revert target base. induction p as [|k p IH]; intros t b Hwf Hs Hb; [by destruct t|].
  destruct t as [| | | | |target]; try done. destruct b as [| | | | |base]; try done.
  cbn [silent] in Hs. rewrite merge_value_object. cbn [at_path]. rewrite jget_MergeValues by apply Hwf.
  destruct (jget k target) as [t'|] eqn:Hk; [|by destruct (jget k base)].
  destruct (jget k base) as [b'|] eqn:Hkb; simpl; [|by apply silent_at_path].
  destruct (is_object b') eqn:Hb'; [by apply IH; [eapply json_wf_get| |]|].
  assert (merge_value t' b' = t') as -> by (destruct t', b'; done). rewrite silent_at_path by done.
  destruct p; [by destruct t'|by destruct b'].
Qed.

Lemma jget_merge_one k k' v base :
  k <> k' -> jget k (MergeValues base [(k', v)]) = jget k base.
Proof. intros Hne. simpl. rewrite jget_jset. by destruct (String.eqb_spec k' k). Qed.

(** ** Properties *)

(** merging values prefers the target and keeps the base: at a path at which the
    target has a value that is no map, the result has that value; at a path at which the
    target has nothing, with only maps on the way, the result has what the base has. *)
Theorem MergeValues_paths base target p :
  json_wf (JObject target) ->
  (forall v, at_path p (JObject target) = Some v -> is_object v = false ->
     at_path p (JObject (MergeValues base target)) = Some v) /\
  (silent p (JObject target) -> at_path p (JObject (MergeValues base target)) = at_path p (JObject base)).
Proof.
  intros Hwf. rewrite <- merge_value_object. split; [intros v; by apply merge_leaf|].
  intros Hs. by apply merge_silent.
Qed.

(** The image of a stable component at a path. *)
Definition pinned (p : list string) (s : StableComponent) (values : ComponentValues) : Prop :=
  at_path (p ++ ["image"; "repository"]) (JObject values) = Some (JString (sc_Repository (stable_Spec s))) /\
  at_path (p ++ ["image"; "tag"]) (JObject values) = Some (JString (sc_Version (stable_Spec s))).

Lemma pinned_merge p s values target :
  json_wf (JObject target) -> pinned p s target -> pinned p s (MergeValues values target).
Proof. intros Hwf [H1 H2]. unfold pinned. rewrite <- merge_value_object. by split; apply merge_leaf. Qed.

(** The loop over the dependencies. *)
Definition pin_dependencies (stableMap : gmap string StableComponent) (deps : list Dependency)
    (values : ComponentValues) : ComponentValues :=
  fold_left (fun values dep => match stableMap !! dep_Name dep with
    | Some stableComp =>
        MergeValues values [(dep_Name dep, JObject (genCompValueFromStableComponent stableComp))]
    | None => values
    end) deps values.

Lemma pin_dependencies_other stableMap deps values k p :
  k ∉ (dep_Name <$> deps) ->
  at_path (k :: p) (JObject (pin_dependencies stableMap deps values)) = at_path (k :: p) (JObject values).
Proof.
  revert values. induction deps as [|d deps IH]; intros values Hk; [done|].
  rewrite fmap_cons in Hk. apply not_elem_of_cons in Hk as [Hd Hk]. unfold pin_dependencies in *. cbn [fold_left].
  rewrite IH by done. destruct (stableMap !! dep_Name d); [|done]. cbn [at_path]. by rewrite jget_merge_one.
Qed.

Lemma pin_dependencies_pins stableMap deps values dep s :
  NoDup (dep_Name <$> deps) -> dep ∈ deps -> stableMap !! dep_Name dep = Some s ->
  pinned [dep_Name dep] s (pin_dependencies stableMap deps values).
Proof.
  revert values. induction deps as [|d deps IH]; intros values Hnd Hin Hs; [by apply elem_of_nil in Hin|].
  rewrite fmap_cons in Hnd. apply NoDup_cons in Hnd as [Hd Hnd].
  apply elem_of_cons in Hin as [->|Hin]; [|by apply IH].
  unfold pinned, pin_dependencies. cbn [fold_left app]. rewrite Hs.
  change (pinned [dep_Name d] s (pin_dependencies stableMap deps
    (MergeValues values [(dep_Name d, JObject (genCompValueFromStableComponent s))]))).
  unfold pinned. cbn [app]. rewrite !pin_dependencies_other by done.
  apply (pinned_merge [dep_Name d]).
  - repeat split; simpl; repeat constructor; set_solver.
  - unfold pinned. cbn [app at_path jget]. by rewrite String.eqb_refl.
Qed.

(** C37: the values of a component pin the stable versions: whatever the values of the
    environment and its own say, the image of the component is that of its stable version,
    and so is, under its own name, the image of every dependency that has one. *)
Theorem GenStableComponentValues_pins comp stableMap baseValues :
  NoDup (dep_Name <$> cp_Dependencies comp) -> "image" ∉ (dep_Name <$> cp_Dependencies comp) ->
  let values := GenStableComponentValues comp stableMap baseValues in
  (forall s, stableMap !! cp_Name comp = Some s -> pinned [] s values) /\
  (forall dep s, dep ∈ cp_Dependencies comp -> stableMap !! dep_Name dep = Some s -> pinned [dep_Name dep] s values).
Proof.
  intros Hnd Himg values. unfold values, GenStableComponentValues. cbv zeta.
  set (v0 := if (0 <? length baseValues)%nat then _ else _).
  set (v1 := match stableMap !! cp_Name comp with Some _ => _ | None => _ end).
  change (fold_left _ _ v1) with (pin_dependencies stableMap (cp_Dependencies comp) v1).
  split; [|intros dep s; by apply pin_dependencies_pins].
  intros s Hs. unfold pinned. cbn [app]. rewrite !pin_dependencies_other by done.
  unfold v1. rewrite Hs. apply (pinned_merge [] s v0); [|by split].
  repeat split; simpl; repeat constructor; set_solver.
Qed.

Lemma MergeValues_paths_witness :
  let base := [("image", JObject [("tag", JString "1.0"); ("repository", JString "repo")]); ("replicas", JNumber "2")] in
  let target := [("image", JObject [("tag", JString "2.0")])] in
  let merged := JObject (MergeValues base target) in
  at_path ["image"; "tag"] merged = Some (JString "2.0") /\
  at_path ["image"; "repository"] merged = Some (JString "repo").
Proof.
  intros base target merged. split.
  - refine (proj1 (MergeValues_paths base target ["image"; "tag"] _) _ _ _); try reflexivity.
    repeat split; simpl; repeat constructor; set_solver.
  - refine (eq_trans (proj2 (MergeValues_paths base target ["image"; "repository"] _) _) _); try reflexivity.
    repeat split; simpl; repeat constructor; set_solver.
Defined.

Lemma GenStableComponentValues_pins_witness :
  let stable name version := mkStableComponent (namedMeta "ns" name)
    (mkStableComponentSpec name ("repo/" +:+ name) version "") (mkStableComponentStatus None None) in
  let dep name := mkDependency "web" name (mkComponentChart "" "" "") (mkComponentImage "" "" "") [] None [] in
  let comp := mkComponent "" "web" (mkComponentChart "" "" "") (mkComponentImage "" "" "")
    [("image", JObject [("tag", JString "dev")])] None [] [dep "redis"; dep "db"] in
  let values := GenStableComponentValues comp {[ "web" := stable "web" "1.0"; "redis" := stable "redis" "5" ]}
    [("image", JString "none")] in
  at_path ["image"; "tag"] (JObject values) = Some (JString "1.0") /\
  at_path ["redis"; "image"; "tag"] (JObject values) = Some (JString "5").
Proof.
  intros stable dep comp values.
  destruct (GenStableComponentValues_pins comp {[ "web" := stable "web" "1.0"; "redis" := stable "redis" "5" ]}
    [("image", JString "none")]) as [H1 H2].
  - apply (bool_decide_unpack _). exact I.
  - apply (bool_decide_unpack _). exact I.
  - split.
    + exact (proj2 (H1 (stable "web" "1.0") eq_refl)).
    + refine (proj2 (H2 (dep "redis") (stable "redis" "5") _ eq_refl)). left.
Defined.
