(* ===== verification/QueueCtrl.v ===== *)
(** Model of [internal/queue/controller.go]: the controller that keeps the queues of
    a namespace, the queues that an active promotion asks for, and the report of a
    queue's outcome.

    The objects of [client.List] are fresh copies, so the local lists are values; a
    pointer into [Items] is an index where the slice is sorted or written while the
    pointer is alive, and a copy of the element where the slice was replaced by a
    new one before ([pQueue] in [add]). *)

From S2P Require Import Prelude.
From S2P Require Import GoRuntime.
From S2P Require Import Errors.
From S2P Require Import KubeApi.
From S2P Require Import Frame.
From S2P Require Import ConfigTypes.
From S2P Require Import ComponentTypes.
From S2P Require Import QueueTypes.
From S2P Require Import RpcTypes.
Open Scope string_scope.
Open Scope list_scope.
Open Scope Z_scope.

(** [internal.AppName], [GetTeamLabelKey] and [GetDefaultLabels]. *)
Definition AppName : string := "samsahai".
Definition GetTeamLabelKey : string := "samsahai.io/teamname".
Definition GetDefaultLabels (teamName : string) : gmap string string :=
  {[ GetTeamLabelKey := teamName; "app.kubernetes.io/managed-by" := AppName ]}.

Definition getQueueLabels (teamName component : string) : gmap string string :=
  <["component" := component]> (<["app" := component]> (GetDefaultLabels teamName)).

Definition NewQueue (teamName namespace name bundle : string) (comps : QueueComponents)
    (queueType : QueueType) : Queue :=
  let queueName := if String.eqb bundle "" then name else bundle in
  mkQueue
    ((namedMeta namespace queueName) <| om_Labels := getQueueLabels teamName queueName |>)
    (zeroQueueSpec <| qs_Name := queueName |> <| qs_TeamName := teamName |>
       <| qs_Bundle := bundle |> <| qs_Components := comps |> <| qs_Type := queueType |>)
    zeroQueueStatus.

(** [client.Object]: the controller takes any API object and checks its type. *)
Inductive ClientObject := QueueObject (q : Queue) | AnotherObject.

(** The controller: its client is the world, its field is the namespace. *)
Record controller := mkController { c_namespace : string }.
Definition New (ns : string) : controller := mkController ns.

Section controller.
Context {W : Type} `{GR : GoRuntime W} `{GS : GoSort}.
Context `{KQ : KClient W Queue} `{KS : KClient W StableComponent}.
Implicit Types (c : controller) (queue q : Queue) (items ql : QueueList).

(** [list]. *)
Definition listQueues c (opts : option ListOptions) : M W QueueList :=
  let opts := default (InNamespace (c_namespace c)) opts in
  do r <- attempt (k_list Queue opts);
  match r with
  | inl err => throw (Wrap err "cannot list queue with options")
  | inr items => mret items
  end.

Definition isMatchWithStableComponent c queue : M W bool :=
  match qs_Components (queue_Spec queue) with
  | [] => mret true
  | qComp :: _ =>
      do r <- attempt (k_get StableComponent (c_namespace c, qc_Name qComp));
      match r with
      | inl err => if IsNotFound err then mret false else throw err
      | inr stableComp =>
          mret (String.eqb (sc_Repository (stable_Spec stableComp)) (qc_Repository qComp) &&
                String.eqb (sc_Version (stable_Spec stableComp)) (qc_Version qComp))
      end
  end.

(** The position of the first name of [priorityQueues] that is the name of the queue
    or of one of its components; -1 when there is none. *)
Fixpoint getPriorityNo_from (i : Z) queue (priorityQueues : list string) : Z :=
  match priorityQueues with
  | [] => -1
  | priorComp :: rest =>
      if String.eqb (qs_Name (queue_Spec queue)) priorComp then i
      else if existsb (fun comp => String.eqb (qc_Name comp) priorComp)
                (qs_Components (queue_Spec queue)) then i
      else getPriorityNo_from (i + 1) queue rest
  end.
Definition getPriorityNo queue (priorityQueues : list string) : Z :=
  getPriorityNo_from 0 queue priorityQueues.

(** [comp0] is [queue.Spec.Components[0]], here and below. *)
Fixpoint getExistingQueueNumber_from (i : Z) (comp0 : QueueComponent) items : Z :=
  match items with
  | [] => -1
  | q :: rest =>
      if existsb (fun qComp => String.eqb (qc_Name qComp) (qc_Name comp0))
           (qs_Components (queue_Spec q)) then i
      else getExistingQueueNumber_from (i + 1) comp0 rest
  end.
Definition getExistingQueueNumberInList (comp0 : QueueComponent) items : Z :=
  getExistingQueueNumber_from 0 comp0 items.

Definition set_order (n : Z) (q : Queue) : Queue :=
  q <| queue_Spec ::= fun s => s <| qs_NoOfOrder := n |> |>.
Definition set_components (comps : QueueComponents) (q : Queue) : Queue :=
  q <| queue_Spec ::= fun s => s <| qs_Components := comps |> |>.
Definition over_components (f : QueueComponents -> QueueComponents) (q : Queue) : Queue :=
  q <| queue_Spec ::= fun s => s <| qs_Components ::= f |> |>.

(** Local variables of the loop of [setQueueOrderFollowingPriorityQueues]; [pl_arr] is
    the array behind [list.Items], which the loop may sort while it runs. *)
Record priority_loop := mkPriorityLoop {
  pl_arr : QueueList;
  pl_items : QueueList;
  pl_updating : QueueList;
  pl_found : bool;
  pl_foundTop : bool;
  pl_expectedNo : Z;
}.

Definition priority_body (priorityQueues : list string) (targetNo existingQueueNo : Z)
    (i : nat) (v : priority_loop) : M W (turn priority_loop unit) :=
  do q <- index (pl_arr v) i;
  let priorityNo := getPriorityNo q priorityQueues in
  let isLowerPriority := (priorityNo =? -1) || (targetNo <? priorityNo) in
  do v <- (if negb (pl_found v) && isLowerPriority then
             if Z.of_nat i - 1 <? 0 then
               do ' (n, arr) <- TopQueueOrder (pl_arr v);
               mret (mkPriorityLoop arr (pl_items v) (pl_updating v) true true n)
             else
               do q' <- index (pl_arr v) (i - 1);
               mret (mkPriorityLoop (pl_arr v) (pl_items v) (pl_updating v) true (pl_foundTop v)
                       (int_add (qs_NoOfOrder (queue_Spec q')) 1))
           else mret v);
  let moved := pl_found v && negb (existingQueueNo =? Z.of_nat i) in
  let q' := if moved && negb (pl_foundTop v)
            then set_order (int_add (qs_NoOfOrder (queue_Spec q)) 1) q else q in
  mret (Next (mkPriorityLoop (pl_arr v) (pl_items v ++ [q'])
                (if moved then pl_updating v ++ [q'] else pl_updating v)
                (pl_found v) (pl_foundTop v) (pl_expectedNo v))).

(** Gives the incoming queue its number and returns the queues to update and the
    new [list.Items]. *)
Definition setQueueOrderFollowingPriorityQueues (comp0 : QueueComponent) items
    (priorityQueues : list string) : M (W * Queue) (QueueList * QueueList) :=
  do queue <- get_obj;
  let targetNo := getPriorityNo queue priorityQueues in
  if (targetNo =? -1) || Nat.eqb (length items) 0 then
    do ' (n, items) <- onW (LastQueueOrder items);
    run mod_obj (set_order n);
    mret ([], items)
  else
    let existingQueueNo := getExistingQueueNumberInList comp0 items in
    do ' (expectedNo, arr) <- onW (LastQueueOrder items);
    do r <- onW (for_range (seq 0 (length arr)) (mkPriorityLoop arr [] [] false false expectedNo)
                   (priority_body priorityQueues targetNo existingQueueNo));
    match r with
    | inr _ => mret ([], items)
    | inl v =>
        if negb (existingQueueNo =? -1) && negb (Nat.eqb (length (pl_items v)) 0) then
          let n := Z.to_nat existingQueueNo in
          do q <- index (pl_items v) n;
          let q' := set_order (pl_expectedNo v) q in
          mret (pl_updating v ++ [q'], <[n := q']> (pl_items v))
        else
          run mod_obj (set_order (pl_expectedNo v));
          mret (pl_updating v, pl_items v)
    end.

(** [addExistingBundleQueue]: the queues to update, one slot per item, the zero queue
    where there is nothing to do, and the new items. *)
Fixpoint bundle_components (comp0 : QueueComponent) (comps : QueueComponents) : option QueueComponents :=
  match comps with
  | [] => None
  | qComp :: rest =>
      if String.eqb (qc_Name qComp) (qc_Name comp0)
      then Some (qComp <| qc_Repository := qc_Repository comp0 |>
                   <| qc_Version := qc_Version comp0 |> :: rest)
      else cons qComp <$> bundle_components comp0 rest
  end.

Fixpoint bundle_loop queue (comp0 : QueueComponent) (containComp : bool) items
    : QueueList * QueueList :=
  match items with
  | [] => ([], [])
  | q :: rest =>
      if negb containComp && ContainSameComponent q (qs_Name (queue_Spec queue)) comp0 then
        let (updating, items') := bundle_loop queue comp0 true rest in
        (zeroQueue :: updating, q :: items')
      else
        let (updating, items') := bundle_loop queue comp0 containComp rest in
        if String.eqb (qs_Bundle (queue_Spec q)) (qs_Bundle (queue_Spec queue)) then
          let comps := qs_Components (queue_Spec q) in
          let q' := set_components (default (comps ++ [comp0]) (bundle_components comp0 comps)) q in
          (q' :: updating, q' :: items')
        else (zeroQueue :: updating, q :: items')
  end.

Definition addExistingBundleQueue queue (comp0 : QueueComponent) items : QueueList * QueueList :=
  if String.eqb (qs_Bundle (queue_Spec queue)) "" then ([], items)
  else bundle_loop queue comp0 false items.

(** [removeAndUpdateSimilarQueue]: the queues to remove, the slots to update and the
    new items.  Items lose a slot for each removed queue; the slots to update keep
    the old numbering. *)
Fixpoint removeAndUpdateSimilarQueue_loop queue (comp0 : QueueComponent) (containComp : bool) items
    : QueueList * QueueList * QueueList :=
  match items with
  | [] => ([], [], [])
  | q :: rest =>
      if negb containComp && ContainSameComponent q (qs_Name (queue_Spec queue)) comp0 then
        let '(removing, updating, items') := removeAndUpdateSimilarQueue_loop queue comp0 true rest in
        (removing, zeroQueue :: updating, q :: items')
      else
        let '(removing, updating, items') :=
          removeAndUpdateSimilarQueue_loop queue comp0 containComp rest in
        let comps := qs_Components (queue_Spec q) in
        let newComps := filter (fun qComp => qc_Name qComp <> qc_Name comp0) comps in
        if Nat.eqb (length newComps) 0 then (q :: removing, zeroQueue :: updating, items')
        else if negb (Nat.eqb (length newComps) (length comps)) then
          let q' := set_components newComps q in
          (removing, q' :: updating, q' :: items')
        else (removing, zeroQueue :: updating, q :: items')
  end.

Definition removeAndUpdateSimilarQueue queue (comp0 : QueueComponent) items :=
  removeAndUpdateSimilarQueue_loop queue comp0 false items.

(** Back to the start: no retry, no instant to wait for, waiting. *)
Definition requeued (q : Queue) : Queue :=
  q <| queue_Spec ::= fun s => s <| qs_NoOfRetry := 0 |> <| qs_NextProcessAt := None |> |>
    <| queue_Status ::= fun s => s <| qst_State := Waiting |> |>.

(** The loop over [updatingList]: update each named queue and write it back to
    [queueList.Items[i]], out of range or not. *)
Fixpoint update_slots (prepare : Queue -> Queue) (updating : QueueList) (i : nat) items
    : M W QueueList :=
  match updating with
  | [] => mret items
  | q :: rest =>
      if String.eqb (kname q) "" then update_slots prepare rest (S i) items
      else
        let q' := prepare q in
        run k_update q';
        run index items i;
        update_slots prepare rest (S i) (<[i := q']> items)
  end.

Definition prepare_similar (q : Queue) : Queue :=
  over_components SortComponents (requeued (over_components SortComponents q)).
Definition prepare_bundle (q : Queue) : Queue := over_components SortComponents (requeued q).

(** [add]; the state's object is [queue]. *)
Definition add c (atTop : bool) (priorityQueues : list string) : M (W * Queue) unit :=
  do queue <- get_obj;
  match qs_Components (queue_Spec queue) with
  | [] => throw (Errors.New ("components should not be empty, queueName: " +:+ kname queue))
  | comp0 :: _ =>
      do items <- onW (listQueues c (Some (InNamespace (kns queue))));
      do isMatch <- onW (isMatchWithStableComponent c queue);
      if (isMatch : bool) then mret tt else
      let inQueue := List.find
        (fun q => ContainSameComponent q (qs_Name (queue_Spec queue)) comp0) items in
      let '(removing, updating, items) := removeAndUpdateSimilarQueue queue comp0 items in
      run for_each removing (fun q => onW (k_delete q));
      do items <- onW (update_slots prepare_similar updating 0 items);
      let (updating, items) := addExistingBundleQueue queue comp0 items in
      let isAlreadyInBundle := existsb (fun q => negb (String.eqb (kname q) "")) updating in
      do items <- onW (update_slots prepare_bundle updating 0 items);
      do items <- onW (Sort items);
      do t <- onW now;
      match inQueue with
      | Some pQueue =>
          do top <- index items 0;
          do pComp <- index (qs_Components (queue_Spec pQueue)) 0;
          let isQueueOnTop := ContainSameComponent top (qs_Name (queue_Spec pQueue)) pComp in
          do pQueue <- (if atTop && negb isQueueOnTop then
                          do ' (n, _) <- onW (TopQueueOrder items);
                          mret (set_order n pQueue)
                        else mret pQueue);
          onW (k_update (over_components SortComponents pQueue))
      | None =>
          do ' (updating, items) <- setQueueOrderFollowingPriorityQueues comp0 items priorityQueues;
          run for_each updating (fun q => onW (k_update q));
          if isAlreadyInBundle then mret tt else
          run (if atTop then
                 do ' (n, _) <- onW (TopQueueOrder items);
                 mod_obj (set_order n)
               else mret tt);
          run mod_obj (fun q => over_components SortComponents
                 (q <| queue_Status ::= fun s => s <| qst_State := Waiting |>
                        <| qst_CreatedAt := Some t |> <| qst_UpdatedAt := Some t |> |>));
          do queue <- get_obj;
          onW (k_create queue)
      end
  end.

(** Run on the object behind the [client.Object], when it is a queue. *)
Definition on_queue {A} (m : M (W * Queue) A) : M (W * ClientObject) A := fun s =>
  match snd s with
  | AnotherObject => (Err ErrParsingRuntimeObject, s)
  | QueueObject q =>
      match m (fst s, q) with (r, (w', q')) => (r, (w', QueueObject q')) end
  end.

Definition Add c (priorityQueues : list string) : M (W * ClientObject) unit :=
  on_queue (add c false priorityQueues).
Definition AddTop c : M (W * ClientObject) unit := on_queue (add c true []).

Definition Size c (namespace : string) : M W Z :=
  do r <- attempt (listQueues c (Some (InNamespace namespace)));
  match r with
  | inl _ => mret 0
  | inr items => mret (Z.of_nat (length items))
  end.

Definition updateQueueList items : M W unit :=
  for_each items (fun q =>
    do r <- attempt (k_update q);
    match r with
    | inl err => throw (Wrap err ("cannot update queue " +:+ kname q +:+ " in " +:+ kns q))
    | inr _ => mret tt
    end).

(** The numbering loop: 1 for the current queue, the others count from 2. *)
Fixpoint renumber (current : string) (count : Z) items : QueueList :=
  match items with
  | [] => []
  | q :: rest =>
      if String.eqb (kname q) current then set_order 1 q :: renumber current count rest
      else set_order count q :: renumber current (int_add count 1) rest
  end.

(** [currentQueue] points to the slot [cur] of the items that are sorted here; it is
    dereferenced when there is an item to compare with. *)
Definition resetQueueOrderWithCurrentQueue items (cur : option nat) : M W QueueList :=
  do items <- Sort items;
  match items with
  | [] => mret []
  | _ =>
      do i <- deref cur;
      do current <- index items i;
      mret (renumber (kname current) 2 items)
  end.

(** [First]: the queue to process now, if there is one. *)
Definition FirstQueue c (namespace : string) : M W (option Queue) :=
  do items <- listQueues c (Some (InNamespace namespace));
  do ' (cur, items) <- First items;
  do items <- resetQueueOrderWithCurrentQueue items cur;
  run updateQueueList items;
  match cur with
  | None => mret None
  | Some i =>
      do q <- index items i;
      match qs_NextProcessAt (queue_Spec q) with
      | None => mret (Some q)
      | Some at' => do t <- now; mret (if at' <? t then Some q else None)
      end
  end.

Definition Remove : M (W * ClientObject) unit := on_queue (do q <- get_obj; onW (k_delete q)).
Definition RemoveAllQueues (namespace : string) : M W unit :=
  k_delete_all_of Queue (InNamespace namespace).

Definition SetLastOrder c : M (W * ClientObject) unit := on_queue (
  do ql <- onW (listQueues c None);
  do ' (n, _) <- onW (LastQueueOrder ql);
  run mod_obj (set_order n);
  run mod_obj (fun q => q <| queue_Status ::= fun s => s <| qst_Conditions := [] |> |>);
  do q <- get_obj;
  onW (k_update q)).

Definition fresh_status (t : Z) (old : QueueStatus) : QueueStatus :=
  zeroQueueStatus <| qst_CreatedAt := Some t |>
    <| qst_NoOfProcessed := qst_NoOfProcessed old |> <| qst_State := Waiting |>.

Definition SetReverifyQueueAtFirst c : M (W * ClientObject) unit := on_queue (
  do q <- get_obj;
  do ql <- onW (listQueues c (Some (InNamespace (kns q))));
  do t <- onW now;
  run mod_obj (fun q => q <| queue_Status ::= fresh_status t |>);
  run mod_obj (fun q => q <| queue_Spec ::= fun s => s <| qs_Type := QueueTypeReverify |> |>);
  do ' (n, _) <- onW (TopQueueOrder ql);
  run mod_obj (set_order n);
  do q <- get_obj;
  onW (k_update q)).

(** The interface's three arguments about a failed trigger are not used here. *)
Definition SetRetryQueue c (noOfRetry : Z) (nextAt : Z) : M (W * ClientObject) unit := on_queue (
  do q <- get_obj;
  do ql <- onW (listQueues c (Some (InNamespace (kns q))));
  do t <- onW now;
  run mod_obj (fun q => q <| queue_Status ::= fresh_status t |>);
  run mod_obj (fun q => q <| queue_Spec ::= fun s =>
    s <| qs_NextProcessAt := Some nextAt |> <| qs_NoOfRetry := noOfRetry |>
      <| qs_Type := QueueTypeUpgrade |> |>);
  do ' (n, _) <- onW (LastQueueOrder ql);
  run mod_obj (set_order n);
  do q <- get_obj;
  onW (k_update q)).

(** [ensureQueue] on the object [q]: fetch it, or create it when there is none. *)
Definition ensureQueue : M (W * Queue) unit :=
  do q <- get_obj;
  do r <- attempt (onW (k_get Queue (kns q, kname q)));
  match r with
  | inl err => if IsNotFound err then onW (k_create q) else throw err
  | inr fetched =>
      run mod_obj (fun q => q <| queue_Spec := queue_Spec fetched |>);
      mod_obj (fun q => q <| queue_Status := queue_Status fetched |>)
  end.

(** The object of a queue of an active promotion: its name is the environment's. *)
Definition promotion_queue (env : EnvType) (type : QueueType) (teamName namespace : string)
    (skipTest : bool) : Queue :=
  mkQueue (namedMeta namespace (env_string env))
    (zeroQueueSpec <| qs_Type := type |> <| qs_TeamName := teamName |>
       <| qs_SkipTestRunner := skipTest |>)
    zeroQueueStatus.

Definition EnsurePreActiveComponents (teamName namespace : string) (skipTest : bool) : M W Queue :=
  do ' (_, q) <- with_obj (promotion_queue EnvPreActive QueueTypePreActive teamName namespace skipTest)
                   ensureQueue;
  mret q.
Definition EnsurePromoteToActiveComponents (teamName namespace : string) : M W Queue :=
  do ' (_, q) <- with_obj (promotion_queue EnvActive QueueTypePromoteToActive teamName namespace false)
                   ensureQueue;
  mret q.
Definition EnsureDemoteFromActiveComponents (teamName namespace : string) : M W Queue :=
  do ' (_, q) <- with_obj (promotion_queue EnvDeActive QueueTypeDemoteFromActive teamName namespace false)
                   ensureQueue;
  mret q.

Definition NewInitialPullRequestQueue (teamName namespace queueName prBundleName prNumber : string)
    (comps : QueueComponents) (noOfRetry : Z) (extra : option QueueExtraParameters) : Queue :=
  mkQueue (namedMeta namespace queueName)
    (zeroQueueSpec <| qs_Name := prBundleName |> <| qs_Type := QueueTypePullRequest |>
       <| qs_TeamName := teamName |> <| qs_PRNumber := prNumber |> <| qs_Components := comps |>
       <| qs_NoOfRetry := noOfRetry |> <| qs_QueueExtraParameters := extra |>)
    zeroQueueStatus.
Definition EnsurePullRequestComponents : M (W * Queue) unit := ensureQueue.

(** [deleteQueue]: a queue that is not there counts as deleted. *)
Definition deleteQueue (ns name : string) : M W unit :=
  do r <- attempt (k_delete (mkQueue (namedMeta ns name) zeroQueueSpec zeroQueueStatus));
  match r with
  | inl err => if IsNotFound err then mret tt else throw (Wrap err "cannot delete queue")
  | inr _ => mret tt
  end.
Definition DeletePreActiveQueue (ns : string) : M W unit := deleteQueue ns (env_string EnvPreActive).
Definition DeletePromoteToActiveQueue (ns : string) : M W unit := deleteQueue ns (env_string EnvActive).
Definition DeleteDemoteFromActiveQueue (ns : string) : M W unit := deleteQueue ns (env_string EnvDeActive).
Definition DeletePullRequestQueue (ns queueName : string) : M W unit := deleteQueue ns queueName.
End controller.

(** ** The report of a queue *)

Definition getIssueTypeRPC (imageMissingList : list RpcImage) (queue : Queue) : IssueType :=
  if (0 <? length imageMissingList)%nat then IssueType_IMAGE_MISSING
  else if IsReverify queue && IsDeploySuccess queue && IsTestSuccess queue
  then IssueType_DESIRED_VERSION_FAILED
  else if IsReverify queue && (negb (IsDeploySuccess queue) || negb (IsTestSuccess queue))
  then IssueType_ENVIRONMENT_ISSUE
  else IssueType_DESIRED_VERSION_FAILED.

Definition getReverificationStatusRPC (queue : Queue) : ReverificationStatus :=
  if negb (IsReverify queue) then ReverificationStatus_UNKNOWN
  else if IsDeploySuccess queue && IsTestSuccess queue then ReverificationStatus_SUCCESS
  else ReverificationStatus_FAILURE.

Definition issue_type_string (t : DeploymentIssueType) : string :=
  match t with
  | DeploymentIssueImagePullBackOff => "ImagePullBackOff"
  | DeploymentIssueCrashLoopBackOff => "CrashLoopBackOff"
  | DeploymentIssueReadinessProbeFailed => "ReadinessProbeFailed"
  | DeploymentIssueContainerCreating => "ContainerCreating"
  | DeploymentIssuePending => "Pending"
  | DeploymentIssueWaitForInitContainer => "WaitForInitContainer"
  | DeploymentIssueJobNotComplete => "JobNotComplete"
  | DeploymentIssueUndefined => "Undefined"
  | OtherDeploymentIssue s => s
  end.

Definition getDeploymentIssuesRPC (queue : Queue) : list RpcDeploymentIssue :=
  map (fun issue =>
    mkRpcDeploymentIssue (issue_type_string (di_IssueType issue))
      (map (fun f => mkRpcFailureComponent (fc_ComponentName f) (fc_FirstFailureContainerName f)
                       (fc_RestartCount f) (fc_NodeName f)) (di_FailureComponents issue)))
    (qst_DeploymentIssues (queue_Status queue)).

Definition GetComponentUpgradeRPCFromQueue (comStatus : UpgradeStatus)
    (queueHistName queueHistNamespace : string) (queue : Queue)
    (prQueueRPC : option TeamWithPullRequest) : ComponentUpgrade :=
  let missing := map (fun img => mkRpcImage (img_Repository img) (img_Tag img))
                   (qst_ImageMissingList (queue_Status queue)) in
  let rpcComps := map (fun qComp => mkRpcComponent (qc_Name qComp)
                         (Some (mkRpcImage (qc_Repository qComp) (qc_Version qComp))))
                    (qs_Components (queue_Spec queue)) in
  let prNamespace := match prQueueRPC with Some pr => tpr_Namespace pr | None => "" end in
  let isReverify :=
    match prQueueRPC with
    | Some pr =>
        if negb (String.eqb (tpr_PRNumber pr) "")
        then qs_NoOfRetry (queue_Spec queue) <=? tpr_MaxRetryQueue pr
        else IsReverify queue
    | None => IsReverify queue
    end in
  let missing :=
    match prQueueRPC with
    | Some pr => if negb (Nat.eqb (length (tpr_ImageMissingList pr)) 0)
                 then tpr_ImageMissingList pr else missing
    | None => missing
    end in
  mkComponentUpgrade comStatus (qs_Name (queue_Spec queue)) (qs_TeamName (queue_Spec queue)) rpcComps
    (getIssueTypeRPC missing queue) queueHistName missing queueHistNamespace ""
    (wrap32 (int_add (qs_NoOfRetry (queue_Spec queue)) 1)) isReverify
    (getReverificationStatusRPC queue) (getDeploymentIssuesRPC queue) prQueueRPC prNamespace.

(** ** What the operations on the queues of an environment leave alone *)

Section frame.
Context {W V : Type} `{KQ : KClient W Queue} (v : W -> V) {KF : KFrame W Queue v}.

#[export] Instance ensureQueue_preserves : Preserves ensureQueue (of_world v).
Proof. unfold ensureQueue. preserves. Qed.
#[export] Instance EnsurePreActive_preserves team ns skip : Preserves (EnsurePreActiveComponents team ns skip) v.
Proof. unfold EnsurePreActiveComponents. preserves. Qed.
#[export] Instance EnsurePromote_preserves team ns : Preserves (EnsurePromoteToActiveComponents team ns) v.
Proof. unfold EnsurePromoteToActiveComponents. preserves. Qed.
#[export] Instance EnsureDemote_preserves team ns : Preserves (EnsureDemoteFromActiveComponents team ns) v.
Proof. unfold EnsureDemoteFromActiveComponents. preserves. Qed.
#[export] Instance deleteQueue_preserves ns name : Preserves (deleteQueue ns name) v.
Proof. unfold deleteQueue. preserves. Qed.
#[export] Instance DeletePreActive_preserves ns : Preserves (DeletePreActiveQueue ns) v.
Proof. apply deleteQueue_preserves. Qed.
#[export] Instance DeletePromote_preserves ns : Preserves (DeletePromoteToActiveQueue ns) v.
Proof. apply deleteQueue_preserves. Qed.
#[export] Instance DeleteDemote_preserves ns : Preserves (DeleteDemoteFromActiveQueue ns) v.
Proof. apply deleteQueue_preserves. Qed.
#[export] Instance EnsurePullRequest_preserves : Preserves EnsurePullRequestComponents (of_world v).
Proof. apply ensureQueue_preserves. Qed.
#[export] Instance DeletePullRequest_preserves ns name : Preserves (DeletePullRequestQueue ns name) v.
Proof. apply deleteQueue_preserves. Qed.
End frame.
