(* ===== verification/QueueSpec.v ===== *)
(** What the queue controller promises: the queues of a namespace are a map from
    component names to the versions that wait to be verified, and adding a queue is
    an insertion into that map. *)

From S2P Require Import Prelude.
From S2P Require Import GoRuntime.
From S2P Require Import Errors.
From S2P Require Import KubeApi.
From S2P Require Import ConfigTypes.
From S2P Require Import ComponentTypes.
From S2P Require Import QueueTypes.
From S2P Require Import RpcTypes.
From S2P Require Import QueueCtrl.
Open Scope string_scope.
Open Scope list_scope.
Open Scope Z_scope.

Definition comps_of (q : Queue) : QueueComponents := qs_Components (queue_Spec q).
Definition names_of (q : Queue) : list string := qc_Name <$> comps_of q.

Notation store := (gmap (string * string) Queue).

(** A queue as [NewQueue] makes it: named after its bundle if it has one, with at
    least one component and each once. *)
Record queue_wf (ns : string) (q : Queue) : Prop := {
  qw_ns : kns q = ns;
  qw_name : kname q <> "";
  qw_spec_name : qs_Name (queue_Spec q) = kname q;
  qw_bundle : qs_Bundle (queue_Spec q) <> "" -> kname q = qs_Bundle (queue_Spec q);
  qw_comps : comps_of q <> [];
  qw_nodup : NoDup (names_of q);
  qw_finalizers : om_Finalizers (queue_Meta q) = [];
  qw_alive : om_DeletionTimestamp (queue_Meta q) = None;
}.

(** The queues of the namespace are well formed, and no component is in two. *)
Record store_ok (ns : string) (m : store) : Prop := {
  so_wf k q : m !! k = Some q -> k.1 = ns -> queue_wf ns q;
  so_keyed k q : m !! k = Some q -> kkey q = k;
  so_unique k1 k2 q1 q2 n : m !! k1 = Some q1 -> m !! k2 = Some q2 -> k1.1 = ns -> k2.1 = ns ->
    n ∈ names_of q1 -> n ∈ names_of q2 -> k1 = k2;
}.

(** The component waits in some queue of the namespace. *)
Definition pending (ns : string) (m : store) (comp : QueueComponent) : Prop :=
  exists k q, m !! k = Some q /\ k.1 = ns /\ comp ∈ comps_of q.

(** The part of the queue that its place in the order does not touch. *)
Definition similar (q q' : Queue) : Prop :=
  queue_Meta q = queue_Meta q' /\ qs_Name (queue_Spec q) = qs_Name (queue_Spec q') /\
  qs_Bundle (queue_Spec q) = qs_Bundle (queue_Spec q') /\ comps_of q ≡ₚ comps_of q'.

#[export] Instance similar_equiv : Equivalence similar.
Proof.
  unfold similar. split.
  - by intros q.
  - intros q q' (-> & -> & -> & ->). done.
  - intros q1 q2 q3 (-> & -> & -> & ->) (-> & -> & -> & ->). done.
Qed.

Section store_facts.
Context (ns : string) (comp0 : QueueComponent).
Implicit Types (m : store) (q : Queue).

(** What may happen to the store on behalf of [comp0]: the other components stay,
    under the name of [comp0] nothing but [comp0] is added, the other namespaces
    are left alone. *)
Record on_behalf m m' : Prop := {
  ob_ok : store_ok ns m';
  ob_others c : qc_Name c <> qc_Name comp0 -> pending ns m' c <-> pending ns m c;
  ob_new c : qc_Name c = qc_Name comp0 -> pending ns m' c -> c = comp0 \/ pending ns m c;
  ob_elsewhere k : k.1 <> ns -> m' !! k = m !! k;
}.

Lemma on_behalf_refl m : store_ok ns m -> on_behalf m m.
Proof. intros Hok. split; auto. Qed.

Lemma on_behalf_trans m1 m2 m3 : on_behalf m1 m2 -> on_behalf m2 m3 -> on_behalf m1 m3.
Proof.
  intros [H1 H2 H3 H4] [H5 H6 H7 H8]. split; [done|..].
  - intros c Hc. rewrite H6, H2 by done. done.
  - intros c Hc [->|Hp]%H7; auto.
  - intros k Hk. by rewrite H8, H4.
Qed.

Lemma queue_wf_similar q q' : similar q q' -> queue_wf ns q -> queue_wf ns q'.
Proof.
  intros (Hm & Hn & Hb & Hc) [].
  assert (kname q = kname q') as Hk by (unfold kname, kmeta, queue_object; by rewrite Hm).
  assert (kns q = kns q') as Hk' by (unfold kns, kmeta, queue_object; by rewrite Hm).
  split; try congruence.
  - rewrite <- Hb, <- Hk. done.
  - intros Hnil. rewrite Hnil in Hc. by apply Permutation_nil_r in Hc.
  - unfold names_of in *. by rewrite <- Hc.
Qed.

Lemma names_of_similar q q' : similar q q' -> names_of q ≡ₚ names_of q'.
Proof. intros (_ & _ & _ & Hc). unfold names_of. by rewrite Hc. Qed.

Lemma kkey_similar q q' : similar q q' -> kkey q = kkey q'.
Proof. intros (Hm & _). unfold kkey, kns, kname, kmeta, queue_object. by rewrite Hm. Qed.

Lemma elem_of_names n q : n ∈ names_of q <-> exists c, c ∈ comps_of q /\ qc_Name c = n.
Proof. unfold names_of. rewrite list_elem_of_fmap. naive_solver. Qed.

(** A write of one queue [q'] of the namespace. *)
Lemma on_behalf_insert m q' :
  store_ok ns m -> queue_wf ns q' ->
  (forall k q n, m !! k = Some q -> k.1 = ns -> k <> kkey q' -> n ∈ names_of q' ->
     n ∉ names_of q) ->
  (forall c, qc_Name c <> qc_Name comp0 ->
     c ∈ comps_of q' <-> exists q, m !! kkey q' = Some q /\ c ∈ comps_of q) ->
  (forall c, qc_Name c = qc_Name comp0 -> c ∈ comps_of q' ->
     c = comp0 \/ exists q, m !! kkey q' = Some q /\ c ∈ comps_of q) ->
  on_behalf m (<[kkey q' := q']> m).
Proof.
  intros [Hwf Hkeyed Huniq] Hq' Hfresh Hothers Hnew.
  assert (kkey q' = (ns, kname q')) as Hkk by (destruct Hq'; unfold kkey; by subst).
  split; [split| | |].
  - intros k q [[<- <-]|[? ?]]%lookup_insert_Some; eauto.
  - intros k q [[<- <-]|[? ?]]%lookup_insert_Some; eauto.
  - intros k1 k2 q1 q2 n [[<- <-]|[? H1]]%lookup_insert_Some
      [[<- <-]|[? H2]]%lookup_insert_Some ? ? Hn1 Hn2; eauto.
    + by destruct (Hfresh k2 q2 n).
    + by destruct (Hfresh k1 q1 n).
  - intros c Hc. unfold pending. split.
    + intros (k & q & [[<- <-]|[? ?]]%lookup_insert_Some & Hns & Hin); [|by eauto].
      apply Hothers in Hin as (q & ? & ?); [|done]. by exists (kkey q'), q.
    + intros (k & q & Hl & Hns & Hin). destruct (decide (k = kkey q')) as [->|Hne].
      * exists (kkey q'), q'. rewrite lookup_insert_eq. split_and!; [done..|].
        apply Hothers; eauto.
      * exists k, q. by rewrite lookup_insert_ne.
  - intros c Hc (k & q & [[<- <-]|[? ?]]%lookup_insert_Some & Hns & Hin);
      [|by right; exists k, q].
    apply Hnew in Hin as [?|(q & ? & ?)]; [by left|right; by exists (kkey q'), q|done].
  - intros k Hk. rewrite lookup_insert_ne; [done|]. rewrite Hkk. by intros <-.
Qed.

(** A write that only moves the queue, or sorts its components. *)
Lemma on_behalf_similar m q q' :
  store_ok ns m -> m !! kkey q' = Some q -> kns q' = ns -> similar q q' ->
  on_behalf m (<[kkey q' := q']> m).
Proof.
  intros Hok Hl Hns Hsim. pose proof Hsim as (_ & _ & _ & Hc).
  apply on_behalf_insert; [done| | | |].
  - apply (queue_wf_similar q); [done|]. by eapply so_wf.
  - intros k q1 n Hk1 Hkns Hne Hn Hn1. apply Hne.
    rewrite <- (names_of_similar q q') in Hn by done. by eapply so_unique.
  - intros c _. rewrite Hl, <- Hc. naive_solver.
  - intros c _ Hin. right. exists q. by rewrite Hc.
Qed.

(** A deletion of a queue that has nothing but [comp0]'s name. *)
Lemma on_behalf_delete m k q :
  store_ok ns m -> m !! k = Some q -> k.1 = ns ->
  (forall c, c ∈ comps_of q -> qc_Name c = qc_Name comp0) ->
  on_behalf m (delete k m).
Proof.
  intros [Hwf Hkeyed Huniq] Hk Hns Hall. split; [split| | |].
  - intros k' q' [? ?]%lookup_delete_Some. eauto.
  - intros k' q' [? ?]%lookup_delete_Some. eauto.
  - intros k1 k2 q1 q2 n [? ?]%lookup_delete_Some [? ?]%lookup_delete_Some. eauto.
  - intros c Hc. unfold pending. split.
    + intros (k' & q' & [? ?]%lookup_delete_Some & ? & ?). eauto.
    + intros (k' & q' & Hk' & ? & Hin). exists k', q'. rewrite lookup_delete_ne; [done|].
      intros ->. simplify_eq. auto.
  - intros c Hc (k' & q' & [? ?]%lookup_delete_Some & ? & ?). right. by exists k', q'.
  - intros k' Hk'. rewrite lookup_delete_ne; [done|]. by intros ->.
Qed.
End store_facts.

(** ** The local list of the controller and the store *)

Section lists.
Context (ns : string) (comp0 : QueueComponent).
Implicit Types (m : store) (q queue : Queue) (items : QueueList).

(** The list holds the queues of the namespace, as they are stored. *)
Record synced m items : Prop := {
  sy_keys : NoDup (kkey <$> items);
  sy_elem q : q ∈ items <-> m !! kkey q = Some q /\ kns q = ns;
}.

(** The list holds queues that are stored up to their place in the order. *)
Definition tracks m items : Prop :=
  forall q, q ∈ items -> kns q = ns /\ exists q0, m !! kkey q = Some q0 /\ similar q0 q.

Lemma synced_tracks m items : synced m items -> tracks m items.
Proof.
  intros [_ He] q Hq. apply He in Hq as [Hq Hns]. split; [done|]. by exists q.
Qed.

Lemma synced_perm m items items' : items ≡ₚ items' -> synced m items -> synced m items'.
Proof.
  intros Hp [Hk He]. split; [by rewrite <- Hp|]. intros q. by rewrite <- Hp.
Qed.

Lemma tracks_insert m items q q' :
  tracks m items -> m !! kkey q' = Some q -> similar q q' ->
  tracks (<[kkey q' := q']> m) items.
Proof.
  intros Ht Hl Hsim q1 (Hns & q0 & Hq0 & Hs0)%Ht. split; [done|].
  destruct (decide (kkey q1 = kkey q')) as [He|Hne].
  - exists q'. rewrite He, lookup_insert_eq. split; [done|]. rewrite He in Hq0. simplify_eq.
    by rewrite <- Hsim.
  - exists q0. by rewrite lookup_insert_ne.
Qed.

Lemma synced_lookup m items q :
  store_ok ns m -> synced m items -> q ∈ items -> m !! kkey q = Some q /\ queue_wf ns q.
Proof.
  intros Hok [_ He] Hq. apply He in Hq as [Hl Hns]. split; [done|].
  eapply so_wf; eauto. 
Qed.

Lemma kkey_ns q : queue_wf ns q -> kkey q = (ns, kname q).
Proof. intros []. unfold kkey. by subst. Qed.

Lemma pending_elem m items c :
  store_ok ns m -> synced m items ->
  pending ns m c <-> exists q, q ∈ items /\ c ∈ comps_of q.
Proof.
  intros Hok [_ He]. unfold pending. split.
  - intros (k & q & Hl & Hns & Hin). exists q. split; [|done]. apply He.
    pose proof (so_keyed _ _ Hok _ _ Hl) as <-. done.
  - intros (q & [Hl Hns]%He & Hin). by exists (kkey q), q.
Qed.

(** At most one queue holds the component's name. *)
Lemma synced_split m items :
  store_ok ns m -> synced m items ->
  (forall q, q ∈ items -> qc_Name comp0 ∉ names_of q) \/
  (exists l1 q l2, items = l1 ++ q :: l2 /\ qc_Name comp0 ∈ names_of q /\
     forall q', q' ∈ l1 \/ q' ∈ l2 -> qc_Name comp0 ∉ names_of q').
Proof.
  intros Hok Hsy.
  destruct (decide (Exists (fun q => qc_Name comp0 ∈ names_of q) items)) as [Hex|Hno].
  - right. apply Exists_exists in Hex as (q & Hq & Hn).
    apply list_elem_of_split in Hq as (l1 & l2 & ->). exists l1, q, l2. split_and!; [done..|].
    intros q' Hq' Hn'.
    assert (q ∈ l1 ++ q :: l2 /\ q' ∈ l1 ++ q :: l2) as [Hq1 Hq2] by set_solver.
    pose proof Hsy as [Hk He]. apply He in Hq1 as [Hl1 Hns1], Hq2 as [Hl2 Hns2].
    assert (kkey q = kkey q') as Hkk by (by eapply so_unique).
    rewrite fmap_app, fmap_cons in Hk.
    apply NoDup_app in Hk as (_ & Hd & [Hk2 _]%NoDup_cons).
    destruct Hq' as [Hq'|Hq'].
    + apply (Hd (kkey q')); [by apply list_elem_of_fmap_2|]. rewrite <- Hkk. set_solver.
    + apply Hk2. rewrite Hkk. by apply list_elem_of_fmap_2.
  - left. intros q Hq Hn. apply Hno, Exists_exists. eauto.
Qed.

(** One queue of the list is written back. *)
Lemma synced_insert m l1 q q' l2 :
  synced m (l1 ++ q :: l2) -> kkey q' = kkey q ->
  synced (<[kkey q' := q']> m) (l1 ++ q' :: l2).
Proof.
  intros [Hk He] Heq. split.
  - rewrite fmap_app, fmap_cons in *. by rewrite Heq.
  - intros q1. rewrite fmap_app, fmap_cons in Hk.
    apply NoDup_app in Hk as (_ & Hd & [Hk2 _]%NoDup_cons).
    assert (kns q = ns) as Hq by (apply He; set_solver).
    assert (kns q' = ns) as Hq' by (unfold kkey in Heq; congruence).
    split.
    + intros Hin. assert (q1 = q' \/ (q1 <> q' /\ (q1 ∈ l1 \/ q1 ∈ l2))) as [->|(_ & Hin')]
        by (destruct (decide (q1 = q')); set_solver).
      { by rewrite lookup_insert_eq. }
      assert (q1 ∈ l1 ++ q :: l2) as [Hl1 Hns1]%He by set_solver.
      rewrite lookup_insert_ne; [done|]. intros Heq1. rewrite Heq in Heq1.
      destruct Hin' as [Hin'|Hin'].
      * apply (Hd (kkey q1)); [by apply list_elem_of_fmap_2|]. rewrite <- Heq1. set_solver.
      * apply Hk2. rewrite Heq1. by apply list_elem_of_fmap_2.
    + intros [[[Hkk ->]|[Hne Hl]]%lookup_insert_Some Hns]; [set_solver|].
      assert (q1 ∈ l1 ++ q :: l2) as Hin by (by apply He).
      assert (q1 <> q) by (intros ->; congruence). set_solver.
Qed.

(** One queue of the list is deleted. *)
Lemma synced_delete m l1 q l2 :
  synced m (l1 ++ q :: l2) -> synced (delete (kkey q) m) (l1 ++ l2).
Proof.
  intros [Hk He]. rewrite fmap_app, fmap_cons in Hk.
  apply NoDup_app in Hk as (Hk1 & Hd & [Hk2 Hk3]%NoDup_cons).
  split.
  - rewrite fmap_app. apply NoDup_app. split_and!; [done| |done].
    intros k Hk Hk'. apply (Hd k); [done|]. by apply elem_of_cons; right.
  - intros q1. split.
    + intros Hin. assert (q1 ∈ l1 ++ q :: l2) as [Hl1 Hns1]%He by set_solver.
      rewrite lookup_delete_ne; [done|]. intros Heq.
      apply elem_of_app in Hin as [Hin|Hin].
      * apply (Hd (kkey q1)); [by apply list_elem_of_fmap_2|]. rewrite <- Heq. set_solver.
      * apply Hk2. rewrite Heq. by apply list_elem_of_fmap_2.
    + intros [[Hne Hl]%lookup_delete_Some Hns].
      assert (q1 ∈ l1 ++ q :: l2) as Hin by (by apply He).
      assert (q1 <> q) by congruence. set_solver.
Qed.

(** ** What the two passes of [add] over the list come to *)

Definition blanks (n : nat) : QueueList := replicate n zeroQueue.

Lemma contain_same_name q name :
  ContainSameComponent q name comp0 = true -> comp0 ∈ comps_of q /\ qs_Name (queue_Spec q) = name.
Proof.
  unfold ContainSameComponent. destruct (String.eqb_spec name (qs_Name (queue_Spec q))); [|done].
  simpl. intros (c & Hin & Hsame)%existsb_exists. split; [|done].
  unfold same_component in Hsame. rewrite !andb_true_iff, !String.eqb_eq in Hsame.
  destruct Hsame as [[Hn Hr] Hv]. destruct c, comp0; simplify_eq/=.
  by apply list_elem_of_In.
Qed.

Lemma contain_same_no q name :
  qc_Name comp0 ∉ names_of q -> ContainSameComponent q name comp0 = false.
Proof.
  intros Hn. destruct (ContainSameComponent q name comp0) eqn:E; [|done].
  apply contain_same_name in E as [Hin _]. exfalso. apply Hn, elem_of_names. eauto.
Qed.

Lemma filter_other_names q :
  qc_Name comp0 ∉ names_of q ->
  filter (fun c => qc_Name c <> qc_Name comp0) (comps_of q) = comps_of q.
Proof.
  intros Hn. apply filter_all, Forall_forall. intros c Hc Heq. apply Hn, elem_of_names. eauto.
Qed.

Lemma similar_pass_none queue b items :
  (forall q, q ∈ items -> comps_of q <> [] /\ qc_Name comp0 ∉ names_of q) ->
  removeAndUpdateSimilarQueue_loop queue comp0 b items = ([], blanks (length items), items).
Proof.
  intros Hno. induction items as [|q items IH]; [done|]. simpl.
  destruct (Hno q) as [Hne Hn]; [set_solver|].
  rewrite contain_same_no, andb_false_r by done.
  rewrite IH by set_solver. fold (comps_of q). rewrite filter_other_names by done.
  destruct (comps_of q); [done|]. simpl. by rewrite Nat.eqb_refl.
Qed.

Lemma similar_pass_app queue b l1 items :
  (forall q, q ∈ l1 -> comps_of q <> [] /\ qc_Name comp0 ∉ names_of q) ->
  removeAndUpdateSimilarQueue_loop queue comp0 b (l1 ++ items) =
  let '(r, u, it) := removeAndUpdateSimilarQueue_loop queue comp0 b items in
  (r, blanks (length l1) ++ u, l1 ++ it).
Proof.
  intros Hno. induction l1 as [|q l1 IH]; [by destruct removeAndUpdateSimilarQueue_loop as [[]]|].
  simpl. destruct (Hno q) as [Hne Hn]; [set_solver|].
  rewrite contain_same_no, andb_false_r by done.
  rewrite IH by set_solver. destruct (removeAndUpdateSimilarQueue_loop queue comp0 b items) as [[r u] it].
  fold (comps_of q). rewrite filter_other_names by done.
  destruct (comps_of q); [done|]. simpl. by rewrite Nat.eqb_refl.
Qed.

Definition without0 q : QueueComponents :=
  filter (fun c => qc_Name c <> qc_Name comp0) (comps_of q).

(** The pass of [removeAndUpdateSimilarQueue] when one queue holds the name. *)
Lemma similar_pass_one queue l1 q l2 :
  (forall q', q' ∈ l1 \/ q' ∈ l2 -> comps_of q' <> [] /\ qc_Name comp0 ∉ names_of q') ->
  qc_Name comp0 ∈ names_of q ->
  removeAndUpdateSimilarQueue queue comp0 (l1 ++ q :: l2) =
  if ContainSameComponent q (qs_Name (queue_Spec queue)) comp0
  then ([], blanks (length l1) ++ zeroQueue :: blanks (length l2), l1 ++ q :: l2)
  else if decide (without0 q = [])
  then ([q], blanks (length l1) ++ zeroQueue :: blanks (length l2), l1 ++ l2)
  else let q' := set_components (without0 q) q in
       ([], blanks (length l1) ++ q' :: blanks (length l2), l1 ++ q' :: l2).
Proof.
  intros Hno Hn. unfold removeAndUpdateSimilarQueue.
  rewrite similar_pass_app by auto. simpl.
  rewrite !similar_pass_none by auto.
  destruct (ContainSameComponent q _ comp0); simpl; [done|].
  fold (comps_of q). fold (without0 q).
  destruct (decide (without0 q = [])) as [->|Hne]; simpl; [done|].
  destruct (without0 q) as [|c cs] eqn:Hw; [done|]. rewrite <- Hw. 
  replace (Nat.eqb (length (without0 q)) 0) with false by (by rewrite Hw).
  replace (Nat.eqb (length (without0 q)) (length (comps_of q))) with false; [done|].
  symmetry. apply Nat.eqb_neq. intros Hlen.
  apply elem_of_names in Hn as (c' & Hc' & Hcn).
  assert (without0 q = comps_of q) as Heq.
  { apply filter_same_length, Hlen. }
  rewrite <- Heq in Hc'. apply list_elem_of_filter in Hc' as [? _]. done.
Qed.

(** The pass of [addExistingBundleQueue]. *)
Lemma bundle_pass_none queue b items :
  (forall q, q ∈ items -> qc_Name comp0 ∉ names_of q) ->
  (forall q, q ∈ items -> qs_Bundle (queue_Spec q) <> qs_Bundle (queue_Spec queue)) ->
  bundle_loop queue comp0 b items = (blanks (length items), items).
Proof.
  intros Hno Hb. induction items as [|q items IH]; [done|]. simpl.
  rewrite contain_same_no, andb_false_r by set_solver.
  rewrite IH by set_solver. destruct (String.eqb_spec (qs_Bundle (queue_Spec q)) (qs_Bundle (queue_Spec queue)));
    [|done]. exfalso. apply (Hb q); [set_solver|done].
Qed.

Lemma bundle_pass_app queue b l1 items :
  (forall q, q ∈ l1 -> qc_Name comp0 ∉ names_of q) ->
  (forall q, q ∈ l1 -> qs_Bundle (queue_Spec q) <> qs_Bundle (queue_Spec queue)) ->
  bundle_loop queue comp0 b (l1 ++ items) =
  let '(u, it) := bundle_loop queue comp0 b items in (blanks (length l1) ++ u, l1 ++ it).
Proof.
  intros Hno Hb. induction l1 as [|q l1 IH]; [by destruct bundle_loop|]. simpl.
  rewrite contain_same_no, andb_false_r by set_solver.
  rewrite IH by set_solver. destruct (bundle_loop queue comp0 b items).
  destruct (String.eqb_spec (qs_Bundle (queue_Spec q)) (qs_Bundle (queue_Spec queue)));
    [|done]. exfalso. apply (Hb q); [set_solver|done].
Qed.

Lemma bundle_components_none comps :
  qc_Name comp0 ∉ qc_Name <$> comps -> bundle_components comp0 comps = None.
Proof.
  induction comps as [|c comps IH]; csimpl; [done|]. intros Hn.
  destruct (String.eqb_spec (qc_Name c) (qc_Name comp0)); [set_solver|].
  by rewrite IH by set_solver.
Qed.
End lists.

(** ** The passes against the store *)

Section passes.
Context {W : Type} `{GR : GoRuntime W} `{GS : GoSort}.
Context `{KQ : KClient W Queue} `{KV : KView W Queue} `{KL : !KClientLaws W Queue}.
Context `{RF : !RuntimeFrame W (kview Queue)}.
Context (ns : string) (comp0 : QueueComponent) (queue : Queue).
Context (Hqueue : queue_wf ns queue) (Hcomp0 : comps_of queue = [comp0]) (Hns : ns <> "").
Implicit Types (w : W) (m : store) (q : Queue) (items : QueueList).

Lemma wp_now_frame w (Q : outcome Z -> W -> Prop) :
  (forall t w', kview Queue w' = kview Queue w -> Q (Ok t) w') -> wp now w Q.
Proof.
  intros HQ. apply wp_now. intros t w' Ht. apply HQ.
  pose proof (now_frame (v:=kview Queue) w) as Hf. by rewrite Ht in Hf.
Qed.

Lemma wp_Sort_frame items w (Q : outcome QueueList -> W -> Prop) :
  (forall items' w', items' ≡ₚ items -> kview Queue w' = kview Queue w -> Q (Ok items') w') ->
  wp (Sort items) w Q.
Proof.
  intros HQ. unfold Sort. wp_step. apply wp_now_frame. intros t w' Hw'. wp_step.
  apply HQ; [apply go_sort_perm|done].
Qed.

Lemma wp_Top_frame items w (Q : outcome (Z * QueueList) -> W -> Prop) :
  (forall n items' w', items' ≡ₚ items -> kview Queue w' = kview Queue w ->
     Q (Ok (n, items')) w') ->
  wp (TopQueueOrder items) w Q.
Proof.
  intros HQ. destruct items as [|q items]; [by apply wp_ret, HQ|].
  unfold TopQueueOrder. wp_step. apply wp_Sort_frame. intros [|q' items'] w' Hp Hw'.
  - by apply Permutation_nil_l in Hp.
  - simpl. wp_step. by apply HQ.
Qed.

Lemma wp_Last_frame items w (Q : outcome (Z * QueueList) -> W -> Prop) :
  (forall n items' w', items' ≡ₚ items -> kview Queue w' = kview Queue w ->
     Q (Ok (n, items')) w') ->
  wp (LastQueueOrder items) w Q.
Proof.
  intros HQ. destruct items as [|q items]; [by apply wp_ret, HQ|].
  unfold LastQueueOrder. wp_step. apply wp_Sort_frame. intros items' w' Hp Hw'.
  destruct (last items') as [q'|] eqn:Hl; [wp_step; by apply HQ|].
  apply last_None in Hl as ->. by apply Permutation_nil_l in Hp.
Qed.

Lemma wp_listQueues c w (Q : outcome QueueList -> W -> Prop) :
  store_ok ns (kview Queue w) ->
  (forall items w', synced ns (kview Queue w) items -> kview Queue w' = kview Queue w ->
     Q (Ok items) w') ->
  (forall e w', kview Queue w' = kview Queue w -> Q (Err e) w') ->
  wp (listQueues c (Some (InNamespace ns))) w Q.
Proof.
  intros Hok HQ HE. unfold listQueues. cbv zeta. wp_step. wp_step. apply wp_k_list.
  - intros items w' Hp Hw'. wp_step. apply HQ; [|done]. split.
    + rewrite Hp. apply NoDup_fmap_2_strong.
      * intros q1 q2 [_ Hq1]%list_elem_of_filter [_ Hq2]%list_elem_of_filter Heq.
        apply list_elem_of_fmap in Hq1 as ([k1 ?] & -> & Hq1%elem_of_map_to_list).
        apply list_elem_of_fmap in Hq2 as ([k2 ?] & -> & Hq2%elem_of_map_to_list).
        simpl in *. apply k_view_keyed in Hq1 as H1. apply k_view_keyed in Hq2 as H2. congruence.
      * apply NoDup_filter. apply NoDup_fmap_2_strong; [|apply NoDup_map_to_list].
        intros [k1 q1] [k2 q2] Hq1%elem_of_map_to_list Hq2%elem_of_map_to_list Heq.
        simpl in *. apply k_view_keyed in Hq1 as H1. apply k_view_keyed in Hq2 as H2. congruence.
    + intros q. rewrite Hp, list_elem_of_filter, list_elem_of_fmap. unfold list_matches. simpl.
      split.
      * intros ([[|Hq] _] & [k q'] & -> & Hl%elem_of_map_to_list); [done|]. split; [|done].
        simpl in *. by rewrite (k_view_keyed _ _ _ Hl).
      * intros [Hl Hq]. split; [|exists (kkey q, q); by rewrite elem_of_map_to_list].
        split; [by right|]. apply map_empty_subseteq.
  - intros e w' Hw'. wp_step. by apply HE.
Qed.

(** Skipping the empty slots. *)
Lemma update_slots_blanks prepare n u i items :
  update_slots prepare (blanks n ++ u) i items = update_slots prepare u (n + i)%nat items.
Proof.
  revert i. induction n as [|n IH]; intros i; simpl; [done|]. rewrite IH. by rewrite Nat.add_succ_r.
Qed.

Lemma update_slots_all_blank prepare n i items : update_slots prepare (blanks n) i items = mret items.
Proof. rewrite <- (app_nil_r (blanks n)). by rewrite update_slots_blanks. Qed.

Lemma similar_refl_meta q q' : similar q q' -> kname q = kname q' /\ kns q = kns q'.
Proof. intros (Hm & _). unfold kname, kns, kmeta, queue_object. by rewrite Hm. Qed.

(** One slot holds a queue: it is updated and written back in its place. *)
Lemma wp_update_slots_one prepare l1 q l2 w (Q : outcome QueueList -> W -> Prop) :
  similar q (prepare q) -> queue_wf ns q ->
  (forall w', kview Queue w' = <[kkey q := prepare q]> (kview Queue w) ->
     Q (Ok (l1 ++ prepare q :: l2)) w') ->
  (forall e w', kview Queue w' = kview Queue w -> Q (Err e) w') ->
  wp (update_slots prepare (blanks (length l1) ++ q :: blanks (length l2)) 0 (l1 ++ q :: l2)) w Q.
Proof.
  intros Hsim Hwf HQ HE. rewrite update_slots_blanks, Nat.add_0_r. simpl.
  destruct (String.eqb_spec (kname q) "") as [Hn|_]; [by destruct (qw_name _ _ Hwf)|].
  pose proof (queue_wf_similar _ _ _ Hsim Hwf) as Hwf'.
  wp_step. apply wp_k_update; [|done]. intros w' _ Hw'.
  rewrite store_update_plain in Hw' by apply (qw_alive _ _ Hwf').
  wp_step. wp_step. rewrite list_lookup_middle by done.
  rewrite update_slots_all_blank. wp_step.
  rewrite insert_app_r_alt, Nat.sub_diag by done. simpl.
  apply HQ. by rewrite Hw', (kkey_similar q (prepare q)).
Qed.

Lemma SortComponents_perm comps : SortComponents comps ≡ₚ comps.
Proof. apply go_sort_perm. Qed.

Lemma similar_prepare_bundle q : similar q (prepare_bundle q).
Proof. unfold similar. split_and!; [done..|]. symmetry. apply SortComponents_perm. Qed.

Lemma similar_prepare_similar q : similar q (prepare_similar q).
Proof.
  unfold similar. split_and!; [done..|]. symmetry. unfold prepare_similar. simpl.
  etrans; apply SortComponents_perm.
Qed.

(** Where the name of [comp0] is after the first pass. *)
Definition settled (inQueue : option Queue) items : Prop :=
  match inQueue with
  | Some pQueue => exists l1 l2, items = l1 ++ pQueue :: l2 /\
      ContainSameComponent pQueue (qs_Name (queue_Spec queue)) comp0 = true /\
      forall q, q ∈ l1 \/ q ∈ l2 -> qc_Name comp0 ∉ names_of q
  | None => forall q, q ∈ items -> qc_Name comp0 ∉ names_of q
  end.

Definition in_queue items : option Queue :=
  List.find (fun q => ContainSameComponent q (qs_Name (queue_Spec queue)) comp0) items.

Lemma in_queue_none items :
  (forall q, q ∈ items -> qc_Name comp0 ∉ names_of q) -> in_queue items = None.
Proof.
  intros Hno. induction items as [|q items IH]; [done|]. unfold in_queue in *. simpl.
  rewrite contain_same_no by set_solver. apply IH. set_solver.
Qed.

Lemma in_queue_app l1 items :
  (forall q, q ∈ l1 -> qc_Name comp0 ∉ names_of q) -> in_queue (l1 ++ items) = in_queue items.
Proof.
  intros Hno. induction l1 as [|q l1 IH]; [done|]. unfold in_queue in *. simpl.
  rewrite contain_same_no by set_solver. apply IH. set_solver.
Qed.

(** The removals and the write-backs of the first pass. *)
Definition first_pass items : M W QueueList :=
  let '(removing, updating, items) := removeAndUpdateSimilarQueue queue comp0 items in
  run for_each removing (fun q => k_delete q);
  update_slots prepare_similar updating 0 items.

Lemma wp_first_pass items w (Q : outcome QueueList -> W -> Prop) :
  store_ok ns (kview Queue w) -> synced ns (kview Queue w) items ->
  (forall items' w', on_behalf ns comp0 (kview Queue w) (kview Queue w') ->
     synced ns (kview Queue w') items' -> settled (in_queue items) items' -> Q (Ok items') w') ->
  (forall e w', on_behalf ns comp0 (kview Queue w) (kview Queue w') -> Q (Err e) w') ->
  wp (first_pass items) w Q.
Proof.
  intros Hok Hsy HQ HE.
  assert (forall q, q ∈ items -> queue_wf ns q) as Hwf.
  { intros q Hq. by eapply synced_lookup. }
  assert (forall e w', kview Queue w' = kview Queue w -> Q (Err e) w') as HE'.
  { intros e w' Hw'. apply HE. rewrite Hw'. by apply on_behalf_refl. }
  unfold first_pass.
  destruct (synced_split ns comp0 _ _ Hok Hsy) as [Hno|(l1 & q & l2 & -> & Hn & Hrest)].
  { unfold removeAndUpdateSimilarQueue. rewrite similar_pass_none; last first.
    { intros q Hq. split; [|auto]. by destruct (Hwf q). }
    simpl. wp_step. wp_step. rewrite update_slots_all_blank. wp_step.
    rewrite in_queue_none in HQ by done. apply HQ; [by apply on_behalf_refl|done|done]. }
  assert (queue_wf ns q) as Hq by (apply Hwf; set_solver).
  rewrite similar_pass_one; last done; last first.
  { intros q' Hq'. split; [|auto]. destruct (Hwf q'); [set_solver|done]. }
  rewrite in_queue_app in HQ by auto. unfold in_queue in HQ at 1. simpl in HQ.
  destruct (ContainSameComponent q _ comp0) eqn:Hsame.
  { simpl. wp_step. wp_step. rewrite update_slots_blanks. simpl.
    rewrite update_slots_all_blank. wp_step. apply HQ; [by apply on_behalf_refl|done|].
    exists l1, l2. auto. }
  fold (in_queue l2) in HQ. rewrite in_queue_none in HQ by auto.
  destruct (decide (without0 comp0 q = [])) as [Hempty|Hne].
  - simpl. wp_step. wp_step. apply wp_k_delete.
    + intros y Hy. pose proof (so_wf _ _ Hok _ _ Hy) as []; [apply Hq|done].
    + intros w' _ Hw'. wp_step. rewrite update_slots_blanks. simpl.
      rewrite update_slots_all_blank. wp_step. apply HQ.
      * rewrite Hw'. apply (on_behalf_delete _ _ _ _ q); [done| | |].
        -- eapply synced_lookup; [done..|set_solver].
        -- apply Hq.
        -- intros c Hc. destruct (decide (qc_Name c = qc_Name comp0)); [done|].
           assert (c ∈ without0 comp0 q) as Hin by (by apply list_elem_of_filter).
           rewrite Hempty in Hin. by apply elem_of_nil in Hin.
      * rewrite Hw'. by apply synced_delete.
      * intros q' Hq'%elem_of_app. auto.
    + intros e w' _ Hw'. by apply HE'.
  - set (q' := set_components (without0 comp0 q) q). simpl. wp_step. wp_step.
    assert (comps_of q' = without0 comp0 q) as Hcq by done.
    assert (kkey q' = kkey q) as Hkq by done.
    assert (queue_wf ns q') as Hwf'.
    { destruct Hq. split; try done. unfold names_of. rewrite Hcq.
      eapply sublist_NoDup; [exact qw_nodup0|]. apply fmap_sublist, sublist_filter. }
    apply wp_update_slots_one; [apply similar_prepare_similar|done| |done].
    intros w' Hw'.
    pose proof (similar_prepare_similar q') as Hsim. pose proof Hsim as (_ & _ & _ & Hc).
    pose proof (kkey_similar _ _ Hsim) as Hkp.
    assert (qc_Name comp0 ∉ names_of (prepare_similar q')) as Hno'.
    { rewrite <- (names_of_similar _ _ Hsim). intros (c & Hin & Hcn)%elem_of_names.
      rewrite Hcq in Hin. by apply list_elem_of_filter in Hin as [? _]. }
    assert (kview Queue w !! kkey q = Some q) as Hlq.
    { eapply synced_lookup; [done..|set_solver]. }
    apply HQ.
    + rewrite Hw', Hkp. apply on_behalf_insert; [done| | | |].
      * by apply (queue_wf_similar _ q').
      * intros k q1 n Hk Hkns Hne' Hin Hin1. apply Hne'. rewrite <- Hkp, Hkq.
        rewrite <- (names_of_similar _ _ Hsim) in Hin.
        eapply so_unique; [done|exact Hk|exact Hlq|done|apply Hq|exact Hin1|].
        apply elem_of_names in Hin as (c & Hin & Hcn). apply elem_of_names. exists c.
        rewrite Hcq in Hin. by apply list_elem_of_filter in Hin as [_ ?].
      * intros c Hcn. rewrite <- Hkp, Hkq, Hlq, <- Hc, Hcq. unfold without0.
        rewrite list_elem_of_filter. naive_solver.
      * intros c Hcn Hin. exfalso. apply Hno'. apply elem_of_names. eauto.
    + rewrite Hw', Hkp. apply (synced_insert _ _ _ q); [done|]. by rewrite <- Hkp.
    + intros q1 Hq1. apply elem_of_app in Hq1 as [?|[->|?]%elem_of_cons]; auto.
Qed.

(** The write-backs of the second pass, and whether there is a bundle. *)
Definition second_pass items : M W (bool * QueueList) :=
  let (updating, items) := addExistingBundleQueue queue comp0 items in
  let isAlreadyInBundle := existsb (fun q => negb (String.eqb (kname q) "")) updating in
  do items <- update_slots prepare_bundle updating 0 items;
  mret (isAlreadyInBundle, items).

Lemma existsb_blanks n : existsb (fun q => negb (String.eqb (kname q) "")) (blanks n) = false.
Proof. induction n as [|n IH]; [done|]. simpl. done. Qed.

(** Two queues of one bundle are the same. *)
Lemma bundle_unique m items q q' :
  store_ok ns m -> synced ns m items -> q ∈ items -> q' ∈ items ->
  kname q = qs_Bundle (queue_Spec queue) -> kname q' = qs_Bundle (queue_Spec queue) -> q = q'.
Proof.
  intros Hok Hsy Hq Hq' Hb Hb'.
  destruct (synced_lookup _ _ _ _ Hok Hsy Hq) as [Hl Hwf].
  destruct (synced_lookup _ _ _ _ Hok Hsy Hq') as [Hl' Hwf'].
  rewrite (kkey_ns ns) in Hl, Hl' by done. congruence.
Qed.

Lemma other_items m l1 q l2 q' :
  synced ns m (l1 ++ q :: l2) -> q' ∈ l1 \/ q' ∈ l2 -> q' <> q.
Proof.
  intros [Hk _] Hin ->. rewrite fmap_app, fmap_cons in Hk.
  apply NoDup_app in Hk as (_ & Hd & [Hk2 _]%NoDup_cons). destruct Hin as [Hin|Hin].
  - apply (Hd (kkey q)); [by apply list_elem_of_fmap_2|set_solver].
  - apply Hk2. by apply list_elem_of_fmap_2.
Qed.

Lemma wp_second_pass pQueue items w (Q : outcome (bool * QueueList) -> W -> Prop) :
  store_ok ns (kview Queue w) -> synced ns (kview Queue w) items -> settled pQueue items ->
  (forall b items' w', on_behalf ns comp0 (kview Queue w) (kview Queue w') ->
     synced ns (kview Queue w') items' ->
     (b = false -> items' = items /\ kview Queue w' = kview Queue w) ->
     (b = true -> pending ns (kview Queue w') comp0) ->
     (pQueue <> None -> b = false) -> Q (Ok (b, items')) w') ->
  (forall e w', on_behalf ns comp0 (kview Queue w) (kview Queue w') -> Q (Err e) w') ->
  wp (second_pass items) w Q.
Proof.
  intros Hok Hsy Hset HQ HE.
  assert (forall q, q ∈ items -> queue_wf ns q) as Hwf by (intros q Hq; by eapply synced_lookup).
  assert (Q (Ok (false, items)) w) as Hnone.
  { apply HQ; [by apply on_behalf_refl|done..]. }
  assert (forall n l, items = l -> wp (let isAlreadyInBundle :=
      existsb (fun q => negb (String.eqb (kname q) "")) (blanks n) in
      do items' <- update_slots prepare_bundle (blanks n) 0 l;
      mret (isAlreadyInBundle, items')) w Q) as Hblank.
  { intros n l <-. cbv zeta. rewrite existsb_blanks, update_slots_all_blank. by wp_step; wp_step; wp_step. }
  unfold second_pass, addExistingBundleQueue.
  destruct (String.eqb_spec (qs_Bundle (queue_Spec queue)) "") as [|Hb]; [by apply (Hblank 0%nat)|].
  destruct pQueue as [pQueue|]; simpl in Hset.
  - destruct Hset as (l1 & l2 & -> & Hsame & Hrest).
    pose proof (contain_same_name _ _ _ Hsame) as [_ Hpn].
    assert (queue_wf ns pQueue) as Hp by (apply Hwf; set_solver).
    assert (kname pQueue = qs_Bundle (queue_Spec queue)) as Hpk.
    { rewrite <- (qw_spec_name _ _ Hp), Hpn, (qw_spec_name _ _ Hqueue).
      by apply (qw_bundle _ _ Hqueue). }
    assert (forall q, q ∈ l1 \/ q ∈ l2 ->
      qs_Bundle (queue_Spec q) <> qs_Bundle (queue_Spec queue)) as Hother.
    { intros q Hq Heq. pose proof (other_items _ _ _ _ _ Hsy Hq) as Hne. apply Hne.
      assert (q ∈ l1 ++ pQueue :: l2) as Hin by set_solver.
      apply (bundle_unique _ _ _ _ Hok Hsy); [done|set_solver| |done].
      rewrite <- Heq. apply (qw_bundle _ _ (Hwf _ Hin)). by rewrite Heq. }
    rewrite bundle_pass_app by auto. simpl. rewrite Hsame. simpl.
    rewrite bundle_pass_none by auto.
    assert (blanks (length l1) ++ zeroQueue :: blanks (length l2)
            = blanks (length l1 + S (length l2))) as ->.
    { unfold blanks. by rewrite replicate_add. }
    by apply Hblank.
  - destruct (decide (Exists (fun q => qs_Bundle (queue_Spec q) = qs_Bundle (queue_Spec queue)) items))
      as [Hex|Hno].
    + apply Exists_exists in Hex as (q & Hq & Hqb).
      apply list_elem_of_split in Hq as (l1 & l2 & ->).
      assert (queue_wf ns q) as Hwq by (apply Hwf; set_solver).
      assert (kname q = qs_Bundle (queue_Spec queue)) as Hqk.
      { rewrite <- Hqb. apply (qw_bundle _ _ Hwq). by rewrite Hqb. }
      assert (forall q', q' ∈ l1 \/ q' ∈ l2 ->
        qs_Bundle (queue_Spec q') <> qs_Bundle (queue_Spec queue)) as Hother.
      { intros q' Hq' Heq. pose proof (other_items _ _ _ _ _ Hsy Hq') as Hne. apply Hne.
        assert (q' ∈ l1 ++ q :: l2) as Hin by set_solver.
        apply (bundle_unique _ _ _ _ Hok Hsy); [done|set_solver| |done].
        rewrite <- Heq. apply (qw_bundle _ _ (Hwf _ Hin)). by rewrite Heq. }
      assert (qc_Name comp0 ∉ names_of q) as Hnq by (apply Hset; set_solver).
      rewrite bundle_pass_app by (intros; auto; apply Hset; set_solver).
      simpl. rewrite contain_same_no by done.
      rewrite bundle_pass_none by (intros; auto; apply Hset; set_solver).
      rewrite Hqb, String.eqb_refl.
      change (qs_Components (queue_Spec q)) with (comps_of q).
      rewrite bundle_components_none by done. simpl default.
      set (q' := set_components (comps_of q ++ [comp0]) q).
      assert (comps_of q' = comps_of q ++ [comp0]) as Hcq by done.
      assert (queue_wf ns q') as Hwf'.
      { destruct Hwq. split; try done.
        - rewrite Hcq. by destruct (comps_of q).
        - unfold names_of. rewrite Hcq, fmap_app. apply NoDup_app.
          split_and!; [done| |apply NoDup_singleton].
          intros n Hn ->%list_elem_of_singleton. done. }
      cbv zeta. wp_step.
      apply wp_update_slots_one; [apply similar_prepare_bundle|done| |].
      2:{ intros e w' Hw'. apply HE. rewrite Hw'. by apply on_behalf_refl. }
      intros w' Hw'. wp_step.
      pose proof (similar_prepare_bundle q') as Hsim. pose proof Hsim as (_ & _ & _ & Hc).
      pose proof (kkey_similar _ _ Hsim) as Hkp. assert (kkey q' = kkey q) as Hkq by done.
      assert (kview Queue w !! kkey q = Some q) as Hlq.
      { eapply synced_lookup; [done..|set_solver]. }
      assert (comp0 ∈ comps_of (prepare_bundle q')) as Hin0.
      { rewrite <- Hc, Hcq. set_solver. }
      apply HQ.
      * rewrite Hw', Hkp. apply on_behalf_insert; [done| | | |].
        -- by apply (queue_wf_similar _ q').
        -- intros k q1 n Hk Hkns Hne' Hin Hin1. rewrite <- (names_of_similar _ _ Hsim) in Hin.
           unfold names_of in Hin. rewrite Hcq, fmap_app in Hin.
           apply elem_of_app in Hin as [Hin| ->%list_elem_of_singleton].
           ++ apply Hne'. rewrite <- Hkp, Hkq.
              eapply so_unique; [done|exact Hk|exact Hlq|done|apply Hwq|exact Hin1|exact Hin].
           ++ apply (Hset q1); [|done]. apply (sy_elem _ _ _ Hsy).
              pose proof (so_keyed _ _ Hok _ _ Hk) as Hkk. rewrite Hkk.
              split; [done|]. by destruct (so_wf _ _ Hok _ _ Hk Hkns).
        -- intros c Hcn. rewrite <- Hkp, Hkq, Hlq, <- Hc, Hcq. split.
           ++ intros [Hin| ->%list_elem_of_singleton]%elem_of_app; [by eauto|done].
           ++ intros (? & [= <-] & ?). set_solver.
        -- intros c Hcn Hin. rewrite <- Hc, Hcq in Hin.
           apply elem_of_app in Hin as [Hin| ->%list_elem_of_singleton]; [|by left].
           exfalso. apply Hnq, elem_of_names. eauto.
      * rewrite Hw', Hkp. apply (synced_insert _ _ _ q); [done|]. by rewrite <- Hkp.
      * intros Hf. exfalso. rewrite existsb_app in Hf. simpl in Hf.
        apply orb_false_iff in Hf as [_ Hf]. apply orb_false_iff in Hf as [Hf _].
        apply negb_false_iff, String.eqb_eq in Hf. by destruct (qw_name _ _ Hwf').
      * intros _. exists (kkey q'), (prepare_bundle q'). rewrite Hw', lookup_insert_eq.
        split_and!; [done|apply Hwf'|done].
      * done.
    + rewrite bundle_pass_none; [by apply Hblank|done|].
      intros q Hq Heq. apply Hno, Exists_exists. eauto.
Qed.
End passes.

(** ** Ordering by priority *)

Section priority.
Context {W : Type} `{GR : GoRuntime W} `{GS : GoSort}.
Context `{KQ : KClient W Queue} `{KV : KView W Queue} `{KL : !KClientLaws W Queue}.
Context `{RF : !RuntimeFrame W (kview Queue)}.
Context (ns : string) (comp0 : QueueComponent).
Implicit Types (w : W) (m : store) (q : Queue) (items : QueueList).

Lemma pending_similar m q q' c :
  m !! kkey q' = Some q -> similar q q' ->
  pending ns (<[kkey q' := q']> m) c <-> pending ns m c.
Proof.
  intros Hl Hsim. pose proof Hsim as (_ & _ & _ & Hc). unfold pending. split.
  - intros (k & q1 & [[<- <-]|[? ?]]%lookup_insert_Some & Hk & Hin); [|by eauto].
    exists (kkey q'), q. by rewrite Hc.
  - intros (k & q1 & Hk & Hkns & Hin). destruct (decide (k = kkey q')) as [->|Hne].
    + exists (kkey q'), q'. rewrite lookup_insert_eq. simplify_eq. by rewrite <- Hc.
    + exists k, q1. by rewrite lookup_insert_ne.
Qed.

Lemma similar_set_order n q : similar q (set_order n q).
Proof. done. Qed.

Lemma tracks_set_order m q n items :
  tracks ns m items -> q ∈ items -> tracks ns m [set_order n q].
Proof.
  intros Ht (Hns & q0 & Hq0 & Hs)%Ht q' ->%list_elem_of_singleton. split; [done|].
  exists q0. split; [done|]. by rewrite Hs.
Qed.

Lemma tracks_app m l1 l2 : tracks ns m l1 -> tracks ns m l2 -> tracks ns m (l1 ++ l2).
Proof. intros H1 H2 q [Hq|Hq]%elem_of_app; auto. Qed.

Lemma tracks_subset m l1 l2 : (forall q, q ∈ l1 -> q ∈ l2) -> tracks ns m l2 -> tracks ns m l1.
Proof. intros Hsub H2 q Hq. auto. Qed.

(** Updates of stored queues that only move them. *)
Lemma wp_reorder updating w (Q : outcome unit -> W -> Prop) :
  store_ok ns (kview Queue w) -> tracks ns (kview Queue w) updating ->
  (forall r w', (forall p, r <> Panic p) -> on_behalf ns comp0 (kview Queue w) (kview Queue w') ->
     (forall c, pending ns (kview Queue w') c <-> pending ns (kview Queue w) c) ->
     (forall l, tracks ns (kview Queue w) l -> tracks ns (kview Queue w') l) -> Q r w') ->
  wp (for_each updating (fun q => k_update q)) w Q.
Proof.
  intros Hok Ht HQ.
  apply (wp_for_each (fun l w' => tracks ns (kview Queue w') l /\
    on_behalf ns comp0 (kview Queue w) (kview Queue w') /\
    (forall c, pending ns (kview Queue w') c <-> pending ns (kview Queue w) c) /\
    (forall l, tracks ns (kview Queue w) l -> tracks ns (kview Queue w') l))).
  - split_and!; [done|by apply on_behalf_refl|done|done].
  - intros q l w' (Hql & Hob & Hp & Htr).
    destruct (Hql q) as (Hns & q0 & Hq0 & Hsim); [set_solver|].
    apply wp_k_update.
    + intros w'' _ Hw''.
      rewrite store_update_plain in Hw''; last first.
      { destruct Hsim as (Hm & _). change (kmeta q) with (queue_Meta q). rewrite <- Hm.
        apply (qw_alive ns). eapply so_wf; [apply Hob|done|]. by unfold kkey. }
      rewrite Hw''. split_and!.
      * eapply tracks_insert; [|done..]. eapply tracks_subset; [|exact Hql]. set_solver.
      * eapply on_behalf_trans; [done|]. eapply on_behalf_similar; try done. apply Hob.
      * intros c. by rewrite (pending_similar _ q0).
      * intros l' Hl'. eapply tracks_insert; eauto.
    + intros e w'' Hw''. apply HQ; [done|..]; by rewrite Hw''.
  - intros w' (_ & Hob & Hp & Htr). by apply HQ.
Qed.

Lemma existing_range i items :
  0 <= i ->
  let n := getExistingQueueNumber_from i comp0 items in
  n = -1 \/ i <= n < i + Z.of_nat (length items).
Proof.
  revert i. induction items as [|q items IH]; intros i Hi; simpl; [by left|].
  destruct (existsb _ _); [right; lia|]. destruct (IH (i + 1)); lia.
Qed.

Lemma wp_priority_loop priorityQueues targetNo existingQueueNo arr no w
    (Q : outcome (priority_loop + unit) -> W -> Prop) :
  tracks ns (kview Queue w) arr ->
  (forall v w', kview Queue w' = kview Queue w -> length (pl_items v) = length arr ->
     tracks ns (kview Queue w) (pl_updating v) -> tracks ns (kview Queue w) (pl_items v) ->
     Q (Ok (inl v)) w') ->
  wp (for_range (seq 0 (length arr)) (mkPriorityLoop arr [] [] false false no)
        (priority_body priorityQueues targetNo existingQueueNo)) w Q.
Proof.
  intros Ht HQ.
  apply (wp_for_range (fun l v w' =>
    kview Queue w' = kview Queue w /\ pl_arr v ≡ₚ arr /\
    l = seq (length (pl_items v)) (length l) /\
    (length (pl_items v) + length l)%nat = length arr /\
    tracks ns (kview Queue w) (pl_updating v) /\ tracks ns (kview Queue w) (pl_items v))).
  - simpl. rewrite length_seq. split_and!; try done; by intros q Hq%elem_of_nil.
  - intros i l v w' (Hw' & Hp & Hl & Hlen & Hu & Hit). simpl in Hl, Hlen.
    injection Hl as Hi Hl.
    assert (tracks ns (kview Queue w) (pl_arr v)) as Harr.
    { eapply tracks_subset; [|exact Ht]. intros q. by rewrite Hp. }
    assert (length (pl_arr v) = length arr) as Hpl by (by rewrite Hp).
    unfold priority_body. wp_step. wp_step.
    destruct (pl_arr v !! i) as [q|] eqn:Hq; last first.
    { apply lookup_ge_None in Hq. lia. }
    assert (q ∈ pl_arr v) as Hqin by (by eapply list_elem_of_lookup_2).
    cbv zeta. wp_step.
    assert (forall v1 w1, kview Queue w1 = kview Queue w -> pl_arr v1 ≡ₚ arr ->
      pl_items v1 = pl_items v -> pl_updating v1 = pl_updating v ->
      wp (let moved := pl_found v1 && negb (existingQueueNo =? Z.of_nat i) in
          let q' := if moved && negb (pl_foundTop v1)
                    then set_order (int_add (qs_NoOfOrder (queue_Spec q)) 1) q else q in
          mret (Next (R:=unit) (mkPriorityLoop (pl_arr v1) (pl_items v1 ++ [q'])
                       (if moved then pl_updating v1 ++ [q'] else pl_updating v1)
                       (pl_found v1) (pl_foundTop v1) (pl_expectedNo v1)))) w1
        (fun r w2 => match r with
           | Ok (Next b') => kview Queue w2 = kview Queue w /\ pl_arr b' ≡ₚ arr /\
               l = seq (length (pl_items b')) (length l) /\
               (length (pl_items b') + length l)%nat = length arr /\
               tracks ns (kview Queue w) (pl_updating b') /\
               tracks ns (kview Queue w) (pl_items b')
           | Ok (Brk b') => Q (Ok (inl b')) w2
           | Ok (Rtn x) => Q (Ok (inr x)) w2
           | Err e => Q (Err e) w2
           | Panic p => Q (Panic p) w2
           end)) as Hrest.
    { intros v1 w1 Hw1 Hp1 Hi1 Hu1. cbv zeta. wp_step. simpl.
      rewrite Hi1, Hu1, length_app. simpl.
      assert (tracks ns (kview Queue w) [q]) as Hq1.
      { eapply tracks_subset; [|exact Harr]. intros q' ->%list_elem_of_singleton. done. }
      assert (tracks ns (kview Queue w)
        [if pl_found v1 && negb (existingQueueNo =? Z.of_nat i) && negb (pl_foundTop v1)
         then set_order (int_add (qs_NoOfOrder (queue_Spec q)) 1) q else q]) as Hq2.
      { case_match; [|done]. eapply tracks_set_order; [exact Hq1|set_solver]. }
      split_and!; [done|done| |lia| |].
      - by rewrite Nat.add_1_r.
      - destruct (pl_found v1 && negb (existingQueueNo =? Z.of_nat i)); [by apply tracks_app|done].
      - by apply tracks_app. }
    destruct (negb (pl_found v) && _); [|wp_step; by apply Hrest].
    destruct (Z.of_nat i - 1 <? 0) eqn:Hi0.
    + wp_step. apply wp_Top_frame. intros n arr' w1 Hp' Hw1. wp_step.
      apply Hrest; simpl; [congruence|by rewrite Hp'|done|done].
    + wp_step. wp_step. destruct (pl_arr v !! (i - 1)%nat) as [q'|] eqn:Hq'.
      * wp_step. by apply Hrest.
      * apply lookup_ge_None in Hq'. lia.
  - intros v w' (Hw' & _ & _ & Hlen & Hu & Hit). simpl in Hlen. apply HQ; [done|lia|done|done].
Qed.

Lemma wp_setQueueOrder items priorityQueues w queue
    (Q : outcome (QueueList * QueueList) -> W * Queue -> Prop) :
  tracks ns (kview Queue w) items ->
  (forall updating items' n w', kview Queue w' = kview Queue w ->
     tracks ns (kview Queue w) updating ->
     Q (Ok (updating, items')) (w', set_order n queue)) ->
  (forall updating items' w', kview Queue w' = kview Queue w ->
     tracks ns (kview Queue w) updating ->
     Q (Ok (updating, items')) (w', queue)) ->
  wp (setQueueOrderFollowingPriorityQueues comp0 items priorityQueues) (w, queue) Q.
Proof.
  intros Ht HQ HQ'. unfold setQueueOrderFollowingPriorityQueues.
  wp_step. wp_step. simpl. cbv zeta.
  destruct (_ || _).
  - wp_step. apply wp_onW, wp_Last_frame. intros n items' w' Hp Hw'.
    wp_step. wp_step. wp_step. simpl. apply HQ; [done|]. by intros q ?%elem_of_nil.
  - wp_step. apply wp_onW, wp_Last_frame. intros no arr w' Hp Hw'. simpl in Hw'.
    wp_step. apply wp_onW. simpl. apply wp_priority_loop.
    { rewrite Hw'. eapply tracks_subset; [|exact Ht]. intros q. by rewrite Hp. }
    rewrite Hw'. intros v w2 Hw2 Hlen Hu Hit.
    assert (length (pl_items v) = length items) as Hlen' by (by rewrite Hlen, Hp).
    destruct (existing_range 0 items) as [He|He]; [lia| |];
      fold (getExistingQueueNumberInList comp0 items) in He.
    + rewrite He. simpl. wp_step. wp_step. wp_step. simpl. by apply HQ.
    + destruct (negb (getExistingQueueNumberInList comp0 items =? -1) && _) eqn:Hc.
      * wp_step. wp_step. destruct (pl_items v !! _) as [q|] eqn:Hq.
        -- wp_step. simpl. apply HQ'; [done|]. apply tracks_app; [done|].
           eapply tracks_set_order; [done|]. by eapply list_elem_of_lookup_2.
        -- apply lookup_ge_None in Hq. lia.
      * wp_step. wp_step. wp_step. simpl. by apply HQ.
Qed.
End priority.

(** ** Adding a queue is an insertion *)

Section refinement.
Context {W : Type} `{GR : GoRuntime W} `{GS : GoSort}.
Context `{KQ : KClient W Queue} `{KV : KView W Queue} `{KL : !KClientLaws W Queue}.
Context `{KS : KClient W StableComponent} `{KVS : KView W StableComponent}.
Context `{KLS : !KClientLaws W StableComponent}.
Context `{RF : !RuntimeFrame W (kview Queue)}.
Context `{FS : !KFrame W StableComponent (kview Queue)}.
Context `{FQ : !KFrame W Queue (kview StableComponent)}.
Implicit Types (w : W) (q queue : Queue) (items : QueueList).

(** The stable version of the component is the wanted one. *)
Definition already_stable (c : controller) w (comp0 : QueueComponent) : Prop :=
  exists sc, kview StableComponent w !! (c_namespace c, qc_Name comp0) = Some sc /\
    sc_Repository (stable_Spec sc) = qc_Repository comp0 /\
    sc_Version (stable_Spec sc) = qc_Version comp0.

Lemma wp_isMatch c queue comp0 w (Q : outcome bool -> W -> Prop) :
  comps_of queue = [comp0] ->
  (forall b w', kview Queue w' = kview Queue w -> (b = true -> already_stable c w comp0) ->
     Q (Ok b) w') ->
  (forall e w', kview Queue w' = kview Queue w -> Q (Err e) w') ->
  wp (isMatchWithStableComponent c queue) w Q.
Proof.
  intros Hc HQ HE. unfold isMatchWithStableComponent. unfold comps_of in Hc. rewrite Hc. cbv iota.
  wp_step. wp_step. apply run_wp. intros r w' Heq.
  pose proof (k_get_law (T:=StableComponent) (c_namespace c, qc_Name comp0) w) as Hl.
  pose proof (k_get_frame (v:=kview Queue) (c_namespace c, qc_Name comp0) w) as Hf.
  rewrite Heq in Hl, Hf. simpl in Hf. destruct r as [sc|e|p]; [| |done].
  - wp_step. apply HQ; [done|]. intros [Hr Hv]%andb_true_iff.
    apply String.eqb_eq in Hr, Hv. exists sc. naive_solver.
  - destruct (IsNotFound e); wp_step; [by apply HQ|by apply HE].
Qed.

Lemma already_stable_frame c w w' comp0 :
  kview StableComponent w' = kview StableComponent w ->
  already_stable c w' comp0 -> already_stable c w comp0.
Proof. unfold already_stable. by intros ->. Qed.

Section add.
Context (ns : string) (comp0 : QueueComponent) (queue : Queue) (c : controller).
Context (Hqueue : queue_wf ns queue) (Hcomp0 : comps_of queue = [comp0]) (Hns : ns <> "").

(** What holds when a call on behalf of [comp0] has returned. *)
Definition outcome_ok (w0 : W) (r : outcome unit) (s : W * Queue) : Prop :=
  (forall p, r <> Panic p) /\
  on_behalf ns comp0 (kview Queue w0) (kview Queue (fst s)) /\
  (r = Ok tt ->
     (already_stable c w0 comp0 /\ kview Queue (fst s) = kview Queue w0) \/
     pending ns (kview Queue (fst s)) comp0).

Lemma outcome_err w0 e s :
  on_behalf ns comp0 (kview Queue w0) (kview Queue (fst s)) -> outcome_ok w0 (Err e) s.
Proof. intros Hob. unfold outcome_ok. by split_and!. Qed.

(** Creation of the queue itself. *)
Lemma on_behalf_create m q :
  store_ok ns m -> m !! kkey q = None -> similar queue q ->
  (forall k q', m !! k = Some q' -> k.1 = ns -> qc_Name comp0 ∉ names_of q') ->
  on_behalf ns comp0 m (<[kkey q := q]> m) /\ pending ns (<[kkey q := q]> m) comp0.
Proof.
  intros Hok Hnone Hsim Hno. pose proof Hsim as (_ & _ & _ & Hc). rewrite Hcomp0 in Hc.
  pose proof (queue_wf_similar _ _ _ Hsim Hqueue) as Hwf.
  apply Permutation_singleton_l in Hc. symmetry in Hc. split.
  - apply on_behalf_insert; [done|done| | |].
    + intros k q' nm Hk Hkns _ Hin. unfold names_of in Hin. rewrite Hc in Hin.
      apply list_elem_of_singleton in Hin as ->. eauto.
    + intros c' Hc'. rewrite Hnone, Hc, list_elem_of_singleton. naive_solver.
    + intros c' _. rewrite Hc, list_elem_of_singleton. auto.
  - exists (kkey q), q. rewrite lookup_insert_eq, Hc. split_and!; [done|apply Hwf|set_solver].
Qed.

(** The branch of a queue that is already there. *)
Lemma wp_requeue atTop pQueue items w0 (s : W * Queue) :
  on_behalf ns comp0 (kview Queue w0) (kview Queue (fst s)) ->
  tracks ns (kview Queue (fst s)) [pQueue] -> comp0 ∈ comps_of pQueue -> items <> [] ->
  wp (do top <- index items 0;
      do pComp <- index (qs_Components (queue_Spec pQueue)) 0;
      let isQueueOnTop := ContainSameComponent top (qs_Name (queue_Spec pQueue)) pComp in
      do pQueue <- (if atTop && negb isQueueOnTop then
                      do ' (n, _) <- onW (TopQueueOrder items);
                      mret (set_order n pQueue)
                    else mret pQueue);
      onW (k_update (over_components SortComponents pQueue))) s (outcome_ok w0).
Proof.
  intros Hob Htr Hin Hne. wp_step. wp_step.
  destruct items as [|top items']; [done|]. simpl lookup. cbv iota.
  wp_step. wp_step.
  destruct (qs_Components (queue_Spec pQueue)) as [|pComp pComps] eqn:Hpc.
  { unfold comps_of in Hin. rewrite Hpc in Hin. by apply elem_of_nil in Hin. }
  simpl lookup. cbv iota zeta.
  assert (forall q w, similar pQueue q -> kview Queue w = kview Queue (fst s) ->
    wp (onW (k_update (over_components SortComponents q))) (w, snd s) (outcome_ok w0)) as Hupd.
  { intros q w Hsim Hw. apply wp_onW. simpl.
    assert (similar q (over_components SortComponents q)) as Hsim'.
    { unfold similar. split_and!; [done..|]. symmetry. apply go_sort_perm. }
    destruct (Htr pQueue) as (Hk & q0 & Hq0 & Hs0); [set_solver|].
    assert (similar q0 (over_components SortComponents q)) as Hs by (by rewrite Hs0, Hsim).
    set (q' := over_components SortComponents q) in *.
    assert (kkey q' = kkey pQueue) as Hkk by (symmetry; apply kkey_similar; by rewrite Hsim).
    assert (kns q' = ns) as Hkn by (unfold kkey in Hkk; congruence).
    assert (similar pQueue q') as Hpq by (by rewrite Hsim).
    apply wp_k_update.
    - intros w' _ Hw'. rewrite store_update_plain in Hw'; last first.
      { change (om_DeletionTimestamp (queue_Meta q') = None).
        destruct Hs as (<- & _). apply (qw_alive ns). eapply so_wf; [apply Hob|done|done]. }
      rewrite Hw in Hw'. unfold outcome_ok. split_and!; [done| |].
      + eapply on_behalf_trans; [done|]. simpl. rewrite Hw'.
        eapply on_behalf_similar; [apply Hob|by rewrite Hkk|done|done].
      + intros _. right. simpl. rewrite Hw'. exists (kkey q'), q'.
        rewrite lookup_insert_eq. split_and!; [done|done|].
        destruct Hpq as (_ & _ & _ & <-). done.
    - intros e w' Hw'. apply outcome_err. simpl. by rewrite Hw', Hw. }
  wp_step. destruct (_ && _).
  - wp_step. apply wp_onW, wp_Top_frame. intros n items'' w' _ Hw'. simpl in Hw'.
    wp_step. by apply Hupd.
  - wp_step. destruct s. by apply Hupd.
Qed.

(** The branch of a queue that is not there yet. *)
Lemma wp_enqueue atTop prio t b items w0 w1 :
  on_behalf ns comp0 (kview Queue w0) (kview Queue w1) ->
  tracks ns (kview Queue w1) items ->
  (b = true -> pending ns (kview Queue w1) comp0) ->
  (b = false -> forall k q, kview Queue w1 !! k = Some q -> k.1 = ns ->
     qc_Name comp0 ∉ names_of q) ->
  wp (do ' (updating, items) <- setQueueOrderFollowingPriorityQueues comp0 items prio;
      run for_each updating (fun q => onW (k_update q));
      if b then mret tt else
      run (if (atTop : bool) then
             do ' (n, _) <- onW (TopQueueOrder items);
             mod_obj (set_order n)
           else mret tt);
      run mod_obj (fun q => over_components SortComponents
             (q <| queue_Status ::= fun s => s <| qst_State := Waiting |>
                    <| qst_CreatedAt := Some t |> <| qst_UpdatedAt := Some t |> |>));
      do queue <- get_obj;
      onW (k_create queue)) (w1, queue) (outcome_ok w0).
Proof.
  intros Hob Htr Hb1 Hb0. wp_step.
  assert (forall updating items' q w2, similar queue q ->
    kview Queue w2 = kview Queue w1 -> tracks ns (kview Queue w1) updating ->
    wp (run for_each updating (fun q => onW (k_update q));
        if b then mret tt else
        run (if (atTop : bool) then
               do ' (n, _) <- onW (TopQueueOrder items');
               mod_obj (set_order n)
             else mret tt);
        run mod_obj (fun q => over_components SortComponents
               (q <| queue_Status ::= fun s => s <| qst_State := Waiting |>
                      <| qst_CreatedAt := Some t |> <| qst_UpdatedAt := Some t |> |>));
        do queue <- get_obj;
        onW (k_create queue)) (w2, q) (outcome_ok w0)) as Hrest; last first.
  { eapply wp_setQueueOrder; [done| |].
    - intros updating items' n w2 Hw2 Hu. apply Hrest; done.
    - intros updating items' w2 Hw2 Hu. apply Hrest; done. }
  intros updating items' q w2 Hsim Hw2 Hu. wp_step.
  eapply wp_ext; [intros s; apply (onW_for_each updating (fun q => k_update q) s)|].
  apply wp_onW. simpl. apply (wp_reorder ns comp0).
  { rewrite Hw2. apply Hob. }
  { by rewrite Hw2. }
  rewrite Hw2. intros r w3 Hr Hob3 Hp3 Htr3.
  assert (on_behalf ns comp0 (kview Queue w0) (kview Queue w3)) as Hob03.
  { by eapply on_behalf_trans. }
  destruct r as [[]|e|p]; [|by apply outcome_err|by destruct (Hr p)].
  destruct b.
  { wp_step. unfold outcome_ok. split_and!; [done|done|]. intros _. right. apply Hp3. auto. }
  assert (forall k q', kview Queue w3 !! k = Some q' -> k.1 = ns -> qc_Name comp0 ∉ names_of q') as Hno.
  { intros k q' Hk Hkns (c' & Hin & Hcn)%elem_of_names.
    assert (pending ns (kview Queue w3) c') as (k1 & q1 & Hk1 & Hkns1 & Hin1)%Hp3 by (by exists k, q').
    apply (Hb0 eq_refl k1 q1); [done|done|]. apply elem_of_names. eauto. }
  assert (forall q w4, similar queue q -> kview Queue w4 = kview Queue w3 ->
    wp (run mod_obj (fun q => over_components SortComponents
               (q <| queue_Status ::= fun s => s <| qst_State := Waiting |>
                      <| qst_CreatedAt := Some t |> <| qst_UpdatedAt := Some t |> |>));
        do queue <- get_obj;
        onW (k_create queue)) (w4, q) (outcome_ok w0)) as Hcreate.
  { clear q Hsim. intros q w4 Hsim Hw4. wp_step. wp_step. wp_step. wp_step. simpl.
    apply wp_onW. simpl.
    match goal with |- wp (k_create ?q) _ _ => set (q' := q) end.
    assert (similar queue q') as Hsim'.
    { rewrite Hsim. unfold similar. split_and!; [done..|]. symmetry. apply go_sort_perm. }
    apply wp_k_create.
    - intros w5 Hnone Hw5. rewrite Hw4 in Hnone, Hw5.
      destruct (on_behalf_create (kview Queue w3) q') as [Hob5 Hp5];
        [apply Hob3|done|done|done|].
      unfold outcome_ok. simpl. rewrite Hw5. split_and!; [done| |by right].
      by eapply on_behalf_trans.
    - intros e w5 _ Hw5. apply outcome_err. simpl. by rewrite Hw5, Hw4. }
  wp_step. destruct atTop.
  - wp_step. apply wp_onW, wp_Top_frame. intros n items'' w4 _ Hw4. simpl in Hw4.
    wp_step. simpl. by apply Hcreate.
  - wp_step. simpl. by apply Hcreate.
Qed.

Lemma wp_lift_first_pass items (k : QueueList -> M (W * Queue) unit) s Q :
  wp (first_pass comp0 queue items) (fst s) (fun r w' =>
    match r with
    | Ok items' => wp (k items') (w', snd s) Q
    | Err e => Q (Err e) (w', snd s)
    | Panic p => Q (Panic p) (w', snd s)
    end) ->
  wp (let '(removing, updating, items) := removeAndUpdateSimilarQueue queue comp0 items in
      run for_each removing (fun q => onW (k_delete q));
      do items <- onW (update_slots prepare_similar updating 0 items);
      k items) s Q.
Proof.
  intros H. apply (wp_ext (do items <- onW (first_pass comp0 queue items); k items)).
  - intros s'. unfold first_pass.
    destruct (removeAndUpdateSimilarQueue queue comp0 items) as [[r u] it].
    rewrite (bind_ext _ (run onW (for_each r (fun q => k_delete q)); onW (update_slots prepare_similar u 0 it))
               _ k); [|intros; apply onW_bind|done].
    rewrite bind_assoc. apply bind_ext; [|done]. intros s''.
    apply (onW_for_each r (fun q => k_delete q)).
  - wp_step. by apply wp_onW.
Qed.

Lemma wp_lift_second_pass items (k : bool -> QueueList -> M (W * Queue) unit) s Q :
  wp (second_pass comp0 queue items) (fst s) (fun r w' =>
    match r with
    | Ok (b, items') => wp (k b items') (w', snd s) Q
    | Err e => Q (Err e) (w', snd s)
    | Panic p => Q (Panic p) (w', snd s)
    end) ->
  wp (let (updating, items) := addExistingBundleQueue queue comp0 items in
      let isAlreadyInBundle := existsb (fun q => negb (String.eqb (kname q) "")) updating in
      do items <- onW (update_slots prepare_bundle updating 0 items);
      k isAlreadyInBundle items) s Q.
Proof.
  intros H. apply (wp_ext (do r <- onW (second_pass comp0 queue items); k (fst r) (snd r))).
  - intros s'. unfold second_pass. destruct (addExistingBundleQueue queue comp0 items) as [u it].
    cbv zeta. rewrite (bind_ext _ (do items' <- onW (update_slots prepare_bundle u 0 it);
        onW (mret (existsb (fun q => negb (String.eqb (kname q) "")) u, items'))) _
        (fun r => k (fst r) (snd r))); [|intros; apply onW_bind|done].
    rewrite bind_assoc. apply bind_ext; [done|]. intros items' s''. by destruct s''.
  - wp_step. apply wp_onW. eapply wp_mono; [exact H|]. by intros [[b items']|e|p] w'.
Qed.

(** The rest of [add]. *)
Definition after_passes (atTop : bool) (priorityQueues : list string) (inQueue : option Queue)
    (isAlreadyInBundle : bool) items : M (W * Queue) unit :=
  do items <- onW (Sort items);
  do t <- onW now;
  match inQueue with
  | Some pQueue =>
      do top <- index items 0;
      do pComp <- index (qs_Components (queue_Spec pQueue)) 0;
      let isQueueOnTop := ContainSameComponent top (qs_Name (queue_Spec pQueue)) pComp in
      do pQueue <- (if atTop && negb isQueueOnTop then
                      do ' (n, _) <- onW (TopQueueOrder items);
                      mret (set_order n pQueue)
                    else mret pQueue);
      onW (k_update (over_components SortComponents pQueue))
  | None =>
      do ' (updating, items) <- setQueueOrderFollowingPriorityQueues comp0 items priorityQueues;
      run for_each updating (fun q => onW (k_update q));
      if isAlreadyInBundle then mret tt else
      run (if atTop then
             do ' (n, _) <- onW (TopQueueOrder items);
             mod_obj (set_order n)
           else mret tt);
      run mod_obj (fun q => over_components SortComponents
             (q <| queue_Status ::= fun s => s <| qst_State := Waiting |>
                    <| qst_CreatedAt := Some t |> <| qst_UpdatedAt := Some t |> |>));
      do queue <- get_obj;
      onW (k_create queue)
  end.

(** [add] on every path. *)
Lemma wp_add atTop prio w0 :
  store_ok ns (kview Queue w0) -> wp (add c atTop prio) (w0, queue) (outcome_ok w0).
Proof.
  intros Hok0. lazy beta delta [add]. wp_step. wp_step. wp_fst.
  pose proof Hcomp0 as Hc0. unfold comps_of in Hc0. rewrite Hc0. clear Hc0.
  wp_step. rewrite (qw_ns _ _ Hqueue). apply wp_onW. wp_fst.
  assert (Preserves (listQueues c (Some (InNamespace ns))) (kview StableComponent)).
  { unfold listQueues. apply bind_preserves; [apply _|]. intros []; apply _. }
  apply (wp_preserve (kview StableComponent)); [done|].
  apply wp_listQueues; [done|done| |].
  2:{ intros e w' Hw' _. apply outcome_err. simpl. rewrite Hw'. by apply on_behalf_refl. }
  intros items w1 Hsy Hw1 Hst. wp_step. apply wp_onW. wp_fst.
  eapply wp_isMatch; [done| |]; last first.
  { intros e w' Hw'. apply outcome_err. simpl. rewrite Hw', Hw1. by apply on_behalf_refl. }
  intros b w2 Hw2 Hmatch. rewrite Hw1 in Hw2.
  destruct b.
  { wp_step. unfold outcome_ok. simpl. rewrite Hw2. split_and!; [done|by apply on_behalf_refl|].
    intros _. left. split; [|done]. eapply already_stable_frame; [exact Hst|auto]. }
  wp_let. fold (in_queue comp0 queue items).
  apply wp_lift_first_pass. wp_fst.
  apply (wp_first_pass ns comp0 queue Hqueue Hcomp0 Hns); [by rewrite Hw2..| |]; rewrite Hw2; last first.
  { intros e w' Hob. by apply outcome_err. }
  intros items3 w3 Hob3 Hsy3 Hset.
  apply (wp_lift_second_pass items3 (after_passes atTop prio (in_queue comp0 queue items))). wp_fst.
  apply (wp_second_pass ns comp0 queue Hqueue Hcomp0 Hns (in_queue comp0 queue items));
    [apply Hob3|done|done| |]; last first.
  { intros e w' Hob. apply outcome_err. simpl. by eapply on_behalf_trans. }
  intros b items4 w4 Hob4 Hsy4 Hfalse Htrue HpQ.
  assert (on_behalf ns comp0 (kview Queue w0) (kview Queue w4)) as Hob04 by (by eapply on_behalf_trans).
  unfold after_passes. wp_step. apply wp_onW, wp_Sort_frame. intros items5 w5 Hp5 Hw5. simpl in Hw5.
  wp_step. apply wp_onW, wp_now_frame. intros t w6 Hw6. simpl in Hw6.
  rewrite Hw5 in Hw6. wp_fst.
  destruct (in_queue comp0 queue items) as [pQueue|] eqn:Hin.
  - assert (b = false) as -> by auto. destruct (Hfalse eq_refl) as [-> Hw4].
    destruct Hset as (l1 & l2 & -> & Hsame & _).
    apply contain_same_name in Hsame as [Hc _].
    apply wp_requeue; simpl; rewrite ?Hw6; [done| |done|].
    + eapply tracks_subset; [|by apply synced_tracks].
      intros q ->%list_elem_of_singleton. set_solver.
    + intros ->. apply Permutation_nil_l in Hp5. by destruct l1.
  - apply wp_enqueue; rewrite ?Hw6; [done| |done|].
    + eapply tracks_subset; [|by apply synced_tracks]. intros q. by rewrite Hp5.
    + intros Hb k q Hk Hkns. destruct (Hfalse Hb) as [-> _]. apply Hset.
      apply (sy_elem _ _ _ Hsy4). rewrite (so_keyed _ _ (ob_ok _ _ _ _ Hob04) _ _ Hk).
      split; [done|]. apply (so_wf _ _ (ob_ok _ _ _ _ Hob04) _ _ Hk Hkns).
Qed.
End add.
End refinement.

Lemma length_filter_ne (x : string) l :
  NoDup l -> x ∈ l -> length (filter (fun y => y <> x) l) = pred (length l).
Proof.
  induction 1 as [|y l Hy Hnd IH]; [by intros ?%elem_of_nil|].
  destruct (decide (y = x)) as [->|Hne].
  - intros _. rewrite filter_cons_False by auto. simpl. rewrite filter_all; [done|].
    apply Forall_forall. by intros z Hz ->.
  - intros [->|Hx]%elem_of_cons; [done|]. rewrite filter_cons_True by done. simpl.
    rewrite IH by done. destruct l; [by apply elem_of_nil in Hx|done].
Qed.

(** A name has one pending version. *)
Lemma pending_functional ns m c1 c2 :
  store_ok ns m -> pending ns m c1 -> pending ns m c2 -> qc_Name c1 = qc_Name c2 -> c1 = c2.
Proof.
  intros Hok (k1 & q1 & Hk1 & Hns1 & Hin1) (k2 & q2 & Hk2 & Hns2 & Hin2) Heq.
  assert (k1 = k2) as ->.
  { eapply (so_unique _ _ Hok k1 k2); [done..| |]; apply elem_of_names; eauto. }
  pose proof (qw_nodup _ _ (so_wf _ _ Hok _ _ Hk1 Hns1)) as Hnd. simplify_eq.
  apply list_elem_of_lookup in Hin1 as [i Hi], Hin2 as [j Hj].
  assert (i = j) as ->; [|congruence].
  eapply NoDup_lookup; [exact Hnd| |]; unfold names_of; rewrite list_lookup_fmap.
  - by rewrite Hi.
  - by rewrite Hj, Heq.
Qed.

(** ** Properties *)

Section properties.
Context {W : Type} `{GR : GoRuntime W} `{GS : GoSort}.
Context `{KQ : KClient W Queue} `{KV : KView W Queue} `{KL : !KClientLaws W Queue}.
Context `{KS : KClient W StableComponent} `{KVS : KView W StableComponent}.
Context `{KLS : !KClientLaws W StableComponent}.
Context `{RF : !RuntimeFrame W (kview Queue)}.
Context `{FS : !KFrame W StableComponent (kview Queue)}.
Context `{FQ : !KFrame W Queue (kview StableComponent)}.
Implicit Types (w : W) (q queue : Queue) (items : QueueList).

(** C15: on a namespace whose queues are well formed and share no component, [add]
    never panics, keeps the namespace so, touches neither the other components nor
    the other namespaces (even when a call fails half-way), and when it returns
    without error either the version is the stable one and nothing changed, or the
    wanted version is pending and no other version of the component is. *)
Theorem add_inserts ns comp0 c queue atTop prio w r w' queue' :
  ns <> "" -> store_ok ns (kview Queue w) ->
  queue_wf ns queue -> comps_of queue = [comp0] ->
  add c atTop prio (w, queue) = (r, (w', queue')) ->
  (forall p, r <> Panic p) /\
  store_ok ns (kview Queue w') /\
  (forall comp, qc_Name comp <> qc_Name comp0 ->
     pending ns (kview Queue w') comp <-> pending ns (kview Queue w) comp) /\
  (forall k, k.1 <> ns -> kview Queue w' !! k = kview Queue w !! k) /\
  (r = Ok tt ->
     already_stable c w comp0 /\ kview Queue w' = kview Queue w \/
     (forall comp, qc_Name comp = qc_Name comp0 ->
        pending ns (kview Queue w') comp <-> comp = comp0)).
Proof.
  intros Hns Hok Hwf Hc Heq.
  pose proof (wp_run _ _ _ _ _ (wp_add ns comp0 queue c Hwf Hc Hns atTop prio w Hok) Heq)
    as (Hp & [Hok' Hothers Hnew Helse] & Hfin).
  simpl in *. split_and!; [done..|]. intros Hr. destruct (Hfin Hr); [by left|].
  right. intros comp Hn. split; [|by intros ->]. intros Hpend. by eapply pending_functional.
Qed.

Lemma renumber_spec current count items :
  2 <= count -> count + Z.of_nat (length items) < 2 ^ 63 ->
  let items' := renumber current count items in
  Forall2 similar items items' /\
  Forall (fun q => kname q = current -> order_of q = 1) items' /\
  order_of <$> filter (fun q => kname q <> current) items'
  = seqZ count (Z.of_nat (length (filter (fun q => kname q <> current) items'))).
Proof.
  revert count. induction items as [|q items IH]; intros count H2 Hmax; simpl; [done|].
  simpl in Hmax. destruct (String.eqb_spec (kname q) current) as [Hc|Hc].
  - destruct (IH count) as (HF & Ha & Hs); [lia..|].
    split_and!; [by constructor|by constructor|].
    by rewrite filter_cons_False by (by intros []).
  - rewrite int_add_id by (unfold in64; lia).
    destruct (IH (count + 1)) as (HF & Ha & Hs); [lia..|].
    split_and!; [by constructor|constructor; [by intros|done]|].
    rewrite filter_cons_True by done. rewrite fmap_cons, Hs. simpl length.
    rewrite (seqZ_cons count) by lia. f_equal. f_equal; lia.
Qed.

(** [resetQueueOrderWithCurrentQueue] gives the current queue the number 1 and
    the others the numbers 2, 3, ... in the order of the list; it touches nothing
    else and does not panic when the pointer is in the list. *)
Theorem reset_order_numbers ql cur current w :
  ql !! cur = Some current -> NoDup (kname <$> ql) -> Z.of_nat (length ql) < 2 ^ 62 ->
  exists sorted items w',
    resetQueueOrderWithCurrentQueue ql (Some cur) w = (Ok items, w') /\
    sorted ≡ₚ ql /\ (exists t, StronglySorted (precedes t) sorted) /\
    Forall2 similar sorted items /\
    exists first, sorted !! cur = Some first /\
      Forall (fun q => kname q = kname first -> order_of q = 1) items /\
      order_of <$> filter (fun q => kname q <> kname first) items
      = seqZ 2 (Z.of_nat (length ql) - 1).
Proof.
  intros Hcur Hnd Hlen.
  destruct (wp_total (resetQueueOrderWithCurrentQueue ql (Some cur)) w
    (fun items _ => exists sorted first, sorted ≡ₚ ql /\ (exists t, StronglySorted (precedes t) sorted) /\
       sorted !! cur = Some first /\ items = renumber (kname first) 2 sorted))
    as (items & w' & Heq & sorted & first & Hp & Hs & Hf & ->).
  { unfold resetQueueOrderWithCurrentQueue. wp_step. apply wp_Sort.
    intros t w' sorted _ _ Hp Hs.
    assert (is_Some (sorted !! cur)) as [first Hf].
    { apply lookup_lt_is_Some. rewrite Hp. by eapply lookup_lt_Some. }
    destruct sorted as [|q sorted']; [done|].
    wp_step. wp_step. wp_step. wp_step. rewrite Hf. wp_step.
    eexists. split; [done|]. exists (q :: sorted'), first. eauto. }
  pose proof (renumber_spec (kname first) 2 sorted) as Hr.
  rewrite Hp in Hr. specialize (Hr ltac:(lia) ltac:(lia)) as (HF & Ha & Ho).
  exists sorted, (renumber (kname first) 2 sorted), w'. split_and!; [done..|].
  exists first. split_and!; [done..|]. rewrite Ho. f_equal.
  rewrite (length_filter_map (kname (T:=Queue)) (fun n => n <> kname first)).
  assert (kname <$> renumber (kname first) 2 sorted = kname <$> sorted) as ->.
  { clear -HF. induction HF as [|q q' l l' Hq _ IH]; [done|]. rewrite !fmap_cons, IH.
    f_equal. symmetry. by apply similar_refl_meta. }
  rewrite (length_filter_ne (kname first)).
  - rewrite length_fmap, Hp. apply lookup_lt_Some in Hcur. lia.
  - by rewrite Hp.
  - apply list_elem_of_fmap_2. by eapply list_elem_of_lookup_2.
Qed.

(** [ensureQueue] leaves the named queue in the cluster and in its argument: it
    takes over the stored specification and status when the queue is there, and
    creates the queue it was given when it is not; no other queue changes. *)
Theorem ensureQueue_spec q w r w' q' :
  ensureQueue (w, q) = (r, (w', q')) ->
  (forall p, r <> Panic p) /\
  (r = Ok tt ->
     (exists old, kview Queue w !! kkey q = Some old /\ kview Queue w' = kview Queue w /\
        q' = mkQueue (queue_Meta q) (queue_Spec old) (queue_Status old)) \/
     (kview Queue w !! kkey q = None /\ kview Queue w' = <[kkey q := q]> (kview Queue w) /\
        q' = q)) /\
  (r <> Ok tt -> kview Queue w' = kview Queue w /\ q' = q).
Proof.
  change (kkey q) with (kns q, kname q).
  apply (wp_run ensureQueue (w, q) r (w', q') (fun r s => (forall p, r <> Panic p) /\
    (r = Ok tt -> (exists old, _ /\ kview Queue (fst s) = _ /\ snd s = _) \/
       (_ /\ kview Queue (fst s) = _ /\ snd s = _)) /\
    (r <> Ok tt -> kview Queue (fst s) = _ /\ snd s = _))).
  unfold ensureQueue. wp_step. wp_step. wp_step. wp_step. apply wp_onW. simpl.
  apply wp_k_get.
  - intros old w1 Hold Hw1. wp_step. wp_step. wp_step. simpl.
    split_and!; [done| |done]. intros _. left. exists old. by destruct q.
  - intros e w1 Hnone Hw1. destruct (IsNotFound e) eqn:He; wp_step; [simpl|by split_and!].
    apply wp_k_create.
    + intros w2 _ Hw2. split_and!; [done| |done]. intros _. right. rewrite Hw2, Hw1. auto.
    + intros e' w2 _ Hw2. split_and!; [done..|]. intros _. split; [congruence|done].
Qed.

(** [deleteQueue] succeeds on a queue that is not there; when it succeeds, a queue
    that no finalizer holds is gone and no other queue changed; when it fails,
    nothing changed. *)
Theorem deleteQueue_spec ns name w r w' :
  deleteQueue ns name w = (r, w') ->
  (forall q, kview Queue w !! (ns, name) = Some q -> om_Finalizers (queue_Meta q) = []) ->
  (forall p, r <> Panic p) /\
  (r = Ok tt -> kview Queue w' = delete (ns, name) (kview Queue w)) /\
  (r <> Ok tt -> kview Queue w' = kview Queue w).
Proof.
  intros Heq Hfin. revert Heq.
  apply (wp_run _ w r w' (fun r w' => (forall p, r <> Panic p) /\
    (r = Ok tt -> kview Queue w' = _) /\ (r <> Ok tt -> kview Queue w' = _))).
  unfold deleteQueue. wp_step. wp_step. apply wp_k_delete; [done| |].
  - intros w1 _ Hw1. wp_step. split_and!; [done..|]. by intros [].
  - intros e w1 Hnone Hw1. destruct (IsNotFound e) eqn:He; wp_step; [|by split_and!].
    split_and!; [done| |done]. intros _. rewrite Hw1, delete_id; [done|]. by apply Hnone.
Qed.

(** [SetRetryQueue] stores the queue as a component upgrade that waits until the
    given instant with the given number of retries; of its status only the count of
    runs survives, and its number comes from [LastQueueOrder]. *)
Theorem SetRetryQueue_stores c q noOfRetry nextAt w r w' obj' :
  om_DeletionTimestamp (queue_Meta q) = None ->
  SetRetryQueue c noOfRetry nextAt (w, QueueObject q) = (r, (w', obj')) ->
  (forall p, r <> Panic p) /\
  (r = Ok tt -> exists q' t n,
     obj' = QueueObject q' /\ kview Queue w' !! kkey q = Some q' /\
     queue_Meta q' = queue_Meta q /\ comps_of q' = comps_of q /\
     queue_Status q' = fresh_status t (queue_Status q) /\
     qst_State (queue_Status q') = Waiting /\ qst_Conditions (queue_Status q') = [] /\
     qst_NoOfProcessed (queue_Status q') = qst_NoOfProcessed (queue_Status q) /\
     queue_Spec q' = (queue_Spec q) <| qs_NextProcessAt := Some nextAt |>
       <| qs_NoOfRetry := noOfRetry |> <| qs_Type := QueueTypeUpgrade |> <| qs_NoOfOrder := n |>).
Proof.
  intros Halive. unfold SetRetryQueue, on_queue. simpl.
  match goal with |- (match ?m (w, q) with _ => _ end = _ -> _) =>
    destruct (m (w, q)) as [r1 [w1 q1]] eqn:Heq end.
  intros [= -> -> <-]. revert Heq.
  apply (wp_run _ (w, q) r (w', q1) (fun r s => (forall p, r <> Panic p) /\ (r = Ok tt ->
    exists q' t n, QueueObject (snd s) = _ /\ kview Queue (fst s) !! _ = _ /\ _))).
  wp_step. wp_step. wp_step. apply wp_onW. simpl. unfold listQueues. cbv zeta. simpl.
  wp_step. wp_step. apply wp_k_list; last first.
  { intros e w2 _. wp_step. done. }
  intros items w2 _ _. wp_step. wp_step. apply wp_onW, wp_now_frame. intros t w3 _. simpl.
  wp_step. wp_step. wp_step. wp_step. wp_step. apply wp_onW, wp_Last_frame.
  intros n items' w4 _ _. simpl. wp_step. wp_step. wp_step. wp_step. apply wp_onW. simpl.
  apply wp_k_update; [|done]. intros w5 _ Hw5. split; [done|]. intros _.
  eexists _, t, n. split; [done|]. rewrite Hw5, store_update_plain by done.
  split; [apply lookup_insert_eq|]. by split_and!.
Qed.
End properties.

(** the two verdicts of a report agree: a missing image is named first; without
    one, the verdict on a reverification is "environment issue" exactly when its
    status is a failure, and every other run blames the desired version. *)
Theorem report_verdicts missing queue :
  (getIssueTypeRPC missing queue = IssueType_IMAGE_MISSING <-> missing <> []) /\
  (missing = [] ->
     (getIssueTypeRPC missing queue = IssueType_ENVIRONMENT_ISSUE <->
      getReverificationStatusRPC queue = ReverificationStatus_FAILURE) /\
     (getReverificationStatusRPC queue <> ReverificationStatus_FAILURE ->
      getIssueTypeRPC missing queue = IssueType_DESIRED_VERSION_FAILED)) /\
  (getReverificationStatusRPC queue = ReverificationStatus_FAILURE <->
     qs_Type (queue_Spec queue) = QueueTypeReverify /\
     ~ (IsConditionTrue (queue_Status queue) QueueDeployed = true /\
        IsConditionTrue (queue_Status queue) QueueTested = true)).
Proof.
  unfold getIssueTypeRPC, getReverificationStatusRPC, IsReverify, IsDeploySuccess, IsTestSuccess.
  destruct missing as [|img missing]; simpl;
    destruct (decide (qs_Type (queue_Spec queue) = QueueTypeReverify)) as [Ht|Ht];
    [rewrite bool_decide_true by done|rewrite bool_decide_false by done| |]; simpl;
    try rewrite (bool_decide_true _ Ht); try rewrite (bool_decide_false _ Ht); simpl;
    destruct (IsConditionTrue (queue_Status queue) QueueDeployed),
      (IsConditionTrue (queue_Status queue) QueueTested); simpl; naive_solver.
Qed.

(** ** A cluster for concrete runs *)

Record QueueSim := mkQueueSim {
  qsim_clock : Z;
  qsim_queues : gmap (string * string) Queue;
  qsim_stables : gmap (string * string) StableComponent;
}.

#[export] Instance qsim_has_clock : HasClock QueueSim :=
  {| clock_get := qsim_clock;
     clock_set t w := mkQueueSim t (qsim_queues w) (qsim_stables w) |}.
#[export] Instance qsim_queue_store : HasStore QueueSim Queue :=
  {| store_get := qsim_queues;
     store_set m w := mkQueueSim (qsim_clock w) m (qsim_stables w);
     store_get_set _ _ := eq_refl |}.
#[export] Instance qsim_stable_store : HasStore QueueSim StableComponent :=
  {| store_get := qsim_stables;
     store_set m w := mkQueueSim (qsim_clock w) (qsim_queues w) m;
     store_get_set _ _ := eq_refl |}.
#[export] Instance qsim_runtime_frame : RuntimeFrame QueueSim (kview Queue).
Proof. by apply sim_runtime_frame. Qed.
#[export] Instance qsim_stable_frame : KFrame QueueSim StableComponent (kview Queue).
Proof. by apply mem_frame. Qed.
#[export] Instance qsim_queue_frame : KFrame QueueSim Queue (kview StableComponent).
Proof. by apply mem_frame. Qed.
#[local] Existing Instance insertion_GoSort.

Definition comp_a : QueueComponent := mkQueueComponent "a" "repo/a" "1.0".
Definition comp_a2 : QueueComponent := mkQueueComponent "a" "repo/a" "2.0".
Definition comp_b : QueueComponent := mkQueueComponent "b" "repo/b" "1.0".

Definition queue_of (name bundle : string) (comps : QueueComponents) (order : Z) : Queue :=
  set_order order (NewQueue "team" "staging" name bundle comps QueueTypeUpgrade)
    <| queue_Status ::= fun s => s <| qst_State := Waiting |> |>.

Definition store_of (l : list Queue) : gmap (string * string) Queue :=
  list_to_map ((fun q => (kkey q, q)) <$> l).

(** A bundle of [a] and [b] waits; version 2.0 of [a] arrives on its own. *)
Definition sim0 : QueueSim :=
  mkQueueSim 100 (store_of [queue_of "bun" "bun" [comp_a; comp_b] 1]) ∅.
Definition incoming : Queue := NewQueue "team" "staging" "a" "" [comp_a2] QueueTypeUpgrade.

Lemma sim0_lookup k q :
  kview Queue sim0 !! k = Some q ->
  q = queue_of "bun" "bun" [comp_a; comp_b] 1 /\ k = ("staging", "bun").
Proof.
  intros [Hq _]%well_filed_lookup.
  change (<[("staging", "bun") := queue_of "bun" "bun" [comp_a; comp_b] 1]>
    (∅ : gmap (string * string) Queue) !! k = Some q) in Hq.
  apply lookup_insert_Some in Hq as [[<- <-]|[_ Hq]]; [done|]. by rewrite lookup_empty in Hq.
Qed.

Lemma sim0_ok : store_ok "staging" (kview Queue sim0).
Proof.
  split.
  - intros k q [-> ->]%sim0_lookup _. split; try done. compute_done.
  - intros k q [-> ->]%sim0_lookup. done.
  - intros k1 k2 q1 q2 n [-> ->]%sim0_lookup [-> ->]%sim0_lookup. done.
Qed.

Lemma incoming_wf : queue_wf "staging" incoming.
Proof. split; try done; compute_done. Qed.

Lemma add_inserts_witness :
  let s := snd (add (New "staging") false [] (sim0, incoming)) in
  fst (add (New "staging") false [] (sim0, incoming)) = Ok tt /\
  (forall comp, qc_Name comp = qc_Name comp_a2 ->
     pending "staging" (kview Queue (fst s)) comp <-> comp = comp_a2) /\
  (pending "staging" (kview Queue (fst s)) comp_b <-> pending "staging" (kview Queue sim0) comp_b).
Proof.
  destruct (add (New "staging") false [] (sim0, incoming)) as [r [w' q']] eqn:Heq.
  destruct (add_inserts "staging" comp_a2 (New "staging") incoming false [] sim0 r w' q')
    as (_ & _ & Hothers & _ & Hfin); [done|apply sim0_ok|apply incoming_wf|done|done|].
  assert (r = Ok tt) as Hr by (change r with (fst (r, (w', q'))); rewrite <- Heq; by vm_compute).
  destruct (Hfin Hr) as [[(sc & Hsc & _) _]|Hp]; [|by split_and!; [|exact Hp|apply Hothers]].
  by vm_compute in Hsc.
Defined.

Definition two_queues : QueueList :=
  [queue_of "b" "" [comp_b] 5; queue_of "a" "" [comp_a] 3].

Lemma reset_order_numbers_witness :
  exists sorted items w',
    resetQueueOrderWithCurrentQueue two_queues (Some 1%nat) sim0 = (Ok items, w') /\
    sorted ≡ₚ two_queues /\ (exists t, StronglySorted (precedes t) sorted) /\
    Forall2 similar sorted items /\
    exists first, sorted !! 1%nat = Some first /\
      Forall (fun q => kname q = kname first -> order_of q = 1) items /\
      order_of <$> filter (fun q => kname q <> kname first) items
      = seqZ 2 (Z.of_nat (length two_queues) - 1).
Proof.
  apply (reset_order_numbers two_queues 1 (queue_of "a" "" [comp_a] 3) sim0); [done| |done].
  compute_done.
Defined.

Lemma ensureQueue_spec_witness :
  exists q', fst (ensureQueue (sim0, q')) = Ok tt /\
    kview Queue (fst (snd (ensureQueue (sim0, q')))) = <[kkey q' := q']> (kview Queue sim0).
Proof.
  exists (promotion_queue EnvPreActive QueueTypePreActive "team" "pre" false).
  destruct (ensureQueue (sim0, promotion_queue EnvPreActive QueueTypePreActive "team" "pre" false))
    as [r [w' q']] eqn:Heq.
  assert (r = Ok tt) as Hr by (change r with (fst (r, (w', q'))); rewrite <- Heq; by vm_compute).
  destruct (ensureQueue_spec _ _ _ _ _ Heq) as (_ & Hok & _).
  destruct (Hok Hr) as [(old & Hold & _)|(_ & Hv & _)]; [by vm_compute in Hold|]. by split.
Defined.

Lemma deleteQueue_spec_witness :
  kview Queue (snd (deleteQueue "staging" "bun" sim0)) = delete ("staging", "bun") (kview Queue sim0).
Proof.
  destruct (deleteQueue "staging" "bun" sim0) as [r w'] eqn:Heq.
  destruct (deleteQueue_spec "staging" "bun" sim0 r w' Heq) as (_ & Hok & _).
  - by intros q [-> _]%sim0_lookup.
  - apply Hok. change r with (fst (r, w')). rewrite <- Heq. by vm_compute.
Defined.

Lemma SetRetryQueue_stores_witness :
  exists q' t n, kview Queue (fst (snd (SetRetryQueue (New "staging") 2 500
      (sim0, QueueObject (queue_of "bun" "bun" [comp_a; comp_b] 1))))) !! ("staging", "bun") = Some q' /\
    queue_Status q' = fresh_status t zeroQueueStatus /\ n = order_of q'.
Proof.
  destruct (SetRetryQueue (New "staging") 2 500
      (sim0, QueueObject (queue_of "bun" "bun" [comp_a; comp_b] 1))) as [r [w' o']] eqn:Heq.
  destruct (SetRetryQueue_stores (New "staging") (queue_of "bun" "bun" [comp_a; comp_b] 1) 2 500
    sim0 r w' o') as (_ & Hok); [done|done|].
  assert (r = Ok tt) as Hr by (change r with (fst (r, (w', o'))); rewrite <- Heq; by vm_compute).
  destruct (Hok Hr) as (q' & t & n & _ & Hl & _ & _ & Hs & _).
  exists q', t, (order_of q'). split_and!; [exact Hl|exact Hs|done].
Defined.

(** the write-back [queueList.Items[i] = updatingList[i]] uses the numbering from
    before the removals: when a component is in two queues, one of which is removed
    before the other is updated, [add] runs off the end of the list and panics. *)
Theorem add_write_back_panics :
  exists ql queue,
    Forall (queue_wf "staging") (queue :: ql) /\ NoDup (kkey <$> ql) /\
    fst (add (New "staging") false [] (mkQueueSim 100 (store_of ql) ∅, queue))
    = Panic IndexOutOfRange.
Proof.
  exists [queue_of "a" "" [comp_a] 1; queue_of "bun" "bun" [comp_a; comp_b] 2], incoming.
  split; [|split; [compute_done|by vm_compute]].
  assert (forall q, q ∈ [incoming; queue_of "a" "" [comp_a] 1; queue_of "bun" "bun" [comp_a; comp_b] 2] ->
    queue_wf "staging" q) as Hwf; [|by apply Forall_forall].
  intros q Hq. rewrite !elem_of_cons, elem_of_nil in Hq.
  destruct Hq as [->|[->|[->|[]]]]; split; try done; compute_done.
Qed.
