(* ===== verification/TeamTypes.v ===== *)
(** Model of [api/v1/team_types.go]: a team, its namespaces, its stable and active
    components and the creation times of the images it wants. *)

From S2P Require Import Prelude.
From S2P Require Import GoRuntime.
From S2P Require Import Errors.
From S2P Require Import KubeApi.
From S2P Require Import ConfigTypes.
From S2P Require Import ComponentTypes.
From S2P Require Import QueueTypes.
Open Scope string_scope.
Open Scope list_scope.
Open Scope Z_scope.

(** A reference to a key of a secret. *)
Record SecretKeySelector := mkSecretKeySelector { sk_Name : string; sk_Key : string }.
Record UsernamePasswordCredential := mkUsernamePasswordCredential {
  up_UsernameRef : option SecretKeySelector;
  up_PasswordRef : option SecretKeySelector;
  up_Username : string;
  up_Password : string;
}.
Record TokenCredential := mkTokenCredential {
  tok_TokenRef : option SecretKeySelector;
  tok_Token : string;
}.
Record Credential := mkCredential {
  cred_SecretName : string;
  cred_Teamcity : option UsernamePasswordCredential;
  cred_Github : option TokenCredential;
  cred_Gitlab : option TokenCredential;
}.
Record StagingCtrl := mkStagingCtrl {
  stc_Image : string;
  stc_Endpoint : string;
  stc_IsDeploy : bool;
  stc_Limits : ResourceList;                  (* [Resources.Limits] *)
  stc_Requests : ResourceList;                (* [Resources.Requests] *)
}.
Record TeamSpec := mkTeamSpec {
  ts_Description : string;
  ts_Owners : list string;
  ts_Resources : ResourceList;
  ts_StagingCtrl : option StagingCtrl;
  ts_Credential : Credential;
}.

(** The embedded [*Image] and when it was created. *)
Record DesiredImageTime := mkDesiredImageTime {
  dit_Image : option Image;
  dit_CreatedTime : Z;
  dit_IsImageMissing : bool;
}.
Record TeamNamespace := mkTeamNamespace {
  tn_Staging : string;
  tn_PreviousActive : string;
  tn_PreActive : string;
  tn_Active : string;
  tn_PullRequests : list string;
}.

Inductive TeamConditionType :=
| TeamNamespaceStagingCreated | TeamNamespacePreActiveCreated
| TeamNamespacePreviousActiveCreated | TeamNamespaceActiveCreated
| TeamNamespacePullRequestCreated | TeamConfigExisted
| TeamPostStagingNamespaceCreationRun | TeamPostPreActiveNamespaceCreationRun
| TeamPostPullRequestNamespaceCreationRun | TeamFirstNotifyComponentChanged
| TeamFirstActivePromotionRun | TeamUsedUpdated | TeamRequiredFieldsValidated
| TeamActiveEnvironmentDeleted | TeamActiveEnvironmentDeletedReportSent
| OtherTeamCondition (s : string).         (* the ones that name a namespace *)
#[export] Instance team_condition_type_eq_dec : EqDecision TeamConditionType.
Proof. solve_decision. Defined.

(** A nil map and an empty one are the same here: the code only reads, ranges over and
    measures them. *)
Record TeamStatus := mkTeamStatus {
  tst_Namespace : TeamNamespace;
  tst_StableComponents : gmap string StableComponent;
  tst_ActiveComponents : gmap string StableComponent;
  tst_Conditions : list (Condition TeamConditionType);
  tst_DesiredComponentImageCreatedTime : gmap string (gmap string DesiredImageTime);
  tst_ActivePromotedBy : string;
  tst_ActiveDeletedBy : string;
  tst_Used : TeamSpec;
  tst_TemplateUID : string;
  tst_SyncTemplate : bool;
}.
Record Team := mkTeam {
  team_Meta : ObjectMeta;
  team_Spec : TeamSpec;
  team_Status : TeamStatus;
}.
#[export] Instance eta_UsernamePasswordCredential : Eta UsernamePasswordCredential := fun x =>
  mkUsernamePasswordCredential (up_UsernameRef x) (up_PasswordRef x) (up_Username x) (up_Password x).
#[export] Instance eta_TokenCredential : Eta TokenCredential := fun x =>
  mkTokenCredential (tok_TokenRef x) (tok_Token x).
#[export] Instance eta_Credential : Eta Credential := fun x =>
  mkCredential (cred_SecretName x) (cred_Teamcity x) (cred_Github x) (cred_Gitlab x).
#[export] Instance eta_TeamSpec : Eta TeamSpec := fun x =>
  mkTeamSpec (ts_Description x) (ts_Owners x) (ts_Resources x) (ts_StagingCtrl x) (ts_Credential x).
#[export] Instance eta_TeamNamespace : Eta TeamNamespace := fun x =>
  mkTeamNamespace (tn_Staging x) (tn_PreviousActive x) (tn_PreActive x) (tn_Active x)
    (tn_PullRequests x).
#[export] Instance eta_TeamStatus : Eta TeamStatus := fun x =>
  mkTeamStatus (tst_Namespace x) (tst_StableComponents x) (tst_ActiveComponents x)
    (tst_Conditions x) (tst_DesiredComponentImageCreatedTime x) (tst_ActivePromotedBy x)
    (tst_ActiveDeletedBy x) (tst_Used x) (tst_TemplateUID x) (tst_SyncTemplate x).
#[export] Instance eta_Team : Eta Team := fun x =>
  mkTeam (team_Meta x) (team_Spec x) (team_Status x).
#[export] Instance team_object : KObject Team := team_Meta.
#[export] Instance team_mark : KMark Team := fun t x => x <| team_Meta ::= mark_deleted t |>.
#[export] Instance team_mark_laws : KMarkLaws Team.
Proof. intros t x. apply (mark_deleted_key t (team_Meta x)). Qed.

Definition noCredential : Credential := mkCredential "" None None None.
Definition zeroTeamSpec : TeamSpec := mkTeamSpec "" [] ∅ None noCredential.
Definition zeroTeamStatus : TeamStatus :=
  mkTeamStatus (mkTeamNamespace "" "" "" "" []) ∅ ∅ [] ∅ "" "" zeroTeamSpec "" false.
Definition zeroTeam : Team := mkTeam noMeta zeroTeamSpec zeroTeamStatus.

(** ** Stable and active components *)

(** What a team keeps of a stable component: not its metadata. *)
Definition kept (comp : StableComponent) : StableComponent :=
  mkStableComponent noMeta (stable_Spec comp) (stable_Status comp).

Definition GetStableComponent (stableCompName : string) (ts : TeamStatus) : StableComponent :=
  if bool_decide (size (tst_StableComponents ts) = 0%nat) then zeroStable
  else
    match tst_StableComponents ts !! stableCompName with
    | None => zeroStable
    | Some stableComp => stableComp
    end.

(** [SetStableComponents]: whether something changed, and the new status. *)
Definition SetStableComponents (stableComp : option StableComponent) (isDeleted : bool)
    (ts : TeamStatus) : bool * TeamStatus :=
  match stableComp with
  | None => (false, ts)
  | Some comp =>
      let name := kname comp in
      match tst_StableComponents ts !! name with
      | None =>
          if isDeleted then (false, ts)
          else (true, ts <| tst_StableComponents ::= insert name (kept comp) |>)
      | Some old =>
          if isDeleted then (true, ts <| tst_StableComponents ::= delete name |>)
          else if bool_decide (stable_Spec old <> stable_Spec comp)
          then (true, ts <| tst_StableComponents ::= insert name (kept comp) |>)
          else (false, ts)
      end
  end.

(** [SetActiveComponents] of a team status. *)
Definition SetTeamActiveComponents (comps : gmap string StableComponent) (ts : TeamStatus)
    : TeamStatus :=
  ts <| tst_ActiveComponents := kept <$> comps |>.

(** ** Creation times of desired images *)

Record TeamDesiredImageTime := mkTeamDesiredImageTime {
  tdi_Image : string;
  tdi_ImageTime : DesiredImageTime;
}.

(** [TeamDesiredImageTimeList.Less], and its reverse that the sort uses. *)
Definition ImageTimeLess (a b : TeamDesiredImageTime) : bool :=
  dit_CreatedTime (tdi_ImageTime a) <? dit_CreatedTime (tdi_ImageTime b).
Definition ImageTimeGreater (a b : TeamDesiredImageTime) : bool := ImageTimeLess b a.

(** [strings.EqualFold], on ASCII texts. *)
Definition ascii_lower (c : Ascii.ascii) : Ascii.ascii :=
  let n := Ascii.N_of_ascii c in
  if (65 <=? n)%N && (n <=? 90)%N then Ascii.ascii_of_N (n + 32) else c.
Fixpoint string_lower (s : string) : string :=
  match s with
  | EmptyString => EmptyString
  | String c s' => String (ascii_lower c) (string_lower s')
  end.
Definition EqualFold (a b : string) : bool := String.eqb (string_lower a) (string_lower b).

Section desired.
Context {W : Type} `{GR : GoRuntime W} `{GS : GoSort}.

Definition SortByCreatedTimeDESC (desiredCreatedTime : gmap string DesiredImageTime)
    : M W (list TeamDesiredImageTime) :=
  do entries <- range_map desiredCreatedTime;
  mret (go_sort ImageTimeGreater (map (fun p => mkTeamDesiredImageTime p.1 p.2) entries)).

Definition UpdateDesiredComponentImageCreatedTime (compName image : string)
    (desiredImageTime : DesiredImageTime) (ts : TeamStatus) : M W TeamStatus :=
  match tst_DesiredComponentImageCreatedTime ts !! compName with
  | None =>
      mret (ts <| tst_DesiredComponentImageCreatedTime ::=
              insert compName {[ image := desiredImageTime ]} |>)
  | Some images =>
      do descCreatedTime <- SortByCreatedTimeDESC images;
      do latest <- index descCreatedTime 0;
      if EqualFold (tdi_Image latest) image &&
         Bool.eqb (dit_IsImageMissing (tdi_ImageTime latest)) (dit_IsImageMissing desiredImageTime)
      then mret ts
      else mret (ts <| tst_DesiredComponentImageCreatedTime ::=
                   insert compName (<[image := desiredImageTime]> images) |>)
  end.
End desired.

Definition RemoveDesiredComponentImageCreatedTime (compName : string) (ts : TeamStatus) : TeamStatus :=
  ts <| tst_DesiredComponentImageCreatedTime ::= delete compName |>.

Definition TeamIsConditionTrue (ts : TeamStatus) (cond : TeamConditionType) : bool :=
  is_condition_true cond (tst_Conditions ts).
Definition TeamSetCondition (t : Z) (cond : TeamConditionType) (status : ConditionStatus)
    (message : string) (ts : TeamStatus) : TeamStatus :=
  ts <| tst_Conditions ::= set_condition cond status message t |>.

(** ** Facts *)

Lemma ImageTimeGreater_ordering : sort_ordering ImageTimeGreater.
Proof. split; intros x y z; unfold ImageTimeGreater, ImageTimeLess; lia. Qed.

Section sort_facts.
Context {W : Type} `{GR : GoRuntime W} `{GS : GoSort} `{!GoRuntimeLaws W}.

Lemma wp_SortByCreatedTimeDESC m w (Q : outcome (list TeamDesiredImageTime) -> W -> Prop) :
  (forall l w', snd (rt_range m w) = w' ->
     l ≡ₚ (fun p => mkTeamDesiredImageTime p.1 p.2) <$> map_to_list m ->
     StronglySorted (fun a b => dit_CreatedTime (tdi_ImageTime b)
                                <= dit_CreatedTime (tdi_ImageTime a)) l ->
     Q (Ok l) w') ->
  wp (SortByCreatedTimeDESC m) w Q.
Proof.
  intros HQ. unfold SortByCreatedTimeDESC. wp_step. apply wp_range_map.
  intros entries w' Hr. wp_step. apply HQ; [by rewrite Hr| |].
  - rewrite go_sort_perm. change (map ?f entries) with (f <$> entries).
    apply fmap_Permutation. pose proof (rt_range_perm _ m w) as Hp. by rewrite Hr in Hp.
  - generalize (go_sort_in_order ImageTimeGreater
      (map (fun p => mkTeamDesiredImageTime p.1 p.2) entries) ImageTimeGreater_ordering).
    unfold in_order. induction 1 as [|x l Hs IH Hx]; constructor; [done|].
    eapply Forall_impl; [exact Hx|]. intros y.
    unfold may_follow, ImageTimeGreater, ImageTimeLess. lia.
Qed.
End sort_facts.

(** ** Properties *)

(** [SetStableComponents] reports a change exactly when the map of stable
    components changes for that component: afterwards a component that is not being
    deleted is there with the wanted specification, a deleted one is gone, and no
    other component is touched. *)
Theorem SetStableComponents_spec comp isDeleted ts :
  let '(changed, ts') := SetStableComponents (Some comp) isDeleted ts in
  stable_Spec <$> tst_StableComponents ts' !! kname comp
    = (if isDeleted then None else Some (stable_Spec comp)) /\
  (forall name, name <> kname comp ->
     tst_StableComponents ts' !! name = tst_StableComponents ts !! name) /\
  (changed = false <->
     stable_Spec <$> tst_StableComponents ts !! kname comp
       = (if isDeleted then None else Some (stable_Spec comp))) /\
  (changed = false -> ts' = ts).
Proof.
  unfold SetStableComponents.
  destruct (tst_StableComponents ts !! kname comp) as [old|] eqn:Hold; destruct isDeleted; simpl.
  - split_and!; [by rewrite lookup_delete_eq| |done|done].
    intros name Hne. by rewrite lookup_delete_ne.
  - case_bool_decide as Hspec; simpl.
    + split_and!; [by rewrite lookup_insert_eq| | |done].
      * intros name Hne. by rewrite lookup_insert_ne.
      * split; [done|]. intros [= ?]. by destruct Hspec.
    + assert (stable_Spec old = stable_Spec comp) as Heq
        by (destruct (decide (stable_Spec old = stable_Spec comp)); naive_solver).
      rewrite Hold. simpl. rewrite Heq. by split_and!.
  - rewrite Hold. by split_and!.
  - split_and!; [by rewrite lookup_insert_eq| |done|done].
    intros name Hne. by rewrite lookup_insert_ne.
Qed.
