(* ===== verification/AtpTypes.v ===== *)
(** Model of [api/v1/activepromotion_types.go] and
    [api/v1/activepromotionhistory_types.go]: the promotion of a pre-active
    environment to the active one, and its records. *)

From S2P Require Import Prelude.
From S2P Require Import GoRuntime.
From S2P Require Import Errors.
From S2P Require Import KubeApi.
From S2P Require Import ConfigTypes.
From S2P Require Import ComponentTypes.
From S2P Require Import QueueTypes.
Open Scope string_scope.
Open Scope list_scope.
Open Scope Z_scope.

Inductive ActivePromotionState :=
| ActivePromotionWaiting | ActivePromotionCreatingPreActive
| ActivePromotionDeployingComponents | ActivePromotionTestingPreActive
| ActivePromotionCollectingPreActiveResult | ActivePromotionDemoting
| ActivePromotionActiveEnvironment | ActivePromotionDestroyingPreviousActive
| ActivePromotionDestroyingPreActive | ActivePromotionFinished | ActivePromotionRollback
| ActivePromotionNew                          (* the empty state of a new object *)
| OtherActivePromotionState (s : string).

(** The empty result is that of a promotion that is not decided yet. *)
Inductive ActivePromotionResult :=
| NoResult | ActivePromotionCanceled | ActivePromotionSuccess | ActivePromotionFailure.
Inductive ActivePromotionRollbackStatus :=
| NoRollbackStatus | ActivePromotionRollbackSuccess | ActivePromotionRollbackFailure.
Inductive ActivePromotionDemotionStatus :=
| NoDemotionStatus | ActivePromotionDemotionSuccess | ActivePromotionDemotionFailure.

Inductive ActivePromotionConditionType :=
| ActivePromotionCondStarted | ActivePromotionCondPreActiveCreated
| ActivePromotionCondVerificationStarted | ActivePromotionCondVerified
| ActivePromotionCondResultCollected | ActivePromotionCondActiveDemotionStarted
| ActivePromotionCondActiveDemoted | ActivePromotionCondActivePromoted
| ActivePromotionCondPreviousActiveDestroyed | ActivePromotionCondPreActiveDestroyed
| ActivePromotionCondFinished | ActivePromotionCondRollbackStarted.

#[export] Instance atp_state_eq_dec : EqDecision ActivePromotionState.
Proof. solve_decision. Defined.
#[export] Instance atp_result_eq_dec : EqDecision ActivePromotionResult.
Proof. solve_decision. Defined.
#[export] Instance atp_rollback_eq_dec : EqDecision ActivePromotionRollbackStatus.
Proof. solve_decision. Defined.
#[export] Instance atp_demotion_eq_dec : EqDecision ActivePromotionDemotionStatus.
Proof. solve_decision. Defined.
#[export] Instance atp_condition_type_eq_dec : EqDecision ActivePromotionConditionType.
Proof. solve_decision. Defined.

Record OutdatedComponent := mkOutdatedComponent {
  oc_CurrentImage : option Image;
  oc_DesiredImage : option Image;
  oc_OutdatedDuration : Duration;
}.
#[export] Instance outdated_component_eq_dec : EqDecision OutdatedComponent.
Proof. solve_decision. Defined.

Record ActivePromotionSpec := mkActivePromotionSpec {
  as_TearDownDuration : option Duration;
  as_NoOfRetry : Z;
  as_SkipTestRunner : bool;
  as_PromotedBy : string;
  as_NoDowntimeGuarantee : option bool;
}.
Record ActivePromotionStatus := mkActivePromotionStatus {
  ast_State : ActivePromotionState;
  ast_Message : string;
  ast_StartedAt : option Z;
  ast_UpdatedAt : option Z;
  ast_TargetNamespace : string;
  ast_PreviousActiveNamespace : string;
  ast_Result : ActivePromotionResult;
  ast_DestroyedTime : option Z;
  ast_ActivePromotionHistoryName : string;
  ast_HasOutdatedComponent : bool;
  ast_IsTimeout : bool;
  ast_ActiveComponents : gmap string StableComponent;
  ast_OutdatedComponents : gmap string OutdatedComponent;
  ast_RollbackStatus : ActivePromotionRollbackStatus;
  ast_DemotionStatus : ActivePromotionDemotionStatus;
  ast_PreActiveQueue : QueueStatus;
  ast_Conditions : list (Condition ActivePromotionConditionType);
}.
Record ActivePromotion := mkActivePromotion {
  atp_Meta : ObjectMeta;
  atp_Spec : ActivePromotionSpec;
  atp_Status : ActivePromotionStatus;
}.
#[export] Instance eta_ActivePromotionSpec : Eta ActivePromotionSpec := fun x =>
  mkActivePromotionSpec (as_TearDownDuration x) (as_NoOfRetry x) (as_SkipTestRunner x)
    (as_PromotedBy x) (as_NoDowntimeGuarantee x).
#[export] Instance eta_ActivePromotionStatus : Eta ActivePromotionStatus := fun x =>
  mkActivePromotionStatus (ast_State x) (ast_Message x) (ast_StartedAt x) (ast_UpdatedAt x)
    (ast_TargetNamespace x) (ast_PreviousActiveNamespace x) (ast_Result x) (ast_DestroyedTime x)
    (ast_ActivePromotionHistoryName x) (ast_HasOutdatedComponent x) (ast_IsTimeout x)
    (ast_ActiveComponents x) (ast_OutdatedComponents x) (ast_RollbackStatus x)
    (ast_DemotionStatus x) (ast_PreActiveQueue x) (ast_Conditions x).
#[export] Instance eta_ActivePromotion : Eta ActivePromotion := fun x =>
  mkActivePromotion (atp_Meta x) (atp_Spec x) (atp_Status x).
#[export] Instance atp_object : KObject ActivePromotion := atp_Meta.
#[export] Instance atp_mark : KMark ActivePromotion := fun t x => x <| atp_Meta ::= mark_deleted t |>.
#[export] Instance atp_mark_laws : KMarkLaws ActivePromotion.
Proof. intros t x. apply (mark_deleted_key t (atp_Meta x)). Qed.

Definition zeroAtpStatus : ActivePromotionStatus :=
  mkActivePromotionStatus ActivePromotionNew "" None None "" "" NoResult None "" false false ∅ ∅
    NoRollbackStatus NoDemotionStatus zeroQueueStatus [].

(** ** History *)

Record ActivePromotionHistorySpec := mkActivePromotionHistorySpec {
  ahs_TeamName : string;
  ahs_ActivePromotion : option ActivePromotion;
  ahs_IsSuccess : bool;
  ahs_CreatedAt : option Z;
}.
Record ActivePromotionHistory := mkActivePromotionHistory {
  ath_Meta : ObjectMeta;
  ath_Spec : ActivePromotionHistorySpec;
}.
#[export] Instance eta_ActivePromotionHistorySpec : Eta ActivePromotionHistorySpec := fun x =>
  mkActivePromotionHistorySpec (ahs_TeamName x) (ahs_ActivePromotion x) (ahs_IsSuccess x)
    (ahs_CreatedAt x).
#[export] Instance eta_ActivePromotionHistory : Eta ActivePromotionHistory := fun x =>
  mkActivePromotionHistory (ath_Meta x) (ath_Spec x).
#[export] Instance ath_object : KObject ActivePromotionHistory := ath_Meta.
#[export] Instance ath_mark : KMark ActivePromotionHistory := fun t x => x <| ath_Meta ::= mark_deleted t |>.
#[export] Instance ath_mark_laws : KMarkLaws ActivePromotionHistory.
Proof. intros t x. apply (mark_deleted_key t (ath_Meta x)). Qed.

(** The latest created comes first. *)
Definition HistoryLess (a b : ActivePromotionHistory) : bool :=
  om_CreationTimestamp (ath_Meta b) <? om_CreationTimestamp (ath_Meta a).
Definition SortDESC `{GoSort} (l : list ActivePromotionHistory) : list ActivePromotionHistory :=
  go_sort HistoryLess l.

(** ** Methods *)

Definition SetTearDownDuration (d : Duration) (s : ActivePromotionSpec) : ActivePromotionSpec :=
  s <| as_TearDownDuration := Some d |>.

Definition SetNamespace (targetNs currentActiveNs : string) (s : ActivePromotionStatus)
    : ActivePromotionStatus :=
  s <| ast_TargetNamespace := targetNs |> <| ast_PreviousActiveNamespace := currentActiveNs |>.
Definition SetResult (res : ActivePromotionResult) (s : ActivePromotionStatus) :=
  s <| ast_Result := res |>.
Definition SetRollbackStatus (status : ActivePromotionRollbackStatus) (s : ActivePromotionStatus) :=
  s <| ast_RollbackStatus := status |>.
Definition SetDemotionStatus (status : ActivePromotionDemotionStatus) (s : ActivePromotionStatus) :=
  s <| ast_DemotionStatus := status |>.
Definition SetIsTimeout (s : ActivePromotionStatus) := s <| ast_IsTimeout := true |>.
Definition SetDestroyedTime (t : Z) (s : ActivePromotionStatus) :=
  s <| ast_DestroyedTime := Some t |>.
Definition SetActivePromotionHistoryName (name : string) (s : ActivePromotionStatus) :=
  s <| ast_ActivePromotionHistoryName := name |>.
Definition SetPreActiveQueue (qs : QueueStatus) (s : ActivePromotionStatus) :=
  s <| ast_PreActiveQueue := qs |>.

(** Later components of a name replace earlier ones. *)
Definition SetActiveComponents (comps : list StableComponent) (s : ActivePromotionStatus) :=
  s <| ast_ActiveComponents :=
    foldl (fun m comp => <[sc_Name (stable_Spec comp) :=
             mkStableComponent noMeta (stable_Spec comp) (stable_Status comp)]> m) ∅ comps |>.

Definition AtpGetConditionLatestTime (s : ActivePromotionStatus)
    (cond : ActivePromotionConditionType) : option Z := condition_time cond (ast_Conditions s).
Definition AtpIsConditionTrue (s : ActivePromotionStatus) (cond : ActivePromotionConditionType)
    : bool := is_condition_true cond (ast_Conditions s).
Definition AtpSetCondition (t : Z) (cond : ActivePromotionConditionType) (status : ConditionStatus)
    (message : string) (s : ActivePromotionStatus) : ActivePromotionStatus :=
  s <| ast_Conditions ::= set_condition cond status message t |>.

(** [SetState] with the clock at [now]. *)
Definition AtpSetState (now : Z) (state : ActivePromotionState) (message : string)
    (a : ActivePromotion) : ActivePromotion :=
  a <| atp_Status ::= fun s =>
    let s := s <| ast_State := state |> <| ast_Message := message |> <| ast_UpdatedAt := Some now |> in
    if bool_decide (state = ActivePromotionCreatingPreActive) && bool_decide (ast_StartedAt s = None)
    then s <| ast_StartedAt := Some now |> else s |>.

Definition IsActivePromotionSuccess (a : ActivePromotion) : bool :=
  bool_decide (ast_Result (atp_Status a) = ActivePromotionSuccess).
Definition IsActivePromotionFailure (a : ActivePromotion) : bool :=
  bool_decide (ast_Result (atp_Status a) = ActivePromotionFailure).
Definition IsActivePromotionCanceled (a : ActivePromotion) : bool :=
  bool_decide (ast_Result (atp_Status a) = ActivePromotionCanceled).

(** [ActivePromotionByStartedAtASC.Less]: by the start, or the creation of one that
    has not started. *)
Definition started_or_created (a : ActivePromotion) : Z :=
  match ast_StartedAt (atp_Status a) with
  | Some t => t
  | None => om_CreationTimestamp (atp_Meta a)
  end.
Definition AtpLess (a b : ActivePromotion) : bool := started_or_created a <? started_or_created b.
Definition SortASC `{GoSort} (l : list ActivePromotion) : list ActivePromotion := go_sort AtpLess l.

Definition OutdatedGreater (a b : OutdatedComponent) : bool :=
  oc_OutdatedDuration b <? oc_OutdatedDuration a.
(** [sort.Slice] asks the same of its function as [sort.Sort]. *)
Definition SortComponentsByOutdatedDuration `{GoSort} (l : list OutdatedComponent) :=
  go_sort OutdatedGreater l.

(** ** Facts *)

Lemma AtpLess_ordering : sort_ordering AtpLess.
Proof. split; intros x y z; unfold AtpLess; lia. Qed.
Lemma HistoryLess_ordering : sort_ordering HistoryLess.
Proof. split; intros x y z; unfold HistoryLess; lia. Qed.

Lemma AtpSetState_state now state msg a : ast_State (atp_Status (AtpSetState now state msg a)) = state.
Proof. unfold AtpSetState. simpl. by case_match. Qed.
