(* ===== verification/KubeObjects.v ===== *)
(** The kinds of Kubernetes objects that the environments of a team consist of: their
    metadata and the fields of their specification and status that the code reads. *)

From S2P Require Import Prelude.
From S2P Require Import GoRuntime.
From S2P Require Import KubeApi.
From Stdlib Require Import Eqdep_dec.
Open Scope string_scope.
Open Scope list_scope.
Open Scope Z_scope.

Inductive Kind :=
| PodKind | ServiceKind | PVCKind | DeploymentKind | StatefulSetKind | DaemonSetKind | JobKind
| ReplicaSetKind | NamespaceKind | ClusterRoleKind | ClusterRoleBindingKind | ResourceQuotaKind.
#[export] Instance kind_eq_dec : EqDecision Kind.
Proof. solve_decision. Defined.

(** ** Pods *)

Inductive PodPhase := PodPending | PodRunning | PodSucceeded | PodFailed | OtherPodPhase (s : string).
(** [ContainerStatus]; of its state, the reason why it waits and whether it runs. *)
Record ContainerStatus := mkContainerStatus {
  cts_Name : string;
  cts_Ready : bool;
  cts_RestartCount : Z;
  cts_Waiting : option string;
  cts_Running : bool;
}.
Record PodBody := mkPodBody {
  pod_NodeName : string;
  pod_Phase : PodPhase;
  pod_Conditions : list (string * ConditionStatus);
  pod_InitContainerStatuses : list ContainerStatus;
  pod_ContainerStatuses : list ContainerStatus;
}.
#[export] Instance pod_phase_eq_dec : EqDecision PodPhase.
Proof. solve_decision. Defined.

(** ** The other kinds *)

Record JobBody := mkJobBody { job_CompletionTime : option Z; job_Failed : Z }.
Inductive ServiceType := ServiceTypeExternalName | ServiceTypeLoadBalancer | OtherServiceType (s : string).
(** [svc_HasIngress]: the load balancer has an ingress. *)
Record ServiceBody := mkServiceBody {
  svc_Type : ServiceType; svc_ClusterIP : string; svc_HasIngress : bool; svc_ExternalName : string }.
Inductive PVCPhase := ClaimBound | OtherClaimPhase (s : string).
Record DeploymentBody := mkDeploymentBody { dpl_Replicas : option Z }.
#[export] Instance service_type_eq_dec : EqDecision ServiceType.
Proof. solve_decision. Defined.
#[export] Instance pvc_phase_eq_dec : EqDecision PVCPhase.
Proof. solve_decision. Defined.

(** What is read of an object of the kind, apart from its metadata. *)
Definition kube_body (k : Kind) : Type :=
  match k with
  | PodKind => PodBody
  | ServiceKind => ServiceBody
  | PVCKind => PVCPhase
  | DeploymentKind => DeploymentBody
  | JobKind => JobBody
  | _ => unit
  end.
(** The body of a zero object. *)
Definition zero_body (k : Kind) : kube_body k :=
  match k with
  | PodKind => mkPodBody "" (OtherPodPhase "") [] [] []
  | ServiceKind => mkServiceBody (OtherServiceType "") "" false ""
  | PVCKind => OtherClaimPhase ""
  | DeploymentKind => mkDeploymentBody None
  | JobKind => mkJobBody None 0
  | _ => tt
  end.

Record KubeObj (k : Kind) := mkKubeObj { ko_Meta : ObjectMeta; ko_Body : kube_body k }.
Arguments mkKubeObj {_} _ _.
Arguments ko_Meta {_} _.
Arguments ko_Body {_} _.
Definition pod_of (x : KubeObj PodKind) : PodBody := ko_Body x.
Definition service_of (x : KubeObj ServiceKind) : ServiceBody := ko_Body x.
Definition claim_of (x : KubeObj PVCKind) : PVCPhase := ko_Body x.
Definition deployment_of (x : KubeObj DeploymentKind) : DeploymentBody := ko_Body x.
Definition job_of (x : KubeObj JobKind) : JobBody := ko_Body x.
Definition bareObj {k} (m : ObjectMeta) : KubeObj k := mkKubeObj m (zero_body k).

#[export] Instance kube_object k : KObject (KubeObj k) := ko_Meta.
#[export] Instance kube_mark k : KMark (KubeObj k) := fun t x => mkKubeObj (mark_deleted t (ko_Meta x)) (ko_Body x).
#[export] Instance kube_mark_laws k : KMarkLaws (KubeObj k).
Proof. intros t [m]. by apply mark_deleted_key. Qed.

(** ** The objects of all kinds together *)

Definition objects : Type := forall k, gmap (string * string) (KubeObj k).
Definition set_kind (k : Kind) (m : gmap (string * string) (KubeObj k)) (o : objects) : objects := fun k' =>
  match decide (k = k') with
  | left e => eq_rect k (fun k => gmap (string * string) (KubeObj k)) m k' e
  | right _ => o k'
  end.

Lemma set_kind_same k m o : set_kind k m o k = m.
Proof.
  unfold set_kind. destruct (decide (k = k)) as [e|]; [|done].
  by rewrite (UIP_dec kind_eq_dec e eq_refl).
Qed.
Lemma set_kind_other k k' m o : k' <> k -> set_kind k m o k' = o k'.
Proof. intros Hne. unfold set_kind. by destruct (decide (k = k')) as [->|]. Qed.

(** Objects that are metadata only. *)
Lemma meta_of_namespaces (m : gmap (string * string) (KubeObj NamespaceKind)) : bareObj <$> (ko_Meta <$> m) = m.
Proof. rewrite <- map_fmap_compose. rewrite <- (map_fmap_id m) at 2. by apply map_fmap_ext; intros ? [? []]. Qed.
