(* ===== verification/Interfaces.v ===== *)
(** The Go interfaces through which the components call each other
    ([internal/configuration.go], [internal/deploy.go], [internal/samsahai.go]), the
    configuration of Samsahai itself.  A controller is proved against these classes; the
    objects behind them are the components' own concern. *)

From S2P Require Import Prelude.
From S2P Require Import GoRuntime.
From S2P Require Import Errors.
From S2P Require Import KubeApi.
From S2P Require Export KubeObjects.
From S2P Require Import ConfigTypes.
From S2P Require Import ComponentTypes.
From S2P Require Import QueueTypes.
From S2P Require Import TeamTypes.
From S2P Require Import AtpTypes.
Open Scope string_scope.
Open Scope list_scope.
Open Scope Z_scope.

(** ** Reconciliation *)

(** [reconcile.Request] and [reconcile.Result]. *)
Definition Request : Type := string * string.
Record Result := mkResult { Requeue : bool; RequeueAfter : Duration }.
Definition noResult : Result := mkResult false 0.

(** [stringutils.ContainsString] and [RemoveString]. *)
Definition ContainsString (slice : list string) (s : string) : bool := existsb (String.eqb s) slice.
Definition RemoveString (slice : list string) (s : string) : list string :=
  filter (fun item => item <> s) slice.

(** ** Names *)

(** [internal/version.go]. *)
Definition AbbreviationName : string := "s2h".
Definition AppPrefix : string := "s2h-".

Definition MaxReleaseNameLength : nat := 45.
Definition GenReleaseName (compName : string) : string :=
  if (MaxReleaseNameLength <? String.length compName)%nat
  then String.substring (String.length compName - MaxReleaseNameLength) MaxReleaseNameLength compName
  else compName.

Definition GenStagingNamespace (teamName : string) : string := AppPrefix +:+ teamName.
Definition GenPullRequestBundleName (bundle prNumber : string) : string := bundle +:+ "-" +:+ prNumber.

(** ** The configuration of Samsahai *)

Record ActivePromotionConfig := mkActivePromotionConfig {
  ac_Concurrences : Z;
  ac_Timeout : Duration;
  ac_DemotionTimeout : Duration;
  ac_RollbackTimeout : Duration;
  ac_TearDownDuration : Duration;
  ac_MaxRetry : option Z;
  ac_MaxHistories : Z;
  ac_PromoteOnTeamCreation : bool;
}.
Record PullRequestConfig := mkPullRequestConfig {
  pc_QueueConcurrences : Z;
  pc_MaxVerificationRetryCounts : Z;
  pc_MaxTriggerRetryCounts : Z;
  pc_TriggerPollingTime : Duration;
  pc_MaxHistoryDays : Z;
}.
Record MSTeamsCredential := mkMSTeamsCredential {
  mc_TenantID : string; mc_ClientID : string; mc_ClientSecret : string;
  mc_Username : string; mc_Password : string }.
Record SamsahaiCredential := mkSamsahaiCredential {
  scr_InternalAuthToken : string;
  scr_SlackToken : string;
  scr_GithubToken : string;
  scr_MSTeams : MSTeamsCredential;
  scr_TeamcityUsername : string;
  scr_TeamcityPassword : string;
  scr_GitlabToken : string;
}.
Record SamsahaiConfig := mkSamsahaiConfig {
  s2h_ConfigDirPath : string;
  s2h_PluginsDir : string;
  s2h_SamsahaiImage : string;
  s2h_SamsahaiExternalURL : string;
  s2h_GithubURL : string;
  s2h_GitlabURL : string;
  s2h_TeamcityURL : string;
  s2h_ClusterDomain : string;
  s2h_ActivePromotion : ActivePromotionConfig;
  s2h_PullRequest : PullRequestConfig;
  s2h_PostNamespaceCreation : option CommandAndArgs;
  s2h_CheckerResources : ResourceList;
  s2h_InitialResourcesQuota : ResourceList;
  s2h_StagingEnvs : gmap string string;
  s2h_SamsahaiURL : string;
  s2h_SamsahaiCredential : SamsahaiCredential;
}.

(** ** [ConfigController] *)

Class ConfigController (W : Type) := {
  cfg_Get : string -> M W Config;
  cfg_GetComponents : string -> M W (gmap string Component);
  cfg_GetParentComponents : string -> M W (gmap string Component);
  cfg_GetPullRequestComponents : string -> string -> bool -> M W (gmap string Component);
  cfg_GetBundles : string -> M W ConfigBundles;
  cfg_GetPriorityQueues : string -> M W (list string);
  cfg_GetStagingConfig : string -> M W (option ConfigStaging);
  cfg_GetPullRequestConfig : string -> M W (option ConfigPullRequest);
  cfg_GetPullRequestBundleDependencies : string -> string -> M W (list string);
  cfg_Update : Config -> M W unit;
  cfg_Delete : string -> M W unit;
  cfg_EnsureConfigTemplateChanged : M (W * Config) unit;
}.

(** The configuration that is in use, when there is one. *)
Definition used_promotion (config : Config) : option ConfigActivePromotion :=
  cf_ActivePromotion (cst_Used (config_Status config)).

(** ** [DeployEngine] *)

(** A Helm release, as much of it as is read. *)
Inductive ReleaseStatus :=
| ReleaseDeployed | ReleaseFailed | ReleasePendingInstall | ReleasePendingUpgrade | OtherReleaseStatus (s : string).
Record Release := mkRelease {
  rel_Name : string;
  rel_Version : Z;
  rel_Status : ReleaseStatus;
  rel_Description : string;
}.
#[export] Instance release_status_eq_dec : EqDecision ReleaseStatus.
Proof. solve_decision. Defined.

(** One engine. *)
Record DeployEngine (W : Type) := mkDeployEngine {
  de_GetName : string;
  de_Create : string -> Component -> option Component -> ComponentValues -> option Duration -> M W unit;
  de_Rollback : string -> Z -> M W unit;
  de_GetHistories : string -> M W (list Release);
  de_Delete : string -> M W unit;
  de_ForceDelete : string -> M W unit;
  de_GetLabelSelectors : string -> gmap string string;
  de_GetReleases : M W (list Release);
  de_WaitForPreHookReady : string -> M W bool;
  de_IsMocked : bool;
}.
Arguments de_GetName {_} _.
Arguments de_Create {_} _ _ _ _ _ _.
Arguments de_Rollback {_} _ _ _.
Arguments de_GetHistories {_} _ _.
Arguments de_Delete {_} _ _.
Arguments de_ForceDelete {_} _ _.
Arguments de_GetLabelSelectors {_} _ _.
Arguments de_GetReleases {_} _.
Arguments de_WaitForPreHookReady {_} _ _.
Arguments de_IsMocked {_} _.

(** *** The mocked deploy engine ([internal/staging/deploy/mock/engine.go]) *)

Definition EngineName : string := "mock".
Definition MockEngine {W} : DeployEngine W := {|
  de_GetName := EngineName;
  de_Create _ _ _ _ _ := mret tt;
  de_Rollback _ _ := mret tt;
  de_GetHistories _ := mret [];
  de_GetReleases := mret [];
  de_Delete _ := mret tt;
  de_ForceDelete _ := mret tt;
  de_GetLabelSelectors _ := ∅;
  de_WaitForPreHookReady _ := mret true;
  de_IsMocked := true;
|}.

(** ** Reports *)

(** [ActivePromotionReporter]; the environment variables of the process are left out. *)
Record ActivePromotionReporter := mkActivePromotionReporter {
  apr_TeamName : string;
  apr_CurrentActiveNamespace : string;
  apr_Runs : Z;
  apr_Credential : Credential;
  apr_Status : ActivePromotionStatus;
  apr_SamsahaiConfig : SamsahaiConfig;
}.

(** ** [SamsahaiController] *)

(** The methods that other components call; a method that is given a team updates the
    object it is given. *)
Class SamsahaiController (W : Type) := {
  s2h_GetActivePromotionDeployEngine : string -> string -> M W (DeployEngine W);
  s2h_LoadTeamSecret : M (W * Team) unit;
  s2h_CreatePreActiveEnvironment : string -> string -> M W unit;
  s2h_PromoteActiveEnvironment : string -> string -> gmap string StableComponent -> M (W * Team) unit;
  s2h_DestroyActiveEnvironment : string -> string -> M W unit;
  s2h_DestroyPreActiveEnvironment : string -> string -> M W unit;
  s2h_DestroyPreviousActiveEnvironment : string -> string -> M W unit;
  s2h_SetPreviousActiveNamespace : string -> M (W * Team) unit;
  s2h_SetPreActiveNamespace : string -> M (W * Team) unit;
  s2h_SetActiveNamespace : string -> M (W * Team) unit;
  s2h_NotifyActivePromotionReport : ActivePromotionReporter -> M W unit;
  s2h_GetTeam : string -> M W Team;
  s2h_EnsureStagingResourcesQuota : string -> string -> bool -> M W (option ResourceList);
}.

(** ** Facts *)

Lemma contains_removed l s : ContainsString (RemoveString l s) s = false.
Proof.
  unfold ContainsString, RemoveString. apply not_true_iff_false. rewrite existsb_exists.
  intros (x & Hx & <-%String.eqb_eq). apply list_elem_of_In, list_elem_of_filter in Hx as [Hx _]. done.
Qed.

Lemma substring_length n m s :
  (n + m <= String.length s)%nat -> String.length (String.substring n m s) = m.
Proof.
  revert n m. induction s as [|c s IH]; intros n m Hlen; simpl in *.
  - assert (n = 0 /\ m = 0)%nat as [-> ->] by lia. done.
  - destruct n as [|n], m as [|m]; simpl; try done.
    + rewrite IH by lia. done.
    + rewrite IH by lia. done.
    + rewrite IH by lia. done.
Qed.

Lemma substring_all s : String.substring 0 (String.length s) s = s.
Proof. induction s as [|c s IH]; simpl; [done|]. by rewrite IH. Qed.

Lemma substring_suffix n s :
  (n <= String.length s)%nat ->
  exists pre, s = pre +:+ String.substring n (String.length s - n) s.
Proof.
  revert n. induction s as [|c s IH]; intros n Hlen; simpl in *.
  - assert (n = 0)%nat as -> by lia. by exists "".
  - destruct n as [|n].
    + exists "". simpl. by rewrite substring_all.
    + destruct (IH n) as [pre Hpre]; [lia|]. exists (String c pre). rewrite Nat.sub_succ. by rewrite Hpre at 1.
Qed.

(** ** Properties *)

(** a release name has at most 45 characters; it is the component's name when that
    is short enough and its last 45 characters otherwise. *)
Theorem GenReleaseName_bound compName :
  (String.length (GenReleaseName compName) <= 45)%nat /\
  ((String.length compName <= 45)%nat -> GenReleaseName compName = compName) /\
  ((45 < String.length compName)%nat ->
     String.length (GenReleaseName compName) = 45%nat /\
     exists pre, compName = pre +:+ GenReleaseName compName).
Proof.
  unfold GenReleaseName, MaxReleaseNameLength.
  destruct (Nat.ltb_spec 45 (String.length compName)) as [Hlt|Hge].
  - rewrite substring_length by lia. split_and!; [lia|lia|]. intros _. split; [done|].
    destruct (substring_suffix (String.length compName - 45) compName) as [pre Hpre]; [lia|].
    exists pre. rewrite Hpre at 1. by replace (String.length compName - (String.length compName - 45))%nat
      with 45%nat by lia.
  - split_and!; [lia|done|lia].
Qed.
