(* ===== verification/PrqCtrl.v ===== *)
(** Model of [internal/pullrequest/queue/], all of its files: the controller that takes
    pull requests from the queue, gives each an environment of its own, deploys and tests
    its components there, collects the result and destroys the environment.

    A handler runs on the cluster and the [PullRequestQueue] that [Reconcile] fetched;
    what it changes in the object reaches the cluster with an update only. *)

From S2P Require Import Prelude.
From S2P Require Import GoRuntime.
From S2P Require Import Errors.
From S2P Require Import KubeApi.
From S2P Require Import ConfigTypes.
From S2P Require Import ComponentTypes.
From S2P Require Import QueueTypes.
From S2P Require Import RpcTypes.
From S2P Require Import PrqTypes.
From S2P Require Import QueueCtrl.
From S2P Require Import Interfaces.
Open Scope string_scope.
Open Scope list_scope.
Open Scope Z_scope.

Definition pullRequestQueueFinalizer : string := "pullrequestqueue.finalizers.samsahai.io".
Definition stateWaiting : string := "waiting".
Definition stateRunning : string := "running".

(** The kinds of objects that the controller reads and writes. *)
Class PrqCluster (W : Type) := {
  pqc_prq :: KClient W PullRequestQueue;
  pqc_hist :: KClient W PullRequestQueueHistory;
  pqc_queue :: KClient W Queue;
  pqc_namespace :: KClient W (KubeObj NamespaceKind);
}.
(** Setting up a client for the queues of the environments, and the phase of a
    namespace. *)
Class PrqOutside (W : Type) := {
  getRuntimeClient : M W unit;
  is_terminating : KubeObj NamespaceKind -> bool;
}.

(** The controller: its client is the world; [authToken] only goes into the headers of
    the remote calls. *)
Record controller := mkController { c_teamName : string; c_namespace : string }.

(** ** controller.go, the parts without effects *)

Definition getQueueLabels (teamName component : string) : gmap string string :=
  <["component" := component]> (<["app" := component]> (GetDefaultLabels teamName)).
Definition getPullRequestQueueLabels (teamName component prNumber : string) : gmap string string :=
  <["pr-number" := prNumber]> (getQueueLabels teamName component).

Definition NewPullRequestQueue (teamName namespace bundleName prNumber commitSHA gitRepo : string)
    (comps : QueueComponents) (imageMissingList : list Image) (isFailed : bool)
    (createAt finishedAt : option Z) (teardownDuration : PullRequestTearDownDuration)
    (testRunner : option ConfigTestRunnerOverrider) : PullRequestQueue :=
  mkPullRequestQueue
    ((namedMeta namespace (GenPullRequestBundleName bundleName prNumber))
       <| om_Labels := getPullRequestQueueLabels teamName bundleName prNumber |>)
    (zeroPrqSpec <| ps_TeamName := teamName |> <| ps_BundleName := bundleName |>
       <| ps_PRNumber := prNumber |> <| ps_CommitSHA := commitSHA |> <| ps_Components := comps |>
       <| ps_UpcomingCommitSHA := commitSHA |> <| ps_UpcomingComponents := comps |>
       <| ps_GitRepository := gitRepo |> <| ps_ImageMissingList := imageMissingList |>
       <| ps_IsPRTriggerFailed := Some isFailed |> <| ps_PRTriggerCreatedAt := createAt |>
       <| ps_PRTriggerFinishedAt := finishedAt |> <| ps_TearDownDuration := teardownDuration |>
       <| ps_TestRunner := testRunner |>)
    zeroPrqStatus.

Definition addFinalizer (prQueue : PullRequestQueue) : PullRequestQueue :=
  if time_is_zero (om_DeletionTimestamp (prq_Meta prQueue)) then
    if ContainsString (om_Finalizers (prq_Meta prQueue)) pullRequestQueueFinalizer then prQueue
    else prQueue <| prq_Meta ::= fun m =>
           m <| om_Finalizers ::= fun l => l ++ [pullRequestQueueFinalizer] |> |>
  else prQueue.

Definition appendStateLabel (state : string) (prQueue : PullRequestQueue) : PullRequestQueue :=
  prQueue <| prq_Meta ::= fun m => m <| om_Labels ::= insert "state" state |> |>.
Definition getStateLabel (state : string) : gmap string string := {[ "state" := state ]}.

(** ** collect_result.go: when the environment is kept for a while *)

Definition isTearDownDurationCriteriaMet (criteria : PullRequestTearDownDurationCriteria)
    (prq : PullRequestQueue) : bool :=
  if match ps_IsPRTriggerFailed (prq_Spec prq) with Some b => b | None => false end ||
     negb (PrqIsConditionTrue (prq_Status prq) PullRequestQueueCondDeployed) then false
  else if String.eqb criteria PullRequestTearDownDurationCriteriaBoth then true
  else if String.eqb criteria PullRequestTearDownDurationCriteriaFailure
  then bool_decide (pst_Result (prq_Status prq) = PullRequestQueueFailure)
  else if String.eqb criteria PullRequestTearDownDurationCriteriaSuccess
  then bool_decide (pst_Result (prq_Status prq) = PullRequestQueueSuccess)
  else false.

(** ** manage_queue.go: the numbers of the queue *)

Definition set_order (n : Z) (q : PullRequestQueue) : PullRequestQueue :=
  q <| prq_Spec ::= fun s => s <| ps_NoOfOrder := n |> |>.

(** A queue is numbered, and is to be stored when its number is another one. *)
Definition number (count : Z) (q : PullRequestQueue) : PullRequestQueue * list PullRequestQueue :=
  if ps_NoOfOrder (prq_Spec q) =? count then (q, [])
  else (set_order count q, [set_order count q]).

(** The first queue of the name gets the number. *)
Fixpoint number_named (name : string) (count : Z) (all : list PullRequestQueue)
    : option (list PullRequestQueue * list PullRequestQueue) :=
  match all with
  | [] => None
  | q :: rest =>
      if String.eqb (kname q) name then
        let '(q', changed) := number count q in Some (q' :: rest, changed)
      else
        match number_named name count rest with
        | Some (rest', changed) => Some (q :: rest', changed)
        | None => None
        end
  end.

(** The running ones come first, in their order; then the rest as they were listed.  The
    result is what is to be stored. *)
Fixpoint number_running (running all : list PullRequestQueue) (count : Z)
    : list PullRequestQueue * list PullRequestQueue * Z :=
  match running with
  | [] => (all, [], count)
  | r :: running =>
      match number_named (kname r) count all with
      | None => number_running running all count
      | Some (all, changed) =>
          let '(all, updateList, count) := number_running running all (int_add count 1) in
          (all, changed ++ updateList, count)
      end
  end.

Fixpoint number_rest (running all : list PullRequestQueue) (count : Z) : list PullRequestQueue :=
  match all with
  | [] => []
  | q :: rest =>
      if existsb (fun r => String.eqb (kname q) (kname r)) running
      then number_rest running rest count
      else snd (number count q) ++ number_rest running rest (int_add count 1)
  end.

Definition renumber (running all : list PullRequestQueue) : list PullRequestQueue :=
  let '(all, updateList, count) := number_running running all 1 in
  updateList ++ number_rest running all count.

Section controller.
Context {W : Type} `{GR : GoRuntime W} `{GS : GoSort} `{GD : GoDuration}.
Context `{PC : PrqCluster W} `{PO : PrqOutside W} `{RPC : SamsahaiRPC W}.
Context (c : controller).

(** ** util.go *)

Definition listPullRequestQueues (opts : option ListOptions) (namespace : string)
    : M W (list PullRequestQueue) :=
  wrapping "cannot list pull request queues with options"
    (k_list PullRequestQueue (default (InNamespace namespace) opts)).

Definition updatePullRequestQueueObj (prQueue : PullRequestQueue) : M W unit :=
  wrapping ("cannot update pull request queue " +:+ kname prQueue) (k_update prQueue).

Definition deletePullRequestQueue (prQueue : PullRequestQueue) : M W unit :=
  do r <- attempt (k_delete prQueue);
  match r with
  | inl err => if IsNotFound err then mret tt
               else throw (Wrap err ("cannot delete pull request queue " +:+ kname prQueue))
  | inr _ => mret tt
  end.

(** A handler of one queue. *)
Definition Handler (A : Type) : Type := M (W * PullRequestQueue) A.

Definition updatePullRequestQueue : Handler unit :=
  do prQueue <- get_obj; onW (updatePullRequestQueueObj prQueue).

Definition set_status (f : PullRequestQueueStatus -> PullRequestQueueStatus) : Handler unit :=
  mod_obj (fun q => q <| prq_Status ::= f |>).
Definition set_spec (f : PullRequestQueueSpec -> PullRequestQueueSpec) : Handler unit :=
  mod_obj (fun q => q <| prq_Spec ::= f |>).
Definition set_state (state : PullRequestQueueState) : Handler unit :=
  do t <- onW now; mod_obj (PrqSetState t state).
Definition set_cond (cond : PullRequestQueueConditionType) (status : ConditionStatus)
    (message : string) : Handler unit :=
  do t <- onW now; set_status (PrqSetCondition t cond status message).

(** ** manage_queue.go *)

(** Errors of the listings and of the updates are only logged. *)
Definition resetQueueOrder : M W unit :=
  do r <- attempt (listPullRequestQueues None (c_namespace c));
  match r with
  | inl _ => mret tt
  | inr all =>
      do r <- attempt (listPullRequestQueues
        (Some (mkListOptions (c_namespace c) (getStateLabel stateRunning))) (c_namespace c));
      match r with
      | inl _ => mret tt
      | inr running =>
          for_each (renumber (PrqSort running) all) (fun q => ignore_error (updatePullRequestQueueObj q))
      end
  end.

(** A queue that is there already only learns what comes next. *)
Definition addQueue : Handler unit :=
  do prQueue <- get_obj;
  run onW resetQueueOrder;
  do prQueueList <- onW (listPullRequestQueues None (kns prQueue));
  do r <- attempt (onW (k_get PullRequestQueue (c_namespace c, kname prQueue)));
  match r with
  | inl err =>
      if IsNotFound err then
        do order <- onW (PrqLastQueueOrder prQueueList);
        run mod_obj (set_order order);
        do prQueue <- get_obj;
        do r <- attempt (onW (k_create prQueue));
        match r with
        | inl err => if IsAlreadyExists err then mret tt else throw err
        | inr _ => mret tt
        end
      else throw err
  | inr tmpPRQueue =>
      onW (k_update (tmpPRQueue <| prq_Spec ::= fun s =>
        s <| ps_UpcomingCommitSHA := ps_UpcomingCommitSHA (prq_Spec prQueue) |>
          <| ps_UpcomingComponents := ps_UpcomingComponents (prq_Spec prQueue) |> |>))
  end.

(** The controller takes any API object and checks its type. *)
Inductive ClientObject := PrqObject (q : PullRequestQueue) | AnotherObject.
Definition on_prq {A} (m : Handler A) : M (W * ClientObject) A := fun s =>
  match snd s with
  | AnotherObject => (Err ErrParsingRuntimeObject, s)
  | PrqObject q => match m (fst s, q) with (r, (w', q')) => (r, (w', PrqObject q')) end
  end.

Definition Add (priorityQueues : list string) : M (W * ClientObject) unit :=
  on_prq addQueue.
Definition AddTop : M (W * ClientObject) unit := mret tt.
Definition Size (namespace : string) : M W Z :=
  do r <- attempt (listPullRequestQueues None namespace);
  match r with inl _ => mret 0 | inr l => mret (Z.of_nat (length l)) end.
Definition FirstQueue (namespace : string) : M W PullRequestQueue :=
  mret (mkPullRequestQueue noMeta zeroPrqSpec zeroPrqStatus).
(** [Remove] hands any object to the client; here, a queue. *)
Definition Remove (obj : PullRequestQueue) : M W unit := k_delete obj.
Definition RemoveAllQueues (namespace : string) : M W unit :=
  k_delete_all_of PullRequestQueue (InNamespace namespace).
Definition SetReverifyQueueAtFirst : M (W * ClientObject) unit := mret tt.

Definition SetLastOrder : M (W * ClientObject) unit := on_prq (
  do prQueue <- get_obj;
  do queueList <- onW (listPullRequestQueues None (kns prQueue));
  run mod_obj (appendStateLabel stateWaiting);
  do order <- onW (PrqLastQueueOrder queueList);
  run set_spec (fun s => s <| ps_NoOfOrder := order |>);
  run set_status (fun s => zeroPrqStatus <| pst_CreatedAt := pst_CreatedAt s |>);
  do prQueue <- get_obj;
  onW (k_update prQueue)).

(** [SetRetryQueue] on a queue of the controller itself; the instant is not used. *)
Definition retry_queue (noOfRetry nextAt : Z) (isTriggerFailed : option bool)
    (triggerCreateAt triggerFinishedAt : option Z) : Handler unit :=
  do prQueue <- get_obj;
  do queueList <- onW (listPullRequestQueues None (kns prQueue));
  do t <- onW now;
  run mod_obj (appendStateLabel stateWaiting);
  run set_status (fun _ =>
    zeroPrqStatus <| pst_CreatedAt := Some t |> <| pst_State := PullRequestQueueWaiting |>);
  do order <- onW (PrqLastQueueOrder queueList);
  run set_spec (fun s =>
    s <| ps_NoOfRetry := noOfRetry |> <| ps_NoOfOrder := order |>
      <| ps_IsPRTriggerFailed := isTriggerFailed |> <| ps_PRTriggerCreatedAt := triggerCreateAt |>
      <| ps_PRTriggerFinishedAt := triggerFinishedAt |>);
  do prQueue <- get_obj;
  onW (k_update prQueue).
Definition SetRetryQueue (noOfRetry nextAt : Z) (isTriggerFailed : option bool)
    (triggerCreateAt triggerFinishedAt : option Z) : M (W * ClientObject) unit :=
  on_prq (retry_queue noOfRetry nextAt isTriggerFailed triggerCreateAt triggerFinishedAt).

(** ** history.go *)

Definition generateHistoryName (prQueueName : string) (startTime retryCount : Z) : string :=
  prQueueName +:+ "-" +:+ rt_stamp (W:=W) startTime +:+ "-" +:+ pretty retryCount.

(** From the last history to the second one, until one is young enough. *)
Fixpoint delete_histories (t maxHistDuration : Z) (items : list PullRequestQueueHistory) (i : nat)
    : M W unit :=
  match i with
  | O => mret tt
  | S i' =>
      do hist <- index items i;
      if maxHistDuration <=? time_sub t (om_CreationTimestamp (pqh_Meta hist)) then
        do r <- attempt (k_delete hist);
        match r with
        | inl err => if IsNotFound err then delete_histories t maxHistDuration items i'
                     else throw (Wrap err ("cannot delete pull request queue histories " +:+ kname hist))
        | inr _ => delete_histories t maxHistDuration items i'
        end
      else mret tt
  end.

Definition deletePullRequestQueueHistoryOutOfRange : M W unit :=
  do r <- attempt (k_list PullRequestQueueHistory (InNamespace (c_namespace c)));
  match r with
  | inl err => if IsNotFound err then mret tt
               else throw (Wrap err ("cannot list pull request queue histories of namespace: "
                                     +:+ c_namespace c))
  | inr items =>
      do prConfig <- rpc_GetPullRequestConfig (mkTeamWithBundleName (c_teamName c) "");
      match parse_duration (pretty (rpc_MaxHistoryDays prConfig * 24) +:+ "h") with
      | inl _ => mret tt
      | inr maxHistDuration =>
          let items := PqhSortDESC items in
          do t <- now;
          delete_histories t maxHistDuration items (length items - 1)
      end
  end.

Definition createPullRequestQueueHistory (prQueue : PullRequestQueue) : M W unit :=
  let prQueueLabels := getPullRequestQueueLabels (c_teamName c) (ps_BundleName (prq_Spec prQueue))
                         (ps_PRNumber (prq_Spec prQueue)) in
  run deletePullRequestQueueHistoryOutOfRange;
  let history := mkPullRequestQueueHistory
    ((namedMeta (c_namespace c)
        (generateHistoryName (kname prQueue) (om_CreationTimestamp (prq_Meta prQueue))
           (ps_NoOfRetry (prq_Spec prQueue)))) <| om_Labels := prQueueLabels |>)
    (Some (mkPullRequestQueue noMeta (prq_Spec prQueue) (prq_Status prQueue))) in
  do r <- attempt (k_create history);
  match r with
  | inl err => if IsAlreadyExists err then mret tt
               else throw (Wrap err ("cannot create pull request queue history of " +:+ kname prQueue))
  | inr _ => mret tt
  end.

(** ** queue_deployment.go *)

Definition createPullRequestEnvironment : Handler unit :=
  do prQueue <- get_obj;
  let prNamespace := AppPrefix +:+ c_teamName c +:+ "-" +:+ kname prQueue in
  run onW (rpc_CreatePullRequestEnvironment
    (mkTeamWithPullRequest (c_teamName c) (ps_BundleName (prq_Spec prQueue)) "" "" prNamespace 0 []));
  run set_status (SetPullRequestNamespace prNamespace);
  run set_cond PullRequestQueueCondEnvCreated ConditionTrue "Pull request environment has been created";
  set_state PullRequestQueueDeploying.

Definition config_of (prQueue : PullRequestQueue) : M W RpcPullRequestConfig :=
  rpc_GetPullRequestConfig (mkTeamWithBundleName (c_teamName c) (ps_BundleName (prq_Spec prQueue))).

(** Put the queue back, with its own trigger. *)
Definition requeue_again (noOfRetry : Z) : Handler bool :=
  do t <- onW now;
  do prQueue <- get_obj;
  run retry_queue noOfRetry t (ps_IsPRTriggerFailed (prq_Spec prQueue))
        (ps_PRTriggerCreatedAt (prq_Spec prQueue)) (ps_PRTriggerFinishedAt (prq_Spec prQueue));
  run onW resetQueueOrder;
  mret true.

(** The result is whether the object has been stored already. *)
Definition destroyPullRequestEnvironment : Handler bool :=
  do prQueue <- get_obj;
  do early <- (match pst_DestroyedTime (prq_Status prQueue) with
               | Some destroyedTime => do t <- onW now; mret (negb (destroyedTime <? t))
               | None => mret false
               end : M (W * PullRequestQueue) bool);
  if (early : bool) then throw ErrTeamNamespaceStillExists else
  let prNamespace := pst_PullRequestNamespace (prq_Status prQueue) in
  run (if String.eqb prNamespace "" then mret tt else
       run onW (DeletePullRequestQueue prNamespace (kname prQueue));
       onW (rpc_DestroyPullRequestEnvironment (mkTeamWithNamespace (c_teamName c) prNamespace)));
  run set_cond PullRequestQueueCondEnvDestroyed ConditionTrue
    "Pull request environment has been destroyed";
  do prConfig <- onW (config_of prQueue);
  if negb (String.eqb (ps_CommitSHA (prq_Spec prQueue)) (ps_UpcomingCommitSHA (prq_Spec prQueue)))
  then requeue_again 0 else
  do again <- (if IsPrqFailure prQueue then
                 do failed <- deref (ps_IsPRTriggerFailed (prq_Spec prQueue));
                 mret (negb (failed : bool) && (ps_NoOfRetry (prq_Spec prQueue) <? rpc_MaxRetry prConfig))
               else mret false : M (W * PullRequestQueue) bool);
  if (again : bool) then
    run set_spec (fun s => s <| ps_NoOfRetry ::= fun n => int_add n 1 |>);
    do prQueue <- get_obj;
    requeue_again (ps_NoOfRetry (prq_Spec prQueue))
  else
    run set_state PullRequestQueueFinished;
    mret false.

(** Every component of the dependency's name gets its image; a dependency that is not
    there is added. *)
Definition set_image (name : string) (image : RpcImage) (comp : QueueComponent) : QueueComponent :=
  if String.eqb (qc_Name comp) name
  then comp <| qc_Repository := ri_Repository image |> <| qc_Version := ri_Tag image |>
  else comp.

(** The components are pointers that the queue shares: the ones it has get their image in
    the queue [own] as well, the added ones do not reach it. *)
Fixpoint update_dependencies (prDependencies : list RpcComponent) (own prComps : QueueComponents)
    : M W (QueueComponents * QueueComponents) :=
  match prDependencies with
  | [] => mret (own, prComps)
  | prDep :: rest =>
      do image <- deref (rc_Image prDep);
      if existsb (fun comp => String.eqb (qc_Name comp) (rc_Name prDep)) prComps
      then update_dependencies rest (map (set_image (rc_Name prDep) image) own)
             (map (set_image (rc_Name prDep) image) prComps)
      else update_dependencies rest own
             (prComps ++ [mkQueueComponent (rc_Name prDep) (ri_Repository image) (ri_Tag image)])
  end.

Definition updatePullRequestComponentDependenciesVersion (teamName prBundleName : string)
    (prComps : QueueComponents) : M W (QueueComponents * QueueComponents) :=
  do prDependencies <- rpc_GetPullRequestBundleDependencies (mkTeamWithBundleName teamName prBundleName);
  update_dependencies prDependencies prComps prComps.

Definition ensurePullRequestComponents (prQueue : PullRequestQueue) (prComps : QueueComponents)
    : M W Queue :=
  let prNamespace := pst_PullRequestNamespace (prq_Status prQueue) in
  let extra := match ps_TestRunner (prq_Spec prQueue) with
               | Some runner => Some (mkQueueExtraParameters (Some runner))
               | None => None
               end in
  let deployedQueue := NewInitialPullRequestQueue (c_teamName c) prNamespace (kname prQueue)
    (ps_BundleName (prq_Spec prQueue)) (ps_PRNumber (prq_Spec prQueue)) prComps
    (ps_NoOfRetry (prq_Spec prQueue)) extra in
  if match ps_IsPRTriggerFailed (prq_Spec prQueue) with Some b => negb b | None => false end then
    run getRuntimeClient;
    do ' (_, deployedQueue) <- with_obj deployedQueue EnsurePullRequestComponents;
    mret deployedQueue
  else mret deployedQueue.

Definition ensurePullRequestComponentsDeploying : Handler unit :=
  do prQueue <- get_obj;
  let prNamespace := pst_PullRequestNamespace (prq_Status prQueue) in
  do ' (own, prComps) <- onW (updatePullRequestComponentDependenciesVersion (c_teamName c)
    (ps_BundleName (prq_Spec prQueue)) (ps_Components (prq_Spec prQueue)));
  run set_spec (fun s => s <| ps_Components := own |>);
  if negb (PrqIsConditionTrue (prq_Status prQueue) PullRequestQueueCondDependenciesUpdated) then
    set_cond PullRequestQueueCondDependenciesUpdated ConditionTrue
      "Pull request dependencies have been updated into queue successfully"
  else
  do prQueue <- get_obj;
  do deployedQueue <- onW (wrapping
    ("cannot ensure pull request components deployed, namespace " +:+ prNamespace)
    (ensurePullRequestComponents prQueue prComps));
  let status := queue_Status deployedQueue in
  if bool_decide (qst_State status = Finished) ||
     (match qst_StartDeployTime status with Some _ => true | None => false end &&
      negb (bool_decide (qst_State status = Creating))) then
    if IsDeploySuccess deployedQueue then
      run set_cond PullRequestQueueCondDeployed ConditionTrue "Components have been deployed successfully";
      set_state PullRequestQueueTesting
    else
      run set_status (PrqSetResult PullRequestQueueFailure);
      run set_cond PullRequestQueueCondDeployed ConditionFalse "Deployment failed";
      run set_cond PullRequestQueueCondTested ConditionFalse
        "Skipped running test due to deployment failed";
      set_state PullRequestQueueCollecting
  else throw ErrEnsureComponentDeployed.

Definition ensurePullRequestComponentsTesting : Handler unit :=
  do prQueue <- get_obj;
  let prNamespace := pst_PullRequestNamespace (prq_Status prQueue) in
  do deployedQueue <- onW (wrapping
    ("cannot ensure pull request components tested, namespace " +:+ prNamespace)
    (ensurePullRequestComponents prQueue (ps_Components (prq_Spec prQueue))));
  if bool_decide (qst_State (queue_Status deployedQueue) = Finished) then
    run (if IsTestSuccess deployedQueue then
           run set_status (PrqSetResult PullRequestQueueSuccess);
           set_cond PullRequestQueueCondTested ConditionTrue "Components have been tested successfully"
         else
           run set_status (PrqSetResult PullRequestQueueFailure);
           set_cond PullRequestQueueCondTested ConditionFalse "Test failed");
    set_state PullRequestQueueCollecting
  else throw ErrEnsureComponentTested.

(** ** collect_result.go *)

Definition sendPullRequestQueueReport (prQueue : PullRequestQueue) : M W unit :=
  match pst_DeploymentQueue (prq_Status prQueue) with
  | None => mret tt
  | Some deploymentQueue =>
      let compUpgradeStatus :=
        if IsPrqCanceled prQueue then UpgradeStatus_CANCELED
        else if IsDeploySuccess deploymentQueue && IsTestSuccess deploymentQueue
        then UpgradeStatus_SUCCESS else UpgradeStatus_FAILURE in
      do prConfig <- config_of prQueue;
      let missingImgListRPC := map (fun img => mkRpcImage (img_Repository img) (img_Tag img))
                                 (ps_ImageMissingList (prq_Spec prQueue)) in
      let prQueueRPC := mkTeamWithPullRequest (c_teamName c) (ps_BundleName (prq_Spec prQueue))
        (ps_PRNumber (prq_Spec prQueue)) (ps_CommitSHA (prq_Spec prQueue))
        (pst_PullRequestNamespace (prq_Status prQueue)) (rpc_MaxRetry prConfig) missingImgListRPC in
      rpc_RunPostPullRequestQueue (GetComponentUpgradeRPCFromQueue compUpgradeStatus
        (pst_PullRequestQueueHistoryName (prq_Status prQueue)) (c_namespace c) deploymentQueue
        (Some prQueueRPC))
  end.

Definition collectPullRequestQueueResult : Handler unit :=
  do prQueue <- get_obj;
  let prNamespace := pst_PullRequestNamespace (prq_Status prQueue) in
  do deployedQueue <- onW (wrapping
    ("cannot ensure pull request components, namespace " +:+ prNamespace)
    (ensurePullRequestComponents prQueue (ps_Components (prq_Spec prQueue))));
  run set_status (SetDeploymentQueue deployedQueue);
  run set_state PullRequestQueueEnvDestroying;
  run set_cond PullRequestQueueCondResultCollected ConditionTrue
    "Pull request queue result has been collected";
  let tearDownDuration := ps_TearDownDuration (prq_Spec prQueue) in
  do prQueue <- get_obj;
  run (match pst_DestroyedTime (prq_Status prQueue) with
       | None =>
           if isTearDownDurationCriteriaMet (td_Criteria tearDownDuration) prQueue then
             do t <- onW now; set_status (PrqSetDestroyedTime (t + td_Duration tearDownDuration))
           else mret tt
       | Some _ => mret tt
       end);
  let prQueueHistName := generateHistoryName (kname prQueue)
    (om_CreationTimestamp (prq_Meta prQueue)) (ps_NoOfRetry (prq_Spec prQueue)) in
  if String.eqb (pst_PullRequestQueueHistoryName (prq_Status prQueue)) "" then
    do prQueue <- get_obj;
    do r <- attempt (onW (createPullRequestQueueHistory prQueue));
    if match r with inl err => negb (IsAlreadyExists err) | inr _ => false end
    then match r with inl err => throw err | inr _ => mret tt end
    else
      run set_status (SetPullRequestQueueHistoryName prQueueHistName);
      do prQueue <- get_obj;
      onW (sendPullRequestQueueReport prQueue)
  else mret tt.

(** ** controller.go *)

Definition removeFinalizerObject : Handler unit :=
  do prQueue <- get_obj;
  do r <- attempt (onW (k_get PullRequestQueue (c_namespace c, kname prQueue)));
  if match r with inl err => IsNotFound err | inr _ => false end then mret tt else
  if ContainsString (om_Finalizers (prq_Meta prQueue)) pullRequestQueueFinalizer then
    run mod_obj (fun q => q <| prq_Meta ::= fun m =>
      m <| om_Finalizers ::= fun l => RemoveString l pullRequestQueueFinalizer |> |>);
    wrapping ("cannot remove finalizer of pull request queue " +:+ kname prQueue) updatePullRequestQueue
  else mret tt.

(** The error of the request for the namespace is what the call returns when it leaves
    the queue to the rest of the reconciliation. *)
Definition left_over {A} (r : error + A) : Handler bool :=
  match r with inl err => throw err | inr _ => mret false end.

Definition cancel_queue : Handler bool :=
  do prQueue <- get_obj;
  do r <- attempt (onW (k_get (KubeObj NamespaceKind) ("", c_namespace c)));
  if match r with inl err => IsNotFound err | inr nsObj => is_terminating nsObj end then
    run removeFinalizerObject; mret true
  else
  let state := pst_State (prq_Status prQueue) in
  if bool_decide (state = PullRequestQueueNew) || bool_decide (state = PullRequestQueueWaiting) ||
     bool_decide (state = PullRequestQueueFinished) then
    run removeFinalizerObject; mret true
  else if bool_decide (state = PullRequestQueueEnvDestroying) then
    run set_status (fun s => s <| pst_DestroyedTime := None |>); left_over r
  else if IsPrqCanceled prQueue then left_over r
  else
    run set_status (PrqSetResult PullRequestQueueCanceled);
    run set_state PullRequestQueueCollecting;
    run updatePullRequestQueue;
    mret true.

Definition deleteFinalizerWhenFinished : Handler bool :=
  do prQueue <- get_obj;
  let deleting := negb (time_is_zero (om_DeletionTimestamp (prq_Meta prQueue))) in
  if bool_decide (pst_State (prq_Status prQueue) = PullRequestQueueFinished) && negb deleting then
    run onW (deletePullRequestQueue prQueue); mret true
  else if deleting && ContainsString (om_Finalizers (prq_Meta prQueue)) pullRequestQueueFinalizer
  then cancel_queue
  else mret false.

Definition setup : Handler unit :=
  run mod_obj (appendStateLabel stateWaiting);
  set_state PullRequestQueueWaiting.

(** What happens to the queue that is started. *)
Definition start_queue : Handler unit :=
  run mod_obj addFinalizer;
  run mod_obj (appendStateLabel stateRunning);
  run set_state PullRequestQueueEnvCreating;
  run set_cond PullRequestQueueCondStarted ConditionTrue "Pull request queue has been started";
  run set_spec (fun s => s <| ps_Components := ps_UpcomingComponents s |>);
  run set_spec (fun s => s <| ps_CommitSHA := ps_UpcomingCommitSHA s |>);
  updatePullRequestQueue.

Definition managePullRequestQueue (currentPRQueue : PullRequestQueue) : M W bool :=
  do runningPRQueues <- wrapping "cannot list pull request queues"
    (listPullRequestQueues (Some (mkListOptions (kns currentPRQueue) (getStateLabel stateRunning)))
       (kns currentPRQueue));
  do prConfig <- config_of currentPRQueue;
  let prQueueConcurrences := rpc_Concurrences prConfig in
  if prQueueConcurrences <=? Z.of_nat (length runningPRQueues) then mret false else
  do waitingPRQueues <- wrapping "cannot list pull request queues"
    (listPullRequestQueues (Some (mkListOptions (kns currentPRQueue) (getStateLabel stateWaiting)))
       (kns currentPRQueue));
  if (length waitingPRQueues =? 0)%nat then mret false else
  let waitingPRQueues := PrqSort waitingPRQueues in
  if 0 <? int_sub prQueueConcurrences (Z.of_nat (length runningPRQueues)) then
    do first <- index waitingPRQueues 0;
    do ' (_, first) <- with_obj first start_queue;
    mret (String.eqb (kname first) (kname currentPRQueue))
  else mret false.

Definition ensurePullRequestQueueStatus : Handler bool :=
  do prQueue <- get_obj;
  if negb (length (pst_Conditions (prq_Status prQueue)) =? 0)%nat then mret false else
  match ps_IsPRTriggerFailed (prq_Spec prQueue) with
  | None =>
      run set_spec (fun s => s <| ps_IsPRTriggerFailed := Some false |>);
      mret false
  | Some true =>
      run set_cond PullRequestQueueCondStarted ConditionFalse
        "Pull request queue has not been started due to pull request trigger failed";
      run set_cond PullRequestQueueCondEnvCreated ConditionFalse
        "Skipped creating environment due to pull request trigger failed";
      run set_cond PullRequestQueueCondDependenciesUpdated ConditionFalse
        "Skipped updating dependencies due to pull request trigger failed";
      run set_cond PullRequestQueueCondDeployed ConditionFalse
        "Skipped deploying due to pull request trigger failed";
      run set_cond PullRequestQueueCondTested ConditionFalse
        "Skipped running test due to pull request trigger failed";
      run set_status (fun s => s <| pst_State := PullRequestQueueCollecting |>);
      run set_status (fun s => s <| pst_Result := PullRequestQueueFailure |>);
      mret true
  | Some false => mret false
  end.

Definition requeued : Result := mkResult true (2 * Second).

(** Run a handler; an error for which the test holds is a call for another try. *)
Definition requeue_if (test : error -> bool) (fail : error -> error) (h : Handler unit)
    : Handler (option Result) :=
  do r <- attempt h;
  match r with
  | inl err => if test err then mret (Some requeued) else throw (fail err)
  | inr _ => mret None
  end.

(** The switch over the state: the result of the reconciliation, or [None] when the object
    is to be stored. *)
Definition process : Handler (option Result) :=
  do prQueue <- get_obj;
  match pst_State (prq_Status prQueue) with
  | PullRequestQueueNew => run setup; mret None
  | PullRequestQueueWaiting => mret (Some requeued)
  | PullRequestQueueEnvCreating =>
      do r <- attempt createPullRequestEnvironment;
      match r with
      | inl err =>
          if IsAlreadyExists err then mret None
          else if IsNamespaceStillCreating err then mret (Some requeued)
          else throw (Wrap err "cannot create pull request environment")
      | inr _ => mret None
      end
  | PullRequestQueueDeploying =>
      requeue_if IsEnsuringComponentDeployed (fun err => err) ensurePullRequestComponentsDeploying
  | PullRequestQueueTesting =>
      requeue_if IsEnsuringComponentTested (fun err => err) ensurePullRequestComponentsTesting
  | PullRequestQueueCollecting =>
      requeue_if (fun _ => false) (fun err => Wrap err "cannot collect pull request queue result")
        collectPullRequestQueueResult
  | PullRequestQueueEnvDestroying =>
      do r <- attempt destroyPullRequestEnvironment;
      match r with
      | inl err =>
          if IsNamespaceStillExists err then mret (Some requeued)
          else throw (Wrap err "cannot destroy pull request environment")
      | inr true => mret (Some noResult)
      | inr false => mret None
      end
  | _ => mret None
  end.

Definition reconcile_object : Handler Result :=
  do isUpdate <- ensurePullRequestQueueStatus;
  if (isUpdate : bool) then run updatePullRequestQueue; mret noResult else
  do r <- attempt deleteFinalizerWhenFinished;
  match r with
  | inl err => if IsNotFound err then mret noResult else throw err
  | inr true => mret noResult
  | inr false =>
      do prQueue <- get_obj;
      do skipReconcile <- onW (managePullRequestQueue prQueue);
      if (skipReconcile : bool) then mret noResult else
      do res <- process;
      match res with
      | Some res => mret res
      | None => run updatePullRequestQueue; mret noResult
      end
  end.

Definition Reconcile (req : Request) : M W Result :=
  do r <- attempt (k_get PullRequestQueue req);
  match r with
  | inl err => if IsNotFound err then mret noResult else throw err
  | inr prQueue =>
      do ' (res, _) <- with_obj prQueue reconcile_object;
      mret res
  end.
End controller.
