(* ===== verification/PrqMachine.v ===== *)
(** The queue of a pull request as a state machine: the abstract specification of the
    controller in [PrqCtrl].  A [control] is what decides how a queue goes on; [step] is
    one transition of it; [sound] is the invariant of the machine. *)

From S2P Require Import Prelude.
From S2P Require Import GoRuntime.
From S2P Require Import Errors.
From S2P Require Import KubeApi.
From S2P Require Import Evolution.
From S2P Require Import ConfigTypes.
From S2P Require Import QueueTypes.
From S2P Require Import PrqTypes.
From S2P Require Import Interfaces.
From S2P Require Import PrqCtrl.
From stdpp Require Import relations.
Open Scope string_scope.
Open Scope list_scope.
Open Scope Z_scope.

(** ** The control of a queue *)

Record control := mkControl {
  qt_key : string * string;
  qt_label : option string;                   (* the label [state] *)
  qt_held : bool;                             (* the controller's finalizer is there *)
  qt_deleting : bool;
  qt_retry : Z;
  qt_failed : option bool;                    (* the trigger has failed *)
  qt_state : PullRequestQueueState;
  qt_result : PullRequestQueueResult;
  qt_fresh : bool;                            (* no condition is set yet *)
  qt_env : bool;                              (* the environment has been created *)
  qt_deployed : bool;
  qt_tested : bool;
}.
#[export] Instance eta_control : Eta control := fun x =>
  mkControl (qt_key x) (qt_label x) (qt_held x) (qt_deleting x) (qt_retry x) (qt_failed x)
    (qt_state x) (qt_result x) (qt_fresh x) (qt_env x) (qt_deployed x) (qt_tested x).

Definition is_nil {A} (l : list A) : bool := match l with [] => true | _ => false end.

Definition ctl (q : PullRequestQueue) : control :=
  let st := prq_Status q in
  mkControl (kkey q) (om_Labels (prq_Meta q) !! "state")
    (ContainsString (om_Finalizers (prq_Meta q)) pullRequestQueueFinalizer)
    (negb (time_is_zero (om_DeletionTimestamp (prq_Meta q))))
    (ps_NoOfRetry (prq_Spec q)) (ps_IsPRTriggerFailed (prq_Spec q)) (pst_State st) (pst_Result st)
    (is_nil (pst_Conditions st)) (negb (String.eqb (pst_PullRequestNamespace st) ""))
    (PrqIsConditionTrue st PullRequestQueueCondDeployed)
    (PrqIsConditionTrue st PullRequestQueueCondTested).

(** ** The transitions

    [retries] bounds the retries that the configuration allows; [orphaned] says that the
    namespace of the controller is gone or going. *)
Section machine.
Context (retries : Z) (orphaned : Prop).
Implicit Types (c : control).

(** A queue that has been put back starts again from nothing but its trigger. *)
Definition put_back (n : Z) c : control :=
  c <| qt_label := Some stateWaiting |> <| qt_retry := n |> <| qt_state := PullRequestQueueWaiting |>
    <| qt_result := NoPullRequestQueueResult |> <| qt_fresh := true |> <| qt_env := false |>
    <| qt_deployed := false |> <| qt_tested := false |>.

Definition idle (s : PullRequestQueueState) : Prop :=
  s = PullRequestQueueNew \/ s = PullRequestQueueWaiting \/ s = PullRequestQueueFinished.

Inductive step : control -> control -> Prop :=
(* the queue *)
| step_noted c : qt_failed c = None -> step c (c <| qt_failed := Some false |>)
| step_trigger_failed c :
    qt_failed c = Some true -> qt_fresh c = true ->
    step c (c <| qt_fresh := false |> <| qt_deployed := false |> <| qt_tested := false |>
              <| qt_state := PullRequestQueueCollecting |> <| qt_result := PullRequestQueueFailure |>)
| step_setup c :
    qt_state c = PullRequestQueueNew ->
    step c (c <| qt_label := Some stateWaiting |> <| qt_state := PullRequestQueueWaiting |>)
| step_start c h :
    qt_label c = Some stateWaiting -> (qt_held c = true -> h = true) ->
    step c (c <| qt_held := h |> <| qt_label := Some stateRunning |>
              <| qt_state := PullRequestQueueEnvCreating |> <| qt_fresh := false |>)
(* the environment *)
| step_created c :
    qt_state c = PullRequestQueueEnvCreating ->
    step c (c <| qt_env := true |> <| qt_fresh := false |> <| qt_state := PullRequestQueueDeploying |>)
| step_dependencies c : qt_state c = PullRequestQueueDeploying -> step c (c <| qt_fresh := false |>)
| step_deployed c :
    qt_state c = PullRequestQueueDeploying ->
    step c (c <| qt_fresh := false |> <| qt_deployed := true |> <| qt_state := PullRequestQueueTesting |>)
| step_deploy_failed c :
    qt_state c = PullRequestQueueDeploying ->
    step c (c <| qt_result := PullRequestQueueFailure |> <| qt_fresh := false |>
              <| qt_deployed := false |> <| qt_tested := false |>
              <| qt_state := PullRequestQueueCollecting |>)
| step_tested c (b : bool) :
    qt_state c = PullRequestQueueTesting ->
    step c (c <| qt_result := if b then PullRequestQueueSuccess else PullRequestQueueFailure |>
              <| qt_fresh := false |> <| qt_tested := b |> <| qt_state := PullRequestQueueCollecting |>)
| step_collected c :
    qt_state c = PullRequestQueueCollecting ->
    step c (c <| qt_state := PullRequestQueueEnvDestroying |> <| qt_fresh := false |>)
(* the end *)
| step_retry c :
    qt_state c = PullRequestQueueEnvDestroying -> qt_result c = PullRequestQueueFailure ->
    qt_failed c = Some false -> qt_retry c < retries ->
    step c (put_back (int_add (qt_retry c) 1) c)
| step_new_commit c :
    qt_state c = PullRequestQueueEnvDestroying -> step c (put_back 0 c)
| step_finished c :
    qt_state c = PullRequestQueueEnvDestroying ->
    step c (c <| qt_fresh := false |> <| qt_state := PullRequestQueueFinished |>)
| step_marked c : qt_state c = PullRequestQueueFinished -> step c (c <| qt_deleting := true |>)
(* cancellation *)
| step_cancel c :
    qt_deleting c = true -> qt_held c = true -> ~ idle (qt_state c) ->
    qt_state c <> PullRequestQueueEnvDestroying ->
    step c (c <| qt_result := PullRequestQueueCanceled |> <| qt_state := PullRequestQueueCollecting |>)
| step_released c :
    qt_deleting c = true -> idle (qt_state c) \/ orphaned -> step c (c <| qt_held := false |>).

(** ** The invariant *)

(** The result that belongs to a state.  A queue whose trigger has failed may be started
    all the same, with the result it had. *)
Definition result_fits c : Prop :=
  match qt_state c with
  | PullRequestQueueNew | PullRequestQueueWaiting => qt_result c = NoPullRequestQueueResult
  | PullRequestQueueEnvCreating | PullRequestQueueDeploying | PullRequestQueueTesting =>
      qt_label c <> Some stateWaiting /\
      (qt_failed c <> Some true -> qt_result c = NoPullRequestQueueResult)
  | PullRequestQueueCollecting | PullRequestQueueEnvDestroying | PullRequestQueueFinished =>
      qt_result c = PullRequestQueueSuccess \/ qt_result c = PullRequestQueueFailure \/
      qt_result c = PullRequestQueueCanceled
  | OtherPullRequestQueueState _ => False
  end.

(** What the environment has gone through. *)
Definition progress_fits c : Prop :=
  match qt_state c with
  | PullRequestQueueDeploying => qt_env c = true
  | PullRequestQueueTesting => qt_env c = true /\ qt_deployed c = true
  | _ => True
  end.

Record sound c : Prop := {
  sound_queue : qt_label c = Some stateWaiting ->
    (qt_state c = PullRequestQueueWaiting \/ qt_failed c = Some true) /\
    qt_result c <> PullRequestQueueSuccess;
  sound_result : result_fits c;
  sound_progress : progress_fits c;
  sound_fresh : qt_fresh c = true ->
    qt_state c = PullRequestQueueNew \/ qt_state c = PullRequestQueueWaiting;
  sound_success : qt_result c = PullRequestQueueSuccess ->
    qt_env c = true /\ qt_deployed c = true /\ qt_tested c = true;
  sound_retry : 0 <= qt_retry c <= retries;
}.

Lemma prq_step_key c c' : step c c' -> qt_key c' = qt_key c.
Proof. by destruct 1. Qed.

Context (Hretries : 0 <= retries < 2 ^ 63).

Lemma put_back_sound n c : 0 <= n <= retries -> sound (put_back n c).
Proof. intros Hn. split; unfold result_fits, progress_fits; simpl; try done; [|by right]. by split; [left|]. Qed.

(** Every transition keeps the invariant. *)
Lemma prq_step_sound c c' : step c c' -> sound c -> sound c'.
Proof.
  intros Hstep [Hq Hr Hp Hf Hs Ht]. unfold result_fits, progress_fits in Hr, Hp.
  assert (qt_label c = Some stateWaiting ->
    qt_state c <> PullRequestQueueWaiting -> qt_failed c = Some true) as Hlabel.
  { intros Hl Hne. by destruct (Hq Hl) as [[?|?] _]. }
  destruct Hstep as
    [c Hfail|c Hfail Hfresh|c Hst|c h Hl Hh|c Hst|c Hst|c Hst|c Hst|c b Hst|c Hst|c Hst Hres Hfail Hn
    |c Hst|c Hst|c Hst|c Hd Hheld Hidle Hne|c Hd Ho];
    try (by apply put_back_sound; rewrite ?int_add_id; unfold in64; lia);
    try rewrite Hst in *;
    split; unfold result_fits, progress_fits; simpl; try rewrite Hst; auto; try congruence.
  all: try (intros ?; first [done | left; done | right; done | split; done]).
  (* the label of a queue that is not waiting *)
  all: try (intros Hl; split; [right; by apply Hlabel|first [by destruct (Hq Hl)|done]]).
  - intros Hl. destruct (Hq Hl) as [[?|?] ?]; [by split; [left|]|congruence].
  - destruct (qt_state c); try done. all: destruct Hr as [? Hr]; split; [done|]; intros _; apply Hr; congruence.
  - intros _. split; [by left|]. congruence.
  - split; [done|]. intros Hne. destruct (Hq Hl) as [[Hw|?] _]; [|done]. by rewrite Hw in Hr.
  - intros Hsucc. by destruct (Hs Hsucc) as (_ & ? & ?).
  - intros Hsucc. by destruct (Hs Hsucc) as (? & _ & ?).
  - intros Hl. by destruct Hr as [? _].
  - destruct b; auto.
  - destruct Hp. by destruct b.
  - intros Hl. split; [|done]. right. apply Hlabel; [done|]. intros Hw. apply Hidle. by right; left.
  - intros Hfresh. destruct Hidle. destruct (Hf Hfresh); [by left|by right; left].
Qed.

Lemma prq_steps_sound c c' : rtc step c c' -> sound c -> sound c'.
Proof. induction 1 as [|c1 c2 c3 H _ IH]; [done|]. intros. eapply IH, prq_step_sound; eauto. Qed.
End machine.

#[export] Instance queue_evolution retries orphaned : Evolution ctl (step retries orphaned) :=
  {| ev_key := qt_key; ev_ctl_key (q : PullRequestQueue) := eq_refl : kkey q = qt_key (ctl q);
     ev_move_key := prq_step_key retries orphaned |}.

(** The queue that a trigger makes. *)
Lemma new_sound retries teamName namespace bundleName prNumber commitSHA gitRepo comps missing failed
    createAt finishedAt tearDown runner :
  0 <= retries ->
  sound retries (ctl (NewPullRequestQueue teamName namespace bundleName prNumber commitSHA gitRepo
    comps missing failed createAt finishedAt tearDown runner)).
Proof. intros Hr. split; unfold result_fits, progress_fits, ctl; simpl; try done. auto. Qed.
