(* ===== verification/PrqSpec.v ===== *)
(** The controller of pull request queues implements its state machine: every call of
    [PrqCtrl.Reconcile], whatever the other components answer and wherever it stops, moves
    the stored queues along transitions of [PrqMachine.step] only. *)

From S2P Require Import Prelude.
From S2P Require Import GoRuntime.
From S2P Require Import Errors.
From S2P Require Import KubeApi.
From S2P Require Import Frame.
From S2P Require Import Evolution.
From S2P Require Import ConfigTypes.
From S2P Require Import ComponentTypes.
From S2P Require Import QueueTypes.
From S2P Require Import RpcTypes.
From S2P Require Import PrqTypes.
From S2P Require Import QueueCtrl.
From S2P Require Import Interfaces.
From S2P Require Import PrqCtrl.
From S2P Require Import PrqMachine.
From stdpp Require Import relations.
Open Scope string_scope.
Open Scope list_scope.
Open Scope Z_scope.

(** ** The calls of the controller *)

(** The other components keep the reading [v]. *)
Class PrqFrame (W : Type) `{GR : GoRuntime W, PC : PrqCluster W, PO : PrqOutside W, RPC : SamsahaiRPC W}
    {V : Type} (v : W -> V) : Prop := {
  qf_runtime :: RuntimeFrame W v;
  qf_hist :: KFrame W PullRequestQueueHistory v;
  qf_queue :: KFrame W Queue v;
  qf_namespace :: KFrame W (KubeObj NamespaceKind) v;
  qf_client :: Preserves getRuntimeClient v;
  qf_config :: forall r, Preserves (rpc_GetPullRequestConfig r) v;
  qf_dependencies :: forall r, Preserves (rpc_GetPullRequestBundleDependencies r) v;
  qf_create :: forall r, Preserves (rpc_CreatePullRequestEnvironment r) v;
  qf_destroy :: forall r, Preserves (rpc_DestroyPullRequestEnvironment r) v;
  qf_report :: forall r, Preserves (rpc_RunPostPullRequestQueue r) v;
}.

Section frame.
Context {W : Type} `{GR : GoRuntime W} `{GS : GoSort} `{GD : GoDuration}
  `{PC : PrqCluster W} `{PO : PrqOutside W} `{RPC : SamsahaiRPC W}.
Context (c : controller).
Context {V : Type} (v : W -> V) {PF : PrqFrame W v}.

#[export] Instance config_of_preserves q : Preserves (config_of c q) v.
Proof. unfold config_of. apply _. Qed.
#[export] Instance components_preserves q comps : Preserves (ensurePullRequestComponents c q comps) v.
Proof. unfold ensurePullRequestComponents. preserves. Qed.
Lemma update_dependencies_preserves deps own comps : Preserves (update_dependencies (W:=W) deps own comps) v.
Proof. revert own comps. induction deps as [|dep deps IH]; intros own comps; cbn [update_dependencies]; preserves. Qed.
#[export] Instance dependencies_preserves team bundle comps :
  Preserves (updatePullRequestComponentDependenciesVersion team bundle comps) v.
Proof.
  unfold updatePullRequestComponentDependenciesVersion. apply bind_preserves; [apply _|].
  intros deps. apply update_dependencies_preserves.
Qed.
Lemma prq_delete_histories_preserves t d items i : Preserves (delete_histories t d items i) v.
Proof. induction i as [|i IH]; cbn [delete_histories]; preserves. Qed.
#[export] Instance history_preserves q : Preserves (createPullRequestQueueHistory c q) v.
Proof.
  unfold createPullRequestQueueHistory, deletePullRequestQueueHistoryOutOfRange. preserves.
  intros. apply prq_delete_histories_preserves.
Qed.
#[export] Instance send_report_preserves q : Preserves (sendPullRequestQueueReport c q) v.
Proof. unfold sendPullRequestQueueReport. preserves. Qed.
End frame.

(** ** What the control sees of a change *)

(** A condition counts for the control when it is one of two; a status with conditions is
    not fresh. *)
Definition ctl_cond (cond : PullRequestQueueConditionType) (status : ConditionStatus) (c : control) : control :=
  match cond with
  | PullRequestQueueCondDeployed =>
      c <| qt_fresh := false |> <| qt_deployed := bool_decide (status = ConditionTrue) |>
  | PullRequestQueueCondTested =>
      c <| qt_fresh := false |> <| qt_tested := bool_decide (status = ConditionTrue) |>
  | _ => c <| qt_fresh := false |>
  end.

Lemma set_condition_some (cond : PullRequestQueueConditionType) status msg t cs :
  is_nil (A:=PullRequestQueueCondition) (set_condition cond status msg t cs) = false.
Proof. destruct cs; simpl; [done|]. by case_decide. Qed.

Lemma prq_ctl_set_state t st q : ctl (PrqSetState t st q) = (ctl q) <| qt_state := st |>.
Proof. done. Qed.

Lemma prq_ctl_set_cond t cond status msg q :
  ctl (q <| prq_Status ::= PrqSetCondition t cond status msg |>) = ctl_cond cond status (ctl q).
Proof.
  unfold ctl, ctl_cond, PrqIsConditionTrue. simpl. rewrite set_condition_some.
  destruct cond; simpl; rewrite ?is_condition_true_set, ?is_condition_true_set_ne by done; done.
Qed.

Lemma prq_ctl_appendStateLabel l q : ctl (appendStateLabel l q) = (ctl q) <| qt_label := Some l |>.
Proof. unfold appendStateLabel, ctl. simpl. by rewrite lookup_insert_eq. Qed.

Lemma prq_ctl_addFinalizer q : exists h,
  ctl (addFinalizer q) = (ctl q) <| qt_held := h |> /\ (qt_held (ctl q) = true -> h = true).
Proof.
  exists (qt_held (ctl (addFinalizer q))). unfold addFinalizer.
  destruct (time_is_zero _); [|by destruct q]. destruct (ContainsString _ _) eqn:Hc; [by destruct q|].
  split; [done|]. simpl. congruence.
Qed.

Section rules.
Context {W : Type} `{GR : GoRuntime W} `{GS : GoSort} `{GD : GoDuration}
  `{PC : PrqCluster W} `{PO : PrqOutside W} `{RPC : SamsahaiRPC W}.
Context `{KVA : KView W PullRequestQueue} `{KLA : !KClientLaws W PullRequestQueue}.
Context `{PF : !PrqFrame W (kview PullRequestQueue)}.

Notation view s := (kview PullRequestQueue (fst s)).
Implicit Types (s : W * PullRequestQueue).

(** A change of the object. *)
Lemma prq_wp_mod_ctl f s V (c c' : control) (Q : outcome unit -> W * PullRequestQueue -> Prop) :
  view s = V -> ctl (snd s) = c -> ctl (f (snd s)) = c' ->
  (forall s', view s' = V -> ctl (snd s') = c' -> Q (Ok tt) s') -> wp (mod_obj f) s Q.
Proof. intros Hv Hc Hc' HQ. wp_step. by apply HQ. Qed.

(** A change that reads the clock. *)
Lemma wp_clock f s V (c c' : control) (Q : outcome unit -> W * PullRequestQueue -> Prop) :
  view s = V -> ctl (snd s) = c -> (forall t, ctl (f t (snd s)) = c') ->
  (forall s', view s' = V -> ctl (snd s') = c' -> Q (Ok tt) s') ->
  wp (do t <- onW now; mod_obj (f t)) s Q.
Proof.
  intros Hv Hc Hc' HQ. wp_step. apply wp_onW, wp_frame with (v := kview PullRequestQueue);
    [apply _|]. intros r w' Hr Hw. unfold now in Hr. destruct (rt_now (fst s)). simplify_eq.
  wp_step. apply HQ; [done|apply Hc'].
Qed.

Lemma prq_wp_set_state st s V (c : control) (Q : outcome unit -> W * PullRequestQueue -> Prop) :
  view s = V -> ctl (snd s) = c ->
  (forall s', view s' = V -> ctl (snd s') = c <| qt_state := st |> -> Q (Ok tt) s') ->
  wp (set_state st) s Q.
Proof. intros Hv Hc. apply wp_clock with (c := c); [done..|]. intros t. by rewrite prq_ctl_set_state, Hc. Qed.

Lemma prq_wp_set_cond cond status msg s V (c : control) (Q : outcome unit -> W * PullRequestQueue -> Prop) :
  view s = V -> ctl (snd s) = c ->
  (forall s', view s' = V -> ctl (snd s') = ctl_cond cond status c -> Q (Ok tt) s') ->
  wp (set_cond cond status msg) s Q.
Proof.
  intros Hv Hc. unfold set_cond, set_status. apply wp_clock with (c := c); [done..|].
  intros t. by rewrite prq_ctl_set_cond, Hc.
Qed.

Lemma prq_wp_set_result res s V (c : control) (Q : outcome unit -> W * PullRequestQueue -> Prop) :
  view s = V -> ctl (snd s) = c ->
  (forall s', view s' = V -> ctl (snd s') = c <| qt_result := res |> -> Q (Ok tt) s') ->
  wp (set_status (PrqSetResult res)) s Q.
Proof. intros Hv Hc. by apply prq_wp_mod_ctl with (c := c); [..|rewrite <- Hc]. Qed.

Lemma wp_put_state st s V (c : control) (Q : outcome unit -> W * PullRequestQueue -> Prop) :
  view s = V -> ctl (snd s) = c ->
  (forall s', view s' = V -> ctl (snd s') = c <| qt_state := st |> -> Q (Ok tt) s') ->
  wp (set_status (fun x => x <| pst_State := st |>)) s Q.
Proof. intros Hv Hc. by apply prq_wp_mod_ctl with (c := c); [..|rewrite <- Hc]. Qed.

Lemma wp_set_namespace ns s V (c : control) (Q : outcome unit -> W * PullRequestQueue -> Prop) :
  view s = V -> ctl (snd s) = c ->
  (forall s', view s' = V -> ctl (snd s') = c <| qt_env := true |> -> Q (Ok tt) s') ->
  wp (set_status (SetPullRequestNamespace (AppPrefix +:+ ns))) s Q.
Proof. intros Hv Hc. by apply prq_wp_mod_ctl with (c := c); [..|rewrite <- Hc]. Qed.

Lemma wp_label l s V (c : control) (Q : outcome unit -> W * PullRequestQueue -> Prop) :
  view s = V -> ctl (snd s) = c ->
  (forall s', view s' = V -> ctl (snd s') = c <| qt_label := Some l |> -> Q (Ok tt) s') ->
  wp (mod_obj (appendStateLabel l)) s Q.
Proof. intros Hv Hc. apply prq_wp_mod_ctl with (c := c); [done..|]. by rewrite prq_ctl_appendStateLabel, Hc. Qed.

(** Parts of the object that the control does not read. *)
Lemma prq_neutral_status f :
  (forall q, ctl (q <| prq_Status ::= f |>) = ctl q) ->
  Preserves (set_status f) (of_both (kview (W:=W) PullRequestQueue) ctl).
Proof. intros. by apply mod_obj_both. Qed.
Lemma neutral_spec f :
  (forall q, ctl (q <| prq_Spec ::= f |>) = ctl q) ->
  Preserves (set_spec f) (of_both (kview (W:=W) PullRequestQueue) ctl).
Proof. intros. by apply mod_obj_both. Qed.
End rules.

(** Symbolic execution of a handler: [view] and [ctl] of the state are kept as two
    hypotheses about the current state. *)
Ltac ctl_step :=
  lazy beta iota;
  lazymatch goal with
  | |- wp (set_state _) _ _ => eapply prq_wp_set_state; [eassumption..|intros ???]
  | |- wp (set_cond _ _ _) _ _ => eapply prq_wp_set_cond; [eassumption..|intros ???]
  | |- wp (set_status (PrqSetResult _)) _ _ => eapply prq_wp_set_result; [eassumption..|intros ???]
  | |- wp (mod_obj (appendStateLabel _)) _ _ => eapply wp_label; [eassumption..|intros ???]
  | |- wp (set_status (SetPullRequestNamespace _)) _ _ =>
      eapply wp_set_namespace; [eassumption..|intros ???]
  | |- wp (set_status _) _ _ =>
      eapply (wp_keeps ctl); [by apply prq_neutral_status|eassumption..|intros [[]|?|?] ???]
  | |- wp (set_spec _) _ _ =>
      eapply (wp_keeps ctl); [by apply neutral_spec|eassumption..|intros [[]|?|?] ???]
  | |- wp (mbind _ _) _ _ => apply wp_bind
  | |- wp (attempt _) _ _ => apply wp_attempt
  | |- wp (mret _) _ _ => apply wp_ret
  | |- wp (throw _) _ _ => apply wp_throw
  | |- wp get_obj _ _ => apply wp_get_obj
  | |- wp (let x := _ in _) _ _ => cbv zeta
  | |- wp (match ?x with _ => _ end) _ _ => destruct x eqn:?
  | |- wp (onW (match ?x with _ => _ end)) _ _ => destruct x eqn:?
  | |- wp _ _ _ => eapply (wp_keeps ctl); [apply _|eassumption..|intros [?|?|?] ???]
  end.

Ltac ctl_end :=
  match goal with H : ctl ?a = _ |- step _ _ _ (ctl ?a) => rewrite H end.

Section moves.
Context {W : Type} `{GR : GoRuntime W} `{GS : GoSort} `{GD : GoDuration}
  `{PC : PrqCluster W} `{PO : PrqOutside W} `{RPC : SamsahaiRPC W}.
Context `{KVA : KView W PullRequestQueue} `{KLA : !KClientLaws W PullRequestQueue}.
Context `{PF : !PrqFrame W (kview PullRequestQueue)}.
Context (cc : controller) (retries : Z) (orphaned : Prop).

Notation view s := (kview PullRequestQueue (fst s)).
Notation move := (step retries orphaned).

(** The call stores no queue, and when it succeeds the control of the object at hand has
    made one transition. *)
Definition moves {A} (h : Handler A) (s : W * PullRequestQueue) : Prop :=
  wp h s (fun r s' => view s' = view s /\
    match r with Ok _ => move (ctl (snd s)) (ctl (snd s')) | _ => True end).

Ltac ctl_start h :=
  unfold moves;
  match goal with |- context [wp _ ?s _] =>
    let V := fresh "V" in let c := fresh "c" in
    remember (view s) as V eqn:HV; remember (ctl (snd s)) as c eqn:Hc; symmetry in HV, Hc end;
  intros Hs; unfold h; repeat ctl_step; (split; [assumption|]); try done.

(** The only error is the one of the remote call, before anything is changed. *)
Lemma prq_create_moves s :
  qt_state (ctl (snd s)) = PullRequestQueueEnvCreating ->
  wp (createPullRequestEnvironment cc) s (fun r s' => view s' = view s /\
    match r with
    | Ok _ => move (ctl (snd s)) (ctl (snd s'))
    | Err _ => ctl (snd s') = ctl (snd s)
    | Panic _ => True
    end).
Proof.
  ctl_start @createPullRequestEnvironment; try congruence. ctl_end. by apply step_created.
Qed.

Lemma prq_deploy_moves s :
  qt_state (ctl (snd s)) = PullRequestQueueDeploying -> moves (ensurePullRequestComponentsDeploying cc) s.
Proof.
  ctl_start @ensurePullRequestComponentsDeploying; ctl_end.
  - by apply step_dependencies.
  - by apply step_deployed.
  - by apply step_deploy_failed.
Qed.

Lemma prq_test_moves s :
  qt_state (ctl (snd s)) = PullRequestQueueTesting -> moves (ensurePullRequestComponentsTesting cc) s.
Proof.
  ctl_start @ensurePullRequestComponentsTesting; ctl_end.
  - by apply (step_tested _ _ c true).
  - by apply (step_tested _ _ c false).
Qed.

Lemma prq_collect_moves s :
  qt_state (ctl (snd s)) = PullRequestQueueCollecting -> moves (collectPullRequestQueueResult cc) s.
Proof.
  ctl_start @collectPullRequestQueueResult; ctl_end; by apply step_collected.
Qed.

Lemma prq_setup_moves s :
  qt_state (ctl (snd s)) = PullRequestQueueNew -> moves (setup (W:=W)) s.
Proof.
  ctl_start @setup; ctl_end.
  by apply step_setup.
Qed.
End moves.

(** ** Stored queues *)

(** *** The numbers of the queue *)

Lemma ctl_set_order n q : ctl (set_order n q) = ctl q.
Proof. by destruct q. Qed.
Lemma kkey_set_order n q : kkey (set_order n q) = kkey q.
Proof. by destruct q. Qed.
Lemma kname_set_order n q : kname (set_order n q) = kname q.
Proof. by destruct q. Qed.
Lemma set_order_again m n q : set_order m (set_order n q) = set_order m q.
Proof. by destruct q. Qed.

(** Only the number of a queue differs. *)
Definition reordered (all : list PullRequestQueue) (x : PullRequestQueue) : Prop :=
  exists q n, q ∈ all /\ x = set_order n q.

Lemma number_reordered count q x :
  x ∈ snd (number count q) -> x = set_order count q.
Proof.
  unfold number. destruct (_ =? _); simpl; [by intros ?%elem_of_nil|]. by intros ?%list_elem_of_singleton.
Qed.

Lemma number_fst count q : exists n, fst (number count q) = set_order n q.
Proof.
  unfold number. destruct (_ =? _); simpl; [|by eexists].
  exists (ps_NoOfOrder (prq_Spec q)). by destruct q as [? [] ?].
Qed.

(** The list afterwards and the changed queues come from the list before. *)
Lemma number_named_from name count all all' changed :
  number_named name count all = Some (all', changed) ->
  (forall x, x ∈ all' -> reordered all x) /\ (forall x, x ∈ changed -> reordered all x).
Proof.
  revert all' changed. induction all as [|q rest IH]; intros all' changed; simpl; [done|].
  destruct (String.eqb_spec (kname q) name) as [Hn|Hn].
  - destruct (number count q) as [q' ch] eqn:Hnum. intros [= <- <-].
    pose proof (number_fst count q) as [n Hq']. rewrite Hnum in Hq'. simpl in Hq'. subst q'. split.
    + intros x [->|Hx]%elem_of_cons; [exists q, n; split; [left|done]|].
      exists x, (ps_NoOfOrder (prq_Spec x)). split; [by right|]. by destruct x as [? [] ?].
    + intros x Hx. exists q, count. split; [left|]. apply number_reordered. by rewrite Hnum.
  - destruct (number_named name count rest) as [[rest' ch]|]; [|done]. intros [= <- <-].
    destruct (IH _ _ eq_refl) as [H1 H2]. split.
    + intros x [->|Hx]%elem_of_cons.
      * exists q, (ps_NoOfOrder (prq_Spec q)). split; [left|]. by destruct q as [? [] ?].
      * destruct (H1 x Hx) as (q0 & n & ? & ?). exists q0, n. split; [by right|done].
    + intros x Hx. destruct (H2 x Hx) as (q0 & n & ? & ?). exists q0, n. split; [by right|done].
Qed.

Lemma reordered_trans all all' x :
  (forall y, y ∈ all' -> reordered all y) -> reordered all' x -> reordered all x.
Proof.
  intros Hall (q & n & Hq & ->). destruct (Hall q Hq) as (q0 & m & H0 & ->).
  exists q0, n. split; [done|]. apply set_order_again.
Qed.

Lemma number_running_from running all count :
  let '(all', updateList, _) := number_running running all count in
  (forall x, x ∈ all' -> reordered all x) /\ (forall x, x ∈ updateList -> reordered all x).
Proof.
  revert all count. induction running as [|r running IH]; intros all count; simpl.
  - split; [|by intros ? ?%elem_of_nil]. intros x Hx. exists x, (ps_NoOfOrder (prq_Spec x)).
    split; [done|]. by destruct x as [? [] ?].
  - destruct (number_named (kname r) count all) as [[all1 ch]|] eqn:Hn; [|apply IH].
    destruct (number_named_from _ _ _ _ _ Hn) as [H1 H2]. specialize (IH all1 (int_add count 1)).
    destruct (number_running running all1 (int_add count 1)) as [[all2 ul] n2]. destruct IH as [H3 H4].
    split.
    + intros x Hx. eapply reordered_trans; [exact H1|]. auto.
    + intros x [Hx|Hx]%elem_of_app; [auto|]. eapply reordered_trans; [exact H1|]. auto.
Qed.

Lemma number_rest_from running all count x : x ∈ number_rest running all count -> reordered all x.
Proof.
  revert count. induction all as [|q rest IH]; intros count; simpl; [by intros ?%elem_of_nil|].
  destruct (existsb _ _).
  - intros Hx. destruct (IH _ Hx) as (q0 & n & ? & ?). exists q0, n. split; [by right|done].
  - intros [Hx|Hx]%elem_of_app.
    + exists q, count. split; [left|]. by apply number_reordered.
    + destruct (IH _ Hx) as (q0 & n & ? & ?). exists q0, n. split; [by right|done].
Qed.

Lemma renumber_from running all x : x ∈ renumber running all -> reordered all x.
Proof.
  unfold renumber. pose proof (number_running_from running all 1) as Hr.
  destruct (number_running running all 1) as [[all' ul] n]. destruct Hr as [H1 H2].
  intros [Hx|Hx]%elem_of_app; [auto|]. eapply reordered_trans; [exact H1|]. by eapply number_rest_from.
Qed.

Section stored.
Context {W : Type} `{GR : GoRuntime W} `{GS : GoSort} `{GD : GoDuration}
  `{PC : PrqCluster W} `{PO : PrqOutside W} `{RPC : SamsahaiRPC W}.
Context `{KVA : KView W PullRequestQueue} `{KLA : !KClientLaws W PullRequestQueue}.
Context `{PF : !PrqFrame W (kview PullRequestQueue)}.
Context (cc : controller) (retries : Z) (orphaned : Prop).

Notation store := (gmap (string * string) PullRequestQueue).
Notation view s := (kview PullRequestQueue (fst s)).
Notation move := (step retries orphaned).
Notation ahead := (ahead ctl move).
Notation good := (good ctl move).
Notation evolves := (evolves ctl move).
Implicit Types (V : store) (s : W * PullRequestQueue).

#[local] Instance get_queue_preserves key :
  Preserves (k_get PullRequestQueue key) (kview (W:=W) PullRequestQueue).
Proof. apply get_own_preserves. Qed.
#[local] Instance list_own_queue_preserves opts :
  Preserves (k_list PullRequestQueue opts) (kview (W:=W) PullRequestQueue).
Proof. apply list_own_preserves. Qed.
#[export] Instance list_queues_preserves opts ns :
  Preserves (listPullRequestQueues opts ns) (kview (W:=W) PullRequestQueue).
Proof. unfold listPullRequestQueues. apply _. Qed.

(** A listed queue is stored. *)
Lemma wp_list_queues opts ns w (Q : outcome (list PullRequestQueue) -> W -> Prop) :
  (forall l w', l ≡ₚ filter (list_matches (default (InNamespace ns) opts))
      (map_to_list (kview PullRequestQueue w)).*2 ->
    kview PullRequestQueue w' = kview PullRequestQueue w -> Q (Ok l) w') ->
  (forall e w', kview PullRequestQueue w' = kview PullRequestQueue w -> Q (Err e) w') ->
  wp (listPullRequestQueues opts ns) w Q.
Proof.
  intros Hok Herr. unfold listPullRequestQueues, wrapping. wp_step. wp_step.
  apply wp_k_list; intros; wp_step; auto.
Qed.

Lemma listed_stored opts (l : list PullRequestQueue) w q :
  l ≡ₚ filter (list_matches opts) (map_to_list (kview PullRequestQueue w)).*2 -> q ∈ l ->
  kview PullRequestQueue w !! kkey q = Some q /\ list_matches opts q.
Proof. intros Hl. by apply listed_in. Qed.

Lemma reset_evolves V w :
  evolves V (kview PullRequestQueue w) ->
  wp (resetQueueOrder cc) w (fun r w' => r = Ok tt /\ evolves V (kview PullRequestQueue w')).
Proof.
  intros He. unfold resetQueueOrder. wp_step. wp_step.
  apply wp_list_queues; [intros all w1 Hall Hw1|intros e w1 Hw1]; [|wp_step; by rewrite Hw1].
  wp_step. wp_step. apply wp_list_queues; [intros running w2 _ Hw2|intros e w2 Hw2];
    [|wp_step; by rewrite Hw2, Hw1].
  apply (wp_for_each (fun l w' => evolves V (kview PullRequestQueue w') /\
    forall x, x ∈ l -> exists a, V !! kkey x = Some a /\ rtc move (ctl a) (ctl x))).
  - rewrite Hw2, Hw1. split; [done|]. intros x Hx.
    destruct (renumber_from _ _ _ Hx) as (q & n & Hq & ->).
    destruct (listed_stored _ _ _ _ Hall Hq) as [Hs _]. rewrite kkey_set_order, ctl_set_order. auto.
  - intros x l w3 [He3 Hl]. unfold ignore_error, updatePullRequestQueueObj, wrapping.
    do 4 wp_step. destruct (Hl x ltac:(left)) as (a & Ha & Hm).
    assert (forall y, y ∈ l -> exists a, V !! kkey y = Some a /\ rtc move (ctl a) (ctl y)) as Hl'
      by (intros y Hy; apply Hl; by right).
    apply wp_k_update; [intros w4 Hin Hw4|intros e w4 Hw4]; wp_step; wp_step; rewrite Hw4;
      (split; [|done]); [|done].
    by eapply evolves_update.
  - by intros w3 [He3 _].
Qed.

(** *** Storing the object *)

Lemma prq_wp_update V s (c : control) (Q : outcome unit -> W * PullRequestQueue -> Prop) :
  ahead V s -> ctl (snd s) = c ->
  (forall r s', good V (fun _ _ => True) r s' -> snd s' = snd s -> ctl (snd s') = c -> Q r s') ->
  wp updatePullRequestQueue s Q.
Proof.
  intros Hs Hc HQ. unfold updatePullRequestQueue. do 2 wp_step.
  apply (wp_ext (do r <- attempt (onW (k_update (snd s)));
    match r with
    | inl err => throw (Wrap err ("cannot update pull request queue " +:+ kname (snd s)))
    | inr a => mret a
    end)).
  { intros [w q]. unfold updatePullRequestQueueObj, wrapping, onW, attempt, mbind, M_bind. simpl.
    by destruct (k_update (snd s) w) as [[]]. }
  do 2 wp_step. eapply (wp_put ctl move); [exact Hs|exact Hc|].
  intros [[]|e|p] s' Hg Ho Hc'; [wp_step; by apply HQ..|by apply HQ].
Qed.

(** A handler that stores nothing itself. *)
Lemma prq_moves_good {A} (h : Handler A) V s :
  ahead V s -> moves retries orphaned h s -> wp h s (good V (fun _ _ => True)).
Proof.
  intros Hs Hm. unfold moves in Hm. eapply wp_mono; [exact Hm|]. cbv beta. intros r s' [Hv Hstep].
  pose proof Hs as [He _]. split; [by rewrite Hv|]. destruct r; [|done..]. split; [|done].
  by_ahead_move; [exact Hs|exact Hv|]. by apply rtc_once.
Qed.

(** What is left of a handler that may have stored the object itself. *)
Definition continues V (r : outcome bool) s : Prop :=
  evolves V (view s) /\ (r = Ok false -> ahead V s).

Lemma good_continues V (P : unit -> control -> Prop) (r : outcome unit) s :
  good V P r s -> evolves V (view s).
Proof. by intros [He _]. Qed.

(** *** The retry *)

#[local] Instance last_order_neutral l : Preserves (PrqLastQueueOrder l) (kview (W:=W) PullRequestQueue).
Proof. unfold PrqLastQueueOrder. destruct l; [apply _|]. case_match; apply _. Qed.

Lemma ctl_zero_status q t :
  qt_label (ctl q) = Some stateWaiting ->
  ctl (q <| prq_Status ::= fun _ =>
    zeroPrqStatus <| pst_CreatedAt := Some t |> <| pst_State := PullRequestQueueWaiting |> |>)
  = put_back (qt_retry (ctl q)) (ctl q).
Proof. intros Hl. unfold put_back. unfold ctl in *. simpl in *. by rewrite Hl. Qed.

Lemma ctl_retry_spec q n order failed created finished :
  ctl (q <| prq_Spec ::= fun x =>
    x <| ps_NoOfRetry := n |> <| ps_NoOfOrder := order |> <| ps_IsPRTriggerFailed := failed |>
      <| ps_PRTriggerCreatedAt := created |> <| ps_PRTriggerFinishedAt := finished |> |>)
  = (ctl q) <| qt_retry := n |> <| qt_failed := failed |>.
Proof. done. Qed.

Lemma requeue_evolves V s n :
  evolves V (view s) ->
  (forall a, view s !! kkey (snd s) = Some a -> rtc move (ctl a) (put_back n (ctl (snd s)))) ->
  wp (requeue_again cc n) s (fun r s' => evolves V (view s') /\ r <> Ok false).
Proof.
  intros He Hm. assert (exists V0, view s = V0) as [V0 HV] by eauto.
  assert (exists c, ctl (snd s) = c) as [c Hc] by eauto.
  assert (forall s', view s' = V0 -> evolves V (view s')) as Hsame by (intros s' Hv; by rewrite Hv, <- HV).
  unfold requeue_again, retry_queue.
  wp_step. ctl_step; [|split; [eauto|done]..]. wp_step. wp_step. wp_step. wp_step. wp_step.
  wp_step. ctl_step; [|split; [eauto|done]..].
  wp_step. ctl_step; [|split; [eauto|done]..].
  wp_step. eapply wp_label; [eassumption..|]. intros s4 HV4 Hc4.
  wp_step. apply (prq_wp_mod_ctl _ _ V0 (c <| qt_label := Some stateWaiting |>) (put_back (qt_retry c) c));
    [done..| |intros s5 HV5 Hc5].
  { rewrite ctl_zero_status, Hc4; [done|by rewrite Hc4]. }
  wp_step. eapply (wp_keeps ctl); [apply _|exact HV5|exact Hc5|].
  intros [order|?|?] s6 HV6 Hc6; [|split; [eauto|done]..].
  wp_step. apply (prq_wp_mod_ctl _ _ V0 (put_back (qt_retry c) c) (put_back n c)); [done..| |intros s7 HV7 Hc7].
  { rewrite ctl_retry_spec, Hc6, <- H0. done. }
  wp_step. wp_step. apply (wp_put ctl move V _ (ctl (snd s7))); [split; [auto|]|done|].
  { change (kkey (snd s7)) with (qt_key (ctl (snd s7))). rewrite Hc7, <- Hc, HV7, <- HV. exact Hm. }
  intros [[]|e|p] s8 [He8 _] _ _; [|by split..].
  wp_step. apply wp_onW. eapply wp_mono; [by apply reset_evolves|]. intros r w9 [-> He9].
  by wp_step.
Qed.
End stored.

(** ** The whole reconciliation *)

Section reconcile.
Context {W : Type} `{GR : GoRuntime W} `{GS : GoSort} `{GD : GoDuration}
  `{PC : PrqCluster W} `{PO : PrqOutside W} `{RPC : SamsahaiRPC W}.
Context `{KVA : KView W PullRequestQueue} `{KLA : !KClientLaws W PullRequestQueue}.
Context `{PF : !PrqFrame W (kview PullRequestQueue)}.
Context (cc : controller) (retries : Z) (orphaned : Prop).
(** No configuration allows more than [retries] retries. *)
Context (retries_used : forall r w config w',
  rpc_GetPullRequestConfig r w = (Ok config, w') -> rpc_MaxRetry config <= retries).

Notation store := (gmap (string * string) PullRequestQueue).
Notation view s := (kview PullRequestQueue (fst s)).
Notation move := (step retries orphaned).
Notation ahead := (ahead ctl move).
Notation good := (good ctl move).
Notation evolves := (evolves ctl move).
Notation continues := (continues retries orphaned).
Implicit Types (V : store) (s : W * PullRequestQueue).

(** *** The destruction of the environment *)

Lemma continues_same V s s' b :
  ahead V s -> view s' = view s -> rtc move (ctl (snd s)) (ctl (snd s')) -> continues V (Ok b) s'.
Proof.
  intros Hs Hv Hm. split; [by rewrite Hv; apply Hs|]. intros _. by_ahead_move; [exact Hs|exact Hv|exact Hm].
Qed.

(** An error, a panic, or a result that ends the reconciliation. *)
Lemma continues_end V s s' r :
  ahead V s -> view s' = view s -> r <> Ok false -> continues V r s'.
Proof. intros [He _] Hv Hr. split; [by rewrite Hv|]. intros ->. by destruct Hr. Qed.

Lemma wp_config q s V c (Q : outcome RpcPullRequestConfig -> W * PullRequestQueue -> Prop) :
  view s = V -> ctl (snd s) = c ->
  (forall config s', rpc_MaxRetry config <= retries -> view s' = V -> snd s' = snd s -> Q (Ok config) s') ->
  (forall r s', (forall config, r <> Ok config) -> view s' = V -> Q r s') ->
  wp (onW (config_of cc q)) s Q.
Proof.
  intros Hv Hc HQ HE. apply wp_onW. apply (wp_preserve (kview PullRequestQueue)); [apply _|].
  unfold config_of. apply run_wp. intros [config|e|p] w' Hget Hw; [|apply HE; simpl; congruence..].
  apply HQ; [by eapply retries_used|simpl; congruence|done].
Qed.

Lemma put_back_same n m (c : control) :
  put_back n (c <| qt_fresh := false |> <| qt_retry := m |>) = put_back n c.
Proof. done. Qed.

(** The queue at hand is put back; since it was read only its conditions and the number of
    retries may have changed. *)
Lemma requeue_continues V s s' n m :
  ahead V s -> view s' = view s ->
  ctl (snd s') = (ctl (snd s)) <| qt_fresh := false |> <| qt_retry := m |> ->
  move (ctl (snd s)) (put_back n (ctl (snd s))) ->
  wp (requeue_again cc n) s' (continues V).
Proof.
  intros [He Ha] Hv Hc Hm. eapply wp_mono; [eapply (requeue_evolves cc retries orphaned V)|].
  - by rewrite Hv.
  - intros a. change (kkey (snd s')) with (qt_key (ctl (snd s'))). rewrite Hv, Hc, put_back_same.
    intros Hl. etrans; [by apply Ha|by apply rtc_once].
  - intros r s1 [He1 Hr]. split; [done|]. intros ->. by destruct Hr.
Qed.

Lemma destroy_continues V s :
  qt_state (ctl (snd s)) = PullRequestQueueEnvDestroying -> ahead V s ->
  wp (destroyPullRequestEnvironment cc) s (continues V).
Proof.
  intros Hst Hs. assert (exists V0, view s = V0) as [V0 HV] by eauto.
  assert (exists c, ctl (snd s) = c) as [c Hc] by eauto. rewrite Hc in Hst.
  assert (forall s' r, view s' = V0 -> r <> Ok false -> continues V r s') as Hend
    by (intros; eapply continues_end; [exact Hs|congruence|done]).
  unfold destroyPullRequestEnvironment. wp_step. wp_step. wp_step.
  apply (wp_mono _ _ (fun r s' => view s' = V0 /\ ctl (snd s') = c)).
  { destruct (pst_DestroyedTime _); repeat ctl_step; done. }
  intros [early|e|p] s1 (HV1 & Hc1); [|by apply Hend..].
  destruct early; [wp_step; by apply Hend|].
  wp_step. apply (wp_mono _ _ (fun r s' => view s' = V0 /\ ctl (snd s') = c)).
  { repeat ctl_step; done. }
  intros [[]|e|p] s2 (HV2 & Hc2); [|by apply Hend..].
  wp_step. ctl_step. simpl in *. wp_step. eapply wp_config; [eassumption..| |].
  2: { intros [config|e|p] s4 Hr HV4; [by destruct (Hr config)|by apply Hend..]. }
  intros config s4 Hmax HV4 Hobj. destruct (negb _) eqn:Hcommit.
  { eapply requeue_continues with (m := qt_retry c); [exact Hs|congruence| |].
    - rewrite Hobj, H0, Hc. by destruct c.
    - rewrite Hc. by apply step_new_commit. }
  assert (ctl (snd s4) = c <| qt_fresh := false |>) as Hc4 by (by rewrite Hobj).
  clear H0 Hobj. wp_step.
  apply (wp_mono _ _ (fun r s5 => view s5 = V0 /\ ctl (snd s5) = c <| qt_fresh := false |> /\
    (r = Ok true -> move c (put_back (int_add (qt_retry c) 1) c)))).
  { destruct (IsPrqFailure (snd s)) eqn:Hfail; [|by wp_step]. wp_step. wp_step.
    destruct (ps_IsPRTriggerFailed (prq_Spec (snd s))) as [failed|] eqn:Hf; [|done].
    wp_step. split_and!; [done..|]. intros [= Hb].
    apply andb_true_iff in Hb as [Hnf Hlt%Z.ltb_lt]. apply negb_true_iff in Hnf as ->.
    apply bool_decide_eq_true in Hfail. apply step_retry; [done|by rewrite <- Hc..|].
    rewrite <- Hc. simpl. lia. }
  intros [[]|e|p] s5 (HV5 & Hc5 & Hm5); [..|by apply Hend|by apply Hend].
  - wp_step. unfold set_spec. wp_step. wp_step. wp_step.
    eapply requeue_continues with (m := int_add (qt_retry c) 1); [exact Hs|simpl; congruence| |].
    + transitivity ((ctl (snd s5)) <| qt_retry ::= fun n => int_add n 1 |>); [done|].
      by rewrite Hc5, Hc.
    + assert (ps_NoOfRetry (prq_Spec (snd s5)) = qt_retry c) as Hn
        by (change (qt_retry (ctl (snd s5)) = qt_retry c); by rewrite Hc5).
      simpl. rewrite Hn, Hc. by apply Hm5.
  - wp_step. ctl_step. wp_step. eapply continues_same; [exact Hs|congruence|].
    rewrite Hc. match goal with H : ctl (snd ?x) = _ |- rtc _ _ (ctl (snd ?x)) => rewrite H end.
    apply rtc_once. by apply step_finished.
Qed.

(** *** Deletion and cancellation *)

#[local] Instance get_prq_preserves key :
  Preserves (k_get PullRequestQueue key) (kview (W:=W) PullRequestQueue).
Proof. apply get_own_preserves. Qed.

Lemma prq_ctl_mark t q : ctl (kmark t q) = ctl q \/ ctl (kmark t q) = (ctl q) <| qt_deleting := true |>.
Proof.
  destruct q as [[name ns labels fins [d|] created owners] spec st]; [by left|].
  unfold kmark, prq_mark, ctl, kkey, kns, kname, kmeta, prq_object, mark_deleted. simpl.
  case_bool_decide; simpl; [by left|by right].
Qed.

(** A finished queue is deleted. *)
Lemma finish_evolves V s y :
  evolves V (view s) -> view s !! kkey (snd s) = Some y ->
  qt_state (ctl y) = PullRequestQueueFinished ->
  wp (onW (deletePullRequestQueue (snd s))) s (fun _ s' => evolves V (view s')).
Proof.
  intros He Hy Hst. unfold deletePullRequestQueue. apply wp_onW. wp_step. wp_step.
  apply run_wp. intros r w' Hdel. pose proof (k_delete_law (snd s) (fst s)) as Hl. rewrite Hdel in Hl.
  assert (evolves V (kview PullRequestQueue w')) as He'.
  { destruct r as [[]|e|p]; [|destruct Hl as [_ Hw]; by rewrite Hw|done].
    destruct Hl as (y' & Hy' & Hgone & Hmark). simplify_eq.
    destruct (decide (om_Finalizers (kmeta y) = [])) as [Hf|Hf].
    - rewrite (Hgone Hf). intros k a [_ Hk]%lookup_delete_Some. by apply He.
    - destruct (Hmark Hf) as [t ->]. intros k a [[<- <-]|[_ Hk]]%lookup_insert_Some; [|by apply He].
      destruct (He _ _ Hy) as (a0 & H0 & Hm). exists a0. split; [done|]. etrans; [exact Hm|].
      destruct (prq_ctl_mark t y) as [->| ->]; [done|]. by apply rtc_once, step_marked. }
  destruct r as [[]|e|p]; [by wp_step| |done]. destruct (IsNotFound e); by wp_step.
Qed.

Lemma wrapping_update msg V s (c : control) (Q : outcome unit -> W * PullRequestQueue -> Prop) :
  ahead V s -> ctl (snd s) = c ->
  (forall r s', good V (fun _ _ => True) r s' -> Q r s') ->
  wp (wrapping msg updatePullRequestQueue) s Q.
Proof.
  intros Hs Hc HQ. unfold wrapping. wp_step. wp_step. eapply (prq_wp_update retries orphaned); [exact Hs|exact Hc|].
  intros [[]|e|p] s' Hg _ _; [wp_step; by apply HQ..|by apply HQ].
Qed.

Lemma removeFinalizer_evolves V s :
  qt_deleting (ctl (snd s)) = true -> idle (qt_state (ctl (snd s))) \/ orphaned -> ahead V s ->
  wp (removeFinalizerObject cc) s (fun _ s' => evolves V (view s')).
Proof.
  intros Hdel Hrel Hs. assert (exists V0, view s = V0) as [V0 HV] by eauto.
  assert (exists c, ctl (snd s) = c) as [c Hc] by eauto. rewrite Hc in *.
  assert (forall s', view s' = V0 -> evolves V (view s')) as Hend
    by (intros s' Hv; rewrite Hv, <- HV; apply Hs).
  unfold removeFinalizerObject. wp_step. wp_step. wp_step. wp_step.
  eapply (wp_keeps ctl); [apply _|exact HV|exact Hc|].
  assert (forall r : error + PullRequestQueue, forall s', view s' = V0 -> ctl (snd s') = c ->
    wp (if match r with inl err => IsNotFound err | inr _ => false end then mret tt else
        if ContainsString (om_Finalizers (prq_Meta (snd s))) pullRequestQueueFinalizer then
          run mod_obj (fun q => q <| prq_Meta ::= fun m =>
            m <| om_Finalizers ::= fun l => RemoveString l pullRequestQueueFinalizer |> |>);
          wrapping ("cannot remove finalizer of pull request queue " +:+ kname (snd s)) updatePullRequestQueue
        else mret tt) s' (fun _ s' => evolves V (view s'))) as Hrest.
  { intros r s' Hv' Hc'.
    destruct (match r with inl err => IsNotFound err | inr _ => false end); [wp_step; by apply Hend|].
    destruct (ContainsString _ _); [|wp_step; by apply Hend].
    wp_step. wp_step. eapply wrapping_update; [by_ahead_move; [exact Hs|simpl; congruence|]|reflexivity|].
    - simpl. rewrite Hc. replace (ctl _) with (c <| qt_held := false |>).
      + apply rtc_once. by apply step_released.
      + rewrite <- Hc'. unfold ctl. simpl. by rewrite contains_removed.
    - intros r1 s1 Hg. apply Hg. }
  intros [a|e|p] s' Hv' Hc'; [by apply (Hrest (inr a))|by apply (Hrest (inl e))|by apply Hend].
Qed.

(** The namespaces when the reconciliation starts tell whether the queues are orphaned. *)
Context `{KVN : KView W (KubeObj NamespaceKind)}.
Context `{RFN : !RuntimeFrame W (kview (KubeObj NamespaceKind))}
  `{KFN : !KFrame W PullRequestQueue (kview (KubeObj NamespaceKind))}.
Context (namespaces : gmap (string * string) (KubeObj NamespaceKind)).
Context (orphan : forall w r w', kview (KubeObj NamespaceKind) w = namespaces ->
  k_get (KubeObj NamespaceKind) ("", c_namespace cc) w = (r, w') ->
  match r with Ok nsObj => is_terminating nsObj = true | Err e => IsNotFound e = true | Panic _ => False end ->
  orphaned).

Lemma cancel_continues V s :
  kview (KubeObj NamespaceKind) (fst s) = namespaces ->
  qt_deleting (ctl (snd s)) = true -> qt_held (ctl (snd s)) = true -> ahead V s ->
  wp (cancel_queue cc) s (continues V).
Proof.
  intros Hns Hdel Hheld Hs. assert (exists V0, view s = V0) as [V0 HV] by eauto.
  assert (exists c, ctl (snd s) = c) as [c Hc] by eauto. rewrite Hc in *.
  assert (forall s' r, view s' = V0 -> r <> Ok false -> continues V r s') as Hend
    by (intros; eapply continues_end; [exact Hs|congruence|done]).
  assert (forall s', view s' = V0 -> ctl (snd s') = c -> idle (qt_state c) \/ orphaned ->
    wp (run removeFinalizerObject cc; mret true) s' (continues V)) as Hrelease.
  { intros s' Hv' Hc' Hrel. wp_step. eapply wp_mono.
    - eapply (removeFinalizer_evolves V); [by rewrite Hc'|by rewrite Hc'|].
      by_ahead_move; [exact Hs|congruence|by rewrite Hc', Hc].
    - intros [[]|e|p] s1 He1; [wp_step|..]; by split. }
  assert (forall A (r : error + A) s', view s' = V0 -> ctl (snd s') = c ->
    wp (left_over r) s' (continues V)) as Hleft.
  { intros A [e|a] s' Hv' Hc'; unfold left_over; wp_step; [by apply Hend|].
    eapply continues_same; [exact Hs|congruence|by rewrite Hc', Hc]. }
  unfold cancel_queue. wp_step. wp_step. wp_step. wp_step. apply wp_onW. apply run_wp. intros r w' Hget.
  assert (kview PullRequestQueue w' = V0) as Hw.
  { pose proof (k_get_frame (v:=kview PullRequestQueue) (T:=KubeObj NamespaceKind)
      ("", c_namespace cc) (fst s)) as Hf. rewrite Hget in Hf. simpl in Hf. congruence. }
  specialize (orphan _ _ _ Hns Hget).
  assert (forall r0 : error + KubeObj NamespaceKind,
    (match r0 with inl err => IsNotFound err | inr nsObj => is_terminating nsObj end = true -> orphaned) ->
    wp (if match r0 with inl err => IsNotFound err | inr nsObj => is_terminating nsObj end then
      run removeFinalizerObject cc; mret true
    else
    let state := pst_State (prq_Status (snd s)) in
    if bool_decide (state = PullRequestQueueNew) || bool_decide (state = PullRequestQueueWaiting) ||
       bool_decide (state = PullRequestQueueFinished) then
      run removeFinalizerObject cc; mret true
    else if bool_decide (state = PullRequestQueueEnvDestroying) then
      run set_status (fun st => st <| pst_DestroyedTime := None |>); left_over r0
    else if IsPrqCanceled (snd s) then left_over r0
    else
      run set_status (PrqSetResult PullRequestQueueCanceled);
      run set_state PullRequestQueueCollecting;
      run updatePullRequestQueue;
      mret true) (w', snd s) (continues V)) as Hrest.
  { intros r0 Ho. destruct (match r0 with inl err => _ | inr _ => _ end);
      [by apply Hrelease; [..|right; apply Ho]|].
    assert (pst_State (prq_Status (snd s)) = qt_state c) as -> by by rewrite <- Hc.
    wp_step. destruct (_ || _) eqn:Hidle.
    { apply Hrelease; [done..|]. left. unfold idle.
      rewrite !orb_true_iff, !bool_decide_eq_true in Hidle. tauto. }
    destruct (bool_decide (qt_state c = PullRequestQueueEnvDestroying)) eqn:Hd.
    { wp_step. apply bool_decide_eq_true in Hd.
      eapply (wp_keeps ctl); [by apply prq_neutral_status|exact Hw|exact Hc|].
      intros [[]|e|p] s1 Hv1 Hc1; [by apply Hleft|by apply Hend..]. }
    destruct (IsPrqCanceled (snd s)); [by apply Hleft|].
    wp_step. eapply prq_wp_set_result; [exact Hw|exact Hc|]. intros s1 Hv1 Hc1.
    wp_step. eapply prq_wp_set_state; [exact Hv1|exact Hc1|]. intros s2 Hv2 Hc2.
    wp_step. eapply (prq_wp_update retries orphaned V); [by_ahead_move; [exact Hs|congruence|]|exact Hc2|].
    - rewrite Hc2, Hc. apply rtc_once. apply step_cancel; [done..| |].
      + unfold idle. rewrite !orb_false_iff, !bool_decide_eq_false in Hidle. tauto.
      + by apply bool_decide_eq_false in Hd.
    - intros [[]|e|p] s3 [He3 _] _ _; [wp_step|..]; by split. }
  destruct r as [nsObj|e|p]; [apply (Hrest (inr nsObj)); auto|apply (Hrest (inl e)); auto|by apply Hend].
Qed.

Lemma deleteFinalizer_continues V s y :
  kview (KubeObj NamespaceKind) (fst s) = namespaces ->
  view s !! kkey (snd s) = Some y -> qt_state (ctl y) = qt_state (ctl (snd s)) -> ahead V s ->
  wp (deleteFinalizerWhenFinished cc) s (continues V).
Proof.
  intros Hns Hy Hyst Hs. pose proof Hs as [He _]. unfold deleteFinalizerWhenFinished. wp_step. wp_step. cbv zeta.
  destruct (_ && negb _) eqn:Hfin.
  { apply andb_true_iff in Hfin as [Hst%bool_decide_eq_true _]. wp_step.
    eapply wp_mono; [eapply finish_evolves; [exact He|exact Hy|by rewrite Hyst]|].
    intros [[]|e|p] s1 He1; [wp_step|..]; by split. }
  destruct (_ && ContainsString _ _) eqn:Hheld.
  - apply andb_true_iff in Hheld as [Hd Hh]. by apply cancel_continues.
  - wp_step. by eapply continues_same.
Qed.

(** *** The queue *)

(** The start of a queue. *)
Lemma prq_wp_start (V : store) w first :
  kview PullRequestQueue w = V -> V !! kkey first = Some first ->
  om_Labels (prq_Meta first) !! "state" = Some stateWaiting ->
  wp start_queue (w, first)
    (fun r s => evolves V (view s) /\
       pst_State (prq_Status (snd s)) = PullRequestQueueEnvCreating /\
       om_Labels (prq_Meta (snd s)) !! "state" = Some stateRunning /\ kkey (snd s) = kkey first /\
       (view s = V \/ view s = store_update (snd s) V)).
Proof.
  intros HV Hfirst Hlabel. set (c := ctl first).
  destruct (prq_ctl_addFinalizer first) as (h & Hh & Hheld). unfold start_queue.
  wp_step. apply prq_wp_mod_ctl with (V := V) (c := c) (c' := c <| qt_held := h |>); [done..|intros s1 HV1 Hc1].
  wp_step. eapply wp_label; [exact HV1|exact Hc1|intros s2 HV2 Hc2].
  wp_step. eapply prq_wp_set_state; [exact HV2|exact Hc2|intros s3 HV3 Hc3].
  wp_step. eapply prq_wp_set_cond; [exact HV3|exact Hc3|intros s4 HV4 Hc4].
  wp_step. unfold set_spec. eapply prq_wp_mod_ctl; [exact HV4|exact Hc4|exact Hc4|intros s5 HV5 Hc5].
  wp_step. eapply prq_wp_mod_ctl; [exact HV5|exact Hc5|exact Hc5|intros s6 HV6 Hc6].
  assert (kkey (snd s6) = kkey first) as Hkey
    by (change (qt_key (ctl (snd s6)) = qt_key (ctl first)); by rewrite Hc6).
  assert (pst_State (prq_Status (snd s6)) = PullRequestQueueEnvCreating) as Hst
    by (change (qt_state (ctl (snd s6)) = PullRequestQueueEnvCreating); by rewrite Hc6).
  assert (om_Labels (prq_Meta (snd s6)) !! "state" = Some stateRunning) as Hrun
    by (change (qt_label (ctl (snd s6)) = Some stateRunning); by rewrite Hc6).
  assert (rtc move (ctl first) (ctl (snd s6))) as Hm.
  { rewrite Hc6. apply rtc_once. by apply (step_start _ _ c h). }
  unfold updatePullRequestQueue, updatePullRequestQueueObj, wrapping. wp_step. wp_step. wp_step.
  wp_step. wp_step. apply wp_k_update.
  - intros w' Hin Hw'. wp_step. simpl. rewrite Hw', HV6. split_and!; [|done..|by right].
    eapply evolves_update; [apply evolves_refl|by rewrite Hkey|exact Hm].
  - intros e w' Hw'. wp_step. simpl. rewrite Hw', HV6. split_and!; [apply evolves_refl|done..|by left].
Qed.

Lemma manage_evolves q w :
  wp (managePullRequestQueue cc q) w (fun r w' =>
    evolves (kview PullRequestQueue w) (kview PullRequestQueue w') /\
    (r = Ok false -> kview PullRequestQueue w' !! kkey q = kview PullRequestQueue w !! kkey q)).
Proof.
  assert (evolves (kview PullRequestQueue w) (kview PullRequestQueue w)) as Hrefl by apply evolves_refl.
  unfold managePullRequestQueue. wp_step. unfold wrapping. wp_step. wp_step.
  apply wp_list_queues; [|by intros e w1 Hw1; wp_step; rewrite Hw1].
  intros running w1 _ Hw1. wp_step. lazy beta iota zeta. wp_step.
  apply wp_frame with (v := kview PullRequestQueue); [apply _|].
  intros [config|e|p] w2 _ Hw2; [|by rewrite Hw2, Hw1..]. rewrite Hw1 in Hw2.
  destruct (_ <=? _); [wp_step; by rewrite Hw2|].
  wp_step. wp_step. wp_step. apply wp_list_queues; [|by intros e w3 Hw3; wp_step; rewrite Hw3, Hw2].
  intros waiting w3 Hwaiting Hw3. wp_step. lazy beta iota zeta. rewrite Hw2 in Hw3.
  destruct (_ =? _)%nat; [wp_step; by rewrite Hw3|].
  destruct (0 <? _); [|wp_step; by rewrite Hw3].
  wp_step. wp_step. destruct (PrqSort waiting !! 0%nat) as [first|] eqn:Hfirst; [|by rewrite Hw3].
  assert (first ∈ waiting) as Hin.
  { rewrite <- (go_sort_perm PrqLess waiting). by eapply list_elem_of_lookup_2. }
  destruct (listed_stored _ _ _ _ Hwaiting Hin) as [Hk [_ Hlabel]]. rewrite Hw2 in Hk. simpl in Hlabel.
  rewrite map_subseteq_spec in Hlabel. specialize (Hlabel "state" stateWaiting (lookup_singleton_eq _ _)).
  wp_step. apply wp_with_obj. eapply wp_mono; [by apply prq_wp_start; [exact Hw3|exact Hk|]|].
  intros [[]|e|p] s1 (He & _ & _ & Hkey1 & Hput); [|by split..]. wp_step. split; [done|].
  intros [= Hne]. apply String.eqb_neq in Hne. destruct Hput as [->| ->]; [done|].
  apply store_update_other. intros Heq. apply Hne. by injection Heq.
Qed.

(** *** The switch over the state *)

(** A reconciliation that goes on has an object that is ahead of the stored one. *)
Definition goes_on V (r : outcome (option Result)) s : Prop :=
  evolves V (view s) /\ (r = Ok None -> ahead V s).

Lemma prq_requeue_goes_on test fail (h : Handler unit) V s (P : unit -> control -> Prop) :
  wp h s (good V P) -> wp (requeue_if test fail h) s (goes_on V).
Proof.
  intros Hh. unfold requeue_if. wp_step. wp_step. eapply wp_mono; [exact Hh|].
  intros [[]|e|p] s1 [He Hg].
  - wp_step. split; [done|]. intros _. apply Hg.
  - destruct (test e); wp_step; by split.
  - by split.
Qed.

Lemma prq_process_goes_on V s : ahead V s -> wp (process cc) s (goes_on V).
Proof.
  intros Hs. assert (evolves V (view s)) as He by apply Hs.
  unfold process. wp_step. wp_step.
  change (pst_State (prq_Status (snd s))) with (qt_state (ctl (snd s))).
  destruct (qt_state (ctl (snd s))) eqn:Hst; try (wp_step; by split).
  - wp_step. wp_step. eapply wp_mono; [by apply (prq_create_moves cc retries orphaned)|]. cbv beta.
    intros [[]|e|p] s1 [Hv Hc].
    + wp_step. split; [by rewrite Hv|]. intros _. by_ahead_move; [exact Hs|exact Hv|by apply rtc_once].
    + assert (goes_on V (Ok None) s1) as Hsame.
      { split; [by rewrite Hv|]. intros _. by_ahead_move; [exact Hs|exact Hv|by rewrite Hc]. }
      destruct (IsAlreadyExists e); [by wp_step|]. destruct (IsNamespaceStillCreating e); wp_step; by split; [rewrite Hv|].
    + by split; [rewrite Hv|].
  - eapply prq_requeue_goes_on, prq_moves_good; [done|]. by apply prq_deploy_moves.
  - eapply prq_requeue_goes_on, prq_moves_good; [done|]. by apply prq_test_moves.
  - eapply prq_requeue_goes_on, prq_moves_good; [done|]. by apply prq_collect_moves.
  - wp_step. wp_step. eapply wp_mono; [by apply destroy_continues|].
    intros [[]|e|p] s1 [He1 Hg].
    + wp_step. by split.
    + wp_step. split; [done|]. intros _. by apply Hg.
    + destruct (IsNamespaceStillExists e); wp_step; by split.
    + by split.
  - wp_step. eapply wp_mono; [eapply prq_moves_good; [exact Hs|by apply prq_setup_moves]|].
    intros [[]|e|p] s1 [He1 Hg]; [wp_step|..]; split; try done. intros _. apply Hg.
Qed.

(** The object as it is stored, but for the result of a trigger that was not there. *)
Lemma ensure_status V s :
  evolves V (view s) -> view s !! kkey (snd s) = Some (snd s) ->
  wp ensurePullRequestQueueStatus s (fun r s' => view s' = view s /\ kkey (snd s') = kkey (snd s) /\
    match r with
    | Ok b => ahead V s' /\ (b = false -> qt_state (ctl (snd s')) = qt_state (ctl (snd s)))
    | _ => True
    end).
Proof.
  intros He Hstored. assert (ahead V s) as Hs by by apply ahead_stored.
  assert (exists V0, view s = V0) as [V0 HV] by eauto. rewrite HV.
  assert (exists c, ctl (snd s) = c) as [c Hc] by eauto.
  unfold ensurePullRequestQueueStatus. wp_step. wp_step.
  destruct (negb _) eqn:Hn; [by wp_step|].
  assert (qt_fresh c = true) as Hfresh.
  { apply negb_false_iff, Nat.eqb_eq, nil_length_inv in Hn. rewrite <- Hc. simpl. by rewrite Hn. }
  assert (kkey (snd s) = qt_key c) as Hkey by by rewrite <- Hc.
  assert (qt_failed c = ps_IsPRTriggerFailed (prq_Spec (snd s))) as Hfc by by rewrite <- Hc.
  assert (forall s' c' b, view s' = V0 -> ctl (snd s') = c' -> move c c' ->
    (b = false -> qt_state c' = qt_state c) ->
    view s' = V0 /\ kkey (snd s') = kkey (snd s) /\ ahead V s' /\
    (b = false -> qt_state (ctl (snd s')) = qt_state (ctl (snd s)))) as Hend.
  { intros s' c' b Hv' Hc' Hm Hb. split_and!; [done| | |].
    - change (kkey (snd s')) with (qt_key (ctl (snd s'))). rewrite Hc', Hkey. by eapply prq_step_key.
    - by_ahead_move; [exact Hs|congruence|]. rewrite Hc, Hc'. by apply rtc_once.
    - by rewrite Hc, Hc'. }
  destruct (ps_IsPRTriggerFailed (prq_Spec (snd s))) as [[]|] eqn:Hf; [|by wp_step|].
  - do 5 (wp_step; eapply prq_wp_set_cond; [eassumption..|intros ???]).
    wp_step. eapply wp_put_state; [eassumption..|intros s6 Hv6 Hc6].
    wp_step. eapply prq_wp_set_result; [exact Hv6|exact Hc6|intros s7 Hv7 Hc7].
    wp_step. eapply Hend; [done|exact Hc7| |done]. by apply step_trigger_failed.
  - wp_step. unfold set_spec. eapply prq_wp_mod_ctl; [exact HV|exact Hc|reflexivity|intros s2 Hv2 Hc2].
    wp_step. eapply Hend; [done|exact Hc2| |by rewrite <- Hc]. rewrite <- Hc. by apply (step_noted _ _ (ctl (snd s))).
Qed.

#[local] Instance status_keeps_namespaces :
  Preserves ensurePullRequestQueueStatus (of_world (kview (W:=W) (KubeObj NamespaceKind))).
Proof. unfold ensurePullRequestQueueStatus, set_cond, set_spec, set_status. preserves. Qed.

Lemma prq_reconcile_object_evolves V s :
  kview (KubeObj NamespaceKind) (fst s) = namespaces ->
  evolves V (view s) -> view s !! kkey (snd s) = Some (snd s) ->
  wp (reconcile_object cc) s (fun _ s' => evolves V (view s')).
Proof.
  intros Hns HV Hstored. unfold reconcile_object. wp_step.
  apply (wp_preserve (of_world (kview (KubeObj NamespaceKind)))); [apply _|].
  eapply wp_mono; [by apply (ensure_status V)|]. unfold of_world.
  intros [b|e|p] s1 (Hv1 & Hk1 & Hb) Hns1; [|by rewrite Hv1..]. destruct Hb as [Hs1 Hst1].
  destruct b.
  { wp_step. eapply (prq_wp_update retries orphaned V); [exact Hs1|reflexivity|].
    intros [[]|e|p] s2 [He2 _] _ _; [by wp_step|done..]. }
  wp_step. wp_step. eapply wp_mono.
  { eapply deleteFinalizer_continues; [congruence| |symmetry; by apply Hst1|exact Hs1]. by rewrite Hv1, Hk1. }
  intros [[]|e|p] s2 [He2 Hs2]; [by wp_step| |destruct (IsNotFound e); by wp_step|done].
  specialize (Hs2 eq_refl). wp_step. wp_step. wp_step. apply wp_onW.
  eapply wp_mono; [apply manage_evolves|]. intros r w3 [He3 Hsame].
  assert (evolves V (kview PullRequestQueue w3)) as HV3 by (by eapply evolves_trans).
  destruct r as [[]|e|p]; [by wp_step| |done..]. specialize (Hsame eq_refl).
  assert (ahead V (w3, snd s2)) as Hs3.
  { split; [done|]. intros a. simpl. rewrite Hsame. apply Hs2. }
  wp_step. eapply wp_mono; [by apply (prq_process_goes_on V)|].
  intros [[res|]|e|p] s4 [He4 Hs4]; [by wp_step| |done..].
  wp_step. eapply (prq_wp_update retries orphaned V); [by apply Hs4|reflexivity|].
  intros [[]|e|p] s5 [He5 _] _ _; [by wp_step|done..].
Qed.

Lemma prq_Reconcile_evolves V req w :
  kview (KubeObj NamespaceKind) w = namespaces ->
  evolves V (kview PullRequestQueue w) ->
  wp (Reconcile cc req) w (fun _ w' => evolves V (kview PullRequestQueue w')).
Proof.
  intros Hns HV. unfold Reconcile. wp_step. wp_step.
  apply (wp_preserve (kview (KubeObj NamespaceKind))); [apply _|].
  apply wp_k_get; [intros q w1 Hq Hw1 Hns1|intros e w1 _ Hw1 _].
  - wp_step. apply wp_with_obj. pose proof (k_view_keyed _ _ _ Hq) as Hkey.
    eapply wp_mono; [eapply (prq_reconcile_object_evolves V); simpl|].
    + congruence.
    + by rewrite Hw1.
    + by rewrite Hw1, Hkey.
    + intros [res|e|p] s He; [wp_step|..]; done.
  - destruct (IsNotFound e); wp_step; by rewrite Hw1.
Qed.
End reconcile.
