(* ===== verification/PrtFetch.v ===== *)
(** Model of [getPRQueueComponentsIfImageExisted] of
    [internal/pullrequest/trigger/controller.go]: one goroutine per component asks for its
    version, and the caller gathers the answers from channels without buffer.

    A goroutine that has its answer waits until the caller receives it, from the channel of
    versions or from that of errors; then it waits until the caller receives its component
    from the third channel.  [exec] makes one event happen, [fetch_loop] lets the runtime
    choose among those that are possible.  A goroutine that is left behind when the time is
    over does nothing that the caller sees. *)

From S2P Require Import Prelude.
From S2P Require Import GoRuntime.
From S2P Require Import Errors.
From S2P Require Import KubeApi.
From S2P Require Import ConfigTypes.
From S2P Require Import QueueTypes.
From S2P Require Import RpcTypes.
Open Scope string_scope.
Open Scope list_scope.
Open Scope Z_scope.

(** ** The state *)

(** Where a goroutine is: before its call, with an answer to hand over, with its component
    to hand over, at its end. *)
Inductive stage := Calling | Offering (r : error + string) | Identifying | Ended.
(** Where the caller is: in the [select], or with an answer whose component it waits for. *)
Inductive gatherer := Selecting | Awaiting (r : error + string).

Record fetch := mkFetch {
  fe_pool : list (RpcComponentSource * stage);
  fe_main : gatherer;
  fe_left : nat;                              (* answers that are still to be received *)
  fe_comps : QueueComponents;
  fe_missing : list Image;                    (* the list in the status of the trigger *)
  fe_err : option error;
}.
#[export] Instance eta_fetch : Eta fetch := fun x =>
  mkFetch (fe_pool x) (fe_main x) (fe_left x) (fe_comps x) (fe_missing x) (fe_err x).

(** A call returns, an answer is received, a component is received, the time is over. *)
Inductive event := Return (i : nat) | Receive (i : nat) | Identify (i : nat) | Expire.

Definition event_of (main : gatherer) (i : nat) (g : stage) : list event :=
  match g, main with
  | Calling, _ => [Return i]
  | Offering _, Selecting => [Receive i]
  | Identifying, Awaiting _ => [Identify i]
  | _, _ => []
  end.

(** What can happen next. *)
Definition enabled (f : fetch) : list event :=
  concat (imap (fun i p => event_of (fe_main f) i (snd p)) (fe_pool f)) ++
  match fe_main f with Selecting => [Expire] | Awaiting _ => [] end.

Definition initial_fetch (sources : list RpcComponentSource) (missing : list Image) : fetch :=
  mkFetch ((fun s => (s, Calling)) <$> sources) Selecting (length sources) [] missing None.

Definition request_timeout : error :=
  Wrap ErrRequestTimeout "detect missing images for pull request trigger took longer than 5m0s".

(** The components that were found, the error, and the list of missing images. *)
Definition Fetched : Type := QueueComponents * option error * list Image.

Section fetching.
Context {W : Type} `{RPC : SamsahaiRPC W} `{SC : GoSchedule W}.

Definition choose (l : list event) : M W (option event) := fun w =>
  match rt_choose (length l) w with (i, w') => (Ok (l !! i), w') end.

Definition exec (e : event) (f : fetch) : M W fetch :=
  match e with
  | Return i =>
      match fe_pool f !! i with
      | Some (source, Calling) =>
          do r <- attempt (rpc_GetComponentVersion source);
          mret (f <| fe_pool ::= <[i := (source, Offering r)]> |>)
      | _ => mret f
      end
  | Receive i =>
      match fe_pool f !! i with
      | Some (source, Offering r) =>
          mret (f <| fe_pool ::= <[i := (source, Identifying)]> |> <| fe_main := Awaiting r |>)
      | _ => mret f
      end
  | Identify i =>
      match fe_pool f !! i, fe_main f with
      | Some (source, Identifying), Awaiting r =>
          do image <- deref (csr_Image source);
          let f := f <| fe_pool ::= <[i := (source, Ended)]> |> <| fe_main := Selecting |>
                     <| fe_left ::= pred |> in
          match r with
          | inr version =>
              mret (f <| fe_comps ::= fun l =>
                l ++ [mkQueueComponent (csr_ComponentName source) (ri_Repository image) version] |>)
          | inl err =>
              mret (f <| fe_missing := [mkImage (ri_Repository image) (ri_Tag image)] |>
                      <| fe_err := Some err |>)
          end
      | _, _ => mret f
      end
  | Expire => mret f
  end.

Fixpoint fetch_loop (fuel : nat) (f : fetch) : M W (option Fetched) :=
  match fe_main f, fe_left f with
  | Selecting, O => mret (Some (fe_comps f, fe_err f, fe_missing f))
  | _, _ =>
      match fuel with
      | O => mret None
      | S fuel =>
          do e <- choose (enabled f);
          match e with
          | None => mret None
          | Some Expire => mret (Some ([], Some request_timeout, fe_missing f))
          | Some e =>
              do f <- exec e f;
              fetch_loop fuel f
          end
      end
  end.

(** Every goroutine takes three steps. *)
Definition fetch_fuel (sources : list RpcComponentSource) : nat := 3 * length sources.
Definition fetch_components (sources : list RpcComponentSource) (missing : list Image)
    : M W (option Fetched) :=
  fetch_loop (fetch_fuel sources) (initial_fetch sources missing).
End fetching.

(** ** The reference: one answer after the other *)

Definition image_of (source : RpcComponentSource) : RpcImage := default (mkRpcImage "" "") (csr_Image source).

(** The components that were found, in the order of the answers; the last error and its
    image alone. *)
Definition gather_one (acc : Fetched) (answer : RpcComponentSource * (error + string)) : Fetched :=
  let '(comps, err, missing) := acc in
  let '(source, r) := answer in
  let image := image_of source in
  match r with
  | inr version => (comps ++ [mkQueueComponent (csr_ComponentName source) (ri_Repository image) version], err, missing)
  | inl e => (comps, Some e, [mkImage (ri_Repository image) (ri_Tag image)])
  end.
Definition gather (missing : list Image) (answers : list (RpcComponentSource * (error + string))) : Fetched :=
  foldl gather_one ([], None, missing) answers.

(** ** The goroutines *)

Definition weight (g : stage) : nat :=
  match g with Calling => 3 | Offering _ => 2 | Identifying => 1 | Ended => 0 end.
Definition work (pool : list (RpcComponentSource * stage)) : nat := sum_list (weight ∘ snd <$> pool).

Lemma work_perm pool pool' : pool ≡ₚ pool' -> work pool = work pool'.
Proof. intros Hp. unfold work. by rewrite Hp. Qed.

Lemma pool_at {A} (l : list A) i x y :
  l !! i = Some x -> exists rest, l ≡ₚ x :: rest /\ <[i := y]> l ≡ₚ y :: rest.
Proof.
  intros Hi. exists (take i l ++ drop (S i) l). split.
  - rewrite <- (take_drop_middle l i x Hi) at 1. by rewrite Permutation_middle.
  - rewrite insert_take_drop by (by eapply lookup_lt_Some). by rewrite Permutation_middle.
Qed.

Section schedule.
Context {W : Type} `{RPC : SamsahaiRPC W} `{SC : GoSchedule W} {SL : GoScheduleLaws W}.

(** The service has answered so for the component. *)
Definition answered (answer : RpcComponentSource * (error + string)) : Prop :=
  exists w w' : W, attempt (rpc_GetComponentVersion (fst answer)) w = (Ok (snd answer), w').

#[local] Instance event_eq_dec : EqDecision event.
Proof. solve_decision. Defined.

(** A goroutine whose answer has not been received. *)
Definition pending (p : RpcComponentSource * stage) : Prop :=
  match snd p with Calling => True | Offering r => answered (fst p, r) | _ => False end.
Definition ended (answers : list (RpcComponentSource * (error + string))) : list (RpcComponentSource * stage) :=
  (fun a => (fst a, Ended)) <$> answers.

(** The answers so far are gathered in their order, and an answer that is being received
    is that of the goroutine that identifies itself. *)
Definition gathering (sources : list RpcComponentSource) missing (f : fetch) : Prop :=
  (fe_pool f).*1 = sources /\
  exists answers rest,
    (fe_comps f, fe_err f, fe_missing f) = gather missing answers /\
    Forall answered answers /\ Forall pending rest /\
    match fe_main f with
    | Selecting => fe_pool f ≡ₚ ended answers ++ rest /\ fe_left f = length rest
    | Awaiting r => exists source, answered (source, r) /\
        fe_pool f ≡ₚ (source, Identifying) :: ended answers ++ rest /\ fe_left f = S (length rest)
    end.

Lemma gathering_initial sources missing : gathering sources missing (initial_fetch sources missing).
Proof.
  split; [simpl; rewrite <- list_fmap_compose; by rewrite list_fmap_id|].
  exists [], ((fun s => (s, Calling)) <$> sources). split_and!; [done|constructor| |].
  - apply Forall_fmap, Forall_true. by intros s.
  - simpl. by rewrite length_fmap.
Qed.

Lemma enabled_event e f :
  e ∈ enabled f ->
  e = Expire \/ exists i p, fe_pool f !! i = Some p /\ e ∈ event_of (fe_main f) i (snd p).
Proof.
  unfold enabled. intros [He|He]%elem_of_app.
  - right. apply list_elem_of_In, in_concat in He as (l & Hl & He).
    apply list_elem_of_In, list_elem_of_lookup in Hl as [i Hi]. rewrite list_lookup_imap in Hi.
    apply fmap_Some in Hi as (p & Hp & ->). exists i, p. by rewrite list_elem_of_In.
  - left. destruct (fe_main f); [by apply list_elem_of_singleton in He|by apply elem_of_nil in He].
Qed.

Lemma elem_pool {A} (l : list A) i x : l !! i = Some x -> x ∈ l.
Proof. apply list_elem_of_lookup_2. Qed.

Lemma ended_stage answers p : p ∈ ended answers -> snd p = Ended.
Proof. by intros (a & -> & _)%list_elem_of_fmap. Qed.

(** The pool with the goroutine at [i] somewhere else. *)
Lemma pool_moves f i source g g' answers rest extra :
  fe_pool f !! i = Some (source, g) -> fe_pool f ≡ₚ extra ++ ended answers ++ rest -> g <> Ended ->
  (source, g) ∉ extra ->
  exists rest', rest ≡ₚ (source, g) :: rest' /\
    <[i := (source, g')]> (fe_pool f) ≡ₚ (source, g') :: extra ++ ended answers ++ rest'.
Proof.
  intros Hi Hp Hg Hx. destruct (pool_at _ _ _ (source, g') Hi) as (r0 & H0 & H1).
  assert ((source, g) ∈ rest) as Hin.
  { pose proof (elem_pool _ _ _ Hi) as Hin. rewrite Hp in Hin.
    apply elem_of_app in Hin as [?|[Hin%ended_stage|?]%elem_of_app]; [done|by simpl in Hin|done]. }
  apply elem_of_Permutation in Hin as [rest' Hrest]. exists rest'. split; [done|].
  rewrite H1. constructor. apply (Permutation_cons_inv (a := (source, g))).
  rewrite <- H0, Hp, Hrest. by rewrite <- !Permutation_middle.
Qed.

Lemma work_insert (pool : list (RpcComponentSource * stage)) i source g g' :
  pool !! i = Some (source, g) -> (weight g' < weight g)%nat ->
  (work (<[i := (source, g')]> pool) < work pool)%nat.
Proof.
  intros Hi Hw. destruct (pool_at _ _ _ (source, g') Hi) as (r0 & H0 & H1).
  rewrite (work_perm _ _ H0), (work_perm _ _ H1). unfold work. csimpl. lia.
Qed.

Lemma sources_insert (pool : list (RpcComponentSource * stage)) i source g g' :
  pool !! i = Some (source, g) -> (<[i := (source, g')]> pool).*1 = pool.*1.
Proof.
  intros Hi. rewrite list_fmap_insert. simpl. apply list_insert_id. by rewrite list_lookup_fmap, Hi.
Qed.

(** Where the caller would panic. *)
Definition call_panics (sources : list RpcComponentSource) : Prop :=
  exists source, source ∈ sources /\
    (csr_Image source = None \/ exists (w : W) p, fst (rpc_GetComponentVersion source w) = Panic p).

Definition progresses (sources : list RpcComponentSource) missing f (r : outcome fetch) : Prop :=
  match r with
  | Ok f' => gathering sources missing f' /\ (work (fe_pool f') < work (fe_pool f))%nat
  | Err _ => False
  | Panic _ => call_panics sources
  end.

Lemma in_sources sources missing f i p :
  gathering sources missing f -> fe_pool f !! i = Some p -> fst p ∈ sources.
Proof. intros [<- _] Hi. apply list_elem_of_fmap_2. by eapply elem_pool. Qed.

Lemma wp_return sources missing f w i source :
  gathering sources missing f -> fe_pool f !! i = Some (source, Calling) ->
  wp (exec (Return i) f) w (fun r _ => progresses sources missing f r).
Proof.
  intros Hg Hi. pose proof (in_sources _ _ _ _ _ Hg Hi) as Hin. unfold exec. rewrite Hi.
  wp_step. apply run_wp. intros r w1 Hcall.
  destruct r as [r|e|p]; [| |].
  2,3: unfold attempt in Hcall; destruct (rpc_GetComponentVersion source w) as [[] ?] eqn:E; try done.
  2: { exists source. split; [done|]. right. exists w, p0. by rewrite E. }
  wp_step. split; [|simpl; eapply work_insert; [exact Hi|simpl; lia]].
  destruct Hg as [Hsrc (answers & rest & Hacc & Hans & Hrest & Hmain)].
  split; [simpl; by rewrite (sources_insert _ _ _ _ _ Hi)|].
  assert (answered (source, r)) as Hnew by by exists w, w1.
  destruct (fe_main f) as [|r0] eqn:Hm.
  - destruct Hmain as [Hp Hl].
    destruct (pool_moves f i source Calling (Offering r) answers rest []) as (rest' & Hr & Hp');
      [done|done|done|apply not_elem_of_nil|].
    exists answers, ((source, Offering r) :: rest'). cbn [fe_main]. rewrite Hr in Hrest, Hl.
    apply Forall_cons in Hrest as [_ Hrest]. simpl. rewrite Hm. split_and!; [done|done|by constructor| |done].
    rewrite Hp'. by rewrite <- Permutation_middle.
  - destruct Hmain as (s0 & Hs0 & Hp & Hl).
    destruct (pool_moves f i source Calling (Offering r) answers rest [(s0, Identifying)]) as (rest' & Hr & Hp');
      [done|done|done|by intros [= ?]%list_elem_of_singleton|].
    exists answers, ((source, Offering r) :: rest'). rewrite Hr in Hrest, Hl.
    apply Forall_cons in Hrest as [_ Hrest]. simpl. rewrite Hm. split_and!; [done|done|by constructor|].
    exists s0. split_and!; [done| |done]. rewrite Hp'. simpl. by rewrite perm_swap, <- Permutation_middle.
Qed.

Lemma wp_receive sources missing f w i source r0 :
  gathering sources missing f -> fe_main f = Selecting -> fe_pool f !! i = Some (source, Offering r0) ->
  wp (exec (Receive i) f) w (fun r _ => progresses sources missing f r).
Proof.
  intros Hg Hm Hi. unfold exec. rewrite Hi. wp_step.
  split; [|simpl; eapply work_insert; [exact Hi|simpl; lia]].
  destruct Hg as [Hsrc (answers & rest & Hacc & Hans & Hrest & Hmain)].
  split; [simpl; by rewrite (sources_insert _ _ _ _ _ Hi)|].
  rewrite Hm in Hmain. destruct Hmain as [Hp Hl].
  destruct (pool_moves f i source (Offering r0) Identifying answers rest []) as (rest' & Hr & Hp');
    [done|done|done|apply not_elem_of_nil|].
  rewrite Hr in Hrest, Hl. apply Forall_cons in Hrest as [Hans0 Hrest].
  exists answers, rest'. simpl. split_and!; [done|done|done|]. by exists source.
Qed.

Lemma wp_identify sources missing f w i source r0 :
  gathering sources missing f -> fe_main f = Awaiting r0 -> fe_pool f !! i = Some (source, Identifying) ->
  wp (exec (Identify i) f) w (fun r _ => progresses sources missing f r).
Proof.
  intros Hg Hm Hi. pose proof (in_sources _ _ _ _ _ Hg Hi) as Hin. unfold exec. rewrite Hi, Hm.
  wp_step. wp_step. destruct (csr_Image source) as [image|] eqn:Himg; [|exists source; split; [done|by left]].
  destruct Hg as [Hsrc (answers & rest & Hacc & Hans & Hrest & Hmain)].
  rewrite Hm in Hmain. destruct Hmain as (s0 & Hs0 & Hp & Hl).
  assert (s0 = source) as ->.
  { pose proof (elem_pool _ _ _ Hi) as Hx. rewrite Hp in Hx.
    apply elem_of_cons in Hx as [[= ->]|[Hx%ended_stage|Hx]%elem_of_app]; [done|by simpl in Hx|].
    rewrite Forall_forall in Hrest. by apply Hrest in Hx. }
  assert (<[i := (source, Ended)]> (fe_pool f) ≡ₚ ended (answers ++ [(source, r0)]) ++ rest) as Hp'.
  { destruct (pool_at _ _ _ (source, Ended) Hi) as (q0 & H0 & H1). rewrite H1. rewrite Hp in H0.
    apply Permutation_cons_inv in H0. rewrite <- H0. unfold ended. rewrite fmap_app, <- app_assoc. simpl.
    by rewrite <- Permutation_middle. }
  assert (gather missing (answers ++ [(source, r0)])
    = gather_one (fe_comps f, fe_err f, fe_missing f) (source, r0)) as Hnext
    by (rewrite Hacc; unfold gather; by rewrite foldl_app).
  assert (Forall answered (answers ++ [(source, r0)])) as Hans' by by apply Forall_app_2; [|constructor].
  cbv zeta. destruct r0 as [err|version]; wp_step; (split; [|simpl; eapply work_insert; [exact Hi|simpl; lia]]);
    (split; [simpl; by rewrite (sources_insert _ _ _ _ _ Hi)|]);
    eexists _, rest; (split; [rewrite Hnext; simpl; unfold image_of; rewrite Himg; reflexivity|]);
    simpl; rewrite Hl; by split_and!.
Qed.

Lemma wp_exec sources missing f w e :
  gathering sources missing f -> e ∈ enabled f -> e <> Expire ->
  wp (exec e f) w (fun r _ => progresses sources missing f r).
Proof.
  intros Hg [->|(i & [source g] & Hi & He)]%enabled_event Hne; [done|].
  destruct g as [|r0| |], (fe_main f) as [|r1] eqn:Hm; simpl in He;
    try (by apply elem_of_nil in He); apply list_elem_of_singleton in He as ->.
  - by eapply wp_return.
  - by eapply wp_return.
  - by eapply wp_receive.
  - by eapply wp_identify.
Qed.

Lemma work_app pool pool' : work (pool ++ pool') = (work pool + work pool')%nat.
Proof. unfold work. rewrite fmap_app. induction (weight ∘ snd <$> pool) as [|n l IH]; simpl; [done|]. lia. Qed.

Lemma work_ended answers : work (ended answers) = 0%nat.
Proof. unfold work, ended. induction answers as [|a l IH]; [done|]. csimpl. done. Qed.

Lemma event_enabled f i p e :
  fe_pool f !! i = Some p -> e ∈ event_of (fe_main f) i (snd p) -> e ∈ enabled f.
Proof.
  intros Hi He. apply elem_of_app. left. apply list_elem_of_In, in_concat.
  exists (event_of (fe_main f) i (snd p)). split; [|by apply list_elem_of_In].
  apply list_elem_of_In, list_elem_of_lookup. exists i. by rewrite list_lookup_imap, Hi.
Qed.

(** Something can happen as long as the caller is not done. *)
Lemma gathering_goes_on sources missing f :
  gathering sources missing f -> fe_main f <> Selecting \/ fe_left f <> 0%nat ->
  (0 < length (enabled f))%nat /\ (0 < work (fe_pool f))%nat.
Proof.
  intros [_ (answers & rest & _ & _ & Hrest & Hmain)] Hgo.
  destruct (fe_main f) as [|r0] eqn:Hm.
  - destruct Hgo as [?|Hgo]; [done|]. destruct Hmain as [Hp Hl].
    unfold enabled. rewrite length_app, Hm. simpl. split; [lia|].
    destruct rest as [|[source g] rest]; [by rewrite Hl in Hgo|]. apply Forall_cons in Hrest as [Hg _].
    rewrite (work_perm _ _ Hp), work_app, work_ended. unfold work. csimpl. destruct g; [simpl; lia..|done|done].
  - destruct Hmain as (source & _ & Hp & _). split; [|rewrite (work_perm _ _ Hp); unfold work; csimpl; lia].
    assert ((source, Identifying) ∈ fe_pool f) as [i Hi]%list_elem_of_lookup by (rewrite Hp; by left).
    assert (Identify i ∈ enabled f) as Hin.
    { eapply event_enabled; [exact Hi|]. rewrite Hm. by left. }
    destruct (enabled f); [by apply elem_of_nil in Hin|simpl; lia].
Qed.

(** What the caller gets. *)
Definition fetched_well (sources : list RpcComponentSource) missing (r : outcome (option Fetched)) : Prop :=
  match r with
  | Ok (Some (comps, err, missing')) =>
      (comps = [] /\ err = Some request_timeout) \/
      exists answers, fst <$> answers ≡ₚ sources /\ Forall answered answers /\
        (comps, err, missing') = gather missing answers
  | Panic _ => call_panics sources
  | _ => False
  end.

(** One turn of the loop. *)
Lemma wp_fetch_step sources missing fuel f w :
  (forall f' w', gathering sources missing f' -> (work (fe_pool f') <= fuel)%nat ->
     wp (fetch_loop fuel f') w' (fun r _ => fetched_well sources missing r)) ->
  gathering sources missing f -> (work (fe_pool f) <= S fuel)%nat ->
  fe_main f <> Selecting \/ fe_left f <> 0%nat ->
  wp (do e <- choose (enabled f);
      match e with
      | None => mret None
      | Some Expire => mret (Some ([], Some request_timeout, fe_missing f))
      | Some e => do f <- exec e f; fetch_loop fuel f
      end) w (fun r _ => fetched_well sources missing r).
Proof.
  intros IH Hg Hfuel Hgo. destruct (gathering_goes_on _ _ _ Hg Hgo) as [Hen _].
  wp_step. unfold choose. apply run_wp. intros r w1 Hch.
  pose proof (rt_choose_below (length (enabled f)) w Hen) as Hbelow.
  destruct (rt_choose (length (enabled f)) w) as [i w2]. simpl in Hbelow.
  destruct (lookup_lt_is_Some_2 (enabled f) i Hbelow) as [e He]. rewrite He in Hch. simplify_eq.
  apply list_elem_of_lookup_2 in He. destruct (decide (e = Expire)) as [->|Hne]; [wp_step; by left|].
  assert (wp (do f <- exec e f; fetch_loop fuel f) w1 (fun r _ => fetched_well sources missing r)) as Hwp.
  { wp_step. eapply wp_mono; [by eapply wp_exec|]. intros [f'|e'|p] w3 Hr; [|done|done].
    destruct Hr as [Hg' Hw]. apply IH; [done|lia]. }
  by destruct e.
Qed.

Lemma wp_fetch_loop sources missing fuel f w :
  gathering sources missing f -> (work (fe_pool f) <= fuel)%nat ->
  wp (fetch_loop fuel f) w (fun r _ => fetched_well sources missing r).
Proof.
  revert f w. induction fuel as [|fuel IH]; intros f w Hg Hfuel; cbn [fetch_loop].
  all: destruct (fe_main f) as [|r0] eqn:Hm; [destruct (fe_left f) as [|n] eqn:Hl|].
  1,4: wp_step; right; destruct Hg as [Hsrc (answers & rest & Hacc & Hans & Hrest & Hmain)];
    rewrite Hm in Hmain; destruct Hmain as [Hp Hlen]; destruct rest; [|by rewrite Hl in Hlen];
    exists answers; split_and!; [|done|done]; rewrite <- Hsrc, Hp, app_nil_r; unfold ended;
    rewrite <- list_fmap_compose; done.
  1,2: exfalso; destruct (gathering_goes_on _ _ _ Hg) as [_ Hw]; [rewrite Hm, ?Hl; auto|lia].
  all: by eapply wp_fetch_step; [..|rewrite Hm, ?Hl; auto].
Qed.

(** C13: the concurrent look-up of versions is the sequential one, whatever the runtime does
    with the goroutines: it always ends, every answer is put together with the component
    it is about, and what it returns is what going through the components one by one would,
    in the order in which they answer; unless the time is over, which is reported.  It
    panics only when a component has no image or the service does. *)
Theorem fetch_components_sequential sources missing w :
  fetched_well sources missing (fst (fetch_components sources missing w)).
Proof.
  apply (wp_elim _ _ (fun r _ => fetched_well sources missing r)).
  apply wp_fetch_loop; [apply gathering_initial|]. unfold fetch_fuel, initial_fetch, work. simpl.
  induction sources as [|s sources IH]; csimpl; [done|]. lia.
Qed.
End schedule.
