(* ===== verification/PrqSim.v ===== *)
(** A cluster in memory for the controllers of pull requests: stores for their objects and
    a Samsahai that answers every call from one configuration and one registry.  It satisfies the
    assumptions of the theorems and is the world of their concrete runs. *)

From S2P Require Import Prelude.
From S2P Require Import GoRuntime.
From S2P Require Import Errors.
From S2P Require Import KubeApi.
From S2P Require Import Frame.
From S2P Require Import Evolution.
From S2P Require Import ConfigTypes.
From S2P Require Import ComponentTypes.
From S2P Require Import QueueTypes.
From S2P Require Import RpcTypes.
From S2P Require Import PrqTypes.
From S2P Require Import PrtTypes.
From S2P Require Import QueueCtrl.
From S2P Require Import Interfaces.
From S2P Require Import PrqCtrl.
From S2P Require Import PrqMachine.
From S2P Require Import PrqSpec.
From S2P Require Import PrtFetch.
Open Scope string_scope.
Open Scope list_scope.
Open Scope Z_scope.

Record PrqSim := mkPrqSim {
  qs_clock : Z;
  qs_prqs : gmap (string * string) PullRequestQueue;
  qs_hists : gmap (string * string) PullRequestQueueHistory;
  qs_queues : gmap (string * string) Queue;
  qs_namespaces : gmap (string * string) ObjectMeta;
  qs_config : RpcPullRequestConfig;
  qs_dependencies : list RpcComponent;
  qs_triggers : gmap (string * string) PullRequestTrigger;
  qs_sources : list RpcComponentSource;
  qs_registry : gmap string string;           (* the version of a repository *)
}.
#[export] Instance eta_PrqSim : Eta PrqSim := fun x =>
  mkPrqSim (qs_clock x) (qs_prqs x) (qs_hists x) (qs_queues x) (qs_namespaces x) (qs_config x)
    (qs_dependencies x) (qs_triggers x) (qs_sources x) (qs_registry x).

#[export] Instance qsim_clock : HasClock PrqSim :=
  {| clock_get := qs_clock; clock_set t w := w <| qs_clock := t |> |}.
#[export] Instance qsim_prqs : HasStore PrqSim PullRequestQueue :=
  {| store_get := qs_prqs; store_set m w := w <| qs_prqs := m |>; store_get_set _ _ := eq_refl |}.
#[export] Instance qsim_hists : HasStore PrqSim PullRequestQueueHistory :=
  {| store_get := qs_hists; store_set m w := w <| qs_hists := m |>; store_get_set _ _ := eq_refl |}.
#[export] Instance qsim_queues : HasStore PrqSim Queue :=
  {| store_get := qs_queues; store_set m w := w <| qs_queues := m |>; store_get_set _ _ := eq_refl |}.
#[export] Program Instance qsim_namespaces : HasStore PrqSim (KubeObj NamespaceKind) := {|
  store_get w := bareObj <$> qs_namespaces w;
  store_set m w := w <| qs_namespaces := ko_Meta <$> m |>;
|}.
Next Obligation. intros m w. simpl. apply meta_of_namespaces. Qed.

#[export] Instance qsim_triggers : HasStore PrqSim PullRequestTrigger :=
  {| store_get := qs_triggers; store_set m w := w <| qs_triggers := m |>; store_get_set _ _ := eq_refl |}.
#[export] Instance qsim_trigger_client : KClient PrqSim PullRequestTrigger := mem_client.

#[export] Instance qsim_cluster : PrqCluster PrqSim := {|
  pqc_prq := mem_client; pqc_hist := mem_client; pqc_queue := mem_client; pqc_namespace := mem_client |}.
(** Every namespace that is there is active, and the client is always set up. *)
#[export] Instance qsim_outside : PrqOutside PrqSim := {|
  getRuntimeClient := mret tt; is_terminating _ := false |}.
#[export] Instance qsim_sort : GoSort := insertion_GoSort.
(** A duration of so many hours. *)
#[export] Instance qsim_duration : GoDuration := fun s =>
  if String.eqb s "48h" then inr (48 * Hour) else if String.eqb s "0h" then inr 0
  else inl (Errors.New "invalid duration").

(** The first goroutine that can go on does. *)
#[export] Instance qsim_schedule : GoSchedule PrqSim := fun _ w => (0%nat, w).
#[export] Instance qsim_schedule_laws : GoScheduleLaws PrqSim.
Proof. by intros n w Hn. Qed.

(** Samsahai answers with a configuration that keeps to its limits. *)
Definition within_limits (config : RpcPullRequestConfig) : bool :=
  (rpc_MaxRetry config <=? 2) && (rpc_Concurrences config <=? 2) && (rpc_MaxHistoryDays config =? 2) &&
  match rpc_Trigger config with Some t => (0 <=? rtc_MaxRetry t) && (rtc_MaxRetry t <=? 2) | None => true end.

#[export] Instance qsim_rpc : SamsahaiRPC PrqSim := {|
  rpc_GetTeamActiveNamespace team := mret (mkTeamWithNamespace team "");
  rpc_RunPostComponentUpgrade _ := mret tt;
  rpc_RunPostPullRequestQueue _ := mret tt;
  rpc_RunPostPullRequestTrigger _ := mret tt;
  rpc_RunPostPullRequestQueueTestRunnerTrigger _ := mret tt;
  rpc_GetMissingVersions _ := mret [];
  rpc_SendUpdateStateQueueMetric _ := mret tt;
  rpc_GetBundleName _ := mret "";
  rpc_GetPriorityQueues _ := mret [];
  rpc_GetPullRequestBundleDependencies _ := fun w => (Ok (qs_dependencies w), w);
  rpc_GetPullRequestConfig _ := fun w =>
    if within_limits (qs_config w) then (Ok (qs_config w), w) else (Err (Errors.New "configuration"), w);
  rpc_GetPullRequestComponentSources _ := fun w => (Ok (qs_sources w), w);
  rpc_GetComponentVersion source := fun w =>
    match qs_registry w !! ri_Repository (default (mkRpcImage "" "") (csr_Image source)) with
    | Some version => (Ok version, w)
    | None => (Err ErrImageVersionNotFound, w)
    end;
  rpc_DeployActiveServicesIntoPullRequestEnvironment _ := mret tt;
  rpc_CreatePullRequestEnvironment r := fun w =>
    (Ok tt, w <| qs_namespaces ::= insert ("", tpr_Namespace r) (namedMeta "" (tpr_Namespace r)) |>);
  rpc_DestroyPullRequestEnvironment r := fun w =>
    (Ok tt, w <| qs_namespaces ::= delete ("", twn_Namespace r) |>);
|}.

(** ** It satisfies the assumptions *)

#[export] Instance qsim_frame : PrqFrame PrqSim (kview PullRequestQueue).
Proof. split; try (intros; apply _); try (by apply mem_frame); try (by apply sim_runtime_frame); try (by intros ? ?).
  intros r w. simpl. by case_match.
Qed.
#[export] Instance qsim_namespace_runtime : RuntimeFrame PrqSim (kview (KubeObj NamespaceKind)).
Proof. by apply sim_runtime_frame. Qed.
#[export] Instance qsim_namespace_frame : KFrame PrqSim PullRequestQueue (kview (KubeObj NamespaceKind)).
Proof. by apply mem_frame. Qed.

#[export] Instance qsim_history_runtime : RuntimeFrame PrqSim (kview PullRequestQueueHistory).
Proof. by apply sim_runtime_frame. Qed.
#[export] Instance qsim_history_config r :
  Preserves (rpc_GetPullRequestConfig r) (kview (W:=PrqSim) PullRequestQueueHistory).
Proof. intros w. simpl. by case_match. Qed.

Lemma qsim_config r w config w' :
  rpc_GetPullRequestConfig (W:=PrqSim) r w = (Ok config, w') ->
  rpc_MaxRetry config <= 2 /\ rpc_Concurrences config <= 2 /\ rpc_MaxHistoryDays config = 2 /\
  (forall t, rpc_Trigger config = Some t -> 0 <= rtc_MaxRetry t <= 2).
Proof. simpl. destruct (within_limits _) eqn:He; [|done]. intros [= <- _]. unfold within_limits in He.
  apply andb_true_iff in He as [He Ht]. split_and!; [lia..|]. intros t Htr. rewrite Htr in Ht. lia.
Qed.

(** ** Initial worlds *)

Definition sim_controller : controller := mkController "teamtest" "s2h-teamtest".
Definition sim_pr_config (concurrences maxRetry : Z) : RpcPullRequestConfig :=
  mkRpcPullRequestConfig concurrences maxRetry 2 (Some (mkRpcTriggerConfig maxRetry "48h")) "" ""
    (Some (mkRpcTearDownDuration 0 Criteria_UNKNOWN)).
(** A pull request of a bundle that is named after it. *)
Definition sim_prq (name commit : string) : PullRequestQueue :=
  NewPullRequestQueue "teamtest" "s2h-teamtest" name "1" commit "" [] [] false None None
    (mkPullRequestTearDownDuration 0 "") None.
Definition sim_pr_world (t concurrences maxRetry : Z) (prqs : list PullRequestQueue) : PrqSim :=
  mkPrqSim t (list_to_map ((fun q => (kkey q, q)) <$> prqs)) ∅ ∅
    {[ ("", "s2h-teamtest") := namedMeta "" "s2h-teamtest" ]} (sim_pr_config concurrences maxRetry) [] ∅ [] ∅.

(** The staging side: every queue of an environment is finished, with success or not. *)
Definition finish_pr_queues (ok : bool) (w : PrqSim) : PrqSim :=
  w <| qs_queues ::= fmap (fun q => q <| queue_Status ::= fun s =>
         SetCondition 0 QueueTested (if ok then ConditionTrue else ConditionFalse) ""
           (SetCondition 0 QueueDeployed (if ok then ConditionTrue else ConditionFalse) ""
             (s <| qst_State := Finished |> <| qst_StartDeployTime := Some 0 |>)) |>) |>.

(** Reconcile, let the queues finish, and again. *)
Fixpoint pr_rounds (n : nat) (ok : bool) (req : Request) (w : PrqSim) : PrqSim :=
  match n with
  | O => w
  | S n => pr_rounds n ok req (finish_pr_queues ok (snd (Reconcile sim_controller req w)))
  end.
(** What is left of a queue. *)
Definition pr_outcome (req : Request) (w : PrqSim) :=
  (fun q => (pst_State (prq_Status q), pst_Result (prq_Status q), ps_NoOfRetry (prq_Spec q)))
  <$> qs_prqs w !! req.
