(* ===== verification/PrqClaims.v ===== *)
(** The properties of the controller of pull request queues, and a cluster in memory on
    which they are run. *)

From S2P Require Import Prelude.
From S2P Require Import GoRuntime.
From S2P Require Import Errors.
From S2P Require Import KubeApi.
From S2P Require Import Frame.
From S2P Require Import Evolution.
From S2P Require Import ConfigTypes.
From S2P Require Import ComponentTypes.
From S2P Require Import QueueTypes.
From S2P Require Import RpcTypes.
From S2P Require Import PrqTypes.
From S2P Require Import QueueCtrl.
From S2P Require Import Interfaces.
From S2P Require Import PrqCtrl.
From S2P Require Import PrqMachine.
From S2P Require Import PrqSpec.
From S2P Require Import PrqSim.
From stdpp Require Import relations.
Open Scope string_scope.
Open Scope list_scope.
Open Scope Z_scope.

Section claims.
Context {W : Type} `{GR : GoRuntime W} `{GS : GoSort} `{GD : GoDuration}
  `{PC : PrqCluster W} `{PO : PrqOutside W} `{RPC : SamsahaiRPC W}.
Context `{KVA : KView W PullRequestQueue} `{KLA : !KClientLaws W PullRequestQueue}.
Context `{PF : !PrqFrame W (kview PullRequestQueue)}.
Context `{KVN : KView W (KubeObj NamespaceKind)} `{KLN : !KClientLaws W (KubeObj NamespaceKind)}.
Context `{RFN : !RuntimeFrame W (kview (KubeObj NamespaceKind))}
  `{KFN : !KFrame W PullRequestQueue (kview (KubeObj NamespaceKind))}.
Context (cc : controller) (retries : Z).
Context (retries_used : forall r w config w',
  rpc_GetPullRequestConfig r w = (Ok config, w') -> rpc_MaxRetry config <= retries).

Notation store := (gmap (string * string) PullRequestQueue).

(** The namespace of the controller is gone or going. *)
Definition namespace_gone (w : W) : Prop :=
  match kview (KubeObj NamespaceKind) w !! ("", c_namespace cc) with
  | Some ns => is_terminating ns = true
  | None => True
  end.

Lemma Reconcile_evolves_from req w r w' :
  Reconcile cc req w = (r, w') ->
  evolves ctl (step retries (namespace_gone w)) (kview PullRequestQueue w) (kview PullRequestQueue w').
Proof.
  apply (wp_run _ _ _ _ (fun _ w' => evolves _ _ (kview PullRequestQueue w) (kview PullRequestQueue w'))).
  apply (prq_Reconcile_evolves cc retries (namespace_gone w) retries_used (KVN:=KVN)
    (kview (KubeObj NamespaceKind) w)); [|done|apply evolves_refl].
  intros w1 r1 w2 Hns Hget. pose proof (k_get_law (T:=KubeObj NamespaceKind) ("", c_namespace cc) w1) as Hl.
  rewrite Hget, Hns in Hl. unfold namespace_gone. destruct r1 as [ns|e|p]; [|destruct Hl as [Hl _]|done].
  - by destruct Hl as [-> _].
  - intros He. by rewrite (Hl He).
Qed.

(** C4: [Reconcile] implements the state machine of pull request queues.  Whatever the
    other components answer, and wherever the call stops (with a result, an error or a
    panic), every queue that is stored afterwards was stored before, and its control has
    moved by transitions of [step] only: the queue that is reconciled, the one that is
    started in its turn, and those that are only numbered anew. *)
Theorem prq_Reconcile_refines req w r w' k q' :
  Reconcile cc req w = (r, w') ->
  kview PullRequestQueue w' !! k = Some q' ->
  exists q, kview PullRequestQueue w !! k = Some q /\
    rtc (step retries (namespace_gone w)) (ctl q) (ctl q').
Proof. intros Heq%Reconcile_evolves_from. apply Heq. Qed.

(** C5: the invariant of the machine is kept by every reconciliation: a queue has a result
    exactly from the collection on (unless it is one whose trigger has failed), it is
    successful only when its environment was created, its components deployed and their
    tests passed, it is tested only after the deployment, and it is retried no more often
    than allowed. *)
Theorem prq_Reconcile_keeps_sound req w r w' :
  0 <= retries < 2 ^ 63 ->
  (forall k q, kview PullRequestQueue w !! k = Some q -> sound retries (ctl q)) ->
  Reconcile cc req w = (r, w') ->
  forall k q, kview PullRequestQueue w' !! k = Some q -> sound retries (ctl q).
Proof.
  intros Hret Hsound Heq%Reconcile_evolves_from k q' Hk.
  destruct (Heq k q' Hk) as (q & Hq & Hsteps).
  eapply prq_steps_sound; [done|exact Hsteps|by eapply Hsound].
Qed.

(** ** The queue *)

Definition running_in (ns : string) (V : store) : Z :=
  count_stored (list_matches (mkListOptions ns (getStateLabel stateRunning))) V.
Definition waiting_in (ns : string) (q : PullRequestQueue) : Prop :=
  list_matches (mkListOptions ns (getStateLabel stateWaiting)) q.

(** The first queue of the order is started, and there is room for it. *)
Definition starts_first (ns : string) (concurrences : Z) (V V' : store) : Prop :=
  exists first started, V !! kkey first = Some first /\ waiting_in ns first /\
    running_in ns V < concurrences /\
    (forall k b, V !! k = Some b -> waiting_in ns b ->
       ps_NoOfOrder (prq_Spec first) < ps_NoOfOrder (prq_Spec b) \/
       (ps_NoOfOrder (prq_Spec first) = ps_NoOfOrder (prq_Spec b) /\
        string_less (kname b) (kname first) = false)) /\
    kkey started = kkey first /\ pst_State (prq_Status started) = PullRequestQueueEnvCreating /\
    om_Labels (prq_Meta started) !! "state" = Some stateRunning /\
    V' = store_update started V.

(** C6: [managePullRequestQueue] leaves the stored queues alone, or it starts one: then
    the configuration has room for it, it was waiting, and it was the first of the waiting
    ones by number and name.  So the number of running queues of a namespace never grows
    beyond the greatest configured one. *)
Theorem managePullRequestQueue_starts_first limit q w r w' :
  (forall req w1 config w2, rpc_GetPullRequestConfig req w1 = (Ok config, w2) ->
     rpc_Concurrences config <= limit) ->
  managePullRequestQueue cc q w = (r, w') ->
  let V := kview PullRequestQueue w in
  let V' := kview PullRequestQueue w' in
  (V' = V \/ exists config w1 w2, config_of cc q w1 = (Ok config, w2) /\
     starts_first (kns q) (rpc_Concurrences config) V V') /\
  running_in (kns q) V' <= Z.max (running_in (kns q) V) limit.
Proof.
  intros Hlimit Heq V V'. set (ends V1 := V1 = V \/ exists config w1 w2,
    config_of cc q w1 = (Ok config, w2) /\ starts_first (kns q) (rpc_Concurrences config) V V1).
  enough (ends V') as Hmain.
  { split; [done|]. destruct Hmain as [->|(config & w1 & w2 & Hc & Hs)]; [lia|].
    destruct Hs as (first & started & _ & _ & Hroom & _ & _ & _ & _ & ->). unfold running_in in *.
    match goal with |- count_stored ?P _ <= _ => pose proof (count_update P started V) end.
    specialize (Hlimit _ _ _ _ Hc). lia. }
  subst V'. revert Heq. apply (wp_run _ _ _ _ (fun _ w' => ends (kview PullRequestQueue w'))).
  unfold managePullRequestQueue. wp_step. unfold wrapping. wp_step. wp_step.
  apply wp_list_queues; [|intros e w1 Hw1; wp_step; by left].
  intros l w1 Hl Hw1. wp_step. lazy beta iota zeta. wp_step.
  apply wp_frame with (v := kview PullRequestQueue); [apply _|].
  intros [config|e|p] w2 Hconfig Hw2; [|left; by rewrite Hw2, Hw1..]. rewrite Hw1 in Hw2.
  assert (Z.of_nat (length l) = running_in (kns q) V) as -> by (unfold running_in, count_stored; by rewrite Hl).
  destruct (_ <=? _) eqn:Hroom; [wp_step; by left|]. apply Z.leb_gt in Hroom.
  wp_step. wp_step. wp_step. apply wp_list_queues; [|intros e w3 Hw3; wp_step; left; by rewrite Hw3, Hw2].
  intros waiting w3 Hwaiting Hw3. wp_step. lazy beta iota zeta. rewrite Hw2 in Hw3.
  destruct (_ =? _)%nat; [wp_step; by left|]. destruct (0 <? _); [|wp_step; by left].
  wp_step. wp_step. destruct (PrqSort waiting !! 0%nat) as [first|] eqn:Hfirst; [|by left].
  assert (forall b, b ∈ PrqSort waiting <-> V !! kkey b = Some b /\ waiting_in (kns q) b) as Hin.
  { intros b. unfold PrqSort. rewrite go_sort_perm, (listed_in _ _ _ b Hwaiting). by rewrite Hw2. }
  pose proof (proj1 (Hin first) (list_elem_of_lookup_2 _ _ _ Hfirst)) as [Hk Hwait].
  wp_step. apply wp_with_obj. eapply wp_mono.
  { eapply (prq_wp_start 0 True); [exact Hw3|exact Hk|]. destruct Hwait as [_ Hlab]. simpl in Hlab.
    rewrite map_subseteq_spec in Hlab. apply Hlab, lookup_singleton_eq. }
  intros r1 s1 (_ & Hst & Hrun & Hkey1 & Hput).
  enough (ends (kview PullRequestQueue (fst s1))) as Hgoal by (destruct r1; [wp_step|..]; exact Hgoal).
  destruct Hput as [?|Hput]; [by left|right]. exists config, w1, w2. split; [done|].
  exists first, (snd s1). split_and!; try done.
  intros k b Hb Hbw. assert (b ∈ PrqSort waiting) as Hbin
    by (apply Hin; split; [by rewrite (k_view_keyed _ _ _ Hb)|done]).
  pose proof (go_sort_in_order PrqLess waiting PrqLess_ordering) as Hsorted.
  change (go_sort PrqLess waiting) with (PrqSort waiting) in Hsorted.
  destruct (PrqSort waiting) as [|x rest]; [done|]. simpl in Hfirst. simplify_eq.
  apply PrqLess_follow. by eapply in_order_head.
Qed.
End claims.

(** ** The numbers *)

Implicit Types (q x : PullRequestQueue) (all running : list PullRequestQueue).

(** The queues of a list that do not have their place in it as their number yet, with it. *)
Fixpoint changes (n : Z) (l : list PullRequestQueue) : list PullRequestQueue :=
  match l with
  | [] => []
  | q :: l => snd (number n q) ++ changes (n + 1) l
  end.

Lemma changes_app n l l' : changes n (l ++ l') = changes n l ++ changes (n + Z.of_nat (length l)) l'.
Proof.
  revert n. induction l as [|q l IH]; intros n; simpl; [by rewrite Z.add_0_r|].
  rewrite IH, app_assoc. by replace (n + 1 + Z.of_nat (length l)) with (n + Z.of_nat (S (length l))) by lia.
Qed.

Lemma number_name n q : kname (fst (number n q)) = kname q.
Proof. unfold number. by destruct (_ =? _). Qed.

(** The queues of a list whose names are not among the given ones. *)
Definition others (names : list string) all : list PullRequestQueue :=
  filter (fun q => kname q ∉ names) all.

(** A queue of the list gets its number; those of other names stay as they are. *)
Lemma number_named_in x all count :
  NoDup (kname <$> all) -> x ∈ all ->
  exists all', number_named (kname x) count all = Some (all', snd (number count x)) /\
    kname <$> all' = kname <$> all /\
    (forall q, kname q <> kname x -> q ∈ all -> q ∈ all') /\
    (forall names, kname x ∈ names -> others names all' = others names all).
Proof.
  induction all as [|q all IH]; intros Hnd Hx; [by apply elem_of_nil in Hx|].
  simpl. apply NoDup_cons in Hnd as [Hq Hnd]. destruct (String.eqb_spec (kname q) (kname x)) as [He|Hne].
  - assert (q = x) as ->.
    { apply elem_of_cons in Hx as [->|Hx]; [done|]. destruct Hq. rewrite He. by apply list_elem_of_fmap_2. }
    destruct (number count x) as [x' ch] eqn:Hn. pose proof (number_name count x) as Hname.
    rewrite Hn in Hname. simpl in Hname. exists (x' :: all). split_and!; [done| | |].
    + csimpl. by rewrite Hname.
    + intros y Hy [->|Hin]%elem_of_cons; [done|by right].
    + intros names Hin. unfold others. rewrite !filter_cons, Hname. by rewrite !decide_False by (intros Hn'; by apply Hn').
  - apply elem_of_cons in Hx as [->|Hx]; [done|].
    destruct (IH Hnd Hx) as (all' & -> & Hnames & Hin & Hf). exists (q :: all'). split_and!; [done| | |].
    + csimpl. by rewrite Hnames.
    + intros y Hy [->|Hi]%elem_of_cons; [left|right; by apply Hin].
    + intros names Hi. specialize (Hf names Hi). unfold others in *. rewrite !filter_cons. case_decide; by rewrite Hf.
Qed.

Lemma number_running_changes running all count :
  NoDup (kname <$> all) -> NoDup (kname <$> running) -> (forall x, x ∈ running -> x ∈ all) ->
  0 <= count -> count + Z.of_nat (length running) < 2 ^ 63 ->
  exists all', number_running running all count
      = (all', changes count running, count + Z.of_nat (length running)) /\
    length all' = length all /\
    forall names, (forall x, x ∈ running -> kname x ∈ names) -> others names all' = others names all.
Proof.
  revert all count. induction running as [|x running IH]; intros all count Hall Hnd Hin Hc Hb.
  - exists all. simpl. by rewrite Z.add_0_r.
  - apply NoDup_cons in Hnd as [Hx Hnd]. simpl in Hb.
    destruct (number_named_in x all count Hall) as (all1 & Hn & Hnames & Hkeep & Hf); [by apply Hin; left|].
    assert (int_add count 1 = count + 1) as Hadd by (apply int_add_id; unfold in64; lia).
    destruct (IH all1 (count + 1)) as (all2 & Heq & Hl & Hf2); [by rewrite Hnames|done| |lia|lia|].
    { intros y Hy. apply Hkeep; [|by apply Hin; right]. intros He. apply Hx. rewrite <- He.
      by apply list_elem_of_fmap_2. }
    exists all2. cbn [number_running]. rewrite Hn, Hadd, Heq. split_and!.
    + f_equal. simpl. lia.
    + by rewrite Hl, <- (length_fmap kname all1), Hnames, length_fmap.
    + intros names Hnm. rewrite Hf2, Hf; [done|by apply Hnm; left|]. intros y Hy. by apply Hnm; right.
Qed.

Lemma number_rest_changes running all count :
  0 <= count -> count + Z.of_nat (length all) < 2 ^ 63 ->
  number_rest running all count = changes count (others (kname <$> running) all).
Proof.
  unfold others. revert count. induction all as [|q all IH]; intros count Hc Hb; [done|]. simpl in Hb. cbn [number_rest].
  assert (existsb (fun r => String.eqb (kname q) (kname r)) running = true <-> kname q ∈ kname <$> running) as Hex.
  { rewrite existsb_exists, list_elem_of_fmap. split.
    - intros (x & Hx & He%String.eqb_eq). exists x. by rewrite <- list_elem_of_In in Hx.
    - intros (x & He & Hx). exists x. rewrite <- list_elem_of_In. split; [done|]. by apply String.eqb_eq. }
  rewrite filter_cons. destruct (existsb _ _) eqn:He.
  - rewrite decide_False by (intros Hn; apply Hn; by apply Hex). apply IH; lia.
  - rewrite decide_True by (intros Hn; apply Hex in Hn; congruence). cbn [changes].
    rewrite int_add_id by (unfold in64; lia). by rewrite IH by lia.
Qed.

(** The running queues first, then the others as they were listed. *)
Definition new_order running all : list PullRequestQueue :=
  running ++ others (kname <$> running) all.

Lemma renumber_changes running all :
  NoDup (kname <$> all) -> NoDup (kname <$> running) -> (forall x, x ∈ running -> x ∈ all) ->
  Z.of_nat (length all) < 2 ^ 62 -> renumber running all = changes 1 (new_order running all).
Proof.
  intros Hall Hnd Hin Hb. unfold renumber, new_order.
  assert (length running <= length all)%nat as Hlen.
  { rewrite <- (length_fmap kname running), <- (length_fmap kname all). apply submseteq_length.
    apply NoDup_submseteq; [done|]. intros n (x & -> & Hx)%list_elem_of_fmap. by apply list_elem_of_fmap_2, Hin. }
  destruct (number_running_changes running all 1) as (all' & -> & Hl & Hf); [done|done|done|lia|lia|].
  rewrite number_rest_changes, Hf, changes_app by (try lia; intros x Hx; by apply list_elem_of_fmap_2). done.
Qed.

(** No queue is lost. *)
Lemma new_order_perm running all :
  NoDup (kname <$> all) -> NoDup (kname <$> running) -> (forall x, x ∈ running -> x ∈ all) ->
  new_order running all ≡ₚ all.
Proof.
  intros Hall Hnd Hin. apply NoDup_Permutation.
  - apply NoDup_app. split_and!; [by eapply NoDup_fmap_1| |by eapply NoDup_filter, NoDup_fmap_1].
    intros x Hx [Hn _]%list_elem_of_filter. by apply Hn, list_elem_of_fmap_2.
  - by eapply NoDup_fmap_1.
  - intros x. unfold new_order, others. rewrite elem_of_app, list_elem_of_filter. split.
    + intros [Hx|[_ Hx]]; [by apply Hin|done].
    + intros Hx. destruct (decide (kname x ∈ kname <$> running)) as [Hn|Hn]; [|by right].
      apply list_elem_of_fmap in Hn as (y & He & Hy). left.
      enough (x = y) as -> by done. apply (fmap_NoDup_inj kname all); auto.
Qed.

(** The numbers 1, 2, ... are given to the queues of a list. *)
Definition numbered (l : list PullRequestQueue) (V V' : gmap (string * string) PullRequestQueue) : Prop :=
  (forall i q, l !! i = Some q -> V' !! kkey q = Some (set_order (1 + Z.of_nat i) q)) /\
  (forall k, k ∉ kkey <$> l -> V' !! k = V !! k).

(** The same, queue by queue. *)
Fixpoint give (n : Z) (l : list PullRequestQueue) (V : gmap (string * string) PullRequestQueue)
    : gmap (string * string) PullRequestQueue :=
  match l with
  | [] => V
  | q :: l => give (n + 1) l (<[kkey q := set_order n q]> V)
  end.

Lemma give_other n l V k : k ∉ kkey <$> l -> give n l V !! k = V !! k.
Proof.
  revert n V. induction l as [|q l IH]; intros n V Hk; [done|]. csimpl in Hk.
  apply not_elem_of_cons in Hk as [Hq Hl]. simpl. by rewrite IH, lookup_insert_ne by congruence.
Qed.

Lemma give_in n l V i q :
  NoDup (kkey <$> l) -> l !! i = Some q -> give n l V !! kkey q = Some (set_order (n + Z.of_nat i) q).
Proof.
  revert n V i. induction l as [|x l IH]; intros n V i Hnd Hi; [done|]. csimpl in Hnd.
  apply NoDup_cons in Hnd as [Hx Hnd]. destruct i as [|i]; simpl in *.
  - simplify_eq. by rewrite give_other, lookup_insert_eq, Z.add_0_r.
  - rewrite (IH _ _ i) by done. by replace (n + 1 + Z.of_nat i) with (n + Z.of_nat (S i)) by lia.
Qed.

Lemma set_order_same q : set_order (ps_NoOfOrder (prq_Spec q)) q = q.
Proof. by destruct q as [? [] ?]. Qed.

Section numbers.
Context {W : Type} `{GR : GoRuntime W} `{GS : GoSort} `{PC : PrqCluster W}.
Context `{KVA : KView W PullRequestQueue} `{KLA : !KClientLaws W PullRequestQueue}.
Context (cc : controller).
(** Both listings succeed, or nothing is done. *)
Lemma wp_reset w V (Q : outcome unit -> W -> Prop) :
  kview PullRequestQueue w = V -> c_namespace cc <> "" -> Z.of_nat (size V) < 2 ^ 62 ->
  (forall w', kview PullRequestQueue w' = V -> Q (Ok tt) w') ->
  (forall all running w', kview PullRequestQueue w' = V ->
     all ≡ₚ filter (list_matches (InNamespace (c_namespace cc))) (map_to_list V).*2 ->
     running ≡ₚ filter (list_matches (mkListOptions (c_namespace cc) (getStateLabel stateRunning)))
                  (map_to_list V).*2 ->
     let l := new_order (PrqSort running) all in
     NoDup (kkey <$> l) -> (forall x, x ∈ l -> V !! kkey x = Some x) -> (length l <= size V)%nat ->
     wp (for_each (changes 1 l) (fun q => ignore_error (updatePullRequestQueueObj q))) w' Q) ->
  wp (resetQueueOrder cc) w Q.
Proof.
  intros HV Hns Hsize HQ Hloop. unfold resetQueueOrder. wp_step. wp_step.
  apply wp_list_queues; [intros all w1 Hall Hw1|intros e w1 Hw1]; [|wp_step; apply HQ; by rewrite ?Hw2, ?Hw1].
  wp_step. wp_step. apply wp_list_queues; [intros running w2 Hrun Hw2|intros e w2 Hw2];
    [|wp_step; apply HQ; by rewrite ?Hw2, ?Hw1].
  simpl in Hall, Hrun. rewrite Hw1 in Hrun.
  assert (forall x, x ∈ all -> V !! kkey x = Some x) as Hstored
    by (intros x [Hx _]%(listed_in _ _ _ _ Hall); by rewrite <- HV).
  assert (forall x, x ∈ PrqSort running -> x ∈ all) as Hin.
  { intros x. unfold PrqSort. rewrite go_sort_perm, (listed_in _ _ _ x Hrun), (listed_in _ _ _ x Hall).
    intros [? [? _]]. split; [done|]. split; [done|apply map_empty_subseteq]. }
  assert (NoDup (kname <$> PrqSort running)) as Hnd.
  { unfold PrqSort. rewrite go_sort_perm. by eapply listed_names. }
  assert (NoDup (kname <$> all)) as Hall_nd by by eapply listed_names.
  pose proof (new_order_perm _ _ Hall_nd Hnd Hin) as Hperm.
  assert (length all <= size V)%nat as Hlen.
  { rewrite <- HV, Hall, length_filter, length_fmap, length_map_to_list. done. }
  rewrite renumber_changes by (try done; lia). rewrite HV in Hall, Hrun.
  apply (Hloop all running w2); [by rewrite Hw2, Hw1|done|done|..].
  - apply (NoDup_fmap_1 snd). rewrite <- list_fmap_compose. by rewrite Hperm.
  - intros x. rewrite Hperm. apply Hstored.
  - by rewrite Hperm.
Qed.

(** The updates of queues that are stored succeed. *)
Context (updates : forall q w, is_Some (kview PullRequestQueue w !! kkey q) ->
  exists w', k_update q w = (Ok tt, w')).

Lemma wp_store_changes n l w V (Q : outcome unit -> W -> Prop) :
  kview PullRequestQueue w = V -> NoDup (kkey <$> l) ->
  (forall q, q ∈ l -> V !! kkey q = Some q /\ ~ is_gone (prq_Meta q)) ->
  (forall w', kview PullRequestQueue w' = give n l V -> Q (Ok tt) w') ->
  wp (for_each (changes n l) (fun q => ignore_error (updatePullRequestQueueObj q))) w Q.
Proof.
  revert n w V. induction l as [|q l IH]; intros n w V Hw Hnd Hl HQ; [cbn [changes for_each]; wp_step; by apply HQ|].
  csimpl in Hnd. apply NoDup_cons in Hnd as [Hq Hnd]. destruct (Hl q) as [Hs Hg]; [by left|].
  assert (forall x, x ∈ l -> <[kkey q := set_order n q]> V !! kkey x = Some x /\ ~ is_gone (prq_Meta x)) as Hl'.
  { intros x Hx. rewrite lookup_insert_ne; [by apply Hl; right|].
    intros He. apply Hq. rewrite He. by apply list_elem_of_fmap_2. }
  cbn [changes give] in *. unfold number. destruct (Z.eqb_spec (ps_NoOfOrder (prq_Spec q)) n) as [<-|Hne].
  - apply (IH _ _ V); [done..|by intros x Hx; apply Hl; right|]. intros w' Hw'. apply HQ.
    by rewrite Hw', set_order_same, (insert_id V).
  - cbn [snd app for_each]. unfold ignore_error, updatePullRequestQueueObj, wrapping. do 5 wp_step.
    apply run_wp. intros r w1 Hup. destruct (updates (set_order n q) w) as [w2 Hok]; [rewrite Hw; by exists q|].
    pose proof (k_update_law (set_order n q) w) as Hlaw. rewrite Hok in Hlaw, Hup. simplify_eq.
    destruct Hlaw as [_ Hw1]. unfold store_update in Hw1. rewrite decide_False in Hw1 by done.
    repeat wp_step. by eapply IH.
Qed.

(** The running queues of the namespace get the first numbers, in their order, and the
    others the numbers after them, in the order of the listing. *)
Definition renumbered (V V' : gmap (string * string) PullRequestQueue) : Prop :=
  exists all running,
    all ≡ₚ filter (list_matches (InNamespace (c_namespace cc))) (map_to_list V).*2 /\
    running ≡ₚ filter (list_matches (mkListOptions (c_namespace cc) (getStateLabel stateRunning)))
                 (map_to_list V).*2 /\
    numbered (new_order (PrqSort running) all) V V'.

(** what [resetQueueOrder] does when no update fails: of the queues of its namespace
    the running ones get the first numbers, in their order, and all others the numbers
    after them, in the order of the listing; nothing else changes.  It leaves the queues
    alone when a listing fails. *)
Theorem resetQueueOrder_numbers w r w' :
  c_namespace cc <> "" ->
  (forall k q, kview PullRequestQueue w !! k = Some q -> ~ is_gone (prq_Meta q)) ->
  Z.of_nat (size (kview PullRequestQueue w)) < 2 ^ 62 ->
  resetQueueOrder cc w = (r, w') ->
  r = Ok tt /\
  (kview PullRequestQueue w' = kview PullRequestQueue w \/
   renumbered (kview PullRequestQueue w) (kview PullRequestQueue w')).
Proof.
  intros Hns Hgone Hsize. set (V := kview PullRequestQueue w) in *.
  apply (wp_run _ _ _ _ (fun r w' => r = Ok tt /\
    (kview PullRequestQueue w' = V \/ renumbered V (kview PullRequestQueue w')))).
  apply (wp_reset _ V); [done..|by eauto|]. intros all running w1 Hw1 Hall Hrun l Hnd Hstored _.
  eapply (wp_store_changes 1 _ _ V); [done..|by intros q Hq; eauto|].
  intros w2 Hw2. split; [done|right]. exists all, running. split_and!; [done..|]. rewrite Hw2. split.
  - intros i q Hi. by apply give_in.
  - intros k Hk. by apply give_other.
Qed.
End numbers.

(** ** The end of an environment *)

Section tear_down.
Context {W : Type} `{GR : GoRuntime W} `{GS : GoSort} `{GD : GoDuration}
  `{PC : PrqCluster W} `{PO : PrqOutside W} `{RPC : SamsahaiRPC W}.
Context (cc : controller).

(** The criteria look at the trigger, the deployment and the result only. *)
Lemma criteria_met_same crit q q' :
  ps_IsPRTriggerFailed (prq_Spec q') = ps_IsPRTriggerFailed (prq_Spec q) ->
  pst_Result (prq_Status q') = pst_Result (prq_Status q) ->
  PrqIsConditionTrue (prq_Status q') PullRequestQueueCondDeployed
  = PrqIsConditionTrue (prq_Status q) PullRequestQueueCondDeployed ->
  isTearDownDurationCriteriaMet crit q' = isTearDownDurationCriteriaMet crit q.
Proof. unfold isTearDownDurationCriteriaMet. by intros -> -> ->. Qed.

(** The environment is asked for while its time has not come: nothing happens. *)
Lemma destroy_refuses q d w :
  pst_State (prq_Status q) = PullRequestQueueEnvDestroying ->
  pst_DestroyedTime (prq_Status q) = Some d -> fst (rt_now w) <= d ->
  process cc (w, q) = (Ok (Some requeued), (snd (rt_now w), q)).
Proof.
  intros Hst Hd Ht. unfold process, destroyPullRequestEnvironment, attempt, onW, now, get_obj, throw,
    mbind, M_bind, mret, M_ret. cbn [fst snd]. rewrite Hst. cbn [fst snd]. rewrite Hd. cbn [fst snd].
  destruct (rt_now w) as [t w1]. cbn [fst snd] in *.
  assert ((d <? t) = false) as Hlt by by apply Z.ltb_ge. lazy beta iota. by rewrite Hlt.
Qed.

(** The object is changed with the time of the clock. *)
Lemma wp_stamp {X} (f : Z -> X -> X) (s : W * X) (Q : outcome unit -> W * X -> Prop) :
  (forall w', Q (Ok tt) (w', f (fst (rt_now (fst s))) (snd s))) ->
  wp (do t <- onW now; mod_obj (f t)) s Q.
Proof.
  intros HQ. wp_step. wp_step. apply wp_now. intros t w' Ht. wp_step. rewrite Ht in HQ. apply HQ.
Qed.

(** when the result of a queue is collected, its environment gets a time until which
    it stays exactly when the criteria of its configuration are met: that of the collection
    and the configured duration later.  Up to that instant every reconciliation of the
    queue leaves it and everything else alone, and asks for another one. *)
Theorem environment_kept_until w q w' q' :
  pst_DestroyedTime (prq_Status q) = None ->
  collectPullRequestQueueResult cc (w, q) = (Ok tt, (w', q')) ->
  let tearDown := ps_TearDownDuration (prq_Spec q) in
  pst_State (prq_Status q') = PullRequestQueueEnvDestroying /\
  pst_Result (prq_Status q') = pst_Result (prq_Status q) /\
  if isTearDownDurationCriteriaMet (td_Criteria tearDown) q then
    exists w0, let until := fst (rt_now w0) + td_Duration tearDown in
      pst_DestroyedTime (prq_Status q') = Some until /\
      forall w1, fst (rt_now w1) <= until ->
        process cc (w1, q') = (Ok (Some requeued), (snd (rt_now w1), q'))
  else pst_DestroyedTime (prq_Status q') = None.
Proof.
  intros Hd Heq tearDown.
  set (ends x := pst_State (prq_Status x) = PullRequestQueueEnvDestroying /\
    pst_Result (prq_Status x) = pst_Result (prq_Status q) /\
    if isTearDownDurationCriteriaMet (td_Criteria tearDown) q
    then exists w0, pst_DestroyedTime (prq_Status x) = Some (fst (rt_now w0) + td_Duration tearDown)
    else pst_DestroyedTime (prq_Status x) = None).
  enough (ends q') as (Hst & Hres & Htime).
  { split_and!; [done..|]. destruct (isTearDownDurationCriteriaMet _ _); [|done].
    destruct Htime as [w0 Htime]. exists w0. split; [done|]. intros w1 Hw1. by eapply destroy_refuses. }
  enough (wp (collectPullRequestQueueResult cc) (w, q) (fun r s => r = Ok tt -> ends (snd s))) as Hwp
    by exact (wp_run _ _ _ _ _ Hwp Heq eq_refl).
  unfold collectPullRequestQueueResult. wp_step. wp_step. lazy zeta. wp_step. apply wp_onW_any.
  intros [dq|e|p] w1; [|done..]. cbn [snd]. unfold set_state, set_cond, set_status.
  wp_step. wp_step. wp_step. apply (wp_stamp (fun t => PrqSetState t PullRequestQueueEnvDestroying)).
  intros w2. wp_step. apply wp_stamp. intros w3. cbn [fst snd]. wp_step. wp_step. cbn [snd].
  set (q3 := over_field prq_Status _ _).
  assert (isTearDownDurationCriteriaMet (td_Criteria tearDown) q3
          = isTearDownDurationCriteriaMet (td_Criteria tearDown) q) as Hmet.
  { apply criteria_met_same; [done..|]. by apply is_condition_true_set_ne. }
  assert (pst_DestroyedTime (prq_Status q3) = None) as -> by exact Hd.
  lazymatch goal with |- wp (mbind (fun _ => ?k) _) _ ?Q =>
    enough (forall w4 q4, ends q4 -> wp k (w4, q4) Q) as Hrest end.
  { wp_step. subst ends. fold tearDown. cbv beta. rewrite Hmet in *.
    destruct (isTearDownDurationCriteriaMet _ q) eqn:Hq; [apply wp_stamp; intros w4|wp_step]; apply Hrest.
    - split_and!; [done..|]. by exists w3.
    - by split_and!. }
  intros w4 q4 Hq4. destruct (String.eqb _ _); [|by wp_step]. wp_step. wp_step. wp_step. wp_step. apply wp_onW_any.
  intros r5 w5. destruct r5 as [[]|e|p]; [..|done]; cbn [snd].
  - wp_step. wp_step. wp_step. wp_step. by apply wp_onW_any.
  - destruct (negb _); [by wp_step|]. wp_step. wp_step. wp_step. wp_step. by apply wp_onW_any.
Qed.
End tear_down.

(** ** What is added *)

Implicit Types (V : gmap (string * string) PullRequestQueue).

(** Some of the queues have other numbers, up to the bound. *)
Definition renamed_numbers (bound : Z) V V' : Prop :=
  forall k, match V !! k, V' !! k with
            | Some q, Some q' => exists n, q' = set_order n q /\
                (n = ps_NoOfOrder (prq_Spec q) \/ 1 <= n <= bound)
            | None, None => True
            | _, _ => False
            end.

Lemma changes_in n l x :
  x ∈ changes n l -> exists q m, q ∈ l /\ x = set_order m q /\ n <= m < n + Z.of_nat (length l).
Proof.
  revert n. induction l as [|q l IH]; intros n; simpl; [by intros ?%elem_of_nil|].
  intros [Hx|Hx]%elem_of_app.
  - exists q, n. unfold number in Hx. destruct (_ =? _); [by apply elem_of_nil in Hx|].
    apply list_elem_of_singleton in Hx as ->. split_and!; [by left|done|lia|lia].
  - destruct (IH _ Hx) as (y & m & Hy & -> & Hm). exists y, m. split_and!; [by right|done|lia|lia].
Qed.

Lemma renamed_refl bound V : renamed_numbers bound V V.
Proof.
  intros k. destruct (V !! k) as [q|]; [|done]. exists (ps_NoOfOrder (prq_Spec q)).
  rewrite set_order_same. by split; [|left].
Qed.

Lemma renamed_update bound V V' q n :
  renamed_numbers bound V V' -> V !! kkey q = Some q -> ~ is_gone (prq_Meta q) -> 1 <= n <= bound ->
  renamed_numbers bound V (store_update (set_order n q) V').
Proof.
  intros Hr Hq Hg Hn k. unfold store_update. rewrite decide_False by done.
  change (kkey (set_order n q)) with (kkey q). destruct (decide (kkey q = k)) as [<-|Hk].
  - rewrite Hq, lookup_insert_eq. exists n. by split; [|right].
  - rewrite lookup_insert_ne by done. apply Hr.
Qed.

Section adding.
Context {W : Type} `{GR : GoRuntime W} `{GS : GoSort} `{PC : PrqCluster W}.
Context `{KVA : KView W PullRequestQueue} `{KLA : !KClientLaws W PullRequestQueue}.
Context (cc : controller).

(** What is there has been there, with the same metadata. *)
Lemma renamed_from bound V V' k q' :
  renamed_numbers bound V V' -> V' !! k = Some q' ->
  exists q n, V !! k = Some q /\ q' = set_order n q /\ (n = ps_NoOfOrder (prq_Spec q) \/ 1 <= n <= bound).
Proof.
  intros Hr Hk. specialize (Hr k). rewrite Hk in Hr. destruct (V !! k) as [q|]; [|done].
  destruct Hr as (n & -> & Hn). by exists q, n.
Qed.

(** The number behind all others. *)
Lemma wp_last_order {S} (l : list PullRequestQueue) (s : S) (Q : outcome Z -> S -> Prop) :
  (forall x, x ∈ l -> 0 <= ps_NoOfOrder (prq_Spec x) < 2 ^ 62) ->
  (forall n, (forall x, x ∈ l -> ps_NoOfOrder (prq_Spec x) < n) -> Q (Ok n) s) ->
  wp (PrqLastQueueOrder l) s Q.
Proof.
  intros Hl HQ. unfold PrqLastQueueOrder. destruct l as [|y l].
  { wp_step. apply HQ. by intros x ?%elem_of_nil. }
  assert (PrqSort (y :: l) ≡ₚ y :: l) as Hperm by apply go_sort_perm.
  destruct (last (PrqSort (y :: l))) as [z|] eqn:Hz.
  2: { apply last_None in Hz. rewrite Hz in Hperm. by apply Permutation_nil_cons in Hperm. }
  assert (z ∈ y :: l) as Hin by (rewrite <- Hperm; by apply last_Some_elem_of).
  wp_step. apply HQ. intros x Hx. rewrite int_add_id by (specialize (Hl z Hin); unfold in64; lia).
  rewrite <- Hperm in Hx.
  pose proof (in_order_last _ _ _ _ (go_sort_in_order _ _ PrqLess_ordering) Hz Hx) as Hf%PrqLess_follow. lia.
Qed.

(** Whether the updates succeed or not. *)
Lemma wp_reset_renames w V (Q : outcome unit -> W -> Prop) :
  kview PullRequestQueue w = V -> c_namespace cc <> "" -> Z.of_nat (size V) < 2 ^ 62 ->
  (forall k q, V !! k = Some q -> ~ is_gone (prq_Meta q)) ->
  (forall w', renamed_numbers (Z.of_nat (size V)) V (kview PullRequestQueue w') -> Q (Ok tt) w') ->
  wp (resetQueueOrder cc) w Q.
Proof.
  intros HV Hns Hsize Hgone HQ. apply (wp_reset cc _ V); [done..| |].
  { intros w' Hw'. apply HQ. rewrite Hw'. apply renamed_refl. }
  intros all running w1 Hw1 _ _ l _ Hstored Hlen.
  apply (wp_for_each (fun xs w' => renamed_numbers (Z.of_nat (size V)) V (kview PullRequestQueue w') /\
    forall x, x ∈ xs -> x ∈ changes 1 l)).
  - split; [rewrite Hw1; apply renamed_refl|done].
  - intros x xs w2 [Hr Hx]. unfold ignore_error, updatePullRequestQueueObj, wrapping. do 4 wp_step.
    destruct (changes_in 1 l x) as (q & n & Hq & -> & Hn); [by apply Hx; left|].
    assert (forall y, y ∈ xs -> y ∈ changes 1 l) by (intros y Hy; apply Hx; by right).
    apply wp_k_update; [intros w3 _ Hw3|intros e w3 Hw3]; repeat wp_step; rewrite Hw3; (split; [|done]); [|done].
    apply renamed_update; [done|by apply Hstored|eapply Hgone, Hstored; done|lia].
  - intros w2 [Hr _]. by apply HQ.
Qed.

(** What adding [q] makes of the stored queues. *)
Definition added q V V' : Prop :=
  match V !! kkey q with
  | Some x => V' = <[kkey q := x <| prq_Spec ::= fun s =>
      s <| ps_UpcomingCommitSHA := ps_UpcomingCommitSHA (prq_Spec q) |>
        <| ps_UpcomingComponents := ps_UpcomingComponents (prq_Spec q) |> |>]> V
  | None => exists n, V' = <[kkey q := set_order n q]> V /\
      forall k x, V !! k = Some x -> kns x = kns q -> ps_NoOfOrder (prq_Spec x) < n
  end.

Lemma wp_addQueue w q :
  c_namespace cc <> "" -> kns q = c_namespace cc ->
  (forall k x, kview PullRequestQueue w !! k = Some x ->
     ~ is_gone (prq_Meta x) /\ 0 <= ps_NoOfOrder (prq_Spec x) < 2 ^ 62) ->
  Z.of_nat (size (kview PullRequestQueue w)) < 2 ^ 62 ->
  wp (addQueue cc) (w, q) (fun r s => r = Ok tt -> exists V,
    renamed_numbers (Z.of_nat (size (kview PullRequestQueue w))) (kview PullRequestQueue w) V /\
    added q V (kview PullRequestQueue (fst s))).
Proof.
  intros Hns Hq Hall Hsize. set (V0 := kview PullRequestQueue w) in *.
  unfold addQueue. wp_step. wp_step. wp_step. wp_step.
  apply (wp_reset_renames w V0); [done..|by intros k x [? _]%Hall|]. intros w1 Hr1.
  set (V := kview PullRequestQueue w1) in *. wp_step. wp_step.
  apply wp_list_queues; [intros l w2 Hl Hw2|done]. wp_step. wp_step. wp_step.
  rewrite <- Hq. apply wp_k_get.
  - intros x w3 Hx Hw3. cbn [fst snd] in *. rewrite Hw2 in Hx, Hw3. wp_step.
    apply wp_k_update; [intros w4 _ Hw4 _|done]. exists V. split; [done|].
    unfold added. change (V !! kkey q = Some x) in Hx. rewrite Hx. cbn [fst snd] in *. rewrite Hw4, Hw3.
    assert (kkey x = kkey q) as Hkey by (eapply (k_view_keyed w1); exact Hx).
    unfold store_update. rewrite decide_False.
    + change (kkey (over_field prq_Spec _ x)) with (kkey x). by rewrite Hkey.
    + destruct (renamed_from _ _ _ _ _ Hr1 Hx) as (x0 & n & Hx0 & -> & _). by apply (Hall _ _ Hx0).
  - intros e w3 Hnone Hw3. cbn [fst snd] in *. destruct (IsNotFound e) eqn:He; [|by wp_step].
    specialize (Hnone eq_refl). rewrite Hw2 in Hnone, Hw3. wp_step. wp_step. apply wp_last_order.
    { intros x [Hx _]%(listed_in _ _ _ _ Hl). 
      destruct (renamed_from _ _ _ _ _ Hr1 Hx) as (x0 & n & [_ Hx0]%Hall & -> & Hn). simpl. lia. }
    intros n Hn.
    do 7 wp_step. cbn [fst snd] in *.
    apply wp_k_create; [intros w4 _ Hw4|intros e4 w4 Hexists _]; cbn [fst snd] in *.
    + wp_step. intros _. exists V. split; [done|]. cbn [fst]. rewrite Hw4, Hw3.
      unfold added. change (V !! kkey q = None) in Hnone. rewrite Hnone. exists n. split; [done|].
      intros k x Hk Hx. apply Hn. apply (listed_in _ _ w1 _ Hl).
      assert (kkey x = k) as -> by (eapply (k_view_keyed w1); exact Hk).
      split; [exact Hk|]. split; [by right|apply map_empty_subseteq].
    + destruct (IsAlreadyExists e4) eqn:He4; [|by wp_step]. destruct (Hexists eq_refl) as [y Hy].
      change (kkey (set_order n q)) with (kns q, kname q) in Hy. by rewrite Hw3, Hnone in Hy.
Qed.

(** a queue that is added to the controller's own: if there is one of its name, that
    one learns which commit and which components come next and keeps all else; if not, the
    queue is stored with a number behind all others.  The others of the namespace may be
    numbered anew, and nothing else changes. *)
Theorem addQueue_adds w q w' q' :
  c_namespace cc <> "" -> kns q = c_namespace cc ->
  (forall k x, kview PullRequestQueue w !! k = Some x ->
     ~ is_gone (prq_Meta x) /\ 0 <= ps_NoOfOrder (prq_Spec x) < 2 ^ 62) ->
  Z.of_nat (size (kview PullRequestQueue w)) < 2 ^ 62 ->
  addQueue cc (w, q) = (Ok tt, (w', q')) ->
  exists V, renamed_numbers (Z.of_nat (size (kview PullRequestQueue w))) (kview PullRequestQueue w) V /\
    added q V (kview PullRequestQueue w').
Proof.
  intros Hns Hq Hall Hsize Heq. exact (wp_run _ _ _ _ _ (wp_addQueue w q Hns Hq Hall Hsize) Heq eq_refl).
Qed.
End adding.

(** ** The histories *)

Section histories.
Context {W : Type} `{GR : GoRuntime W} `{GS : GoSort} `{GD : GoDuration}
  `{PC : PrqCluster W} `{RPC : SamsahaiRPC W}.
Context `{KVH : KView W PullRequestQueueHistory} `{KLH : !KClientLaws W PullRequestQueueHistory}.
Context {RFH : RuntimeFrame W (kview PullRequestQueueHistory)}.
Context {config_frame : forall r,
  Preserves (rpc_GetPullRequestConfig r) (kview (W:=W) PullRequestQueueHistory)}.
Context (cc : controller).
Implicit Types (H : gmap (string * string) PullRequestQueueHistory) (h : PullRequestQueueHistory).

Definition created h : Z := om_CreationTimestamp (pqh_Meta h).
(** The loop deletes from the end, until a history is young enough. *)
Lemma prq_wp_delete_histories t d items i w H (Q : outcome unit -> W -> Prop) :
  kview PullRequestQueueHistory w = without (drop (S i) items) H ->
  (i < length items)%nat ->
  (forall k h, H !! k = Some h -> om_Finalizers (pqh_Meta h) = []) ->
  (forall w' j, (j <= i)%nat ->
     kview PullRequestQueueHistory w' = without (drop (S j) items) H ->
     (forall h, h ∈ drop (S j) (take (S i) items) -> d <= time_sub t (created h)) ->
     (j = 0%nat \/ exists h, items !! j = Some h /\ time_sub t (created h) < d) -> Q (Ok tt) w') ->
  (forall e w', Q (Err e) w') ->
  wp (delete_histories t d items i) w Q.
Proof.
  revert w. induction i as [|i IH]; intros w Hw Hi Hfin HQ Herr; cbn [delete_histories].
  { wp_step. apply (HQ _ 0%nat); [lia|done| |by left].
    intros h Hh. rewrite drop_ge in Hh by (rewrite length_take; lia). by apply elem_of_nil in Hh. }
  destruct (lookup_lt_is_Some_2 items (S i) Hi) as [h Hh].
  wp_step. wp_step. rewrite Hh. destruct (d <=? _) eqn:Hage.
  2: { apply Z.leb_gt in Hage. wp_step. apply (HQ _ (S i)); [done|done| |right; by exists h].
       intros x Hx. rewrite drop_ge in Hx by (rewrite length_take; lia). by apply elem_of_nil in Hx. }
  apply Z.leb_le in Hage.
  assert (forall w', kview PullRequestQueueHistory w' = without (drop (S i) items) H ->
    wp (delete_histories t d items i) w' Q) as Hgo.
  { intros w' Hw'. apply IH; [done|lia|done| |done].
    intros w2 j Hj Hw2 Hold Hend. apply (HQ _ j); [lia|done| |done].
    intros x Hx. rewrite (take_S_r _ _ _ Hh), drop_app_le in Hx by (rewrite length_take; lia).
    apply elem_of_app in Hx as [Hx|Hx%list_elem_of_singleton]; [by apply Hold|by subst]. }
  assert (without (drop (S i) items) H = delete (kkey h) (kview PullRequestQueueHistory w)) as Hnext.
  { by rewrite Hw, (drop_S _ _ _ Hh), without_cons. }
  wp_step. wp_step. apply wp_k_delete.
  - intros y Hy. rewrite Hw in Hy. apply without_lookup in Hy as [Hy _]. by eapply Hfin.
  - intros w' _ Hw'. apply Hgo. by rewrite Hw', Hnext.
  - intros e w' Hno Hw'. destruct (IsNotFound e); [|by wp_step]. apply Hgo.
    rewrite Hw', Hnext, delete_id; [done|by apply Hno].
Qed.

(** The old ones are gone but for the newest of all. *)
Definition trimmed t d H H' : Prop :=
  exists kept old,
    kept ++ old ≡ₚ filter (list_matches (InNamespace (c_namespace cc))) (map_to_list H).*2 /\
    in_order PqhGreater (kept ++ old) /\ (old <> [] -> kept <> []) /\
    H' = without old H /\
    (forall h, h ∈ old -> d <= time_sub t (created h)) /\
    (forall h, h ∈ tail kept -> time_sub t (created h) < d).

Lemma newer_younger t d (items : list PullRequestQueueHistory) i j (x : PullRequestQueueHistory) h :
  in_order PqhGreater items -> (i <= j)%nat -> items !! i = Some x -> items !! j = Some h ->
  time_sub t (created h) < d -> time_sub t (created x) < d.
Proof.
  intros Hs Hij Hx Hh Ht. enough (created h <= created x) by (unfold time_sub in *; lia).
  destruct (decide (i = j)) as [->|Hne]; [by simplify_eq|].
  assert (may_follow PqhGreater x h) as Hf.
  { rewrite <- (take_drop_middle _ _ _ Hx) in Hs. apply in_order_suffix in Hs.
    eapply in_order_head; [exact Hs|]. right. apply (list_elem_of_lookup_2 _ (j - S i)).
    rewrite lookup_drop. by replace (S i + (j - S i))%nat with j by lia. }
  unfold may_follow, PqhGreater, created in *. rewrite !Z.ltb_lt in Hf. lia.
Qed.

(** of the histories of the controller's namespace those are removed that are at least
    as old as the configuration says, and none younger; the newest stays whatever its age,
    and every other one that stays is young enough.  No other history is touched. *)
Theorem deleteHistories_removes_old w w' d :
  (forall r w1 config w2, rpc_GetPullRequestConfig r w1 = (Ok config, w2) ->
     parse_duration (pretty (rpc_MaxHistoryDays config * 24) +:+ "h") = inr d) ->
  (forall k h, kview PullRequestQueueHistory w !! k = Some h -> om_Finalizers (pqh_Meta h) = []) ->
  deletePullRequestQueueHistoryOutOfRange cc w = (Ok tt, w') ->
  kview PullRequestQueueHistory w' = kview PullRequestQueueHistory w \/
  exists t, trimmed t d (kview PullRequestQueueHistory w) (kview PullRequestQueueHistory w').
Proof.
  intros Hd Hfin Heq. set (H := kview PullRequestQueueHistory w) in *.
  enough (wp (deletePullRequestQueueHistoryOutOfRange cc) w (fun r w' => r = Ok tt ->
    kview PullRequestQueueHistory w' = H \/ exists t, trimmed t d H (kview PullRequestQueueHistory w'))) as Hwp
    by exact (wp_run _ _ _ _ _ Hwp Heq eq_refl).
  unfold deletePullRequestQueueHistoryOutOfRange. wp_step. wp_step. apply wp_k_list.
  2: { intros e w1 Hw1. destruct (IsNotFound e); wp_step; [by left|done]. }
  intros l w1 Hl Hw1. wp_step.
  apply wp_frame with (v := kview PullRequestQueueHistory); [apply _|].
  intros [config|e|p] w2 Hc Hw2; [|done..]. rewrite (Hd _ _ _ _ Hc). cbv zeta.
  wp_step. apply wp_frame with (v := kview PullRequestQueueHistory); [apply _|].
  intros [t|e|p] w3 _ Hw3; [|done..]. rewrite Hw2, Hw1 in Hw3.
  set (items := PqhSortDESC l).
  assert (items ≡ₚ filter (list_matches (InNamespace (c_namespace cc))) (map_to_list H).*2) as Hperm
    by (etrans; [apply go_sort_perm|exact Hl]).
  assert (in_order PqhGreater items) as Hsort by apply go_sort_in_order, PqhGreater_ordering.
  destruct (decide (length items = 0)%nat) as [Hz|Hz].
  { rewrite Hz. cbn [delete_histories Nat.sub]. wp_step. by left. }
  eapply (prq_wp_delete_histories t d items _ _ H); [|lia|done| |done].
  { rewrite drop_ge, without_nil by lia. exact Hw3. }
  intros w4 j Hj Hw4 Hold Hend _. right. exists t, (take (S j) items), (drop (S j) items).
  rewrite take_drop. split_and!; [done|done| |done| |].
  - intros _ Hn. apply (f_equal length) in Hn. rewrite length_take in Hn. cbn [length] in Hn. lia.
  - intros h Hh. apply Hold. by rewrite (take_ge items) by lia.
  - intros h Hh. destruct Hend as [->|(x & Hx & Hage)].
    + destruct items; [done|]. simpl in Hh. rewrite take_0 in Hh. by apply elem_of_nil in Hh.
    + destruct items as [|y items']; [done|]. simpl in Hh. apply list_elem_of_lookup in Hh as (i & Hi).
      apply lookup_take_Some in Hi as [Hi Hlt]. eapply (newer_younger t d _ (S i) j); [exact Hsort|lia|done..].
Qed.
End histories.

(** ** Concrete runs *)

Definition b1 : Request := ("s2h-teamtest", "b-1").
Definition pr_stored (w : PrqSim) : option PullRequestQueue := kview PullRequestQueue w !! b1.
Definition pr_state (w : PrqSim) := (fun q => pst_State (prq_Status q)) <$> pr_stored w.
Lemma pr_stored_some w st : pr_state w = Some st -> exists q, pr_stored w = Some q.
Proof. unfold pr_state. destruct (pr_stored w) as [q|]; [by exists q|]. intros Hn. discriminate Hn. Qed.

Lemma qsim_retries r (w : PrqSim) config w' :
  rpc_GetPullRequestConfig r w = (Ok config, w') -> rpc_MaxRetry config <= 2.
Proof. by intros [? _]%qsim_config. Qed.

(** The queue waits, the world is [pr_start]. *)
Definition pr_start : PrqSim := pr_rounds 1 true b1 (sim_pr_world 0 1 1 [sim_prq "b" "c1"]).

Lemma prq_Reconcile_refines_witness :
  let w := pr_rounds 4 true b1 pr_start in
  let w' := snd (Reconcile sim_controller b1 w) in
  pr_state w' = Some PullRequestQueueTesting /\
  match pr_stored w, pr_stored w' with
  | Some q, Some q' => rtc (step 2 (namespace_gone sim_controller w)) (ctl q) (ctl q')
  | _, _ => False
  end.
Proof.
  intros w w'.
  match goal with |- ?P /\ _ => assert P as Hstate by by vm_compute end. split; [exact Hstate|].
  destruct (pr_stored_some _ _ Hstate) as [q' Hq']. rewrite Hq'.
  destruct (prq_Reconcile_refines sim_controller 2 qsim_retries b1 w
    (fst (Reconcile sim_controller b1 w)) w' b1 q' (surjective_pairing _) Hq') as (q & Hq & Hsteps).
  change (pr_stored w = Some q) in Hq. rewrite Hq. exact Hsteps.
Defined.

Lemma prq_Reconcile_keeps_sound_witness :
  let w := sim_pr_world 0 1 1 [sim_prq "b" "c1"] in
  let w' := snd (Reconcile sim_controller b1 w) in
  pr_state w' = Some PullRequestQueueWaiting /\
  forall k q, kview PullRequestQueue w' !! k = Some q -> sound 2 (ctl q).
Proof.
  intros w w'. split; [by vm_compute|].
  refine (prq_Reconcile_keeps_sound sim_controller 2 qsim_retries b1 w
    (fst (Reconcile sim_controller b1 w)) w' _ _ (surjective_pairing _)); [lia|].
  intros k q [Hk _]%well_filed_lookup. simpl in Hk.
  apply lookup_insert_Some in Hk as [[_ <-]|[_ Hk]]; [by apply new_sound|by rewrite lookup_empty in Hk].
Defined.

Lemma managePullRequestQueue_starts_first_witness :
  let w := pr_start in
  match pr_stored w with
  | None => False
  | Some q =>
      let w' := snd (managePullRequestQueue sim_controller q w) in
      pr_state w' = Some PullRequestQueueEnvCreating /\
      running_in (kns q) (kview PullRequestQueue w')
      <= Z.max (running_in (kns q) (kview PullRequestQueue w)) 2
  end.
Proof.
  intros w. destruct (pr_stored w) as [q|] eqn:Hq.
  2: { assert (pr_state w = Some PullRequestQueueWaiting) as Hs by by vm_compute.
       unfold pr_state in Hs. rewrite Hq in Hs. discriminate Hs. }
  intros w'. split.
  - assert (match pr_stored w with Some q => pr_state (snd (managePullRequestQueue sim_controller q w)) | None => None end
      = Some PullRequestQueueEnvCreating) as Hs by by vm_compute.
    rewrite Hq in Hs. exact Hs.
  - refine (proj2 (managePullRequestQueue_starts_first sim_controller 2 q w
      (fst (managePullRequestQueue sim_controller q w)) w' _ (surjective_pairing _))).
    intros r w1 config w2 Hc. exact (proj1 (proj2 (qsim_config _ _ _ _ Hc))).
Defined.

(** Two queues that wait. *)
Definition pr_waiting (name commit : string) (n : Z) : PullRequestQueue :=
  appendStateLabel stateWaiting (set_order n (sim_prq name commit))
  <| prq_Status ::= fun s => s <| pst_State := PullRequestQueueWaiting |> |>.
Definition pr_numbers (w : PrqSim) (names : list string) : list (option Z) :=
  map (fun n => ps_NoOfOrder ∘ prq_Spec <$> kview PullRequestQueue w !! ("s2h-teamtest", n)) names.

Lemma qsim_updates (q : PullRequestQueue) (w : PrqSim) :
  is_Some (kview PullRequestQueue w !! kkey q) -> exists w', k_update q w = (Ok tt, w').
Proof. intros [x Hx]. eexists. simpl. by rewrite Hx. Qed.

(** The queues lose the order in which they wait. *)
Lemma resetQueueOrder_numbers_witness :
  let w := sim_pr_world 0 1 1 [pr_waiting "b" "c1" 1; pr_waiting "c" "c2" 2] in
  let w' := snd (resetQueueOrder sim_controller w) in
  pr_numbers w' ["b-1"; "c-1"] = [Some 2; Some 1] /\
  fst (resetQueueOrder sim_controller w) = Ok tt /\
  (kview PullRequestQueue w' = kview PullRequestQueue w \/
   renumbered sim_controller (kview PullRequestQueue w) (kview PullRequestQueue w')).
Proof.
  intros w w'. split; [by vm_compute|].
  refine (resetQueueOrder_numbers sim_controller qsim_updates w
    (fst (resetQueueOrder sim_controller w)) w' _ _ _ (surjective_pairing _)).
  - intros Hn. discriminate Hn.
  - intros k q [Hk _]%well_filed_lookup. simpl in Hk.
    apply lookup_insert_Some in Hk as [[_ <-]|[_ Hk]]; [intros [Hd _]; exact (Hd eq_refl)|].
    apply lookup_insert_Some in Hk as [[_ <-]|[_ Hk]]; [intros [Hd _]; exact (Hd eq_refl)|].
    by rewrite lookup_empty in Hk.
  - vm_compute. reflexivity.
Defined.

(** An environment that stays for an hour after its tests. *)
Definition pr_kept : PullRequestQueue :=
  (sim_prq "b" "c1")
  <| prq_Spec ::= fun s => s <| ps_TearDownDuration := mkPullRequestTearDownDuration Hour "both" |> |>
  <| prq_Status ::= fun s => PrqSetCondition 0 PullRequestQueueCondDeployed ConditionTrue ""
       (s <| pst_State := PullRequestQueueCollecting |> <| pst_Result := PullRequestQueueSuccess |>
          <| pst_PullRequestNamespace := "s2h-teamtest-b-1" |>) |>.

Lemma environment_kept_until_witness :
  let s := (sim_pr_world 1000 1 1 [pr_kept], pr_kept) in
  let s' := snd (collectPullRequestQueueResult sim_controller s) in
  isTearDownDurationCriteriaMet "both" pr_kept = true /\
  pst_State (prq_Status (snd s')) = PullRequestQueueEnvDestroying /\
  exists w0 : PrqSim, pst_DestroyedTime (prq_Status (snd s')) = Some (fst (rt_now w0) + Hour).
Proof.
  intros s s'.
  assert (isTearDownDurationCriteriaMet "both" pr_kept = true) as Hmet by by vm_compute.
  split; [exact Hmet|].
  assert (fst (collectPullRequestQueueResult sim_controller s) = Ok tt) as Hok by by vm_compute.
  pose proof (environment_kept_until sim_controller (fst s) pr_kept (fst s') (snd s') eq_refl
    (eq_trans (ok_run _ _ _ Hok) (f_equal (pair (Ok tt)) (surjective_pairing _)))) as (Hst & _ & Hkeep).
  split; [exact Hst|]. change (td_Criteria (ps_TearDownDuration (prq_Spec pr_kept))) with "both" in Hkeep.
  rewrite Hmet in Hkeep. destruct Hkeep as (w0 & Hd & _). exists w0. exact Hd.
Defined.

Lemma addQueue_adds_witness :
  let w := sim_pr_world 0 1 1 [pr_waiting "b" "c1" 1] in
  let q := sim_prq "a" "c2" in
  let s' := snd (addQueue sim_controller (w, q)) in
  pr_numbers (fst s') ["b-1"; "a-1"] = [Some 1; Some 2] /\
  exists V, renamed_numbers 1 (kview PullRequestQueue w) V /\ added q V (kview PullRequestQueue (fst s')).
Proof.
  intros w q s'. split; [by vm_compute|].
  assert (fst (addQueue sim_controller (w, q)) = Ok tt) as Hok by by vm_compute.
  assert (size (kview PullRequestQueue w) = 1%nat) as Hsize by by vm_compute.
  pose proof (addQueue_adds sim_controller w q (fst s') (snd s')) as Hadd. rewrite Hsize in Hadd.
  apply Hadd; [|reflexivity| |reflexivity|].
  - intros Hn. discriminate Hn.
  - intros k x [Hk _]%well_filed_lookup. simpl in Hk.
    apply lookup_insert_Some in Hk as [[_ <-]|[_ Hk]]; [|by rewrite lookup_empty in Hk].
    split; [intros [Hd _]; exact (Hd eq_refl)|split; [discriminate|reflexivity]].
  - exact (eq_trans (ok_run _ _ _ Hok) (f_equal (pair (Ok tt)) (surjective_pairing _))).
Defined.

(** Histories of an hour, three days and four days ago; the limit is two days. *)
Definition pr_history (name : string) (t : Z) : PullRequestQueueHistory :=
  mkPullRequestQueueHistory ((namedMeta "s2h-teamtest" name) <| om_CreationTimestamp := t |>) None.
Definition pr_old_world : PrqSim :=
  (sim_pr_world (97 * Hour) 1 1 [])
  <| qs_hists := list_to_map ((fun h => (kkey h, h)) <$>
       [pr_history "h1" (96 * Hour); pr_history "h2" (25 * Hour); pr_history "h3" Hour]) |>.

Lemma deleteHistories_removes_old_witness :
  let w := pr_old_world in
  let w' := snd (deletePullRequestQueueHistoryOutOfRange sim_controller w) in
  map (fun n => bool_decide (is_Some (kview PullRequestQueueHistory w' !! ("s2h-teamtest", n)))) ["h1"; "h2"; "h3"]
    = [true; false; false] /\
  (kview PullRequestQueueHistory w' = kview PullRequestQueueHistory w \/
   exists t, trimmed sim_controller t (48 * Hour) (kview PullRequestQueueHistory w) (kview PullRequestQueueHistory w')).
Proof.
  intros w w'. split; [by vm_compute|].
  assert (fst (deletePullRequestQueueHistoryOutOfRange sim_controller w) = Ok tt) as Hok by by vm_compute.
  refine (deleteHistories_removes_old sim_controller w w' (48 * Hour) _ _ (ok_run _ _ _ Hok)).
  - intros r w1 config w2 Hc. rewrite (proj1 (proj2 (proj2 (qsim_config _ _ _ _ Hc)))). reflexivity.
  - intros k h [Hk _]%well_filed_lookup. simpl in Hk.
    repeat (apply lookup_insert_Some in Hk as [[_ <-]|[_ Hk]]; [reflexivity|]). by rewrite lookup_empty in Hk.
Defined.

(** ** A trigger that has failed *)

(** The trigger of the first commit has failed, and the next one is known. *)
Definition pr_failed : PullRequestQueue :=
  (sim_prq "b" "c1") <| prq_Spec ::= fun s =>
    s <| ps_IsPRTriggerFailed := Some true |> <| ps_UpcomingCommitSHA := "c2" |> |>.
Definition pr_view (w : PrqSim) :=
  (fun q => (pst_State (prq_Status q), ps_CommitSHA (prq_Spec q), ps_IsPRTriggerFailed (prq_Spec q),
             om_Labels (prq_Meta q) !! "state")) <$> pr_stored w.

(** a queue whose trigger has failed is not deployed, but it can be started: when it
    has got a new commit in the meantime, it is put back, then marked as failed while its
    label still says that it waits, and so it is started in its turn.  Its environment is
    created, and from then on no reconciliation gets it out of that state: it holds one of
    the places of the running queues. *)
Theorem failed_trigger_never_deployed {W} `{GR : GoRuntime W} `{GS : GoSort} `{GD : GoDuration}
    `{PC : PrqCluster W} `{PO : PrqOutside W} `{RPC : SamsahaiRPC W} cc (w : W) q r w' q' :
  pst_State (prq_Status q) = PullRequestQueueDeploying ->
  ps_IsPRTriggerFailed (prq_Spec q) = Some true ->
  process cc (w, q) = (r, (w', q')) ->
  pst_State (prq_Status q') = PullRequestQueueDeploying /\ ps_IsPRTriggerFailed (prq_Spec q') = Some true.
Proof.
  intros Hst Hf. set (stuck (x : PullRequestQueue) := pst_State (prq_Status x) = PullRequestQueueDeploying /\
    ps_IsPRTriggerFailed (prq_Spec x) = Some true). change (process cc (w, q) = (r, (w', q')) -> stuck q').
  intros Heq. enough (wp (process cc) (w, q) (fun _ s => stuck (snd s))) as Hwp by exact (wp_run _ _ _ _ _ Hwp Heq).
  unfold process. wp_step. wp_step. cbn [snd]. rewrite Hst. unfold requeue_if. wp_step. wp_step.
  eapply wp_mono with (Q := fun (_ : outcome unit) s => stuck (snd s)).
  2: { intros [[]|e|p] s Hs; [by wp_step| |done]. lazy beta iota. destruct (IsEnsuringComponentDeployed e); by wp_step. }
  unfold ensurePullRequestComponentsDeploying. wp_step. wp_step. lazy zeta. wp_step. apply wp_onW_any.
  intros [[own comps]|e|p] w1; [|done..]. cbn [snd]. unfold set_spec, set_cond, set_status.
  wp_step. wp_step. destruct (negb _); [by apply wp_stamp|]. wp_step. wp_step. cbn [fst snd].
  wp_step. wp_step. unfold wrapping, ensurePullRequestComponents.
  assert (ps_IsPRTriggerFailed (prq_Spec (over_field prq_Spec (fun s => s <| ps_Components := own |>) q)) = Some true)
    as Hf' by exact Hf.
  rewrite Hf'. cbn [negb]. repeat wp_step.
  match goal with |- wp (if ?b then _ else _) _ _ => assert (b = false) as -> by reflexivity end. by wp_step.
Qed.

(** The label still says that it waits when it is collected as failed. *)
Lemma failed_trigger_never_deployed_witness :
  let w n := pr_rounds n true b1 (sim_pr_world 0 1 1 [pr_failed]) in
  pr_view (w 4%nat) = Some (PullRequestQueueCollecting, "c1", Some true, Some stateWaiting) /\
  pr_view (w 7%nat) = Some (PullRequestQueueDeploying, "c2", Some true, Some stateRunning) /\
  match pr_stored (w 7%nat) with
  | None => False
  | Some q => pst_State (prq_Status (snd (snd (process sim_controller (w 7%nat, q))))) = PullRequestQueueDeploying
  end.
Proof.
  intros w. split; [by vm_compute|].
  match goal with |- ?P /\ _ => assert P as Hview by by vm_compute end. split; [exact Hview|].
  unfold pr_view in Hview. destruct (pr_stored (w 7%nat)) as [q|]; [|discriminate Hview].
  injection Hview as Hst _ Hf _.
  pose proof (failed_trigger_never_deployed sim_controller (w 7%nat) q
    (fst (process sim_controller (w 7%nat, q))) (fst (snd (process sim_controller (w 7%nat, q))))
    (snd (snd (process sim_controller (w 7%nat, q)))) Hst Hf) as Hstuck.
  refine (proj1 (Hstuck _)). destruct (process sim_controller (w 7%nat, q)) as [r [w' q']]. reflexivity.
Defined.
