(* ===== verification/PrtCtrl.v ===== *)
(** Model of [internal/pullrequest/trigger/controller.go] and of
    [internal/samsahai/pullrequest.go]: a trigger is created for a pull request, its
    components are completed from the configuration, their images are looked for, again
    and again, and in the end the pull request is put into the queue and the trigger goes.

    A handler runs on the cluster and the [PullRequestTrigger] that [Reconcile] fetched. *)

From S2P Require Import Prelude.
From S2P Require Import GoRuntime.
From S2P Require Import Errors.
From S2P Require Import KubeApi.
From S2P Require Import ConfigTypes.
From S2P Require Import ComponentTypes.
From S2P Require Import QueueTypes.
From S2P Require Import RpcTypes.
From S2P Require Import PrqTypes.
From S2P Require Import QueueCtrl.
From S2P Require Import TeamTypes.
From S2P Require Import AtpTypes.
From S2P Require Import Interfaces.
From S2P Require Import PrqCtrl.
From S2P Require Import PrtTypes.
From S2P Require Import PrtFetch.
Open Scope string_scope.
Open Scope list_scope.
Open Scope Z_scope.

(** The controller: the world is its client, [authToken] only goes into headers, and the
    queue controller is the one of [PrqCtrl]. *)
Record trigger_controller := mkTriggerController {
  tc_teamName : string;
  tc_prQueueCtrl : PrqCtrl.controller;
}.

(** ** The components of a trigger *)

Definition getSameComponentInCompSources (prCompSources : list RpcComponentSource)
    (prTriggerComp : PullRequestTriggerComponent) : option RpcComponentSource :=
  List.find (fun s => String.eqb (csr_ComponentName s) (pt_ComponentName prTriggerComp)) prCompSources.
Definition containComponentInPRTriggerComps (prTriggerComps : list PullRequestTriggerComponent)
    (prCompSource : RpcComponentSource) : bool :=
  existsb (fun comp => String.eqb (pt_ComponentName comp) (csr_ComponentName prCompSource)) prTriggerComps.

(** An empty field gets the value of the source, and counts as a change. *)
Definition fill_field (field value : string) : string * bool :=
  if String.eqb field "" then (value, true) else (field, false).

Section fill.
Context {W : Type}.

(** The image of the source is looked at for an empty field only. *)
Definition fill_image_field (field : string) (get : RpcImage -> string) (source : RpcComponentSource)
    : M W (string * bool) :=
  if String.eqb field "" then do image <- deref (csr_Image source); mret (get image, true)
  else mret (field, false).

Definition fill_component (source : RpcComponentSource) (comp : PullRequestTriggerComponent)
    : M W (PullRequestTriggerComponent * bool) :=
  let image := default (mkImage "" "") (pt_Image comp) in
  do ' (repository, changed1) <- fill_image_field (img_Repository image) ri_Repository source;
  do ' (tag, changed2) <- fill_image_field (img_Tag image) ri_Tag source;
  let '(pattern, changed3) := fill_field (pt_Pattern comp) (csr_Pattern source) in
  let '(src, changed4) := fill_field (pt_Source comp) (csr_Source source) in
  let tag := if String.eqb tag "" then pattern else tag in
  mret (mkPullRequestTriggerComponent (pt_ComponentName comp) (Some (mkImage repository tag)) pattern src,
        changed1 || changed2 || changed3 || changed4).

(** The components that the configuration knows, completed. *)
Fixpoint fill_components (prCompSources : list RpcComponentSource) (comps : list PullRequestTriggerComponent)
    : M W (list PullRequestTriggerComponent * bool) :=
  match comps with
  | [] => mret ([], false)
  | comp :: rest =>
      match getSameComponentInCompSources prCompSources comp with
      | None => fill_components prCompSources rest
      | Some source =>
          do ' (comp, changed) <- fill_component source comp;
          do ' (rest, changed') <- fill_components prCompSources rest;
          mret (comp :: rest, changed || changed')
      end
  end.

(** The components that the trigger does not name. *)
Fixpoint missing_components (comps : list PullRequestTriggerComponent) (prCompSources : list RpcComponentSource)
    : M W (list PullRequestTriggerComponent) :=
  match prCompSources with
  | [] => mret []
  | source :: rest =>
      if containComponentInPRTriggerComps comps source then missing_components comps rest else
      do image <- deref (csr_Image source);
      do rest <- missing_components comps rest;
      mret (mkPullRequestTriggerComponent (csr_ComponentName source)
              (Some (mkImage (ri_Repository image) (ri_Tag image))) (csr_Pattern source) (csr_Source source)
            :: rest)
  end.

(** The trigger decides over the configuration where it speaks. *)
Definition override_source (source : RpcComponentSource) (comp : PullRequestTriggerComponent)
    : M W RpcComponentSource :=
  if negb (String.eqb (pt_ComponentName comp) (csr_ComponentName source)) then mret source else
  let over (value : string) (f : RpcImage -> RpcImage) (source : RpcComponentSource) : M W RpcComponentSource :=
    if String.eqb value "" then mret source
    else do image <- deref (csr_Image source); mret (source <| csr_Image := Some (f image) |>) in
  do source <- (match pt_Image comp with
                | None => mret source
                | Some image =>
                    do source <- over (img_Repository image)
                                   (fun i => i <| ri_Repository := img_Repository image |>) source;
                    over (img_Tag image) (fun i => i <| ri_Tag := img_Tag image |>) source
                end);
  let source := if String.eqb (pt_Pattern comp) "" then source else source <| csr_Pattern := pt_Pattern comp |> in
  mret (if String.eqb (pt_Source comp) "" then source else source <| csr_Source := pt_Source comp |>).

Fixpoint override_with (comps : list PullRequestTriggerComponent) (source : RpcComponentSource)
    : M W RpcComponentSource :=
  match comps with
  | [] => mret source
  | comp :: rest => do source <- override_source source comp; override_with rest source
  end.
Fixpoint override_sources (comps : list PullRequestTriggerComponent) (prCompSources : list RpcComponentSource)
    : M W (list RpcComponentSource) :=
  match prCompSources with
  | [] => mret []
  | source :: rest =>
      do source <- override_with comps source;
      do rest <- override_sources comps rest;
      mret (source :: rest)
  end.
End fill.

Section trigger.
Context {W : Type} `{GR : GoRuntime W} `{GS : GoSort} `{GD : GoDuration} `{SC : GoSchedule W}.
Context `{PC : PrqCluster W} `{KT : KClient W PullRequestTrigger} `{RPC : SamsahaiRPC W}.
Context (c : trigger_controller).

(** A handler of one trigger. *)
Definition TriggerHandler (A : Type) : Type := M (W * PullRequestTrigger) A.
Definition set_trigger_spec (f : PullRequestTriggerSpec -> PullRequestTriggerSpec) : TriggerHandler unit :=
  mod_obj (fun t => t <| prt_Spec ::= f |>).
Definition set_trigger_status (f : PullRequestTriggerStatus -> PullRequestTriggerStatus) : TriggerHandler unit :=
  mod_obj (fun t => t <| prt_Status ::= f |>).

(** Components that are only left out or added do not count as a change. *)
Definition fillEmptyData (prCompSources : list RpcComponentSource) : TriggerHandler bool :=
  do t <- onW now;
  do prTrigger <- get_obj;
  let created := ptst_CreatedAt (prt_Status prTrigger) in
  let updated := ptst_UpdatedAt (prt_Status prTrigger) in
  run set_trigger_status (fun s =>
    s <| ptst_CreatedAt := Some (default t created) |> <| ptst_UpdatedAt := Some (default t updated) |>);
  do ' (comps, changed) <- onW (fill_components prCompSources (pts_Components (prt_Spec prTrigger)));
  do added <- onW (missing_components comps prCompSources);
  run set_trigger_spec (fun s => s <| pts_Components := comps ++ added |>);
  mret (match created with None => true | _ => false end ||
        match updated with None => true | _ => false end || changed).

Definition getOverridingComponentSource (prTrigger : PullRequestTrigger) : M W (list RpcComponentSource) :=
  do prCompSourceList <- rpc_GetPullRequestComponentSources
    (mkTeamWithPullRequest (tc_teamName c) (pts_BundleName (prt_Spec prTrigger))
       (pts_PRNumber (prt_Spec prTrigger)) "" "" 0 []);
  override_sources (pts_Components (prt_Spec prTrigger)) prCompSourceList.

(** The look-up always ends ([fetch_components_sequential]): the internal error is not
    reached. *)
Definition getPRQueueComponentsIfImageExisted (prCompSources : list RpcComponentSource)
    : TriggerHandler (error + QueueComponents) :=
  do prTrigger <- get_obj;
  do res <- onW (fetch_components prCompSources (ptst_ImageMissingList (prt_Status prTrigger)));
  match res with
  | None => throw ErrInternalError
  | Some (comps, err, missing) =>
      run set_trigger_status (fun s => s <| ptst_ImageMissingList := missing |>);
      mret (match err with Some err => inl err | None => inr comps end)
  end.

Definition createPullRequestQueue (namespace name prNumber commitSHA gitRepo : string) (comps : QueueComponents)
    (imageMissingList : list Image) (isPRTriggerFailed : bool) (createAt finishedAt : option Z)
    (teardownDuration : PullRequestTearDownDuration) (testRunner : option ConfigTestRunnerOverrider) : M W unit :=
  let prQueue := NewPullRequestQueue (tc_teamName c) namespace name prNumber commitSHA gitRepo comps
    imageMissingList isPRTriggerFailed createAt finishedAt teardownDuration testRunner in
  do _ <- with_obj (PrqObject prQueue) (Add (tc_prQueueCtrl c) []);
  mret tt.

Definition deleteAndSendPullRequestTriggerResult (prTrigger : PullRequestTrigger) : M W unit :=
  let missingImgListRPC := map (fun img => mkRpcImage (img_Repository img) (img_Tag img))
    (ptst_ImageMissingList (prt_Status prTrigger)) in
  let prTriggerRPC := mkRpcPullRequestTrigger (kname prTrigger) (kns prTrigger) (tc_teamName c)
    (trigger_result_string (ptst_Result (prt_Status prTrigger))) missingImgListRPC in
  run wrapping ("cannot send pull request trigger result report, team: " +:+ tc_teamName c +:+
      ", component: " +:+ pts_BundleName (prt_Spec prTrigger) +:+
      ", prNumber: " +:+ pts_PRNumber (prt_Spec prTrigger))
    (rpc_RunPostPullRequestTrigger prTriggerRPC);
  do r <- attempt (k_delete prTrigger);
  match r with
  | inl err => if IsNotFound err then mret tt else throw err
  | inr _ => mret tt
  end.

(** The tear-down of the trigger, or that of the configuration. *)
Definition tear_down_of (prTrigger : PullRequestTrigger) (prConfig : RpcPullRequestConfig)
    : M W PullRequestTearDownDuration :=
  match pts_TearDownDuration (prt_Spec prTrigger) with
  | Some tearDownDuration => mret tearDownDuration
  | None =>
      do configTearDownDuration <- deref (rpc_TearDownDuration prConfig);
      match ToCrdCriteria (rtd_Criteria configTearDownDuration) with
      | inr criteria => mret (mkPullRequestTearDownDuration (rtd_Duration configTearDownDuration) criteria)
      | inl err =>
          if IsErrPullRequestRPCTearDownDurationCriteriaUnknown err
          then mret (mkPullRequestTearDownDuration 0 PullRequestTearDownDurationCriteriaBoth)
          else throw (Wrap err "cannot parse tearDownDuration criteria from rpc")
      end
  end.

(** The pull request goes into the queue with what the trigger has by now, and the
    trigger goes. *)
Definition hand_over (namespace gitRepo : string) (comps : QueueComponents) (isPRTriggerFailed : bool)
    (tearDownDuration : PullRequestTearDownDuration) : TriggerHandler unit :=
  do prTrigger <- get_obj;
  let spec := prt_Spec prTrigger in
  let status := prt_Status prTrigger in
  run onW (createPullRequestQueue namespace (pts_BundleName spec) (pts_PRNumber spec) (pts_CommitSHA spec) gitRepo
    comps (ptst_ImageMissingList status) isPRTriggerFailed (ptst_CreatedAt status) (ptst_UpdatedAt status)
    tearDownDuration (pts_TestRunner spec));
  onW (deleteAndSendPullRequestTriggerResult prTrigger).

Definition retries_over (maxRetry : Z) (noOfRetry : option Z) : bool :=
  (0 <=? maxRetry) && match noOfRetry with Some n => maxRetry <=? n | None => false end.

(** The look-up has failed: it is tried again later, or given up at once. *)
Definition note_failure (now pollingTime maxRetry : Z) (err : error) : TriggerHandler unit :=
  run set_trigger_spec (fun s =>
    let n := match pts_NoOfRetry s with None => 0 | Some n => int_add n 1 end in
    s <| pts_NoOfRetry := Some n |>
      <| pts_NextProcessAt := Some (if retries_over maxRetry (Some n) then now else now + pollingTime) |>);
  run set_trigger_status (fun s => s <| ptst_UpdatedAt := Some now |>);
  do t <- onW GoRuntime.now;
  run set_trigger_status (PrtSetCondition t PullRequestTriggerCondFailed ConditionTrue (err_text err));
  run set_trigger_status (PrtSetResult PullRequestTriggerFailure);
  do prTrigger <- get_obj;
  do r <- attempt (onW (k_update prTrigger));
  match r with
  | inl err => if IsConflict err then mret tt else throw err
  | inr _ => mret tt
  end.

Definition trigger_waits : Result := mkResult true (2 * Second).

Definition reconcile_trigger (now : Z) (namespace : string) : TriggerHandler Result :=
  do prTrigger <- get_obj;
  if match pts_NextProcessAt (prt_Spec prTrigger) with Some t => now <? t | None => false end
  then mret trigger_waits else
  do prConfig <- onW (wrapping ("cannot get pull request config of team: " +:+ tc_teamName c)
    (rpc_GetPullRequestConfig (mkTeamWithBundleName (tc_teamName c) (pts_BundleName (prt_Spec prTrigger)))));
  do trigger <- deref (rpc_Trigger prConfig);
  match parse_duration (rtc_PollingTime trigger) with
  | inl err => throw (Wrap err ("cannot parse trigger polling time string: " +:+ rtc_PollingTime trigger))
  | inr pollingTime =>
      let maxRetry := rtc_MaxRetry trigger in
      let gitRepo := rpc_GitRepository prConfig in
      do tearDownDuration <- onW (tear_down_of prTrigger prConfig);
      if retries_over maxRetry (pts_NoOfRetry (prt_Spec prTrigger)) then
        run hand_over namespace gitRepo [] true tearDownDuration;
        mret noResult
      else
      do prCompSources <- onW (getOverridingComponentSource prTrigger);
      do changed <- fillEmptyData prCompSources;
      if (changed : bool) then
        do prTrigger <- get_obj;
        run onW (k_update prTrigger);
        mret noResult
      else
      do prQueueComponents <- getPRQueueComponentsIfImageExisted prCompSources;
      match prQueueComponents with
      | inl err => run note_failure now pollingTime maxRetry err; mret noResult
      | inr prQueueComponents =>
          run set_trigger_status (PrtSetResult PullRequestTriggerSuccess);
          run hand_over namespace gitRepo prQueueComponents false tearDownDuration;
          mret noResult
      end
  end.

Definition Reconcile (req : Request) : M W Result :=
  do now <- now;
  do r <- attempt (k_get PullRequestTrigger req);
  match r with
  | inl err => if IsNotFound err then mret noResult else throw err
  | inr prTrigger =>
      do ' (res, _) <- with_obj prTrigger (reconcile_trigger now (fst req));
      mret res
  end.
End trigger.

(** ** [internal/samsahai/pullrequest.go] *)

Definition getPullRequestTriggerLabels (teamName bundle prNumber : string) : gmap string string :=
  <["pr-number" := prNumber]> (<["bundle" := bundle]> (GetDefaultLabels teamName)).

Section samsahai.
Context {W : Type} `{GR : GoRuntime W} `{CFG : ConfigController W} `{S2H : SamsahaiController W}.
Context `{KT : KClient W PullRequestTrigger}.

Definition validatePullRequestBundleName (teamName prBundleName : string) : M W unit :=
  do prConfig <- cfg_GetPullRequestConfig teamName;
  do prConfig <- deref prConfig;
  if existsb (fun bundle => String.eqb (prb_Name bundle) prBundleName) (cpr_Bundles prConfig) then mret tt
  else throw ErrPullRequestBundleNotFound.

(** An older trigger of the pull request is replaced. *)
Definition TriggerPullRequestDeployment (teamName bundleName prNumber commitSHA : string)
    (bundleCompsTag : gmap string string) (tearDownDuration : option PullRequestTearDownDuration)
    (testRunner : option ConfigTestRunnerOverrider) : M W unit :=
  run validatePullRequestBundleName teamName bundleName;
  do teamComp <- s2h_GetTeam teamName;
  do tags <- range_map bundleCompsTag;
  let components := map (fun p =>
    mkPullRequestTriggerComponent (fst p) (Some (mkImage "" (snd p))) "" "") tags in
  let namespace := tn_Staging (tst_Namespace (team_Status teamComp)) in
  let prTriggerName := GenPullRequestBundleName bundleName prNumber in
  do r <- attempt (k_get PullRequestTrigger (namespace, prTriggerName));
  run (match r with
       | inl err => if IsNotFound err then mret tt else throw err
       | inr prTrigger => k_delete prTrigger
       end);
  k_create (mkPullRequestTrigger
    ((namedMeta namespace prTriggerName)
       <| om_Labels := getPullRequestTriggerLabels teamName bundleName prNumber |>)
    (mkPullRequestTriggerSpec bundleName prNumber commitSHA components None None "" tearDownDuration testRunner)
    zeroPrtStatus).
End samsahai.
