(* ===== verification/PrtClaims.v ===== *)
(** The properties of the triggers of pull requests. *)

From S2P Require Import Prelude.
From S2P Require Import GoRuntime.
From S2P Require Import Errors.
From S2P Require Import KubeApi.
From S2P Require Import Frame.
From S2P Require Import Evolution.
From S2P Require Import ConfigTypes.
From S2P Require Import ComponentTypes.
From S2P Require Import QueueTypes.
From S2P Require Import RpcTypes.
From S2P Require Import PrqTypes.
From S2P Require Import PrtTypes.
From S2P Require Import QueueCtrl.
From S2P Require Import Interfaces.
From S2P Require Import PrqCtrl.
From S2P Require Import PrqSpec.
From S2P Require Import PrtFetch.
From S2P Require Import PrqSim.
From S2P Require Import PrqClaims.
From S2P Require Import PrtCtrl.
From stdpp Require Import relations.
Open Scope string_scope.
Open Scope list_scope.
Open Scope Z_scope.

(** ** Completing a trigger *)

(** A source that says everything. *)
Definition full_source (source : RpcComponentSource) : Prop :=
  exists image, csr_Image source = Some image /\ ri_Repository image <> "" /\ ri_Tag image <> "" /\
    csr_Pattern source <> "" /\ csr_Source source <> "".
(** A component that lacks nothing. *)
Definition full_component (comp : PullRequestTriggerComponent) : Prop :=
  exists image, pt_Image comp = Some image /\ img_Repository image <> "" /\ img_Tag image <> "" /\
    pt_Pattern comp <> "" /\ pt_Source comp <> "".

Section filling.
Context {W : Type}.
Implicit Types (w : W) (sources : list RpcComponentSource) (comps : list PullRequestTriggerComponent).

Lemma fill_image_full field get source w image :
  csr_Image source = Some image -> get image <> "" ->
  exists v ch, fill_image_field field get source w = (Ok (v, ch), w) /\ v <> "" /\
    (field <> "" -> v = field /\ ch = false).
Proof.
  intros Hi Hg. unfold fill_image_field. destruct (String.eqb_spec field "") as [->|Hne].
  - exists (get image), true. rewrite Hi. done.
  - by exists field, false.
Qed.

Lemma fill_component_full source comp w :
  full_source source ->
  exists comp' ch, fill_component source comp w = (Ok (comp', ch), w) /\
    pt_ComponentName comp' = pt_ComponentName comp /\ full_component comp' /\
    (full_component comp -> comp' = comp /\ ch = false).
Proof.
  intros (image & Hi & Hr & Ht & Hp & Hs).
  unfold fill_component. unfold mbind, M_bind.
  set (im := default (mkImage "" "") (pt_Image comp)).
  destruct (fill_image_full (img_Repository im) ri_Repository source w image Hi Hr) as (r & c1 & -> & Hr1 & Hr2).
  destruct (fill_image_full (img_Tag im) ri_Tag source w image Hi Ht) as (t & c2 & -> & Ht1 & Ht2).
  rewrite (proj2 (String.eqb_neq t "") Ht1).
  assert (exists p c3, fill_field (pt_Pattern comp) (csr_Pattern source) = (p, c3) /\ p <> "" /\
    (pt_Pattern comp <> "" -> p = pt_Pattern comp /\ c3 = false)) as (p & c3 & -> & Hp1 & Hp2).
  { unfold fill_field. destruct (String.eqb_spec (pt_Pattern comp) "") as [He|He]; eexists _, _; by rewrite ?He. }
  assert (exists u c4, fill_field (pt_Source comp) (csr_Source source) = (u, c4) /\ u <> "" /\
    (pt_Source comp <> "" -> u = pt_Source comp /\ c4 = false)) as (u & c4 & -> & Hu1 & Hu2).
  { unfold fill_field. destruct (String.eqb_spec (pt_Source comp) "") as [He|He]; eexists _, _; by rewrite ?He. }
  eexists _, _. split; [reflexivity|]. split; [done|]. split; [by exists (mkImage r t)|].
  intros (image' & Himg' & H1 & H2 & H3 & H4).
  assert (im = image') as -> by (unfold im; by rewrite Himg').
  destruct (Hr2 H1) as [-> ->], (Ht2 H2) as [-> ->], (Hp2 H3) as [-> ->], (Hu2 H4) as [-> ->].
  destruct comp, image'; simpl in *. by rewrite Himg'.
Qed.

Lemma same_component_In sources comp source :
  getSameComponentInCompSources sources comp = Some source -> source ∈ sources.
Proof. intros [Hin _]%List.find_some. by apply list_elem_of_In. Qed.

(** The components that are left are those of the sources, and full. *)
Lemma fill_components_full sources comps w :
  Forall full_source sources ->
  exists comps' ch, fill_components sources comps w = (Ok (comps', ch), w) /\
    Forall full_component comps' /\
    Forall (fun c => is_Some (getSameComponentInCompSources sources c)) comps' /\
    (Forall full_component comps -> Forall (fun c => is_Some (getSameComponentInCompSources sources c)) comps ->
       comps' = comps /\ ch = false).
Proof.
  intros Hs. induction comps as [|comp comps (comps' & ch & Heq & Hf & Hk & Hsame)]; [by exists [], false|].
  cbn [fill_components]. destruct (getSameComponentInCompSources sources comp) as [source|] eqn:Hsrc.
  - destruct (fill_component_full source comp w) as (comp' & c1 & Hc & Hn & Hfull & Hid).
    { rewrite Forall_forall in Hs. by eapply Hs, same_component_In. }
    exists (comp' :: comps'), (c1 || ch). unfold mbind, M_bind. rewrite Hc, Heq.
    assert (is_Some (getSameComponentInCompSources sources comp')) as Hk'.
    { unfold getSameComponentInCompSources. rewrite Hn. by exists source. }
    split_and!; [done|by constructor|by constructor|].
    intros [Hc1 Hc2]%Forall_cons [_ Hk2]%Forall_cons. destruct (Hid Hc1) as [-> ->].
    by destruct (Hsame Hc2 Hk2) as [-> ->].
  - exists comps', ch. split_and!; [done..|]. intros _ [[? Hn] _]%Forall_cons. congruence.
Qed.

(** The added components are full and of the sources; when every source has its component
    there is nothing to add. *)
Lemma missing_components_full sources all comps w :
  Forall full_source sources -> (forall s, s ∈ sources -> s ∈ all) ->
  exists added, missing_components comps sources w = (Ok added, w) /\ Forall full_component added /\
    Forall (fun c => is_Some (getSameComponentInCompSources all c)) added /\
    (forall s, s ∈ sources -> containComponentInPRTriggerComps (comps ++ added) s = true) /\
    ((forall s, s ∈ sources -> containComponentInPRTriggerComps comps s = true) -> added = []).
Proof.
  intros Hs. induction sources as [|source sources IH]; intros Hall.
  { exists []. split_and!; [done..|by intros s ?%elem_of_nil|done]. }
  apply Forall_cons in Hs as [(image & Hi & Hr & Ht & Hp & Hu) Hs].
  destruct (IH Hs) as (added & Heq & Hf & Hk & Hc & Hnone); [by intros s Hin; apply Hall; right|].
  cbn [missing_components]. destruct (containComponentInPRTriggerComps comps source) eqn:Hin.
  - exists added. split_and!; [done..| |].
    + intros s [->|Hx]%elem_of_cons; [|by apply Hc]. unfold containComponentInPRTriggerComps in *.
      by rewrite existsb_app, Hin.
    + intros Hx. apply Hnone. intros s Hs'. apply Hx. by right.
  - rewrite Hi. unfold mbind, M_bind. simpl. rewrite Heq. eexists. split; [reflexivity|]. split_and!.
    + constructor; [|done]. eexists. split; [reflexivity|]. done.
    + constructor; [|done]. unfold getSameComponentInCompSources. simpl.
      destruct (List.find _ all) as [x|] eqn:Hx; [by exists x|]. exfalso.
      assert (source ∈ all) as Ha by (apply Hall; by left). apply list_elem_of_In in Ha.
      eapply List.find_none in Hx; [|exact Ha]. simpl in Hx. by rewrite String.eqb_refl in Hx.
    + intros s Hx. unfold containComponentInPRTriggerComps in *. rewrite existsb_app. simpl.
      apply elem_of_cons in Hx as [->|Hx]; [by rewrite String.eqb_refl, orb_true_r|].
      specialize (Hc s Hx). rewrite existsb_app in Hc. apply orb_true_iff in Hc as [H1|H1]; rewrite H1; [done|].
      by rewrite !orb_true_r.
    + intros Hx. specialize (Hx source ltac:(left)). congruence.
Qed.
End filling.

Section settling.
Context {W : Type} `{GR : GoRuntime W}.
Implicit Types (t : PullRequestTrigger).

(** The call, in one equation. *)
Lemma fillEmptyData_run sources w t comps ch added :
  fill_components sources (pts_Components (prt_Spec t)) (snd (rt_now w)) = (Ok (comps, ch), snd (rt_now w)) ->
  missing_components comps sources (snd (rt_now w)) = (Ok added, snd (rt_now w)) ->
  let created := ptst_CreatedAt (prt_Status t) in
  let updated := ptst_UpdatedAt (prt_Status t) in
  fillEmptyData sources (w, t) =
    (Ok (match created with None => true | _ => false end || match updated with None => true | _ => false end || ch),
     (snd (rt_now w),
      t <| prt_Status ::= fun s => s <| ptst_CreatedAt := Some (default (fst (rt_now w)) created) |>
                                     <| ptst_UpdatedAt := Some (default (fst (rt_now w)) updated) |> |>
        <| prt_Spec ::= fun s => s <| pts_Components := comps ++ added |> |>)).
Proof.
  intros Hfill Hmiss. unfold fillEmptyData, set_trigger_status, set_trigger_spec, onW, now, get_obj, mod_obj,
    mbind, M_bind. cbn [fst snd]. destruct (rt_now w) as [z w1]. cbn [fst snd] in *.
  rewrite Hfill. cbn [fst snd]. by rewrite Hmiss.
Qed.

(** a trigger is completed from the configuration in one go: when every source says
    everything, each of its components has a complete one in the trigger afterwards, the
    trigger has no others, and the next call finds nothing to do. *)
Theorem fillEmptyData_settles sources w t ch w1 t1 :
  Forall full_source sources ->
  fillEmptyData sources (w, t) = (Ok ch, (w1, t1)) ->
  Forall full_component (pts_Components (prt_Spec t1)) /\
  (forall s, s ∈ sources -> containComponentInPRTriggerComps (pts_Components (prt_Spec t1)) s = true) /\
  Forall (fun c => is_Some (getSameComponentInCompSources sources c)) (pts_Components (prt_Spec t1)) /\
  forall w2, fillEmptyData sources (w2, t1) = (Ok false, (snd (rt_now w2), t1)).
Proof.
  intros Hs Heq.
  destruct (fill_components_full sources (pts_Components (prt_Spec t)) (snd (rt_now w)) Hs)
    as (comps & c1 & Hfill & Hf & Hk & _).
  destruct (missing_components_full sources sources comps (snd (rt_now w)) Hs (fun _ H => H))
    as (added & Hmiss & Haf & Hak & Hall & _).
  rewrite (fillEmptyData_run _ _ _ _ _ _ Hfill Hmiss) in Heq. injection Heq as _ _ <-. simpl.
  assert (Forall full_component (comps ++ added)) as Hf1 by by apply Forall_app_2.
  assert (Forall (fun c => is_Some (getSameComponentInCompSources sources c)) (comps ++ added)) as Hk1
    by by apply Forall_app_2.
  split_and!; [done..|]. intros w2.
  destruct (fill_components_full sources (comps ++ added) (snd (rt_now w2)) Hs)
    as (comps2 & c2 & Hfill2 & _ & _ & Hid). destruct (Hid Hf1 Hk1) as [-> ->].
  destruct (missing_components_full sources sources (comps ++ added) (snd (rt_now w2)) Hs (fun _ H => H))
    as (added2 & Hmiss2 & _ & _ & _ & Hnone). specialize (Hnone Hall) as ->.
  match goal with |- fillEmptyData _ (_, ?t1) = _ =>
    rewrite (fillEmptyData_run sources w2 t1 _ _ _ Hfill2 Hmiss2) end.
  by rewrite app_nil_r.
Qed.

(** What happens otherwise. *)
Lemma fill_image_cases {S} field get source (w : S) :
  (exists v ch, fill_image_field field get source w = (Ok (v, ch), w)) \/
  fill_image_field field get source w = (Panic NilDereference, w).
Proof.
  unfold fill_image_field. destruct (String.eqb field ""); [|left; by exists field, false].
  destruct (csr_Image source) as [image|]; [left; by exists (get image), true|by right].
Qed.

Lemma fill_component_cases {S} source comp (w : S) :
  (exists comp' ch, fill_component source comp w = (Ok (comp', ch), w) /\
     pt_ComponentName comp' = pt_ComponentName comp /\
     (pt_Pattern comp = "" -> ch = true /\ pt_Pattern comp' = csr_Pattern source)) \/
  fill_component source comp w = (Panic NilDereference, w).
Proof.
  unfold fill_component, mbind, M_bind. set (im := default (mkImage "" "") (pt_Image comp)).
  destruct (fill_image_cases (img_Repository im) ri_Repository source w) as [(r & c1 & ->)| ->]; [|by right].
  destruct (fill_image_cases (img_Tag im) ri_Tag source w) as [(t & c2 & ->)| ->]; [|by right].
  left. unfold fill_field. destruct (String.eqb_spec (pt_Pattern comp) "") as [Hp|Hp];
    destruct (String.eqb (pt_Source comp) ""); eexists _, _; (split; [reflexivity|]); (split; [done|]);
    intros Hn; try done; split; [|done| |done]; by rewrite ?orb_true_r.
Qed.

Lemma fill_components_cases {S} sources comps (w : S) :
  (exists comps' ch, fill_components sources comps w = (Ok (comps', ch), w) /\
     forall comp source, comp ∈ comps -> getSameComponentInCompSources sources comp = Some source ->
       pt_Pattern comp = "" -> csr_Pattern source = "" ->
       ch = true /\ exists comp', comp' ∈ comps' /\ pt_Pattern comp' = "" /\
         pt_ComponentName comp' = pt_ComponentName comp) \/
  fill_components sources comps w = (Panic NilDereference, w).
Proof.
  induction comps as [|comp comps IH].
  { left. exists [], false. split; [done|]. by intros ? ? ?%elem_of_nil. }
  cbn [fill_components]. destruct (getSameComponentInCompSources sources comp) as [source|] eqn:Hsrc.
  - unfold mbind, M_bind.
    destruct (fill_component_cases source comp w) as [(comp' & c1 & -> & Hn & Hp)| ->]; [|by right].
    destruct IH as [(comps' & c2 & -> & IH)| ->]; [|by right]. left. eexists _, _. split; [reflexivity|].
    intros x src [->|Hx]%elem_of_cons Hsx Hpx Hps.
    + simplify_eq. destruct (Hp Hpx) as [-> Hp']. split; [done|]. exists comp'.
      split_and!; [by left|congruence|done].
    + destruct (IH x src Hx Hsx Hpx Hps) as [-> (y & Hy & Hpy & Hny)]. split; [by rewrite orb_true_r|].
      exists y. by split_and!; [right| |].
  - destruct IH as [(comps' & c2 & -> & IH)| ->]; [|by right]. left. eexists _, _. split; [reflexivity|].
    intros x src [->|Hx]%elem_of_cons Hsx Hpx Hps; [congruence|by eapply IH].
Qed.

Lemma missing_components_cases {S} comps sources (w : S) :
  (exists added, missing_components comps sources w = (Ok added, w)) \/
  missing_components comps sources w = (Panic NilDereference, w).
Proof.
  induction sources as [|source sources IH]; [left; by exists []|]. cbn [missing_components].
  destruct (containComponentInPRTriggerComps comps source); [done|].
  destruct (csr_Image source) as [image|]; [|by right]. unfold mbind, M_bind. simpl.
  destruct IH as [(added & ->)| ->]; [left; by eexists|by right].
Qed.

(** a component for which neither the trigger nor the configuration has a pattern is
    never complete: filling it in counts as a change every time, so that [Reconcile] stores
    the trigger and stops before it looks for an image, over and over again. *)
Theorem fillEmptyData_never_settles source sources comp w t r w1 t1 :
  csr_Pattern source = "" ->
  getSameComponentInCompSources sources comp = Some source ->
  comp ∈ pts_Components (prt_Spec t) -> pt_Pattern comp = "" ->
  fillEmptyData sources (w, t) = (r, (w1, t1)) ->
  match r with
  | Ok changed => changed = true /\
      exists comp', comp' ∈ pts_Components (prt_Spec t1) /\ pt_Pattern comp' = "" /\
        pt_ComponentName comp' = pt_ComponentName comp
  | Err _ => False
  | Panic p => p = NilDereference
  end.
Proof.
  intros Hps Hsrc Hin Hp Heq.
  destruct (fill_components_cases sources (pts_Components (prt_Spec t)) (snd (rt_now w)))
    as [(comps & ch & Hfill & Hex)|Hpanic].
  - destruct (Hex comp source Hin Hsrc Hp Hps) as [-> (comp' & Hin' & Hp' & Hn')].
    destruct (missing_components_cases comps sources (snd (rt_now w))) as [(added & Hmiss)|Hpanic].
    + rewrite (fillEmptyData_run _ _ _ _ _ _ Hfill Hmiss) in Heq. injection Heq as <- _ <-. simpl.
      split; [by rewrite orb_true_r|]. exists comp'. split; [|done]. apply elem_of_app. by left.
    + unfold fillEmptyData, set_trigger_status, onW, now, get_obj, mod_obj, mbind, M_bind in Heq.
      cbn [fst snd] in Heq. destruct (rt_now w) as [z w2]. cbn [fst snd] in *.
      rewrite Hfill in Heq. cbn [fst snd] in Heq. rewrite Hpanic in Heq. by injection Heq as <- _ _.
  - unfold fillEmptyData, set_trigger_status, onW, now, get_obj, mod_obj, mbind, M_bind in Heq.
    cbn [fst snd] in Heq. destruct (rt_now w) as [z w2]. cbn [fst snd] in *.
    rewrite Hpanic in Heq. by injection Heq as <- _ _.
Qed.
End settling.

(** ** The way of a trigger *)

(** The calls that only read, or that only report. *)
Class PrtFrame (W : Type) `{GR : GoRuntime W, SC : GoSchedule W, RPC : SamsahaiRPC W} {V : Type} (v : W -> V)
    : Prop := {
  tf_runtime :: RuntimeFrame W v;
  tf_choose n w : v (snd (rt_choose n w)) = v w;
  tf_config :: forall r, Preserves (rpc_GetPullRequestConfig r) v;
  tf_sources :: forall r, Preserves (rpc_GetPullRequestComponentSources r) v;
  tf_version :: forall r, Preserves (rpc_GetComponentVersion r) v;
  tf_report :: forall r, Preserves (rpc_RunPostPullRequestTrigger r) v;
}.

Section trigger_frame.
Context {W : Type} `{GR : GoRuntime W} `{GS : GoSort} `{GD : GoDuration} `{SC : GoSchedule W}.
Context `{RPC : SamsahaiRPC W} (c : trigger_controller).
Context {V : Type} (v : W -> V) {PF : PrtFrame W v}.

#[export] Instance choose_preserves l : Preserves (choose l) v.
Proof. intros w. unfold choose. rewrite <- (tf_choose (v:=v) (length l) w). by destruct (rt_choose (length l) w). Qed.
#[export] Instance exec_preserves e f : Preserves (exec e f) v.
Proof. unfold exec. preserves. Qed.
#[export] Instance fetch_loop_preserves fuel f : Preserves (fetch_loop fuel f) v.
Proof. revert f. induction fuel as [|fuel IH]; intros f; cbn [fetch_loop]; preserves. Qed.
#[export] Instance fetch_preserves sources missing : Preserves (fetch_components sources missing) v.
Proof. apply fetch_loop_preserves. Qed.
#[export] Instance override_source_preserves source comp : Preserves (override_source (W:=W) source comp) v.
Proof. unfold override_source. preserves. Qed.
#[export] Instance override_with_preserves comps source : Preserves (override_with (W:=W) comps source) v.
Proof. revert source. induction comps as [|comp comps IH]; intros source; cbn [override_with]; preserves. Qed.
#[export] Instance override_sources_preserves comps sources : Preserves (override_sources (W:=W) comps sources) v.
Proof. induction sources as [|source sources IH]; cbn [override_sources]; preserves. Qed.
#[export] Instance overriding_preserves t : Preserves (getOverridingComponentSource c t) v.
Proof. unfold getOverridingComponentSource. preserves. Qed.
#[export] Instance tear_down_preserves t config : Preserves (tear_down_of (W:=W) t config) v.
Proof. unfold tear_down_of. preserves. Qed.
#[export] Instance fill_components_preserves sources comps : Preserves (fill_components (W:=W) sources comps) v.
Proof.
  intros w. destruct (fill_components_cases sources comps w) as [(comps' & ch & Heq & _)|Heq]; by rewrite Heq.
Qed.
#[export] Instance missing_components_preserves comps sources : Preserves (missing_components (W:=W) comps sources) v.
Proof. intros w. destruct (missing_components_cases comps sources w) as [(added & Heq)|Heq]; by rewrite Heq. Qed.
End trigger_frame.

Section handling.
Context {W : Type} `{GR : GoRuntime W} `{GS : GoSort} `{GD : GoDuration} `{SC : GoSchedule W}.
Context {SL : GoScheduleLaws W}.
Context `{PC : PrqCluster W} `{KT : KClient W PullRequestTrigger} `{RPC : SamsahaiRPC W}.
Context `{KVQ : KView W PullRequestQueue} `{KLQ : !KClientLaws W PullRequestQueue}.
Context `{KVT : KView W PullRequestTrigger} `{KLT : !KClientLaws W PullRequestTrigger}.
(** The two kinds of objects are stored apart, and the other calls keep both. *)
Definition stores (w : W) := (kview PullRequestTrigger w, kview PullRequestQueue w).
Context {PF : PrtFrame W stores}.
Context {KFT : KFrame W PullRequestQueue (kview PullRequestTrigger)}.
Context {KFQ : KFrame W PullRequestTrigger (kview PullRequestQueue)}.
Context {RFT : RuntimeFrame W (kview PullRequestTrigger)}.
Context (c : trigger_controller) (maxRetry : Z).
Context (max_used : forall r w config trigger w',
  rpc_GetPullRequestConfig r w = (Ok config, w') -> rpc_Trigger config = Some trigger ->
  0 <= rtc_MaxRetry trigger <= maxRetry).
Notation qns := (c_namespace (tc_prQueueCtrl c)).

Notation triggers := (gmap (string * string) PullRequestTrigger).
Notation queues := (gmap (string * string) PullRequestQueue).
Implicit Types (t : PullRequestTrigger).

(** What stays of a trigger until it is stored or handed over. *)
Definition essence t :=
  (prt_Meta t, pts_BundleName (prt_Spec t), pts_PRNumber (prt_Spec t), pts_CommitSHA (prt_Spec t),
   pts_NoOfRetry (prt_Spec t)).

(** One more try, when there is one left. *)
Definition tried_again t t' : Prop :=
  retries_over maxRetry (pts_NoOfRetry (prt_Spec t)) = false /\
  essence t' = essence (t <| prt_Spec ::= fun s =>
    s <| pts_NoOfRetry := Some (match pts_NoOfRetry s with None => 0 | Some n => int_add n 1 end) |> |>).
(** The pull request is in the queue, with the commit of the trigger to come. *)
Definition queued t (Q : queues) : Prop :=
  exists q, Q !! (qns, GenPullRequestBundleName (pts_BundleName (prt_Spec t)) (pts_PRNumber (prt_Spec t))) = Some q /\
    ps_UpcomingCommitSHA (prq_Spec q) = pts_CommitSHA (prt_Spec t).
Definition handled (k : string * string) t (V V' : triggers) (Q' : queues) : Prop :=
  V' = V \/
  (exists t', (essence t' = essence t \/ tried_again t t') /\ V' = store_update t' V) \/
  (queued t Q' /\ forall k', k' <> k -> V' !! k' = V !! k').

(** The queue can be added to. *)
Definition can_add (Q : queues) : Prop :=
  (forall k x, Q !! k = Some x -> ~ is_gone (prq_Meta x) /\ 0 <= ps_NoOfOrder (prq_Spec x) < 2 ^ 62) /\
  Z.of_nat (size Q) < 2 ^ 62.

Lemma added_upcoming q V V' :
  added q V V' -> exists x, V' !! kkey q = Some x /\
    ps_UpcomingCommitSHA (prq_Spec x) = ps_UpcomingCommitSHA (prq_Spec q).
Proof.
  unfold added. destruct (V !! kkey q) as [x|].
  - intros ->. rewrite lookup_insert_eq. by eexists.
  - intros (n & -> & _). rewrite lookup_insert_eq. by eexists.
Qed.

#[local] Instance reset_keeps_triggers cc : Preserves (resetQueueOrder cc) (kview PullRequestTrigger).
Proof. unfold resetQueueOrder, listPullRequestQueues, updatePullRequestQueueObj. preserves. Qed.
#[local] Instance add_keeps_triggers cc : Preserves (addQueue cc) (of_world (kview PullRequestTrigger)).
Proof. unfold addQueue, listPullRequestQueues, PrqLastQueueOrder. preserves. Qed.

(** The queue is there when the call succeeds. *)
Lemma wp_createPullRequestQueue t gitRepo comps missing failed createAt finishedAt tearDown runner w :
  qns <> "" -> can_add (kview PullRequestQueue w) ->
  wp (createPullRequestQueue c qns (pts_BundleName (prt_Spec t)) (pts_PRNumber (prt_Spec t))
        (pts_CommitSHA (prt_Spec t)) gitRepo comps missing failed createAt finishedAt tearDown runner) w
    (fun r w' => kview PullRequestTrigger w' = kview PullRequestTrigger w /\
       (r = Ok tt -> queued t (kview PullRequestQueue w'))).
Proof.
  intros Hns [Hall Hsize]. unfold createPullRequestQueue. cbv zeta.
  set (q := NewPullRequestQueue _ _ _ _ _ _ _ _ _ _ _ _ _).
  wp_step. apply wp_with_obj. apply run_wp. intros r [w' obj] Hadd.
  unfold PrqCtrl.Add, on_prq in Hadd. cbn [fst snd] in Hadd.
  destruct (addQueue (tc_prQueueCtrl c) (w, q)) as [r0 [w0 q0]] eqn:Heq. simplify_eq.
  pose proof (preserves (m:=addQueue (tc_prQueueCtrl c)) (v:=of_world (kview PullRequestTrigger)) (w, q)) as Hkeep.
  rewrite Heq in Hkeep. unfold of_world in Hkeep. simpl in Hkeep.
  pose proof (wp_addQueue (tc_prQueueCtrl c) w q Hns eq_refl Hall Hsize) as Hwp.
  pose proof (wp_run _ _ _ _ _ Hwp Heq) as Hq. simpl in Hq.
  destruct r as [[]|e|p]; [|by split..]. cbn [fst snd]. wp_step. split; [done|]. intros _.
  destruct (Hq eq_refl) as (V & _ & Hadded). by apply added_upcoming in Hadded.
Qed.

(** The trigger of the name is the only one that goes. *)
Lemma wp_delete_trigger t w :
  wp (deleteAndSendPullRequestTriggerResult c t) w (fun _ w' =>
    kview PullRequestQueue w' = kview PullRequestQueue w /\
    forall k, k <> kkey t -> kview PullRequestTrigger w' !! k = kview PullRequestTrigger w !! k).
Proof.
  unfold deleteAndSendPullRequestTriggerResult. cbv zeta. wp_step. unfold wrapping. wp_step. wp_step.
  apply wp_frame with (v := stores); [apply _|]. intros r w1 _ [= HT HQ].
  assert (forall r : outcome unit, kview PullRequestQueue w1 = kview PullRequestQueue w /\
    forall k, k <> kkey t -> kview PullRequestTrigger w1 !! k = kview PullRequestTrigger w !! k) as Hend.
  { intros _. split; [done|]. intros k _. by rewrite HT. }
  destruct r as [[]|e|p]; [|wp_step; by apply (Hend (Ok tt))|by apply (Hend (Ok tt))].
  wp_step. wp_step. wp_step. apply run_wp. intros r w2 Hdel.
  pose proof (k_delete_law t w1) as Hlaw. rewrite Hdel in Hlaw.
  pose proof (k_delete_frame (v:=kview PullRequestQueue) t w1) as Hfr. rewrite Hdel in Hfr. simpl in Hfr.
  assert (kview PullRequestQueue w2 = kview PullRequestQueue w /\
    forall k, k <> kkey t -> kview PullRequestTrigger w2 !! k = kview PullRequestTrigger w !! k) as Hgoal.
  { split; [congruence|]. intros k Hk. rewrite <- HT. destruct r as [[]|e|p]; [|destruct Hlaw as [_ ->]; done|done].
    destruct Hlaw as (y & Hy & Hgone & Hmark). destruct (decide (om_Finalizers (kmeta y) = [])) as [Hf|Hf].
    - rewrite (Hgone Hf). by rewrite lookup_delete_ne.
    - destruct (Hmark Hf) as [z ->]. by rewrite lookup_insert_ne. }
  destruct r as [[]|e|p]; [by wp_step|destruct (IsNotFound e); by wp_step|done].
Qed.

Lemma essence_key t t' : essence t' = essence t -> kkey t' = kkey t.
Proof. unfold essence, kkey, kns, kname. simpl. unfold kmeta, prt_object. congruence. Qed.

(** The pull request is handed over. *)
Lemma wp_hand_over k t V s gitRepo comps failed tearDown (Q : outcome unit -> W * PullRequestTrigger -> Prop) :
  qns <> "" -> can_add (kview PullRequestQueue (fst s)) ->
  kview PullRequestTrigger (fst s) = V -> kkey t = k -> essence (snd s) = essence t ->
  (forall r s', handled k t V (kview PullRequestTrigger (fst s')) (kview PullRequestQueue (fst s')) -> Q r s') ->
  wp (hand_over c qns gitRepo comps failed tearDown) s Q.
Proof.
  intros Hns Hadd HV Hk He HQ. unfold hand_over. wp_step. wp_step. cbv zeta.
  wp_step. wp_step. eapply wp_mono; [by apply (wp_createPullRequestQueue (snd s))|].
  intros r w1 [HT Hq]. cbn [snd].
  destruct r as [[]|e|p]; [|apply HQ; left; simpl; congruence..].
  wp_step. eapply wp_mono; [apply wp_delete_trigger|]. intros r w2 [HQ2 HT2]. apply HQ. right. right.
  simpl in *. split.
  - rewrite HQ2. destruct (Hq eq_refl) as (q & Hlook & Hup). unfold essence in He.
    injection He as _ Hb Hn Hc _. rewrite Hb, Hn, Hc in *. by exists q.
  - intros k' Hk'. rewrite HT2, HT, HV; [done|]. rewrite (essence_key _ _ He). congruence.
Qed.

(** A part of the handler that reads, or fills in the object. *)
Definition keeping (s : W * PullRequestTrigger) := (stores (fst s), essence (snd s)).
#[local] Instance fillEmptyData_keeps sources : Preserves (fillEmptyData sources) keeping.
Proof.
  change keeping with (of_both stores essence). unfold fillEmptyData, set_trigger_status, set_trigger_spec.
  preserves.
Qed.
#[local] Instance getComponents_keeps sources : Preserves (getPRQueueComponentsIfImageExisted sources) keeping.
Proof.
  change keeping with (of_both stores essence). unfold getPRQueueComponentsIfImageExisted, set_trigger_status.
  preserves.
Qed.

(** The object is stored. *)
Lemma wp_store_trigger k t V s (Q : outcome unit -> W * PullRequestTrigger -> Prop) :
  kview PullRequestTrigger (fst s) = V -> essence (snd s) = essence t \/ tried_again t (snd s) ->
  (forall r s', handled k t V (kview PullRequestTrigger (fst s')) (kview PullRequestQueue (fst s')) -> Q r s') ->
  wp (onW (k_update (snd s))) s Q.
Proof.
  intros HV He HQ. wp_step. apply wp_k_update; [intros w1 _ Hw1|intros e w1 Hw1]; apply HQ; simpl.
  - right. left. exists (snd s). split; [done|]. by rewrite Hw1, HV.
  - left. by rewrite Hw1.
Qed.

Lemma retries_left max n :
  0 <= max <= maxRetry -> retries_over max n = false -> retries_over maxRetry n = false.
Proof. unfold retries_over. destruct n as [n|]; lia. Qed.

Lemma wp_note_failure k t V now pollingTime max err s (Q : outcome unit -> W * PullRequestTrigger -> Prop) :
  kview PullRequestTrigger (fst s) = V -> essence (snd s) = essence t ->
  0 <= max <= maxRetry -> retries_over max (pts_NoOfRetry (prt_Spec t)) = false ->
  (forall r s', handled k t V (kview PullRequestTrigger (fst s')) (kview PullRequestQueue (fst s')) -> Q r s') ->
  wp (note_failure now pollingTime max err) s Q.
Proof.
  intros HV He Hmax Hno HQ. apply (retries_left _ _ Hmax) in Hno. unfold note_failure, set_trigger_spec, set_trigger_status.
  repeat wp_step. apply wp_frame with (v := kview PullRequestTrigger); [apply _|].
  intros [z|e|p] w1 Hnow Hw1; [|by apply HQ; left; simpl in *; congruence..]. cbn [fst snd] in *.
  do 8 wp_step.
  match goal with |- wp (onW (k_update ?x)) ?s0 _ => change x with (snd s0) end.
  eapply wp_store_trigger; [simpl; rewrite Hw1; exact HV| |].
  - right. split; [done|]. unfold essence in *. simpl. injection He as -> -> -> -> ->. done.
  - intros r s' Hh. destruct r as [[]|e|p]; [lazy beta iota; wp_step; by apply HQ| |by apply HQ].
    lazy beta iota. destruct (IsConflict e); wp_step; by apply HQ.
Qed.

Lemma wp_reconcile_trigger k t V now s (Q : outcome Result -> W * PullRequestTrigger -> Prop) :
  qns <> "" -> can_add (kview PullRequestQueue (fst s)) ->
  kview PullRequestTrigger (fst s) = V -> kkey t = k -> snd s = t ->
  (forall r s', handled k t V (kview PullRequestTrigger (fst s')) (kview PullRequestQueue (fst s')) -> Q r s') ->
  wp (reconcile_trigger c now qns) s Q.
Proof.
  intros Hns Hadd HV Hk Hs HQ.
  assert (forall r s', stores (fst s') = stores (fst s) -> Q r s') as Hsame.
  { intros r s' [= HT _]. apply HQ. left. by rewrite HT. }
  unfold reconcile_trigger. wp_step. wp_step. rewrite Hs. destruct (match pts_NextProcessAt _ with Some _ => _ | _ => _ end);
    [wp_step; by apply Hsame|].
  wp_step. wp_step. unfold wrapping. wp_step. wp_step.
  apply wp_frame with (v := stores); [apply _|]. intros [config|e|p] w1 Hc Hw1; [|wp_step; by apply Hsame|by apply Hsame].
  wp_step. cbn [fst snd]. wp_step. wp_step. destruct (rpc_Trigger config) as [trigger|] eqn:Htr; [|by apply Hsame].
  destruct (parse_duration _) as [e|pollingTime]; [wp_step; by apply Hsame|]. cbv zeta.
  pose proof (max_used _ _ _ _ _ Hc Htr) as Hmax.
  wp_step. wp_step. apply wp_frame with (v := stores); [apply _|]. cbn [fst snd].
  intros [tearDown|e|p] w2 _ Hw2; [|by apply Hsame; simpl; rewrite Hw2..].
  assert (stores w2 = stores (fst s)) as Hw2s by congruence.
  destruct (retries_over (rtc_MaxRetry trigger) (pts_NoOfRetry (prt_Spec t))) eqn:Hover.
  { wp_step. injection Hw2s as HT2 HQ2. eapply (wp_hand_over k t V); try done;
      [simpl; by rewrite HQ2|simpl; by rewrite HT2|simpl; by rewrite Hs|].
    intros [[]|e|p] s' Hh; [wp_step|..]; by apply HQ. }
  wp_step. wp_step. apply wp_frame with (v := stores); [apply _|]. cbn [fst snd].
  intros [sources|e|p] w3 _ Hw3; [|by apply Hsame; simpl; congruence..].
  assert (forall s' : W * PullRequestTrigger, keeping s' = keeping s ->
    kview PullRequestTrigger (fst s') = V /\ kview PullRequestQueue (fst s') = kview PullRequestQueue (fst s) /\
    essence (snd s') = essence t) as Hkept.
  { intros s' [= HT' HQ' H1 H2 H3 H4 H5]. rewrite HT', HQ', HV. split_and!; [done..|]. unfold essence. congruence. }
  wp_step. apply wp_frame with (v := keeping); [apply _|]. intros r s4 _ Hs4.
  assert (keeping s4 = keeping s) as Hk4 by (rewrite Hs4; unfold keeping; simpl; congruence).
  assert (forall r s', keeping s' = keeping s -> Q r s') as Hsame2.
  { intros r' s' Hs'. apply HQ. left. by apply Hkept. }
  destruct r as [[]|e|p]; [| |by apply Hsame2..].
  { destruct (Hkept _ Hk4) as (HT4 & HQ4 & He4). wp_step. wp_step. wp_step.
    eapply wp_store_trigger; [done|by left|]. intros [[]|e|p] s' Hh; [wp_step|..]; by apply HQ. }
  wp_step. apply wp_frame with (v := keeping); [apply _|]. intros r s5 _ Hs5.
  assert (keeping s5 = keeping s) as Hk5 by congruence. destruct (Hkept _ Hk5) as (HT5 & HQ5 & He5).
  destruct r as [[err|comps]|e|p]; [| |by apply Hsame2..].
  - wp_step. eapply wp_note_failure; [done..|]. intros [[]|e|p] s' Hh; [wp_step|..]; by apply HQ.
  - unfold set_trigger_status. wp_step. wp_step. wp_step.
    eapply (wp_hand_over k t V); try done; [simpl; by rewrite HQ5|].
    intros [[]|e|p] s' Hh; [wp_step|..]; by apply HQ.
Qed.

(** The number of tries is within the limit, when there is one. *)
Definition within_retries t : Prop :=
  match pts_NoOfRetry (prt_Spec t) with Some n => 0 <= n <= maxRetry | None => True end.

(** C14: no pull request is lost, and none is tried for ever.  However a reconciliation of a
    stored trigger ends, either the trigger is still stored, it is about the same pull
    request and has not been tried more often than the configuration allows, or its pull
    request is in the queue, with the commit of the trigger as the next one.  The other
    triggers are as they were. *)
Theorem trigger_not_lost req w r w' t :
  0 <= maxRetry < 2 ^ 31 -> qns <> "" -> fst req = qns -> can_add (kview PullRequestQueue w) ->
  kview PullRequestTrigger w !! req = Some t -> ~ is_gone (prt_Meta t) -> within_retries t ->
  Reconcile c req w = (r, w') ->
  (queued t (kview PullRequestQueue w') \/
   exists t', kview PullRequestTrigger w' !! req = Some t' /\ within_retries t' /\
     (essence t' = essence t \/ tried_again t t')) /\
  forall k, k <> req -> kview PullRequestTrigger w' !! k = kview PullRequestTrigger w !! k.
Proof.
  intros Hmax Hns Hreq Hadd Ht Hgone Hwithin Heq. set (V := kview PullRequestTrigger w) in *.
  assert (kkey t = req) as Hkey by (eapply (k_view_keyed w); exact Ht).
  assert (handled req t V (kview PullRequestTrigger w') (kview PullRequestQueue w')) as Hh.
  { enough (wp (Reconcile c req) w (fun _ w' =>
      handled req t V (kview PullRequestTrigger w') (kview PullRequestQueue w'))) as Hwp
      by exact (wp_run _ _ _ _ _ Hwp Heq).
    unfold Reconcile. wp_step. apply wp_frame with (v := stores); [apply _|].
    intros [now|e|p] w1 _ [= HT1 HQ1]; [|left; by rewrite HT1..]. wp_step. wp_step.
    apply run_wp. intros r2 w2 Hget. pose proof (k_get_law (T:=PullRequestTrigger) req w1) as Hl.
    pose proof (k_get_frame (T:=PullRequestTrigger) (v:=kview PullRequestQueue) req w1) as Hf.
    rewrite Hget in Hl, Hf. simpl in Hf.
    destruct r2 as [t2|e|p]; [|destruct (IsNotFound e); wp_step; left; destruct Hl as [_ ->]; by rewrite HT1|done].
    destruct Hl as [Hl HT2]. rewrite HT1 in Hl. change (V !! req = Some t2) in Hl. rewrite Ht in Hl.
    injection Hl as <-. wp_step. apply wp_with_obj. rewrite Hreq.
    apply (wp_reconcile_trigger req t V); [done|simpl; by rewrite Hf, HQ1|simpl; by rewrite HT2, HT1|done|done|].
    intros [res|e|p] s' Hs'; simpl; [wp_step|..]; done. }
  destruct Hh as [->|[(t' & He & ->)|[Hq Hother]]].
  - split; [|done]. right. exists t. by split_and!; [..|left].
  - assert (kkey t' = req /\ prt_Meta t' = prt_Meta t) as [Hk' Hm'].
    { destruct He as [He|[_ He]]; split; (rewrite (essence_key _ _ He) || idtac); try done; by injection He. }
    split.
    2: { intros k Hk. apply store_update_other. congruence. }
    right. exists t'. unfold store_update. rewrite decide_False by (unfold kmeta, prt_object; by rewrite Hm').
    rewrite Hk', lookup_insert_eq. split_and!; [done| |done].
    unfold within_retries in *. destruct He as [He|[Hno He]]; injection He as _ _ _ _ ->; [done|].
    unfold retries_over in Hno. destruct (pts_NoOfRetry (prt_Spec t)) as [n|]; [|lia].
    rewrite int_add_id by (unfold in64; lia). lia.
  - split; [by left|done].
Qed.
End handling.

(** When several images are missing, the trigger only keeps the last one. *)
Lemma only_last_missing_kept missing answers comps e missing' :
  gather missing answers = (comps, Some e, missing') ->
  exists source, (source, inl e) ∈ answers /\
    missing' = [mkImage (ri_Repository (image_of source)) (ri_Tag (image_of source))].
Proof.
  revert comps e missing'. induction answers as [|[source r] answers IH] using rev_ind; intros comps e missing'; [done|].
  unfold gather. rewrite foldl_app. cbn [foldl]. fold (gather missing answers).
  destruct (gather missing answers) as [[comps0 err0] missing0]. destruct r as [err|version]; simpl; intros Heq.
  - injection Heq as _ He Hm. subst. exists source. split; [|done]. apply elem_of_app. right. by left.
  - injection Heq as _ He Hm. subst. destruct (IH comps0 e missing' eq_refl) as (source' & Hin & Heq).
    exists source'. split; [|done]. apply elem_of_app. by left.
Qed.

(** ** Concrete runs *)

#[export] Instance qsim_trigger_frame : PrtFrame PrqSim stores.
Proof.
  split; try (by apply sim_runtime_frame); try done; intros r w; simpl; repeat case_match; done.
Qed.
#[export] Instance qsim_trigger_runtime : RuntimeFrame PrqSim (kview PullRequestTrigger).
Proof. by apply sim_runtime_frame. Qed.
#[export] Instance qsim_queue_trigger : KFrame PrqSim PullRequestQueue (kview PullRequestTrigger).
Proof. by apply mem_frame. Qed.
#[export] Instance qsim_trigger_queue : KFrame PrqSim PullRequestTrigger (kview PullRequestQueue).
Proof. by apply mem_frame. Qed.

Definition sim_trigger_controller : trigger_controller := mkTriggerController "teamtest" sim_controller.
Definition redis_source : RpcComponentSource :=
  mkRpcComponentSource "redis" "public-registry" "1.*" (Some (mkRpcImage "bitnami/redis" "1.0")).
Definition nginx_source : RpcComponentSource :=
  mkRpcComponentSource "nginx" "public-registry" "2.*" (Some (mkRpcImage "nginx" "2.0")).
(** A trigger that names a component by its tag only. *)
Definition sim_trigger : PullRequestTrigger :=
  mkPullRequestTrigger (namedMeta "s2h-teamtest" "b-1")
    (mkPullRequestTriggerSpec "b" "1" "c1" [mkPullRequestTriggerComponent "redis" (Some (mkImage "" "1.0.3")) "" ""]
       None None "" None None) zeroPrtStatus.
(** One retry is allowed, and the registry knows some repositories. *)
Definition sim_trigger_world (sources : list RpcComponentSource) (registry : gmap string string) : PrqSim :=
  (sim_pr_world 0 1 1 []) <| qs_triggers := {[ b1 := sim_trigger ]} |> <| qs_sources := sources |>
    <| qs_registry := registry |>.
(** Reconcile, and again when the polling time is over. *)
Fixpoint trigger_rounds (n : nat) (w : PrqSim) : PrqSim :=
  match n with
  | O => w
  | S n => trigger_rounds n ((snd (Reconcile sim_trigger_controller b1 w))
             <| qs_clock ::= fun t => t + 48 * Hour |>)
  end.
Definition trigger_view (w : PrqSim) :=
  ((fun t => (pts_NoOfRetry (prt_Spec t), trigger_result_string (ptst_Result (prt_Status t)),
              img_Repository <$> ptst_ImageMissingList (prt_Status t))) <$> qs_triggers w !! b1,
   (fun q => (ps_IsPRTriggerFailed (prq_Spec q),
              (fun c => (qc_Name c, qc_Version c)) <$> ps_UpcomingComponents (prq_Spec q),
              img_Repository <$> ps_ImageMissingList (prq_Spec q))) <$> qs_prqs w !! b1).

(** Both images are there: the pull request is in the queue after the third call. *)
Example trigger_succeeds :
  trigger_view (trigger_rounds 2 (sim_trigger_world [redis_source; nginx_source]
    {["bitnami/redis" := "1.0.3"; "nginx" := "2.7"]}))
  = (None, Some (Some false, [("redis", "1.0.3"); ("nginx", "2.7")], [])).
Proof. by vm_compute. Qed.

(** None is there: one retry later the pull request is in the queue as a failure, with the
    second of its missing images only. *)
Example trigger_fails :
  map (fun n => trigger_view (trigger_rounds n (sim_trigger_world [redis_source; nginx_source] ∅))) [2; 3; 4]%nat
  = [(Some (Some 0, "Failure", ["nginx"]), None); (Some (Some 1, "Failure", ["nginx"]), None);
     (None, Some (Some true, [], ["nginx"]))].
Proof. by vm_compute. Qed.

(** ** Witnesses *)

Lemma fetch_components_sequential_witness :
  let w := sim_trigger_world [redis_source; nginx_source] {["bitnami/redis" := "1.0.3"]} in
  fst (fetch_components [redis_source; nginx_source] [] w) =
    Ok (Some ([mkQueueComponent "redis" "bitnami/redis" "1.0.3"], Some ErrImageVersionNotFound,
              [mkImage "nginx" "2.0"])) /\
  fetched_well (W:=PrqSim) [redis_source; nginx_source] []
    (fst (fetch_components [redis_source; nginx_source] [] w)).
Proof.
  intros w. split; [by vm_compute|].
  exact (fetch_components_sequential [redis_source; nginx_source] [] w).
Defined.

Lemma full_sources : Forall full_source [redis_source; nginx_source].
Proof. repeat constructor; eexists; by split_and!. Qed.

Lemma fillEmptyData_settles_witness :
  let w := sim_trigger_world [] ∅ in
  let s := snd (fillEmptyData [redis_source; nginx_source] (w, sim_trigger)) in
  map pt_ComponentName (pts_Components (prt_Spec (snd s))) = ["redis"; "nginx"] /\
  forall w2 : PrqSim, fillEmptyData [redis_source; nginx_source] (w2, snd s) = (Ok false, (snd (rt_now w2), snd s)).
Proof.
  intros w s. split; [by vm_compute|].
  assert (fst (fillEmptyData [redis_source; nginx_source] (w, sim_trigger)) = Ok true) as Hok by by vm_compute.
  exact (proj2 (proj2 (proj2 (fillEmptyData_settles [redis_source; nginx_source] w sim_trigger
    true (fst s) (snd s) full_sources (eq_trans (ok_run _ _ _ Hok) (f_equal (pair (Ok true)) (surjective_pairing _))))))).
Defined.

Lemma fillEmptyData_never_settles_witness :
  let source := redis_source <| csr_Pattern := "" |> in
  let w := sim_trigger_world [] ∅ in
  let s := snd (fillEmptyData [source] (w, sim_trigger)) in
  getSameComponentInCompSources [source] (mkPullRequestTriggerComponent "redis" (Some (mkImage "" "1.0.3")) "" "")
    = Some source /\
  fst (fillEmptyData [source] (w, sim_trigger)) = Ok true /\
  exists comp', comp' ∈ pts_Components (prt_Spec (snd s)) /\ pt_Pattern comp' = "" /\
    pt_ComponentName comp' = "redis".
Proof.
  intros source w s. split; [by vm_compute|].
  assert (fst (fillEmptyData [source] (w, sim_trigger)) = Ok true) as Hok by by vm_compute.
  split; [exact Hok|].
  refine (proj2 (fillEmptyData_never_settles source [source]
    (mkPullRequestTriggerComponent "redis" (Some (mkImage "" "1.0.3")) "" "") w sim_trigger (Ok true)
    (fst s) (snd s) eq_refl eq_refl _ eq_refl
    (eq_trans (ok_run _ _ _ Hok) (f_equal (pair (Ok true)) (surjective_pairing _))))).
  left.
Defined.

Lemma trigger_not_lost_witness :
  let w := trigger_rounds 2 (sim_trigger_world [redis_source; nginx_source] ∅) in
  let w' := snd (Reconcile sim_trigger_controller b1 w) in
  match qs_triggers w !! b1, qs_triggers w' !! b1 with
  | Some t, Some t' =>
      pts_NoOfRetry (prt_Spec t) = Some 0 /\ pts_NoOfRetry (prt_Spec t') = Some 1 /\
      (queued sim_trigger_controller t (kview PullRequestQueue w') \/
       exists t', kview PullRequestTrigger w' !! b1 = Some t' /\ within_retries 2 t' /\
         (essence t' = essence t \/ tried_again 2 t t'))
  | _, _ => False
  end.
Proof.
  intros w w'.
  assert ((fun t => pts_NoOfRetry (prt_Spec t)) <$> qs_triggers w !! b1 = Some (Some 0)) as Hw by by vm_compute.
  assert ((fun t => pts_NoOfRetry (prt_Spec t)) <$> qs_triggers w' !! b1 = Some (Some 1)) as Hw' by by vm_compute.
  assert (qs_prqs w = ∅) as Hqs by by vm_compute.
  assert ((fun t => (om_DeletionTimestamp (prt_Meta t))) <$> qs_triggers w !! b1 = Some None) as Hdel by by vm_compute.
  assert (kview PullRequestTrigger w !! b1 = qs_triggers w !! b1) as Hv by by vm_compute.
  destruct (qs_triggers w !! b1) as [t|]; [|discriminate Hw].
  destruct (qs_triggers w' !! b1) as [t'|]; [|discriminate Hw'].
  injection Hw as Hw. injection Hw' as Hw'. injection Hdel as Hdel.
  split; [exact Hw|]. split; [exact Hw'|].
  refine (proj1 (trigger_not_lost sim_trigger_controller 2 _ b1 w (fst (Reconcile sim_trigger_controller b1 w)) w' t
    _ _ eq_refl _ Hv _ _ (surjective_pairing _))).
  - intros r w0 config trigger w1 Hc. exact (proj2 (proj2 (proj2 (qsim_config _ _ _ _ Hc))) trigger).
  - lia.
  - intros Hn. discriminate Hn.
  - split.
    + intros k q [Hk _]%well_filed_lookup. change (qs_prqs w !! k = Some q) in Hk.
      rewrite Hqs, lookup_empty in Hk. discriminate Hk.
    + assert (size (kview PullRequestQueue w) = 0%nat) as Hsz by by vm_compute. rewrite Hsz. lia.
  - intros [Hd _]. exact (Hd Hdel).
  - unfold within_retries. rewrite Hw. lia.
Defined.
