(* ===== verification/ConfigCtrl.v ===== *)
(** Model of [internal/config/controller.go]: the controller of configurations.  It answers
    the questions of the other controllers about a team's configuration, keeps the used
    configuration up to date with its template, and removes from the staging namespace what
    the configuration does not name any more.  It is the component behind the interface
    [ConfigController]. *)

From S2P Require Import Prelude.
From S2P Require Import GoRuntime.
From S2P Require Import Errors.
From S2P Require Import KubeApi.
From S2P Require Import ConfigTypes.
From S2P Require Import ComponentTypes.
From S2P Require Import QueueTypes.
From S2P Require Import Values.
From S2P Require Import TeamTypes.
From S2P Require Import AtpTypes.
From S2P Require Import QueueCtrl.
From S2P Require Import Interfaces.
From Stdlib Require Import Ascii.
Open Scope string_scope.
Open Scope list_scope.
Open Scope Z_scope.

Definition webhookAPI : string := "webhook/component".
Definition successfulJobsHistoryLimit : Z := 0.

(** What the code writes of a [batchv1beta1.CronJob]. *)
Record CronContainer := mkCronContainer {
  cn_Name : string; cn_Image : string; cn_Args : list string; cn_Limits : ResourceList; cn_Requests : ResourceList }.
Record CronJob := mkCronJob {
  cj_Meta : ObjectMeta;
  cj_SuccessfulJobsHistoryLimit : option Z;
  cj_Schedule : string;
  cj_ConcurrencyPolicy : string;
  cj_TemplateLabels : gmap string string;
  cj_Containers : list CronContainer;
  cj_RestartPolicy : string;
}.
#[export] Instance eta_CronJob : Eta CronJob := fun x =>
  mkCronJob (cj_Meta x) (cj_SuccessfulJobsHistoryLimit x) (cj_Schedule x) (cj_ConcurrencyPolicy x)
    (cj_TemplateLabels x) (cj_Containers x) (cj_RestartPolicy x).
#[export] Instance cronjob_object : KObject CronJob := cj_Meta.
#[export] Instance cronjob_mark : KMark CronJob := fun t x => x <| cj_Meta ::= mark_deleted t |>.
#[export] Instance cronjob_mark_laws : KMarkLaws CronJob.
Proof. intros t x. apply (mark_deleted_key t (cj_Meta x)). Qed.

(** The libraries behind the controller: merging, the hash of the used configuration, HTTP,
    YAML and the text templates. *)
Class ConfigOutside (W : Type) := {
  (** [mergo.Merge(&dst, src)] where [dst] is a copy of a value that shares its pointers:
      the copy and the value afterwards. *)
  co_Merge : ConfigSpec -> ConfigSpec -> error + (ConfigSpec * ConfigSpec);
  co_ConfigHash : ConfigSpec -> string;
  co_http_Get : string -> M W string;
  co_Unmarshal : string -> error + ComponentValues;
  co_teamNameRendering : string -> string -> string;
}.

(** ** Pure parts *)

(** [conf.Convert]. *)
Definition Convert (dependency : Dependency) (parent : Component) : Component :=
  mkComponent (cp_Name parent) (dep_Name dependency) (mkComponentChart "" "" "") (dep_Image dependency) []
    (dep_Source dependency) (dep_Schedules dependency) [].

Definition set_parent (name : string) (d : Dependency) : Dependency :=
  mkDependency name (dep_Name d) (dep_Chart d) (dep_Image d) (dep_Values d) (dep_Source d) (dep_Schedules d).
Definition assignParent (comps : list Component) : list Component :=
  map (fun comp => mkComponent (cp_Parent comp) (cp_Name comp) (cp_Chart comp) (cp_Image comp) (cp_Values comp)
    (cp_Source comp) (cp_Schedules comp) (map (set_parent (cp_Name comp)) (cp_Dependencies comp))) comps.

(** The loop of [GetComponents]: the first component is taken from the list, its
    dependencies are put at the end of it; [None] when the fuel runs out. *)
Fixpoint collect_components (fuel : nat) (comps : list Component) (filteredComps : gmap string Component)
    : option (gmap string Component) :=
  match fuel, comps with
  | _, [] => Some filteredComps
  | O, _ => None
  | S fuel, comp :: comps =>
      let comps := comps ++ map (fun dep => Convert dep comp) (cp_Dependencies comp) in
      match filteredComps !! cp_Name comp with
      | Some _ => collect_components fuel comps filteredComps
      | None => collect_components fuel comps (<[cp_Name comp := comp]> filteredComps)
      end
  end.

(** Every component and every dependency takes one turn. *)
Definition collect_fuel (comps : list Component) : nat :=
  (length comps + list_sum (map (fun comp => length (cp_Dependencies comp)) comps))%nat.

(** The entries that the bundle [prBundleName] has for one component. *)
Definition pull_request_component (prBundles : list PullRequestBundle) (prBundleName : string) (depIncluded : bool)
    (filteredPRComps : gmap string Component) (entry : string * Component) : gmap string Component :=
  let (compName, comp) := entry in
  match list_find (fun prBundle => prb_Name prBundle = prBundleName) prBundles with
  | None => filteredPRComps
  | Some (_, prBundle) =>
      let filteredPRComps := fold_left (fun m prComp =>
        if String.eqb (prc_Name prComp) compName
        then <[compName := mkComponent (cp_Parent comp) (prc_Name prComp) (cp_Chart comp) (prc_Image prComp) []
                             (prc_Source prComp) [] []]> m
        else m) (prb_Components prBundle) filteredPRComps in
      if depIncluded then
        fold_left (fun m prDepCompName => if String.eqb prDepCompName compName then <[compName := comp]> m else m)
          (prb_Dependencies prBundle) filteredPRComps
      else filteredPRComps
  end.

(** [strings.Replace(s, old, new, -1)] of one character. *)
Fixpoint replace_char (old : Ascii.ascii) (new s : string) : string :=
  match s with
  | EmptyString => EmptyString
  | String c s => if Ascii.eqb c old then new +:+ replace_char old new s else String c (replace_char old new s)
  end.
Definition getCronJobSuffix (schedule : string) : string :=
  replace_char ","%char "n" (replace_char "/"%char "e" (replace_char "*"%char "" (replace_char " "%char "x" schedule))).

Definition newline : string := String "010"%char EmptyString.
Definition quote : string := String "034"%char EmptyString.
Definition quoted (s : string) : string := quote +:+ s +:+ quote.

Definition ValidateConfigRequiredField (config : Config) : error + unit :=
  let used := cst_Used (config_Status config) in
  if (length (cf_Components used) =? 0)%nat || match cf_Staging used with None => true | Some _ => false end
  then inl ErrConfigurationRequiredField else inr tt.

Definition set_used (used : ConfigSpec) (config : Config) : Config :=
  config <| config_Status ::= fun s => s <| cst_Used := used |> |>.

Section controller.
Context {W : Type} `{GR : GoRuntime W} `{CO : ConfigOutside W} `{SC : SamsahaiController W}.
Context `{KConfig : KClient W Config} `{KDesired : KClient W DesiredComponent} `{KTeam : KClient W Team}
  `{KQueue : KClient W Queue} `{KStable : KClient W StableComponent} `{KCron : KClient W CronJob}
  {KObjs : forall k, KClient W (KubeObj k)}.
(** The configuration of Samsahai; the staging side runs without a team controller. *)
Context (s2hConfig : SamsahaiConfig) (has_s2h : bool).

(** ** Questions *)

Definition getConfig (configName : string) : M W Config := k_get Config ("", configName).

Definition GetComponents (configName : string) : M W (gmap string Component) :=
  do config <- getConfig configName;
  let comps := assignParent (cf_Components (cst_Used (config_Status config))) in
  mret (default ∅ (collect_components (collect_fuel comps) comps ∅)).

Definition GetParentComponents (configName : string) : M W (gmap string Component) :=
  do filteredComps <- GetComponents configName;
  mret (filter (fun p => cp_Parent p.2 = "") filteredComps).

Definition GetPullRequestComponents (configName prBundleName : string) (depIncluded : bool)
    : M W (gmap string Component) :=
  do config <- getConfig configName;
  match cf_PullRequest (cst_Used (config_Status config)) with
  | None => mret ∅
  | Some pr =>
      match cpr_BundleSlice pr with
      | None => mret ∅
      | Some prBundles =>
      do filteredComps <- GetComponents configName;
      do entries <- range_map filteredComps;
      mret (fold_left (pull_request_component prBundles prBundleName depIncluded) entries ∅)
      end
  end.

Definition GetBundles (configName : string) : M W ConfigBundles :=
  do config <- getConfig configName; mret (cf_Bundles (cst_Used (config_Status config))).
Definition GetPriorityQueues (configName : string) : M W (list string) :=
  do config <- getConfig configName; mret (cf_PriorityQueues (cst_Used (config_Status config))).
Definition GetStagingConfig (configName : string) : M W (option ConfigStaging) :=
  do config <- getConfig configName;
  mret (Some (default (mkConfigStaging None 0 0) (cf_Staging (cst_Used (config_Status config))))).
Definition GetPullRequestConfig (configName : string) : M W (option ConfigPullRequest) :=
  do config <- getConfig configName;
  mret (Some (default (mkConfigPullRequest 0 (mkPullRequestTriggerConfig 0 None) None 0
    (mkPullRequestExtraConfig None None None)) (cf_PullRequest (cst_Used (config_Status config))))).

Definition GetPullRequestBundleDependencies (configName prBundleName : string) : M W (list string) :=
  do config <- getConfig configName;
  mret (match cf_PullRequest (cst_Used (config_Status config)) with
        | Some pr =>
            match list_find (fun prBundle => prb_Name prBundle = prBundleName) (cpr_Bundles pr) with
            | Some (_, prBundle) => prb_Dependencies prBundle
            | None => []
            end
        | None => []
        end).

(** [Update] and [Delete]. *)
Definition UpdateConfig (config : Config) : M W unit := k_update config.
Definition DeleteConfig (configName : string) : M W unit :=
  do r <- attempt (getConfig configName);
  match r with
  | inl err => if IsNotFound err then mret tt else throw err
  | inr config => k_delete config
  end.

(** ** Values of an environment *)

Definition env_urls (envs : list (EnvType * ChartValuesURLs)) (envType : EnvType) : option ChartValuesURLs :=
  (fun p => p.2.2) <$> list_find (fun p => p.1 = envType) envs.

Definition GetEnvComponentValues (config : ConfigSpec) (compName teamName : string) (envType : EnvType)
    : M W ComponentValues :=
  match env_urls (cf_Envs config) envType with
  | None => mret []
  | Some chartValuesURLs =>
      match chartValuesURLs !! compName with
      | None => mret []
      | Some urls =>
          do r <- for_range urls ([] : ComponentValues) (fun url baseValues =>
            do valuesBytes <- wrapping ("cannot get values file of " +:+ env_string envType +:+ " env from url " +:+ url)
              (co_http_Get url);
            match co_Unmarshal (W:=W) (co_teamNameRendering (W:=W) teamName valuesBytes) with
            | inl err => throw err
            | inr v => mret (Next (R:=unit) (MergeValues baseValues v))
            end);
          match r with inl baseValues => mret baseValues | inr _ => mret [] end
      end
  end.

Definition GetEnvValues (config : ConfigSpec) (envType : EnvType) (teamName : string)
    : M W (gmap string ComponentValues) :=
  match env_urls (cf_Envs config) envType with
  | None => mret ∅
  | Some chartValuesURLs =>
      do charts <- range_map chartValuesURLs;
      do r <- for_range charts (∅ : gmap string ComponentValues) (fun chart out =>
        do values <- GetEnvComponentValues config (fst chart) teamName envType;
        mret (Next (R:=unit) (<[fst chart := values]> out)));
      match r with inl out => mret out | inr _ => mret ∅ end
  end.

(** ** Schedules of the checkers *)

Definition getCronJobCmd (compName teamName imageRepo : string) : string :=
  "set -eux" +:+ newline +:+
  "curl -X POST -k " +:+ s2h_SamsahaiExternalURL s2hConfig +:+ "/" +:+ webhookAPI +:+ " -d '{" +:+
  quoted "component" +:+ ": " +:+ quoted compName +:+ ", " +:+ quoted "team" +:+ ": " +:+ quoted teamName +:+ ", " +:+
  quoted "repository" +:+ ": " +:+ quoted imageRepo +:+ "}'" +:+ newline.

Definition getCronJobLabels (cronJobName teamName compName : string) : gmap string string :=
  <["component" := compName]> (<["cronjob-name" := cronJobName]> (GetDefaultLabels teamName)).

Definition generateCronJob (cronJobName cronJobCmd schedule compName namespace teamName : string) : CronJob :=
  let cronJobLabels := getCronJobLabels cronJobName teamName compName in
  let resources := s2h_CheckerResources s2hConfig in
  mkCronJob ((namedMeta namespace cronJobName) <| om_Labels := cronJobLabels |>)
    (Some successfulJobsHistoryLimit) schedule "Forbid" cronJobLabels
    [mkCronContainer "component-checker" "quay.io/samsahai/curl:latest" ["/bin/sh"; "-c"; cronJobCmd] resources resources]
    "OnFailure".

(** The last argument of the first container of the last job with the schedule decides. *)
Definition job_changed (cronJobCmd : string) (cj : CronJob) (isCronJobChanged : bool) : M W bool :=
  do container <- index (cj_Containers cj) 0;
  mret (fold_left (fun _ arg => negb (string_contains arg cronJobCmd)) (cn_Args container) isCronJobChanged).

Definition getCreatingCronJobs (namespace teamName : string) (comp : Component) (cronJobList : list CronJob)
    : M W (list CronJob) :=
  let cronJobCmd := getCronJobCmd (cp_Name comp) teamName (ci_Repository (cp_Image comp)) in
  do r <- for_range (cp_Schedules comp) (∅ : gmap string CronJob) (fun schedule uniqueCreatingCronJobs =>
    do r <- for_range cronJobList true (fun cj isCronJobChanged =>
      if String.eqb schedule (cj_Schedule cj) then
        do changed <- job_changed cronJobCmd cj isCronJobChanged; mret (Next (R:=unit) changed)
      else mret (Next isCronJobChanged));
    match r with
    | inl true =>
        let cronJobName := cp_Name comp +:+ "-checker-" +:+ getCronJobSuffix schedule in
        let cronJob := generateCronJob cronJobName cronJobCmd schedule (cp_Name comp) namespace teamName in
        mret (Next (R:=unit) (match uniqueCreatingCronJobs !! schedule with
                   | Some _ => uniqueCreatingCronJobs
                   | None => <[schedule := cronJob]> uniqueCreatingCronJobs
                   end))
    | _ => mret (Next uniqueCreatingCronJobs)
    end);
  match r with
  | inl uniqueCreatingCronJobs =>
      do entries <- range_map uniqueCreatingCronJobs;
      mret (map snd entries)
  | inr _ => mret []
  end.

Definition getDeletingCronJobs (teamName : string) (comp : Component) (cronJobList : list CronJob)
    : M W (list CronJob) :=
  let cronJobCmd := getCronJobCmd (cp_Name comp) teamName (ci_Repository (cp_Image comp)) in
  do r <- for_range cronJobList ([] : list CronJob) (fun cj deletingCronJobObjs =>
    do r <- for_range (cp_Schedules comp) true (fun schedule isCronJobChanged =>
      if String.eqb schedule (cj_Schedule cj) then
        do changed <- job_changed cronJobCmd cj isCronJobChanged; mret (Next (R:=unit) changed)
      else mret (Next isCronJobChanged));
    match r with
    | inl true => mret (Next (R:=unit) (deletingCronJobObjs ++ [cj]))
    | _ => mret (Next deletingCronJobObjs)
    end);
  match r with inl deletingCronJobObjs => mret deletingCronJobObjs | inr _ => mret [] end.

Definition getUpdatedCronJobs (namespace teamName : string) (comp : Component) (cronJobList : list CronJob)
    : M W (list CronJob * list CronJob) :=
  do creatingCronJobObjs <- getCreatingCronJobs namespace teamName comp cronJobList;
  do deletingCronJobObjs <- getDeletingCronJobs teamName comp cronJobList;
  mret (creatingCronJobObjs, deletingCronJobObjs).

Definition createCronJob (cronJob : CronJob) : M W unit := k_create cronJob.

(** Errors about the jobs are logged. *)
Definition deleteCronJobAndMatchingJobs (cronJob : CronJob) : M W unit :=
  do r <- attempt (k_list (KubeObj JobKind) (mkListOptions (kns cronJob) (om_Labels (cj_Meta cronJob))));
  run for_each (match r with inl _ => [] | inr jobs => jobs end) (fun job => ignore_error (k_delete job));
  k_delete cronJob.

Definition update_schedules (namespace teamName : string) (comp : Component) : M W unit :=
  do cronJobList <- k_list CronJob (mkListOptions namespace {[ "component" := cp_Name comp ]});
  do ' (creating, deleting) <- getUpdatedCronJobs namespace teamName comp cronJobList;
  run for_each deleting (fun obj =>
    do r <- attempt (deleteCronJobAndMatchingJobs obj);
    match r with inl err => if IsNotFound err then mret tt else throw err | inr _ => mret tt end);
  for_each creating (fun obj =>
    do r <- attempt (createCronJob obj);
    match r with inl err => if IsAlreadyExists err then mret tt else throw err | inr _ => mret tt end).

Definition detectSchedulerChanged (comps : gmap string Component) (teamName namespace : string) : M W unit :=
  do entries <- range_map comps;
  for_each entries (fun entry => update_schedules namespace teamName (snd entry)).

(** ** What the configuration does not name any more *)

Definition detectRemovedDesiredComponents (comps : gmap string Component) (namespace : string) : M W unit :=
  do items <- k_list DesiredComponent (InNamespace namespace);
  for_each (reverse items) (fun d => if decide (is_Some (comps !! kname d)) then mret tt else k_delete d).

Definition detectRemovedStableComponents (comps : gmap string Component) (namespace : string) : M W unit :=
  do items <- k_list StableComponent (InNamespace namespace);
  for_each (reverse items) (fun s => if decide (is_Some (comps !! kname s)) then mret tt else k_delete s).

Definition detectRemovedTeamDesiredComponents (comps : gmap string Component) (teamName : string) : M W unit :=
  if negb has_s2h then mret tt else
  do teamComp <- s2h_GetTeam teamName;
  do entries <- range_map (tst_DesiredComponentImageCreatedTime (team_Status teamComp));
  let teamComp := fold_left (fun t td =>
    if decide (is_Some (comps !! fst td)) then t
    else t <| team_Status ::= RemoveDesiredComponentImageCreatedTime (fst td) |>) entries teamComp in
  k_update teamComp.

(** A queue that loses a component starts again. *)
Definition detectRemovedQueues (comps : gmap string Component) (namespace : string) : M W unit :=
  do items <- k_list Queue (InNamespace namespace);
  for_each (reverse items) (fun q =>
    let newComps := filter (fun qComp => is_Some (comps !! qc_Name qComp)) (qs_Components (queue_Spec q)) in
    if (length newComps =? 0)%nat then k_delete q
    else if negb (length newComps =? length (qs_Components (queue_Spec q)))%nat then
      k_update (q <| queue_Spec ::= fun s =>
        s <| qs_Components := newComps |> <| qs_NoOfRetry := 0 |> <| qs_NextProcessAt := None |> |>)
    else mret tt).

Definition ensureStagingQuotaFromDeployEngine (configName namespace : string) : M W unit :=
  run s2h_EnsureStagingResourcesQuota configName namespace false; mret tt.

Definition ensureConfigChanged (teamName namespace : string) : M W unit :=
  do comps <- GetComponents teamName;
  run detectRemovedDesiredComponents comps namespace;
  run detectRemovedTeamDesiredComponents comps teamName;
  run detectRemovedQueues comps namespace;
  run detectRemovedStableComponents comps namespace;
  run detectSchedulerChanged comps teamName namespace;
  ensureStagingQuotaFromDeployEngine teamName namespace.

(** ** The template *)

Definition ConfigHandler (A : Type) : Type := M (W * Config) A.
Definition set_config_cond (cond : ConfigConditionType) (status : ConditionStatus) (message : string)
    : ConfigHandler unit :=
  do t <- onW now; mod_obj (fun c => c <| config_Status ::= ConfigSetCondition t cond status message |>).
Definition config_cond (cond : ConfigConditionType) : ConfigHandler bool :=
  do c <- get_obj; mret (ConfigIsConditionTrue (config_Status c) cond).
Definition update_config : ConfigHandler unit := do c <- get_obj; onW (UpdateConfig c).

(** [applyConfigTemplate]: the used values are those of the configuration, completed by the
    template. *)
Definition applyConfigTemplate (template : Config) : ConfigHandler unit :=
  do c <- get_obj;
  run mod_obj (set_used (config_Spec c));
  match co_Merge (W:=W) (config_Spec c) (config_Spec template) with
  | inl err => throw err
  | inr (used, spec) => mod_obj (fun c => set_used used (c <| config_Spec := spec |>))
  end.

Definition EnsureConfigTemplateChanged : ConfigHandler unit :=
  do config <- get_obj;
  let configTemplate := cf_Template (config_Spec config) in
  run (if negb (String.eqb configTemplate "") && negb (String.eqb configTemplate (kname config)) then
         do templateObj <- onW (getConfig configTemplate);
         applyConfigTemplate templateObj
       else mod_obj (set_used (config_Spec config)));
  do config <- get_obj;
  let hashID := co_ConfigHash (W:=W) (cst_Used (config_Status config)) in
  run mod_obj (fun c => c <| config_Status ::= fun s => s <| cst_SyncTemplate := true |> |>);
  if negb (String.eqb (cst_TemplateUID (config_Status config)) hashID) then
    run mod_obj (fun c => c <| config_Status ::= fun s => s <| cst_TemplateUID := hashID |> <| cst_SyncTemplate := true |> |>);
    set_config_cond ConfigUsedUpdated ConditionFalse "need update config"
  else mret tt.

Definition ensureTriggerChildrenConfig (templateName : string) : M W unit :=
  do items <- k_list Config (InNamespace "");
  for_each items (fun config =>
    if String.eqb (cf_Template (config_Spec config)) templateName
    then UpdateConfig (config <| config_Status ::= fun s => s <| cst_SyncTemplate := false |> |>)
    else mret tt).

(** ** The reconciliation of a configuration *)

Definition reconcile_staging (name : string) : ConfigHandler Result :=
  do teamComp <- onW (s2h_GetTeam name);
  let stagingNs := tn_Staging (tst_Namespace (team_Status teamComp)) in
  if String.eqb stagingNs ""
  then throw (Errors.New ("staging namespace of team " +:+ name +:+ " not found"))
  else
    run onW (ensureConfigChanged name stagingNs);
    mret noResult.

Definition reconcile_used (name : string) : ConfigHandler Result :=
  run EnsureConfigTemplateChanged;
  do updated <- config_cond ConfigUsedUpdated;
  if negb updated then
    run set_config_cond ConfigUsedUpdated ConditionTrue "updated config template successfully";
    run update_config;
    mret noResult
  else
    do c <- get_obj;
    run onW (ensureTriggerChildrenConfig (kname c));
    match ValidateConfigRequiredField c with
    | inl _ =>
        run set_config_cond ConfigRequiredFieldsValidated ConditionFalse "invalid required fields";
        run wrapping "cannot update config conditions when require fields is invalid" update_config;
        mret noResult
    | inr _ =>
        do validated <- config_cond ConfigRequiredFieldsValidated;
        if negb validated then
          run set_config_cond ConfigRequiredFieldsValidated ConditionTrue "validate required fields successfully";
          run wrapping "cannot update config conditions when require fields is valid" update_config;
          mret noResult
        else reconcile_staging name
    end.

(** [Reconcile] of a configuration. *)
Definition ReconcileConfig (req : Request) : M W Result :=
  do r <- attempt (k_get Config req);
  match r with
  | inl err => if IsNotFound err then mret noResult else throw err
  | inr configComp =>
      if negb has_s2h then mret noResult
      else do ' (res, _) <- with_obj configComp (reconcile_used (snd req)); mret res
  end.

(** The interface that the other controllers call, implemented. *)
Definition config_controller : ConfigController W := {|
  cfg_Get := getConfig;
  cfg_GetComponents := GetComponents;
  cfg_GetParentComponents := GetParentComponents;
  cfg_GetPullRequestComponents := GetPullRequestComponents;
  cfg_GetBundles := GetBundles;
  cfg_GetPriorityQueues := GetPriorityQueues;
  cfg_GetStagingConfig := GetStagingConfig;
  cfg_GetPullRequestConfig := GetPullRequestConfig;
  cfg_GetPullRequestBundleDependencies := GetPullRequestBundleDependencies;
  cfg_Update := UpdateConfig;
  cfg_Delete := DeleteConfig;
  cfg_EnsureConfigTemplateChanged := EnsureConfigTemplateChanged;
|}.
End controller.
