(* ===== verification/ConfigSpec.v ===== *)
(** The properties of the configuration controller: the flattening of the components, the
    schedules of the checkers and the removal of what is not configured any more. *)

From S2P Require Import Prelude.
From S2P Require Import GoRuntime.
From S2P Require Import Errors.
From S2P Require Import KubeApi.
From S2P Require Import ConfigTypes.
From S2P Require Import ComponentTypes.
From S2P Require Import QueueTypes.
From S2P Require Import Values.
From S2P Require Import TeamTypes.
From S2P Require Import AtpTypes.
From S2P Require Import QueueCtrl.
From S2P Require Import Interfaces.
From S2P Require Import ConfigCtrl.
Open Scope string_scope.
Open Scope list_scope.
Open Scope Z_scope.

(** ** Components *)

(** The components of a configuration, one level of dependencies after them. *)
Definition dependencies_of (comps : list Component) : list Component :=
  concat (map (fun comp => map (fun dep => Convert dep comp) (cp_Dependencies comp)) comps).
Definition flatten (comps : list Component) : list Component := comps ++ dependencies_of comps.

(** The first component of a name counts. *)
Definition first_named (comps : list Component) : gmap string Component :=
  list_to_map (map (fun comp => (cp_Name comp, comp)) comps).

Definition keep_first (m : gmap string Component) (comp : Component) : gmap string Component :=
  match m !! cp_Name comp with Some _ => m | None => <[cp_Name comp := comp]> m end.

Lemma keep_first_union (l : list Component) m :
  fold_left keep_first l m = m ∪ first_named l.
Proof.
  revert m. induction l as [|c l IH]; intros m; cbn [fold_left]; [unfold first_named; simpl; by rewrite (right_id_L ∅ (∪))|].
  rewrite IH. unfold first_named. simpl. unfold keep_first. apply map_eq. intros k. rewrite !lookup_union.
  destruct (m !! cp_Name c) eqn:Hc.
  - destruct (decide (k = cp_Name c)) as [->|Hne]; [by rewrite Hc, !union_Some_l|].
    by rewrite lookup_insert_ne.
  - destruct (decide (k = cp_Name c)) as [->|Hne]; [by rewrite Hc, !lookup_insert_eq, union_Some_l, (left_id_L None (∪))|].
    by rewrite !lookup_insert_ne.
Qed.

Lemma collect_simple fuel comps m :
  Forall (fun c => cp_Dependencies c = []) comps -> (length comps <= fuel)%nat ->
  collect_components fuel comps m = Some (fold_left keep_first comps m).
Proof.
  revert fuel m. induction comps as [|c comps IH]; intros fuel m Hs Hf; [by destruct fuel|].
  apply Forall_cons in Hs as [Hc Hs]. destruct fuel as [|fuel]; simpl in Hf; [lia|].
  cbn [collect_components fold_left]. rewrite Hc. simpl. rewrite app_nil_r. unfold keep_first at 2.
  destruct (m !! cp_Name c); apply IH; (done || lia).
Qed.

Lemma collect_worklist fuel top simple m :
  Forall (fun c => cp_Dependencies c = []) simple ->
  (length top + length simple + length (dependencies_of top) <= fuel)%nat ->
  collect_components fuel (top ++ simple) m = Some (fold_left keep_first (top ++ simple ++ dependencies_of top) m).
Proof.
  revert fuel simple m. induction top as [|c top IH]; intros fuel simple m Hs Hf.
  - unfold dependencies_of. simpl. rewrite app_nil_r. apply collect_simple; [done|simpl in Hf; lia].
  - destruct fuel as [|fuel]; [simpl in Hf; lia|].
    assert (dependencies_of (c :: top) = map (fun dep => Convert dep c) (cp_Dependencies c) ++ dependencies_of top) as Hdeps
      by done.
    rewrite Hdeps in *. rewrite length_app in Hf. simpl in Hf.
    set (deps := map (fun dep => Convert dep c) (cp_Dependencies c)) in *.
    assert (forall m, collect_components fuel ((top ++ simple) ++ deps) m =
      Some (fold_left keep_first (top ++ simple ++ deps ++ dependencies_of top) m)) as Hgo.
    { intros m'. rewrite <- app_assoc. rewrite (IH fuel (simple ++ deps)); [by rewrite <- !app_assoc| |].
      - apply Forall_app. split; [done|]. unfold deps. clear. induction (cp_Dependencies c); by constructor.
      - rewrite length_app. lia. }
    cbn [collect_components fold_left app]. fold deps. unfold keep_first at 2.
    destruct (m !! cp_Name c); apply Hgo.
Qed.

Lemma length_dependencies comps :
  length (dependencies_of comps) = list_sum (map (fun comp => length (cp_Dependencies comp)) comps).
Proof. unfold dependencies_of. induction comps as [|c comps IH]; simpl; [done|]. by rewrite length_app, length_map, IH. Qed.

Lemma collect_enough comps : collect_components (collect_fuel comps) comps ∅ = Some (first_named (flatten comps)).
Proof.
  rewrite <- (app_nil_r comps) at 2. rewrite collect_worklist; [|constructor|].
  - unfold flatten. simpl. by rewrite keep_first_union, (left_id_L ∅ (∪)).
  - unfold collect_fuel. rewrite length_dependencies. simpl. lia.
Qed.

Lemma assignParent_names comps : map cp_Name (assignParent comps) = map cp_Name comps.
Proof. unfold assignParent. rewrite map_map. by apply map_ext. Qed.

Section components.
Context {W : Type} `{KConfig : KClient W Config}.

(** C38: the components of a configuration.  The loop ends, and its result is the flat list
    (the components in their order, then their dependencies with the parent's name), where
    the first of a name counts: every component and every dependency is there, whether or
    not it has a source (though the comment on [GetComponents] speaks of those "that has
    valid `Source`"), and the parents are exactly those without a parent.  An error of the
    client is the only one. *)
Theorem GetComponents_flattens configName w :
  match getConfig configName w with
  | (Ok config, w1) =>
      let comps := assignParent (cf_Components (cst_Used (config_Status config))) in
      let all := first_named (flatten comps) in
      GetComponents configName w = (Ok all, w1) /\
      (exists parents, GetParentComponents configName w = (Ok parents, w1) /\
         forall name c, parents !! name = Some c <-> all !! name = Some c /\ cp_Parent c = "") /\
      (forall comp, comp ∈ comps -> is_Some (all !! cp_Name comp) /\
         forall dep, dep ∈ cp_Dependencies comp -> is_Some (all !! dep_Name dep))
  | (Err e, w1) => GetComponents configName w = (Err e, w1) /\ GetParentComponents configName w = (Err e, w1)
  | (Panic p, w1) => GetComponents configName w = (Panic p, w1)
  end.
Proof.
  unfold GetParentComponents, GetComponents, mbind, M_bind.
  destruct (getConfig configName w) as [[config|e|p] w1]; [|done..]. cbv zeta.
  set (comps := assignParent _). rewrite collect_enough. simpl. split; [done|]. split.
  - eexists. split; [done|]. intros name c. rewrite map_lookup_filter_Some. done.
  - assert (forall c l, c ∈ l -> is_Some (first_named l !! cp_Name c)) as Hin.
    { intros c l Hc. destruct (first_named l !! cp_Name c) eqn:Hn; [done|]. exfalso.
      apply not_elem_of_list_to_map_2 in Hn. apply Hn. rewrite list_elem_of_fmap.
      exists (cp_Name c, c). split; [done|]. by apply (list_elem_of_fmap_2 (fun c => (cp_Name c, c))). }
    intros comp Hcomp. split; [apply Hin; unfold flatten; set_solver|]. intros dep Hdep.
    apply (Hin (Convert dep comp)). unfold flatten, dependencies_of. apply elem_of_app. right.
    apply list_elem_of_In, in_concat. exists (map (fun dep => Convert dep comp) (cp_Dependencies comp)).
    split; apply list_elem_of_In.
    + by apply (list_elem_of_fmap_2 (fun comp => map (fun dep => Convert dep comp) (cp_Dependencies comp))).
    + by apply (list_elem_of_fmap_2 (fun dep => Convert dep comp)).
Qed.
End components.

(** ** Loops without effects *)

Lemma for_range_pure {S X B R} (f : B -> X -> B) (l : list X) (b : B) (body : X -> B -> M S (turn B R)) s :
  (forall x b, x ∈ l -> body x b s = (Ok (Next (f b x)), s)) ->
  for_range l b body s = (Ok (inl (fold_left f l b)), s).
Proof.
  revert b. induction l as [|x l IH]; intros b Hbody; [done|].
  cbn [for_range fold_left]. unfold mbind, M_bind. rewrite Hbody by (by left). apply IH.
  intros x' b' Hin. apply Hbody. by right.
Qed.

(** ** Schedules of the checkers *)

Section schedules.
Context {W : Type} `{GR : GoRuntime W} `{GL : !GoRuntimeLaws W}.
Context (s2hConfig : SamsahaiConfig) (namespace teamName : string) (comp : Component).

Notation cmd := (getCronJobCmd s2hConfig (cp_Name comp) teamName (ci_Repository (cp_Image comp))).

(** A job has a container with a command. *)
Definition has_command (cj : CronJob) : Prop :=
  match cj_Containers cj with c :: _ => cn_Args c <> [] | [] => False end.
(** The command of a job is the one that it is to have. *)
Definition up_to_date (cj : CronJob) : bool :=
  match cj_Containers cj with
  | c :: _ => match last (cn_Args c) with Some arg => string_contains arg cmd | None => false end
  | [] => false
  end.

Lemma job_changed_value cj b (w : W) :
  has_command cj -> job_changed cmd cj b w = (Ok (negb (up_to_date cj)), w).
Proof.
  unfold has_command, job_changed, up_to_date, mbind, M_bind, index. destruct (cj_Containers cj) as [|c cs]; [done|].
  simpl. intros Hne. destruct (cn_Args c) as [|a l _] eqn:Ha using rev_ind; [done|].
  rewrite fold_left_app, last_snoc. done.
Qed.

(** A job for the schedule [s]. *)
Definition wanted (s : string) : CronJob :=
  generateCronJob s2hConfig (cp_Name comp +:+ "-checker-" +:+ getCronJobSuffix s) cmd s (cp_Name comp) namespace teamName.

Lemma wanted_up_to_date s : has_command (wanted s) /\ up_to_date (wanted s) = true.
Proof. split; [done|]. apply (string_contains_suffix "" cmd). Qed.

(** The last job of the schedule decides; without one there is something to do. *)
Definition outdated (jobs : list CronJob) (schedule : string) : bool :=
  fold_left (fun changed cj => if String.eqb schedule (cj_Schedule cj) then negb (up_to_date cj) else changed) jobs true.

Lemma getCreatingCronJobs_value jobs (w : W) :
  Forall has_command jobs ->
  exists created w', getCreatingCronJobs s2hConfig namespace teamName comp jobs w = (Ok created, w') /\
    NoDup (cj_Schedule <$> created) /\
    (forall cj, cj ∈ created <-> exists s, cj = wanted s /\ s ∈ cp_Schedules comp /\ outdated jobs s = true).
Proof.
  intros Hjobs. unfold getCreatingCronJobs.
  set (add := fun (m : gmap string CronJob) s =>
    if outdated jobs s then match m !! s with Some _ => m | None => <[s := wanted s]> m end else m).
  unfold mbind at 1, M_bind at 1. rewrite (for_range_pure add).
  2: { intros s m _. unfold mbind at 1, M_bind at 1.
       rewrite (for_range_pure (fun changed cj => if String.eqb s (cj_Schedule cj) then negb (up_to_date cj) else changed)).
       - fold (outdated jobs s). unfold add. by destruct (outdated jobs s).
       - intros cj changed Hcj. destruct (String.eqb s (cj_Schedule cj)); [|done].
         unfold mbind, M_bind. rewrite job_changed_value; [done|]. by eapply Forall_forall. }
  assert (forall l m, (forall s cj, m !! s = Some cj -> cj = wanted s) ->
    (forall s cj, fold_left add l m !! s = Some cj -> cj = wanted s) /\
    (forall s, is_Some (fold_left add l m !! s) <-> is_Some (m !! s) \/ s ∈ l /\ outdated jobs s = true)) as Hfold.
  { induction l as [|s l IH]; intros m Hm; cbn [fold_left]; [split; [done|set_solver]|].
    destruct (IH (add m s)) as [H1 H2].
    - intros s' cj. unfold add. destruct (outdated jobs s); [|apply Hm]. destruct (m !! s) eqn:Hs; [apply Hm|].
      intros [[<- <-]|[_ Hs']]%lookup_insert_Some; [done|by apply Hm].
    - split; [done|]. intros s'. rewrite H2. unfold add. rewrite elem_of_cons.
      assert (is_Some ((if outdated jobs s then match m !! s with Some _ => m | None => <[s:=wanted s]> m end else m) !! s')
        <-> is_Some (m !! s') \/ s' = s /\ outdated jobs s = true) as ->; [|clear; set_solver by congruence].
      destruct (outdated jobs s); [|clear; set_solver]. destruct (m !! s) as [x|] eqn:Hs.
      + split; [by left|]. intros [?|[-> _]]; [done|]. by rewrite Hs.
      + rewrite lookup_insert_is_Some. destruct (decide (s = s')) as [->|]; [|clear -n; set_solver].
        split; [by right|by left]. }
  destruct (Hfold (cp_Schedules comp) ∅) as [Hval Hdom]; [done|]. set (U := fold_left add (cp_Schedules comp) ∅) in *.
  unfold range_map. unfold mbind, M_bind. destruct (rt_range U w) as [entries w'] eqn:Hr.
  pose proof (rt_range_perm _ U w) as Hperm. rewrite Hr in Hperm. simpl in Hperm.
  exists (map snd entries), w'. split; [done|].
  assert (forall p, p ∈ entries -> p.2 = wanted p.1 /\ U !! p.1 = Some p.2) as Hent.
  { intros [s cj] Hp. rewrite Hperm, elem_of_map_to_list in Hp. split; [by apply Hval|done]. }
  split.
  - assert (cj_Schedule <$> map snd entries = entries.*1) as ->.
    { rewrite <- list_fmap_compose. apply list_fmap_ext. intros i p Hp. simpl.
      destruct (Hent p) as [-> _]; [by eapply list_elem_of_lookup_2|done]. }
    rewrite Hperm. apply NoDup_fst_map_to_list.
  - intros cj. change (map snd entries) with (entries.*2). rewrite list_elem_of_fmap. split.
    + intros ([s cj'] & -> & Hp). destruct (Hent _ Hp) as [Hw HU]. simpl in *. exists s. split; [done|].
      destruct (proj1 (Hdom s)) as [[]%lookup_empty_is_Some|[]]; eauto.
    + intros (s & -> & Hs & Ho). destruct (proj2 (Hdom s)) as [cj HU]; [by right|].
      pose proof (Hval _ _ HU) as ->. exists (s, wanted s). split; [done|]. by rewrite Hperm, elem_of_map_to_list.
Qed.

Lemma getDeletingCronJobs_value jobs (w : W) :
  Forall has_command jobs ->
  getDeletingCronJobs s2hConfig teamName comp jobs w =
    (Ok (filter (fun cj => negb (bool_decide (cj_Schedule cj ∈ cp_Schedules comp) && up_to_date cj)) jobs), w).
Proof.
  intros Hjobs. unfold getDeletingCronJobs.
  set (stale := fun cj => negb (bool_decide (cj_Schedule cj ∈ cp_Schedules comp) && up_to_date cj)).
  unfold mbind at 1, M_bind at 1. rewrite (for_range_pure (fun l cj => if stale cj then l ++ [cj] else l)).
  - assert (forall l, fold_left (fun l cj => if stale cj then l ++ [cj] else l) jobs l = l ++ filter stale jobs) as Hf.
    { clear Hjobs. induction jobs as [|cj jobs IH]; intros l; cbn [fold_left]; [by rewrite app_nil_r|].
      rewrite IH, filter_cons. destruct (stale cj); simpl; [by rewrite <- app_assoc|done]. }
    lazy beta iota. by rewrite Hf.
  - intros cj l Hcj. assert (has_command cj) as Hc by by eapply Forall_forall.
    unfold mbind at 1, M_bind at 1.
    rewrite (for_range_pure (fun changed s => if String.eqb s (cj_Schedule cj) then negb (up_to_date cj) else changed)).
    + assert (forall ss b, fold_left (fun changed s => if String.eqb s (cj_Schedule cj) then negb (up_to_date cj) else changed) ss b
        = if bool_decide (cj_Schedule cj ∈ ss) then negb (up_to_date cj) else b) as ->.
      { induction ss as [|s ss IH]; intros b; cbn [fold_left]; [done|]. rewrite IH.
        destruct (String.eqb_spec s (cj_Schedule cj)) as [->|Hne].
        - rewrite (bool_decide_true (cj_Schedule cj ∈ _ :: ss)) by left. by case_bool_decide.
        - rewrite (bool_decide_ext (cj_Schedule cj ∈ s :: ss) (cj_Schedule cj ∈ ss)) by set_solver. done. }
      unfold stale. case_bool_decide; simpl; [by destruct (up_to_date cj)|done].
    + intros s changed _. destruct (String.eqb s (cj_Schedule cj)); [|done].
      unfold mbind, M_bind. by rewrite job_changed_value.
Qed.

Lemma outdated_spec jobs s :
  NoDup (cj_Schedule <$> jobs) ->
  outdated jobs s = true <-> forall cj, cj ∈ jobs -> cj_Schedule cj = s -> up_to_date cj = false.
Proof.
  intros Hnd. unfold outdated.
  assert (forall b, fold_left (fun changed cj => if String.eqb s (cj_Schedule cj) then negb (up_to_date cj) else changed) jobs b
    = true <-> (forall cj, cj ∈ jobs -> cj_Schedule cj = s -> up_to_date cj = false) /\ (s ∈ (cj_Schedule <$> jobs) \/ b = true)) as Hf.
  2: { rewrite Hf. naive_solver. }
  revert Hnd. induction jobs as [|cj jobs IH]; intros Hnd b; cbn [fold_left]; [set_solver|].
  rewrite fmap_cons in Hnd. apply NoDup_cons in Hnd as [Hcj Hnd]. rewrite IH by done. rewrite fmap_cons.
  destruct (String.eqb_spec s (cj_Schedule cj)) as [->|Hne].
  - split.
    + intros [H1 [?|Hu]]; [done|]. apply negb_true_iff in Hu. split; [|by left; left].
      intros cj' [->|Hin]%elem_of_cons; [done|by apply H1].
    + intros [H1 _]. split; [intros; apply H1; [by right|done]|]. right. apply negb_true_iff, H1; [by left|done].
  - split.
    + intros [H1 H2]. split; [|destruct H2; [by left; right|by right]].
      intros cj' [->|Hin]%elem_of_cons Hs; [congruence|by apply H1].
    + intros [H1 H2]. split; [intros; apply H1; [by right|done]|].
      destruct H2 as [[->|?]%elem_of_cons|?]; [done|by left|by right].
Qed.

(** The jobs of a component are as the configuration wants them. *)
Definition scheduled (jobs : list CronJob) : Prop :=
  (cj_Schedule <$> jobs) ≡ₚ remove_dups (cp_Schedules comp) /\
  Forall (fun cj => has_command cj /\ up_to_date cj = true) jobs.

Lemma scheduled_nothing_to_do jobs (w : W) :
  scheduled jobs -> exists w', getUpdatedCronJobs s2hConfig namespace teamName comp jobs w = (Ok ([], []), w').
Proof.
  intros [Hs Hjobs]. assert (Forall has_command jobs) as Hc by (eapply Forall_impl; [exact Hjobs|by intros ? []]).
  rewrite Forall_forall in Hjobs.
  destruct (getCreatingCronJobs_value jobs w Hc) as (created & w' & Hcre & _ & Hin).
  exists w'. unfold getUpdatedCronJobs, mbind, M_bind. rewrite Hcre, getDeletingCronJobs_value by done.
  assert (created = []) as ->.
  { destruct created as [|cj l]; [done|]. destruct (proj1 (Hin cj)) as (s & _ & Hsch & Ho); [by left|].
    rewrite outdated_spec in Ho by (rewrite Hs; apply NoDup_remove_dups).
    assert (s ∈ (cj_Schedule <$> jobs)) as (cj' & -> & Hcj')%list_elem_of_fmap by (by rewrite Hs, elem_of_remove_dups).
    destruct (Hjobs cj' Hcj') as [_ Hu]. by rewrite (Ho cj' Hcj' eq_refl) in Hu. }
  rewrite filter_none; [done|]. apply Forall_forall. intros cj Hcj. destruct (Hjobs cj Hcj) as [_ ->].
  rewrite bool_decide_true; [by intros []|]. rewrite <- elem_of_remove_dups, <- Hs. by apply list_elem_of_fmap_2.
Qed.

Lemma filter_partition {A} (f : A -> bool) (l : list A) : l ≡ₚ filter f l ++ filter (fun x => negb (f x)) l.
Proof.
  induction l as [|x l IH]; [done|]. rewrite !filter_cons. destruct (f x); simpl.
  - by rewrite <- IH.
  - rewrite <- Permutation_middle. by rewrite <- IH.
Qed.

(** A job that is wanted and has the right command. *)
Definition good (cj : CronJob) : bool := bool_decide (cj_Schedule cj ∈ cp_Schedules comp) && up_to_date cj.

Lemma good_and_created_scheduled jobs creating :
  Forall has_command jobs -> NoDup (cj_Schedule <$> jobs) -> NoDup (cj_Schedule <$> creating) ->
  (forall cj, cj ∈ creating <-> exists s, cj = wanted s /\ s ∈ cp_Schedules comp /\ outdated jobs s = true) ->
  scheduled (filter good jobs ++ creating).
Proof.
  intros Hjobs Hnd Hcnd Hin. split.
  - apply NoDup_Permutation; [|apply NoDup_remove_dups|].
    + rewrite fmap_app. apply NoDup_app. split_and!; [|intros s Hs1 Hs2|done].
      * clear -Hnd. induction jobs as [|cj jobs IH]; [constructor|]. rewrite fmap_cons in Hnd.
        apply NoDup_cons in Hnd as [Hcj Hnd]. rewrite filter_cons. case_decide; [|by apply IH].
        rewrite fmap_cons. apply NoDup_cons. split; [|by apply IH]. intros (x & Hx & [_ ?]%list_elem_of_filter)%list_elem_of_fmap.
        apply Hcj. rewrite Hx. by apply list_elem_of_fmap_2.
      * apply list_elem_of_fmap in Hs1 as (x & -> & [Hg Hx]%list_elem_of_filter).
        apply list_elem_of_fmap in Hs2 as (y & Hs & Hy). apply Hin in Hy as (s & -> & _ & Ho).
        simpl in Hs. rewrite outdated_spec in Ho by done. unfold good in Hg. specialize (Ho x Hx Hs).
        rewrite Ho, andb_false_r in Hg. done.
    + intros s. rewrite elem_of_remove_dups, fmap_app, elem_of_app. split.
      * intros [(x & -> & [Hg _]%list_elem_of_filter)%list_elem_of_fmap|(y & -> & Hy)%list_elem_of_fmap].
        -- unfold good in Hg. by case_bool_decide.
        -- apply Hin in Hy as (s' & -> & ? & _). done.
      * intros Hs. destruct (outdated jobs s) eqn:Ho.
        -- right. apply list_elem_of_fmap. exists (wanted s). split; [done|]. apply Hin. eauto.
        -- left. assert (exists x, x ∈ jobs /\ cj_Schedule x = s /\ up_to_date x = true) as (x & Hx & <- & Hu).
           { destruct (decide (Exists (fun x => cj_Schedule x = s /\ up_to_date x = true) jobs)) as [He|He].
             - apply Exists_exists in He as (x & ? & ? & ?). eauto.
             - apply not_true_iff_false in Ho. destruct Ho. apply outdated_spec; [done|]. intros x Hx Hxs.
               apply not_true_iff_false. intros Hu. apply He, Exists_exists. eauto. }
           apply list_elem_of_fmap_2, list_elem_of_filter. split; [|done]. unfold good. rewrite Hu. by rewrite bool_decide_true.
  - apply Forall_app. split; apply Forall_forall.
    + intros x [Hg Hx]%list_elem_of_filter. rewrite Forall_forall in Hjobs. split; [by apply Hjobs|].
      unfold good in Hg. by destruct (up_to_date x); [|rewrite andb_false_r in Hg].
    + intros x (s & -> & _)%Hin. apply wanted_up_to_date.
Qed.

(** C39: the schedules of a checker converge.  From the jobs that are there (each with a
    command, no two with the same schedule) [getUpdatedCronJobs] tells which to delete and
    which to create, so that afterwards there is exactly one job for every schedule of the
    component, with the command for its image; and once the jobs are so, there is nothing
    to delete or create any more. *)
Theorem getUpdatedCronJobs_converges jobs (w : W) :
  Forall has_command jobs -> NoDup (cj_Schedule <$> jobs) ->
  exists creating deleting kept w',
    getUpdatedCronJobs s2hConfig namespace teamName comp jobs w = (Ok (creating, deleting), w') /\
    jobs ≡ₚ kept ++ deleting /\ scheduled (kept ++ creating) /\
    (forall jobs' w1, jobs' ≡ₚ kept ++ creating ->
       exists w2, getUpdatedCronJobs s2hConfig namespace teamName comp jobs' w1 = (Ok ([], []), w2)).
Proof.
  intros Hjobs Hnd. destruct (getCreatingCronJobs_value jobs w Hjobs) as (creating & w' & Hcre & Hcnd & Hin).
  exists creating, (filter (fun cj => negb (good cj)) jobs), (filter good jobs), w'.
  pose proof (good_and_created_scheduled jobs creating Hjobs Hnd Hcnd Hin) as Hsched.
  split_and!; [|apply filter_partition|done|].
  - unfold getUpdatedCronJobs, mbind, M_bind. by rewrite Hcre, getDeletingCronJobs_value.
  - intros jobs' w1 Hp. apply scheduled_nothing_to_do. destruct Hsched as [Hs1 Hs2]. split; by rewrite Hp.
Qed.
End schedules.

(** ** What is not configured any more *)

(** Go through the stored objects from the last to the first. *)
Section sweep.
Context {W T : Type} `{KO : KObject T, KMk : KMark T, KC : KClient W T, KV : KView W T} {KL : KClientLaws W T}.
Context (after : T -> option T -> Prop) (body : T -> M W unit) (opts : ListOptions).
Context (body_after : forall x w, kview T w !! kkey x = Some x ->
  wp (body x) w (fun r w' => r = Ok tt ->
    after x (kview T w' !! kkey x) /\ forall k, k <> kkey x -> kview T w' !! k = kview T w !! k)).

(** What becomes of every stored object. *)
Definition swept (V V' : gmap (string * string) T) : Prop :=
  forall k, match V !! k with
            | Some x => if decide (list_matches opts x) then after x (V' !! k) else V' !! k = Some x
            | None => V' !! k = None
            end.

Lemma swept_at V V' k x : swept V V' -> V !! k = Some x -> list_matches opts x -> after x (V' !! k).
Proof. intros Hs Hx Hm. specialize (Hs k). rewrite Hx in Hs. by rewrite decide_True in Hs. Qed.

Lemma wp_sweep_loop (l : list T) (V : gmap (string * string) T) w :
  NoDup (kkey <$> l) -> (forall x, x ∈ l -> kview T w !! kkey x = Some x) ->
  wp (for_each l body) w (fun r w' => r = Ok tt ->
    (forall x, x ∈ l -> after x (kview T w' !! kkey x)) /\
    forall k, k ∉ (kkey <$> l) -> kview T w' !! k = kview T w !! k).
Proof.
  revert w. induction l as [|x l IH]; intros w Hnd Hl; cbn [for_each].
  - wp_step. intros _. split; [by intros x ?%elem_of_nil|done].
  - rewrite fmap_cons in Hnd. apply NoDup_cons in Hnd as [Hx Hnd]. wp_step.
    eapply wp_mono; [apply body_after, Hl; left|]. intros [[]|e|p] w1 H1; [|done..].
    destruct (H1 eq_refl) as [Hafter Hother].
    assert (forall y, y ∈ l -> kkey y <> kkey x) as Hne.
    { intros y Hy Heq. apply Hx. rewrite <- Heq. by apply list_elem_of_fmap_2. }
    eapply wp_mono; [apply (IH w1); [done|]|].
    + intros y Hy. rewrite Hother by auto. apply Hl. by right.
    + intros r w2 H2 ->. destruct (H2 eq_refl) as [Hl2 Hother2]. split.
      * intros y [->|Hy]%elem_of_cons; [|by apply Hl2]. by rewrite Hother2.
      * intros k [Hk1 Hk2]%not_elem_of_cons. rewrite Hother2 by done. by apply Hother.
Qed.

Lemma wp_sweep w :
  wp (do items <- k_list T opts; for_each (reverse items) body) w (fun r w' =>
    r = Ok tt -> swept (kview T w) (kview T w')).
Proof.
  wp_step. apply wp_k_list; [|done]. intros l w1 Hl Hw1.
  assert (forall x, x ∈ l <-> list_matches opts x /\ kview T w !! kkey x = Some x) as Hin.
  { intros x. rewrite Hl, list_elem_of_filter, list_elem_of_fmap. split.
    - intros [Hm ([k y] & -> & Hk%elem_of_map_to_list)]. split; [done|]. simpl. by rewrite (k_view_keyed _ _ _ Hk).
    - intros [Hm Hx]. split; [done|]. exists (kkey x, x). by rewrite elem_of_map_to_list. }
  assert (NoDup (kkey <$> l)) as Hnd.
  { rewrite Hl. eapply (sublist_NoDup _ (kkey <$> (map_to_list (kview T w)).*2)).
    2: { apply fmap_sublist, sublist_filter. }
    rewrite <- list_fmap_compose. rewrite (list_fmap_ext _ fst); [apply NoDup_fst_map_to_list|].
    intros i [k y] Hp%list_elem_of_lookup_2%elem_of_map_to_list. simpl. by apply k_view_keyed in Hp. }
  eapply wp_mono; [apply (wp_sweep_loop (reverse l) (kview T w))|].
  - by rewrite reverse_Permutation.
  - intros x Hx. rewrite Hw1. rewrite elem_of_reverse in Hx. by apply Hin.
  - intros r w2 H2 Hr k. destruct (H2 Hr) as [Hafter Hother]. rewrite Hw1 in Hother.
    destruct (kview T w !! k) as [x|] eqn:Hk.
    + pose proof (k_view_keyed _ _ _ Hk) as Hkey. rewrite <- Hkey in Hk |- *. case_decide.
      * apply Hafter. rewrite elem_of_reverse. by apply Hin.
      * rewrite Hother; [done|]. intros (y & Hy & Hyl)%list_elem_of_fmap. rewrite elem_of_reverse in Hyl.
        apply Hin in Hyl as [Hm Hyk]. rewrite <- Hy, Hk in Hyk. by simplify_eq.
    + rewrite Hother; [done|]. intros (y & -> & Hyl)%list_elem_of_fmap. rewrite elem_of_reverse in Hyl.
      apply Hin in Hyl as [_ Hyk]. congruence.
Qed.
End sweep.

Section removal.
Context {W : Type} `{KDesired : KClient W DesiredComponent} `{KQueue : KClient W Queue} `{KStable : KClient W StableComponent}.
Context `{KVD : KView W DesiredComponent} `{KLD : !KClientLaws W DesiredComponent}.
Context `{KVQ : KView W Queue} `{KLQ : !KClientLaws W Queue}.
Context `{KVS : KView W StableComponent} `{KLS : !KClientLaws W StableComponent}.
Context (comps : gmap string Component) (namespace : string).

(** A deleted object is gone, or marked when a finalizer holds it back. *)
Definition removed {T} `{KMark T} (x : T) (o : option T) : Prop := o = None \/ exists t, o = Some (kmark t x).
Definition named (name : string) : Prop := is_Some (comps !! name).
#[local] Instance named_dec name : Decision (named name).
Proof. unfold named. apply _. Defined.

Definition unless_named {T} `{KObject T, KMark T} (x : T) (o : option T) : Prop :=
  if decide (named (kname x)) then o = Some x else removed x o.
(** A queue keeps the components that are named; it starts again when it loses one. *)
Definition queue_trimmed (q : Queue) (o : option Queue) : Prop :=
  let newComps := filter (fun qComp => is_Some (comps !! qc_Name qComp)) (qs_Components (queue_Spec q)) in
  if decide (newComps = []) then removed q o
  else if decide (newComps = qs_Components (queue_Spec q)) then o = Some q
  else o = Some (q <| queue_Spec ::= fun s =>
         s <| qs_Components := newComps |> <| qs_NoOfRetry := 0 |> <| qs_NextProcessAt := None |> |>).

Lemma wp_delete_removed {T} `{KO : KObject T, KMk : KMark T, KC : KClient W T, KV : KView W T} {KL : KClientLaws W T}
    (x : T) w :
  kview T w !! kkey x = Some x ->
  wp (k_delete x) w (fun r w' => r = Ok tt ->
    removed x (kview T w' !! kkey x) /\ forall k, k <> kkey x -> kview T w' !! k = kview T w !! k).
Proof.
  intros Hx. apply run_wp. intros r w' Heq ->. pose proof (k_delete_law x w) as Hlaw. rewrite Heq in Hlaw.
  destruct Hlaw as (y & Hy & Hgone & Hmark). assert (y = x) as -> by congruence.
  destruct (decide (om_Finalizers (kmeta x) = [])) as [Hf|Hf].
  - rewrite (Hgone Hf). split; [left; apply lookup_delete_eq|]. intros k Hk. by rewrite lookup_delete_ne.
  - destruct (Hmark Hf) as (t & ->). split; [right; exists t; apply lookup_insert_eq|].
    intros k Hk. by rewrite lookup_insert_ne.
Qed.

Lemma wp_unless_named {T} `{KO : KObject T, KMk : KMark T, KC : KClient W T, KV : KView W T} {KL : KClientLaws W T}
    (x : T) w :
  kview T w !! kkey x = Some x ->
  wp (if decide (is_Some (comps !! kname x)) then mret tt else k_delete x) w (fun r w' => r = Ok tt ->
    unless_named x (kview T w' !! kkey x) /\ forall k, k <> kkey x -> kview T w' !! k = kview T w !! k).
Proof.
  intros Hx. unfold unless_named. case_decide as Hn; case_decide as Hn'; try done; [by wp_step|].
  by apply wp_delete_removed.
Qed.

Lemma wp_trim_queue (q : Queue) w :
  kview Queue w !! kkey q = Some q ->
  wp (let newComps := filter (fun qComp => is_Some (comps !! qc_Name qComp)) (qs_Components (queue_Spec q)) in
      if (length newComps =? 0)%nat then k_delete q
      else if negb (length newComps =? length (qs_Components (queue_Spec q)))%nat then
        k_update (q <| queue_Spec ::= fun s =>
          s <| qs_Components := newComps |> <| qs_NoOfRetry := 0 |> <| qs_NextProcessAt := None |> |>)
      else mret tt) w (fun r w' => r = Ok tt ->
    (~ is_gone (queue_Meta q) -> queue_trimmed q (kview Queue w' !! kkey q)) /\
    forall k, k <> kkey q -> kview Queue w' !! k = kview Queue w !! k).
Proof.
  intros Hq. unfold queue_trimmed. cbv zeta.
  set (newComps := filter _ _). destruct (Nat.eqb_spec (length newComps) 0) as [Hz|Hnz].
  - apply length_zero_iff_nil in Hz. eapply wp_mono; [by apply wp_delete_removed|].
    intros r w' H Hr. destruct (H Hr) as [Hrem Hother]. split; [|done]. intros _. by rewrite decide_True.
  - assert (newComps <> []) as Hne by (intros ->; done).
    destruct (Nat.eqb_spec (length newComps) (length (qs_Components (queue_Spec q)))) as [Hl|Hl]; simpl.
    + wp_step. intros _. split; [|done]. intros _. rewrite decide_False by done. rewrite decide_True; [done|]. by apply filter_same_length.
    + assert (newComps <> qs_Components (queue_Spec q)) by (intros Heq; by rewrite Heq in Hl). set (q' := q <| queue_Spec ::= (fun s =>
        s <| qs_Components := newComps |> <| qs_NoOfRetry := 0 |> <| qs_NextProcessAt := None |>) |>).
      apply wp_k_update; [|done]. intros w' _ Hw _. rewrite Hw. split.
      * intros Halive. do 2 rewrite decide_False by done. unfold store_update. rewrite decide_False by done.
        match goal with |- <[?k := _]> _ !! _ = _ => change k with (kkey q) end. apply lookup_insert_eq.
      * intros k Hk. by apply store_update_other.
Qed.

(** what the configuration does not name any more is removed, and nothing else is
    touched.  When the calls succeed, of the objects in the namespace the desired and the
    stable components that are named stay as they are and the others are deleted; a queue
    keeps the components that are named, is deleted when none is left and starts again
    when it has lost one; objects elsewhere stay as they are. *)
Theorem unconfigured_removed w w' :
  (detectRemovedDesiredComponents comps namespace w = (Ok tt, w') ->
     swept unless_named (InNamespace namespace) (kview DesiredComponent w) (kview DesiredComponent w')) /\
  (detectRemovedStableComponents comps namespace w = (Ok tt, w') ->
     swept unless_named (InNamespace namespace) (kview StableComponent w) (kview StableComponent w')) /\
  ((forall k q, kview Queue w !! k = Some q -> ~ is_gone (queue_Meta q)) ->
     detectRemovedQueues comps namespace w = (Ok tt, w') ->
     swept queue_trimmed (InNamespace namespace) (kview Queue w) (kview Queue w')).
Proof.
  split_and!.
  - intros Heq. refine (wp_run _ _ _ _ (fun r w' => r = Ok tt ->
      swept unless_named (InNamespace namespace) (kview DesiredComponent w) (kview DesiredComponent w')) _ Heq eq_refl).
    apply wp_sweep. intros x w1 Hx. by apply wp_unless_named.
  - intros Heq. refine (wp_run _ _ _ _ (fun r w' => r = Ok tt ->
      swept unless_named (InNamespace namespace) (kview StableComponent w) (kview StableComponent w')) _ Heq eq_refl).
    apply wp_sweep. intros x w1 Hx. by apply wp_unless_named.
  - intros Halive Heq. refine (wp_run _ _ _ _ (fun r w' => r = Ok tt ->
      swept queue_trimmed (InNamespace namespace) (kview Queue w) (kview Queue w')) _ Heq eq_refl).
    eapply wp_mono; [apply (wp_sweep (fun q o => ~ is_gone (queue_Meta q) -> queue_trimmed q o))|].
    + intros q w1 Hq. apply wp_trim_queue, Hq.
    + intros r w2 Hs Hr k. specialize (Hs Hr k). destruct (kview Queue w !! k) as [q|] eqn:Hk; [|done].
      case_decide; [|done]. apply Hs. by eapply Halive.
Qed.

End removal.

(** ** Concrete runs *)

(** A cluster with the objects that depend on the configuration. *)
Record ConfigSim := mkConfigSim {
  cs_clock : Z;
  cs_desired : gmap (string * string) DesiredComponent;
  cs_queues : gmap (string * string) Queue;
  cs_stables : gmap (string * string) StableComponent;
}.
#[export] Instance eta_ConfigSim : Eta ConfigSim := fun x =>
  mkConfigSim (cs_clock x) (cs_desired x) (cs_queues x) (cs_stables x).
#[export] Instance csim_clock : HasClock ConfigSim :=
  {| clock_get := cs_clock; clock_set t w := w <| cs_clock := t |> |}.
#[export] Instance csim_desired : HasStore ConfigSim DesiredComponent :=
  {| store_get := cs_desired; store_set m w := w <| cs_desired := m |>; store_get_set _ _ := eq_refl |}.
#[export] Instance csim_queues : HasStore ConfigSim Queue :=
  {| store_get := cs_queues; store_set m w := w <| cs_queues := m |>; store_get_set _ _ := eq_refl |}.
#[export] Instance csim_stables : HasStore ConfigSim StableComponent :=
  {| store_get := cs_stables; store_set m w := w <| cs_stables := m |>; store_get_set _ _ := eq_refl |}.

Definition sim_comp (name repository : string) (schedules : list string) (deps : list Dependency) : Component :=
  mkComponent "" name (mkComponentChart "" "" "") (mkComponentImage repository "" "") [] None schedules deps.

Definition csim_config : SamsahaiConfig :=
  mkSamsahaiConfig "" "" "" "https://samsahai" "" "" "" "" (mkActivePromotionConfig 1 0 0 0 0 None 1 false)
    (mkPullRequestConfig 0 0 0 0 0) None ∅ ∅ ∅ ""
    (mkSamsahaiCredential "" "" "" (mkMSTeamsCredential "" "" "" "" "") "" "" "").

(** The image of the component has moved, and one schedule has been replaced. *)
Lemma getUpdatedCronJobs_converges_witness :
  let old := sim_comp "redis" "old/redis" ["0 1 * * *"; "0 2 * * *"] [] in
  let new := sim_comp "redis" "new/redis" ["0 1 * * *"; "0 3 * * *"; "0 1 * * *"] [] in
  let jobs := map (wanted csim_config "s2h-team" "team" old) (cp_Schedules old) in
  let w := mkConfigSim 0 ∅ ∅ ∅ in
  (exists creating deleting kept w',
    getUpdatedCronJobs csim_config "s2h-team" "team" new jobs w = (Ok (creating, deleting), w') /\
    jobs ≡ₚ kept ++ deleting /\ scheduled csim_config "team" new (kept ++ creating)) /\
  match fst (getUpdatedCronJobs csim_config "s2h-team" "team" new jobs w) with
  | Ok (creating, deleting) => (map cj_Schedule creating, map cj_Schedule deleting)
  | _ => ([], [])
  end = (["0 3 * * *"; "0 1 * * *"], ["0 1 * * *"; "0 2 * * *"]).
Proof.
  intros old new jobs w. split; [|vm_compute; reflexivity].
  destruct (getUpdatedCronJobs_converges csim_config "s2h-team" "team" new jobs w)
    as (creating & deleting & kept & w' & H1 & H2 & H3 & _).
  - repeat constructor; discriminate.
  - apply (bool_decide_unpack _). exact I.
  - exists creating, deleting, kept, w'. exact (conj H1 (conj H2 H3)).
Defined.

Lemma unconfigured_removed_witness :
  let comps := {[ "redis" := sim_comp "redis" "redis" [] [] ]} in
  let desired name := mkDesiredComponent (namedMeta "s2h-team" name) (mkDesiredComponentSpec name "1" "" "")
    (mkDesiredComponentStatus None None) in
  let stable name := mkStableComponent (namedMeta "s2h-team" name) (mkStableComponentSpec name "" "1" "")
    (mkStableComponentStatus None None) in
  let queue := zeroQueue <| queue_Meta := namedMeta "s2h-team" "bundle" |> <| queue_Spec ::= fun s =>
    s <| qs_NoOfRetry := 2 |> <| qs_Components := [mkQueueComponent "redis" "" "1"; mkQueueComponent "db" "" "1"] |> |> in
  let w := mkConfigSim 0 {[ ("s2h-team", "db") := desired "db" ]} {[ ("s2h-team", "bundle") := queue ]}
             {[ ("s2h-team", "redis") := stable "redis" ]} in
  unless_named comps (desired "db")
    (kview DesiredComponent (snd (detectRemovedDesiredComponents comps "s2h-team" w)) !! ("s2h-team", "db")) /\
  unless_named comps (stable "redis")
    (kview StableComponent (snd (detectRemovedStableComponents comps "s2h-team" w)) !! ("s2h-team", "redis")) /\
  queue_trimmed comps queue (kview Queue (snd (detectRemovedQueues comps "s2h-team" w)) !! ("s2h-team", "bundle")).
Proof.
  intros comps desired stable queue w.
  assert (fst (detectRemovedDesiredComponents comps "s2h-team" w) = Ok tt) as H1 by by vm_compute.
  assert (fst (detectRemovedStableComponents comps "s2h-team" w) = Ok tt) as H2 by by vm_compute.
  assert (fst (detectRemovedQueues comps "s2h-team" w) = Ok tt) as H3 by by vm_compute.
  assert (forall k q, kview Queue w !! k = Some q -> ~ is_gone (queue_Meta q)) as Halive.
  { intros k q [Hk _]%well_filed_lookup. simpl in Hk. apply lookup_singleton_Some in Hk as [_ <-]. intros [Hd _]. exact (Hd eq_refl). }
  split_and!.
  - refine (swept_at _ _ _ _ _ _ (proj1 (unconfigured_removed comps "s2h-team" w _) (ok_run _ _ _ H1)) _ _);
      [vm_compute; reflexivity|split; [right; reflexivity|apply map_empty_subseteq]].
  - refine (swept_at _ _ _ _ _ _ (proj1 (proj2 (unconfigured_removed comps "s2h-team" w _)) (ok_run _ _ _ H2)) _ _);
      [vm_compute; reflexivity|split; [right; reflexivity|apply map_empty_subseteq]].
  - refine (swept_at _ _ _ _ _ _ (proj2 (proj2 (unconfigured_removed comps "s2h-team" w _)) Halive (ok_run _ _ _ H3)) _ _);
      [vm_compute; reflexivity|split; [right; reflexivity|apply map_empty_subseteq]].
Defined.
