(* ===== verification/Cleanup.v ===== *)
(** Model of the clean-up of an environment in [internal/staging/controller.go]:
    [WaitForComponentsCleaned] and what it calls. *)

From S2P Require Import Prelude.
From S2P Require Import GoRuntime.
From S2P Require Import Errors.
From S2P Require Import KubeApi.
From S2P Require Import Frame.
From S2P Require Import ConfigTypes.
From S2P Require Import Interfaces.
Open Scope string_scope.
Open Scope list_scope.
Open Scope Z_scope.

Definition DefaultCleanupTimeout : Duration := 15 * Minute.

Section cleanup.
Context {W : Type} `{GR : GoRuntime W}.
Context `{KPod : KClient W (KubeObj PodKind)} `{KSvc : KClient W (KubeObj ServiceKind)}
  `{KPvc : KClient W (KubeObj PVCKind)} `{KDep : KClient W (KubeObj DeploymentKind)}
  `{KSts : KClient W (KubeObj StatefulSetKind)} `{KDms : KClient W (KubeObj DaemonSetKind)}
  `{KJob : KClient W (KubeObj JobKind)}.

Definition IsCleanupTimeout (start : option Z) (timeout : Duration) : M W bool :=
  match start with
  | None => mret false
  | Some start =>
      let timeout := if timeout =? 0 then DefaultCleanupTimeout else timeout in
      do t <- now;
      mret (timeout <? time_sub t start)
  end.

(** The errors of the deletions are logged and dropped; the call itself always ends
    in an error. *)
Definition forceCleanupPod (namespace : string) (selectors : gmap string string) : M W unit :=
  let opts := mkListOptions namespace selectors in
  run ignore_error (k_delete_all_of (KubeObj DeploymentKind) opts);
  run ignore_error (k_delete_all_of (KubeObj StatefulSetKind) opts);
  run ignore_error (k_delete_all_of (KubeObj DaemonSetKind) opts);
  run ignore_error (k_delete_all_of (KubeObj JobKind) opts);
  run ignore_error (k_delete_all_of (KubeObj PodKind) opts);
  throw (Wrap ErrForceDeletingComponents "force cleaning up pods").

Definition forceCleanupService (services : list (KubeObj ServiceKind)) : M W unit :=
  run for_each services (fun service => ignore_error (k_delete service));
  throw (Wrap ErrForceDeletingComponents "force cleaning up services").

(** One component: whether nothing of it is left. *)
Definition component_cleaned (deployEngine : DeployEngine W) (namespace : string)
    (forceClean : bool) (compName : string) : M W bool :=
  let refName := GenReleaseName compName in
  let selectors := de_GetLabelSelectors deployEngine refName in
  let listOpt := mkListOptions namespace selectors in
  run (if forceClean then ignore_error (de_ForceDelete deployEngine refName) else mret tt);
  do pods <- k_list (KubeObj PodKind) listOpt;
  if (0 <? length pods)%nat then
    run (if forceClean then forceCleanupPod namespace selectors else mret tt);
    mret false
  else
    do services <- k_list (KubeObj ServiceKind) listOpt;
    if (0 <? length services)%nat then
      run (if forceClean then forceCleanupService services else mret tt);
      mret false
    else
      do pvcs <- k_list (KubeObj PVCKind) listOpt;
      if (0 <? length pvcs)%nat then
        run ignore_error (k_delete_all_of (KubeObj PVCKind) listOpt);
        mret false
      else mret true.

Definition WaitForComponentsCleaned (deployEngine : DeployEngine W) (parentComps : gmap string Component)
    (namespace : string) (startCleaningTime : option Z) (cleanupTimeout : Duration) : M W bool :=
  if de_IsMocked deployEngine then mret true else
  do forceClean <- IsCleanupTimeout startCleaningTime cleanupTimeout;
  do comps <- range_map parentComps;
  do r <- for_range comps tt (fun comp _ =>
    do cleaned <- component_cleaned deployEngine namespace forceClean (fst comp);
    mret (if cleaned : bool then Next tt else Rtn false));
  match r with
  | inl _ => mret true
  | inr b => mret b
  end.
End cleanup.

(** The clean-up keeps what none of its calls touches. *)
Lemma wait_preserves {W V} `{GR : GoRuntime W} {KO : forall k, KClient W (KubeObj k)} (v : W -> V)
    {RF : RuntimeFrame W v} {KF : forall k, KFrame W (KubeObj k) v} (e : DeployEngine W) comps ns start timeout :
  (forall ref, Preserves (de_ForceDelete e ref) v) ->
  Preserves (WaitForComponentsCleaned e comps ns start timeout) v.
Proof.
  intros Hf. unfold WaitForComponentsCleaned. destruct (de_IsMocked e); [apply _|].
  assert (Preserves (IsCleanupTimeout start timeout) v) by (unfold IsCleanupTimeout; preserves).
  apply bind_preserves; [done|]. intros force. apply bind_preserves; [apply _|]. intros l.
  apply bind_preserves; [|preserves].
  apply for_range_preserves. intros c []. apply bind_preserves; [|preserves].
  unfold component_cleaned, forceCleanupPod, forceCleanupService. preserves.
Qed.

(** ** What the clean-up promises *)

Section promises.
Context {W : Type} `{GR : GoRuntime W} `{GL : !GoRuntimeLaws W}.
Context `{KPod : KClient W (KubeObj PodKind)} `{KSvc : KClient W (KubeObj ServiceKind)}
  `{KPvc : KClient W (KubeObj PVCKind)} `{KDep : KClient W (KubeObj DeploymentKind)}
  `{KSts : KClient W (KubeObj StatefulSetKind)} `{KDms : KClient W (KubeObj DaemonSetKind)}
  `{KJob : KClient W (KubeObj JobKind)}.
Context `{VPod : KView W (KubeObj PodKind)} `{VSvc : KView W (KubeObj ServiceKind)}
  `{VPvc : KView W (KubeObj PVCKind)}.
Context `{LPod : !KClientLaws W (KubeObj PodKind)} `{LSvc : !KClientLaws W (KubeObj ServiceKind)}
  `{LPvc : !KClientLaws W (KubeObj PVCKind)}.
Implicit Types (w : W) (ns : string).

(** The objects that the clean-up waits for. *)
Definition leftovers w :=
  (kview (KubeObj PodKind) w, kview (KubeObj ServiceKind) w, kview (KubeObj PVCKind) w).

(** Reading the clock, a map or a list changes none of them. *)
Context `{RF : !RuntimeFrame W leftovers}.
Context (FPod : forall opts, Preserves (k_list (KubeObj PodKind) opts) leftovers)
  (FSvc : forall opts, Preserves (k_list (KubeObj ServiceKind) opts) leftovers)
  (FPvc : forall opts, Preserves (k_list (KubeObj PVCKind) opts) leftovers).

(** No pod, service or volume claim in the namespace carries the labels. *)
Definition nothing_left ns (selectors : gmap string string) w : Prop :=
  let opts := mkListOptions ns selectors in
  (forall k x, kview (KubeObj PodKind) w !! k = Some x -> ~ list_matches opts x) /\
  (forall k x, kview (KubeObj ServiceKind) w !! k = Some x -> ~ list_matches opts x) /\
  (forall k x, kview (KubeObj PVCKind) w !! k = Some x -> ~ list_matches opts x).

Definition shrinks w w' : Prop :=
  kview (KubeObj PodKind) w' ⊆ kview (KubeObj PodKind) w /\
  kview (KubeObj ServiceKind) w' ⊆ kview (KubeObj ServiceKind) w /\
  kview (KubeObj PVCKind) w' ⊆ kview (KubeObj PVCKind) w.

(** A forced deletion of a release only deletes. *)
Definition only_deletes (deployEngine : DeployEngine W) : Prop :=
  forall refName w, shrinks w (snd (de_ForceDelete deployEngine refName w)).

Lemma shrinks_leftovers w w' : leftovers w' = leftovers w -> shrinks w w'.
Proof. unfold leftovers, shrinks. intros [= -> -> ->]. done. Qed.

Lemma shrinks_trans w1 w2 w3 : shrinks w1 w2 -> shrinks w2 w3 -> shrinks w1 w3.
Proof. unfold shrinks. intros (?&?&?) (?&?&?). split_and!; by etrans. Qed.

Lemma nothing_left_shrinks ns sel w w' : shrinks w w' -> nothing_left ns sel w -> nothing_left ns sel w'.
Proof.
  intros (Hp & Hs & Hv) (Np & Ns & Nv). split_and!; intros k x Hx.
  - eapply Np. by eapply lookup_weaken.
  - eapply Ns. by eapply lookup_weaken.
  - eapply Nv. by eapply lookup_weaken.
Qed.

(** A list that comes back empty: nothing matches. *)
Lemma empty_list_none {T} `{KObject T} (opts : ListOptions) (l : list T) (m : gmap (string * string) T) :
  l ≡ₚ filter (list_matches opts) (map_to_list m).*2 -> (0 <? length l)%nat = false ->
  forall k x, m !! k = Some x -> ~ list_matches opts x.
Proof.
  intros Hp Hlen k x Hx Hm. apply Nat.ltb_ge in Hlen.
  assert (x ∈ l) as Hin.
  { rewrite Hp. apply list_elem_of_filter. split; [done|].
    apply list_elem_of_fmap. exists (k, x). by rewrite elem_of_map_to_list. }
  destruct l; [by apply elem_of_nil in Hin|simpl in Hlen; lia].
Qed.

Lemma wp_list_leftovers {T} `{KObject T, KMark T, KClient W T, KView W T, !KClientLaws W T} (opts : ListOptions) w
    (Q : outcome (list T) -> W -> Prop) :
  Preserves (k_list T opts) leftovers ->
  (forall l w', l ≡ₚ filter (list_matches opts) (map_to_list (kview T w)).*2 ->
     leftovers w' = leftovers w -> kview T w' = kview T w -> Q (Ok l) w') ->
  (forall e w', Q (Err e) w') ->
  wp (k_list T opts) w Q.
Proof.
  intros HF HQ HE. apply (wp_preserve leftovers); [done|].
  apply wp_k_list; [intros l w' Hl Hv Hw; by apply HQ|by intros].
Qed.

Lemma wp_component_cleaned deployEngine ns force name w (Q : outcome bool -> W -> Prop) :
  only_deletes deployEngine ->
  (forall w', shrinks w w' ->
     nothing_left ns (de_GetLabelSelectors deployEngine (GenReleaseName name)) w' ->
     Q (Ok true) w') ->
  (forall r w', r <> Ok true -> Q r w') ->
  wp (component_cleaned deployEngine ns force name) w Q.
Proof.
  intros Hdel HQ HE. unfold component_cleaned. cbv zeta. wp_step.
  apply (wp_mono _ _ (fun r w' => match r with Ok _ => shrinks w w' | _ => True end)).
  { destruct force; [|wp_step; by apply shrinks_leftovers].
    unfold ignore_error. wp_step. wp_step. apply run_wp. intros r w' Heq.
    pose proof (Hdel (GenReleaseName name) w) as Hs. rewrite Heq in Hs.
    destruct r; [by wp_step..|done]. }
  intros [[]|e|p] w1 Hs1; [|by apply HE..].
  set (opts := mkListOptions ns _).
  assert (forall (m : M W unit) w' (P : outcome bool -> W -> Prop), (forall r w', r <> Ok true -> P r w') ->
    wp (run m; mret false) w' P) as Hfalse.
  { intros m w' P HP. wp_step. apply run_wp. intros [[]|e|p] w'' _; [wp_step|..]; by apply HP. }
  wp_step. apply wp_list_leftovers; [apply FPod| |by intros; apply HE].
  intros pods w2 Hpods Hw2 _. destruct (0 <? length pods)%nat eqn:Ep; [by apply Hfalse|].
  wp_step. apply wp_list_leftovers; [apply FSvc| |by intros; apply HE].
  intros svcs w3 Hsvcs Hw3 _. destruct (0 <? length svcs)%nat eqn:Es; [by apply Hfalse|].
  wp_step. apply wp_list_leftovers; [apply FPvc| |by intros; apply HE].
  intros pvcs w4 Hpvcs Hw4 _. destruct (0 <? length pvcs)%nat eqn:Ev; [by apply Hfalse|].
  wp_step. apply HQ.
  - eapply shrinks_trans; [exact Hs1|]. apply shrinks_leftovers. congruence.
  - unfold leftovers in Hw2, Hw3, Hw4. simplify_eq.
    split_and!; [eapply (empty_list_none opts pods)|eapply (empty_list_none opts svcs)
      |eapply (empty_list_none opts pvcs)]; try done; congruence.
Qed.

(** when [WaitForComponentsCleaned] says that the components are cleaned, and the
    engine is not a mock, then no pod, service or volume claim of any of the
    components is left in the namespace at that moment, whatever was forced on the
    way. *)
Theorem cleaned_means_nothing_left deployEngine parentComps ns start timeout w w' :
  de_IsMocked deployEngine = false -> only_deletes deployEngine ->
  WaitForComponentsCleaned deployEngine parentComps ns start timeout w = (Ok true, w') ->
  forall name comp, parentComps !! name = Some comp ->
    nothing_left ns (de_GetLabelSelectors deployEngine (GenReleaseName name)) w'.
Proof.
  intros Hmock Hdel Heq.
  assert (wp (WaitForComponentsCleaned deployEngine parentComps ns start timeout) w
    (fun r w' => r = Ok true -> forall name comp, parentComps !! name = Some comp ->
       nothing_left ns (de_GetLabelSelectors deployEngine (GenReleaseName name)) w')) as Hwp;
    [|by apply (wp_run _ _ _ _ _ Hwp Heq)].
  unfold WaitForComponentsCleaned. rewrite Hmock. wp_step. apply run_wp.
  intros [force|e|p] w1 _; [|done..]. wp_step. apply wp_range_map. intros comps w2 Hr.
  pose proof (rt_range_perm _ parentComps w1) as Hp. rewrite Hr in Hp. simpl in Hp.
  set (left := fun (c : string * Component) =>
    nothing_left ns (de_GetLabelSelectors deployEngine (GenReleaseName (fst c)))).
  wp_step. apply (wp_for_range (fun l _ w' => exists seen, comps = seen ++ l /\
    Forall (fun c => left c w') seen)).
  - by exists [].
  - intros c l [] w3 (seen & -> & Hseen). wp_step.
    apply wp_component_cleaned; [done| |].
    + intros w4 Hs Hl. wp_step. exists (seen ++ [c]). rewrite <- app_assoc. split; [done|].
      apply Forall_app. split; [|apply Forall_singleton; exact Hl].
      eapply Forall_impl; [exact Hseen|]. intros c' Hc'. by eapply nothing_left_shrinks.
    + intros [[]|e|p] w4 Hne; [done| |done..]. wp_step. by wp_step.
  - intros [] w3 (seen & -> & Hseen). wp_step. intros _ name comp Hl.
    rewrite app_nil_r in Hp. rewrite Forall_forall in Hseen. apply (Hseen (name, comp)).
    rewrite Hp. by apply elem_of_map_to_list.
Qed.
End promises.

(** ** Nothing is forced before the timeout *)

Section patience.
Context {W V : Type} `{GR : GoRuntime W}.
Context `{KPod : KClient W (KubeObj PodKind)} `{KSvc : KClient W (KubeObj ServiceKind)}
  `{KPvc : KClient W (KubeObj PVCKind)} `{KDep : KClient W (KubeObj DeploymentKind)}
  `{KSts : KClient W (KubeObj StatefulSetKind)} `{KDms : KClient W (KubeObj DaemonSetKind)}
  `{KJob : KClient W (KubeObj JobKind)}.
(** A reading of the cluster that clock and lists leave alone, and deletions of volume
    claims too. *)
Context (v : W -> V) `{RF : !RuntimeFrame W v}.
Context (FPod : forall opts, Preserves (k_list (KubeObj PodKind) opts) v)
  (FSvc : forall opts, Preserves (k_list (KubeObj ServiceKind) opts) v)
  (FPvc : forall opts, Preserves (k_list (KubeObj PVCKind) opts) v)
  (FDel : forall opts, Preserves (k_delete_all_of (KubeObj PVCKind) opts) v).

Lemma component_cleaned_patient deployEngine ns name :
  Preserves (component_cleaned deployEngine ns false name) v.
Proof.
  unfold component_cleaned, ignore_error. cbv zeta. apply bind_preserves; [apply _|intros _].
  apply bind_preserves; [apply _|intros pods]. case_match; [apply _|].
  apply bind_preserves; [apply _|intros svcs]. case_match; [apply _|].
  apply bind_preserves; [apply _|intros pvcs]. case_match; apply _.
Qed.

(** until the clean-up times out (or when no start is recorded, which never times
    out) nothing is forced: whatever clock readings, lists and deletions of volume
    claims leave alone, pods, services and workloads for instance, is the same
    after the call as before. *)
Theorem cleanup_patient deployEngine parentComps ns start timeout w :
  fst (IsCleanupTimeout start timeout w) = Ok false ->
  v (snd (WaitForComponentsCleaned deployEngine parentComps ns start timeout w)) = v w.
Proof.
  intros Hfalse. unfold WaitForComponentsCleaned. case_match; [done|].
  assert (Preserves (IsCleanupTimeout start timeout) v) as HI.
  { unfold IsCleanupTimeout. case_match; apply _. }
  specialize (HI w). unfold mbind, M_bind.
  destruct (IsCleanupTimeout start timeout w) as [r w1]. simpl in Hfalse, HI. subst r.
  rewrite <- HI. clear HI.
  assert (Preserves (range_map parentComps) v) as HR.
  { intros w0. unfold range_map. rewrite <- (range_frame (v:=v) _ parentComps w0).
    by destruct (rt_range parentComps w0). }
  specialize (HR w1). destruct (range_map parentComps w1) as [[comps|e|p] w2]; [|done..].
  simpl in HR. rewrite <- HR. clear HR. 
  set (body := fun (comp : string * Component) (_ : unit) =>
    do cleaned <- component_cleaned deployEngine ns false (fst comp);
    mret (if cleaned : bool then Next tt else Rtn false)).
  assert (forall l b, Preserves (for_range l b body) v) as Hloop.
  { induction l as [|c l IH]; intros b; cbn [for_range]; [apply _|].
    apply bind_preserves; [|intros []; [apply IH|apply _..]].
    apply bind_preserves; [apply component_cleaned_patient|intros []; apply _]. }
  specialize (Hloop comps tt w2).
  destruct (for_range comps tt body w2) as [[[b|b]|e|p] w3] eqn:E; simpl in Hloop;
    change (for_range comps tt _ w2) with (for_range comps tt body w2); by rewrite E.
Qed.
End patience.

(** ** A cluster in memory *)

(** A clock and the objects. *)
Record CleanupSim := mkCleanupSim {
  cs_Clock : Z;
  cs_Objects : objects;
}.
#[export] Instance cleanup_sim_clock : HasClock CleanupSim := {|
  clock_get := cs_Clock;
  clock_set t w := mkCleanupSim t (cs_Objects w);
|}.

#[export] Program Instance cleanup_sim_store k : HasStore CleanupSim (KubeObj k) := {|
  store_get w := cs_Objects w k;
  store_set m w := mkCleanupSim (cs_Clock w) (set_kind k m (cs_Objects w));
|}.
Next Obligation. intros k m w. apply set_kind_same. Qed.

Lemma cleanup_sim_view_clock k t (w : CleanupSim) :
  kview (KubeObj k) (clock_set t w) = kview (KubeObj k) w.
Proof. done. Qed.

Lemma cleanup_sim_list_id k opts (w : CleanupSim) : snd (k_list (KubeObj k) opts w) = w.
Proof. done. Qed.

Lemma cleanup_sim_other (k k' : Kind) (m : gmap (string * string) (KubeObj k)) (w : CleanupSim) :
  k' <> k -> kview (KubeObj k') (store_set m w) = kview (KubeObj k') w.
Proof. intros Hne. unfold kview, mem_view. simpl. by rewrite set_kind_other. Qed.

(** An engine that finds the objects of a release by one label and removes nothing by
    itself. *)
Definition sim_engine : DeployEngine CleanupSim := {|
  de_GetName := "helm3";
  de_Create _ _ _ _ _ := mret tt;
  de_Rollback _ _ := mret tt;
  de_GetHistories _ := mret [];
  de_GetReleases := mret [];
  de_Delete _ := mret tt;
  de_ForceDelete _ := mret tt;
  de_GetLabelSelectors refName := {[ "release" := refName ]};
  de_WaitForPreHookReady _ := mret true;
  de_IsMocked := false;
|}.

Definition sim_component : Component :=
  mkComponent "" "redis" (mkComponentChart "" "redis" "") (mkComponentImage "redis" "" "")
    [] None [] [].
Definition sim_pod : ObjectMeta :=
  (namedMeta "active" "redis-0") <| om_Labels := {[ "release" := "redis" ]} |>.
(** One component in use in the namespace [active], which has one pod, and a
    clean-up that started at 0. *)
Definition sim_cluster (t : Z) (pods : list ObjectMeta) : CleanupSim :=
  mkCleanupSim t (fun k => match k with
    | PodKind => list_to_map ((fun m => ((om_Namespace m, om_Name m), bareObj m)) <$> pods)
    | _ => ∅
    end).

Lemma cleaned_means_nothing_left_witness :
  de_IsMocked sim_engine = false /\ only_deletes sim_engine /\
  let w := sim_cluster 5 [namedMeta "active" "mysql-0"] in
  let w' := snd (WaitForComponentsCleaned sim_engine {[ "redis" := sim_component ]} "active" (Some 0) 0 w) in
  WaitForComponentsCleaned sim_engine {[ "redis" := sim_component ]} "active" (Some 0) 0 w = (Ok true, w') /\
  nothing_left "active" {[ "release" := "redis" ]} w'.
Proof.
  assert (only_deletes sim_engine) as Hdel by (intros r w; repeat split; reflexivity).
  split; [reflexivity|]. split; [exact Hdel|]. cbv zeta.
  match goal with |- ?a = (Ok true, snd ?b) /\ _ =>
    assert (a = (Ok true, snd b)) as Heq end.
  { rewrite (surjective_pairing (WaitForComponentsCleaned _ _ _ _ _ _)) at 1. f_equal; vm_compute; reflexivity. }
  split; [exact Heq|].
  refine (cleaned_means_nothing_left (W:=CleanupSim) _ _ _ sim_engine {[ "redis" := sim_component ]}
    "active" (Some 0) 0 _ _ eq_refl Hdel Heq "redis" sim_component (lookup_singleton_eq _ _)).
  all: intros; intros ?; reflexivity.
Defined.

(** A started clean-up before its timeout leaves the pod; after it, the pod is gone. *)
Lemma cleanup_patient_witness :
  let wait t := WaitForComponentsCleaned sim_engine {[ "redis" := sim_component ]} "active"
    (Some 0) (10 * Minute) (sim_cluster t [sim_pod]) in
  fst (IsCleanupTimeout (Some 0) (10 * Minute) (sim_cluster (5 * Minute) [sim_pod])) = Ok false /\
  kview (KubeObj PodKind) (snd (wait (5 * Minute))) !! ("active", "redis-0") = Some (bareObj sim_pod) /\
  kview (KubeObj PodKind) (snd (wait (11 * Minute))) !! ("active", "redis-0") = None.
Proof.
  cbv zeta. split; [vm_compute; reflexivity|]. split; [|vm_compute; reflexivity].
  assert (RuntimeFrame CleanupSim (kview (KubeObj PodKind))) as RF by by apply sim_runtime_frame.
  rewrite (cleanup_patient (W:=CleanupSim) (kview (KubeObj PodKind))).
  all: try (intros; intros ?; reflexivity).
  all: try (vm_compute; reflexivity).
Defined.
