(* ===== verification/StgTypes.v ===== *)
(** The types of the staging side: [api/v1/queuehistory_types.go], the test runners of
    [internal/staging.go], and the controller of [internal/staging/controller.go] with the
    queue that it holds. *)

From S2P Require Import Prelude.
From S2P Require Import GoRuntime.
From S2P Require Import Errors.
From S2P Require Import KubeApi.
From S2P Require Import ConfigTypes.
From S2P Require Import ComponentTypes.
From S2P Require Import QueueTypes.
From S2P Require Import QueueCtrl.
From S2P Require Import Interfaces.
Open Scope string_scope.
Open Scope list_scope.
Open Scope Z_scope.

(** ** Histories of queues *)

Record QueueHistorySpec := mkQueueHistorySpec {
  qhs_Queue : option Queue;
  qhs_StableComponents : list StableComponent;
  qhs_AppliedValues : option ComponentValues;
  qhs_IsDeploySuccess : bool;
  qhs_IsTestSuccess : bool;
  qhs_IsReverify : bool;
  qhs_CreatedAt : option Z;
}.
Record QueueHistory := mkQueueHistory { qh_Meta : ObjectMeta; qh_Spec : QueueHistorySpec }.
#[export] Instance eta_QueueHistorySpec : Eta QueueHistorySpec := fun x =>
  mkQueueHistorySpec (qhs_Queue x) (qhs_StableComponents x) (qhs_AppliedValues x) (qhs_IsDeploySuccess x)
    (qhs_IsTestSuccess x) (qhs_IsReverify x) (qhs_CreatedAt x).
#[export] Instance eta_QueueHistory : Eta QueueHistory := fun x => mkQueueHistory (qh_Meta x) (qh_Spec x).
#[export] Instance queue_history_object : KObject QueueHistory := qh_Meta.
#[export] Instance queue_history_mark : KMark QueueHistory := fun t x => x <| qh_Meta ::= mark_deleted t |>.
#[export] Instance queue_history_mark_laws : KMarkLaws QueueHistory.
Proof. intros t x. apply (mark_deleted_key t (qh_Meta x)). Qed.

(** [QueueHistoryByCreatedTimeDESC.Less]: the younger one comes first. *)
Definition QueueHistoryLess (a b : QueueHistory) : bool :=
  om_CreationTimestamp (qh_Meta b) <? om_CreationTimestamp (qh_Meta a).
Definition QueueHistorySortDESC `{GoSort} (l : list QueueHistory) : list QueueHistory := go_sort QueueHistoryLess l.

Lemma QueueHistoryLess_ordering : sort_ordering QueueHistoryLess.
Proof. split; intros x y z; unfold QueueHistoryLess; rewrite ?Z.ltb_lt, ?Z.ltb_ge; lia. Qed.

(** ** Test runners *)

(** Triggering a test and asking for its result may write into the queue; a result says
    whether the build has succeeded and whether it is finished, next to an error. *)
Record StagingTestRunner (W : Type) := mkStagingTestRunner {
  str_GetName : string;
  str_Trigger : option ConfigTestRunner -> M (W * Queue) unit;
  str_GetResult : option ConfigTestRunner -> M (W * Queue) (bool * bool * option error);
  str_IsTriggered : Queue -> bool;
}.
Arguments str_GetName {_} _.
Arguments str_Trigger {_} _ _.
Arguments str_GetResult {_} _ _.
Arguments str_IsTriggered {_} _ _.

(** ** The controller *)

(** [sg_s2hClient]: there is a client for the remote calls.  The credentials of the test
    runners are inside them; nothing is ever written into [lastAppliedValues] and
    [lastStableComponentList]. *)
Record staging (W : Type) := mkStaging {
  sg_deployEngines : gmap string (DeployEngine W);
  sg_testRunners : gmap string (StagingTestRunner W);
  sg_teamName : string;
  sg_namespace : string;
  sg_queueCtrl : QueueCtrl.controller;
  sg_s2hClient : bool;
  sg_MaxHistoryDays : Z;
}.
Arguments mkStaging {_} _ _ _ _ _ _ _.
Arguments sg_deployEngines {_} _.
Arguments sg_testRunners {_} _.
Arguments sg_teamName {_} _.
Arguments sg_namespace {_} _.
Arguments sg_queueCtrl {_} _.
Arguments sg_s2hClient {_} _.
Arguments sg_MaxHistoryDays {_} _.

(** The queue that a step works on, and whether [currentQueue] still points to it. *)
Record holding := mkHolding { h_queue : Queue; h_held : bool }.
#[export] Instance eta_holding : Eta holding := fun x => mkHolding (h_queue x) (h_held x).

(** The clients of the kinds that the controller works with. *)
Class StagingCluster (W : Type) := {
  sgc_queue :: KClient W Queue;
  sgc_stable :: KClient W StableComponent;
  sgc_hist :: KClient W QueueHistory;
  sgc_objects :: forall k, KClient W (KubeObj k);
}.

(** Setting up a client for another namespace, the zip file with the logs of the cluster,
    the branch of a merge request on Gitlab, and the third-party package about deployments:
    the ready replicas of the new replica set, if there is one, and the number of pods that
    may be unavailable. *)
Class StagingOutside (W : Type) := {
  sgo_getRuntimeClient : M W unit;
  sgo_createDeploymentZipLogs : Queue -> M W string;
  sgo_GetMRSourceBranch : string -> string -> M W string;
  sgo_GetNewReplicaSet : KubeObj DeploymentKind -> M W (option Z);
  sgo_MaxUnavailable : KubeObj DeploymentKind -> Z;
}.
