(* ===== verification/StgUtil.v ===== *)
(** Model of [internal/staging/util.go], of [internal/staging/image_missing.go] and of the
    histories of queues in [internal/staging/collect_result.go].

    A step of the staging controller runs on the cluster and on the queue that the
    controller holds ([holding]); every pointer to the queue in the code is to that
    object. *)

From S2P Require Import Prelude.
From S2P Require Import GoRuntime.
From S2P Require Import Errors.
From S2P Require Import KubeApi.
From S2P Require Import ConfigTypes.
From S2P Require Import ComponentTypes.
From S2P Require Import QueueTypes.
From S2P Require Import RpcTypes.
From S2P Require Import QueueCtrl.
From S2P Require Import Interfaces.
From S2P Require Import StgTypes.
Open Scope string_scope.
Open Scope list_scope.
Open Scope Z_scope.

Section util.
Context {W : Type} `{GR : GoRuntime W} `{GS : GoSort} `{GD : GoDuration}.
Context `{CFG : ConfigController W} `{RPC : SamsahaiRPC W} `{SC : StagingCluster W} `{SO : StagingOutside W}.
Context (c : staging W).

(** A step of the controller. *)
Definition Staging (A : Type) : Type := M (W * holding) A.
Definition the_queue : Staging Queue := do h <- get_obj; mret (h_queue h).
Definition mod_queue (f : Queue -> Queue) : Staging unit := mod_obj (fun h => h <| h_queue ::= f |>).
Definition mod_status (f : QueueStatus -> QueueStatus) : Staging unit :=
  mod_queue (fun q => q <| queue_Status ::= f |>).
Definition stage_cond (cond : QueueConditionType) (status : ConditionStatus) (message : string) : Staging unit :=
  do t <- onW now; mod_status (SetCondition t cond status message).

(** The call gets a pointer to the queue. *)
Definition on_held {A} (m : M (W * Queue) A) : Staging A := fun s =>
  match m (fst s, h_queue (snd s)) with (r, (w, q)) => (r, (w, (snd s) <| h_queue := q |>)) end.
Definition on_client {A} (m : M (W * ClientObject) A) : Staging A := fun s =>
  match m (fst s, QueueObject (h_queue (snd s))) with
  | (r, (w, o)) => (r, (w, match o with QueueObject q => (snd s) <| h_queue := q |> | AnotherObject => snd s end))
  end.

(** ** Configuration *)

Definition getConfiguration : M W ConfigSpec :=
  do config <- cfg_Get (sg_teamName c); mret (cst_Used (config_Status config)).

Definition emptyDeploy : ConfigDeploy := mkConfigDeploy 0 0 None None.
(** The last bundle of the name counts. *)
Definition deploy_config_of (cfg : ConfigSpec) (queue : Queue) : option ConfigDeploy :=
  if IsActivePromotionQueue queue then
    match cf_ActivePromotion cfg with
    | Some promotion => match ca_Deployment promotion with Some d => Some d | None => Some emptyDeploy end
    | None => Some emptyDeploy
    end
  else if IsPullRequestQueue queue then
    match cf_PullRequest cfg with
    | Some pr => fold_left (fun d bundle =>
        if String.eqb (prb_Name bundle) (qs_Name (queue_Spec queue)) then prb_Deployment bundle else d)
        (cpr_Bundles pr) (Some emptyDeploy)
    | None => Some emptyDeploy
    end
  else match cf_Staging cfg with
       | Some staging => cs_Deployment staging
       | None => Some emptyDeploy
       end.

(** The error is logged. *)
Definition getDeployConfiguration (queue : Queue) : M W (option ConfigDeploy) :=
  do r <- attempt getConfiguration;
  mret (match r with inl _ => Some emptyDeploy | inr cfg => deploy_config_of cfg queue end).

Definition tryInferPullRequestGitlabBranch (confGitlab : option ConfigGitlab) (MRiid : string)
    (gl : option (string -> string -> M W string)) : M W (option ConfigGitlab) :=
  match confGitlab, gl with
  | Some conf, Some GetMRSourceBranch =>
      let canInferBranch := GetInferBranch conf || String.eqb (gl_Branch conf) "" in
      let canQueryGitlab := negb (String.eqb (gl_ProjectID conf) "") &&
                            negb (String.eqb (gl_PipelineTriggerToken conf) "") in
      if canInferBranch && canQueryGitlab then
        do r <- attempt (GetMRSourceBranch (gl_ProjectID conf) MRiid);
        match r with
        | inl _ => mret (Some conf)
        | inr branch =>
            mret (Some (if String.eqb branch "" then conf else conf <| gl_Branch := branch |>))
        end
      else mret (Some conf)
  | conf, _ => mret conf
  end.

Definition getTestConfiguration (queue : Queue) : M W (option ConfigTestRunner) :=
  do deployConfig <- getDeployConfiguration queue;
  match deployConfig with
  | None => mret None
  | Some deployConfig =>
      let testRunner := match GetTestRunnerExtraParameter queue with
                        | None => cd_TestRunner deployConfig
                        | Some overrider => Override overrider (cd_TestRunner deployConfig)
                        end in
      match testRunner with
      | Some r =>
          if IsPullRequestQueue queue then
            do gitlab <- tryInferPullRequestGitlabBranch (tr_Gitlab r) (qs_PRNumber (queue_Spec queue))
                           (Some sgo_GetMRSourceBranch);
            mret (Some (r <| tr_Gitlab := gitlab |>))
          else mret (Some r)
      | None => mret None
      end
  end.

(** The mock engine is always loaded. *)
Definition getDeployEngine (queue : Queue) : M W (DeployEngine W) :=
  let name := qst_DeployEngine (queue_Status queue) in
  match (if String.eqb name "" then None else sg_deployEngines c !! name) with
  | Some engine => mret engine
  | None =>
      do deployConfig <- getDeployConfiguration queue;
      let e := match deployConfig with
               | Some d => match cd_Engine d with
                           | Some e => if String.eqb e "" then EngineName else e
                           | None => EngineName
                           end
               | None => EngineName
               end in
      mret (match sg_deployEngines c !! e with
            | Some engine => engine
            | None => default MockEngine (sg_deployEngines c !! EngineName)
            end)
  end.

(** ** The queue *)

Definition clearCurrentQueue : Staging unit := mod_obj (fun h => h <| h_held := false |>).

Definition updateQueue : Staging unit :=
  do queue <- the_queue; wrapping "updating queue error" (onW (k_update queue)).

(** The report of the new state; its error is logged. *)
Definition state_metric (q : Queue) : M W unit :=
  if sg_s2hClient c then
    ignore_error (rpc_SendUpdateStateQueueMetric
      (mkComponentUpgrade UpgradeStatus_FAILURE (qs_Name (queue_Spec q)) "" [] IssueType_UNKNOWN "" []
         (kns q) "" 0 false ReverificationStatus_UNKNOWN [] None ""))
  else mret tt.

Definition updateQueueWithState (state : QueueState) : Staging unit :=
  do t <- onW now;
  run mod_queue (SetState t state);
  do q <- the_queue;
  run onW (state_metric q);
  updateQueue.

(** ** Histories *)

(** From the last history to the second one, until one is young enough. *)
Fixpoint delete_old_histories (t maxHistDuration : Z) (oldest_first : list QueueHistory) : M W unit :=
  match oldest_first with
  | [] => mret tt
  | hist :: rest =>
      if maxHistDuration <=? time_sub t (om_CreationTimestamp (qh_Meta hist)) then
        do r <- attempt (k_delete hist);
        match r with
        | inl err => if IsNotFound err then delete_old_histories t maxHistDuration rest
                     else throw (Wrap err ("cannot delete queuehistories " +:+ kname hist))
        | inr _ => delete_old_histories t maxHistDuration rest
        end
      else mret tt
  end.

Definition deleteQueueHistoryOutOfRange (namespace : string) : M W unit :=
  do r <- attempt (k_list QueueHistory (InNamespace namespace));
  match r with
  | inl err => if IsNotFound err then mret tt
               else throw (Wrap err ("cannot list queuehistories in " +:+ namespace))
  | inr items =>
      do cfg <- getConfiguration;
      let maxHistDays := match cf_Staging cfg with
                         | Some staging => if cs_MaxHistoryDays staging =? 0 then sg_MaxHistoryDays c
                                           else cs_MaxHistoryDays staging
                         | None => sg_MaxHistoryDays c
                         end in
      match parse_duration (pretty (wrap64 (maxHistDays * 24)) +:+ "h") with
      | inl _ => mret tt
      | inr maxHistDuration =>
          let items := QueueHistorySortDESC items in
          do t <- now;
          delete_old_histories t maxHistDuration (reverse (tail items))
      end
  end.

(** What a history tells of a queue. *)
Definition history_of (t : Z) (q : Queue) : QueueHistory :=
  mkQueueHistory
    ((namedMeta (sg_namespace c) (qst_QueueHistoryName (queue_Status q)))
       <| om_Labels := om_Labels (queue_Meta q) |>)
    (mkQueueHistorySpec (Some (mkQueue noMeta (queue_Spec q) (queue_Status q))) [] None
       (IsDeploySuccess q) (IsTestSuccess q) (IsReverify q) (Some t)).

(** A history of the name that is there is left alone. *)
Definition createQueueHistory (q : Queue) : M W unit :=
  run deleteQueueHistoryOutOfRange (sg_namespace c);
  do t <- now;
  let history := history_of t q in
  do r <- attempt (k_get QueueHistory (kkey history));
  match r with
  | inl err => if IsNotFound err then k_create history else throw err
  | inr _ => mret tt
  end.

Definition updateQueueHistory (q : Queue) : M W unit :=
  do r <- attempt (k_get QueueHistory (sg_namespace c, qst_QueueHistoryName (queue_Status q)));
  match r with
  | inl err => if IsNotFound err then createQueueHistory q else throw err
  | inr fetched =>
      k_update (fetched <| qh_Spec ::= fun s =>
        s <| qhs_Queue := Some (mkQueue noMeta (queue_Spec q) (queue_Status q)) |> |>)
  end.

(** ** The end of a queue *)

(** A failed queue gets another try, or has the environment verified when there have been
    too many. *)
Definition retry_failed : Staging unit :=
  run mod_queue (fun q => q <| queue_Spec ::= fun s => s <| qs_NoOfRetry ::= fun n => int_add n 1 |> |>);
  do cfg <- onW getConfiguration;
  let maxNoOfRetry := match cf_Staging cfg with Some staging => cs_MaxRetry staging | None => 0 end in
  do q <- the_queue;
  if maxNoOfRetry <? qs_NoOfRetry (queue_Spec q) then on_client (SetReverifyQueueAtFirst (sg_queueCtrl c))
  else
    do t <- onW now;
    on_client (SetRetryQueue (sg_queueCtrl c) (qs_NoOfRetry (queue_Spec q)) t).

Definition deleteQueue : Staging unit :=
  do q <- the_queue;
  run wrapping "updating queuehistory error" (onW (updateQueueHistory q));
  run (if IsDeploySuccess q && IsTestSuccess q && negb (IsReverify q) then
         do r <- attempt (onW (k_delete q));
         match r with
         | inl err => if IsNotFound err then mret tt else throw err
         | inr _ => mret tt
         end
       else if IsReverify q then
         do t <- onW now;
         on_client (SetRetryQueue (sg_queueCtrl c) 0 (t + 24 * Hour))
       else retry_failed);
  clearCurrentQueue.

(** ** [image_missing.go] *)

Definition updateImageMissingWithQueueState (imgList : list RpcImage) : Staging unit :=
  let outImgList := map (fun img => mkImage (ri_Repository img) (ri_Tag img)) imgList in
  run mod_status (SetImageMissingList outImgList);
  run stage_cond QueueDeployed ConditionFalse "queue image missing";
  updateQueueWithState Collecting.

Definition detectImageMissing : Staging unit :=
  do queue <- the_queue;
  if bool_decide (qs_Type (queue_Spec queue) = QueueTypeDemoteFromActive) then updateQueueWithState Creating
  else
    let rpcComps := map (fun qComp => mkRpcComponent (qc_Name qComp)
      (Some (mkRpcImage (qc_Repository qComp) (qc_Version qComp)))) (qs_Components (queue_Spec queue)) in
    do imgList <- (if sg_s2hClient c then
                     wrapping "cannot get image missing list"
                       (onW (rpc_GetMissingVersions (mkTeamWithCurrentComponent (sg_teamName c) rpcComps)))
                   else mret []);
    if (0 <? length imgList)%nat then updateImageMissingWithQueueState imgList
    else updateQueueWithState Creating.
End util.
