(* ===== verification/StgDeploy.v ===== *)
(** Model of [internal/staging/deploy.go]: the deployment of the components of a queue and
    the wait until they are ready.

    The goroutines that create releases do their work, in an order that the runtime
    chooses, before the caller looks at their channels; the caller may find at each look
    that its time is over. *)

From S2P Require Import Prelude.
From S2P Require Import GoRuntime.
From S2P Require Import Errors.
From S2P Require Import KubeApi.
From S2P Require Import ConfigTypes.
From S2P Require Import ComponentTypes.
From S2P Require Import QueueTypes.
From S2P Require Import RpcTypes.
From S2P Require Import Values.
From S2P Require Import TeamTypes.
From S2P Require Import Interfaces.
From S2P Require Import ConfigCtrl.
From S2P Require Import StgTypes.
From S2P Require Import StgUtil.
Open Scope string_scope.
Open Scope list_scope.
Open Scope Z_scope.

(** The values that a queue asks for a component. *)
Fixpoint genCompValueFromQueue (compName : string) (qComps : QueueComponents) : ComponentValues :=
  match qComps with
  | [] => []
  | qComp :: rest =>
      if String.eqb (qc_Name qComp) compName then
        [("image", JObject
           ((if String.eqb (qc_Repository qComp) "" then [] else [("repository", JString (qc_Repository qComp))]) ++
            (if String.eqb (qc_Version qComp) "" then [] else [("tag", JString (qc_Version qComp))])))]
      else genCompValueFromQueue compName rest
  end.

Definition isUpgradeRelatedQueue (q : Queue) : bool :=
  bool_decide (qs_Type (queue_Spec q) = QueueTypeUpgrade) || bool_decide (qs_Type (queue_Spec q) = QueueTypeReverify).
Definition isPullRequestRelatedQueue (q : Queue) : bool :=
  bool_decide (qs_Type (queue_Spec q) = QueueTypePullRequest).

(** What the histories of a release say: [inl] whether one is deployed, [inr] the answer
    at once. *)
Fixpoint scan_histories (foundHistoryDeployed : bool) (histories : list Release) : bool + (bool * bool * string) :=
  match histories with
  | [] => inl foundHistoryDeployed
  | hist :: rest =>
      match rel_Status hist with
      | ReleaseDeployed => scan_histories true rest
      | ReleaseFailed => inr (false, true, rel_Description hist)
      | ReleasePendingInstall | ReleasePendingUpgrade => inr (false, false, "")
      | OtherReleaseStatus _ => scan_histories foundHistoryDeployed rest
      end
  end.

Section deploy.
Context {W : Type} `{GR : GoRuntime W} `{GS : GoSort} `{GD : GoDuration} `{GO : GoSchedule W}.
Context `{CFG : ConfigController W} `{RPC : SamsahaiRPC W} `{SC : StagingCluster W} `{SO : StagingOutside W}.
Context `{CO : ConfigOutside W}.
Context (c : staging W).

(** ** Which components *)

Definition getAllComponentsFromQueueType (q : Queue) : M W (gmap string Component) :=
  if IsPullRequestQueue q then cfg_GetPullRequestComponents (sg_teamName c) (qs_Name (queue_Spec q)) true
  else cfg_GetComponents (sg_teamName c).

(** The components of the queue, and those that are deployed for them: a dependency is
    deployed with its parent.  A parent that the configuration does not know is [nil]. *)
Definition getParentAndQueueCompsFromQueueType (q : Queue)
    : M W (gmap string (option Component) * gmap string Component) :=
  do comps <- getAllComponentsFromQueueType q;
  do r <- for_range (qs_Components (queue_Spec q)) (∅, ∅)
    (fun qComp (acc : gmap string (option Component) * gmap string Component) =>
      let (queueParentComps, queueComps) := acc in
      match comps !! qc_Name qComp with
      | None => mret (Next (R:=unit) (queueParentComps, queueComps))
      | Some comp =>
          let queueComps := <[qc_Name qComp := comp]> queueComps in
          let queueParentComps := <[qc_Name qComp := Some comp]> queueParentComps in
          if String.eqb (cp_Parent comp) "" then mret (Next (queueParentComps, queueComps)) else
          let queueParentComps := delete (qc_Name qComp) queueParentComps in
          match comps !! cp_Parent comp with
          | Some parent => mret (Next (<[cp_Parent comp := Some parent]> queueParentComps, queueComps))
          | None =>
              do parentComps <- cfg_GetParentComponents (sg_teamName c);
              mret (Next (<[cp_Parent comp := parentComps !! cp_Parent comp]> queueParentComps, queueComps))
          end
      end);
  mret (match r with inl acc => acc | inr _ => (∅, ∅) end).

(** Components that are not configured any more are skipped. *)
Definition updateQueueComponentsSpec : Staging (W:=W) unit :=
  do q <- the_queue;
  do comps <- onW (getAllComponentsFromQueueType q);
  let newComps := filter (fun qComp => is_Some (comps !! qc_Name qComp)) (qs_Components (queue_Spec q)) in
  if Nat.eqb (length newComps) (length (qs_Components (queue_Spec q))) then mret tt else
  run mod_queue (fun q => q <| queue_Spec ::= fun s => s <| qs_Components := newComps |> |>);
  updateQueue.

Definition checkDeployTimeout (deployTimeout : Duration) : Staging (W:=W) unit :=
  do t <- onW now;
  do queue <- the_queue;
  match qst_StartDeployTime (queue_Status queue) with
  | None => run mod_status (fun s => s <| qst_StartDeployTime := Some t |>); updateQueue
  | Some start =>
      if deployTimeout <? time_sub t start then
        run stage_cond QueueDeployed ConditionFalse "queue deployment timeout";
        run updateQueueWithState c Collecting;
        throw ErrDeployTimeout
      else mret tt
  end.

(** A queue that is not configured any more is deleted; the answer is true all the same. *)
Definition validateStagingQueue : Staging (W:=W) bool :=
  do queue <- the_queue;
  do comps <- onW (cfg_GetComponents (sg_teamName c));
  let spec := queue_Spec queue in
  let isBundleQueue := negb (String.eqb (qs_Bundle spec) "") && String.eqb (qs_Name spec) (qs_Bundle spec) in
  do bundles <- onW (cfg_GetBundles (sg_teamName c));
  let isNotExist :=
    if isBundleQueue then match bundles !! qs_Name spec with None => true | Some _ => false end
    else match qs_Components spec with
         | [] => true
         | comp :: _ => match comps !! qc_Name comp with None => true | Some _ => false end
         end in
  if isNotExist then
    do r <- attempt (onW (k_delete queue));
    match r with
    | inl err => if IsNotFound err then run clearCurrentQueue; mret true else throw err
    | inr _ => run clearCurrentQueue; mret true
    end
  else mret true.

(** ** Which values *)

Definition getTeamActiveNamespace : M W string :=
  if sg_s2hClient c then
    do teamWithNs <- rpc_GetTeamActiveNamespace (sg_teamName c); mret (twn_Namespace teamWithNs)
  else go_panic NilDereference.

Definition getStableComponentsMapFromQueueType (q : Queue) : M W (gmap string StableComponent) :=
  do namespace <- (if IsPullRequestQueue q then getTeamActiveNamespace else mret (sg_namespace c));
  run sgo_getRuntimeClient;
  GetStableComponentsMap namespace.

(** The values of the environment that the queue is for; an error is logged. *)
Definition applyEnvBaseConfig (cfg : ConfigSpec) (values : ComponentValues) (qt : QueueType) (comp : Component)
    (teamName : string) : M W ComponentValues :=
  match (match qt with
         | QueueTypePreActive => Some EnvPreActive
         | QueueTypePromoteToActive => Some EnvActive
         | QueueTypeUpgrade | QueueTypeReverify => Some EnvStaging
         | _ => None
         end) with
  | None => mret values
  | Some env =>
      do r <- attempt (GetEnvValues cfg env teamName);
      mret (match r with
            | inl _ => values
            | inr target => match target !! cp_Name comp with
                            | Some v => MergeValues values v
                            | None => values
                            end
            end)
  end.

(** ** The deployment *)

(** The components that are not in the queue, with their stable versions: whether the
    deployment has begun, and the error. *)
Definition deployComponentsExceptQueue (deployEngine : DeployEngine W) (queue : Queue)
    (queueParentComps : gmap string (option Component)) (stableMap : gmap string StableComponent)
    (deployTimeout : Duration) : M W (bool * option error) :=
  do r <- attempt (cfg_GetParentComponents (sg_teamName c));
  match r with
  | inl err => mret (false, Some err)
  | inr parentComps =>
      do r <- attempt (getConfiguration c);
      match r with
      | inl err => mret (false, Some err)
      | inr cfg =>
          do comps <- range_map parentComps;
          do r <- for_range comps tt (fun (p : string * Component) _ =>
            let (name, comp) := p in
            if bool_decide (is_Some (queueParentComps !! name)) then mret (Next tt) else
            do r <- attempt (GetEnvComponentValues cfg name (sg_teamName c) EnvBase);
            match r with
            | inl err => mret (Rtn (false, Some err))
            | inr baseValues =>
                let values := GenStableComponentValues comp stableMap baseValues in
                do r <- attempt
                  (if bool_decide (qs_Type (queue_Spec queue) = QueueTypeDemoteFromActive)
                   then de_Rollback deployEngine (GenReleaseName (cp_Name comp)) 1
                   else
                     do values <- applyEnvBaseConfig cfg values (qs_Type (queue_Spec queue)) comp (sg_teamName c);
                     de_Create deployEngine (GenReleaseName (cp_Name comp)) comp (Some comp) values
                       (Some deployTimeout));
                mret (match r with inl err => Rtn (true, Some err) | inr _ => Next tt end)
            end);
          mret (match r with inl _ => (true, None) | inr res => res end)
      end
  end.

(** What the queue asks for is put over the values of a component: for itself, and for its
    dependencies. *)
Definition over_queue_comp (queue : Queue) (parentComp : Component) (values : ComponentValues) (comp : Component)
    : ComponentValues :=
  let v := genCompValueFromQueue (cp_Name comp) (qs_Components (queue_Spec queue)) in
  if String.eqb (cp_Name comp) (cp_Name parentComp) then MergeValues values v
  else if negb (String.eqb (cp_Parent comp) "") && String.eqb (cp_Parent comp) (cp_Name parentComp)
  then MergeValues values [(cp_Name comp, JObject v)]
  else values.

(** One component of the queue. *)
Definition deploy_parent (deployEngine : DeployEngine W) (queue : Queue) (cfg : ConfigSpec)
    (queueComps : gmap string Component) (stableMap : gmap string StableComponent) (deployTimeout : Duration)
    (parentName : string) (parentComp : option Component) : M W unit :=
  match parentComp with
  | None => throw (New ("parent components should not be empty, component: " +:+ parentName))
  | Some parentComp =>
      do parentBaseValues <- (if IsPullRequestQueue queue then mret []
                              else GetEnvComponentValues cfg parentName (sg_teamName c) EnvBase);
      let values := GenStableComponentValues parentComp stableMap parentBaseValues in
      do values <-
        (if IsComponentUpgradeQueue queue || IsPullRequestQueue queue then
           do values <- (if IsPullRequestQueue queue then
                           do envValues <- GetEnvComponentValues cfg (qs_Name (queue_Spec queue)) (sg_teamName c)
                                             EnvPullRequest;
                           mret (MergeValues values envValues)
                         else mret values);
           do comps <- range_map queueComps;
           mret (fold_left (over_queue_comp queue parentComp) (map snd comps) values)
         else mret values);
      do values <- applyEnvBaseConfig cfg values (qs_Type (queue_Spec queue)) parentComp (sg_teamName c);
      de_Create deployEngine (GenReleaseName (cp_Name parentComp)) parentComp (Some parentComp) values
        (Some deployTimeout)
  end.

(** The goroutines, one after the other in the order in which they get to their end. *)
Fixpoint run_all (l : list (M W unit)) : M W (list (option error)) :=
  match l with
  | [] => mret []
  | m :: rest =>
      do r <- attempt m;
      do rs <- run_all rest;
      mret (match r with inl err => Some err | inr _ => None end :: rs)
  end.
(** The first error that is received, unless the time is over before. *)
Fixpoint await_errors (results : list (option error)) : M W (option error) :=
  match results with
  | [] => mret None
  | r :: rest =>
      do timeout <- coin;
      if (timeout : bool) then mret None
      else match r with Some err => mret (Some err) | None => await_errors rest end
  end.

Definition deployQueueComponent (deployEngine : DeployEngine W) (queue : Queue)
    (queueComps : gmap string Component) (queueParentComps : gmap string (option Component))
    (stableMap : gmap string StableComponent) (deployTimeout : Duration) : M W (option error) :=
  do r <- attempt (getConfiguration c);
  match r with
  | inl err => mret (Some err)
  | inr cfg =>
      do parents <- range_map queueParentComps;
      do results <- run_all (map (fun p =>
        deploy_parent deployEngine queue cfg queueComps stableMap deployTimeout (fst p) (snd p)) parents);
      await_errors results
  end.

(** The two channels are read in pairs, which need not be the pairs that were sent.  When
    the time is over only an error of the engine counts. *)
Fixpoint await_deployed (deployEngine : DeployEngine W) (flags : list bool) (errs : list (option error))
    : M W (bool * option error) :=
  match flags, errs with
  | isDeployed :: flags, err :: errs =>
      do timeout <- coin;
      if (timeout : bool) then
        do r <- attempt (de_GetReleases deployEngine);
        mret (true, match r with inl err => Some err | inr _ => None end)
      else match err with
           | Some err => mret (isDeployed, Some err)
           | None => await_deployed deployEngine flags errs
           end
  | _, _ => mret (true, None)
  end.
(** Two values in the order in which they were sent. *)
Definition in_either_order {A} (x y : A) : M W (list A) :=
  do first <- coin; mret (if first : bool then [x; y] else [y; x]).

Definition deployComponents (deployEngine : DeployEngine W) (queue : Queue) (queueComps : gmap string Component)
    (queueParentComps : gmap string (option Component)) (deployTimeout : Duration) : M W (bool * option error) :=
  do r <- attempt (getStableComponentsMapFromQueueType queue);
  match r with
  | inl err => mret (false, Some err)
  | inr stableMap =>
      do r <- attempt (de_GetReleases deployEngine);
      match r with
      | inl err => mret (false, Some err)
      | inr _ =>
          let others :=
            if bool_decide (qs_Type (queue_Spec queue) = QueueTypePullRequest) then mret (true, None)
            else deployComponentsExceptQueue deployEngine queue queueParentComps stableMap deployTimeout in
          let own :=
            if negb (isUpgradeRelatedQueue queue) && negb (isPullRequestRelatedQueue queue) then mret (true, None)
            else
              do err <- deployQueueComponent deployEngine queue queueComps queueParentComps stableMap deployTimeout;
              mret (true, err) in
          do first <- first_wins;
          do ' (r1, r2) <- (if first : bool then do r1 <- others; do r2 <- own; mret (r1, r2)
                            else do r2 <- own; do r1 <- others; mret (r1, r2));
          do flags <- in_either_order (fst r1) (fst r2);
          do errs <- in_either_order (snd r1) (snd r2);
          await_deployed deployEngine flags errs
      end
  end.
(** ** Readiness *)

(** The job that owns a pod: whether it is complete, when there is one. *)
Fixpoint owning_job (ns : string) (refs : list OwnerReference) : M W (option bool) :=
  match refs with
  | [] => mret None
  | podRef :: rest =>
      if String.eqb (string_lower (or_Kind podRef)) "job" then
        do r <- attempt (k_get (KubeObj JobKind) (ns, or_Name podRef));
        mret (Some (match r with
                    | inl _ => false
                    | inr job => bool_decide (is_Some (job_CompletionTime (job_of job)))
                    end))
      else owning_job ns rest
  end.
Definition isPodsReady (listOpt : ListOptions) : M W bool :=
  do pods <- k_list (KubeObj PodKind) listOpt;
  do r <- for_range pods tt (fun pod _ =>
    do job <- owning_job (kns pod) (om_OwnerReferences (ko_Meta pod));
    let isReady := match job with
                   | Some complete => complete
                   | None => existsb (fun cond => String.eqb (fst cond) "Ready" &&
                                                  bool_decide (snd cond = ConditionTrue))
                               (pod_Conditions (pod_of pod))
                   end in
    mret (if isReady then Next tt else Rtn false));
  mret (match r with inl _ => true | inr b => b end).

Definition isDeploymentsReady (listOpt : ListOptions) : M W bool :=
  do deployments <- k_list (KubeObj DeploymentKind) listOpt;
  do r <- for_range deployments tt (fun deploy _ =>
    do rs <- sgo_GetNewReplicaSet deploy;
    mret (match rs with
          | None => Rtn false
          | Some readyReplicas =>
              match dpl_Replicas (deployment_of deploy) with
              | None => Next tt
              | Some replicas =>
                  if replicas - sgo_MaxUnavailable (W:=W) deploy <=? readyReplicas then Next tt else Rtn false
              end
          end));
  mret (match r with inl _ => true | inr b => b end).

Definition isPVCsReady (listOpt : ListOptions) : M W bool :=
  do pvcs <- k_list (KubeObj PVCKind) listOpt;
  mret (forallb (fun v => bool_decide (claim_of v = ClaimBound)) pvcs).

Definition service_ready (s : ServiceBody) : bool :=
  bool_decide (svc_Type s = ServiceTypeExternalName) ||
  (negb (String.eqb (svc_ClusterIP s) "") &&
   negb (bool_decide (svc_Type s = ServiceTypeLoadBalancer) && negb (svc_HasIngress s))).
Definition isServicesReady (listOpt : ListOptions) : M W bool :=
  do services <- k_list (KubeObj ServiceKind) listOpt;
  mret (forallb (fun s => service_ready (service_of s)) services).

(** Without selectors everything is ready. *)
Definition waitForReady (selectors : gmap string string) : M W bool :=
  if bool_decide (selectors = ∅) then mret true else
  let listOpt := mkListOptions (sg_namespace c) selectors in
  do ready <- isPodsReady listOpt;
  if negb ready then mret false else
  do ready <- isDeploymentsReady listOpt;
  if negb ready then mret false else
  do ready <- isPVCsReady listOpt;
  if negb ready then mret false else
  isServicesReady listOpt.

Definition waitForComponentsReady (deployEngine : DeployEngine W) (q : Queue) : M W bool :=
  do ' (parentComps, _) <- getParentAndQueueCompsFromQueueType q;
  do comps <- range_map parentComps;
  do r <- for_range comps tt (fun p _ =>
    do comp <- deref (snd p);
    do isReady <- waitForReady (de_GetLabelSelectors deployEngine (GenReleaseName (cp_Name comp)));
    mret (if isReady : bool then Next tt else Rtn false));
  mret (match r with inl _ => true | inr b => b end).

(** Whether all releases are deployed, whether one has failed, and why. *)
Definition checkAllReleasesDeployed (deployEngine : DeployEngine W) (releases : list Release)
    : M W (bool * bool * string) :=
  do r <- for_range releases tt (fun rel _ =>
    do r <- attempt (de_GetHistories deployEngine (rel_Name rel));
    mret (match r with
          | inl _ => Rtn (false, false, "")
          | inr histories =>
              match scan_histories false histories with
              | inl true => Next tt
              | inl false => Rtn (false, false, "")
              | inr res => Rtn res
              end
          end));
  mret (match r with inl _ => (true, false, "") | inr res => res end).

Definition deployActiveServicesIntoPullRequestEnvironment : M W unit :=
  if sg_s2hClient c then
    rpc_DeployActiveServicesIntoPullRequestEnvironment (mkTeamWithNamespace (sg_teamName c) (sg_namespace c))
  else go_panic NilDereference.

(** ** [deployEnvironment] *)

Definition defaultDeployTimeout : Duration := 1800 * Second.

(** The components to deploy; nothing to do when there are none to be had. *)
Definition components_to_deploy
    : Staging (W:=W) (option (gmap string (option Component) * gmap string Component)) :=
  do queue <- the_queue;
  if IsActivePromotionQueue queue then run updateQueue; mret (Some (∅, ∅))
  else
    do isValid <- (if IsPullRequestQueue queue then mret true else validateStagingQueue);
    if negb isValid then mret None else
    do comps <- onW (getParentAndQueueCompsFromQueueType queue);
    run updateQueueComponentsSpec;
    mret (Some comps).

(** The releases are created once; whether the step goes on. *)
Definition create_releases (deployEngine : DeployEngine W) (queueParentComps : gmap string (option Component))
    (queueComps : gmap string Component) (deployTimeout : Duration) : Staging (W:=W) bool :=
  do queue <- the_queue;
  if IsConditionTrue (queue_Status queue) QueueDeployStarted then mret true else
  do ' (isDeployed, err) <- onW (deployComponents deployEngine queue queueComps queueParentComps deployTimeout);
  match err with
  | Some err =>
      if negb isDeployed then throw err else
      run stage_cond QueueDeployStarted ConditionTrue "queue started to deploy";
      run stage_cond QueueDeployed ConditionFalse ("release deployment failed: " +:+ err_text err);
      run updateQueueWithState c Collecting;
      mret false
  | None =>
      run stage_cond QueueDeployStarted ConditionTrue "queue started to deploy";
      run updateQueue;
      mret true
  end.

(** The services of the active environment go into the environment of a pull request as
    soon as it has a service of its own. *)
Definition add_active_services (releases : list Release) : Staging (W:=W) bool :=
  do queue <- the_queue;
  if negb (Nat.eqb (length releases) 0) && IsPullRequestQueue queue then
    do svcList <- onW (k_list (KubeObj ServiceKind) (InNamespace ""));
    if (length svcList <=? 1)%nat then mret false else
    run onW deployActiveServicesIntoPullRequestEnvironment;
    mret true
  else mret true.

(** The releases are there: whether their hooks are through. *)
Definition pre_hooks_ready (deployEngine : DeployEngine W) (releases : list Release) : M W bool :=
  do r <- for_range releases tt (fun rel _ =>
    do isCompleted <- de_WaitForPreHookReady deployEngine (rel_Name rel);
    mret (if isCompleted : bool then Next tt else Rtn false));
  mret (match r with inl _ => true | inr b => b end).

(** What has become of the releases. *)
Definition verify_deployed (deployEngine : DeployEngine W) (releases : list Release) : Staging (W:=W) unit :=
  do ' (isDeployed, isFailed, errMsg) <- onW (checkAllReleasesDeployed deployEngine releases);
  if (isFailed : bool) then
    run stage_cond QueueDeployed ConditionFalse ("release deployment failed: " +:+ errMsg);
    updateQueueWithState c Collecting
  else if negb isDeployed then mret tt
  else
    do queue <- the_queue;
    do isReady <- onW (waitForComponentsReady deployEngine queue);
    if negb isReady then mret tt else
    run stage_cond QueueDeployed ConditionTrue "queue deployment succeeded";
    updateQueueWithState c Testing.

Definition deployEnvironment : Staging (W:=W) unit :=
  do queue <- the_queue;
  do deployConfig <- onW (getDeployConfiguration c queue);
  let deployTimeout := match deployConfig with
                       | Some d => if cd_Timeout d =? 0 then defaultDeployTimeout else cd_Timeout d
                       | None => defaultDeployTimeout
                       end in
  do deployEngine <- onW (getDeployEngine c queue);
  run checkDeployTimeout deployTimeout;
  do comps <- components_to_deploy;
  match comps with
  | None => mret tt
  | Some (queueParentComps, queueComps) =>
      do go_on <- create_releases deployEngine queueParentComps queueComps deployTimeout;
      if negb go_on then mret tt else
      do releases <- onW (de_GetReleases deployEngine);
      if Nat.eqb (length releases) 0 && negb (de_IsMocked deployEngine) then mret tt else
      do completed <- onW (pre_hooks_ready deployEngine releases);
      if negb completed then mret tt else
      do go_on <- add_active_services releases;
      if negb go_on then mret tt else
      verify_deployed deployEngine releases
  end.
End deploy.
