(* ===== verification/StgTest.v ===== *)
(** Model of [internal/staging/start_testrunner.go]: the tests of a deployed queue are
    triggered, and their results polled. *)

From S2P Require Import Prelude.
From S2P Require Import GoRuntime.
From S2P Require Import Errors.
From S2P Require Import KubeApi.
From S2P Require Import ConfigTypes.
From S2P Require Import ComponentTypes.
From S2P Require Import QueueTypes.
From S2P Require Import RpcTypes.
From S2P Require Import Interfaces.
From S2P Require Import StgTypes.
From S2P Require Import StgUtil.
Open Scope string_scope.
Open Scope list_scope.
Open Scope Z_scope.

Inductive testResult := testResultSuccess | testResultFailure | testResultUnknown.
#[export] Instance test_result_eq_dec : EqDecision testResult.
Proof. solve_decision. Defined.

Definition testTimeout : Duration := 30 * Minute.
Definition testTriggerTimeout : Duration := 1 * Minute.
Definition testResultRetry : nat := 3.
Definition sendTestPendingRetry : nat := 3.

(** The names of the test runners. *)
Definition GitlabRunnerName : string := "gitlab".
Definition TeamcityRunnerName : string := "teamcity".
Definition TestMockRunnerName : string := "testmock".

(** [strings.TrimSuffix]. *)
Definition TrimSuffix (s suffix : string) : string :=
  let n := (String.length s - String.length suffix)%nat in
  if String.eqb (String.substring n (String.length suffix) s) suffix && (String.length suffix <=? String.length s)%nat
  then String.substring 0 n s else s.

Section testing.
Context {W : Type} `{GR : GoRuntime W} `{GS : GoSort} `{GD : GoDuration} `{GO : GoSchedule W}.
Context `{CFG : ConfigController W} `{RPC : SamsahaiRPC W} `{SC : StagingCluster W} `{SO : StagingOutside W}.
Context (c : staging W).

Definition updateTestQueueCondition (status : ConditionStatus) (message : string) : Staging (W:=W) unit :=
  run stage_cond QueueTested status message;
  updateQueueWithState c Collecting.

Definition checkTestTimeout (testingTimeout : Duration) : Staging (W:=W) unit :=
  do t <- onW now;
  do queue <- the_queue;
  if match qst_StartTestingTime (queue_Status queue) with
     | Some start => testingTimeout <? time_sub t start
     | None => false
     end
  then
    run updateTestQueueCondition ConditionFalse "queue testing timeout";
    throw ErrTestTimeout
  else mret tt.

(** The runners that the configuration asks for; one that is not loaded is [nil]. *)
Definition configured_runners (testConfig : ConfigTestRunner) : list (option (StagingTestRunner W)) :=
  (match tr_Teamcity testConfig with Some _ => [sg_testRunners c !! TeamcityRunnerName] | None => [] end) ++
  (match tr_Gitlab testConfig with Some _ => [sg_testRunners c !! GitlabRunnerName] | None => [] end) ++
  (match tr_TestMock testConfig with Some _ => [sg_testRunners c !! TestMockRunnerName] | None => [] end).

(** Whether there is nothing to test, and the runners. *)
Definition checkTestConfig : Staging (W:=W) (bool * list (option (StagingTestRunner W))) :=
  do queue <- the_queue;
  if qs_SkipTestRunner (queue_Spec queue) then
    run updateTestQueueCondition ConditionTrue "skip running test";
    mret (true, [])
  else
    do testConfig <- onW (getTestConfiguration c queue);
    match testConfig with
    | None =>
        run updateTestQueueCondition ConditionTrue "queue testing succeeded because no testing configuration";
        mret (true, [])
    | Some testConfig =>
        let testRunners := configured_runners testConfig in
        if Nat.eqb (length testRunners) 0 then
          run updateTestQueueCondition ConditionFalse "test runner not found";
          throw ErrTestRunnerNotFound
        else
          do t <- onW now;
          run (match qst_StartTestingTime (queue_Status queue) with
               | None => run mod_status (fun s => s <| qst_StartTestingTime := Some t |>); updateQueue
               | Some _ => mret tt
               end);
          mret (false, testRunners)
    end.

(** ** Triggering *)

(** The runners whose test is not triggered yet, with their places. *)
Fixpoint untriggered (queue : Queue) (i : nat) (testRunners : list (option (StagingTestRunner W)))
    : Staging (W:=W) (list (nat * StagingTestRunner W)) :=
  match testRunners with
  | [] => mret []
  | testRunner :: rest =>
      do runner <- deref testRunner;
      do others <- untriggered queue (S i) rest;
      mret (if str_IsTriggered runner queue then others else (i, runner) :: others)
  end.

(** What a goroutine of [triggerTest] does.  It writes its error at the place that the
    loop variable, which it shares, has reached by then. *)
Definition trigger_runner (testConfig : option ConfigTestRunner) (p : nat * StagingTestRunner W)
    (errs : list (option error)) : Staging (W:=W) (list (option error)) :=
  let (i, runner) := p in
  do r <- attempt (on_held (str_Trigger runner testConfig));
  match r with
  | inl err =>
      do ahead <- onW (fun w => match rt_choose (length errs - i) w with (k, w') => (Ok k, w') end);
      mret (<[(i + ahead)%nat := Some err]> errs)
  | inr _ =>
      run (if String.eqb (str_GetName runner) TeamcityRunnerName then
             mod_status (fun s => s <| qst_TestRunner ::= fun t =>
               t <| trn_Teamcity ::= fun tc => tc <| tmc_BuildNumber := "Build cannot be triggered in time" |> |> |>)
           else mret tt);
      mret errs
  end.
Fixpoint trigger_all (testConfig : option ConfigTestRunner) (runners : list (nat * StagingTestRunner W))
    (errs : list (option error)) : Staging (W:=W) (list (option error)) :=
  match runners with
  | [] => mret errs
  | p :: rest => do errs <- trigger_runner testConfig p errs; trigger_all testConfig rest errs
  end.
Fixpoint first_error (errs : list (option error)) : option error :=
  match errs with
  | [] => None
  | Some err :: _ => Some err
  | None :: rest => first_error rest
  end.

Definition triggerTest (testRunners : list (option (StagingTestRunner W))) : Staging (W:=W) unit :=
  do queue <- the_queue;
  do testConfig <- onW (getTestConfiguration c queue);
  do runners <- untriggered queue 0 testRunners;
  do runners <- onW (in_finish_order runners);
  do errs <- trigger_all testConfig runners (replicate (length testRunners) None);
  match first_error errs with Some err => throw err | None => mret tt end.

(** ** Results *)

Definition classify (isResultSuccess isBuildFinished : bool) : testResult :=
  if negb isBuildFinished then testResultUnknown
  else if negb isResultSuccess then testResultFailure
  else testResultSuccess.

(** The loop over the retries is not left when an answer comes: the last one counts. *)
Fixpoint get_result (retries : nat) (testConfig : option ConfigTestRunner) (testRunner : StagingTestRunner W)
    : Staging (W:=W) (testResult * option error) :=
  do ' (isResultSuccess, isBuildFinished, err) <- on_held (str_GetResult testRunner testConfig);
  match err, retries with
  | Some err, O => mret (testResultUnknown, Some err)
  | Some err, S retries =>
      if (isBuildFinished : bool) then mret (testResultUnknown, Some err)
      else get_result retries testConfig testRunner
  | None, O => mret (classify isResultSuccess isBuildFinished, None)
  | None, S retries => get_result retries testConfig testRunner
  end.

Definition getTestResult (testRunner : StagingTestRunner W) : Staging (W:=W) (testResult * option error) :=
  do queue <- the_queue;
  do config <- onW (getTestConfiguration c queue);
  do config <- deref config;
  run (if tr_PollingTime config =? 0 then mret tt
       else do config <- onW (getTestConfiguration c queue); run deref config; mret tt);
  do testConfig <- onW (getTestConfiguration c queue);
  get_result testResultRetry testConfig testRunner.

Definition setTestResultCondition (testRunnerName : string) (res : testResult) : Staging (W:=W) unit :=
  let set condType :=
    let '(cond, message) := match res with
                            | testResultUnknown => (ConditionFalse, "unable to get result from runner")
                            | testResultFailure => (ConditionFalse, "queue testing failed")
                            | testResultSuccess => (ConditionTrue, "queue testing succeeded")
                            end in
    run stage_cond condType cond message; updateQueue in
  if String.eqb testRunnerName GitlabRunnerName then set QueueGitlabTestResult
  else if String.eqb testRunnerName TeamcityRunnerName then set QueueTeamcityTestResult
  else mret tt.

(** The report that the tests are running, [retries] times again when it fails. *)
Fixpoint send_pending (retries : nat) : Staging (W:=W) unit :=
  do queue <- the_queue;
  do r <- attempt (onW (rpc_RunPostPullRequestQueueTestRunnerTrigger
    (mkTeamWithPullRequest (sg_teamName c)
       (GenPullRequestBundleName (qs_Name (queue_Spec queue)) (qs_PRNumber (queue_Spec queue))) "" ""
       (GenStagingNamespace (sg_teamName c)) 0 [])));
  match r with
  | inl err =>
      run stage_cond QueueTestPendingStatusSent ConditionFalse "cannot send queue test pending status";
      run ignore_error updateQueue;
      match retries with O => throw err | S retries => send_pending retries end
  | inr _ =>
      run stage_cond QueueTestPendingStatusSent ConditionTrue "queue test pending status has been sent";
      updateQueue
  end.
Definition sendTestPendingResult : Staging (W:=W) unit :=
  if sg_s2hClient c then send_pending sendTestPendingRetry else go_panic NilDereference.

(** What the loop over the runners has found so far. *)
Record verdict := mkVerdict {
  v_cond : ConditionStatus;
  v_message : string;
  v_finished : bool;
  v_trigger_msg : string;
}.
#[export] Instance eta_verdict : Eta verdict := fun x =>
  mkVerdict (v_cond x) (v_message x) (v_finished x) (v_trigger_msg x).

Definition poll_runner (testRunner : option (StagingTestRunner W)) (v : verdict) : Staging (W:=W) verdict :=
  do runner <- deref testRunner;
  do queue <- the_queue;
  if negb (str_IsTriggered runner queue) then
    mret (v <| v_trigger_msg ::= fun m => m +:+ "cannot trigger test on " +:+ str_GetName runner +:+ ", " |>)
  else
    do ' (res, err) <- getTestResult runner;
    if bool_decide (res = testResultUnknown) && match err with None => true | Some _ => false end
    then mret (v <| v_finished := false |>)
    else
      run setTestResultCondition (str_GetName runner) res;
      mret (if bool_decide (res = testResultSuccess) then v
            else v <| v_cond := ConditionFalse |>
                   <| v_message := if String.eqb (v_trigger_msg v) "" then "queue testing failed"
                                   else TrimSuffix (v_trigger_msg v) ", " |>).
Fixpoint poll_runners (testRunners : list (option (StagingTestRunner W))) (v : verdict) : Staging (W:=W) verdict :=
  match testRunners with
  | [] => mret v
  | testRunner :: rest => do v <- poll_runner testRunner v; poll_runners rest v
  end.

Definition startTesting : Staging (W:=W) unit :=
  do queue <- the_queue;
  do testConfig <- onW (getTestConfiguration c queue);
  let testingTimeout := match testConfig with
                        | Some config => if tr_Timeout config =? 0 then testTimeout else tr_Timeout config
                        | None => testTimeout
                        end in
  run checkTestTimeout testingTimeout;
  do ' (skipTest, testRunners) <- checkTestConfig;
  if (skipTest : bool) then mret tt else
  do queue <- the_queue;
  do in_time <- (match qst_StartTestingTime (queue_Status queue) with
                 | Some start => do t <- onW now; mret (time_sub t start <=? testTriggerTimeout)
                 | None => mret false
                 end);
  run (if negb (IsConditionTrue (queue_Status queue) QueueTestTriggered) && in_time
       then triggerTest testRunners else mret tt);
  run stage_cond QueueTestTriggered ConditionTrue "queue testing triggered";
  run updateQueue;
  do queue <- the_queue;
  run (if bool_decide (qs_Type (queue_Spec queue) = QueueTypePullRequest) &&
          negb (IsContains (queue_Status queue) QueueTestPendingStatusSent)
       then sendTestPendingResult else mret tt);
  do v <- poll_runners testRunners (mkVerdict ConditionTrue "queue testing succeeded" true "");
  if v_finished v then updateTestQueueCondition (v_cond v) (v_message v) else mret tt.
End testing.
