(* ===== verification/StgCollect.v ===== *)
(** Model of [internal/staging/collect_result.go]: the issues of a deployment, the stable
    components of a success, and the report of a queue.  The histories of queues are in
    [StgUtil]; the zip file with the logs is a parameter. *)

From S2P Require Import Prelude.
From S2P Require Import GoRuntime.
From S2P Require Import Errors.
From S2P Require Import KubeApi.
From S2P Require Import ConfigTypes.
From S2P Require Import ComponentTypes.
From S2P Require Import QueueTypes.
From S2P Require Import RpcTypes.
From S2P Require Import QueueCtrl.
From S2P Require Import TeamTypes.
From S2P Require Import Interfaces.
From S2P Require Import StgTypes.
From S2P Require Import StgUtil.
Open Scope string_scope.
Open Scope list_scope.
Open Scope Z_scope.

(** [strings.ReplaceAll(s, old, "")]; [skip] characters belong to the occurrence that was
    found last. *)
Fixpoint remove_from (old : string) (skip : nat) (s : string) : string :=
  match s with
  | EmptyString => EmptyString
  | String ch s' =>
      match skip with
      | S skip => remove_from old skip s'
      | O => if negb (String.eqb old "") && String.prefix old s
             then remove_from old (String.length old - 1) s'
             else String ch (remove_from old 0 s')
      end
  end.
Definition remove_all (old s : string) : string := remove_from old 0 s.

(** ** The issues of a deployment *)

(** The map from the type of an issue to the components that have it. *)
Definition issues_map : Type := gmap string DeploymentIssue.
Definition appendDeploymentIssues (issueType : DeploymentIssueType) (failureComp : FailureComponent)
    (issuesMaps : issues_map) : issues_map :=
  <[issue_type_string issueType :=
      mkDeploymentIssue issueType
        (match issuesMaps !! issue_type_string issueType with
         | Some issue => di_FailureComponents issue ++ [failureComp]
         | None => [failureComp]
         end)]> issuesMaps.

(** The issue of a container that is not ready. *)
Definition container_issue (containerStatus : ContainerStatus) : DeploymentIssueType :=
  let waiting :=
    match cts_Waiting containerStatus with
    | None => None
    | Some reason =>
        if String.eqb reason "ImagePullBackOff" || String.eqb reason "ErrImagePull"
        then Some DeploymentIssueImagePullBackOff
        else if String.eqb reason "CrashLoopBackOff" || String.eqb reason "Error"
        then Some DeploymentIssueCrashLoopBackOff
        else if String.eqb reason "ContainerCreating" then Some DeploymentIssueContainerCreating
        else None
    end in
  match waiting with
  | Some issue => issue
  | None =>
      if cts_Running containerStatus then
        if 0 <? cts_RestartCount containerStatus then DeploymentIssueCrashLoopBackOff
        else DeploymentIssueReadinessProbeFailed
      else DeploymentIssueUndefined
  end.

Definition not_ready (l : list ContainerStatus) : option ContainerStatus :=
  List.find (fun s => negb (cts_Ready s)) l.
Definition owned_by_job (refs : list OwnerReference) : bool :=
  existsb (fun podRef => String.eqb (string_lower (or_Kind podRef)) "job") refs.

(** The issue of a pod, and the container that has it first. *)
Definition pod_issue (pod : PodBody) : option (DeploymentIssueType * option ContainerStatus) :=
  match not_ready (pod_InitContainerStatuses pod) with
  | Some status => Some (DeploymentIssueWaitForInitContainer, Some status)
  | None =>
      match not_ready (pod_ContainerStatuses pod) with
      | Some status => Some (container_issue status, Some status)
      | None =>
          if bool_decide (pod_Phase pod = PodPending) then Some (DeploymentIssuePending, None)
          else if bool_decide (pod_Phase pod = PodRunning) then None
          else Some (DeploymentIssueUndefined, None)
      end
  end.

Section collect.
Context {W : Type} `{GR : GoRuntime W} `{GS : GoSort} `{GD : GoDuration}.
Context `{CFG : ConfigController W} `{RPC : SamsahaiRPC W} `{SC : StagingCluster W} `{SO : StagingOutside W}.
Context (c : staging W).

(** The owner of the pod's replica set, or its last owner before one, or the pod. *)
Fixpoint owner_name (ns : string) (refs : list OwnerReference) (compName : string) : M W string :=
  match refs with
  | [] => mret compName
  | podRef :: rest =>
      if String.eqb (string_lower (or_Kind podRef)) "replicaset" then
        do r <- attempt (k_get (KubeObj ReplicaSetKind) (ns, or_Name podRef));
        mret (match r with
              | inl _ => compName
              | inr rs => fold_left (fun _ rsRef => or_Name rsRef) (om_OwnerReferences (ko_Meta rs)) compName
              end)
      else owner_name ns rest (or_Name podRef)
  end.
Definition extractComponentNameFromPod (pod : KubeObj PodKind) : M W string :=
  do compName <- owner_name (kns pod) (om_OwnerReferences (ko_Meta pod)) (kname pod);
  mret (if String.eqb (kns pod) "" then compName else remove_all (kns pod +:+ "-") compName).

Definition pod_issues (pod : KubeObj PodKind) (issuesMaps : issues_map) : M W issues_map :=
  do compName <- extractComponentNameFromPod pod;
  if owned_by_job (om_OwnerReferences (ko_Meta pod)) then mret issuesMaps else
  mret (match pod_issue (pod_of pod) with
        | None => issuesMaps
        | Some (issueType, container) =>
            let failureComp :=
              match container with
              | Some s => mkFailureComponent compName (cts_Name s) (cts_RestartCount s) (pod_NodeName (pod_of pod))
              | None => mkFailureComponent compName "" 0 (pod_NodeName (pod_of pod))
              end in
            appendDeploymentIssues issueType failureComp issuesMaps
        end).
Definition job_issues (issuesMaps : issues_map) (job : KubeObj JobKind) : issues_map :=
  match job_CompletionTime (job_of job) with
  | Some _ => issuesMaps
  | None => appendDeploymentIssues DeploymentIssueJobNotComplete
              (mkFailureComponent (kname job) "" (job_Failed (job_of job)) "") issuesMaps
  end.
Fixpoint pods_issues (pods : list (KubeObj PodKind)) (issuesMaps : issues_map) : M W issues_map :=
  match pods with
  | [] => mret issuesMaps
  | pod :: rest => do issuesMaps <- pod_issues pod issuesMaps; pods_issues rest issuesMaps
  end.
Definition extractDeploymentIssues (pods : list (KubeObj PodKind)) (jobs : list (KubeObj JobKind))
    (issuesMaps : issues_map) : M W issues_map :=
  do issuesMaps <- pods_issues pods issuesMaps;
  mret (fold_left job_issues jobs issuesMaps).

Definition convertToDeploymentIssues (issuesMaps : issues_map) : M W (list DeploymentIssue) :=
  do issues <- range_map issuesMaps; mret (map snd issues).

(** The issues of the components in the order [comps]. *)
Fixpoint component_issues (deployEngine : DeployEngine W) (comps : list string) (issuesMaps : issues_map)
    : M W issues_map :=
  match comps with
  | [] => mret issuesMaps
  | parentComp :: rest =>
      let selectors := de_GetLabelSelectors deployEngine (GenReleaseName parentComp) in
      if bool_decide (selectors = ∅) then component_issues deployEngine rest issuesMaps else
      let listOpt := mkListOptions (sg_namespace c) selectors in
      do pods <- k_list (KubeObj PodKind) listOpt;
      do jobs <- k_list (KubeObj JobKind) listOpt;
      do issuesMaps <- extractDeploymentIssues pods jobs issuesMaps;
      component_issues deployEngine rest issuesMaps
  end.
Definition setDeploymentIssues : Staging (W:=W) unit :=
  do queue <- the_queue;
  do deployEngine <- onW (getDeployEngine c queue);
  do parentComps <- onW (cfg_GetParentComponents (sg_teamName c));
  do comps <- onW (range_map parentComps);
  do issuesMaps <- onW (component_issues deployEngine (map fst comps) ∅);
  do deploymentIssues <- onW (convertToDeploymentIssues issuesMaps);
  mod_status (SetDeploymentIssues deploymentIssues).

(** ** Stable components *)

Definition stable_of (t : Z) (namespace : string) (qComp : QueueComponent) : StableComponent :=
  mkStableComponent
    ((namedMeta namespace (qc_Name qComp)) <| om_Labels := <["app" := qc_Name qComp]> (GetDefaultLabels (sg_teamName c)) |>)
    (mkStableComponentSpec (qc_Name qComp) (qc_Repository qComp) (qc_Version qComp) "samsahai")
    (mkStableComponentStatus (Some t) (Some t)).

Definition set_stable (namespace : string) (qComp : QueueComponent) : M W unit :=
  do r <- attempt (k_get StableComponent (namespace, qc_Name qComp));
  match r with
  | inl err =>
      if IsNotFound err then do t <- now; k_create (stable_of t namespace qComp) else throw err
  | inr stableComp =>
      if String.eqb (sc_Version (stable_Spec stableComp)) (qc_Version qComp) &&
         String.eqb (sc_Repository (stable_Spec stableComp)) (qc_Repository qComp) then mret tt
      else k_update (stableComp <| stable_Spec ::= fun s =>
        s <| sc_Repository := qc_Repository qComp |> <| sc_Version := qc_Version qComp |>
          <| sc_UpdatedBy := "samsahai" |> |>)
  end.
Definition setStableComponent (queue : Queue) : M W unit :=
  for_each (qs_Components (queue_Spec queue)) (set_stable (kns queue)).

(** ** The report *)

Definition sendComponentUpgradeReport (status : UpgradeStatus) (q : Queue) : M W unit :=
  let comp := GetComponentUpgradeRPCFromQueue status (qst_QueueHistoryName (queue_Status q)) (sg_namespace c) q None in
  if sg_s2hClient c then wrapping "cannot send component upgrade report" (rpc_RunPostComponentUpgrade comp)
  else mret tt.

Definition setStableAndSendReport (queue : Queue) : M W unit :=
  if IsDeploySuccess queue && IsTestSuccess queue && negb (IsReverify queue) then
    run setStableComponent queue;
    sendComponentUpgradeReport UpgradeStatus_SUCCESS queue
  else sendComponentUpgradeReport UpgradeStatus_FAILURE queue.

Definition collectResult : Staging (W:=W) unit :=
  do queue <- the_queue;
  run (if String.eqb (qst_KubeZipLog (queue_Status queue)) "" then
         do logZip <- onW (sgo_createDeploymentZipLogs queue);
         run mod_status (fun s => s <| qst_KubeZipLog := logZip |>);
         updateQueue
       else mret tt);
  run setDeploymentIssues;
  do queue <- the_queue;
  if IsActivePromotionQueue queue || IsPullRequestQueue queue then updateQueueWithState c Finished
  else
    run onW (createQueueHistory c queue);
    run onW (setStableAndSendReport queue);
    run stage_cond QueueCleaningAfterStarted ConditionTrue "starts cleaning the namespace after running task";
    updateQueueWithState c CleaningAfter.
End collect.
