(* ===== verification/StgCtrl.v ===== *)
(** Model of the loop of the staging controller, [internal/staging/controller.go]: a queue
    is picked, and every turn of [process] takes it one step further.  The clean-up that it
    waits for is in [Cleanup].

    A turn runs on the cluster and on [currentQueue]; the controller of the queues is the
    one of [QueueCtrl]. *)

From S2P Require Import Prelude.
From S2P Require Import GoRuntime.
From S2P Require Import Errors.
From S2P Require Import KubeApi.
From S2P Require Import ConfigTypes.
From S2P Require Import ComponentTypes.
From S2P Require Import QueueTypes.
From S2P Require Import RpcTypes.
From S2P Require Import QueueCtrl.
From S2P Require Import Interfaces.
From S2P Require Import ConfigCtrl.
From S2P Require Import Cleanup.
From S2P Require Import StgTypes.
From S2P Require Import StgUtil.
From S2P Require Import StgDeploy.
From S2P Require Import StgTest.
From S2P Require Import StgCollect.
Open Scope string_scope.
Open Scope list_scope.
Open Scope Z_scope.

(** ** Engines and runners *)

Section loading.
Context {W : Type}.

(** The mock engine, and that of Helm. *)
Definition loadDeployEngines (helm3 : DeployEngine W) : gmap string (DeployEngine W) :=
  <[de_GetName helm3 := helm3]> {[ de_GetName (MockEngine (W:=W)) := MockEngine ]}.
(** The runners that are configured. *)
Definition loadTestRunners (testmock : StagingTestRunner W) (teamcity gitlab : option (StagingTestRunner W))
    : gmap string (StagingTestRunner W) :=
  let load r m := match r with Some r => <[str_GetName r := r]> m | None => m end in
  load gitlab (load teamcity (load (Some testmock) ∅)).

Definition LoadTestRunner (runner : StagingTestRunner W) (c : staging W) : staging W :=
  if String.eqb (str_GetName runner) "" then c else
  mkStaging (sg_deployEngines c) (<[str_GetName runner := runner]> (sg_testRunners c)) (sg_teamName c)
    (sg_namespace c) (sg_queueCtrl c) (sg_s2hClient c) (sg_MaxHistoryDays c).
Definition LoadDeployEngine (engine : DeployEngine W) (c : staging W) : staging W :=
  if String.eqb (de_GetName engine) "" then c else
  mkStaging (<[de_GetName engine := engine]> (sg_deployEngines c)) (sg_testRunners c) (sg_teamName c)
    (sg_namespace c) (sg_queueCtrl c) (sg_s2hClient c) (sg_MaxHistoryDays c).
Definition NewController (teamName namespace : string) (s2hClient : bool) (queueCtrl : QueueCtrl.controller)
    (helm3 : DeployEngine W) (testmock : StagingTestRunner W) (teamcity gitlab : option (StagingTestRunner W))
    (maxHistoryDays : Z) : staging W :=
  mkStaging (loadDeployEngines helm3) (loadTestRunners testmock teamcity gitlab) teamName namespace queueCtrl
    s2hClient maxHistoryDays.
End loading.

Section controller.
Context {W : Type} `{GR : GoRuntime W} `{GS : GoSort} `{GD : GoDuration} `{GO : GoSchedule W}.
Context `{CFG : ConfigController W} `{RPC : SamsahaiRPC W} `{SC : StagingCluster W} `{SO : StagingOutside W}.
Context `{CO : ConfigOutside W}.
Context (c : staging W).

Definition generateQueueHistoryName (queueName : string) : M W string :=
  do t <- now; mret (queueName +:+ "-" +:+ rt_stamp (W:=W) t).

(** ** The steps *)

Definition initQueue : Staging (W:=W) unit :=
  do q <- the_queue;
  do deployConfig <- onW (getDeployConfiguration c q);
  match deployConfig with
  | None => throw (Errors.New ("cannot get deployment configuration, namespace: " +:+ sg_namespace c +:+
                        ", queue: " +:+ kname q))
  | Some deployConfig =>
      run mod_status (fun s => s <| qst_NoOfProcessed ::= fun n => int_add n 1 |>);
      do name <- onW (generateQueueHistoryName (kname q));
      run mod_status (fun s => s <| qst_QueueHistoryName := name |>);
      run (match cd_Engine deployConfig with
           | Some engine =>
               if bool_decide (is_Some (sg_deployEngines c !! engine))
               then mod_status (fun s => s <| qst_DeployEngine := engine |>)
               else mret tt
           | None => mret tt
           end);
      run stage_cond QueueCleaningBeforeStarted ConditionTrue
        "starts cleaning the namespace before running task";
      updateQueueWithState c CleaningBefore
  end.

(** The releases of all components go, again with every turn until they are gone; the
    errors of the engine are logged. *)
Definition clean (started cleaned : QueueConditionType) (next : QueueState) : Staging (W:=W) unit :=
  do queue <- the_queue;
  do deployEngine <- onW (getDeployEngine c queue);
  do parentComps <- onW (cfg_GetParentComponents (sg_teamName c));
  run (if IsConditionTrue (queue_Status queue) cleaned then mret tt
       else
         do comps <- onW (range_map parentComps);
         onW (for_each comps (fun comp => ignore_error (de_Delete deployEngine (GenReleaseName (fst comp))))));
  do deployConfig <- onW (getDeployConfiguration c queue);
  let cleanupTimeout := match deployConfig with Some d => cd_ComponentCleanupTimeout d | None => 0 end in
  do isCleaned <- onW (WaitForComponentsCleaned deployEngine parentComps (sg_namespace c)
                         (GetConditionLatestTime (queue_Status queue) started) cleanupTimeout);
  if negb isCleaned then mret tt else
  run stage_cond cleaned ConditionTrue "namespace cleaned";
  updateQueueWithState c next.
Definition cleanBefore : Staging (W:=W) unit :=
  clean QueueCleaningBeforeStarted QueueCleanedBefore DetectingImageMissing.
Definition cleanAfter : Staging (W:=W) unit :=
  clean QueueCleaningAfterStarted QueueCleanedAfter Deleting.

Definition cancelQueue : Staging (W:=W) unit := clearCurrentQueue.

(** One step of the queue. *)
Definition is_switch (t : QueueType) : bool :=
  match t with QueueTypePromoteToActive | QueueTypeDemoteFromActive => true | _ => false end.
Definition step_queue : Staging (W:=W) unit :=
  do queue <- the_queue;
  let state := qst_State (queue_Status queue) in
  if is_switch (qs_Type (queue_Spec queue)) then
    match state with
    | OtherQueueState "" | Waiting =>
        run mod_status (fun s => s <| qst_NoOfProcessed ::= fun n => int_add n 1 |>);
        updateQueueWithState c DetectingImageMissing
    | DetectingImageMissing => detectImageMissing c
    | Creating => deployEnvironment c
    | Testing => updateQueueWithState c Collecting
    | Collecting => collectResult c
    | Cancelling => cancelQueue
    | _ => mret tt
    end
  else
    match state with
    | OtherQueueState "" | Waiting => initQueue
    | CleaningBefore => cleanBefore
    | DetectingImageMissing => detectImageMissing c
    | Creating => deployEnvironment c
    | Testing => startTesting c
    | Collecting => collectResult c
    | CleaningAfter => cleanAfter
    | Deleting => StgUtil.deleteQueue c
    | Cancelling => cancelQueue
    | _ => mret tt
    end.

(** ** The loop *)

Definition IsBusy (currentQueue : option Queue) : bool :=
  match currentQueue with Some _ => true | None => false end.

Definition isQueueStateValid (q : Queue) : bool :=
  negb (bool_decide (qst_State (queue_Status q) = Deleting)) &&
  negb (bool_decide (qst_State (queue_Status q) = Cancelling)).

(** What the cluster has of the queue; a queue that is gone was cancelled by its user. *)
Definition syncQueueWithK8s (q : Queue) : M W Queue :=
  do r <- attempt (k_get Queue (kns q, kname q));
  match r with
  | inl err =>
      if IsNotFound err then do t <- now; mret (SetState t Cancelling q)
      else throw err
  | inr fetched => mret fetched
  end.

(** A turn of the loop, with [currentQueue] before and after: whether the next one follows
    at once. *)
Definition process (currentQueue : option Queue) : M W (bool * option Queue) :=
  do r <- (match currentQueue with
           | Some q => mret (inr (Some q))
           | None => attempt (FirstQueue (sg_queueCtrl c) (sg_namespace c))
           end);
  match r with
  | inl _ => mret (false, None)
  | inr None => mret (true, None)
  | inr (Some q) =>
      do r <- (if isQueueStateValid q then attempt (syncQueueWithK8s q) else mret (inr q));
      match r with
      | inl _ => mret (false, Some q)
      | inr q =>
          do ' (r, h) <- with_obj (mkHolding q true) (attempt step_queue);
          mret (match r with inl _ => true | inr _ => false end,
                if h_held h then Some (h_queue h) else None)
      end
  end.
End controller.
