(* ===== verification/StgRunners.v ===== *)
(** Model of the test runners [internal/staging/testrunner/*/testrunner.go]: they implement
    the interface [StagingTestRunner].  The requests to the servers, with what they send
    and what is read of the answers, are parameters. *)

From S2P Require Import Prelude.
From S2P Require Import GoRuntime.
From S2P Require Import Errors.
From S2P Require Import KubeApi.
From S2P Require Import ConfigTypes.
From S2P Require Import QueueTypes.
From S2P Require Import TeamTypes.
From S2P Require Import StgTypes.
From S2P Require Import StgTest.
Open Scope string_scope.
Open Scope list_scope.
Open Scope Z_scope.

(** ** The servers *)

Record teamcityRequest := mkTeamcityRequest {
  tq_BranchName : string;
  tq_BuildTypeID : string;
  tq_Properties : list (string * string);
}.
Record gitlabRequest := mkGitlabRequest { gq_Variables : gmap string string; gq_Token : string }.
(** The answer to a request for a result. *)
Record teamcityResult := mkTeamcityResult { tr_BuildNumber : string; tr_State : string; tr_Status : string }.
Record gitlabResult := mkGitlabResult { gr_StartedAt : string; gr_FinishedAt : string; gr_Status : string }.

(** Encoding a request, sending it and decoding the answer; the template of a branch name;
    [url.QueryEscape]; the version and the commit of the program. *)
Class RunnerServers (W : Type) := {
  srv_teamcity_post : string -> teamcityRequest -> M W string;             (* the build *)
  srv_teamcity_get : string -> M W teamcityResult;
  srv_gitlab_post : string -> gitlabRequest -> M W (Z * string);           (* the pipeline and its page *)
  srv_gitlab_get : string -> M W (Z * (error + string));                   (* the status and the body *)
  srv_gitlab_decode : string -> error + gitlabResult;
  srv_TextRender : string -> string -> string;                             (* the template, the number *)
  srv_QueryEscape : string -> string;
  srv_Version : string;
  srv_GitCommit : string;
}.

Definition teamcity_base : string := "httpAuth/app/rest".
Definition gitlab_base : string := "api/v4/projects".

Section runners.
Context {W : Type} `{GO : GoSchedule W} `{KQ : KClient W Queue} `{RS : RunnerServers W}.

(** What both runners do first. *)
Definition needs_config {A} (testConfig : option ConfigTestRunner) (k : ConfigTestRunner -> M (W * Queue) A)
    : M (W * Queue) A :=
  match testConfig with
  | None => do q <- get_obj; throw (Wrap ErrTestConfigurationNotFound
              ("test configuration should not be nil. queue: " +:+ kname q))
  | Some config => k config
  end.
Definition no_config (q : Queue) : bool * bool * option error :=
  (false, true, Some (Wrap ErrTestConfigurationNotFound
                        ("test configuration should not be nil. queue: " +:+ kname q))).

(** The branch of a pull request, when its template gives one. *)
Definition branch_name (branch prNumber : string) : string :=
  if String.eqb prNumber "" then branch else
  let rendered := srv_TextRender (W:=W) branch prNumber in
  if String.eqb rendered "" then branch else rendered.
Definition comp_version (q : Queue) : string :=
  match qs_Components (queue_Spec q) with
  | [qComp] => qc_Version qComp
  | _ => "multiple-components"
  end.

(** The goroutine does its work, and the caller may have given up by then. *)
Definition within_time (m : M (W * Queue) unit) : M (W * Queue) unit :=
  do r <- attempt m;
  do timeout <- onW coin;
  if (timeout : bool) then throw ErrRequestTimeout
  else match r with inl err => throw err | inr _ => mret tt end.
Definition store_queue (has_client : bool) : M (W * Queue) unit :=
  if has_client then do q <- get_obj; onW (k_update q) else mret tt.

(** ** Teamcity *)

Definition properties (param env reverse value : string) : list (string * string) :=
  [(param, value); (env, value); (reverse, value)].
Definition teamcity_properties (q : Queue) : list (string * string) :=
  properties "s2hEnvType" "env.S2H_ENV_TYPE" "reverse.dep.*.s2hEnvType" (GetEnvType q) ++
  properties "s2hNamespace" "env.S2H_NAMESPACE" "reverse.dep.*.s2hNamespace" (kns q) ++
  properties "s2hVersion" "env.S2H_VERSION" "reverse.dep.*.s2hVersion" (srv_Version (W:=W)) ++
  properties "s2hTeam" "env.S2H_TEAM" "reverse.dep.*.s2hTeam" (qs_TeamName (queue_Spec q)) ++
  properties "s2hGitCommit" "env.S2H_GIT_COMMIT" "reverse.dep.*.s2hGitCommit" (srv_GitCommit (W:=W)) ++
  properties "s2hComponentName" "env.S2H_COMPONENT_NAME" "reverse.dep.*.s2hComponentName" (kname q) ++
  properties "s2hComponentVersion" "env.S2H_COMPONENT_VERSION" "reverse.dep.*.s2hComponentVersion" (comp_version q) ++
  properties "s2hQueueType" "env.S2H_QUEUE_TYPE" "reverse.dep.*.s2hQueueType" (GetQueueType q).

Definition teamcity_trigger (baseURL : string) (has_client : bool) (testConfig : option ConfigTestRunner)
    : M (W * Queue) unit :=
  needs_config testConfig (fun config =>
    do teamcity <- deref (tr_Teamcity config);
    do q <- get_obj;
    let branchName := branch_name (tc_Branch teamcity) (qs_PRNumber (queue_Spec q)) in
    let buildTypeID := tc_BuildTypeID teamcity in
    within_time (
      do buildID <- onW (srv_teamcity_post (baseURL +:+ "/" +:+ teamcity_base +:+ "/buildQueue")
        (mkTeamcityRequest branchName buildTypeID (teamcity_properties q)));
      let buildURL := baseURL +:+ "/viewLog.html?buildId=" +:+ buildID +:+ "&buildTypeId=" +:+ buildTypeID in
      run mod_obj (fun q => q <| queue_Status ::= fun s => s <| qst_TestRunner ::= fun t =>
        t <| trn_Teamcity ::= SetTeamcity branchName buildID buildTypeID buildURL |> |> |>);
      store_queue has_client)).

Definition teamcity_triggered (q : Queue) : bool :=
  negb (String.eqb (tmc_BuildID (trn_Teamcity (qst_TestRunner (queue_Status q)))) "").

Definition teamcity_result (baseURL : string) (testConfig : option ConfigTestRunner)
    : M (W * Queue) (bool * bool * option error) :=
  do q <- get_obj;
  match testConfig with
  | None => mret (no_config q)
  | Some config =>
      let buildID := tmc_BuildID (trn_Teamcity (qst_TestRunner (queue_Status q))) in
      do teamcity <- deref (tr_Teamcity config);
      if negb (teamcity_triggered q) then
        mret (false, true, Some (Wrap ErrTestPipelineIDNotFound
          ("cannot get test result. buildId: '" +:+ buildID +:+ "'. queue: " +:+ kname q)))
      else
        do r <- attempt (onW (srv_teamcity_get (baseURL +:+ "/httpAuth/app/rest/builds/id:" +:+ buildID +:+
          "?locator=buildType:" +:+ tc_BuildTypeID teamcity)));
        match r with
        | inl err => mret (false, false, Some err)
        | inr response =>
            run mod_obj (fun q => q <| queue_Status ::= fun s => s <| qst_TestRunner ::= fun t =>
              t <| trn_Teamcity ::= fun t => t <| tmc_BuildNumber := "#" +:+ tr_BuildNumber response |> |> |> |>);
            mret (EqualFold "success" (tr_Status response), EqualFold "finished" (tr_State response), None)
        end
  end.

Definition teamcity_runner (baseURL : string) (has_client : bool) : StagingTestRunner W := {|
  str_GetName := TeamcityRunnerName;
  str_Trigger := teamcity_trigger baseURL has_client;
  str_GetResult := teamcity_result baseURL;
  str_IsTriggered := teamcity_triggered;
|}.

(** ** Gitlab *)

Definition gitlab_variables (q : Queue) : gmap string string :=
  {[ "s2hEnvType" := GetEnvType q; "s2hNamespace" := kns q; "s2hVersion" := srv_Version (W:=W);
     "s2hTeam" := qs_TeamName (queue_Spec q); "s2hGitCommit" := srv_GitCommit (W:=W);
     "s2hComponentName" := kname q; "s2hComponentVersion" := comp_version q; "s2hQueueType" := GetQueueType q ]}.

Definition gitlab_trigger (baseURL : string) (has_client : bool) (testConfig : option ConfigTestRunner)
    : M (W * Queue) unit :=
  needs_config testConfig (fun config =>
    do gitlab <- deref (tr_Gitlab config);
    do q <- get_obj;
    let branchName := branch_name (gl_Branch gitlab) (qs_PRNumber (queue_Spec q)) in
    within_time (
      do ' (id, webURL) <- onW (srv_gitlab_post
        (baseURL +:+ "/" +:+ gitlab_base +:+ "/" +:+ gl_ProjectID gitlab +:+ "/ref/" +:+
         srv_QueryEscape (W:=W) branchName +:+ "/trigger/pipeline")
        (mkGitlabRequest (gitlab_variables q) (gl_PipelineTriggerToken gitlab)));
      run mod_obj (fun q => q <| queue_Status ::= fun s => s <| qst_TestRunner ::= fun t =>
        t <| trn_Gitlab ::= SetGitlab branchName (pretty id) webURL ("#" +:+ pretty id) |> |> |>);
      store_queue has_client)).

Definition gitlab_triggered (q : Queue) : bool :=
  negb (String.eqb (git_PipelineID (trn_Gitlab (qst_TestRunner (queue_Status q)))) "").

(** An error of the server itself is no error of the result. *)
Definition gitlab_result (baseURL : string) (testConfig : option ConfigTestRunner)
    : M (W * Queue) (bool * bool * option error) :=
  do q <- get_obj;
  match testConfig with
  | None => mret (no_config q)
  | Some config =>
      do gitlab <- deref (tr_Gitlab config);
      let pipelineID := git_PipelineID (trn_Gitlab (qst_TestRunner (queue_Status q))) in
      if negb (gitlab_triggered q) then
        mret (false, true, Some (Wrap ErrTestPipelineIDNotFound
          ("cannot get test result. pipelineID: '" +:+ pipelineID +:+ "'. queue: " +:+ kname q)))
      else
        do ' (statusCode, resp) <- onW (srv_gitlab_get
          (baseURL +:+ "/" +:+ gitlab_base +:+ "/" +:+ gl_ProjectID gitlab +:+ "/pipelines/" +:+ pipelineID));
        match resp with
        | inl err => mret (if (500 <=? statusCode) && (statusCode <? 600) then (false, false, None)
                           else (false, false, Some err))
        | inr body =>
            match srv_gitlab_decode (W:=W) body with
            | inl err => mret (false, false, Some err)
            | inr response =>
                mret (EqualFold "success" (gr_Status response), negb (EqualFold "" (gr_FinishedAt response)), None)
            end
        end
  end.

Definition gitlab_runner (baseURL : string) (has_client : bool) : StagingTestRunner W := {|
  str_GetName := GitlabRunnerName;
  str_Trigger := gitlab_trigger baseURL has_client;
  str_GetResult := gitlab_result baseURL;
  str_IsTriggered := gitlab_triggered;
|}.
End runners.

(** ** The mock *)

Definition testmock_result {W} (testConfig : option ConfigTestRunner) : M (W * Queue) (bool * bool * option error) :=
  do q <- get_obj;
  match testConfig with
  | None => mret (no_config q)
  | Some config =>
      match tr_TestMock config with
      | None => mret (false, true, None)
      | Some mock => mret (tm_Result mock, true, None)
      end
  end.
Definition testmock_runner {W} : StagingTestRunner W := {|
  str_GetName := TestMockRunnerName;
  str_Trigger _ := mret tt;
  str_GetResult := testmock_result;
  str_IsTriggered _ := true;
|}.
