(* ===== verification/StgFrame.v ===== *)
(** What the steps of the staging controller leave alone: the part of a step that reads,
    deploys, tests or reports keeps every reading of the cluster that the engines, the test
    runners and the other parties keep. *)

From S2P Require Import Prelude.
From S2P Require Import GoRuntime.
From S2P Require Import Errors.
From S2P Require Import KubeApi.
From S2P Require Import Frame.
From S2P Require Import ConfigTypes.
From S2P Require Import ComponentTypes.
From S2P Require Import QueueTypes.
From S2P Require Import RpcTypes.
From S2P Require Import QueueCtrl.
From S2P Require Import Values.
From S2P Require Import Interfaces.
From S2P Require Import ConfigCtrl.
From S2P Require Import Cleanup.
From S2P Require Import StgTypes.
From S2P Require Import StgUtil.
From S2P Require Import StgDeploy.
From S2P Require Import StgTest.
From S2P Require Import StgCollect.
From S2P Require Import StgCtrl.
Open Scope string_scope.
Open Scope list_scope.
Open Scope Z_scope.

(** An engine works on the releases of Helm. *)
Class EngineFrame {W V : Type} (e : DeployEngine W) (v : W -> V) : Prop := {
  ef_create :: forall ref comp parent values timeout, Preserves (de_Create e ref comp parent values timeout) v;
  ef_rollback :: forall ref revision, Preserves (de_Rollback e ref revision) v;
  ef_histories :: forall ref, Preserves (de_GetHistories e ref) v;
  ef_delete :: forall ref, Preserves (de_Delete e ref) v;
  ef_force :: forall ref, Preserves (de_ForceDelete e ref) v;
  ef_releases :: Preserves (de_GetReleases e) v;
  ef_hook :: forall ref, Preserves (de_WaitForPreHookReady e ref) v;
}.
#[export] Instance mock_engine_frame {W V} (v : W -> V) : EngineFrame MockEngine v.
Proof. split; apply _. Qed.

Class StagingFrame (W : Type) `{GR : GoRuntime W, GO : GoSchedule W, CFG : ConfigController W, RPC : SamsahaiRPC W,
    SC : StagingCluster W, SO : StagingOutside W, CO : ConfigOutside W} (c : staging W) {V : Type} (v : W -> V)
    : Prop := {
  sf_runtime :: RuntimeFrame W v;
  sf_schedule :: ScheduleFrame W v;
  sf_hist :: KFrame W QueueHistory v;
  sf_objects :: forall k, KFrame W (KubeObj k) v;
  sf_stables :: forall opts, Preserves (k_list StableComponent opts) v;
  sf_engine name e : sg_deployEngines c !! name = Some e -> EngineFrame e v;
  sf_Get :: forall team, Preserves (cfg_Get team) v;
  sf_GetComponents :: forall team, Preserves (cfg_GetComponents team) v;
  sf_GetParent :: forall team, Preserves (cfg_GetParentComponents team) v;
  sf_GetPR :: forall team bundle deps, Preserves (cfg_GetPullRequestComponents team bundle deps) v;
  sf_GetBundles :: forall team, Preserves (cfg_GetBundles team) v;
  sf_active :: forall team, Preserves (rpc_GetTeamActiveNamespace team) v;
  sf_upgrade :: forall comp, Preserves (rpc_RunPostComponentUpgrade comp) v;
  sf_pending :: forall pr, Preserves (rpc_RunPostPullRequestQueueTestRunnerTrigger pr) v;
  sf_missing :: forall comps, Preserves (rpc_GetMissingVersions comps) v;
  sf_metric :: forall comp, Preserves (rpc_SendUpdateStateQueueMetric comp) v;
  sf_services :: forall team, Preserves (rpc_DeployActiveServicesIntoPullRequestEnvironment team) v;
  sf_client :: Preserves sgo_getRuntimeClient v;
  sf_zip :: forall q, Preserves (sgo_createDeploymentZipLogs q) v;
  sf_branch :: forall project mr, Preserves (sgo_GetMRSourceBranch project mr) v;
  sf_replicas :: forall d, Preserves (sgo_GetNewReplicaSet d) v;
  sf_http :: forall url, Preserves (co_http_Get url) v;
}.

(** A test runner works on the queue and on its server. *)
Class RunnerFrame {W V : Type} (r : StagingTestRunner W) (v : W -> V) : Prop := {
  rf_trigger :: forall cfg, Preserves (str_Trigger r cfg) (of_world v);
  rf_result :: forall cfg, Preserves (str_GetResult r cfg) (of_world v);
}.

Section frame.
Context {W : Type} `{GR : GoRuntime W} `{GS : GoSort} `{GD : GoDuration} `{GO : GoSchedule W}.
Context `{CFG : ConfigController W} `{RPC : SamsahaiRPC W} `{SC : StagingCluster W} `{SO : StagingOutside W}.
Context `{CO : ConfigOutside W} (c : staging W).
Context {V : Type} (v : W -> V) {SF : StagingFrame W c v}.

(** ** Configuration *)

#[export] Instance getConfiguration_preserves : Preserves (getConfiguration c) v.
Proof. unfold getConfiguration. preserves. Qed.
#[export] Instance getDeployConfiguration_preserves q : Preserves (getDeployConfiguration c q) v.
Proof. unfold getDeployConfiguration. preserves. Qed.
#[export] Instance getTestConfiguration_preserves q : Preserves (getTestConfiguration c q) v.
Proof. unfold getTestConfiguration, tryInferPullRequestGitlabBranch. preserves. Qed.
#[export] Instance getDeployEngine_preserves q : Preserves (getDeployEngine c q) v.
Proof. unfold getDeployEngine. preserves. Qed.

Lemma loaded_engine q w e w' : getDeployEngine c q w = (Ok e, w') -> EngineFrame e v.
Proof.
  unfold getDeployEngine.
  assert (forall name e', sg_deployEngines c !! name = Some e' -> EngineFrame e' v) as Hall
    by (intros name e'; apply sf_engine).
  destruct (if String.eqb _ _ then _ else _) as [e0|] eqn:He0.
  - intros [= <- _]. destruct (String.eqb _ _); [done|]. exact (Hall _ _ He0).
  - unfold mbind, M_bind. destruct (getDeployConfiguration c q w) as [[d|e1|p] w1]; [|done..].
    intros [= <- _].
    match goal with |- EngineFrame (match sg_deployEngines c !! ?n with _ => _ end) v => generalize n end. intros n.
    destruct (sg_deployEngines c !! n) eqn:He1; [exact (Hall _ _ He1)|].
    destruct (sg_deployEngines c !! EngineName) eqn:He2; [exact (Hall _ _ He2)|apply mock_engine_frame].
Qed.

#[export] Instance GetEnvComponentValues_preserves cfg name team env : Preserves (GetEnvComponentValues cfg name team env) v.
Proof.
  unfold GetEnvComponentValues. preserves.
Qed.
#[export] Instance GetEnvValues_preserves cfg env team : Preserves (GetEnvValues cfg env team) v.
Proof. unfold GetEnvValues. preserves. Qed.
#[export] Instance applyEnvBaseConfig_preserves cfg values qt comp team :
  Preserves (applyEnvBaseConfig cfg values qt comp team) v.
Proof. unfold applyEnvBaseConfig. preserves. Qed.

(** ** Deployment *)

#[export] Instance all_components_preserves q : Preserves (getAllComponentsFromQueueType (W:=W) c q) v.
Proof. unfold getAllComponentsFromQueueType. preserves. Qed.
#[export] Instance parent_comps_preserves q : Preserves (getParentAndQueueCompsFromQueueType c q) v.
Proof. unfold getParentAndQueueCompsFromQueueType. preserves. Qed.
#[export] Instance stable_map_preserves q : Preserves (getStableComponentsMapFromQueueType c q) v.
Proof.
  unfold getStableComponentsMapFromQueueType, getTeamActiveNamespace, GetStableComponentsMap. preserves.
Qed.

Section engine.
Context (e : DeployEngine W) {EF : EngineFrame e v}.

#[export] Instance deploy_others_preserves q parents stables timeout :
  Preserves (deployComponentsExceptQueue c e q parents stables timeout) v.
Proof. unfold deployComponentsExceptQueue. preserves. Qed.
#[export] Instance deploy_parent_preserves q cfg comps stables timeout name parent :
  Preserves (deploy_parent c e q cfg comps stables timeout name parent) v.
Proof. unfold deploy_parent. preserves. Qed.
#[export] Instance await_errors_preserves results : Preserves (await_errors (W:=W) results) v.
Proof. induction results as [|r results IH]; cbn [await_errors]; preserves. Qed.
#[export] Instance run_all_preserves {X} (f : X -> M W unit) l :
  (forall x, Preserves (f x) v) -> Preserves (run_all (map f l)) v.
Proof. intros Hf. induction l as [|x l IH]; cbn [map run_all]; preserves. Qed.
#[export] Instance deploy_queue_preserves q comps parents stables timeout :
  Preserves (deployQueueComponent c e q comps parents stables timeout) v.
Proof. unfold deployQueueComponent. preserves. Qed.
#[export] Instance await_deployed_preserves flags errs : Preserves (await_deployed e flags errs) v.
Proof. revert errs. induction flags as [|b flags IH]; intros [|err errs]; cbn [await_deployed]; preserves. Qed.
#[export] Instance deployComponents_preserves q comps parents timeout :
  Preserves (deployComponents c e q comps parents timeout) v.
Proof. unfold deployComponents, in_either_order. preserves. Qed.

#[export] Instance owning_job_preserves ns refs : Preserves (owning_job ns refs) v.
Proof. induction refs as [|ref refs IH]; cbn [owning_job]; preserves. Qed.
#[export] Instance waitForReady_preserves selectors : Preserves (waitForReady c selectors) v.
Proof.
  unfold waitForReady, isPodsReady, isDeploymentsReady, isPVCsReady, isServicesReady.
  preserves.
Qed.
#[export] Instance components_ready_preserves q : Preserves (waitForComponentsReady c e q) v.
Proof. unfold waitForComponentsReady. preserves. Qed.
#[export] Instance releases_deployed_preserves releases : Preserves (checkAllReleasesDeployed e releases) v.
Proof. unfold checkAllReleasesDeployed. preserves. Qed.
#[export] Instance hooks_preserves releases : Preserves (pre_hooks_ready e releases) v.
Proof. unfold pre_hooks_ready. preserves. Qed.

#[export] Instance owner_name_preserves ns refs name : Preserves (owner_name ns refs name) v.
Proof. revert name. induction refs as [|ref refs IH]; intros name; cbn [owner_name]; preserves. Qed.
#[export] Instance pods_issues_preserves pods issues : Preserves (pods_issues pods issues) v.
Proof.
  revert issues. induction pods as [|pod pods IH]; intros issues; cbn [pods_issues]; [apply _|].
  unfold pod_issues, extractComponentNameFromPod. preserves.
Qed.
#[export] Instance component_issues_preserves comps issues : Preserves (component_issues c e comps issues) v.
Proof.
  revert issues. induction comps as [|comp comps IH]; intros issues; cbn [component_issues]; [apply _|].
  unfold extractDeploymentIssues. preserves.
Qed.
#[export] Instance engine_wait_preserves comps ns start timeout :
  Preserves (WaitForComponentsCleaned e comps ns start timeout) v.
Proof. apply wait_preserves; apply _. Qed.
End engine.

(** ** Histories and reports *)

#[export] Instance state_metric_preserves q : Preserves (state_metric c q) v.
Proof. unfold state_metric. preserves. Qed.
#[export] Instance old_histories_preserves t d items : Preserves (delete_old_histories t d items) v.
Proof. induction items as [|hist items IH]; cbn [delete_old_histories]; preserves. Qed.
#[export] Instance createQueueHistory_preserves q : Preserves (createQueueHistory c q) v.
Proof. unfold createQueueHistory, deleteQueueHistoryOutOfRange. preserves. Qed.
#[export] Instance updateQueueHistory_preserves q : Preserves (updateQueueHistory c q) v.
Proof. unfold updateQueueHistory. preserves. Qed.
#[export] Instance upgrade_report_preserves status q : Preserves (sendComponentUpgradeReport c status q) v.
Proof. unfold sendComponentUpgradeReport. preserves. Qed.
(** The stable components are written at the end of a success only. *)
#[export] Instance stable_report_preserves q : KFrame W StableComponent v -> Preserves (setStableAndSendReport c q) v.
Proof. intros. unfold setStableAndSendReport, setStableComponent, set_stable. preserves. Qed.

(** ** Steps *)

Section steps.
Context {KQF : KFrame W Queue v}.

#[export] Instance the_queue_preserves : Preserves (the_queue (W:=W)) (of_world v).
Proof. unfold the_queue. preserves. Qed.
#[export] Instance mod_status_preserves f : Preserves (mod_status (W:=W) f) (of_world v).
Proof. unfold mod_status, mod_queue. preserves. Qed.
#[export] Instance mod_queue_preserves f : Preserves (mod_queue (W:=W) f) (of_world v).
Proof. unfold mod_queue. preserves. Qed.
#[export] Instance stage_cond_preserves cond status msg : Preserves (stage_cond (W:=W) cond status msg) (of_world v).
Proof. unfold stage_cond. preserves. Qed.
#[export] Instance clear_preserves : Preserves (clearCurrentQueue (W:=W)) (of_world v).
Proof. unfold clearCurrentQueue. preserves. Qed.
#[export] Instance updateQueue_preserves : Preserves (updateQueue (W:=W)) (of_world v).
Proof. unfold updateQueue. preserves. Qed.
#[export] Instance to_state_preserves st : Preserves (updateQueueWithState c st) (of_world v).
Proof. unfold updateQueueWithState. preserves. Qed.
#[export] Instance initQueue_preserves : Preserves (initQueue c) (of_world v).
Proof. unfold initQueue, generateQueueHistoryName. preserves. Qed.
#[export] Instance detectImageMissing_preserves : Preserves (detectImageMissing c) (of_world v).
Proof. unfold detectImageMissing, updateImageMissingWithQueueState. preserves. Qed.

(** What follows the choice of the engine. *)
Lemma engine_bind_preserves {A} q (k : DeployEngine W -> Staging A) :
  (forall e, EngineFrame e v -> Preserves (k e) (of_world v)) ->
  Preserves (do e <- onW (getDeployEngine c q); k e) (of_world v).
Proof.
  intros Hk. apply (bind_preserves_post _ (fun e => EngineFrame e v)); [|apply _|exact Hk].
  intros [w h] e [w' h'] Heq. unfold onW in Heq. simpl in Heq.
  destruct (getDeployEngine c q w) as [r w1] eqn:Hq. injection Heq as -> -> ->. by eapply loaded_engine.
Qed.

#[export] Instance clean_preserves started cleaned next : Preserves (clean c started cleaned next) (of_world v).
Proof.
  unfold clean. apply bind_preserves; [apply _|]. intros q. apply engine_bind_preserves. intros e He. preserves.
Qed.
#[export] Instance deployEnvironment_preserves : Preserves (deployEnvironment c) (of_world v).
Proof.
  unfold deployEnvironment. apply bind_preserves; [apply _|]. intros q. apply bind_preserves; [apply _|].
  intros cfg. cbv zeta. apply engine_bind_preserves. intros e He.
  unfold checkDeployTimeout, components_to_deploy, validateStagingQueue, updateQueueComponentsSpec, create_releases,
    add_active_services, deployActiveServicesIntoPullRequestEnvironment, verify_deployed. preserves.
Qed.
#[export] Instance issues_preserves : Preserves (setDeploymentIssues c) (of_world v).
Proof.
  unfold setDeploymentIssues. apply bind_preserves; [apply _|]. intros q. apply engine_bind_preserves.
  intros e He. preserves.
Qed.

(** *** Tests *)

#[export] Instance on_held_preserves {A} (m : M (W * Queue) A) :
  Preserves m (of_world v) -> Preserves (on_held m) (of_world v).
Proof.
  intros Hm [w h]. unfold on_held, of_world. specialize (Hm (w, h_queue h)). simpl.
  by destruct (m (w, h_queue h)) as [r [w' q]].
Qed.

Context (RF : forall name r, sg_testRunners c !! name = Some r -> RunnerFrame r v).

Definition framed (o : option (StagingTestRunner W)) : Prop :=
  match o with Some r => RunnerFrame r v | None => True end.
Lemma configured_framed config : Forall framed (configured_runners c config).
Proof using RF.
  assert (forall name, framed (sg_testRunners c !! name)) as Hall.
  { intros name. unfold framed. destruct (sg_testRunners c !! name) eqn:Hr; [by eapply RF|done]. }
  unfold configured_runners. repeat apply Forall_app_2; case_match; repeat constructor; apply Hall.
Qed.

Lemma untriggered_preserves queue i l : Preserves (untriggered (W:=W) queue i l) (of_world v).
Proof. revert i. induction l as [|o l IH]; intros i; cbn [untriggered]; preserves. Qed.
Lemma untriggered_framed queue i l s r s' :
  Forall framed l -> untriggered queue i l s = (Ok r, s') -> Forall (fun p => RunnerFrame (snd p) v) r.
Proof.
  intros Hl. revert i s r. induction Hl as [|o l Ho Hl IH]; intros i s r; cbn [untriggered]; [by intros [= <- _]|].
  destruct o as [x|]; [|done]. unfold mbind, M_bind. cbn [deref].
  change ((mret x : Staging _) s) with (Ok x, s). cbv beta iota.
  destruct (untriggered queue (S i) l s) as [[l'|e|p] s1] eqn:Hrest; [|done..]. intros [= <- <-].
  destruct (str_IsTriggered x queue); [by eapply IH|]. constructor; [done|by eapply IH].
Qed.
#[export] Instance choose_preserves n :
  Preserves (W:=W) (fun w => match rt_choose n w with (k, w') => (Ok k, w') end) v.
Proof. intros w. pose proof (choose_frame (v:=v) n w) as Hf. by destruct (rt_choose n w). Qed.
Lemma trigger_all_preserves cfg l errs :
  Forall (fun p => RunnerFrame (snd p) v) l -> Preserves (trigger_all cfg l errs) (of_world v).
Proof.
  intros Hl. revert errs. induction Hl as [|[i r] l Hr Hl IH]; intros errs; cbn [trigger_all]; [apply _|].
  unfold trigger_runner. simpl in Hr. preserves.
Qed.

#[export] Instance triggerTest_preserves l : Forall framed l -> Preserves (triggerTest c l) (of_world v).
Proof.
  intros Hl. unfold triggerTest. apply bind_preserves; [apply _|]. intros q. apply bind_preserves; [apply _|].
  intros cfg. apply (bind_preserves_post _ (Forall (fun p => RunnerFrame (snd p) v)));
    [intros s r s'; by apply untriggered_framed|apply untriggered_preserves|].
  intros runners Hr. apply (bind_preserves_post _ (Forall (fun p => RunnerFrame (snd p) v))); [|apply _|].
  - intros [w h] l' [w' h'] Heq. unfold onW, in_finish_order in Heq. simpl in Heq.
    destruct (finish_order_perm (length runners) runners w) as (l2 & Hl2 & Hp).
    destruct (finish_order (length runners) runners w) as [r w1]. simpl in Hl2. subst r. injection Heq as -> -> ->.
    by rewrite Hp.
  - intros l' Hl'. assert (forall errs, Preserves (trigger_all cfg l' errs) (of_world v))
      by (intros; by apply trigger_all_preserves). preserves.
Qed.
Lemma get_result_preserves n cfg r : RunnerFrame r v -> Preserves (get_result n cfg r) (of_world v).
Proof. intros Hr. induction n as [|n IH]; cbn [get_result]; preserves. Qed.
#[export] Instance set_result_preserves name res : Preserves (setTestResultCondition (W:=W) name res) (of_world v).
Proof. unfold setTestResultCondition. preserves. Qed.
Lemma send_pending_preserves n : Preserves (send_pending c n) (of_world v).
Proof. induction n as [|n IH]; cbn [send_pending]; preserves. Qed.
Lemma getTestResult_preserves r : RunnerFrame r v -> Preserves (getTestResult c r) (of_world v).
Proof.
  intros Hr. pose proof (get_result_preserves testResultRetry) as Hg. unfold getTestResult.
  revert Hg. generalize testResultRetry. intros n Hg. preserves.
Qed.
Lemma poll_runners_preserves l ver : Forall framed l -> Preserves (poll_runners c l ver) (of_world v).
Proof.
  intros Hl. revert ver. induction Hl as [|o l Ho Hl IH]; intros ver; cbn [poll_runners]; [apply _|].
  apply bind_preserves; [|apply IH]. unfold poll_runner.
  apply (bind_preserves_post _ (fun r => o = Some r)); [by destruct o; intros ??? [= ->]|apply _|].
  intros r ->. simpl in Ho. pose proof getTestResult_preserves. preserves.
Qed.

Lemma test_config_framed s b l s' : checkTestConfig c s = (Ok (b, l), s') -> Forall framed l.
Proof using RF.
  intros Heq. refine (wp_run (checkTestConfig c) s _ _
    (fun r _ => match r with Ok (_, l) => Forall framed l | _ => True end) _ Heq).
  clear Heq. unfold checkTestConfig.
  repeat first
    [ progress wp_step
    | progress cbv zeta
    | match goal with |- wp (match ?x with _ => _ end) _ _ => destruct x end
    | apply run_wp; intros [?|?|?] ? _ ].
  all: try done; try constructor; apply configured_framed.
Qed.
#[export] Instance startTesting_preserves : Preserves (startTesting c) (of_world v).
Proof using RF SF KQF.
  unfold startTesting. apply bind_preserves; [apply _|]. intros q. apply bind_preserves; [apply _|]. intros cfg.
  cbv zeta. apply bind_preserves; [unfold checkTestTimeout, updateTestQueueCondition; preserves|]. intros _.
  apply (bind_preserves_post _ (fun p => Forall framed (snd p)));
    [intros s [b l] s'; apply test_config_framed|unfold checkTestConfig, updateTestQueueCondition; preserves|].
  intros [skip l] Hl. simpl in Hl.
  assert (Preserves (triggerTest c l) (of_world v)) by by apply triggerTest_preserves.
  assert (forall ver, Preserves (poll_runners c l ver) (of_world v)) by (intros; by apply poll_runners_preserves).
  pose proof send_pending_preserves. unfold sendTestPendingResult, updateTestQueueCondition. preserves.
Qed.

(** *** The end *)

#[export] Instance on_client_preserves {A} (m : M (W * Queue) A) :
  Preserves m (of_world v) -> Preserves (on_client (on_queue m)) (of_world v).
Proof.
  intros Hm [w h]. unfold on_client, on_queue, of_world. specialize (Hm (w, h_queue h)). simpl.
  by destruct (m (w, h_queue h)) as [r [w' q]].
Qed.
#[export] Instance queue_sort_preserves ql : Preserves (Sort ql) v.
Proof. unfold Sort. preserves. Qed.
#[export] Instance list_queues_preserves qc opts : Preserves (listQueues qc opts) v.
Proof. unfold listQueues. preserves. Qed.
#[export] Instance retry_preserves qc n t : Preserves (on_client (SetRetryQueue qc n t)) (of_world v).
Proof. apply on_client_preserves. unfold LastQueueOrder. preserves. Qed.
#[export] Instance reverify_preserves qc : Preserves (on_client (SetReverifyQueueAtFirst qc)) (of_world v).
Proof. apply on_client_preserves. unfold TopQueueOrder. preserves. Qed.
#[export] Instance stage_delete_preserves : Preserves (StgUtil.deleteQueue c) (of_world v).
Proof. unfold StgUtil.deleteQueue, retry_failed. preserves. Qed.

#[export] Instance first_queue_preserves qc ns : Preserves (FirstQueue qc ns) v.
Proof. unfold FirstQueue, First, resetQueueOrderWithCurrentQueue, updateQueueList. preserves. Qed.
#[export] Instance sync_preserves q : Preserves (syncQueueWithK8s q) v.
Proof. unfold syncQueueWithK8s. preserves. Qed.
End steps.
End frame.
