(* ===== verification/StgMachine.v ===== *)
(** A queue of the staging environment as a state machine: the abstract specification of
    the loop in [StgCtrl].  A [phase] is what decides how a queue goes on; [advance] is one
    transition of it; [consistent] is the invariant of the machine. *)

From S2P Require Import Prelude.
From S2P Require Import GoRuntime.
From S2P Require Import KubeApi.
From S2P Require Import Evolution.
From S2P Require Import QueueTypes.
From S2P Require Import StgCtrl.
From stdpp Require Import relations.
Open Scope string_scope.
Open Scope list_scope.
Open Scope Z_scope.

(** ** The phase of a queue *)

Record phase := mkPhase {
  ph_key : string * string;
  ph_type : QueueType;
  ph_state : QueueState;
  ph_deployed : bool;
  ph_tested : bool;
}.
#[export] Instance eta_phase : Eta phase := fun x =>
  mkPhase (ph_key x) (ph_type x) (ph_state x) (ph_deployed x) (ph_tested x).

Definition phase_of (q : Queue) : phase :=
  mkPhase (kkey q) (qs_Type (queue_Spec q)) (qst_State (queue_Status q)) (IsDeploySuccess q) (IsTestSuccess q).

(** A queue that waits for its turn. *)
Definition waits (s : QueueState) : Prop := s = Waiting \/ s = OtherQueueState "".
(** A queue that another controller has asked for, and that takes note of its end. *)
Definition for_another (t : QueueType) : bool :=
  match t with
  | QueueTypePreActive | QueueTypePromoteToActive | QueueTypeDemoteFromActive | QueueTypePullRequest => true
  | _ => false
  end.
Definition succeeded (p : phase) : bool :=
  ph_deployed p && ph_tested p && negb (bool_decide (ph_type p = QueueTypeReverify)).

(** A queue that has failed starts again: once more, or to have the environment verified.
    After a verification it is tried again. *)
Definition try_again (t : QueueType) (p : phase) : phase :=
  p <| ph_type := t |> <| ph_state := Waiting |> <| ph_deployed := false |> <| ph_tested := false |>.
Definition next_type (p : phase) (t : QueueType) : Prop :=
  t = QueueTypeUpgrade \/ (t = QueueTypeReverify /\ ph_type p <> QueueTypeReverify).

(** ** The transitions *)

Inductive advance : phase -> phase -> Prop :=
| advance_init p :
    waits (ph_state p) -> is_switch (ph_type p) = false -> advance p (p <| ph_state := CleaningBefore |>)
| advance_switch p :
    waits (ph_state p) -> is_switch (ph_type p) = true -> advance p (p <| ph_state := DetectingImageMissing |>)
| advance_clean p :
    ph_state p = CleaningBefore -> is_switch (ph_type p) = false ->
    advance p (p <| ph_state := DetectingImageMissing |>)
| advance_images p :
    ph_state p = DetectingImageMissing -> advance p (p <| ph_state := Creating |>)
| advance_images_missing p :
    ph_state p = DetectingImageMissing -> ph_type p <> QueueTypeDemoteFromActive ->
    advance p (p <| ph_deployed := false |> <| ph_state := Collecting |>)
| advance_deploy_failed p :
    ph_state p = Creating -> advance p (p <| ph_deployed := false |> <| ph_state := Collecting |>)
| advance_deployed p :
    ph_state p = Creating -> advance p (p <| ph_deployed := true |> <| ph_state := Testing |>)
| advance_tested p (success : bool) :
    ph_state p = Testing -> is_switch (ph_type p) = false ->
    advance p (p <| ph_tested := success |> <| ph_state := Collecting |>)
| advance_untested p :
    ph_state p = Testing -> is_switch (ph_type p) = true -> advance p (p <| ph_state := Collecting |>)
| advance_finished p :
    ph_state p = Collecting -> for_another (ph_type p) = true -> advance p (p <| ph_state := Finished |>)
| advance_collected p :
    ph_state p = Collecting -> for_another (ph_type p) = false -> advance p (p <| ph_state := CleaningAfter |>)
| advance_cleaned p :
    ph_state p = CleaningAfter -> is_switch (ph_type p) = false -> advance p (p <| ph_state := Deleting |>)
| advance_again p t :
    ph_state p = Deleting -> is_switch (ph_type p) = false -> succeeded p = false -> next_type p t ->
    advance p (try_again t p).

Lemma advance_key p p' : advance p p' -> ph_key p' = ph_key p.
Proof. by destruct 1. Qed.

#[export] Instance staging_evolution : Evolution phase_of advance :=
  {| ev_key := ph_key; ev_ctl_key (q : Queue) := eq_refl : kkey q = ph_key (phase_of q);
     ev_move_key := advance_key |}.

(** ** The invariant *)

(** A queue counts as deployed from the tests on, and as tested after them only; only a
    queue that is deployed is tested; a queue that only switches environments is never
    tested, and leaves no environment to clean. *)
Record consistent (p : phase) : Prop := {
  cons_deployed : ph_deployed p = true ->
    match ph_state p with Testing | Collecting | CleaningAfter | Deleting | Finished => True | _ => False end;
  cons_tested : ph_tested p = true ->
    ph_deployed p = true /\ is_switch (ph_type p) = false /\
    match ph_state p with Collecting | CleaningAfter | Deleting | Finished => True | _ => False end;
  cons_testing : ph_state p = Testing -> ph_deployed p = true;
  cons_after : ph_state p = CleaningAfter \/ ph_state p = Deleting -> for_another (ph_type p) = false;
  cons_finished : ph_state p = Finished -> for_another (ph_type p) = true;
}.

Lemma advance_consistent p p' : advance p p' -> consistent p -> consistent p'.
Proof.
  intros Hadv [Hd Ht Hg Ha Hf].
  destruct Hadv as [p Hs Hw|p Hs Hw|p Hs Hw|p Hs|p Hs Hw|p Hs|p Hs|p b Hs Hw|p Hs Hw|p Hs Hw|p Hs Hw|p Hs Hw|p t Hs Hw Hsu Hn];
    try destruct Hs as [Hs|Hs]; rewrite ?Hs in *;
    split; simpl; rewrite ?Hs in *; try done; try naive_solver.
Qed.

Lemma advances_consistent p p' : rtc advance p p' -> consistent p -> consistent p'.
Proof. induction 1 as [|p1 p2 p3 H _ IH]; [done|]. intros. eapply IH, advance_consistent; eauto. Qed.

(** A queue that nobody has worked on. *)
Lemma waiting_consistent q :
  waits (qst_State (queue_Status q)) -> qst_Conditions (queue_Status q) = [] -> consistent (phase_of q).
Proof.
  intros Hw Hc. unfold phase_of, IsDeploySuccess, IsTestSuccess, IsConditionTrue. rewrite Hc.
  destruct Hw as [Hw|Hw]; split; simpl; rewrite ?Hw; try done; by intros [?|?].
Qed.
