(* ===== verification/StgSpec.v ===== *)
(** The loop of the staging controller implements its state machine: every turn of
    [StgCtrl.process], whatever the engines, the test runners and the other parties answer
    and wherever it stops, moves the stored queues along transitions of
    [StgMachine.advance] only. *)

From S2P Require Import Prelude.
From S2P Require Import GoRuntime.
From S2P Require Import Errors.
From S2P Require Import KubeApi.
From S2P Require Import Frame.
From S2P Require Import Evolution.
From S2P Require Import ConfigTypes.
From S2P Require Import ComponentTypes.
From S2P Require Import QueueTypes.
From S2P Require Import RpcTypes.
From S2P Require Import QueueCtrl.
From S2P Require Import Interfaces.
From S2P Require Import ConfigCtrl.
From S2P Require Import Cleanup.
From S2P Require Import StgTypes.
From S2P Require Import StgUtil.
From S2P Require Import StgDeploy.
From S2P Require Import StgTest.
From S2P Require Import StgCollect.
From S2P Require Import StgCtrl.
From S2P Require Import StgFrame.
From S2P Require Import StgMachine.
From stdpp Require Import relations.
Open Scope string_scope.
Open Scope list_scope.
Open Scope Z_scope.

(** ** What the phase sees of a change *)

Definition phase_cond (cond : QueueConditionType) (status : ConditionStatus) (p : phase) : phase :=
  match cond with
  | QueueDeployed => p <| ph_deployed := bool_decide (status = ConditionTrue) |>
  | QueueTested => p <| ph_tested := bool_decide (status = ConditionTrue) |>
  | _ => p
  end.

Lemma phase_set_cond t cond status msg q :
  phase_of (q <| queue_Status ::= SetCondition t cond status msg |>) = phase_cond cond status (phase_of q).
Proof.
  unfold phase_of, phase_cond, IsDeploySuccess, IsTestSuccess, IsConditionTrue.
  destruct cond; simpl; rewrite ?is_condition_true_set, ?is_condition_true_set_ne by done; done.
Qed.
Lemma phase_set_state t st q : phase_of (SetState t st q) = (phase_of q) <| ph_state := st |>.
Proof. done. Qed.

(** A sequence in the other grouping. *)
Lemma wp_assoc {S A B C} (m : M S A) (h : M S B) (k : B -> M S C) s (Q : outcome C -> S -> Prop) :
  wp (mbind k (mbind (fun _ => h) m)) s Q -> wp (mbind (fun _ => mbind k h) m) s Q.
Proof. apply wp_ext. intros s0. apply (bind_assoc m (fun _ => h)). Qed.

(** The phase of the queue at hand. *)
Definition held_phase (h : holding) : phase := phase_of (h_queue h).

(** A test runner writes nothing but its part of the status, and stores the queue at most
    once. *)
Definition runner_writes (q q' : Queue) : Prop :=
  exists f, q' = q <| queue_Status ::= fun s => s <| qst_TestRunner ::= f |> |>.
(** What a runner may do to the queue [q] of the cluster [w]. *)
Definition runner_may {W : Type} `{KVQ : KView W Queue} (w : W) (q : Queue) (s : W * Queue) : Prop :=
  runner_writes q (snd s) /\
  (kview Queue (fst s) = kview Queue w \/
   (is_Some (kview Queue w !! kkey q) /\ kview Queue (fst s) = store_update (snd s) (kview Queue w))).
Class RunnerKeeps {W : Type} `{KQ : KClient W Queue, KVQ : KView W Queue} (r : StagingTestRunner W) : Prop := {
  rk_trigger cfg w q : wp (str_Trigger r cfg) (w, q) (fun _ s => runner_may w q s);
  rk_result cfg w q : wp (str_GetResult r cfg) (w, q) (fun _ s =>
    runner_writes q (snd s) /\ kview Queue (fst s) = kview Queue w);
}.

Lemma runner_writes_phase q q' : runner_writes q q' -> phase_of q' = phase_of q.
Proof. by intros [f ->]. Qed.

Section rules.
Context {W : Type} `{GR : GoRuntime W} `{GS : GoSort} `{GD : GoDuration} `{GO : GoSchedule W}.
Context `{CFG : ConfigController W} `{RPC : SamsahaiRPC W} `{SC : StagingCluster W} `{SO : StagingOutside W}.
Context `{CO : ConfigOutside W} (c : staging W).
Context `{KVQ : KView W Queue} `{KLQ : !KClientLaws W Queue}.
Context {SF : StagingFrame W c (kview Queue)}.

Notation store := (gmap (string * string) Queue).
Notation view s := (kview Queue (fst s)).
Implicit Types (V : store) (p : phase) (s : W * holding).

(** The queue at hand is ahead of the stored one, and in phase [p]. *)
Definition at_phase V p s : Prop :=
  ahead phase_of advance V (fst s, h_queue (snd s)) /\ held_phase (snd s) = p.

Lemma at_phase_same V p s s' :
  at_phase V p s -> view s' = view s -> held_phase (snd s') = p -> at_phase V p s'.
Proof.
  intros [Hs Hp] Hv Hp'. split; [|done]. eapply (ahead_move phase_of advance); [exact Hs|done|].
  simpl. unfold held_phase in *. by rewrite Hp, Hp'.
Qed.

Lemma at_phase_move V p p' s s' :
  at_phase V p s -> rtc advance p p' -> view s' = view s -> held_phase (snd s') = p' -> at_phase V p' s'.
Proof.
  intros [Hs Hp] Hm Hv Hp'. split; [|done]. eapply (ahead_move phase_of advance); [exact Hs|done|].
  simpl. unfold held_phase in *. by rewrite Hp, Hp'.
Qed.

(** A call that keeps the store and the phase. *)
Lemma wp_stays {A} (m : Staging A) `{!Preserves m (of_both (kview Queue) held_phase)} V p s
    (Q : outcome A -> W * holding -> Prop) :
  at_phase V p s -> (forall r s', at_phase V p s' -> Q r s') -> wp m s Q.
Proof.
  intros Hs HQ. apply run_wp. intros r s' Heq. apply HQ.
  pose proof (preserves (m:=m) (v:=of_both (kview Queue) held_phase) s) as Hk.
  rewrite Heq in Hk. unfold of_both in Hk. cbn [fst snd] in Hk. apply pair_equal_spec in Hk as [Hk1 Hk2].
  eapply at_phase_same; [exact Hs|done|]. destruct Hs as [_ Hp]. congruence.
Qed.

Lemma wp_the_queue V p s (Q : outcome Queue -> W * holding -> Prop) :
  at_phase V p s -> (phase_of (h_queue (snd s)) = p -> Q (Ok (h_queue (snd s))) s) -> wp the_queue s Q.
Proof. intros [_ Hp] HQ. unfold the_queue. wp_step. wp_step. wp_step. by apply HQ. Qed.
(** ** Changes of the queue at hand *)

(** A change that the phase does not see. *)
Lemma phase_neutral_status f :
  (forall q, phase_of (q <| queue_Status ::= f |>) = phase_of q) ->
  Preserves (mod_status f) (of_both (kview (W:=W) Queue) held_phase).
Proof. intros Hf. apply mod_obj_both. intros [q h]. apply Hf. Qed.

Lemma wp_stage_cond cond status msg V p s (Q : outcome unit -> W * holding -> Prop) :
  at_phase V p s ->
  (forall s', view s' = view s -> held_phase (snd s') = phase_cond cond status p -> Q (Ok tt) s') ->
  wp (stage_cond cond status msg) s Q.
Proof.
  intros [_ <-] HQ. unfold stage_cond. wp_step. apply wp_onW, wp_frame with (v := kview Queue); [apply _|].
  intros r w' Hr Hw. unfold now in Hr. destruct (rt_now (fst s)). injection Hr as <- <-.
  unfold mod_status, mod_queue. wp_step. apply HQ; [done|].
  apply (phase_set_cond _ _ _ _ (h_queue (snd s))).
Qed.

(** A condition that the phase does not see. *)
Lemma wp_note cond status msg V p s (Q : outcome unit -> W * holding -> Prop) :
  at_phase V p s -> phase_cond cond status p = p -> (forall s', at_phase V p s' -> Q (Ok tt) s') ->
  wp (stage_cond cond status msg) s Q.
Proof.
  intros Hs Hn HQ. eapply wp_stage_cond; [exact Hs|]. intros s' Hv Hp'. apply HQ.
  eapply at_phase_same; [exact Hs|done|]. by rewrite Hp'.
Qed.

Lemma wp_updateQueue V p s (Q : outcome unit -> W * holding -> Prop) :
  at_phase V p s -> (forall r s', at_phase V p s' -> Q r s') -> wp updateQueue s Q.
Proof.
  intros Hs HQ. unfold updateQueue, the_queue. wp_step. wp_step. wp_step. wp_step.
  unfold wrapping. wp_step. wp_step. apply wp_onW, wp_k_update.
  - intros w' Hin Hw. wp_step. apply HQ. destruct Hs as [Ha Hp]. split; [|done].
    by apply (ahead_store phase_of advance V (fst s, h_queue (snd s))).
  - intros e w' Hw. wp_step. apply HQ. by eapply at_phase_same; [exact Hs| |apply Hs].
Qed.

(** The state changes, and the queue is stored; the phase may have changed since the queue
    was ahead of the stored one. *)
Lemma wp_to_state st V p0 s0 p' s (Q : outcome unit -> W * holding -> Prop) :
  at_phase V p0 s0 -> view s = view s0 -> rtc advance p0 p' -> (held_phase (snd s)) <| ph_state := st |> = p' ->
  (forall r s', at_phase V p' s' -> Q r s') -> wp (updateQueueWithState c st) s Q.
Proof.
  intros Hs Hv Hm <- HQ. unfold updateQueueWithState. wp_step. apply wp_onW, wp_frame with (v := kview Queue); [apply _|].
  intros r w' Hr Hw. unfold now in Hr. destruct (rt_now (fst s)). injection Hr as <- <-.
  wp_step. unfold mod_queue. wp_step. set (s1 := (_, _) : W * holding).
  assert (at_phase V ((held_phase (snd s)) <| ph_state := st |>) s1) as Hs1.
  { eapply at_phase_move; [exact Hs|exact Hm|simpl; congruence|]. apply phase_set_state. }
  wp_step. eapply wp_the_queue; [exact Hs1|]. intros _.
  wp_step. eapply wp_stays; [exact _|exact Hs1|]. intros [[]|e|pr] s2 Hs2; [|by apply HQ..].
  eapply wp_updateQueue; [exact Hs2|exact HQ].
Qed.

(** The state alone, and the state after a condition. *)
Lemma wp_advance st V p s (Q : outcome unit -> W * holding -> Prop) :
  at_phase V p s -> advance p (p <| ph_state := st |>) ->
  (forall r s', at_phase V (p <| ph_state := st |>) s' -> Q r s') -> wp (updateQueueWithState c st) s Q.
Proof.
  intros Hs Hm HQ. eapply wp_to_state; [exact Hs|done|by apply rtc_once| |exact HQ].
  by destruct Hs as [_ ->].
Qed.
Lemma wp_cond_state cond status msg st V p s (Q : outcome unit -> W * holding -> Prop) :
  at_phase V p s -> advance p ((phase_cond cond status p) <| ph_state := st |>) ->
  (forall r s', at_phase V ((phase_cond cond status p) <| ph_state := st |>) s' -> Q r s') ->
  wp (run stage_cond cond status msg; updateQueueWithState c st) s Q.
Proof.
  intros Hs Hm HQ. wp_step. eapply wp_stage_cond; [exact Hs|]. intros s1 Hv1 Hp1.
  eapply wp_to_state; [exact Hs|done|by apply rtc_once|by rewrite Hp1|exact HQ].
Qed.

(** A deletion of the queue leaves the phase of what is left. *)
Lemma wp_deletes (x : Queue) V p s (Q : outcome unit -> W * holding -> Prop) :
  at_phase V p s -> (forall r s', at_phase V p s' -> Q r s') -> wp (onW (k_delete x)) s Q.
Proof.
  intros Hs HQ. apply wp_onW, run_wp. intros r w' Hdel. apply HQ. destruct Hs as [[He Ha] Hp].
  assert (forall t a, phase_of (kmark t a) = phase_of a) as Hmark.
  { intros t a. unfold phase_of. f_equal. apply (mark_deleted_key t (queue_Meta a)). }
  split; [|done]. split.
  - eapply (evolves_delete phase_of advance V x); [intros t a; by rewrite Hmark|exact He|exact Hdel].
  - simpl in *. intros a Hl. pose proof (k_delete_law x (fst s)) as Hlaw. rewrite Hdel in Hlaw.
    destruct r as [[]|e|pr]; [|destruct Hlaw as [_ Hw]; rewrite Hw in Hl; by apply Ha|done].
    destruct Hlaw as (y & Hy & Hgone & Hmk).
    destruct (decide (om_Finalizers (kmeta y) = [])) as [Hf|Hf].
    + rewrite (Hgone Hf) in Hl. apply lookup_delete_Some in Hl as [_ Hl]. by apply Ha.
    + destruct (Hmk Hf) as [t Ht]. rewrite Ht in Hl.
      apply lookup_insert_Some in Hl as [[Hk <-]|[_ Hl]]; [|by apply Ha].
      rewrite Hmark. apply Ha. by rewrite <- Hk.
Qed.

(** The engine that is loaded keeps the queues. *)
Lemma wp_engine q V p s (Q : outcome (DeployEngine W) -> W * holding -> Prop) :
  at_phase V p s ->
  (forall r s', match r with Ok e => EngineFrame e (kview Queue) | _ => True end -> at_phase V p s' -> Q r s') ->
  wp (onW (getDeployEngine c q)) s Q.
Proof.
  intros Hs HQ. apply wp_onW, run_wp. intros r w' Heq. apply HQ.
  - destruct r; [|done..]. by eapply (loaded_engine c (kview Queue)).
  - eapply at_phase_same; [exact Hs| |apply Hs].
    pose proof (getDeployEngine_preserves c (kview Queue) q (fst s)) as Hk. by rewrite Heq in Hk.
Qed.
End rules.

(** Symbolic execution of a step: [at_phase] of the state is kept as a hypothesis. *)
Ltac stage_step :=
  lazy beta iota;
  lazymatch goal with
  | |- wp (mbind (fun _ => updateQueueWithState _ _) (stage_cond _ _ _)) _ _ =>
      eapply (wp_cond_state _); [eassumption| |intros [[]|?|?] ??]
  | |- wp (mbind (fun _ => mbind _ (updateQueueWithState _ _)) (stage_cond _ _ _)) _ _ => apply wp_assoc
  | |- wp the_queue _ _ => eapply (wp_the_queue _); [eassumption|intros ?]
  | |- wp (updateQueueWithState _ _) _ _ => eapply (wp_advance _); [eassumption| |intros [[]|?|?] ??]
  | |- wp (stage_cond _ _ _) _ _ => eapply (wp_note _); [eassumption|done|intros ??]
  | |- wp updateQueue _ _ => eapply (wp_updateQueue _); [eassumption|intros [[]|?|?] ??]
  | |- wp (mod_status _) _ _ => eapply wp_stays; [by apply phase_neutral_status|eassumption|intros [[]|?|?] ??]
  | |- wp (mbind _ _) _ _ => apply wp_bind
  | |- wp (attempt _) _ _ => apply wp_attempt
  | |- wp (mret _) _ _ => apply wp_ret
  | |- wp (throw _) _ _ => apply wp_throw
  | |- wp (go_panic _) _ _ => apply wp_panic
  | |- wp (let x := _ in _) _ _ => cbv zeta
  | |- wp (match ?x with _ => _ end) _ _ => destruct x eqn:?
  | |- wp (onW (getDeployEngine _ _)) _ _ => eapply (wp_engine _); [eassumption|intros [?|?|?] ???]
  | |- wp (onW (match ?x with _ => _ end)) _ _ => destruct x eqn:?
  | |- wp (onW (k_delete _)) _ _ => eapply (wp_deletes _); [eassumption|intros [[]|?|?] ??]
  | |- wp _ _ _ => eapply wp_stays; [apply _|eassumption|intros [?|?|?] ??]
  end.
Ltac stage_end := first [assumption | by eexists | done].

Section steps.
Context {W : Type} `{GR : GoRuntime W} `{GS : GoSort} `{GD : GoDuration} `{GO : GoSchedule W}.
Context `{CFG : ConfigController W} `{RPC : SamsahaiRPC W} `{SC : StagingCluster W} `{SO : StagingOutside W}.
Context `{CO : ConfigOutside W} (c : staging W).
Context `{KVQ : KView W Queue} `{KLQ : !KClientLaws W Queue}.
Context {SF : StagingFrame W c (kview Queue)}.

Notation store := (gmap (string * string) Queue).
Notation view s := (kview Queue (fst s)).
Implicit Types (V : store) (p : phase) (s : W * holding).

(** Wherever a step stops, the queue at hand is ahead of the stored one. *)
Definition reached {A} V (r : outcome A) s : Prop := exists p, at_phase V p s.

Lemma init_reached V p s :
  at_phase V p s -> waits (ph_state p) -> is_switch (ph_type p) = false -> wp (initQueue c) s (reached V).
Proof.
  intros Hs Hw Hsw. unfold initQueue, generateQueueHistoryName. repeat stage_step; stage_end || by apply advance_init.
Qed.

Lemma image_missing_reached V p s :
  at_phase V p s -> ph_state p = DetectingImageMissing -> wp (detectImageMissing c) s (reached V).
Proof.
  intros Hs Hst. unfold detectImageMissing, updateImageMissingWithQueueState, wrapping.
  repeat stage_step; try stage_end; try by apply advance_images.
  all: apply advance_images_missing; [done|]; subst p; by eapply bool_decide_eq_false.
Qed.

Lemma cleaned_reached started cleaned next V p s :
  at_phase V p s -> (forall status, phase_cond cleaned status p = p) -> advance p (p <| ph_state := next |>) ->
  wp (clean c started cleaned next) s (reached V).
Proof.
  intros Hs Hn Hadv. unfold clean. repeat stage_step; try stage_end; by rewrite Hn.
Qed.

(** ** Deployment *)

Lemma timeout_reached timeout V p s :
  at_phase V p s -> ph_state p = Creating ->
  wp (checkDeployTimeout c timeout) s (fun r s' => match r with Ok _ => at_phase V p s' | _ => reached V r s' end).
Proof.
  intros Hs Hst. unfold checkDeployTimeout. repeat stage_step; try stage_end; by apply advance_deploy_failed.
Qed.

#[local] Instance clear_keeps : Preserves (clearCurrentQueue (W:=W)) (of_both (kview Queue) held_phase).
Proof. by apply mod_obj_both. Qed.

(** What comes before the releases leaves the phase alone. *)
Lemma validate_stays V p s :
  at_phase V p s -> wp (validateStagingQueue c) s (fun _ s' => at_phase V p s').
Proof.
  intros Hs. unfold validateStagingQueue.
  repeat stage_step; stage_end.
Qed.

Lemma neutral_spec_comps comps :
  Preserves (mod_queue (W:=W) (fun q => q <| queue_Spec ::= fun sp => sp <| qs_Components := comps |> |>))
    (of_both (kview Queue) held_phase).
Proof. by apply mod_obj_both. Qed.

Lemma components_stay V p s :
  at_phase V p s -> wp (components_to_deploy c) s (fun _ s' => at_phase V p s').
Proof.
  intros Hs. unfold components_to_deploy, updateQueueComponentsSpec.
  pose proof neutral_spec_comps.
  stage_step. stage_step. stage_step; [by repeat stage_step|].
  stage_step. eapply wp_mono.
  { instantiate (1 := fun _ s' => at_phase V p s'). destruct (IsPullRequestQueue _); [by repeat stage_step|].
    by apply validate_stays. }
  cbv beta. intros [isValid|e|pr] s1 Hs1; [|done..]. repeat stage_step; stage_end.
Qed.

Lemma create_reached e parents comps timeout V p s `{!EngineFrame e (kview Queue)} :
  at_phase V p s -> ph_state p = Creating ->
  wp (create_releases c e parents comps timeout) s
    (fun r s' => match r with Ok true => at_phase V p s' | _ => reached V r s' end).
Proof.
  intros Hs Hst. unfold create_releases. repeat stage_step; try stage_end; by apply advance_deploy_failed.
Qed.

Lemma services_stay releases V p s :
  at_phase V p s -> wp (add_active_services c releases) s (fun _ s' => at_phase V p s').
Proof.
  intros Hs. unfold add_active_services, deployActiveServicesIntoPullRequestEnvironment.
  repeat stage_step; stage_end.
Qed.

Lemma verify_reached e releases V p s `{!EngineFrame e (kview Queue)} :
  at_phase V p s -> ph_state p = Creating -> wp (verify_deployed c e releases) s (reached V).
Proof.
  intros Hs Hst. unfold verify_deployed.
  repeat stage_step; try stage_end; [by apply advance_deploy_failed|by apply advance_deployed].
Qed.

Lemma deploy_reached V p s :
  at_phase V p s -> ph_state p = Creating -> wp (deployEnvironment c) s (reached V).
Proof.
  intros Hs Hst. unfold deployEnvironment.
  stage_step. stage_step. stage_step. stage_step; [|stage_end..].
  stage_step. stage_step; [|stage_end..].
  stage_step. eapply wp_mono; [by apply timeout_reached|]. cbv beta.
  intros [[]|er|pr] s3 Hs3; [|done..].
  stage_step. eapply wp_mono; [by apply components_stay|]. cbv beta.
  intros [[[parents comps]|]|er|pr] s4 Hs4; [|by repeat stage_step; eexists|by eexists..].
  stage_step. eapply wp_mono; [by apply create_reached|]. cbv beta.
  intros [[]|er|pr] s5 Hs5; [|by stage_step; stage_step|done..]. stage_step; [done|].
  stage_step. stage_step; [|stage_end..]. stage_step; [by stage_step; eexists|].
  stage_step. stage_step; [|stage_end..]. stage_step; [by stage_step; eexists|].
  stage_step. eapply wp_mono; [by apply services_stay|]. cbv beta.
  intros [[]|er|pr] s6 Hs6; [| |by eexists..]; stage_step; [done| |by stage_step; eexists|done].
  by eapply verify_reached.
Qed.

(** ** Tests *)

Lemma wp_on_held {A} (m : M (W * Queue) A) s (Q : outcome A -> W * holding -> Prop) :
  wp m (fst s, h_queue (snd s)) (fun r x => Q r (fst x, (snd s) <| h_queue := snd x |>)) -> wp (on_held m) s Q.
Proof.
  intros HQ. apply run_wp. intros r s' Heq. unfold on_held in Heq.
  destruct (m (fst s, h_queue (snd s))) as [r0 [w0 q0]] eqn:Hm. injection Heq as <- <-.
  exact (wp_run _ _ _ _ _ HQ Hm).
Qed.

Lemma trigger_stays r cfg V p s :
  RunnerKeeps r -> at_phase V p s -> wp (on_held (str_Trigger r cfg)) s (fun _ s' => at_phase V p s').
Proof.
  intros HR Hs. apply wp_on_held. eapply wp_mono; [apply rk_trigger|]. cbv beta.
  intros r0 [w q] [Hq Hw]. simpl in Hq, Hw. pose proof Hs as [Ha Hp].
  pose proof (runner_writes_phase _ _ Hq) as Hph.
  assert (kkey q = kkey (h_queue (snd s))) as Hk by (change (ph_key (phase_of q) = ph_key (phase_of (h_queue (snd s)))); by rewrite Hph).
  assert (held_phase ((snd s) <| h_queue := q |>) = p) as Hp' by (unfold held_phase in *; simpl; congruence).
  destruct Hw as [Hw|[Hin Hw]]; [by eapply at_phase_same|].
  assert (ahead phase_of advance V (fst s, q)) as Ha'.
  { eapply (ahead_move phase_of advance); [exact Ha|done|]. simpl. by rewrite Hph. }
  split; [|exact Hp']. apply (ahead_store phase_of advance V (fst s, q)); [exact Ha'|simpl; by rewrite Hk|done].
Qed.

Lemma result_stays r cfg V p s :
  RunnerKeeps r -> at_phase V p s -> wp (on_held (str_GetResult r cfg)) s (fun _ s' => at_phase V p s').
Proof.
  intros HR Hs. apply wp_on_held. eapply wp_mono; [apply rk_result|]. cbv beta.
  intros r0 [w q] [Hq Hw]. simpl in Hq, Hw. pose proof Hs as [Ha Hp].
  eapply at_phase_same; [exact Hs|done|]. unfold held_phase in *. simpl.
  by rewrite (runner_writes_phase _ _ Hq).
Qed.

Context (RK : forall name r, sg_testRunners c !! name = Some r -> RunnerKeeps r).

Definition keeping (testRunners : list (option (StagingTestRunner W))) : Prop :=
  Forall (fun o => match o with Some r => RunnerKeeps r | None => True end) testRunners.

Lemma configured_keeping config : keeping (configured_runners c config).
Proof.
  assert (forall name, match sg_testRunners c !! name with Some r => RunnerKeeps r | None => True end) as Hall.
  { intros name. destruct (sg_testRunners c !! name) eqn:Hr; [by eapply RK|done]. }
  unfold keeping, configured_runners. repeat apply Forall_app_2; case_match; repeat constructor; apply Hall.
Qed.

Lemma untriggered_stays queue V p i testRunners s :
  keeping testRunners -> at_phase V p s ->
  wp (untriggered queue i testRunners) s (fun r s' => at_phase V p s' /\
    match r with Ok l => Forall (fun x => RunnerKeeps (snd x)) l | _ => True end).
Proof.
  revert i. induction testRunners as [|o rest IH]; intros i Hk Hs; cbn [untriggered].
  - wp_step. by split.
  - apply Forall_cons in Hk as [Ho Hk]. wp_step. wp_step. destruct o as [r|]; [|done].
    wp_step. eapply wp_mono; [by apply IH|]. cbv beta.
    intros [l|e|pr] s1 [Hs1 Hl]; [|done..]. wp_step. split; [done|].
    destruct (str_IsTriggered r queue); [done|]. by constructor.
Qed.

Lemma trigger_all_stays cfg V p l errs s :
  Forall (fun x => RunnerKeeps (snd x)) l -> at_phase V p s ->
  wp (trigger_all cfg l errs) s (fun _ s' => at_phase V p s').
Proof.
  intros Hl. revert errs s. induction Hl as [|[i r] l Hr Hl IH]; intros errs s Hs; cbn [trigger_all].
  { by wp_step. }
  wp_step. unfold trigger_runner. wp_step. wp_step. eapply wp_mono; [by apply trigger_stays|]. cbv beta.
  intros [[]|e|pr] s1 Hs1; [| |done].
  - wp_step. eapply wp_mono.
    { instantiate (1 := fun _ s' => at_phase V p s'). destruct (String.eqb _ _); [|by wp_step].
      eapply wp_stays; [by apply phase_neutral_status|exact Hs1|done]. }
    cbv beta. intros [[]|e|pr] s2 Hs2; [|done..]. wp_step. by apply IH.
  - wp_step. eapply wp_stays; [|exact Hs1|].
    + apply onW_both. intros w. pose proof (choose_frame (v:=kview Queue) (length errs - i) w) as Hf.
      by destruct (rt_choose (length errs - i) w).
    + intros [k|e'|pr] s2 Hs2; [|done..]. wp_step. by apply IH.
Qed.

Lemma triggerTest_stays testRunners V p s :
  keeping testRunners -> at_phase V p s -> wp (triggerTest c testRunners) s (fun _ s' => at_phase V p s').
Proof.
  intros Hk Hs. unfold triggerTest. stage_step. stage_step. stage_step. stage_step; [|done..].
  wp_step. eapply wp_mono; [by apply untriggered_stays|]. cbv beta.
  intros [l|e|pr] s2 [Hs2 Hl]; [|done..]. wp_step. apply wp_onW, run_wp. intros r w' Heq.
  destruct (finish_order_perm (length l) l (fst s2)) as (l' & Hr & Hp).
  unfold in_finish_order in Heq. rewrite Heq in Hr. simpl in Hr. subst r.
  assert (at_phase V p (w', snd s2)) as Hs3.
  { eapply at_phase_same; [exact Hs2| |apply Hs2].
    pose proof (finish_order_frame (kview Queue) (length l) l (fst s2)) as Hf. by rewrite Heq in Hf. }
  wp_step. eapply wp_mono; [apply trigger_all_stays; [by rewrite Hp|exact Hs3]|]. cbv beta.
  intros [errs|e|pr] s4 Hs4; [|done..]. destruct (first_error errs); by wp_step.
Qed.

Lemma get_result_stays n cfg r V p s :
  RunnerKeeps r -> at_phase V p s -> wp (get_result n cfg r) s (fun _ s' => at_phase V p s').
Proof.
  intros HR. revert s. induction n as [|n IH]; intros s Hs; cbn [get_result];
    wp_step; (eapply wp_mono; [by apply result_stays|]); cbv beta;
    (intros [[[b1 b2] [e|]]|e|pr] s1 Hs1; [| |done..]); try (by wp_step); [|by apply IH].
  destruct b2; [by wp_step|by apply IH].
Qed.

Lemma getTestResult_stays r V p s :
  RunnerKeeps r -> at_phase V p s -> wp (getTestResult c r) s (fun _ s' => at_phase V p s').
Proof.
  intros HR Hs. unfold getTestResult. repeat stage_step; try stage_end; by apply get_result_stays.
Qed.

Lemma set_result_stays name res V p s :
  at_phase V p s -> wp (setTestResultCondition name res) s (fun _ s' => at_phase V p s').
Proof.
  intros Hs. unfold setTestResultCondition. repeat stage_step; stage_end.
Qed.

Lemma send_pending_stays n V p s :
  at_phase V p s -> wp (send_pending c n) s (fun _ s' => at_phase V p s').
Proof.
  revert s. induction n as [|n IH]; intros s Hs; cbn [send_pending]; unfold ignore_error;
    repeat (stage_step || apply IH); stage_end.
Qed.

(** A runner that is polled, and what the poll has found. *)
Lemma poll_runner_stays o v V p s :
  match o with Some r => RunnerKeeps r | None => True end -> at_phase V p s ->
  wp (poll_runner c o v) s (fun _ s' => at_phase V p s').
Proof.
  intros Ho Hs. unfold poll_runner. wp_step. wp_step. destruct o as [r|]; [|done].
  stage_step. stage_step. stage_step; [by wp_step|]. wp_step.
  eapply wp_mono; [by apply getTestResult_stays|]. cbv beta.
  intros [[res err]|e|pr] s1 Hs1; [|done..]. lazy beta iota. destruct (_ && _); [by wp_step|].
  wp_step. eapply wp_mono; [by apply set_result_stays|]. cbv beta. intros [[]|e|pr] s2 Hs2; [by wp_step|done..].
Qed.

Lemma poll_runners_stay l v V p s :
  keeping l -> at_phase V p s -> wp (poll_runners c l v) s (fun _ s' => at_phase V p s').
Proof.
  intros Hl. revert v s. induction Hl as [|o l Ho Hl IH]; intros v s Hs; cbn [poll_runners]; [by wp_step|].
  wp_step. eapply wp_mono; [by apply poll_runner_stays|]. cbv beta.
  intros [v'|e|pr] s1 Hs1; [by apply IH|done..].
Qed.

Lemma tested_reached status msg V p s :
  at_phase V p s -> ph_state p = Testing -> is_switch (ph_type p) = false ->
  wp (updateTestQueueCondition c status msg) s (reached V).
Proof.
  intros Hs Hst Hsw. unfold updateTestQueueCondition.
  repeat stage_step; try stage_end. by apply (advance_tested p (bool_decide (status = ConditionTrue))).
Qed.

Lemma test_timeout_reached timeout V p s :
  at_phase V p s -> ph_state p = Testing -> is_switch (ph_type p) = false ->
  wp (checkTestTimeout c timeout) s (fun r s' => match r with Ok _ => at_phase V p s' | _ => reached V r s' end).
Proof.
  intros Hs Hst Hsw. unfold checkTestTimeout, updateTestQueueCondition. repeat stage_step; try stage_end.
  all: by apply (advance_tested p false).
Qed.

Lemma test_config_reached V p s :
  at_phase V p s -> ph_state p = Testing -> is_switch (ph_type p) = false ->
  wp (checkTestConfig c) s (fun r s' =>
    match r with Ok (false, l) => at_phase V p s' /\ keeping l | _ => reached V r s' end).
Proof.
  intros Hs Hst Hsw. unfold checkTestConfig, updateTestQueueCondition.
  repeat stage_step; try stage_end.
  all: try by apply (advance_tested p true).
  all: try by apply (advance_tested p false).
  all: split; [done|apply configured_keeping].
Qed.

Lemma testing_reached V p s :
  at_phase V p s -> ph_state p = Testing -> is_switch (ph_type p) = false -> wp (startTesting c) s (reached V).
Proof.
  intros Hs Hst Hsw. unfold startTesting.
  stage_step. stage_step. stage_step. stage_step; [|stage_end..].
  stage_step. eapply wp_mono; [by apply test_timeout_reached|]. cbv beta.
  intros [[]|e|pr] s1 Hs1; [|done..].
  stage_step. eapply wp_mono; [by apply test_config_reached|]. cbv beta.
  intros [[[] l]|e|pr] s2 Hs2; [by stage_step|destruct Hs2 as [Hs2 Hl]|done..].
  stage_step. stage_step. stage_step. eapply wp_mono.
  { instantiate (1 := fun _ s' => at_phase V p s'). repeat stage_step; stage_end. }
  cbv beta. intros [in_time|e|pr] s3 Hs3; [|stage_end..].
  stage_step. eapply wp_mono.
  { instantiate (1 := fun _ s' => at_phase V p s').
    destruct (_ && in_time); [by apply triggerTest_stays|by stage_step]. }
  cbv beta. intros [[]|e|pr] s4 Hs4; [|stage_end..].
  do 4 stage_step; [|stage_end..]. stage_step. stage_step. stage_step. eapply wp_mono.
  { instantiate (1 := fun _ s' => at_phase V p s').
    destruct (_ && _); [|by stage_step]. unfold sendTestPendingResult.
    destruct (sg_s2hClient c); [by apply send_pending_stays|by stage_step]. }
  cbv beta. intros [[]|e|pr] s5 Hs5; [|stage_end..].
  stage_step. eapply wp_mono; [by apply poll_runners_stay|]. cbv beta.
  intros [v|e|pr] s6 Hs6; [|stage_end..].
  stage_step; [by eapply tested_reached|stage_step; stage_end].
Qed.

(** ** The end of a queue *)

Lemma phase_for_another q : for_another (ph_type (phase_of q)) = IsActivePromotionQueue q || IsPullRequestQueue q.
Proof. unfold IsActivePromotionQueue, IsPullRequestQueue, phase_of. simpl. by destruct (qs_Type (queue_Spec q)). Qed.

Lemma collect_reached V p s :
  KFrame W StableComponent (kview (W:=W) Queue) ->
  at_phase V p s -> ph_state p = Collecting -> wp (collectResult c) s (reached V).
Proof.
  intros Hset Hs Hst. unfold collectResult, setDeploymentIssues.
  repeat stage_step; try stage_end.
  all: match goal with
       | H : phase_of ?q = ?p, E : _ || _ = _ |- advance ?p _ => rewrite <- phase_for_another, H in E
       end; first [by apply advance_finished|by apply advance_collected].
Qed.

Lemma on_client_queue {A} (m : M (W * Queue) A) s : on_held m s = on_client (on_queue m) s.
Proof. unfold on_client, on_queue, on_held. simpl. by destruct (m _) as [r [w q]]. Qed.

#[local] Instance last_order_keeps ql : Preserves (LastQueueOrder ql) (kview (W:=W) Queue).
Proof. unfold LastQueueOrder, Sort. preserves. Qed.
#[local] Instance top_order_keeps ql : Preserves (TopQueueOrder ql) (kview (W:=W) Queue).
Proof. unfold TopQueueOrder, Sort. preserves. Qed.
#[local] Instance list_queues_keeps qc opts : Preserves (listQueues qc opts) (kview (W:=W) Queue).
Proof. unfold listQueues. pose proof (list_own_preserves (W:=W) (T:=Queue)). preserves. Qed.

Lemma phase_set_order n q : phase_of (set_order n q) = phase_of q.
Proof. by destruct q. Qed.

(** A queue is put back behind or in front of the others. *)
Definition put_back (qc : controller) (g : Queue -> Queue) (order : QueueList -> M W (Z * QueueList))
    : M (W * Queue) unit :=
  do q <- get_obj;
  do ql <- onW (listQueues qc (Some (InNamespace (kns q))));
  do t <- onW now;
  run mod_obj (fun q => q <| queue_Status ::= fresh_status t |>);
  run mod_obj g;
  do ' (n, _) <- onW (order ql);
  run mod_obj (set_order n);
  do q <- get_obj;
  onW (k_update q).

Lemma put_back_reached qc g order t V p s :
  (forall ql, Preserves (order ql) (kview (W:=W) Queue)) ->
  (forall q, phase_of (g q) = (phase_of q) <| ph_type := t |>) ->
  at_phase V p s -> advance p (try_again t p) -> wp (on_held (put_back qc g order)) s (reached V).
Proof.
  intros Horder Hg [Hs Hp] Hadv. apply wp_on_held. unfold held_phase in Hp.
  assert (forall w q, view (w, q) = view s -> phase_of q = phase_of (h_queue (snd s)) \/ phase_of q = try_again t p ->
            ahead phase_of advance V (w, q)) as Hahead.
  { intros w q Hv Hq. eapply (ahead_move phase_of advance); [exact Hs|exact Hv|]. simpl.
    destruct Hq as [->| ->]; [done|]. rewrite Hp. by apply rtc_once. }
  assert (forall (x : W * Queue) A (r : outcome A), ahead phase_of advance V x ->
            reached V r (fst x, (snd s) <| h_queue := snd x |>)) as Hend.
  { intros [w q] A r Hx. by exists (phase_of q). }
  unfold put_back. wp_step. wp_step. cbn [snd fst].
  wp_step. apply wp_onW, wp_frame with (v := kview Queue); [apply _|].
  intros [ql|e|pr] w1 _ Hw1; [|apply (Hend (_, _)), Hahead; [done|by left]..].
  wp_step. apply wp_onW, wp_frame with (v := kview Queue); [apply _|].
  intros [tm|e|pr] w2 _ Hw2; [|apply (Hend (_, _)), Hahead; [simpl in *; congruence|by left]..].
  do 4 wp_step. cbn [snd fst] in *.
  set (q1 := g _). assert (phase_of q1 = try_again t p) as Hq1 by (subst q1; rewrite Hg, <- Hp; done).
  wp_step. apply wp_onW, wp_frame with (v := kview Queue); [apply _|]. cbn [snd fst].
  intros [[n l]|e|pr] w3 _ Hw3; [|apply (Hend (_, _)), Hahead; [simpl in *; congruence|by right]..].
  do 4 wp_step. cbn [snd fst].
  set (q2 := set_order n q1). assert (phase_of q2 = try_again t p) as Hq2 by (subst q2; by rewrite phase_set_order).
  assert (ahead phase_of advance V (w3, q2)) as Hw3' by (apply Hahead; [simpl in *; congruence|by right]).
  apply wp_onW, wp_k_update.
  - intros w4 Hin Hw4. apply (Hend (_, _)). by apply (ahead_store phase_of advance V (w3, q2)).
  - intros e w4 Hw4. apply (Hend (_, _)), Hahead; [simpl in *; congruence|by right].
Qed.

Lemma retry_reached qc n at' V p s :
  at_phase V p s -> advance p (try_again QueueTypeUpgrade p) ->
  wp (on_client (SetRetryQueue qc n at')) s (reached V).
Proof.
  intros Hs Hadv. eapply wp_ext; [apply on_client_queue|].
  by apply (put_back_reached qc (fun q => q <| queue_Spec ::= fun sp =>
    sp <| qs_NextProcessAt := Some at' |> <| qs_NoOfRetry := n |> <| qs_Type := QueueTypeUpgrade |> |>)
    LastQueueOrder QueueTypeUpgrade V p s); [apply _|..].
Qed.
Lemma reverify_reached qc V p s :
  at_phase V p s -> advance p (try_again QueueTypeReverify p) ->
  wp (on_client (SetReverifyQueueAtFirst qc)) s (reached V).
Proof.
  intros Hs Hadv. eapply wp_ext; [apply on_client_queue|].
  by apply (put_back_reached qc (fun q => q <| queue_Spec ::= fun sp => sp <| qs_Type := QueueTypeReverify |> |>)
    TopQueueOrder QueueTypeReverify V p s); [apply _|..].
Qed.

#[local] Instance retry_count_keeps f :
  Preserves (mod_queue (W:=W) (fun q => q <| queue_Spec ::= fun sp => sp <| qs_NoOfRetry ::= f |> |>))
    (of_both (kview Queue) held_phase).
Proof. by apply mod_obj_both. Qed.

Ltac requeue_step :=
  lazymatch goal with
  | |- wp (on_client (SetRetryQueue _ _ _)) _ _ => eapply wp_mono; [eapply (retry_reached _); [eassumption|]|]
  | |- wp (on_client (SetReverifyQueueAtFirst _)) _ _ => eapply wp_mono; [eapply (reverify_reached _); [eassumption|]|]
  end; cbv beta; try intros [[]|?|?] ? [??].

Lemma again_advances q t :
  ph_state (phase_of q) = Deleting -> is_switch (ph_type (phase_of q)) = false ->
  IsDeploySuccess q && IsTestSuccess q && negb (IsReverify q) = false ->
  t = QueueTypeUpgrade \/ (t = QueueTypeReverify /\ IsReverify q = false) ->
  advance (phase_of q) (try_again t (phase_of q)).
Proof.
  intros Hst Hsw Hf Ht. apply advance_again; [done..|]. destruct Ht as [->|[-> Hr]]; [by left|right].
  split; [done|]. by apply bool_decide_eq_false in Hr.
Qed.

Lemma delete_reached V p s :
  at_phase V p s -> ph_state p = Deleting -> is_switch (ph_type p) = false -> wp (StgUtil.deleteQueue c) s (reached V).
Proof.
  intros Hs Hst Hsw. assert (p = phase_of (h_queue (snd s))) as -> by (symmetry; apply Hs).
  unfold StgUtil.deleteQueue, retry_failed, wrapping.
  repeat first [requeue_step | stage_step]; try stage_end.
  all: apply again_advances; [done|done| |by auto].
  all: by match goal with E : IsReverify _ = _ |- _ => rewrite E end.
Qed.

(** One step of the queue, whatever its state. *)
Lemma step_reached V p s :
  KFrame W StableComponent (kview (W:=W) Queue) -> at_phase V p s -> wp (step_queue c) s (reached V).
Proof.
  intros KFS Hs. unfold step_queue. stage_step. stage_step. cbv zeta.
  assert (qst_State (queue_Status (h_queue (snd s))) = ph_state p) as -> by by destruct Hs as [_ <-].
  assert (qs_Type (queue_Spec (h_queue (snd s))) = ph_type p) as -> by by destruct Hs as [_ <-].
  destruct (is_switch (ph_type p)) eqn:Hsw.
  - destruct (ph_state p) as [ | | | | | | | | | |[|ch st]] eqn:Hst; try (stage_step; stage_end).
    all: try first [by eapply image_missing_reached|by eapply deploy_reached|by eapply collect_reached].
    all: repeat stage_step; try stage_end.
    + by apply advance_switch; [left|].
    + by apply advance_untested.
    + by apply advance_switch; [right|].
  - destruct (ph_state p) as [ | | | | | | | | | |[|ch st]] eqn:Hst; try (stage_step; stage_end).
    all: try first [by eapply image_missing_reached|by eapply deploy_reached|by eapply collect_reached
                   |by eapply testing_reached|by eapply delete_reached].
    + by eapply init_reached; [exact Hs|rewrite Hst; left|].
    + by eapply cleaned_reached; [exact Hs| |apply advance_clean].
    + by eapply cleaned_reached; [exact Hs| |apply advance_cleaned].
    + by eapply init_reached; [exact Hs|rewrite Hst; right|].
Qed.
End steps.

(** ** Picking a queue *)

Section loop.
Context {W : Type} `{GR : GoRuntime W} `{GS : GoSort} `{GD : GoDuration} `{GO : GoSchedule W}.
Context `{CFG : ConfigController W} `{RPC : SamsahaiRPC W} `{SC : StagingCluster W} `{SO : StagingOutside W}.
Context `{CO : ConfigOutside W} (c : staging W).
Context `{KVQ : KView W Queue} `{KLQ : !KClientLaws W Queue}.
Context {SF : StagingFrame W c (kview Queue)} {KFS : KFrame W StableComponent (kview (W:=W) Queue)}.
Context (RK : forall name r, sg_testRunners c !! name = Some r -> RunnerKeeps r).

Notation store := (gmap (string * string) Queue).
Implicit Types (V : store) (w : W) (q : Queue).

(** What is stored was stored before, but for the numbers of the queues. *)
Definition renumbered V V' : Prop :=
  forall k a', V' !! k = Some a' -> exists a n, V !! k = Some a /\ a' = set_order n a.

(** A queue that is stored, but for its number. *)
Definition numbered V q : Prop := exists a n, V !! kkey q = Some a /\ q = set_order n a.

Lemma set_order_own q : q = set_order (qs_NoOfOrder (queue_Spec q)) q.
Proof. by destruct q as [? [] ?]. Qed.
Lemma renumbered_refl V : renumbered V V.
Proof. intros k a Ha. exists a. eexists. split; [done|]. apply set_order_own. Qed.

Lemma renumber_numbered V current n items q :
  (forall x, x ∈ items -> numbered V x) -> q ∈ renumber current n items -> numbered V q.
Proof.
  revert n. induction items as [|x items IH]; intros n Hin; cbn [renumber]; [by intros ?%elem_of_nil|].
  assert (forall k, numbered V (set_order k x)) as Hx.
  { intros k. destruct (Hin x) as (a & m & Ha & ->); [left|]. exists a, k. by destruct a. }
  destruct (String.eqb _ _); intros [->|Hq]%elem_of_cons; auto; (eapply IH; [|exact Hq]); intros y Hy; apply Hin; by right.
Qed.

Lemma renumbered_update V V' q : renumbered V V' -> numbered V q -> renumbered V (store_update q V').
Proof.
  intros HV (a & m & Ha & Hp) k a' Hk. unfold store_update in Hk. case_decide.
  - apply lookup_delete_Some in Hk as [_ Hk]. by apply HV.
  - apply lookup_insert_Some in Hk as [[<- <-]|[_ Hk]]; [by exists a, m|by apply HV].
Qed.

#[local] Instance sort_keeps ql : Preserves (Sort ql) (kview (W:=W) Queue).
Proof. unfold Sort. preserves. Qed.
#[local] Instance first_keeps ql : Preserves (First ql) (kview (W:=W) Queue).
Proof. unfold First. preserves. Qed.

Lemma reset_numbered V items cur w :
  kview Queue w = V -> (forall q, q ∈ items -> numbered V q) ->
  wp (resetQueueOrderWithCurrentQueue items cur) w (fun r w' => kview Queue w' = V /\
    match r with Ok l => forall q, q ∈ l -> numbered V q | _ => True end).
Proof.
  intros Hw Hin. unfold resetQueueOrderWithCurrentQueue. wp_step.
  apply (wp_preserve (kview Queue)); [apply _|]. apply wp_Sort. intros t w1 items1 _ _ Hp _ Hw1.
  rewrite Hw in Hw1.
  destruct items1 as [|x items1]; [wp_step; split; [done|by intros q ?%elem_of_nil]|].
  wp_step. wp_step. destruct cur as [i|]; [|done].
  wp_step. wp_step. destruct (_ !! i) as [y|]; [|done]. wp_step. split; [done|].
  intros q. apply renumber_numbered. intros z Hz. apply Hin. by rewrite <- Hp.
Qed.

Lemma updates_numbered V l w :
  kview Queue w = V -> (forall q, q ∈ l -> numbered V q) ->
  wp (updateQueueList l) w (fun _ w' => renumbered V (kview Queue w')).
Proof.
  intros Hw Hin. unfold updateQueueList.
  apply (wp_for_each (fun l w => renumbered V (kview Queue w) /\ forall q, q ∈ l -> numbered V q)).
  - split; [|done]. rewrite Hw. apply renumbered_refl.
  - intros x l' w1 [Hs Hl]. wp_step. wp_step. apply wp_k_update.
    + intros w2 _ Hw2. wp_step. rewrite Hw2. split; [apply renumbered_update; [done|apply Hl; left]|].
      intros q Hq. apply Hl. by right.
    + intros e w2 Hw2. wp_step. by rewrite Hw2.
  - by intros w1 [Hs _].
Qed.

Lemma first_numbered qc ns w :
  wp (FirstQueue qc ns) w (fun r w' => renumbered (kview Queue w) (kview Queue w') /\
    match r with Ok (Some q) => numbered (kview Queue w) q | _ => True end).
Proof.
  set (V := kview Queue w). assert (renumbered V V) as Hrefl by apply renumbered_refl.
  unfold FirstQueue, listQueues. wp_step. wp_step. wp_step. apply wp_k_list; [|by intros e w1 Hw1; wp_step; rewrite Hw1].
  intros items w1 Hitems Hw1. wp_step.
  assert (forall q, q ∈ items -> numbered V q) as Hin.
  { intros q [Hq _]%(listed_in _ _ _ _ Hitems). exists q. eexists. split; [done|]. apply set_order_own. }
  wp_step. eapply wp_mono.
  { instantiate (1 := fun r w' => kview Queue w' = V /\
      match r with Ok (_, l) => l ≡ₚ items | _ => True end).
    apply (wp_preserve (kview Queue)); [apply _|]. apply wp_First.
    - by intros -> _.
    - intros i q items1 Hp _ _ _ Hw2. by rewrite Hw2. }
  cbv beta. intros [[cur items1]|e|pr] w2 [Hw2 Hp]; [|by rewrite Hw2..].
  wp_step. eapply wp_mono; [apply reset_numbered; [exact Hw2|]|].
  { intros q Hq. apply Hin. by rewrite <- Hp. }
  cbv beta. intros [l|e|pr] w3 [Hw3 Hl]; [|by rewrite Hw3..].
  wp_step. eapply wp_mono; [by apply updates_numbered|]. cbv beta.
  intros [[]|e|pr] w4 Hs4; [|done..]. destruct cur as [i|]; [|by wp_step]. wp_step. wp_step.
  destruct (l !! i) as [q|] eqn:Hq; [|done]. apply list_elem_of_lookup_2, Hl in Hq.
  destruct (qs_NextProcessAt (queue_Spec q)); [|by wp_step]. wp_step.
  apply wp_frame with (v := kview Queue); [apply _|]. intros [t0|e|pr] w6 _ Hw6; [|by rewrite Hw6..].
  wp_step. rewrite Hw6. split; [done|]. by destruct (_ <? _).
Qed.

(** ** A turn of the loop *)

(** A queue is not behind the stored one. *)
Definition in_step w q : Prop :=
  forall a, kview Queue w !! kkey q = Some a -> rtc advance (phase_of a) (phase_of q).
(** A queue that is not read again is in step. *)
Definition keeps_up w (currentQueue : option Queue) : Prop :=
  forall q, currentQueue = Some q -> isQueueStateValid q = false -> in_step w q.

Lemma renumbered_evolves V V' : renumbered V V' -> evolves phase_of advance V V'.
Proof.
  intros H k a' Ha. destruct (H _ _ Ha) as (a & n & Hk & ->). exists a. by rewrite phase_set_order.
Qed.

Lemma picked_in_step V w currentQueue :
  evolves phase_of advance V (kview Queue w) -> keeps_up w currentQueue ->
  wp (match currentQueue with
      | Some q => mret (inr (Some q))
      | None => attempt (FirstQueue (sg_queueCtrl c) (sg_namespace c))
      end) w (fun r w' => evolves phase_of advance V (kview Queue w') /\
        match r with Ok (inr (Some q)) => keeps_up w' (Some q) | _ => True end).
Proof.
  intros He Hk. destruct currentQueue as [q|]; [by wp_step|]. wp_step.
  eapply wp_mono; [apply first_numbered|]. cbv beta.
  assert (forall w', renumbered (kview Queue w) (kview Queue w') ->
            evolves phase_of advance V (kview Queue w')) as Hev.
  { intros w' Hs. by eapply evolves_trans, renumbered_evolves. }
  intros [[q|]|e|pr] w' [Hs Hn]; (split; [by apply Hev|]); try done.
  intros q' [= <-] _ a Ha. destruct (Hs _ _ Ha) as (b & n & Hb & ->). destruct Hn as (b' & n' & Hb' & ->).
  assert (b' = b) as -> by congruence. by rewrite !phase_set_order.
Qed.

Lemma synced_ahead V w q :
  evolves phase_of advance V (kview Queue w) -> keeps_up w (Some q) ->
  wp (if isQueueStateValid q then attempt (syncQueueWithK8s q) else mret (inr q)) w
    (fun r w' => evolves phase_of advance V (kview Queue w') /\
      match r with
      | Ok (inr q') => ahead phase_of advance V (w', q')
      | Ok (inl _) => isQueueStateValid q = true
      | _ => True
      end).
Proof.
  intros He Hk. destruct (isQueueStateValid q) eqn:Hq; [|by wp_step; split; [|split; [|by apply Hk]]].
  unfold syncQueueWithK8s. wp_step. wp_step. wp_step. apply wp_k_get.
  - intros fetched w' Hf Hw. wp_step. rewrite Hw. split; [done|]. apply ahead_stored; simpl; rewrite Hw; [done|].
    by rewrite (k_view_keyed _ _ _ Hf).
  - intros e w' Hn Hw. destruct (IsNotFound e); [|by wp_step; rewrite Hw].
    wp_step. apply wp_frame with (v := kview Queue); [apply _|].
    intros [t|e'|pr] w2 _ Hw2; [|by rewrite Hw2, Hw..]. wp_step. rewrite Hw2, Hw. split; [done|].
    split; simpl; rewrite Hw2, Hw; [done|]. intros a. change (kkey (SetState t Cancelling q)) with (kkey q).
    change (kkey q) with (kns q, kname q). rewrite Hn by done. done.
Qed.

Lemma process_evolves V currentQueue w :
  evolves phase_of advance V (kview Queue w) -> keeps_up w currentQueue ->
  wp (process c currentQueue) w (fun r w' => evolves phase_of advance V (kview Queue w') /\
    match r with Ok (_, currentQueue') => keeps_up w' currentQueue' | _ => True end).
Proof.
  intros He Hk. unfold process. wp_step.
  eapply wp_mono; [by apply (picked_in_step V)|]. cbv beta.
  intros [[e|[q|]]|e|pr] w1 [He1 Hk1]; try (by wp_step); try done.
  wp_step. eapply wp_mono; [by apply synced_ahead|]. cbv beta.
  intros [[e|q']|e|pr] w2 [He2 Hk2]; try done.
  { wp_step. split; [done|]. intros q0 [= <-]. by rewrite Hk2. }
  wp_step. apply wp_with_obj, wp_attempt.
  eapply wp_mono; [by apply (step_reached c RK V (phase_of q'))|]. cbv beta.
  assert (forall s A (r : outcome A), reached V r s ->
    evolves phase_of advance V (kview Queue (fst s)) /\
    keeps_up (fst s) (if h_held (snd s) then Some (h_queue (snd s)) else None)) as Hend.
  { intros s A r (p & [Hs1 Hs2] & Hp). split; [done|]. destruct (h_held (snd s)); [|done].
    intros q0 [= <-] _. exact Hs2. }
  intros [[]|e|pr] s Hs; [wp_step; by eapply Hend|wp_step; by eapply Hend|].
  destruct (Hend _ _ _ Hs). done.
Qed.
End loop.
