(* ===== verification/StgRunnerSpec.v ===== *)
(** The test runners of [StgRunners] keep to what the staging controller relies on: they
    write their own part of the status, and store the queue at most once. *)

From S2P Require Import Prelude.
From S2P Require Import GoRuntime.
From S2P Require Import Errors.
From S2P Require Import KubeApi.
From S2P Require Import Frame.
From S2P Require Import ConfigTypes.
From S2P Require Import QueueTypes.
From S2P Require Import StgTypes.
From S2P Require Import StgRunners.
From S2P Require Import StgFrame.
From S2P Require Import StgSpec.
Open Scope string_scope.
Open Scope list_scope.
Open Scope Z_scope.

(** The servers of the test runners have no access to the cluster. *)
Class ServersFrame (W : Type) `{RS : RunnerServers W} {V : Type} (v : W -> V) : Prop := {
  svf_teamcity_post :: forall url r, Preserves (srv_teamcity_post url r) v;
  svf_teamcity_get :: forall url, Preserves (srv_teamcity_get url) v;
  svf_gitlab_post :: forall url r, Preserves (srv_gitlab_post url r) v;
  svf_gitlab_get :: forall url, Preserves (srv_gitlab_get url) v;
}.

Section runners.
Context {W : Type} `{GO : GoSchedule W} `{KQ : KClient W Queue} `{RS : RunnerServers W}.
Context `{KVQ : KView W Queue} `{KLQ : !KClientLaws W Queue}.
Context {SF : ScheduleFrame W (kview Queue)} {VF : ServersFrame W (kview Queue)}.
Implicit Types (w : W) (q : Queue).

Lemma runner_writes_refl q : runner_writes q q.
Proof. exists (fun t => t). by destruct q as [? ? []]. Qed.
Lemma runner_may_nothing w q w' : kview Queue w' = kview Queue w -> runner_may w q (w', q).
Proof. intros Hw. split; [apply runner_writes_refl|by left]. Qed.

Lemma wp_within_time m w q :
  wp m (w, q) (fun _ s => runner_may w q s) -> wp (within_time m) (w, q) (fun _ s => runner_may w q s).
Proof.
  intros Hm. unfold within_time. wp_step. wp_step. eapply wp_mono; [exact Hm|]. cbv beta.
  assert (forall A (r : error + A) s, runner_may w q s ->
    wp (do timeout <- onW coin;
        if (timeout : bool) then throw Errors.ErrRequestTimeout
        else match r with inl err => throw err | inr _ => mret tt end) s (fun _ s => runner_may w q s)) as Hrest.
  { intros A r [w1 q1] Hs. wp_step. apply wp_onW, wp_frame with (v := kview Queue); [apply _|].
    intros r2 w2 _ Hw2. assert (runner_may w q (w2, q1)) as Hs2.
    { destruct Hs as [Hq Hv]. split; [done|]. simpl in *. by rewrite Hw2. }
    destruct r2 as [[]|e|p]; [by wp_step|by destruct r; wp_step|done..]. }
  intros [[]|e|p] s Hs; [by apply (Hrest _ (inr tt))|by apply (Hrest unit (inl e))|done].
Qed.

(** A request to the server, and the answer stored with the queue. *)
Lemma wp_ask_and_store {A} (ask : M W A) (f : A -> TestRunner -> TestRunner) has_client w q :
  Preserves ask (kview Queue) ->
  wp (do a <- onW ask;
      run mod_obj (fun q => q <| queue_Status ::= fun s => s <| qst_TestRunner ::= f a |> |>);
      store_queue has_client) (w, q) (fun _ s => runner_may w q s).
Proof.
  intros Hask. wp_step. apply wp_onW, wp_frame with (v := kview Queue); [apply _|].
  intros [a|e|p] w1 _ Hw1; [|by apply runner_may_nothing..].
  wp_step. wp_step. set (q1 := _ <| queue_Status ::= _ |>).
  assert (runner_writes q q1) as Hq1 by by exists (f a).
  assert (runner_may w q (w1, q1)) as H1 by (split; [done|by left]).
  unfold store_queue. destruct has_client; [|by wp_step].
  wp_step. wp_step. apply wp_onW, wp_k_update; simpl.
  - intros w2 Hin Hw2. split; [done|]. right. simpl. rewrite Hw2, Hw1. rewrite Hw1 in Hin. by split.
  - intros e w2 Hw2. split; [done|]. left. simpl in *. congruence.
Qed.

#[export] Instance teamcity_keeps baseURL has_client : RunnerKeeps (teamcity_runner baseURL has_client).
Proof.
  split; intros cfg w q; simpl.
  - unfold teamcity_trigger, needs_config. destruct cfg as [cfg|]; [|wp_step; wp_step; wp_step; by apply runner_may_nothing].
    wp_step. wp_step. destruct (tr_Teamcity cfg) as [tc|]; [|by apply runner_may_nothing].
    wp_step. wp_step. apply wp_within_time.
    apply (wp_ask_and_store (srv_teamcity_post _ _) (fun buildID t => t <| trn_Teamcity ::= _ |>)). apply _.
  - unfold teamcity_result. wp_step. wp_step. destruct cfg as [cfg|]; [|wp_step; by split; [apply runner_writes_refl|]].
    wp_step. wp_step. destruct (tr_Teamcity cfg) as [tc|]; [|by split; [apply runner_writes_refl|]].
    destruct (negb _); [wp_step; by split; [apply runner_writes_refl|]|]. wp_step. wp_step. wp_step.
    apply wp_frame with (v := kview Queue); [apply _|].
    intros [res|e|p] w1 _ Hw1; [|by repeat wp_step; split; [apply runner_writes_refl|]..].
    repeat wp_step. split; [by eexists|done].
Qed.

#[export] Instance gitlab_keeps baseURL has_client : RunnerKeeps (gitlab_runner baseURL has_client).
Proof.
  split; intros cfg w q; simpl.
  - unfold gitlab_trigger, needs_config. destruct cfg as [cfg|]; [|wp_step; wp_step; wp_step; by apply runner_may_nothing].
    wp_step. wp_step. destruct (tr_Gitlab cfg) as [gl|]; [|by apply runner_may_nothing].
    wp_step. wp_step. apply wp_within_time.
    match goal with |- wp (mbind _ (onW ?ask)) _ _ =>
      eapply wp_ext; [|apply (wp_ask_and_store ask (fun a t =>
        t <| trn_Gitlab ::= SetGitlab (branch_name (W:=W) (gl_Branch gl) (qs_PRNumber (queue_Spec q)))
               (pretty (fst a)) (snd a) ("#" +:+ pretty (fst a)) |>)); apply _]
    end.
    apply bind_ext; [done|]. by intros [id url].
  - unfold gitlab_result. wp_step. wp_step. destruct cfg as [cfg|]; [|wp_step; by split; [apply runner_writes_refl|]].
    wp_step. wp_step. destruct (tr_Gitlab cfg) as [gl|]; [|by split; [apply runner_writes_refl|]].
    destruct (negb _); [wp_step; by split; [apply runner_writes_refl|]|]. wp_step. wp_step.
    apply wp_frame with (v := kview Queue); [apply _|].
    intros [[code [err|body]]|e|p] w1 _ Hw1; [|destruct (srv_gitlab_decode body)|..];
      repeat wp_step; (split; [apply runner_writes_refl|done]).
Qed.

#[export] Instance testmock_keeps : RunnerKeeps (W:=W) testmock_runner.
Proof.
  split; intros cfg w q; simpl.
  - wp_step. by apply runner_may_nothing.
  - unfold testmock_result. wp_step. wp_step. destruct cfg as [cfg|]; [destruct (tr_TestMock cfg)|];
      wp_step; (split; [apply runner_writes_refl|done]).
Qed.
End runners.

(** What the requests, the schedule and the stores leave alone, a runner leaves alone. *)
Section runner_frames.
Context {W : Type} `{GO : GoSchedule W} `{KQ : KClient W Queue} `{RS : RunnerServers W}.
Context {V : Type} (v : W -> V) {SF : ScheduleFrame W v} {VF : ServersFrame W v} {KF : KFrame W Queue v}.

#[export] Instance store_queue_frame has_client : Preserves (store_queue (W:=W) has_client) (of_world v).
Proof. unfold store_queue. preserves. Qed.
#[export] Instance within_time_frame (m : M (W * Queue) unit) :
  Preserves m (of_world v) -> Preserves (within_time m) (of_world v).
Proof. intros Hm. unfold within_time. preserves. Qed.

#[export] Instance teamcity_frame baseURL has_client : RunnerFrame (teamcity_runner (W:=W) baseURL has_client) v.
Proof.
  split; intros cfg; simpl; [unfold teamcity_trigger, needs_config|unfold teamcity_result]; preserves.
Qed.
#[export] Instance gitlab_frame baseURL has_client : RunnerFrame (gitlab_runner (W:=W) baseURL has_client) v.
Proof.
  split; intros cfg; simpl; [unfold gitlab_trigger, needs_config|unfold gitlab_result]; preserves.
Qed.
#[export] Instance testmock_frame : RunnerFrame (testmock_runner (W:=W)) v.
Proof. split; intros cfg; simpl; [|unfold testmock_result]; preserves. Qed.
End runner_frames.
