(* ===== verification/StgSim.v ===== *)
(** A cluster in memory for the staging controller: stores for the objects it works on, the
    releases of an engine, one configuration, and servers of the test runners that answer
    from a list.  It satisfies the assumptions of the theorems and is the world of their
    concrete runs. *)

From S2P Require Import Prelude.
From S2P Require Import GoRuntime.
From S2P Require Import Errors.
From S2P Require Import KubeApi.
From S2P Require Import Frame.
From S2P Require Import ConfigTypes.
From S2P Require Import ComponentTypes.
From S2P Require Import QueueTypes.
From S2P Require Import RpcTypes.
From S2P Require Import QueueCtrl.
From S2P Require Import Interfaces.
From S2P Require Import ConfigCtrl.
From S2P Require Import StgTypes.
From S2P Require Import StgRunners.
From S2P Require Import StgCtrl.
From S2P Require Import StgFrame.
From S2P Require Import StgSpec.
From S2P Require Import StgRunnerSpec.
Open Scope string_scope.
Open Scope list_scope.
Open Scope Z_scope.

Record StgSim := mkStgSim {
  ss_clock : Z;
  ss_queues : gmap (string * string) Queue;
  ss_stables : gmap (string * string) StableComponent;
  ss_hists : gmap (string * string) QueueHistory;
  ss_objects : objects;
  ss_releases : gmap string ComponentValues;
  ss_config : option ConfigSpec;
  ss_components : gmap string Component;
  ss_missing : list RpcImage;
  ss_schedule : list nat;
  ss_answers : list (error + teamcityResult);
}.
#[export] Instance eta_StgSim : Eta StgSim := fun x =>
  mkStgSim (ss_clock x) (ss_queues x) (ss_stables x) (ss_hists x) (ss_objects x) (ss_releases x)
    (ss_config x) (ss_components x) (ss_missing x) (ss_schedule x) (ss_answers x).

#[export] Instance ssim_clock : HasClock StgSim :=
  {| clock_get := ss_clock; clock_set t w := w <| ss_clock := t |> |}.
#[export] Instance ssim_queues : HasStore StgSim Queue :=
  {| store_get := ss_queues; store_set m w := w <| ss_queues := m |>; store_get_set _ _ := eq_refl |}.
#[export] Instance ssim_stables : HasStore StgSim StableComponent :=
  {| store_get := ss_stables; store_set m w := w <| ss_stables := m |>; store_get_set _ _ := eq_refl |}.
#[export] Instance ssim_hists : HasStore StgSim QueueHistory :=
  {| store_get := ss_hists; store_set m w := w <| ss_hists := m |>; store_get_set _ _ := eq_refl |}.
#[export] Program Instance ssim_objects k : HasStore StgSim (KubeObj k) := {|
  store_get w := ss_objects w k;
  store_set m w := w <| ss_objects ::= set_kind k m |>;
|}.
Next Obligation. intros k m w. apply set_kind_same. Qed.
#[export] Instance ssim_cluster : StagingCluster StgSim := {|
  sgc_queue := mem_client; sgc_stable := mem_client; sgc_hist := mem_client; sgc_objects k := mem_client |}.

#[export] Instance ssim_sort : GoSort := insertion_GoSort.
#[export] Instance ssim_duration : GoDuration := fun s =>
  if String.eqb s "48h" then inr (48 * Hour) else inl (Errors.New "invalid duration").
(** The choices of the schedule come from a list. *)
#[export] Instance ssim_schedule : GoSchedule StgSim := fun n w =>
  match ss_schedule w with
  | [] => (0%nat, w)
  | k :: rest => (Nat.min k (n - 1), w <| ss_schedule := rest |>)
  end.
#[export] Instance ssim_schedule_laws : GoScheduleLaws StgSim.
Proof. intros n w Hn. unfold rt_choose, ssim_schedule. destruct (ss_schedule w); simpl; lia. Qed.

#[export] Instance ssim_configs : ConfigController StgSim := {|
  cfg_Get team := fun w => match ss_config w with
    | Some cfg => (Ok (mkConfig (namedMeta "" team) cfg (mkConfigStatus cfg "" false [])), w)
    | None => (Err NotFoundError, w)
    end;
  cfg_GetComponents _ := fun w => (Ok (ss_components w), w);
  cfg_GetParentComponents _ := fun w => (Ok (filter (fun p => cp_Parent (snd p) = "") (ss_components w)), w);
  cfg_GetPullRequestComponents _ _ _ := fun w => (Ok (ss_components w), w);
  cfg_GetBundles _ := mret ∅;
  cfg_GetPriorityQueues _ := mret [];
  cfg_GetStagingConfig _ := mret None;
  cfg_GetPullRequestConfig _ := mret None;
  cfg_GetPullRequestBundleDependencies _ _ := mret [];
  cfg_Update _ := mret tt;
  cfg_Delete _ := mret tt;
  cfg_EnsureConfigTemplateChanged := mret tt;
|}.

#[export] Instance ssim_rpc : SamsahaiRPC StgSim := {|
  rpc_GetTeamActiveNamespace team := mret (mkTeamWithNamespace team "");
  rpc_RunPostComponentUpgrade _ := mret tt;
  rpc_RunPostPullRequestQueue _ := mret tt;
  rpc_RunPostPullRequestTrigger _ := mret tt;
  rpc_RunPostPullRequestQueueTestRunnerTrigger _ := mret tt;
  rpc_GetMissingVersions _ := fun w => (Ok (ss_missing w), w);
  rpc_SendUpdateStateQueueMetric _ := mret tt;
  rpc_GetBundleName _ := mret "";
  rpc_GetPriorityQueues _ := mret [];
  rpc_GetPullRequestBundleDependencies _ := mret [];
  rpc_GetPullRequestConfig _ := throw NotFoundError;
  rpc_GetPullRequestComponentSources _ := mret [];
  rpc_GetComponentVersion _ := mret "";
  rpc_DeployActiveServicesIntoPullRequestEnvironment _ := mret tt;
  rpc_CreatePullRequestEnvironment _ := mret tt;
  rpc_DestroyPullRequestEnvironment _ := mret tt;
|}.

#[export] Instance ssim_outside : StagingOutside StgSim := {|
  sgo_getRuntimeClient := mret tt;
  sgo_createDeploymentZipLogs _ := mret "zip";
  sgo_GetMRSourceBranch _ _ := mret "";
  sgo_GetNewReplicaSet _ := mret None;
  sgo_MaxUnavailable _ := 0;
|}.
#[export] Instance ssim_config_outside : ConfigOutside StgSim := {|
  co_Merge a b := inr (a, b);
  co_ConfigHash _ := "";
  co_http_Get _ := mret "";
  co_Unmarshal _ := inr [];
  co_teamNameRendering _ url := url;
|}.

(** An engine that keeps the values of its releases; every release is deployed at once. *)
Definition sim_release (name : string) : Release := mkRelease name 1 ReleaseDeployed "".
Definition release_engine : DeployEngine StgSim := {|
  de_GetName := "helm3";
  de_Create ref _ _ values _ := fun w => (Ok tt, w <| ss_releases ::= insert ref values |>);
  de_Rollback _ _ := mret tt;
  de_GetHistories ref := mret [sim_release ref];
  de_GetReleases := fun w => (Ok (map (fun p => sim_release (fst p)) (map_to_list (ss_releases w))), w);
  de_Delete ref := fun w => (Ok tt, w <| ss_releases ::= delete ref |>);
  de_ForceDelete ref := fun w => (Ok tt, w <| ss_releases ::= delete ref |>);
  de_GetLabelSelectors ref := {[ "release" := ref ]};
  de_WaitForPreHookReady _ := mret true;
  de_IsMocked := false;
|}.

#[export] Instance ssim_servers : RunnerServers StgSim := {|
  srv_teamcity_post _ _ := mret "1";
  srv_teamcity_get _ := fun w => match ss_answers w with
    | [] => (Err NotFoundError, w)
    | inl err :: rest => (Err err, w <| ss_answers := rest |>)
    | inr answer :: rest => (Ok answer, w <| ss_answers := rest |>)
    end;
  srv_gitlab_post _ _ := throw NotFoundError;
  srv_gitlab_get _ := throw NotFoundError;
  srv_gitlab_decode _ := inl NotFoundError;
  srv_TextRender t _ := t;
  srv_QueryEscape s := s;
  srv_Version := "";
  srv_GitCommit := "";
|}.

(** ** It satisfies the assumptions *)

Section laws.
Context {V : Type} (v : StgSim -> V).
Context (Hclock : forall t w, v (w <| ss_clock := t |>) = v w).
Context (Hhists : forall m w, v (w <| ss_hists := m |>) = v w).
Context (Hobjects : forall f w, v (w <| ss_objects ::= f |>) = v w).
Context (Hreleases : forall f w, v (w <| ss_releases ::= f |>) = v w).
Context (Hschedule : forall l w, v (w <| ss_schedule := l |>) = v w).
Context (Hanswers : forall l w, v (w <| ss_answers := l |>) = v w).
Context (Hstables : forall opts, Preserves (k_list StableComponent opts) v).

Lemma release_engine_frame : EngineFrame release_engine v.
Proof using Hreleases. split; intros; try apply _; intros w; simpl; try done; apply Hreleases. Qed.

Lemma ssim_frame c :
  (forall name e, sg_deployEngines c !! name = Some e -> e = MockEngine \/ e = release_engine) ->
  StagingFrame StgSim c v.
Proof using Hclock Hhists Hobjects Hreleases Hschedule Hstables.
  intros Hc. split; try (intros; apply _).
  - apply sim_runtime_frame, Hclock.
  - intros n w. unfold rt_choose, ssim_schedule. destruct (ss_schedule w); [done|apply Hschedule].
  - apply mem_frame, Hhists.
  - intros k. apply mem_frame. intros m w. apply Hobjects.
  - intros name e He. destruct (Hc _ _ He) as [->| ->]; [apply _|apply release_engine_frame].
  - intros team w. simpl. by destruct (ss_config w).
  - by intros team w.
  - by intros team w.
  - by intros team bundle deps w.
  - by intros comps w.
Qed.
Lemma ssim_servers_frame : ServersFrame StgSim v.
Proof using Hanswers.
  split; intros; try apply _. intros w. simpl. destruct (ss_answers w) as [|[]]; [done|apply Hanswers..].
Qed.
End laws.
