(* ===== verification/StgEnd.v ===== *)
(** The end of a queue of the staging environment: what [StgUtil.deleteQueue] decides, and
    what [StgCollect.setStableComponent] has stored when it succeeds. *)

From S2P Require Import Prelude.
From S2P Require Import GoRuntime.
From S2P Require Import Errors.
From S2P Require Import KubeApi.
From S2P Require Import Frame.
From S2P Require Import ConfigTypes.
From S2P Require Import ComponentTypes.
From S2P Require Import QueueTypes.
From S2P Require Import RpcTypes.
From S2P Require Import QueueCtrl.
From S2P Require Import Interfaces.
From S2P Require Import ConfigCtrl.
From S2P Require Import StgTypes.
From S2P Require Import StgUtil.
From S2P Require Import StgCollect.
From S2P Require Import StgFrame.
From S2P Require Import StgMachine.
From S2P Require Import StgSpec.
Open Scope string_scope.
Open Scope list_scope.
Open Scope Z_scope.

Section decision.
Context {W : Type} `{GR : GoRuntime W} `{GS : GoSort} `{GD : GoDuration} `{GO : GoSchedule W}.
Context `{CFG : ConfigController W} `{RPC : SamsahaiRPC W} `{SC : StagingCluster W} `{SO : StagingOutside W}.
Context `{CO : ConfigOutside W} (c : staging W).
Context `{KVQ : KView W Queue} `{KLQ : !KClientLaws W Queue}.
Context {SF : StagingFrame W c (kview Queue)}.

Notation queues w := (kview Queue w).
Implicit Types (w : W) (q : Queue).

(** [q] is stored as a new try that differs in its specification by [g]: it waits, with no
    conditions and no results, at some place of the order. *)
Definition stored_again (g : QueueSpec -> QueueSpec) q (V V' : gmap (string * string) Queue) : Prop :=
  exists t n,
    V' = <[kkey q := mkQueue (queue_Meta q) ((g (queue_Spec q)) <| qs_NoOfOrder := n |>)
                       (fresh_status t (queue_Status q))]> V.

Definition over_spec (g : QueueSpec -> QueueSpec) (q : Queue) : Queue := q <| queue_Spec ::= g |>.

#[local] Instance last_order_reads ql : Preserves (LastQueueOrder ql) (kview (W:=W) Queue).
Proof. unfold LastQueueOrder, Sort. preserves. Qed.
#[local] Instance top_order_reads ql : Preserves (TopQueueOrder ql) (kview (W:=W) Queue).
Proof. unfold TopQueueOrder, Sort. preserves. Qed.
#[local] Instance list_queues_reads qc opts : Preserves (listQueues qc opts) (kview (W:=W) Queue).
Proof. unfold listQueues. pose proof (list_own_preserves (W:=W) (T:=Queue)). preserves. Qed.

Lemma put_back_stores qc g order w h :
  (forall ql, Preserves (order ql) (kview (W:=W) Queue)) ->
  om_DeletionTimestamp (queue_Meta (h_queue h)) = None ->
  wp (on_held (put_back qc (over_spec g) order)) (w, h) (fun r s =>
    r = Ok tt -> stored_again g (h_queue h) (queues w) (queues (fst s))).
Proof using KLQ SF.
  intros Horder Halive. apply wp_on_held. unfold put_back. wp_step. wp_step. cbn [fst snd].
  wp_step. apply wp_onW, wp_frame with (v := kview Queue); [apply _|]. intros [ql|e|p] w1 _ Hw1; [|done..].
  wp_step. apply wp_onW, wp_frame with (v := kview Queue); [apply _|]. intros [t|e|p] w2 _ Hw2; [|done..].
  do 4 wp_step. cbn [fst snd] in *.
  wp_step. apply wp_onW, wp_frame with (v := kview Queue); [apply _|]. intros [[n l]|e|p] w3 _ Hw3; [|done..].
  do 4 wp_step. cbn [fst snd] in *. apply wp_onW, wp_k_update; [|done].
  intros w4 _ Hw4 _. exists t, n. cbn [fst snd]. rewrite Hw4.
  rewrite store_update_plain by exact Halive. simpl in *. exact (f_equal _ (eq_trans Hw3 (eq_trans Hw2 Hw1))).
Qed.

(** What becomes of a queue whose run is over: [V] before and [V'] after. *)
Definition decided q (V V' : gmap (string * string) Queue) : Prop :=
  if succeeded (phase_of q) then V' = delete (kkey q) V
  else if IsReverify q then
    exists w, stored_again (fun s => s <| qs_NextProcessAt := Some (fst (rt_now w) + 24 * Hour) |>
      <| qs_NoOfRetry := 0 |> <| qs_Type := QueueTypeUpgrade |>) q V V'
  else
    let n := int_add (qs_NoOfRetry (queue_Spec q)) 1 in
    exists w cfg w', getConfiguration c w = (Ok cfg, w') /\
      if match cf_Staging cfg with Some staging => cs_MaxRetry staging | None => 0 end <? n
      then stored_again (fun s => s <| qs_NoOfRetry := n |> <| qs_Type := QueueTypeReverify |>) q V V'
      else exists w, stored_again (fun s => s <| qs_NextProcessAt := Some (fst (rt_now w)) |>
             <| qs_NoOfRetry := n |> <| qs_Type := QueueTypeUpgrade |>) q V V'.

Lemma decided_retry n at' w h :
  om_DeletionTimestamp (queue_Meta (h_queue h)) = None ->
  wp (on_client (SetRetryQueue (sg_queueCtrl c) n at')) (w, h) (fun r s =>
    r = Ok tt -> stored_again (fun sp => sp <| qs_NextProcessAt := Some at' |> <| qs_NoOfRetry := n |>
      <| qs_Type := QueueTypeUpgrade |>) (h_queue h) (queues w) (queues (fst s))).
Proof using KLQ SF.
  intros Ha. eapply wp_ext; [apply on_client_queue|]. by apply (put_back_stores _ (fun sp => sp <| qs_NextProcessAt := Some at' |>
    <| qs_NoOfRetry := n |> <| qs_Type := QueueTypeUpgrade |>) LastQueueOrder); [apply _|].
Qed.
Lemma decided_reverify w h :
  om_DeletionTimestamp (queue_Meta (h_queue h)) = None ->
  wp (on_client (SetReverifyQueueAtFirst (sg_queueCtrl c))) (w, h) (fun r s =>
    r = Ok tt -> stored_again (fun sp => sp <| qs_Type := QueueTypeReverify |>)
      (h_queue h) (queues w) (queues (fst s))).
Proof using KLQ SF.
  intros Ha. eapply wp_ext; [apply on_client_queue|].
  by apply (put_back_stores _ (fun sp => sp <| qs_Type := QueueTypeReverify |>) TopQueueOrder); [apply _|].
Qed.

Lemma wp_retry_failed w h :
  om_DeletionTimestamp (queue_Meta (h_queue h)) = None ->
  succeeded (phase_of (h_queue h)) = false -> IsReverify (h_queue h) = false ->
  wp (retry_failed c) (w, h) (fun r s => r = Ok tt -> decided (h_queue h) (queues w) (queues (fst s))).
Proof using KLQ SF.
  intros Ha Hs Hv. unfold decided. rewrite Hs, Hv. cbv zeta. unfold retry_failed, mod_queue.
  wp_step. wp_step. wp_step. apply wp_onW, run_wp. cbn [fst snd].
  intros [cfg|e|p] w1 Hcfg; [|done..]. cbv zeta. unfold the_queue. do 4 wp_step. cbn [snd h_queue].
  assert (queues w1 = queues w) as Hw1.
  { pose proof (preserves (m:=getConfiguration c) (v:=kview Queue) w) as Hp. by rewrite Hcfg in Hp. }
  rewrite <- Hw1. destruct (_ <? _) eqn:Hmax.
  - eapply wp_mono; [by apply decided_reverify|]. cbv beta. intros r [w2 h2] Hst Hr.
    exists w, cfg, w1. split; [done|]. simpl in Hmax |- *. rewrite Hmax. exact (Hst Hr).
  - wp_step. apply wp_onW, wp_now. intros t w2 Ht. cbn [fst snd] in Ht |- *.
    assert (queues w2 = queues w1) as Hw2 by (pose proof (now_frame (v:=kview Queue) w1) as Hp; by rewrite Ht in Hp).
    eapply wp_mono; [by apply decided_retry|]. cbv beta. intros r [w3 h3] Hst Hr. rewrite <- Hw2.
    exists w, cfg, w1. split; [done|]. simpl in Hmax |- *. rewrite Hmax. exists w1. rewrite Ht.
    exact (Hst Hr).
Qed.

(** C32: When a run of the staging controller is over, the queue is deleted if it was
    deployed and tested with success and is no verification.  Else it stays, as a new try
    that keeps its name and components and has no results: after a verification as an
    upgrade that waits for a day and starts to count its tries from zero, after another
    failure as an upgrade that can start at once, as long as the configured number of tries
    is not passed, and as a verification of the stable components when it is.  Either way
    the controller is free for the next queue. *)
Theorem deleteQueue_decides q w w' h' :
  om_DeletionTimestamp (queue_Meta q) = None ->
  (forall y, queues w !! kkey q = Some y -> om_Finalizers (queue_Meta y) = []) ->
  StgUtil.deleteQueue c (w, mkHolding q true) = (Ok tt, (w', h')) ->
  decided q (queues w) (queues w') /\ h_held h' = false.
Proof using KLQ SF.
  intros Ha Hfin Heq.
  refine (wp_run _ _ _ _ (fun r s => r = Ok tt -> decided q (queues w) (queues (fst s)) /\ h_held (snd s) = false)
            _ Heq eq_refl). clear Heq.
  unfold StgUtil.deleteQueue, the_queue. do 4 wp_step. cbn [snd h_queue]. wp_step. apply wp_wrapping.
  apply wp_onW, wp_frame with (v := kview Queue); [apply _|]. intros [[]|e|p] w1 _ Hw1; [|done..]. cbn [fst snd].
  wp_step. assert (forall m : Staging unit,
    wp m (w1, mkHolding q true) (fun r s => r = Ok tt -> decided q (queues w) (queues (fst s))) ->
    wp m (w1, mkHolding q true) (fun r s => match r with
      | Ok _ => wp clearCurrentQueue s (fun r s => r = Ok tt -> decided q (queues w) (queues (fst s)) /\ h_held (snd s) = false)
      | Err e => Err e = Ok tt -> decided q (queues w) (queues (fst s)) /\ h_held (snd s) = false
      | Panic p => Panic p = Ok tt -> decided q (queues w) (queues (fst s)) /\ h_held (snd s) = false end)) as Hend.
  { intros m Hm. eapply wp_mono; [exact Hm|]. cbv beta. intros [[]|e|p] s Hs; [|done..].
    unfold clearCurrentQueue. wp_step. intros _. split; [by apply Hs|done]. }
  apply Hend. cbn [fst] in Hw1. rewrite <- Hw1 in Hfin. rewrite <- Hw1.
  change (IsDeploySuccess q && IsTestSuccess q && negb (IsReverify q)) with (succeeded (phase_of q)).
  destruct (succeeded (phase_of q)) eqn:Hs.
  - unfold decided. rewrite Hs. wp_step. wp_step. apply wp_onW, wp_k_delete; [done| |]; cbn [fst snd].
    + intros w2 _ Hw2. by wp_step.
    + intros e w2 Hnone Hw2. destruct (IsNotFound e) eqn:He; wp_step; [|done]. intros _. cbn [fst].
      rewrite delete_id; [done|by apply Hnone].
  - destruct (IsReverify q) eqn:Hv; [|by apply wp_retry_failed].
    unfold decided. rewrite Hs, Hv. wp_step. apply wp_onW, wp_now. intros t w2 Ht. cbn [fst snd] in Ht |- *.
    assert (queues w2 = queues w1) as Hw2 by (pose proof (now_frame (v:=kview Queue) w1) as Hp; by rewrite Ht in Hp).
    eapply wp_mono; [by apply decided_retry|]. cbv beta. intros r [w3 h3] Hst Hr. rewrite <- Hw2.
    exists w1. rewrite Ht. by apply Hst.
Qed.
End decision.

(** ** Stable components *)

(** The stable component is the one that the queue asked for. *)
Definition stable_as (comp : QueueComponent) (sc : StableComponent) : Prop :=
  sc_Repository (stable_Spec sc) = qc_Repository comp /\ sc_Version (stable_Spec sc) = qc_Version comp.

Section stable.
Context {W : Type} `{GR : GoRuntime W} `{GS : GoSort} `{GD : GoDuration} `{GO : GoSchedule W}.
Context `{CFG : ConfigController W} `{RPC : SamsahaiRPC W} `{SC : StagingCluster W} `{SO : StagingOutside W}.
Context `{CO : ConfigOutside W} (c : staging W).
Context `{KVS : KView W StableComponent} `{KLS : !KClientLaws W StableComponent}.
Context {SFS : StagingFrame W c (kview StableComponent)}.

Notation stables w := (kview StableComponent w).
Implicit Types (w : W) (q : Queue) (V : gmap (string * string) StableComponent).

(** No stable component is on its way out. *)
Definition stays (sc : StableComponent) : Prop := om_DeletionTimestamp (stable_Meta sc) = None.

Lemma set_stable_stores ns comp w :
  map_Forall (fun _ => stays) (stables w) ->
  wp (set_stable c ns comp) w (fun r w' => r = Ok tt -> exists sc,
    stables w' = <[(ns, qc_Name comp) := sc]> (stables w) /\ stable_as comp sc /\ stays sc).
Proof using KLS SFS.
  intros Hstay. unfold set_stable. wp_step. wp_step. apply wp_k_get.
  - intros sc w1 Hsc Hw1. pose proof (k_view_keyed _ _ _ Hsc) as Hkey. destruct (_ && _) eqn:Heq.
    + wp_step. intros _. exists sc. rewrite Hw1, insert_id by done. apply andb_true_iff in Heq as [Hv Hr].
      split; [done|]. split; [split; by apply String.eqb_eq|exact (Hstay _ _ Hsc)].
    + apply wp_k_update; [|done]. intros w2 _ Hw2 _. set (sc' := sc <| stable_Spec ::= _ |>) in *.
      exists sc'. rewrite Hw2, store_update_plain by exact (Hstay _ _ Hsc). rewrite Hw1.
      split_and!; [by rewrite <- Hkey|done|exact (Hstay _ _ Hsc)].
  - intros e w1 Hn Hw1. destruct (IsNotFound e); [|by wp_step]. wp_step.
    apply wp_frame with (v := kview StableComponent); [apply _|]. intros [t|e'|p] w2 _ Hw2; [|done..].
    apply wp_k_create; [|done]. intros w3 _ Hw3 _. eexists. rewrite Hw3, Hw2, Hw1. by split_and!.
Qed.

(** When the stable components of a queue have been set without an error, every
    component of the queue has a stored stable component of its name with the repository
    and the version of the queue, and the stable components of all other names are as they
    were. *)
Theorem setStableComponent_stores q w w' :
  NoDup (map qc_Name (qs_Components (queue_Spec q))) ->
  map_Forall (fun _ => stays) (stables w) ->
  setStableComponent c q w = (Ok tt, w') ->
  forall key,
    (exists comp sc, comp ∈ qs_Components (queue_Spec q) /\ key = (kns q, qc_Name comp) /\
       stables w' !! key = Some sc /\ stable_as comp sc) \/
    ((forall comp, comp ∈ qs_Components (queue_Spec q) -> key <> (kns q, qc_Name comp)) /\
     stables w' !! key = stables w !! key).
Proof using KLS SFS.
  intros Hnd Hstay Heq.
  refine (wp_run _ _ _ _ (fun r w' => r = Ok tt -> forall key, _ \/ _) _ Heq eq_refl). clear Heq w'.
  unfold setStableComponent. generalize dependent w. revert Hnd.
  induction (qs_Components (queue_Spec q)) as [|comp l IH]; intros Hnd w Hstay; cbn [for_each].
  { wp_step. intros _ key. right. split; [|done]. by intros comp Hin%not_elem_of_nil. }
  cbn [map] in Hnd. apply NoDup_cons in Hnd as [Hnew Hnd].
  wp_step. eapply wp_mono; [by apply set_stable_stores|]. cbv beta. intros [[]|e|p] w1 Hw1; [|done..].
  destruct (Hw1 eq_refl) as (sc & Hv & Has & Hsc).
  eapply wp_mono; [apply IH; [done|]|]; [rewrite Hv; by apply map_Forall_insert_2|]. cbv beta.
  intros r w2 Hw2 Hr key. destruct (Hw2 Hr key) as [(comp' & sc' & Hin & Hkey & Hl & Has')|[Hno Hl]].
  - left. exists comp', sc'. split_and!; [by right|done..].
  - rewrite Hl, Hv. destruct (decide (key = (kns q, qc_Name comp))) as [->|Hne].
    + left. exists comp, sc. rewrite lookup_insert_eq. split_and!; [by left|done..].
    + right. rewrite lookup_insert_ne by done. split; [|done].
      intros comp' [->|Hin]%elem_of_cons; [done|by apply Hno].
Qed.
End stable.
