(* ===== verification/StgDeployClaims.v ===== *)
(** What the deployment of a queue hands to the engine: the versions that the queue asks
    for, over the stable versions of everything else. *)

From S2P Require Import Prelude.
From S2P Require Import GoRuntime.
From S2P Require Import Errors.
From S2P Require Import KubeApi.
From S2P Require Import ConfigTypes.
From S2P Require Import ComponentTypes.
From S2P Require Import QueueTypes.
From S2P Require Import RpcTypes.
From S2P Require Import QueueCtrl.
From S2P Require Import Values.
From S2P Require Import Interfaces.
From S2P Require Import ConfigCtrl.
From S2P Require Import StgTypes.
From S2P Require Import StgUtil.
From S2P Require Import StgDeploy.
Open Scope string_scope.
Open Scope list_scope.
Open Scope Z_scope.

(** ** The place of a component in the values of its parent *)

(** The values of the parent itself are at the top, those of a dependency under its name. *)
Definition place (parentComp comp : Component) : option (list string) :=
  if String.eqb (cp_Name comp) (cp_Name parentComp) then Some []
  else if negb (String.eqb (cp_Parent comp) "") && String.eqb (cp_Parent comp) (cp_Name parentComp)
  then Some [cp_Name comp] else None.
(** The first key on the way to its image. *)
Definition place_key (p : list string) : string := match p with [] => "image" | k :: _ => k end.

(** The image that the queue asks for is at the place [p]. *)
Definition asked (p : list string) (qComp : QueueComponent) (values : ComponentValues) : Prop :=
  (qc_Repository qComp <> "" ->
   at_path (p ++ ["image"; "repository"]) (JObject values) = Some (JString (qc_Repository qComp))) /\
  (qc_Version qComp <> "" ->
   at_path (p ++ ["image"; "tag"]) (JObject values) = Some (JString (qc_Version qComp))).
Definition silent_on_image (p : list string) (values : ComponentValues) : Prop :=
  json_wf (JObject values) /\
  silent (p ++ ["image"; "repository"]) (JObject values) /\ silent (p ++ ["image"; "tag"]) (JObject values).

Lemma asked_kept p qComp values target :
  silent_on_image p target -> asked p qComp values -> asked p qComp (MergeValues values target).
Proof.
  intros (Hwf & Hr & Ht) [H1 H2]. unfold asked. rewrite <- merge_value_object.
  by split; intros Hne; rewrite merge_silent by done; [apply H1|apply H2].
Qed.
Lemma asked_at p qComp values values' k :
  place_key p = k -> jget k values' = jget k values -> asked p qComp values -> asked p qComp values'.
Proof. intros Hk Hj. unfold asked. destruct p as [|n p]; simpl in *; subst k; by rewrite Hj. Qed.

Definition image_of (qComp : QueueComponent) : ComponentValues :=
  genCompValueFromQueue (qc_Name qComp) [qComp].
Lemma gen_of qComp qComps :
  NoDup (qc_Name <$> qComps) -> qComp ∈ qComps -> genCompValueFromQueue (qc_Name qComp) qComps = image_of qComp.
Proof.
  unfold image_of. induction qComps as [|q qComps IH]; intros Hnd Hin; [by apply elem_of_nil in Hin|].
  apply NoDup_cons in Hnd as [Hnew Hnd]. apply elem_of_cons in Hin as [->|Hin]; simpl; [by rewrite String.eqb_refl|].
  destruct (String.eqb_spec (qc_Name q) (qc_Name qComp)) as [Heq|_]; [|by apply IH].
  destruct Hnew. apply list_elem_of_fmap. by exists qComp.
Qed.
Lemma gen_key name qComps k : k <> "image" -> jget k (genCompValueFromQueue name qComps) = None.
Proof.
  intros Hk. induction qComps as [|q qComps IH]; [done|]. simpl. destruct (String.eqb _ _); [|done].
  cbn [jget]. destruct (String.eqb_spec "image" k) as [Heq|_]; [by destruct Hk|done].
Qed.

(** The values that are put over those of the parent. *)
Definition placed (p : list string) (v : ComponentValues) : ComponentValues :=
  match p with [] => v | k :: _ => [(k, JObject v)] end.
Lemma over_place queue parentComp values comp :
  over_queue_comp queue parentComp values comp =
    match place parentComp comp with
    | Some p => MergeValues values
        (placed p (genCompValueFromQueue (cp_Name comp) (qs_Components (queue_Spec queue))))
    | None => values
    end.
Proof. unfold over_queue_comp, place. destruct (String.eqb _ _); [done|]. by destruct (_ && _). Qed.

Lemma image_wf qComp : json_wf (JObject (image_of qComp)).
Proof.
  unfold image_of. simpl. rewrite String.eqb_refl. simpl.
  split; [apply NoDup_singleton|]. split; [|done].
  destruct (String.eqb (qc_Repository qComp) ""), (String.eqb (qc_Version qComp) ""); simpl; repeat split;
    repeat constructor; set_solver.
Qed.
Lemma image_asked qComp : asked [] qComp (image_of qComp).
Proof.
  unfold asked, image_of. simpl. rewrite String.eqb_refl. simpl.
  destruct (String.eqb_spec (qc_Repository qComp) ""), (String.eqb_spec (qc_Version qComp) ""); by split.
Qed.

Lemma placed_asked parentComp comp p qComp values :
  place parentComp comp = Some p -> asked p qComp (MergeValues values (placed p (image_of qComp))).
Proof.
  intros Hp. assert (p = [] \/ p = [cp_Name comp]) as Hshape.
  { revert Hp. unfold place. destruct (String.eqb _ _); [intros [= <-]; by left|]. destruct (_ && _); [|done].
    intros [= <-]. by right. }
  pose proof (image_wf qComp) as Hwf. destruct (image_asked qComp) as [Hr Ht]. unfold asked.
  rewrite <- merge_value_object. destruct Hshape as [->| ->]; simpl app in *.
  - split; intros Hne; apply merge_leaf; auto.
  - assert (json_wf (JObject (placed [cp_Name comp] (image_of qComp)))) as Hwf'
      by (split; [apply NoDup_singleton|by split]).
    split; intros Hne; apply merge_leaf; try done; simpl; rewrite String.eqb_refl; auto.
Qed.

Lemma over_other queue parentComp values comp k :
  k <> "image" \/ (forall p, place parentComp comp = Some p -> place_key p <> "image") ->
  (forall p, place parentComp comp = Some p -> place_key p <> k) ->
  jget k (over_queue_comp queue parentComp values comp) = jget k values.
Proof.
  intros Himg Hk. rewrite over_place. destruct (place parentComp comp) as [p|]; [|done].
  specialize (Hk _ eq_refl). set (v := genCompValueFromQueue _ _).
  destruct p as [|n p]; cbn [place_key placed] in *; [|by rewrite jget_merge_one].
  subst v. generalize (qs_Components (queue_Spec queue)). intros qComps.
  induction qComps as [|q qComps IH]; [done|]. cbn [genCompValueFromQueue]. destruct (String.eqb _ _); [|done].
  by rewrite jget_merge_one.
Qed.

(** The places of different components do not touch. *)
Record apart (parentComp : Component) (comps : list Component) : Prop := {
  ap_names : NoDup (cp_Name <$> comps);
  ap_image : forall comp, comp ∈ comps -> place parentComp comp = Some [cp_Name comp] -> cp_Name comp <> "image";
}.
Lemma place_shape parentComp comp p :
  place parentComp comp = Some p -> (p = [] /\ cp_Name comp = cp_Name parentComp) \/ p = [cp_Name comp].
Proof.
  unfold place. destruct (String.eqb_spec (cp_Name comp) (cp_Name parentComp)); [intros [= <-]; by left|].
  destruct (_ && _); [|done]. intros [= <-]. by right.
Qed.
Lemma place_keys_differ parentComp comps x y p r :
  apart parentComp comps -> x ∈ comps -> y ∈ comps -> cp_Name x <> cp_Name y ->
  place parentComp x = Some p -> place parentComp y = Some r -> place_key p <> place_key r.
Proof.
  intros [_ Himg] Hx Hy Hne Hp Hr.
  destruct (place_shape _ _ _ Hp) as [[-> Hxn]| ->], (place_shape _ _ _ Hr) as [[-> Hyn]| ->]; simpl.
  - congruence.
  - intros Heq. by apply (Himg y).
  - by apply Himg.
  - done.
Qed.

(** After all components of the queue, every one of them has what the queue asks for. *)
Lemma over_all queue parentComp comps values comp p qComp :
  apart parentComp comps -> NoDup (qc_Name <$> qs_Components (queue_Spec queue)) ->
  comp ∈ comps -> qComp ∈ qs_Components (queue_Spec queue) -> qc_Name qComp = cp_Name comp ->
  place parentComp comp = Some p ->
  asked p qComp (fold_left (over_queue_comp queue parentComp) comps values).
Proof.
  intros Hap Hnd Hin Hq Hname Hp.
  assert (forall l values, l ⊆ comps -> cp_Name comp ∉ (cp_Name <$> l) -> asked p qComp values ->
            asked p qComp (fold_left (over_queue_comp queue parentComp) l values)) as Hkeep.
  { induction l as [|x l IH]; intros v Hsub Hnew Hv; [done|]. cbn [fold_left].
    rewrite fmap_cons in Hnew. apply not_elem_of_cons in Hnew as [Hx Hl].
    apply IH; [by intros y Hy; apply Hsub; right|done|].
    assert (x ∈ comps) as Hxin by (apply Hsub; left).
    refine (asked_at p qComp v _ (place_key p) eq_refl _ Hv). apply over_other.
    - destruct (decide (place_key p = "image")) as [Hi|Hi]; [right|by left]. intros r Hr Hri.
      eapply (place_keys_differ parentComp comps x comp); eauto; congruence.
    - intros r Hr. eapply (place_keys_differ parentComp comps x comp); eauto. }
  assert (forall l values, l ⊆ comps -> NoDup (cp_Name <$> l) -> comp ∈ l ->
            asked p qComp (fold_left (over_queue_comp queue parentComp) l values)) as Hall.
  { induction l as [|x l IH]; intros v Hsub Hndl Hl; [by apply elem_of_nil in Hl|]. cbn [fold_left].
    rewrite fmap_cons in Hndl. apply NoDup_cons in Hndl as [Hnew Hndl].
    assert (l ⊆ comps) as Hsub' by (intros y Hy; apply Hsub; by right).
    apply elem_of_cons in Hl as [->|Hl]; [|by apply IH].
    apply Hkeep; [done..|]. rewrite over_place, Hp, <- Hname, gen_of by done. by eapply placed_asked. }
  apply Hall; [done|apply Hap|done].
Qed.

Section deploy.
Context {W : Type} `{GR : GoRuntime W} `{GL : !GoRuntimeLaws W} `{GS : GoSort} `{GD : GoDuration} `{GO : GoSchedule W}.
Context `{CFG : ConfigController W} `{RPC : SamsahaiRPC W} `{SC : StagingCluster W} `{SO : StagingOutside W}.
Context `{CO : ConfigOutside W} (c : staging W).

(** The values of an upgrade: they have what the queue asks for at the place of each of its
    components. *)
Definition as_asked (queue : Queue) (parentComp : Component) (queueComps : gmap string Component)
    (values : ComponentValues) : Prop :=
  forall comp qComp p, queueComps !! cp_Name comp = Some comp -> qComp ∈ qs_Components (queue_Spec queue) ->
    qc_Name qComp = cp_Name comp -> place parentComp comp = Some p -> asked p qComp values.

(** C31: For an upgrade the engine is only ever asked to create a release with the versions
    under test: whatever the stable components, the base values and the values of the
    component say, the values that it gets have the repository and the version that the
    queue asks for, for the component itself and for each of its dependencies in the queue,
    provided that the values of the staging environment do not set the images themselves.
    (So what holds after every creation with such values holds after the deployment.) *)
Theorem deploy_parent_as_asked e queue cfg queueComps stableMap timeout name parentComp
    (Q : outcome unit -> W -> Prop) w :
  IsComponentUpgradeQueue queue = true ->
  map_Forall (fun n comp => cp_Name comp = n) queueComps ->
  NoDup (qc_Name <$> qs_Components (queue_Spec queue)) ->
  (forall n comp, queueComps !! n = Some comp -> place parentComp comp = Some [n] -> n <> "image") ->
  (forall w0 target w1 v comp p, GetEnvValues cfg EnvStaging (sg_teamName c) w0 = (Ok target, w1) ->
     target !! cp_Name parentComp = Some v -> queueComps !! cp_Name comp = Some comp ->
     place parentComp comp = Some p -> silent_on_image p v) ->
  (forall values w1, as_asked queue parentComp queueComps values ->
     wp (de_Create e (GenReleaseName (cp_Name parentComp)) parentComp (Some parentComp) values (Some timeout)) w1 Q) ->
  (forall err w1, Q (Err err) w1) -> (forall p w1, Q (Panic p) w1) ->
  wp (deploy_parent c e queue cfg queueComps stableMap timeout name (Some parentComp)) w Q.
Proof using GL.
  intros Hup Hnames Hnd Himg Henv Hcreate Herr Hpanic. unfold deploy_parent.
  assert (qs_Type (queue_Spec queue) = QueueTypeUpgrade) as Htype by (by apply bool_decide_eq_true in Hup).
  assert (IsPullRequestQueue queue = false) as Hpr by (unfold IsPullRequestQueue; by rewrite Htype).
  rewrite Hpr, Hup, Htype. cbn [orb]. wp_step. apply run_wp. intros [base|err|p] w1 _; [|done..]. lazy zeta.
  wp_step. wp_step. wp_step. wp_step. apply wp_range_map. intros comps w2 Hcomps. wp_step.
  set (values := fold_left _ _ _).
  assert (as_asked queue parentComp queueComps values) as Hasked.
  { intros comp qComp p Hc Hq Hname Hp.
    assert (comps ≡ₚ map_to_list queueComps) as Hperm by (pose proof (rt_range_perm _ queueComps w1) as H; by rewrite Hcomps in H).
    assert (cp_Name <$> map snd comps = comps.*1) as Hkeys.
    { change (map snd comps) with (comps.*2). rewrite <- list_fmap_compose. apply Forall_fmap_ext, Forall_forall.
      intros [n x] Hx. rewrite Hperm in Hx. apply elem_of_map_to_list in Hx. by apply (Hnames n x). }
    apply over_all with (comp := comp); [|done| |done|done|done].
    - split.
      + rewrite Hkeys, Hperm. apply NoDup_fst_map_to_list.
      + intros x Hx Hpl. apply list_elem_of_fmap in Hx as ([n y] & -> & Hy). simpl in *.
        rewrite Hperm in Hy. apply elem_of_map_to_list in Hy. pose proof (Hnames n y Hy) as Hn. simpl in Hn.
        apply (Himg (cp_Name y) y); [by rewrite Hn|done].
    - apply list_elem_of_fmap. exists (cp_Name comp, comp). split; [done|]. rewrite Hperm. by apply elem_of_map_to_list. }
  wp_step. unfold applyEnvBaseConfig. wp_step. wp_step. apply run_wp. intros [target|err|p] w3 Ht; [|by wp_step; apply Hcreate|done].
  wp_step. apply Hcreate. destruct (target !! cp_Name parentComp) as [v|] eqn:Hv; [|done].
  intros comp qComp p Hc Hq Hname Hp. apply asked_kept; [by eapply Henv|by eapply Hasked].
Qed.
End deploy.
