(* ===== verification/StgClaims.v ===== *)
(** What the loop of the staging controller does to the queues and to the stable components,
    for every behaviour of the other parties. *)

From S2P Require Import Prelude.
From S2P Require Import GoRuntime.
From S2P Require Import Errors.
From S2P Require Import KubeApi.
From S2P Require Import Frame.
From S2P Require Import Evolution.
From S2P Require Import ConfigTypes.
From S2P Require Import ComponentTypes.
From S2P Require Import QueueTypes.
From S2P Require Import RpcTypes.
From S2P Require Import QueueCtrl.
From S2P Require Import Interfaces.
From S2P Require Import ConfigCtrl.
From S2P Require Import StgTypes.
From S2P Require Import StgUtil.
From S2P Require Import StgDeploy.
From S2P Require Import StgTest.
From S2P Require Import StgCollect.
From S2P Require Import StgCtrl.
From S2P Require Import StgRunners.
From S2P Require Import StgFrame.
From S2P Require Import StgMachine.
From S2P Require Import StgSpec.
From S2P Require Import StgRunnerSpec.
From S2P Require Import StgSim.
From S2P Require Import StgEnd.
From stdpp Require Import relations.
Open Scope string_scope.
Open Scope list_scope.
Open Scope Z_scope.

(** ** The state machine *)

Section machine.
Context {W : Type} `{GR : GoRuntime W} `{GS : GoSort} `{GD : GoDuration} `{GO : GoSchedule W}.
Context `{CFG : ConfigController W} `{RPC : SamsahaiRPC W} `{SC : StagingCluster W} `{SO : StagingOutside W}.
Context `{CO : ConfigOutside W} (c : staging W).
Context `{KVQ : KView W Queue} `{KLQ : !KClientLaws W Queue}.
Context {SF : StagingFrame W c (kview Queue)} {KFS : KFrame W StableComponent (kview (W:=W) Queue)}.
Context (RK : forall name r, sg_testRunners c !! name = Some r -> RunnerKeeps r).

(** C7: Every turn of the loop moves every stored queue by transitions of the state machine
    only, and makes no queue, whatever the engines, the test runners and the remote calls
    answer, errors and panics included; and what the controller holds for the next turn is
    again not behind the stored queue, unless it is read again. *)
Theorem process_refines currentQueue w r w' :
  keeps_up w currentQueue -> process c currentQueue w = (r, w') ->
  evolves phase_of advance (kview Queue w) (kview Queue w') /\
  forall again next, r = Ok (again, next) -> keeps_up w' next.
Proof using KLQ SF KFS RK.
  intros Hk Heq.
  pose proof (wp_run _ _ _ _ _ (process_evolves c RK _ currentQueue w (evolves_refl _ _ _) Hk) Heq) as [He Hn].
  split; [done|]. by intros again next ->.
Qed.

(** A turn that goes on. *)
Definition turn_of (s s' : option Queue * W) : Prop :=
  exists again, process c (fst s) (snd s) = (Ok (again, fst s'), snd s').

(** C8: From a start with nothing at hand, however many turns the loop makes, every stored
    queue keeps to the invariant: it counts as deployed only from the tests on, as tested
    only after tests of a deployed environment, and it is cleaned up only when no other
    controller has asked for it. *)
Theorem turns_keep_consistent w next w' :
  rtc turn_of (None, w) (next, w') ->
  map_Forall (fun _ q => consistent (phase_of q)) (kview Queue w) ->
  map_Forall (fun _ q => consistent (phase_of q)) (kview Queue w').
Proof using KLQ SF KFS RK.
  intros Hrun Hc.
  assert (forall s s', rtc turn_of s s' -> keeps_up (snd s) (fst s) ->
            evolves phase_of advance (kview Queue (snd s)) (kview Queue (snd s'))) as Hev.
  { intros s s'. induction 1 as [s|s1 s2 s3 [again H] _ IH]; intros Hk; [apply evolves_refl|].
    destruct (wp_run _ _ _ _ _ (process_evolves c RK _ (fst s1) (snd s1) (evolves_refl _ _ _) Hk) H) as [He Hn].
    eapply evolves_trans; [exact He|by apply IH]. }
  intros k q Hq. destruct (Hev _ _ Hrun ltac:(by intros ?) k q Hq) as (a & Ha & Hm).
  eapply advances_consistent; [exact Hm|]. by apply (Hc k).
Qed.
End machine.

(** ** Stable components *)

Section stable.
Context {W : Type} `{GR : GoRuntime W} `{GS : GoSort} `{GD : GoDuration} `{GO : GoSchedule W}.
Context `{CFG : ConfigController W} `{RPC : SamsahaiRPC W} `{SC : StagingCluster W} `{SO : StagingOutside W}.
Context `{CO : ConfigOutside W} (c : staging W).
Context `{KVQ : KView W Queue} `{KLQ : !KClientLaws W Queue}.
Context `{KVS : KView W StableComponent} `{KLS : !KClientLaws W StableComponent}.
Context {SFQ : StagingFrame W c (kview Queue)} {SFS : StagingFrame W c (kview StableComponent)}.
Context {KFQ : KFrame W Queue (kview StableComponent)}.
Context (RF : forall name r, sg_testRunners c !! name = Some r -> RunnerFrame r (kview (W:=W) StableComponent)).

Notation stables w := (kview StableComponent w).
Implicit Types (w : W) (q : Queue) (s : W * holding).

(** Only components of the queue have changed, and they are what it asked for. *)
Definition promoted q (V V' : gmap (string * string) StableComponent) : Prop :=
  forall key, V' !! key = V !! key \/
    exists comp, comp ∈ qs_Components (queue_Spec q) /\ key = (kns q, qc_Name comp) /\
      forall sc, V' !! key = Some sc -> stable_as comp sc.

Lemma promoted_refl q V : promoted q V V.
Proof. intros key. by left. Qed.

Lemma promoted_set q V V1 V2 comp :
  promoted q V V1 -> comp ∈ qs_Components (queue_Spec q) ->
  (forall key, key <> (kns q, qc_Name comp) -> V2 !! key = V1 !! key) ->
  (forall sc, V2 !! (kns q, qc_Name comp) = Some sc -> stable_as comp sc) -> promoted q V V2.
Proof.
  intros Hp Hin Hother Hself key. destruct (decide (key = (kns q, qc_Name comp))) as [->|Hk].
  - right. by exists comp.
  - rewrite Hother by done. apply Hp.
Qed.

Lemma wp_set_stable q V comp w :
  promoted q V (stables w) -> comp ∈ qs_Components (queue_Spec q) ->
  wp (set_stable c (kns q) comp) w (fun _ w' => promoted q V (stables w')).
Proof.
  intros Hp Hin. unfold set_stable. wp_step. wp_step. apply wp_k_get.
  - intros sc w1 Hsc Hw1. pose proof (k_view_keyed _ _ _ Hsc) as Hkey. destruct (_ && _); [wp_step; by rewrite Hw1|].
    apply wp_k_update; [|intros e w2 Hw2; by rewrite Hw2, Hw1].
    intros w2 _ Hw2. set (sc' := sc <| stable_Spec ::= _ |>) in *.
    assert (kkey sc' = (kns q, qc_Name comp)) as Hk by (rewrite <- Hkey; done).
    apply (promoted_set q V (stables w) _ comp); [done|done| |]; rewrite Hw2, Hw1.
    + intros key Hne. apply store_update_other. congruence.
    + intros x. unfold store_update. rewrite Hk. case_decide; [by rewrite lookup_delete_eq|].
      rewrite lookup_insert_eq. by intros [= <-].
  - intros e w1 Hn Hw1. destruct (IsNotFound e); [|wp_step; by rewrite Hw1]. wp_step.
    apply wp_frame with (v := kview StableComponent); [apply _|].
    intros [t|e'|p] w2 _ Hw2; [|by rewrite Hw2, Hw1..].
    apply wp_k_create; [|intros e2 w3 _ Hw3; by rewrite Hw3, Hw2, Hw1].
    intros w3 _ Hw3. apply (promoted_set q V (stables w) _ comp); [done|done| |]; rewrite Hw3, Hw2, Hw1.
    + intros key Hne. by rewrite lookup_insert_ne.
    + intros x. rewrite lookup_insert_eq. by intros [= <-].
Qed.

Lemma wp_setStableComponent q w :
  wp (setStableComponent c q) w (fun _ w' => promoted q (stables w) (stables w')).
Proof.
  unfold setStableComponent.
  apply (wp_for_each (fun l w' => promoted q (stables w) (stables w') /\ l ⊆ qs_Components (queue_Spec q))).
  - split; [apply promoted_refl|done].
  - intros comp l w1 [Hp Hl]. eapply wp_mono; [apply wp_set_stable; [exact Hp|apply Hl; left]|]. cbv beta.
    intros [[]|e|p] w2 Hp2; [|done..]. split; [done|]. intros x Hx. apply Hl. by right.
  - by intros w1 [Hp _].
Qed.

(** What the report and the collection read of the queue. *)
Definition request (h : holding) : ObjectMeta * QueueSpec * list QueueCondition :=
  (queue_Meta (h_queue h), queue_Spec (h_queue h), qst_Conditions (queue_Status (h_queue h))).
Lemma promoted_request q h V V' :
  request h = request (mkHolding q true) -> promoted (h_queue h) V V' -> promoted q V V'.
Proof. destruct h as [[m sp st] b], q as [m0 sp0 st0]. by intros [= -> -> _]. Qed.
Lemma succeeded_request q h :
  request h = request (mkHolding q true) -> succeeded (phase_of (h_queue h)) = succeeded (phase_of q).
Proof.
  destruct h as [[m sp st] b], q as [m0 sp0 st0]. intros [= _ -> Hc].
  unfold succeeded, phase_of, IsDeploySuccess, IsTestSuccess, IsConditionTrue. simpl in *. by rewrite Hc.
Qed.
Lemma for_another_request q h :
  request h = request (mkHolding q true) ->
  IsActivePromotionQueue (h_queue h) || IsPullRequestQueue (h_queue h) = for_another (ph_type (phase_of q)).
Proof. rewrite phase_for_another. destruct h as [[m sp st] b], q as [m0 sp0 st0]. by intros [= _ -> _]. Qed.

#[local] Instance zip_both queue :
  Preserves (if String.eqb (qst_KubeZipLog (queue_Status queue)) "" then
      do logZip <- onW (sgo_createDeploymentZipLogs queue);
      run mod_status (fun st => st <| qst_KubeZipLog := logZip |>);
      updateQueue
    else mret tt) (of_both (kview StableComponent) request).
Proof. unfold mod_status, mod_queue, updateQueue, the_queue. preserves. Qed.
Lemma engine_bind_both {A G} (g : holding -> G) q (k : DeployEngine W -> Staging A) :
  (forall e, EngineFrame e (kview (W:=W) StableComponent) -> Preserves (k e) (of_both (kview StableComponent) g)) ->
  Preserves (do e <- onW (getDeployEngine c q); k e) (of_both (kview StableComponent) g).
Proof.
  intros Hk. apply (bind_preserves_post _ (fun e => EngineFrame e (kview (W:=W) StableComponent))); [|apply _|exact Hk].
  intros [w h] e [w' h'] Heq. unfold onW in Heq. simpl in Heq.
  destruct (getDeployEngine c q w) as [r w1] eqn:Hq. injection Heq as -> -> ->. by eapply loaded_engine.
Qed.
#[local] Instance issues_both : Preserves (setDeploymentIssues c) (of_both (kview StableComponent) request).
Proof.
  unfold setDeploymentIssues. apply bind_preserves; [unfold the_queue; preserves|]. intros q.
  apply engine_bind_both. intros e He. unfold mod_status, mod_queue. preserves.
Qed.

(** The stable components change at the end of a success of the staging environment only. *)
Definition may_promote q (V V' : gmap (string * string) StableComponent) : Prop :=
  V' = V \/ (qst_State (queue_Status q) = Collecting /\ succeeded (phase_of q) = true /\
             for_another (ph_type (phase_of q)) = false /\ promoted q V V').

Lemma wp_report q h w :
  request h = request (mkHolding q true) -> qst_State (queue_Status q) = Collecting ->
  for_another (ph_type (phase_of q)) = false ->
  wp (setStableAndSendReport c (h_queue h)) w (fun _ w' => may_promote q (stables w) (stables w')).
Proof.
  intros Hr Hst Hf. unfold setStableAndSendReport.
  change (IsDeploySuccess (h_queue h) && IsTestSuccess (h_queue h) && negb (IsReverify (h_queue h)))
    with (succeeded (phase_of (h_queue h))).
  rewrite (succeeded_request _ _ Hr). destruct (succeeded (phase_of q)) eqn:Hs.
  - wp_step. eapply wp_mono; [apply wp_setStableComponent|]. cbv beta.
    assert (forall w', promoted (h_queue h) (stables w) (stables w') -> may_promote q (stables w) (stables w')) as Hp.
    { intros w' Hp. right. split_and!; [done..|]. by eapply promoted_request. }
    intros [[]|e|p] w1 Hw1; [|by apply Hp..].
    apply wp_frame with (v := kview StableComponent); [apply _|]. intros r w2 _ Hw2. rewrite Hw2. by apply Hp.
  - apply wp_frame with (v := kview StableComponent); [apply _|]. intros r w2 _ Hw2. by left.
Qed.

Lemma collect_promotes q w :
  qst_State (queue_Status q) = Collecting ->
  wp (collectResult c) (w, mkHolding q true) (fun _ s => may_promote q (stables w) (stables (fst s))).
Proof.
  intros Hst. unfold collectResult. wp_step. unfold the_queue at 1. wp_step. wp_step. wp_step. cbn [snd h_queue].
  wp_step. apply wp_frame with (v := of_both (kview StableComponent) request); [apply _|].
  intros r [w1 h1] _ Hr1. apply pair_equal_spec in Hr1 as [Hw1 Hh1]. cbn [fst snd] in Hw1, Hh1.
  destruct r as [[]|e|p]; [|by left..].
  wp_step. apply wp_frame with (v := of_both (kview StableComponent) request); [apply _|].
  intros r [w2 h2] _ Hr2. apply pair_equal_spec in Hr2 as [Hw2 Hh2]. cbn [fst snd] in Hw2, Hh2.
  rewrite Hw1 in Hw2. rewrite Hh1 in Hh2. destruct r as [[]|e|p]; [|by left..].
  assert (forall (m : Staging unit) s, may_promote q (stables w) (stables (fst s)) ->
    Preserves m (of_world (kview StableComponent)) ->
    wp m s (fun _ s => may_promote q (stables w) (stables (fst s)))) as Hkeep.
  { intros m s Hs Hm. apply wp_frame with (v := of_world (kview StableComponent)); [done|].
    intros r s' _ Hs'. unfold of_world in Hs'. by rewrite Hs'. }
  unfold the_queue. wp_step. wp_step. wp_step. wp_step. cbn [snd h_queue].
  pose proof (for_another_request _ _ Hh2) as Hfa. rewrite Hfa.
  destruct (for_another (ph_type (phase_of q))) eqn:Hf; [apply Hkeep; [by left|apply _]|].
  wp_step. apply wp_onW, wp_frame with (v := kview StableComponent); [apply _|].
  intros [[]|e|p] w3 _ Hw3; cbn [fst snd] in *; [|left; simpl; congruence..].
  wp_step. apply wp_onW. cbn [fst snd].
  eapply wp_mono; [by apply (wp_report q h2)|]. cbv beta. rewrite Hw3, Hw2.
  intros [[]|e|p] w4 Hw4; [|done..].
  apply (Hkeep (run stage_cond QueueCleaningAfterStarted ConditionTrue
    "starts cleaning the namespace after running task"; updateQueueWithState c CleaningAfter)); [done|apply _].
Qed.

Lemma step_promotes q w :
  wp (step_queue c) (w, mkHolding q true) (fun _ s => may_promote q (stables w) (stables (fst s))).
Proof using KLS SFS KFQ RF.
  unfold step_queue, the_queue. wp_step. wp_step. wp_step. wp_step. cbv zeta. cbn [snd h_queue].
  assert (forall m : Staging unit, Preserves m (of_world (kview StableComponent)) ->
    wp m (w, mkHolding q true) (fun _ s => may_promote q (stables w) (stables (fst s)))) as Hkeep.
  { intros m Hm. apply wp_frame with (v := of_world (kview StableComponent)); [done|]. intros r s _ Hs. by left. }
  pose proof (startTesting_preserves c (kview StableComponent) RF).
  assert (forall st, Preserves (updateQueueWithState c st) (of_world (kview StableComponent))) by apply _.
  destruct (is_switch _), (qst_State (queue_Status q)) as [ | | | | | | | | | |[|]] eqn:Hst;
    first [by apply collect_promotes | apply Hkeep; unfold cleanBefore, cleanAfter, cancelQueue; first [apply _|preserves]].
Qed.

Lemma pick_keeps_stables currentQueue w :
  wp (match currentQueue with
      | Some q => mret (inr (Some q))
      | None => attempt (FirstQueue (sg_queueCtrl c) (sg_namespace c))
      end) w (fun _ w' => stables w' = stables w /\ renumbered (kview Queue w) (kview Queue w')).
Proof using KLQ SFQ SFS KFQ.
  apply (wp_preserve (kview StableComponent)); [destruct currentQueue; apply _|].
  destruct currentQueue as [q|]; [wp_step; intros _; split; [done|apply renumbered_refl]|].
  wp_step. eapply wp_mono; [apply (first_numbered c)|]. cbv beta. by intros [[q|]|e|p] w' [Hn _] Hs.
Qed.

(** A queue that is read for its results is the stored one. *)
Lemma sync_reads_stored q w :
  wp (if isQueueStateValid q then attempt (syncQueueWithK8s q) else mret (inr q)) w (fun r w' =>
    stables w' = stables w /\ match r with
      | Ok (inr q') => qst_State (queue_Status q') = Collecting -> kview Queue w !! kkey q' = Some q'
      | _ => True
      end).
Proof using KLQ SFQ SFS KFQ.
  apply (wp_preserve (kview StableComponent)); [destruct (isQueueStateValid q); apply _|].
  destruct (isQueueStateValid q) eqn:Hv.
  - unfold syncQueueWithK8s. wp_step. wp_step. wp_step. apply wp_k_get.
    + intros q' w1 Hq' _. wp_step. intros Hs. split; [done|]. intros _. by rewrite (k_view_keyed _ _ _ Hq').
    + intros e w1 _ _. destruct (IsNotFound e); [|by wp_step].
      wp_step. apply run_wp. intros [t|e'|p] w2 _; [wp_step|..]; by split.
  - wp_step. intros Hs. split; [done|]. intros Hst. unfold isQueueStateValid in Hv. by rewrite Hst in Hv.
Qed.

(** C9: A turn of the loop changes the stable components only at the end of a queue whose
    environment was deployed and tested with success, that is no verification and that no
    other controller has asked for; it changes components of that queue only, and what is
    stored of them afterwards has the version that was tested. *)
Theorem stable_only_after_success currentQueue w r w' :
  process c currentQueue w = (r, w') ->
  stables w' = stables w \/
  exists q, kview Queue w !! kkey q = Some q /\ qst_State (queue_Status q) = Collecting /\
    IsDeploySuccess q = true /\ IsTestSuccess q = true /\ IsReverify q = false /\
    for_another (ph_type (phase_of q)) = false /\ promoted q (stables w) (stables w').
Proof using KLS KLQ SFQ SFS KFQ RF.
  intros Heq. refine (wp_run (process c currentQueue) w _ _ (fun _ w' => _) _ Heq). clear Heq r w'.
  cbv beta. unfold process. wp_step. eapply wp_mono; [apply pick_keeps_stables|]. cbv beta.
  intros [[e|[q|]]|e|p] w1 [Hs1 Hn1]; try (by wp_step; left); try (by left).
  wp_step. eapply wp_mono; [apply sync_reads_stored|]. cbv beta. rewrite <- Hs1.
  intros [[e|q']|e|p] w2 [Hs2 Hq']; try (by wp_step; left); try (by left).
  wp_step. apply wp_with_obj, wp_attempt. eapply wp_mono; [apply step_promotes|]. cbv beta. rewrite Hs2.
  assert (forall w3, may_promote q' (stables w1) (stables w3) -> stables w3 = stables w1 \/
    exists q, kview Queue w !! kkey q = Some q /\ qst_State (queue_Status q) = Collecting /\
      IsDeploySuccess q = true /\ IsTestSuccess q = true /\ IsReverify q = false /\
      for_another (ph_type (phase_of q)) = false /\ promoted q (stables w1) (stables w3)) as Hend.
  { intros w3 [Hs3|(Hst & Hsu & Hf & Hp)]; [by left|right].
    destruct (Hn1 _ _ (Hq' Hst)) as (a & n & Ha & ->). exists a.
    unfold succeeded in Hsu. rewrite !andb_true_iff, negb_true_iff in Hsu. destruct Hsu as [[Hd Ht] Hr].
    by destruct a. }
  intros [[]|e|p] s Hs; [wp_step..|]; by apply Hend.
Qed.
End stable.
