(* ===== verification/StgRuns.v ===== *)
(** Runs of the staging controller in the cluster of [StgSim]: the concrete inputs of the
    theorems about it, and what the runs show. *)

From S2P Require Import Prelude.
From S2P Require Import GoRuntime.
From S2P Require Import Errors.
From S2P Require Import KubeApi.
From S2P Require Import Frame.
From S2P Require Import Evolution.
From S2P Require Import ConfigTypes.
From S2P Require Import ComponentTypes.
From S2P Require Import QueueTypes.
From S2P Require Import RpcTypes.
From S2P Require Import QueueCtrl.
From S2P Require Import Values.
From S2P Require Import Interfaces.
From S2P Require Import ConfigCtrl.
From S2P Require Import StgTypes.
From S2P Require Import StgUtil.
From S2P Require Import StgDeploy.
From S2P Require Import StgTest.
From S2P Require Import StgCollect.
From S2P Require Import StgCtrl.
From S2P Require Import StgRunners.
From S2P Require Import StgFrame.
From S2P Require Import StgMachine.
From S2P Require Import StgSpec.
From S2P Require Import StgRunnerSpec.
From S2P Require Import StgSim.
From S2P Require Import StgEnd.
From S2P Require Import StgDeployClaims.
From S2P Require Import StgClaims.
From stdpp Require Import relations.
Open Scope string_scope.
Open Scope list_scope.
Open Scope Z_scope.

(** ** A controller and its team *)

Definition stg_mock (success : bool) : ConfigTestRunner :=
  mkConfigTestRunner 0 0 None None (Some (mkConfigTestMock success)).
Definition stg_teamcity : ConfigTestRunner :=
  mkConfigTestRunner 0 0 None (Some (mkConfigTeamcity "build" "")) None.
Definition stg_gitlab : ConfigTestRunner :=
  mkConfigTestRunner 0 0 (Some (mkConfigGitlab "1" "token" "" None)) None None.
Definition stg_config (engine : string) (tests : ConfigTestRunner) : ConfigSpec :=
  mkConfigSpec [] ∅ [] (Some (mkConfigStaging (Some (mkConfigDeploy 0 0 (Some engine) (Some tests))) 1 2)) None None []
    None "".
Definition stg_component (name parent : string) (deps : list Dependency) : Component :=
  mkComponent parent name (mkComponentChart "" "" "") (mkComponentImage "" "" "") [] None [] deps.
Definition stg_queue (version : string) : Queue :=
  NewQueue "teamtest" "s2h-teamtest" "redis" "" [mkQueueComponent "redis" "repo/redis" version] QueueTypeUpgrade.
Definition stg_stable (version : string) : StableComponent :=
  mkStableComponent (namedMeta "s2h-teamtest" "redis") (mkStableComponentSpec "redis" "repo/redis" version "")
    (mkStableComponentStatus None None).
Definition stg_world (engine : string) (tests : ConfigTestRunner) (answers : list (error + teamcityResult)) : StgSim :=
  mkStgSim 0 {[ ("s2h-teamtest", "redis") := stg_queue "5.0" ]} {[ ("s2h-teamtest", "redis") := stg_stable "4.0" ]} ∅
    (fun k => ∅) ∅ (Some (stg_config engine tests)) {[ "redis" := stg_component "redis" "" [] ]} [] [] answers.
Definition stg_controller : staging StgSim :=
  NewController "teamtest" "s2h-teamtest" true (QueueCtrl.New "s2h-teamtest") release_engine testmock_runner
    (Some (teamcity_runner "http://teamcity" true)) (Some (gitlab_runner "http://gitlab" true)) 2.

(** [n] turns of the loop, with a minute between them. *)
Fixpoint turns (n : nat) (cur : option Queue) (w : StgSim) : option Queue * StgSim :=
  match n with
  | O => (cur, w)
  | S n =>
      match process stg_controller cur w with
      | (Ok (_, cur'), w') => turns n cur' (w' <| ss_clock ::= Z.add Minute |>)
      | (_, w') => (None, w')
      end
  end.
Definition stg_view (w : StgSim) : list (QueueState * bool * bool) * list string * list string :=
  (map (fun p => (qst_State (queue_Status (snd p)), IsDeploySuccess (snd p), IsTestSuccess (snd p))) (map_to_list (ss_queues w)),
   map (fun p => sc_Version (stable_Spec (snd p))) (map_to_list (ss_stables w)),
   map fst (map_to_list (ss_releases w))).

(** ** The assumptions of the theorems *)

Lemma stg_engines name e :
  sg_deployEngines stg_controller !! name = Some e -> e = MockEngine \/ e = release_engine.
Proof.
  change (sg_deployEngines stg_controller) with (loadDeployEngines (W:=StgSim) release_engine). unfold loadDeployEngines.
  rewrite lookup_insert_Some, lookup_singleton_Some. naive_solver.
Qed.
#[local] Instance stg_queues_frame : StagingFrame StgSim stg_controller (kview Queue).
Proof. apply ssim_frame; try done; try apply _; apply stg_engines. Qed.
#[local] Instance stg_stables_frame : StagingFrame StgSim stg_controller (kview StableComponent).
Proof. apply ssim_frame; try done; try apply _; apply stg_engines. Qed.
#[local] Instance stg_stables_queues : KFrame StgSim StableComponent (kview (W:=StgSim) Queue).
Proof. by apply mem_frame. Qed.
#[local] Instance stg_queues_stables : KFrame StgSim Queue (kview (W:=StgSim) StableComponent).
Proof. by apply mem_frame. Qed.
#[local] Instance stg_servers_queues : ServersFrame StgSim (kview Queue).
Proof. by apply ssim_servers_frame. Qed.
#[local] Instance stg_servers_stables : ServersFrame StgSim (kview StableComponent).
Proof. by apply ssim_servers_frame. Qed.

Lemma stg_runners name r :
  sg_testRunners stg_controller !! name = Some r ->
  r = testmock_runner \/ r = teamcity_runner "http://teamcity" true \/ r = gitlab_runner "http://gitlab" true.
Proof.
  change (sg_testRunners stg_controller) with (loadTestRunners (W:=StgSim) testmock_runner
    (Some (teamcity_runner "http://teamcity" true)) (Some (gitlab_runner "http://gitlab" true))).
  unfold loadTestRunners. rewrite !lookup_insert_Some, lookup_empty. naive_solver.
Qed.
Lemma stg_runners_keep name r : sg_testRunners stg_controller !! name = Some r -> RunnerKeeps r.
Proof. intros [->|[->| ->]]%stg_runners; apply _. Qed.
Lemma stg_runners_frame name r :
  sg_testRunners stg_controller !! name = Some r -> RunnerFrame r (kview (W:=StgSim) StableComponent).
Proof. intros [->|[->| ->]]%stg_runners; apply _. Qed.

(** ** Runs without a pause *)

Definition loop_turn (s : option Queue * StgSim) : option Queue * StgSim :=
  match process stg_controller (fst s) (snd s) with
  | (Ok (_, cur), w) => (cur, w)
  | _ => s
  end.
Fixpoint loop (n : nat) (s : option Queue * StgSim) : option Queue * StgSim :=
  match n with O => s | S n => loop n (loop_turn s) end.
Lemma loop_turns n s : rtc (turn_of stg_controller) s (loop n s).
Proof.
  revert s. induction n as [|n IH]; intros s; [constructor|]. cbn [loop].
  transitivity (loop_turn s); [|apply IH]. unfold loop_turn.
  destruct (process stg_controller (fst s) (snd s)) as [[[again cur]|e|p] w] eqn:Heq; [|constructor..].
  apply rtc_once. by exists again.
Qed.

Definition stg_start : option Queue * StgSim := (None, stg_world "mock" (stg_mock true) []).
Definition stg_state (s : option Queue * StgSim) : option QueueState :=
  (fun q => qst_State (queue_Status q)) <$> ss_queues (snd s) !! ("s2h-teamtest", "redis").
Definition stg_version (s : option Queue * StgSim) : option string :=
  (fun sc => sc_Version (stable_Spec sc)) <$> ss_stables (snd s) !! ("s2h-teamtest", "redis").

(** The first turn picks the queue and starts it. *)
Lemma process_refines_witness :
  let r := process stg_controller None (snd stg_start) in
  stg_state (None, snd r) = Some CleaningBefore /\
  evolves phase_of advance (kview Queue (snd stg_start)) (kview Queue (snd r)).
Proof.
  intros r. split; [by vm_compute|].
  refine (proj1 (process_refines stg_controller stg_runners_keep None (snd stg_start) (fst r) (snd r) _
    (surjective_pairing _))). intros q Hq. discriminate Hq.
Defined.

(** Eight turns from the start to the end of a queue that succeeds. *)
Lemma turns_keep_consistent_witness :
  map (fun n => stg_state (loop n stg_start)) (seq 0 9) =
    [Some (OtherQueueState ""); Some CleaningBefore; Some DetectingImageMissing; Some Creating; Some Testing;
     Some Collecting; Some CleaningAfter; Some Deleting; None] /\
  map_Forall (fun _ q => consistent (phase_of q)) (kview Queue (snd (loop 6 stg_start))).
Proof.
  split; [by vm_compute|].
  pose proof (loop_turns 6 stg_start) as Hrun. destruct (loop 6 stg_start) as [next w'].
  apply (turns_keep_consistent stg_controller stg_runners_keep (snd stg_start) next w' Hrun).
  intros k q [Hk _]%well_filed_lookup. simpl in Hk. apply lookup_singleton_Some in Hk as [_ <-].
  apply waiting_consistent; [by right|done].
Defined.

Lemma stable_only_after_success_witness :
  let s := loop 5 stg_start in
  let r := process stg_controller (fst s) (snd s) in
  stg_version s = Some "4.0" /\ stg_version (None, snd r) = Some "5.0" /\
  exists q, kview Queue (snd s) !! kkey q = Some q /\ IsTestSuccess q = true /\
    promoted q (kview StableComponent (snd s)) (kview StableComponent (snd r)).
Proof.
  intros s r. assert (stg_version s = Some "4.0") as Hs by by vm_compute.
  assert (stg_version (None, snd r) = Some "5.0") as Hr by by vm_compute.
  split; [exact Hs|split; [exact Hr|]].
  assert (process stg_controller (fst s) (snd s) = (fst r, snd r)) as Hturn by exact (surjective_pairing r).
  assert (exists sc, kview StableComponent (snd r) !! ("s2h-teamtest", "redis") = Some sc /\
    kview StableComponent (snd s) !! ("s2h-teamtest", "redis") <> Some sc) as (sc & Hnew & Hold).
  { eexists. split; [vm_compute; reflexivity|]. vm_compute. discriminate. }
  clearbody r. clear Hs Hr. clearbody s.
  destruct (stable_only_after_success stg_controller stg_runners_frame (fst s) (snd s) (fst r) (snd r) Hturn)
    as [Hsame|(q & Hq & _ & _ & Ht & _ & _ & Hp)]; [|by exists q].
  destruct Hold. by rewrite <- Hsame.
Defined.

(** ** The end of a queue *)

(** A verification of the environment that is over. *)
Definition stg_verified : Queue :=
  (stg_queue "5.0") <| queue_Spec ::= fun x => x <| qs_Type := QueueTypeReverify |> <| qs_NoOfRetry := 4 |> |>
    <| queue_Status ::= fun x => x <| qst_State := Deleting |> <| qst_QueueHistoryName := "redis-1" |> |>.
Definition stg_verified_world : StgSim :=
  (stg_world "mock" (stg_mock true) []) <| ss_queues := {[ ("s2h-teamtest", "redis") := stg_verified ]} |>.

Lemma deleteQueue_decides_witness :
  let s := snd (StgUtil.deleteQueue stg_controller (stg_verified_world, mkHolding stg_verified true)) in
  h_held (snd s) = false /\
  exists w, stored_again (fun x => x <| qs_NextProcessAt := Some (fst (rt_now (W:=StgSim) w) + 24 * Hour) |>
    <| qs_NoOfRetry := 0 |> <| qs_Type := QueueTypeUpgrade |>) stg_verified
    (kview Queue stg_verified_world) (kview Queue (fst s)).
Proof.
  intros s.
  assert (fst (StgUtil.deleteQueue stg_controller (stg_verified_world, mkHolding stg_verified true)) = Ok tt) as Hok
    by by vm_compute.
  destruct (deleteQueue_decides stg_controller stg_verified stg_verified_world (fst s) (snd s)) as [Hd Hh].
  - reflexivity.
  - intros y [Hy _]%well_filed_lookup. simpl in Hy. apply lookup_singleton_Some in Hy as [_ <-]. reflexivity.
  - exact (eq_trans (ok_run _ _ _ Hok) (f_equal (pair (Ok tt)) (surjective_pairing _))).
  - split; [exact Hh|exact Hd].
Defined.

Lemma setStableComponent_stores_witness :
  let w := stg_world "mock" (stg_mock true) [] in
  let w' := snd (setStableComponent stg_controller (stg_queue "5.0") w) in
  exists sc, kview StableComponent w' !! ("s2h-teamtest", "redis") = Some sc /\
    sc_Version (stable_Spec sc) = "5.0" /\ stg_version (None, w) = Some "4.0".
Proof.
  intros w w'.
  assert (fst (setStableComponent stg_controller (stg_queue "5.0") w) = Ok tt) as Hok by by vm_compute.
  destruct (setStableComponent_stores stg_controller (stg_queue "5.0") w w') with (key := ("s2h-teamtest", "redis"))
    as [(comp & sc & Hin & _ & Hl & _ & Hv)|[Hno _]].
  - apply NoDup_singleton.
  - intros k sc [Hk _]%well_filed_lookup. simpl in Hk. apply lookup_singleton_Some in Hk as [_ <-]. reflexivity.
  - exact (ok_run _ _ _ Hok).
  - apply list_elem_of_singleton in Hin as ->. exists sc. split; [exact Hl|split; [exact Hv|by vm_compute]].
  - destruct (Hno (mkQueueComponent "redis" "repo/redis" "5.0")); [by left|reflexivity].
Defined.

(** A component and its dependency, which are both in the queue. *)
Definition stg_bundle : Queue :=
  NewQueue "teamtest" "s2h-teamtest" "web" "web"
    [mkQueueComponent "web" "repo/web" "2.0"; mkQueueComponent "db" "" "7.1"] QueueTypeUpgrade.
Definition stg_web : Component := stg_component "web" "" [].
Definition stg_comps : gmap string Component := {[ "web" := stg_web; "db" := stg_component "db" "web" [] ]}.

Lemma deploy_parent_as_asked_witness :
  let w := stg_world "helm3" (stg_mock true) [] in
  let deployed := deploy_parent stg_controller release_engine stg_bundle (stg_config "helm3" (stg_mock true)) stg_comps ∅ 1800
               "web" (Some stg_web) w in
  fst deployed = Ok tt /\
  (fst deployed = Ok tt -> exists values, ss_releases (snd deployed) !! "web" = Some values /\
     as_asked stg_bundle stg_web stg_comps values).
Proof.
  intros w deployed. split; [by vm_compute|].
  refine (wp_run _ _ _ _ (fun r w' => r = Ok tt -> exists values, ss_releases w' !! "web" = Some values /\
    as_asked stg_bundle stg_web stg_comps values) _ (surjective_pairing _)).
  apply deploy_parent_as_asked.
  - reflexivity.
  - intros n comp Hn. unfold stg_comps in Hn. apply lookup_insert_Some in Hn as [[<- <-]|[_ Hn]]; [reflexivity|].
    by apply lookup_singleton_Some in Hn as [<- <-].
  - apply (bool_decide_unpack _). by vm_compute.
  - intros n comp Hn. unfold stg_comps in Hn. apply lookup_insert_Some in Hn as [[<- <-]|[_ Hn]]; [discriminate|].
    by apply lookup_singleton_Some in Hn as [<- <-].
  - intros w0 target w1 v comp p Henv Hv. unfold GetEnvValues in Henv. simpl in Henv. unfold mret, M_ret in Henv. simplify_eq.
  - intros values w1 Hv. apply run_wp. intros r w2 Hcreate _. simpl in Hcreate. simplify_eq. exists values. split; [apply lookup_insert_eq|exact Hv].
  - discriminate.
  - discriminate.
Defined.

(** ** Tests that were never triggered *)

(** A test that cannot be triggered does not count against the queue: the loop over the
    runners skips it and leaves the condition at success.  The pipeline of Gitlab is
    configured as the only test, and its server refuses every request; a minute later the
    queue is tested with success, and two turns after that its version is stable, although
    no pipeline was ever created. *)
Theorem untriggered_tests_pass :
  let start := stg_world "mock" stg_gitlab [] in
  let tested := snd (turns 6 None start) in
  let done := snd (turns 7 None start) in
  stg_version (None, start) = Some "4.0" /\
  ((fun q => (IsTestSuccess q, git_PipelineID (trn_Gitlab (qst_TestRunner (queue_Status q))))) <$>
     ss_queues tested !! ("s2h-teamtest", "redis")) = Some (true, "") /\
  stg_version (None, done) = Some "5.0".
Proof. by vm_compute. Qed.

(** A runner that is configured but not loaded is a nil interface. *)
Lemma unloaded_runner_panics :
  let c := NewController "teamtest" "s2h-teamtest" true (QueueCtrl.New "s2h-teamtest") release_engine testmock_runner
             None None 2 in
  fst (startTesting c (stg_world "mock" stg_gitlab [], mkHolding (stg_queue "5.0") true)) = Panic NilDereference.
Proof. by vm_compute. Qed.

(** A build that has failed and then is said to run counts as one that runs: all four
    requests are made, and the last answer counts. *)
Lemma last_answer_counts :
  let answer state := inr (A:=error) (mkTeamcityResult "7" state "SUCCESS") in
  let world := stg_world "mock" stg_teamcity [answer "finished"; answer "running"; answer "running"; answer "running"] in
  let started := (stg_queue "5.0") <| queue_Status ::= fun x => x <| qst_TestRunner ::= fun t =>
    t <| trn_Teamcity ::= fun tc => tc <| tmc_BuildID := "1" |> |> |> |> in
  fst (getTestResult stg_controller (teamcity_runner "http://teamcity" true) (world, mkHolding started true))
    = Ok (testResultUnknown, None).
Proof. by vm_compute. Qed.
