(* ===== verification/Outdated.v ===== *)
(** Model of [internal/util/outdated/outdated.go]: for how long the components of the
    active environment have been behind the images that are wanted, with or without
    the weekends.

    A calendar date is that of the process's time zone, a fixed offset here; the code
    takes the midnight of that date in UTC. *)

From S2P Require Import Prelude.
From S2P Require Import GoRuntime.
From S2P Require Import Errors.
From S2P Require Import KubeApi.
From S2P Require Import ConfigTypes.
From S2P Require Import ComponentTypes.
From S2P Require Import QueueTypes.
From S2P Require Import TeamTypes.
From S2P Require Import AtpTypes.
Open Scope string_scope.
Open Scope list_scope.
Open Scope Z_scope.

(** [stringutils.ConcatImageString]. *)
Definition ConcatImageString (repository tag : string) : string := repository +:+ ":" +:+ tag.

Record Outdated := mkOutdated {
  o_cfg : ConfigSpec;
  o_desiredCompsImageTime : gmap string (gmap string DesiredImageTime);
  o_currentActiveComps : gmap string StableComponent;
  o_nowTime : Z;
}.

Definition Day : Z := 24 * Hour.

(** [d.Round(m)]: to the nearest multiple, halves away from zero, saturating. *)
Definition duration_round (d m : Z) : Z :=
  if m <=? 0 then d else
  let r := Z.rem d m in
  if d <? 0 then
    let r := - r in
    if r + r <? m then d + r
    else let d1 := wrap64 (d - m + r) in if d1 <? d then d1 else - 2 ^ 63
  else
    if r + r <? m then d - r
    else let d1 := wrap64 (d + m - r) in if d <? d1 then d1 else 2 ^ 63 - 1.

Section outdated.
Context {W : Type} `{GR : GoRuntime W} `{GS : GoSort}.
(** The offset of the process's time zone from UTC. *)
Context (zone : Z).
Implicit Types (o : Outdated).

Definition New (cfg : ConfigSpec) (desiredComps : gmap string (gmap string DesiredImageTime))
    (currentActiveComps : gmap string StableComponent) : M W Outdated :=
  do t <- now;
  mret (mkOutdated cfg desiredComps currentActiveComps t).

(** The date of an instant as the midnight in UTC, and its weekday, Sunday is 0. *)
Definition date_midnight (t : Z) : Z := (t + zone) / Day * Day.
Definition weekday (t : Z) : Z := ((t + zone) / Day + 4) mod 7.

(** The loop over the days from [fromTime]; [total] is the weekend time so far. *)
Fixpoint weekend_loop (fuel : nat) (atpStableDesiredTime toTime toTimeEndOfDay fromTime total : Z) : Z :=
  match fuel with
  | O => total
  | S fuel =>
      if fromTime <? toTimeEndOfDay then
        let total :=
          if (weekday fromTime =? 0) || (weekday fromTime =? 6) then
            let beginningOfDay := date_midnight fromTime in
            let endOfDay := beginningOfDay + 24 * Hour in
            let beginningOfDay :=
              if beginningOfDay <? atpStableDesiredTime then atpStableDesiredTime else beginningOfDay in
            let endOfDay := if toTime <? endOfDay then toTime else endOfDay in
            int_add total (time_sub endOfDay beginningOfDay)
          else total in
        weekend_loop fuel atpStableDesiredTime toTime toTimeEndOfDay (fromTime + 24 * Hour) total
      else total
  end.
(** One turn per day that is left, and one to see that none is. *)
Definition weekend_fuel (toTimeEndOfDay fromTime : Z) : nat :=
  Z.to_nat ((toTimeEndOfDay - fromTime) / Day + 2).

Definition getWeekendDuration o (atpStableDesiredTime : Z) : Duration :=
  match cf_ActivePromotion (o_cfg o) with
  | None => 0
  | Some atpCfg =>
      match ca_OutdatedNotification atpCfg with
      | None => 0
      | Some notification =>
          if negb (on_ExcludeWeekendCalculation notification) then 0 else
          let toTime := o_nowTime o in
          let toTimeEndOfDay := date_midnight toTime + 24 * Hour in
          weekend_loop (weekend_fuel toTimeEndOfDay atpStableDesiredTime)
            atpStableDesiredTime toTime toTimeEndOfDay atpStableDesiredTime 0
      end
  end.

Definition calculateOutdatedDuration o (atpStableDesiredTime : Z) : Duration :=
  let totalOutdatedDuration := time_sub (o_nowTime o) atpStableDesiredTime in
  let totalWeekendDuration := getWeekendDuration o atpStableDesiredTime in
  let totalOutdatedDuration := int_sub totalOutdatedDuration totalWeekendDuration in
  duration_round totalOutdatedDuration Minute.

Definition isExceedOutdatedDuration o (outdatedDuration : Duration) : bool :=
  match cf_ActivePromotion (o_cfg o) with
  | None => false
  | Some atpCfg =>
      match ca_OutdatedNotification atpCfg with
      | None => false
      | Some notification => on_ExceedDuration notification <? outdatedDuration
      end
  end.

(** The promoted fields of the embedded image are read through its pointer. *)
Definition getOutdatedComponent {X} (stableComp : StableComponentSpec)
    (latestVersion : DesiredImageTime) (outdatedDuration : Duration) : M (W * X) OutdatedComponent :=
  do img <- deref (dit_Image latestVersion);
  mret (mkOutdatedComponent
          (Some (mkImage (sc_Repository stableComp) (sc_Version stableComp)))
          (Some (mkImage (img_Repository img) (img_Tag img)))
          outdatedDuration).

Definition put_outdated (stableName : string) (comp : OutdatedComponent) :
    M (W * ActivePromotionStatus) unit :=
  mod_obj (fun s => s <| ast_OutdatedComponents ::= insert stableName comp |>).

(** The entries at [i - 1] and [i] of the images, latest first. *)
Definition older_image o (stableCompSpec : StableComponentSpec) (stableImage : string)
    (latestDesiredImageTime : DesiredImageTime) (p : TeamDesiredImageTime * TeamDesiredImageTime) :
    M (W * ActivePromotionStatus) unit :=
  let '(newer, image) := p in
  if negb (EqualFold (tdi_Image image) stableImage) then mret tt else
  let nextAtpStableDesiredTime := dit_CreatedTime (tdi_ImageTime newer) in
  let lastAtpStableDesiredTime := nextAtpStableDesiredTime - Minute in
  let outdatedDuration := calculateOutdatedDuration o lastAtpStableDesiredTime in
  let exceeds := isExceedOutdatedDuration o outdatedDuration in
  run (if exceeds then mod_obj (fun s => s <| ast_HasOutdatedComponent := true |>) else mret tt);
  do outdatedComp <- getOutdatedComponent stableCompSpec latestDesiredImageTime
                       (if exceeds then outdatedDuration else 0);
  put_outdated (sc_Name stableCompSpec) outdatedComp.

Definition outdated_component o (activeComp : StableComponent) : M (W * ActivePromotionStatus) unit :=
  let stableCompSpec := stable_Spec activeComp in
  let stableName := sc_Name stableCompSpec in
  let stableImage := ConcatImageString (sc_Repository stableCompSpec) (sc_Version stableCompSpec) in
  let desiredCompImageCreatedTime := default ∅ (o_desiredCompsImageTime o !! stableName) in
  if bool_decide (size desiredCompImageCreatedTime = 0%nat) then mret tt else
  do descCreatedTime <- onW (SortByCreatedTimeDESC desiredCompImageCreatedTime);
  do latest <- index descCreatedTime 0;
  if EqualFold (tdi_Image latest) stableImage then
    do outdatedComp <- getOutdatedComponent stableCompSpec (tdi_ImageTime latest) 0;
    put_outdated stableName outdatedComp
  else
    for_each (zip descCreatedTime (tail descCreatedTime))
      (older_image o stableCompSpec stableImage (tdi_ImageTime latest)).

Definition SetOutdatedDuration o : M (W * ActivePromotionStatus) unit :=
  do comps <- onW (range_map (o_currentActiveComps o));
  for_each comps (fun c => outdated_component o (snd c)).
End outdated.

(** ** Weekends *)

(** The weekend time between Saturday, January 3 of 1970 and [t]; negative before it. *)
Definition weekend_before (t : Z) : Z :=
  let s := t - 2 * Day in
  s / (7 * Day) * (2 * Day) + Z.min (s mod (7 * Day)) (2 * Day).
Definition weekend_between (t u : Z) : Z := weekend_before u - weekend_before t.

Lemma Day_val : Day = 86400000000000.
Proof. reflexivity. Qed.

(** [t] in week [q], [r] after its Saturday began. *)
Lemma weekend_before_at q r :
  0 <= r < 7 * Day -> weekend_before (2 * Day + q * (7 * Day) + r) = q * (2 * Day) + Z.min r (2 * Day).
Proof.
  intros Hr. unfold weekend_before. cbv zeta.
  replace (2 * Day + q * (7 * Day) + r - 2 * Day) with (r + q * (7 * Day)) by lia.
  rewrite Z.div_add, Z.mod_add, Z.div_small, Z.mod_small by (rewrite ?Day_val in *; lia). lia.
Qed.

(** Within the day [d] weekend time passes on a Saturday or Sunday, and only then. *)
Lemma weekend_before_day d a :
  0 <= a <= Day ->
  weekend_before (d * Day + a) = weekend_before (d * Day)
    + (if ((d + 4) mod 7 =? 0) || ((d + 4) mod 7 =? 6) then a else 0).
Proof.
  intros Ha.
  pose proof (Z.div_mod (d - 2) 7 ltac:(lia)) as Hd.
  pose proof (Z.mod_pos_bound (d - 2) 7 ltac:(lia)) as Hm.
  set (q := (d - 2) / 7) in *. set (m := (d - 2) mod 7) in *.
  assert ((d + 4) mod 7 = (m + 6) mod 7) as ->.
  { replace (d + 4) with (m + 6 + q * 7) by lia. by rewrite Z.mod_add. }
  replace (d * Day) with (2 * Day + q * (7 * Day) + m * Day) by lia.
  rewrite (weekend_before_at q (m * Day)) by (rewrite Day_val; lia).
  assert (m = 0 \/ m = 1 \/ m = 2 \/ m = 3 \/ m = 4 \/ m = 5 \/ m = 6) as Hc by lia.
  assert (m = 6 /\ a = Day \/ (m < 6 \/ a < Day)) as [[-> ->]|Hlt] by lia.
  - replace (2 * Day + q * (7 * Day) + 6 * Day + Day) with (2 * Day + (q + 1) * (7 * Day) + 0) by lia.
    rewrite weekend_before_at by (rewrite Day_val; lia). rewrite Day_val. simpl. lia.
  - replace (2 * Day + q * (7 * Day) + m * Day + a) with (2 * Day + q * (7 * Day) + (m * Day + a)) by lia.
    rewrite weekend_before_at by (rewrite ?Day_val in *; lia).
    rewrite Day_val in *. destruct Hc as [-> | [-> | [-> | [-> | [-> | [-> | ->]]]]]]; simpl; lia.
Qed.

Lemma weekend_before_mono t u : t <= u -> 0 <= weekend_between t u <= u - t.
Proof.
  intros Htu. unfold weekend_between, weekend_before. cbv zeta. rewrite Day_val.
  pose proof (Z.div_mod (t - 2 * 86400000000000) (7 * 86400000000000)).
  pose proof (Z.mod_pos_bound (t - 2 * 86400000000000) (7 * 86400000000000)).
  pose proof (Z.div_mod (u - 2 * 86400000000000) (7 * 86400000000000)).
  pose proof (Z.mod_pos_bound (u - 2 * 86400000000000) (7 * 86400000000000)).
  nia.
Qed.

(** The weekend time of one day of the interval. *)
Lemma weekend_day_step from to d :
  from <= to -> d * Day <= to -> from <= (d + 1) * Day ->
  weekend_between (Z.max from (d * Day)) (Z.min to ((d + 1) * Day))
  = if ((d + 4) mod 7 =? 0) || ((d + 4) mod 7 =? 6)
    then Z.min to ((d + 1) * Day) - Z.max from (d * Day) else 0.
Proof.
  intros Hft Hto Hfrom. unfold weekend_between.
  replace (Z.max from (d * Day)) with (d * Day + (Z.max from (d * Day) - d * Day)) by lia.
  replace (Z.min to ((d + 1) * Day)) with (d * Day + (Z.min to ((d + 1) * Day) - d * Day)) by lia.
  rewrite !weekend_before_day by (rewrite ?Day_val in *; lia).
  case_match; lia.
Qed.

Section weekend.
Context (from to : Z) (Hft : from <= to) (Hwidth : to - from < 2 ^ 63).
Let endOfDay : Z := date_midnight 0 to + 24 * Hour.

Lemma date_midnight_bounds t : date_midnight 0 t <= t < date_midnight 0 t + Day.
Proof.
  unfold date_midnight. rewrite Z.add_0_r.
  pose proof (Z.div_mod t Day ltac:(rewrite Day_val; lia)).
  pose proof (Z.mod_pos_bound t Day ltac:(rewrite Day_val; lia)). lia.
Qed.

(** The loop at the day [d] has counted the weekend time before the day. *)
Lemma weekend_loop_invariant fuel d :
  from / Day <= d <= to / Day + 1 ->
  (Z.to_nat (to / Day + 1 - d) < fuel)%nat ->
  weekend_loop 0 fuel from to endOfDay (from + (d - from / Day) * Day)
    (weekend_between from (Z.min to (Z.max from (d * Day))))
  = weekend_between from to.
Proof.
  assert (0 < Day) as HDay by (rewrite Day_val; lia).
  pose proof (date_midnight_bounds from) as Hf. pose proof (date_midnight_bounds to) as Ht.
  unfold date_midnight in Hf, Ht. rewrite Z.add_0_r in Hf, Ht.
  revert d. induction fuel as [|fuel IH]; intros d Hd Hfuel; [lia|]. cbn [weekend_loop].
  unfold endOfDay at 1. unfold date_midnight at 1. rewrite !Z.add_0_r.
  change (24 * Hour) with Day.
  destruct (Z.ltb_spec (from + (d - from / Day) * Day) (to / Day * Day + Day)) as [Hlt|Hge].
  - assert (d <= to / Day) as Hle by nia.
    assert ((from + (d - from / Day) * Day) / Day = d) as Hday.
    { rewrite Z.div_add by lia. lia. }
    unfold weekday, date_midnight. rewrite Z.add_0_r, Hday. change (24 * Hour) with Day.
    replace (from + (d - from / Day) * Day + Day) with (from + (d + 1 - from / Day) * Day) by lia.
    assert (d * Day <= to) as Hto by nia. assert (from <= (d + 1) * Day) as Hfrom by nia.
    pose proof (weekend_day_step from to d Hft Hto Hfrom) as Hstep.
    rewrite <- (IH (d + 1)) by lia. f_equal.
    replace (Z.min to (Z.max from (d * Day))) with (Z.max from (d * Day)) by lia.
    replace (Z.min to (Z.max from ((d + 1) * Day))) with (Z.min to ((d + 1) * Day)) by lia.
    pose proof (weekend_before_mono from (Z.max from (d * Day)) ltac:(lia)) as H1.
    pose proof (weekend_before_mono from (Z.min to ((d + 1) * Day)) ltac:(lia)) as H2.
    unfold weekend_between in *. destruct (_ || _).
    + replace (if d * Day <? from then from else d * Day) with (Z.max from (d * Day))
        by (case_match; lia).
      replace (if to <? d * Day + Day then to else d * Day + Day) with (Z.min to ((d + 1) * Day))
        by (case_match; lia).
      rewrite time_sub_exact by (unfold in64; lia). rewrite int_add_id by (unfold in64; lia). lia.
    + lia.
  - assert (d = to / Day + 1) as -> by nia.
    replace (Z.min to (Z.max from ((to / Day + 1) * Day))) with to by nia. done.
Qed.

Lemma weekend_loop_between :
  weekend_loop 0 (weekend_fuel endOfDay from) from to endOfDay from 0 = weekend_between from to.
Proof.
  assert (0 < Day) as HDay by (rewrite Day_val; lia).
  pose proof (date_midnight_bounds from) as Hf. unfold date_midnight in Hf. rewrite Z.add_0_r in Hf.
  pose proof (weekend_loop_invariant (weekend_fuel endOfDay from) (from / Day)) as Hinv.
  replace (from + (from / Day - from / Day) * Day) with from in Hinv by lia.
  replace (Z.min to (Z.max from (from / Day * Day))) with from in Hinv by lia.
  unfold weekend_between at 1 in Hinv. rewrite Z.sub_diag in Hinv. apply Hinv.
  - pose proof (Z.div_le_mono from to Day HDay Hft). lia.
  - unfold weekend_fuel, endOfDay, date_midnight. rewrite Z.add_0_r. change (24 * Hour) with Day.
    pose proof (Z.div_le_mono from to Day HDay Hft).
    replace (to / Day * Day + Day - from) with (- from + (to / Day + 1) * Day) by lia.
    rewrite Z.div_add by lia.
    pose proof (Z.div_mod (- from) Day ltac:(lia)). pose proof (Z.mod_pos_bound (- from) Day HDay). nia.
Qed.
End weekend.

(** ** Rounding *)

Lemma duration_round_nearest d m :
  0 <= d -> 0 < m -> d + m < 2 ^ 63 ->
  duration_round d m mod m = 0 /\ 0 <= duration_round d m /\
  2 * Z.abs (duration_round d m - d) <= m.
Proof.
  intros Hd Hm Hbound. unfold duration_round. cbv zeta.
  rewrite Z.rem_mod_nonneg by lia.
  pose proof (Z.div_mod d m ltac:(lia)) as Hdm. pose proof (Z.mod_pos_bound d m Hm) as Hr.
  rewrite (proj2 (Z.leb_gt m 0)), (proj2 (Z.ltb_ge d 0)) by lia.
  set (r := d mod m) in *. set (q := d / m) in *. clearbody r q. subst d. assert (0 <= q) as Hq by nia.
  assert (0 <= q * m) by nia.
  destruct (Z.ltb_spec (r + r) m).
  - replace (m * q + r - r) with (q * m) by lia. rewrite Z.mod_mul by lia. lia.
  - rewrite wrap64_id by (unfold in64; lia). rewrite (proj2 (Z.ltb_lt (m * q + r) _)) by lia.
    replace (m * q + r + m - r) with ((q + 1) * m) by lia. rewrite Z.mod_mul by lia. lia.
Qed.

(** ** What is reported *)

(** Whether the configuration asks to leave the weekends out. *)
Definition excludes_weekend (cfg : ConfigSpec) : bool :=
  match cf_ActivePromotion cfg with
  | Some atpCfg =>
      match ca_OutdatedNotification atpCfg with
      | Some notification => on_ExcludeWeekendCalculation notification
      | None => false
      end
  | None => false
  end.

(** C36: in UTC, the time that has passed since an instant, less the weekends when the
    configuration asks for it, is computed to the nearest minute: the loop over the
    days finds exactly the weekend time of the interval, and the result is a
    multiple of a minute at most half a minute away from the exact working time. *)
Theorem outdated_working_time o t :
  t <= o_nowTime o -> o_nowTime o - t + Minute < 2 ^ 63 ->
  let exact := o_nowTime o - t
    - (if excludes_weekend (o_cfg o) then weekend_between t (o_nowTime o) else 0) in
  let d := calculateOutdatedDuration 0 o t in
  d mod Minute = 0 /\ 0 <= d /\ Z.abs (d - exact) <= 30 * Second.
Proof.
  intros Ht Hbound. cbv zeta.
  assert (0 < Minute) as HM by reflexivity.
  assert (getWeekendDuration 0 o t
    = if excludes_weekend (o_cfg o) then weekend_between t (o_nowTime o) else 0) as HW.
  { unfold getWeekendDuration, excludes_weekend.
    destruct (cf_ActivePromotion (o_cfg o)) as [c|]; [|done].
    destruct (ca_OutdatedNotification c) as [n|]; [|done].
    destruct (on_ExcludeWeekendCalculation n); [|done].
    apply weekend_loop_between; lia. }
  unfold calculateOutdatedDuration. cbv zeta. rewrite HW. clear HW.
  pose proof (weekend_before_mono t (o_nowTime o) Ht) as Hw.
  rewrite time_sub_exact by (unfold in64; lia).
  rewrite int_sub_id by (unfold in64; case_match; lia).
  set (w := if excludes_weekend _ then _ else _).
  assert (0 <= w <= o_nowTime o - t) as Hw' by (subst w; case_match; lia).
  destruct (duration_round_nearest (o_nowTime o - t - w) Minute) as (H1 & H2 & H3); [lia..|].
  split_and!; [done|done|]. assert (Minute = 2 * (30 * Second)) by reflexivity. lia.
Qed.

Definition sim_cfg (excl : bool) (exceed : Z) : ConfigSpec :=
  mkConfigSpec [] ∅ [] None
    (Some (mkConfigActivePromotion 0 0 0 None 0 0 (Some (mkOutdatedNotification exceed excl)) false None))
    None [] None "".

(** From Friday, January 2 of 1970 at noon to Monday at noon: one working day. *)
Lemma outdated_working_time_witness :
  let o := mkOutdated (sim_cfg true 0) ∅ ∅ (4 * Day + 12 * Hour) in
  let d := calculateOutdatedDuration 0 o (Day + 12 * Hour) in
  d = Day /\ Z.abs (d - Day) <= 30 * Second.
Proof.
  cbv zeta. split; [vm_compute; reflexivity|].
  refine (proj2 (proj2 (outdated_working_time
    (mkOutdated (sim_cfg true 0) ∅ ∅ (4 * Day + 12 * Hour)) (Day + 12 * Hour) _ _))).
  - vm_compute. discriminate.
  - vm_compute. reflexivity.
Defined.

(** away from UTC the computed weekend time can be negative: seven hours east of
    it, at one o'clock in the night of a Saturday, the one hour since midnight is
    reported as thirty-seven hours of working time. *)
Theorem weekend_negative_off_UTC :
  let o := mkOutdated (sim_cfg true 0) ∅ ∅ (Day + 18 * Hour) in
  getWeekendDuration (7 * Hour) o (Day + 17 * Hour) = - (36 * Hour) /\
  calculateOutdatedDuration (7 * Hour) o (Day + 17 * Hour) = 37 * Hour.
Proof. vm_compute. done. Qed.

Section reports.
Context {W : Type} `{GR : GoRuntime W} `{GL : !GoRuntimeLaws W} `{GS : GoSort}.
Context (zone : Z) (o : Outdated).
Implicit Types (w : W) (s : ActivePromotionStatus).

(** The desired images all say which image they are. *)
Definition images_named : Prop :=
  forall name images, o_desiredCompsImageTime o !! name = Some images ->
    forall key i, images !! key = Some i -> is_Some (dit_Image i).

(** An entry for the component: it shows the running image, and its duration is either
    0 or beyond what the configuration tolerates, and then the status says so. *)
Definition reported (spec : StableComponentSpec) (oc : OutdatedComponent) s : Prop :=
  oc_CurrentImage oc = Some (mkImage (sc_Repository spec) (sc_Version spec)) /\
  (oc_OutdatedDuration oc = 0 \/
   isExceedOutdatedDuration o (oc_OutdatedDuration oc) = true /\ ast_HasOutdatedComponent s = true).

(** The component runs the image that was created last. *)
Definition up_to_date (spec : StableComponentSpec) : Prop :=
  exists images key i, o_desiredCompsImageTime o !! sc_Name spec = Some images /\
    images !! key = Some i /\
    EqualFold key (ConcatImageString (sc_Repository spec) (sc_Version spec)) = true /\
    (forall key' i', images !! key' = Some i' -> key' <> key -> dit_CreatedTime i' < dit_CreatedTime i).

(** What the code may do to the status for one component. *)
Record effect (spec : StableComponentSpec) s s' : Prop := {
  effect_flag : ast_HasOutdatedComponent s = true -> ast_HasOutdatedComponent s' = true;
  effect_others n : n <> sc_Name spec ->
    ast_OutdatedComponents s' !! n = ast_OutdatedComponents s !! n;
  effect_own : ast_OutdatedComponents s' !! sc_Name spec = ast_OutdatedComponents s !! sc_Name spec \/
    exists oc, ast_OutdatedComponents s' !! sc_Name spec = Some oc /\ reported spec oc s';
}.

Lemma effect_refl spec s : effect spec s s.
Proof. split; auto. Qed.

Lemma effect_put spec s s' oc :
  effect spec s s' -> reported spec oc s' ->
  effect spec s (s' <| ast_OutdatedComponents ::= insert (sc_Name spec) oc |>).
Proof.
  intros [Hf Ho _] Hr. split; simpl; [done| |].
  - intros n Hn. rewrite lookup_insert_ne by done. auto.
  - right. exists oc. by rewrite lookup_insert_eq.
Qed.

Lemma effect_flagged spec s s' :
  effect spec s s' -> effect spec s (s' <| ast_HasOutdatedComponent := true |>).
Proof.
  intros [Hf Ho Hown]. split; simpl; [done|done|]. destruct Hown as [?|(oc & Hoc & Hc & Hd)]; [by left|].
  right. exists oc. split; [done|]. split; [done|]. simpl. destruct Hd as [|[? _]]; auto.
Qed.

Lemma wp_older_image spec image latest p s0 (ws : W * ActivePromotionStatus) :
  effect spec s0 (snd ws) -> is_Some (dit_Image latest) ->
  wp (older_image zone o spec image latest p) ws
    (fun r ws' => r = Ok tt /\ effect spec s0 (snd ws')).
Proof.
  intros He [img Himg]. destruct ws as [w s]. simpl in He. destruct p as [newer i]. unfold older_image.
  destruct (EqualFold (tdi_Image i) image); [cbn [negb]|cbn [negb]; by wp_step]. cbv zeta.
  set (d := calculateOutdatedDuration _ _ _). destruct (isExceedOutdatedDuration o d) eqn:Hd.
  - unfold getOutdatedComponent, put_outdated. rewrite Himg. repeat wp_step. split; [done|]. wp_fst.
    apply effect_put; [by apply effect_flagged|]. split; [done|]. by right.
  - unfold getOutdatedComponent, put_outdated. rewrite Himg. repeat wp_step. split; [done|]. wp_fst.
    apply effect_put; [done|]. split; [done|]. by left.
Qed.

Lemma wp_outdated_component c (ws : W * ActivePromotionStatus) :
  images_named ->
  wp (outdated_component zone o c) ws (fun r ws' => r = Ok tt /\
    effect (stable_Spec c) (snd ws) (snd ws') /\
    (up_to_date (stable_Spec c) -> exists oc,
       ast_OutdatedComponents (snd ws') !! sc_Name (stable_Spec c) = Some oc /\
       oc_OutdatedDuration oc = 0)).
Proof.
  intros Hnamed. unfold outdated_component. cbv zeta.
  set (spec := stable_Spec c). set (image := ConcatImageString _ _).
  set (images := default ∅ (o_desiredCompsImageTime o !! sc_Name spec)).
  assert (forall key i, images !! key = Some i -> is_Some (dit_Image i)) as Hnm.
  { subst images. destruct (o_desiredCompsImageTime o !! sc_Name spec) eqn:E; simpl; [by eapply Hnamed|].
    intros ??. by rewrite lookup_empty. }
  case_bool_decide as Hsize.
  { wp_step. split_and!; [done|apply effect_refl|].
    intros (m & key & i & Hm & Hi & _). subst images. rewrite Hm in Hsize. simpl in Hsize.
    apply map_size_empty_inv in Hsize as ->. by rewrite lookup_empty in Hi. }
  wp_step. apply wp_onW, wp_SortByCreatedTimeDESC. intros l w' _ Hp Hs.
  assert (Forall (fun t => images !! tdi_Image t = Some (tdi_ImageTime t)) l) as Hl.
  { rewrite Hp. apply Forall_fmap, Forall_forall. intros [k i]. simpl. by rewrite elem_of_map_to_list. }
  destruct l as [|latest l].
  { exfalso. apply Hsize. apply Permutation_length in Hp. rewrite length_fmap in Hp. simpl in Hp.
    by rewrite <- length_map_to_list. }
  inversion_clear Hl as [|?? Hlatest Hl']. destruct (Hnm _ _ Hlatest) as [img Himg].
  wp_step. wp_step. simpl lookup. lazy iota. destruct (EqualFold (tdi_Image latest) image) eqn:Hfold.
  { unfold getOutdatedComponent, put_outdated. rewrite Himg. repeat wp_step. wp_fst. split; [done|]. split.
    - apply effect_put; [apply effect_refl|]. split; [done|]. by left.
    - intros _. eexists. simpl. by rewrite lookup_insert_eq. }
  apply (wp_for_each (fun _ ws' => effect spec (snd ws) (snd ws'))).
  - apply effect_refl.
  - intros p l' ws' He. eapply wp_mono; [apply wp_older_image; [exact He|by eexists]|].
    by intros r ws'' [-> He'].
  - intros ws' He. split_and!; [done|done|]. intros (m & key & i & Hm & Hi & Hk & Hmax). exfalso.
    assert (images = m) as -> by (subst images; by rewrite Hm).
    destruct (decide (tdi_Image latest = key)) as [Heq|Hne].
    { rewrite Heq in Hfold. subst image. congruence. }
    specialize (Hmax _ _ Hlatest Hne).
    assert (mkTeamDesiredImageTime key i ∈ latest :: l) as Hin.
    { rewrite Hp. apply list_elem_of_fmap. exists (key, i). by rewrite elem_of_map_to_list. }
    apply elem_of_cons in Hin as [<-|Hin]; [by simpl in Hne|].
    inversion_clear Hs as [|?? _ Hall]. rewrite Forall_forall in Hall. specialize (Hall _ Hin).
    simpl in Hall. lia.
Qed.

(** when every desired image is named, [SetOutdatedDuration] returns without an
    error, raises the flag of outdated components at most, and writes about
    components of the active environment only: what it writes shows the running
    image and a duration that is 0 or beyond what is tolerated (then the flag is up);
    and when the components are filed under their names, one that runs the image
    that was created last gets the duration 0. *)
Theorem SetOutdatedDuration_reports w s :
  images_named ->
  exists w' s', SetOutdatedDuration zone o (w, s) = (Ok tt, (w', s')) /\
    (ast_HasOutdatedComponent s = true -> ast_HasOutdatedComponent s' = true) /\
    (forall n oc, ast_OutdatedComponents s' !! n = Some oc ->
       ast_OutdatedComponents s !! n = Some oc \/
       exists key c, o_currentActiveComps o !! key = Some c /\ sc_Name (stable_Spec c) = n /\
         reported (stable_Spec c) oc s') /\
    ((forall key c, o_currentActiveComps o !! key = Some c -> sc_Name (stable_Spec c) = key) ->
     forall key c, o_currentActiveComps o !! key = Some c -> up_to_date (stable_Spec c) ->
       exists oc, ast_OutdatedComponents s' !! key = Some oc /\ oc_OutdatedDuration oc = 0).
Proof.
  intros Hnamed.
  set (comps := o_currentActiveComps o).
  assert (wp (SetOutdatedDuration zone o) (w, s) (fun r ws' => exists a, r = Ok a /\
    let s' := snd ws' in
    (ast_HasOutdatedComponent s = true -> ast_HasOutdatedComponent s' = true) /\
    (forall n oc, ast_OutdatedComponents s' !! n = Some oc ->
       ast_OutdatedComponents s !! n = Some oc \/
       exists key c, comps !! key = Some c /\ sc_Name (stable_Spec c) = n /\
         reported (stable_Spec c) oc s') /\
    ((forall key c, comps !! key = Some c -> sc_Name (stable_Spec c) = key) ->
     forall key c, comps !! key = Some c -> up_to_date (stable_Spec c) ->
       exists oc, ast_OutdatedComponents s' !! key = Some oc /\ oc_OutdatedDuration oc = 0))) as Hwp;
    [|apply wp_total in Hwp as ([] & [w' s'] & -> & H); by exists w', s'].
  unfold SetOutdatedDuration. wp_step. apply wp_onW, wp_range_map. intros l w' Hr.
  pose proof (rt_range_perm _ comps w) as Hp. subst comps. wp_fst. simpl in Hr. rewrite Hr in Hp. simpl in Hp.
  assert (NoDup (l.*1)) as Hnd by (rewrite Hp; apply NoDup_fst_map_to_list).
  apply (wp_for_each (fun todo ws' => exists seen, l = seen ++ todo /\
    (ast_HasOutdatedComponent s = true -> ast_HasOutdatedComponent (snd ws') = true) /\
    (forall n oc, ast_OutdatedComponents (snd ws') !! n = Some oc ->
       ast_OutdatedComponents s !! n = Some oc \/
       exists p, p ∈ seen /\ sc_Name (stable_Spec (snd p)) = n /\
         reported (stable_Spec (snd p)) oc (snd ws')) /\
    ((forall p, p ∈ l -> sc_Name (stable_Spec (snd p)) = fst p) ->
     forall p, p ∈ seen -> up_to_date (stable_Spec (snd p)) ->
       exists oc, ast_OutdatedComponents (snd ws') !! fst p = Some oc /\ oc_OutdatedDuration oc = 0))).
  - exists []. split_and!; [done|done|by left|]. by intros _ p ?%elem_of_nil.
  - intros [key c] todo ws' (seen & Hl & Hflag & Hown & Hup).
    eapply wp_mono; [by apply wp_outdated_component|].
    intros r ws'' (-> & [Hf Ho He] & Hnew). simpl in He, Ho, Hnew. exists (seen ++ [(key, c)]).
    rewrite Hl, <- app_assoc. split_and!; [done|auto| |].
    + intros n oc Hn. destruct (decide (n = sc_Name (stable_Spec c))) as [->|Hne].
      * destruct He as [He|(oc' & Hoc' & Hrep)].
        { rewrite He in Hn. apply Hown in Hn as [?|(p & Hp' & Hpn & Hrep)]; [by left|right].
          exists p. split_and!; [apply elem_of_app; by left|done|].
          destruct Hrep as [? [?|[? ?]]]; (split; [done|]); auto. }
        right. exists (key, c). split_and!; [apply elem_of_app; right; by apply list_elem_of_singleton|done|].
        rewrite Hoc' in Hn. by simplify_eq.
      * rewrite Ho in Hn by done. apply Hown in Hn as [?|(p & Hp' & Hpn & Hrep)]; [by left|right].
        exists p. split_and!; [apply elem_of_app; by left|done|].
        destruct Hrep as [? [?|[? ?]]]; (split; [done|]); auto.
    + intros Hfiled p [Hp'| ->%list_elem_of_singleton]%elem_of_app Hutd.
      * rewrite Hl in Hup. destruct (Hup Hfiled p Hp' Hutd) as (oc & Hoc & Hd).
        exists oc. split; [|done]. rewrite Ho; [done|].
        assert (key = sc_Name (stable_Spec c)) as Hkey.
        { symmetry. apply (Hfiled (key, c)). apply elem_of_app. right. by left. }
        rewrite <- Hkey. intros Heq. rewrite Hl, fmap_app in Hnd. apply NoDup_app in Hnd as (_ & Hdis & _).
        apply (Hdis (fst p)); [by apply list_elem_of_fmap_2|]. rewrite Heq. by left.
      * simpl in *. destruct (Hnew Hutd) as (oc & Hoc & Hd). exists oc. split; [|done].
        assert (sc_Name (stable_Spec c) = key) as <-; [|done].
        apply (Hfiled (key, c)). apply elem_of_app. right. by left.
  - intros ws' (seen & Hl & Hflag & Hown & Hup). rewrite app_nil_r in Hl. subst seen.
    exists tt. split; [done|]. cbv zeta. split_and!; [done| |].
    + intros n oc Hn. apply Hown in Hn as [?|([key c] & Hp' & Hpn & Hrep)]; [by left|right].
      exists key, c. rewrite Hp, elem_of_map_to_list in Hp'. done.
    + intros Hfiled key c Hc Hutd. apply (Hup ltac:(intros [k c'] Hk; rewrite Hp, elem_of_map_to_list in Hk; by apply Hfiled) (key, c)); [|done].
      by rewrite Hp, elem_of_map_to_list.
Qed.
End reports.

Lemma SetOutdatedDuration_reports_witness :
  let image tag t := mkDesiredImageTime (Some (mkImage "redis" tag)) t false in
  let redis := mkStableComponent noMeta (mkStableComponentSpec "redis" "redis" "5.0" "")
                 (mkStableComponentStatus None None) in
  let o := mkOutdated (sim_cfg false Hour)
    {[ "redis" := {[ "redis:5.0" := image "5.0" 0; "redis:6.0" := image "6.0" (Day) ]} ]}
    {[ "redis" := redis ]} (2 * Day) in
  let GS := insertion_GoSort in
  exists w' s', SetOutdatedDuration 0 o (0, zeroAtpStatus) = (Ok tt, (w', s')) /\
    ast_HasOutdatedComponent s' = true /\
    (oc_OutdatedDuration <$> ast_OutdatedComponents s' !! "redis") = Some (Day + Minute) /\
    (forall n oc, ast_OutdatedComponents s' !! n = Some oc -> n = "redis" /\
       reported o (stable_Spec redis) oc s').
Proof.
  cbv zeta. set (o := mkOutdated _ _ _ _). pose (GS := insertion_GoSort).
  destruct (SetOutdatedDuration_reports 0 o 0 zeroAtpStatus) as (w' & s' & Heq & _ & Hown & _).
  { intros name images Hn key i Hi. unfold o in Hn. simpl in Hn.
    apply lookup_singleton_Some in Hn as [<- <-].
    apply lookup_insert_Some in Hi as [[_ <-]|[_ [_ <-]%lookup_singleton_Some]]; eexists; reflexivity. }
  exists w', s'. split; [exact Heq|].
  assert (s' = snd (snd (SetOutdatedDuration 0 o (0, zeroAtpStatus)))) as Hs' by (rewrite Heq; reflexivity).
  split; [rewrite Hs'; vm_compute; reflexivity|]. split; [rewrite Hs'; vm_compute; reflexivity|].
  intros n oc Hn. destruct (Hown n oc Hn) as [Hz|(key & c & Hc & <- & Hr)].
  - simpl in Hz. rewrite lookup_empty in Hz. discriminate.
  - simpl in Hc. apply lookup_singleton_Some in Hc as [_ <-]. split; [reflexivity|exact Hr].
Defined.
