(* ===== verification/AtpCtrl.v ===== *)
(** Model of [internal/samsahai/activepromotion/], all of its files: the controller
    that takes one active promotion at a time per team from the queue to the active
    environment, or rolls it back.

    A handler runs on the cluster and the [ActivePromotion] object that [Reconcile]
    fetched; what it changes in the object reaches the cluster with
    [updateActivePromotion] only. *)

From S2P Require Import Prelude.
From S2P Require Import GoRuntime.
From S2P Require Import Errors.
From S2P Require Import KubeApi.
From S2P Require Import ConfigTypes.
From S2P Require Import ComponentTypes.
From S2P Require Import QueueTypes.
From S2P Require Import TeamTypes.
From S2P Require Import AtpTypes.
From S2P Require Import RpcTypes.
From S2P Require Import QueueCtrl.
From S2P Require Import Interfaces.
From S2P Require Import Cleanup.
From S2P Require Import Outdated.
Open Scope string_scope.
Open Scope list_scope.
Open Scope Z_scope.

Definition activePromotionFinalizer : string := "activepromotion.finalizers.samsahai.io".
Definition tokenLength : nat := 6.

Inductive timeoutType :=
| timeoutActivePromotion | timeoutActiveDemotion | timeoutActivePromotionRollback
| timeoutActiveDemotionForRollback.
Inductive envType := activeEnvironment | preActiveEnvironment | previousActiveEnvironment.

Definition stateWaiting : string := "waiting".
Definition stateRunning : string := "running".

(** The kinds of objects that the controller reads and writes. *)
Class PromotionCluster (W : Type) := {
  pcl_atp :: KClient W ActivePromotion;
  pcl_hist :: KClient W ActivePromotionHistory;
  pcl_team :: KClient W Team;
  pcl_queue :: KClient W Queue;
  pcl_stable :: KClient W StableComponent;
  pcl_objects :: forall k, KClient W (KubeObj k);
}.

(** ** util.go *)

Definition appendStateLabel (state : string) (a : ActivePromotion) : ActivePromotion :=
  a <| atp_Meta ::= fun m => m <| om_Labels ::= insert "state" state |> |>.
Definition getStateLabel (state : string) : gmap string string := {[ "state" := state ]}.

(** ** controller.go, the parts without effects *)

Definition addFinalizer (a : ActivePromotion) : ActivePromotion :=
  if time_is_zero (om_DeletionTimestamp (atp_Meta a)) then
    if ContainsString (om_Finalizers (atp_Meta a)) activePromotionFinalizer then a
    else a <| atp_Meta ::= fun m => m <| om_Finalizers ::= fun l => l ++ [activePromotionFinalizer] |> |>
  else a.

Definition stateCannotBeTimeoutOrCancel (state : ActivePromotionState) : bool :=
  bool_decide (state = ActivePromotionWaiting) ||
  bool_decide (state = ActivePromotionDestroyingPreviousActive) ||
  bool_decide (state = ActivePromotionDestroyingPreActive) ||
  bool_decide (state = ActivePromotionFinished) ||
  bool_decide (state = ActivePromotionRollback).

Definition isToRollbackState (a : ActivePromotion) : bool :=
  AtpIsConditionTrue (atp_Status a) ActivePromotionCondVerified.

(** [atpComp.Spec.NoDowntimeGuarantee != nil && *atpComp.Spec.NoDowntimeGuarantee]. *)
Definition no_downtime (a : ActivePromotion) : bool :=
  match as_NoDowntimeGuarantee (atp_Spec a) with Some b => b | None => false end.

(** [getActivePromotionVerificationReason]. *)
Fixpoint verified_message (conds : list (Condition ActivePromotionConditionType)) : string :=
  match conds with
  | [] => "Active environment has not been promoted"
  | cond :: conds =>
      if decide (c_Type cond = ActivePromotionCondVerified) then c_Message cond
      else verified_message conds
  end.
Definition getActivePromotionVerificationReason (a : ActivePromotion) : string :=
  if ast_IsTimeout (atp_Status a) then "Active promotion has been timeout"
  else verified_message (ast_Conditions (atp_Status a)).

Section controller.
Context {W : Type} `{GR : GoRuntime W} `{GS : GoSort} `{PC : PromotionCluster W}
  `{CC : ConfigController W} `{SC : SamsahaiController W}.
(** The configuration of Samsahai and the time zone of its process. *)
Context (configs : SamsahaiConfig) (zone : Z).

(** A handler of one promotion. *)
Definition Handler (A : Type) : Type := M (W * ActivePromotion) A.

Definition set_status (f : ActivePromotionStatus -> ActivePromotionStatus) : Handler unit :=
  mod_obj (fun a => a <| atp_Status ::= f |>).
Definition set_state (state : ActivePromotionState) (message : string) : Handler unit :=
  do t <- onW now; mod_obj (AtpSetState t state message).
Definition set_cond (cond : ActivePromotionConditionType) (status : ConditionStatus)
    (message : string) : Handler unit :=
  do t <- onW now; set_status (AtpSetCondition t cond status message).

(** The controller keeps a configuration's value when the team has none. *)
Definition used_or {A} (dflt : A) (teamName : string)
    (f : ConfigActivePromotion -> option A) : M W A :=
  do r <- attempt (cfg_Get teamName);
  match r with
  | inl _ => mret dflt
  | inr config => mret (default dflt (used_promotion config ≫= f))
  end.
Definition nonzero (d : Z) : option Z := if d =? 0 then None else Some d.

(** ** util.go *)

Definition getTeam (teamName : string) : M W Team := k_get Team ("", teamName).

Definition getTargetNamespace : Handler string :=
  do a <- get_obj;
  if String.eqb (ast_TargetNamespace (atp_Status a)) "" then
    do r <- attempt (onW (getTeam (kname a)));
    match r with
    | inl _ => mret ""
    | inr teamComp => mret (tn_PreActive (tst_Namespace (team_Status teamComp)))
    end
  else mret (ast_TargetNamespace (atp_Status a)).

Definition updateActivePromotion : Handler unit :=
  do a <- get_obj;
  wrapping ("cannot update activepromotion " +:+ kname a) (onW (k_update a)).

Definition deleteActivePromotion : Handler unit :=
  do a <- get_obj;
  do r <- attempt (onW (k_delete a));
  match r with
  | inl err =>
      if IsNotFound err then mret tt
      else throw (Wrap err ("cannot delete activepromotion " +:+ kname a))
  | inr _ => mret tt
  end.

Definition removeFinalizerObject : Handler unit :=
  do a <- get_obj;
  do r <- attempt (onW (k_get ActivePromotion ("", kname a)));
  if match r with inl err => IsNotFound err | inr _ => false end then mret tt else
  if ContainsString (om_Finalizers (atp_Meta a)) activePromotionFinalizer then
    run mod_obj (fun a => a <| atp_Meta ::= fun m =>
      m <| om_Finalizers ::= fun l => RemoveString l activePromotionFinalizer |> |>);
    wrapping ("cannot remove finalizer of activepromotion " +:+ kname a) updateActivePromotion
  else mret tt.

Definition forceDeleteActivePromotion : Handler unit :=
  run removeFinalizerObject; deleteActivePromotion.

(** ** configuration.go *)

Definition getActiveDemotionTimeout (teamName : string) : M W Duration :=
  used_or (ac_DemotionTimeout (s2h_ActivePromotion configs)) teamName (fun c => nonzero (ca_DemotionTimeout c)).
Definition getActivePromotionTimeout (teamName : string) : M W Duration :=
  used_or (ac_Timeout (s2h_ActivePromotion configs)) teamName (fun c => nonzero (ca_Timeout c)).
Definition getActivePromotionRollbackTimeout (teamName : string) : M W Duration :=
  used_or (ac_RollbackTimeout (s2h_ActivePromotion configs)) teamName (fun c => nonzero (ca_RollbackTimeout c)).

Definition getMaxActivePromotionRetry (teamName : string) : M W Z :=
  do maxRetry <- used_or (ac_MaxRetry (s2h_ActivePromotion configs)) teamName
                   (fun c => Some <$> ca_MaxRetry c);
  deref maxRetry.

Definition isTimeoutFromConfig (type : timeoutType) : Handler bool :=
  do a <- get_obj;
  do t <- onW now;
  do timeout <- onW (match type with
    | timeoutActivePromotion => getActivePromotionTimeout (kname a)
    | timeoutActiveDemotion => getActiveDemotionTimeout (kname a)
    | timeoutActivePromotionRollback => getActivePromotionRollbackTimeout (kname a)
    | timeoutActiveDemotionForRollback => getActiveDemotionTimeout (kname a)
    end);
  let startedTime := AtpGetConditionLatestTime (atp_Status a)
    (match type with
     | timeoutActivePromotion => ActivePromotionCondStarted
     | timeoutActiveDemotion => ActivePromotionCondActiveDemotionStarted
     | timeoutActivePromotionRollback => ActivePromotionCondRollbackStarted
     | timeoutActiveDemotionForRollback => ActivePromotionCondRollbackStarted
     end) in
  match startedTime with
  | None => mret false
  | Some started => mret (timeout <? time_sub t started)
  end.

(** ** queue.go *)

Definition manageQueue (currentAtpComp : ActivePromotion) : M W bool :=
  do running <- wrapping "cannot list activepromotions"
    (k_list ActivePromotion (MatchingLabels (getStateLabel stateRunning)));
  let concurrentAtp := ac_Concurrences (s2h_ActivePromotion configs) in
  if concurrentAtp <=? Z.of_nat (length running) then mret false else
  do waiting <- wrapping "cannot list activepromotions"
    (k_list ActivePromotion (MatchingLabels (getStateLabel stateWaiting)));
  if (length waiting =? 0)%nat then mret false else
  let waiting := SortASC waiting in
  if 0 <? int_sub concurrentAtp (Z.of_nat (length running)) then
    do first <- index waiting 0;
    do ' (_, first) <- with_obj first (
      run mod_obj addFinalizer;
      run set_state ActivePromotionCreatingPreActive "Creating pre-active environment";
      run set_cond ActivePromotionCondStarted ConditionTrue "Active promotion has been started";
      run mod_obj (appendStateLabel stateRunning);
      updateActivePromotion);
    mret (String.eqb (kname first) (kname currentAtpComp))
  else mret false.

Definition setRetryQueue : Handler unit :=
  do t <- onW now;
  run set_status (fun _ =>
    zeroAtpStatus <| ast_StartedAt := Some t |> <| ast_UpdatedAt := Some t |>);
  updateActivePromotion.

Definition checkRetryQueue : Handler bool :=
  do a <- get_obj;
  if bool_decide (ast_State (atp_Status a) = ActivePromotionFinished) && IsActivePromotionFailure a then
    do maxRetry <- onW (getMaxActivePromotionRetry (kname a));
    if as_NoOfRetry (atp_Spec a) <? maxRetry then
      run mod_obj (fun a => a <| atp_Spec ::= fun s =>
        s <| as_NoOfRetry ::= fun n => int_add n 1 |> |>);
      run setRetryQueue;
      mret true
    else mret false
  else mret false.

(** ** environment_cleanup.go *)

Definition getComponentCleanupTimeout (teamName : string) : M W Duration :=
  do r <- attempt (cfg_Get teamName);
  match r with
  | inl _ => mret (15 * Minute)
  | inr config =>
      match used_promotion config ≫= ca_Deployment with
      | None => mret (15 * Minute)
      | Some deployment => mret (cd_ComponentCleanupTimeout deployment)
      end
  end.

(** A release that cannot be deleted is logged. *)
Definition deleteAllComponentsInNamespace (teamName ns : string) (startedCleanupTime : option Z)
    : M W unit :=
  do deployEngine <- s2h_GetActivePromotionDeployEngine teamName ns;
  do parentComps <- cfg_GetParentComponents teamName;
  do comps <- range_map parentComps;
  run for_each comps (fun comp => ignore_error (de_Delete deployEngine (GenReleaseName (fst comp))));
  do cleanupTimeout <- getComponentCleanupTimeout teamName;
  do ok <- WaitForComponentsCleaned deployEngine parentComps ns startedCleanupTime cleanupTimeout;
  if ok : bool then mret tt else throw ErrDeletingReleases.

Definition ensureNamespaceDestroyed (teamName ns : string) : M W unit :=
  do r <- attempt (k_get (KubeObj NamespaceKind) ("", ns));
  match r with
  | inl err => if IsNotFound err then mret tt else throw err
  | inr _ => throw ErrEnsureNamespaceDestroyed
  end.

Definition destroy_namespace (msg : string) (m : M W unit) : M W unit :=
  do r <- attempt m;
  match r with
  | inl err => if IsNamespaceStillExists err then throw ErrEnsureNamespaceDestroyed
               else throw (Wrap err msg)
  | inr _ => mret tt
  end.

Definition ensureDestroyEnvironment (env : envType) (teamName ns : string)
    (startedCleanupTime : option Z) : M W unit :=
  do r <- attempt (deleteAllComponentsInNamespace teamName ns startedCleanupTime);
  run (match r with
       | inl err => if IsDeletingReleases err then throw ErrEnsureNamespaceDestroyed else throw err
       | inr _ => mret tt
       end);
  run (match env with
       | activeEnvironment =>
           destroy_namespace ("cannot destroy active environment, namespace " +:+ ns)
             (s2h_DestroyActiveEnvironment teamName ns)
       | preActiveEnvironment =>
           destroy_namespace ("cannot destroy pre-active environment, namespace " +:+ ns)
             (s2h_DestroyPreActiveEnvironment teamName ns)
       | previousActiveEnvironment =>
           destroy_namespace ("cannot destroy previous active environment, namespace " +:+ ns)
             (s2h_DestroyPreviousActiveEnvironment teamName ns)
       end);
  ensureNamespaceDestroyed teamName ns.

Definition destroyActiveEnvironment (startedCleanupTime : option Z) : Handler unit :=
  do a <- get_obj;
  onW (ensureDestroyEnvironment activeEnvironment (kname a)
         (ast_PreviousActiveNamespace (atp_Status a)) startedCleanupTime).

Definition destroyPreviousActiveEnvironmentAt (teamName prevNs : string) (destroyedTime : option Z)
    : M W unit :=
  if String.eqb prevNs "" then mret tt else
  if time_is_zero destroyedTime then throw ErrEnsureNamespaceDestroyed else
  do t <- now;
  do destroyed <- deref destroyedTime;
  if negb (destroyed <? t) then throw ErrEnsureNamespaceDestroyed else
  ensureDestroyEnvironment previousActiveEnvironment teamName prevNs destroyedTime.

Definition destroyPreviousActiveEnvironment : Handler unit :=
  do a <- get_obj;
  run onW (destroyPreviousActiveEnvironmentAt (kname a)
             (ast_PreviousActiveNamespace (atp_Status a)) (ast_DestroyedTime (atp_Status a)));
  run set_cond ActivePromotionCondPreviousActiveDestroyed ConditionTrue
    "Previous active namespace has been destroyed";
  run set_cond ActivePromotionCondFinished ConditionTrue
    "Active promotion process has been finished";
  set_state ActivePromotionFinished "Completed".

Definition destroyPreActiveEnvironment : Handler unit :=
  do targetNs <- getTargetNamespace;
  do a <- get_obj;
  run onW (ensureDestroyEnvironment preActiveEnvironment (kname a) targetNs
             (AtpGetConditionLatestTime (atp_Status a) ActivePromotionCondActivePromoted));
  run set_cond ActivePromotionCondPreActiveDestroyed ConditionTrue
    "Pre-active environment has been destroyed";
  run set_cond ActivePromotionCondFinished ConditionTrue
    "Active promotion process has been finished";
  set_state ActivePromotionFinished "Completed".

(** ** environment_creator.go *)

Definition letters : list Ascii.ascii := String.list_ascii_of_string "0123456789abcdefghijklmnopqrstuvwxyz".

(** The generator is seeded for this token alone. *)
Definition randomToken {S} (l : nat) (seed : Z) : M S string :=
  do b <- mapM (M:=M S) (fun i => index letters (Z.to_nat (rt_intn (W:=W) seed i (Z.of_nat (length letters)))))
            (seq 0 l);
  mret (String.string_of_list_ascii b).

Definition ensureTeamNamespaceUpdated (teamNs atpNs : string) : M W unit :=
  if String.eqb teamNs atpNs then mret tt
  else throw (Errors.New ("team pre-active namespace was not updated, expected: " +:+ atpNs +:+
                   ", actual: " +:+ teamNs)).

Definition ensureNamespaceReady (ns : string) : M W unit :=
  run wrapping ("cannot get namespace " +:+ ns) (k_get (KubeObj NamespaceKind) ("", ns));
  mret tt.

Definition createPreActiveEnvironment (teamName preActiveNs : string) : M W unit :=
  do r <- attempt (s2h_CreatePreActiveEnvironment teamName preActiveNs);
  run (match r with
       | inl err =>
           if IsAlreadyExists err then mret tt
           else if IsNamespaceStillCreating err then throw ErrEnsurePreActiveEnvironmentCreated
           else throw err
       | inr _ => mret tt
       end);
  do teamComp <- getTeam teamName;
  do r <- attempt (ensureNamespaceReady preActiveNs);
  match r with
  | inl _ => throw ErrEnsurePreActiveEnvironmentCreated
  | inr _ =>
      do r <- attempt (ensureTeamNamespaceUpdated
                         (tn_PreActive (tst_Namespace (team_Status teamComp))) preActiveNs);
      match r with
      | inl _ => throw ErrEnsurePreActiveEnvironmentCreated
      | inr _ => mret tt
      end
  end.

Definition getStableComponentObjects (ns : string) : M W (list StableComponent) :=
  k_list StableComponent (InNamespace ns).

Definition deploy_stable (targetNs : string) (comp : StableComponent) : M W unit :=
  let newComp := mkStableComponent
    ((namedMeta targetNs (kname comp)) <| om_Labels := om_Labels (stable_Meta comp) |>)
    (stable_Spec comp) (mkStableComponentStatus None None) in
  do r <- attempt (k_create newComp);
  match r with
  | inl err =>
      if IsAlreadyExists err then
        do ctemp <- k_get StableComponent (targetNs, kname comp);
        k_update (ctemp <| stable_Spec := stable_Spec newComp |>
                        <| stable_Status := stable_Status newComp |>)
      else throw (Wrap err ("cannot deploy stable components into target namespace " +:+ targetNs))
  | inr _ => mret tt
  end.

Definition deployStableComponentObjects (comps : list StableComponent) (targetNs : string) : M W unit :=
  if String.eqb targetNs "" then
    throw (Wrap (Errors.New "target namespace is empty") "cannot deploy stable components")
  else for_each comps (deploy_stable targetNs).

Definition copyStableComponentObjectsToTargetNamespace (baseNs targetNs : string) : Handler unit :=
  do r <- attempt (onW (getStableComponentObjects baseNs));
  do stableComps <- (match r with
    | inl err =>
        if IsNotFound err then mret []
        else throw (Wrap err ("cannot get stable components from staging namespace " +:+ baseNs))
    | inr comps => mret comps
    end);
  run onW (deployStableComponentObjects stableComps targetNs);
  set_status (SetActiveComponents stableComps).

Definition createPreActiveEnvAndDeployStableCompObjects : Handler unit :=
  do a <- get_obj;
  let teamName := kname a in
  do suffix <- randomToken tokenLength (wrap64 (om_CreationTimestamp (atp_Meta a)));
  let targetNs := AppPrefix +:+ teamName +:+ "-" +:+ suffix in
  run onW (createPreActiveEnvironment teamName targetNs);
  do teamComp <- onW (getTeam teamName);
  let stagingNs := tn_Staging (tst_Namespace (team_Status teamComp)) in
  run copyStableComponentObjectsToTargetNamespace stagingNs targetNs;
  run set_status (SetNamespace targetNs (tn_Active (tst_Namespace (team_Status teamComp))));
  run set_cond ActivePromotionCondPreActiveCreated ConditionTrue
    "Pre-active environment has been created";
  run set_cond ActivePromotionCondVerificationStarted ConditionTrue
    "Verifying pre-active environment";
  set_state ActivePromotionDeployingComponents "Deploying stable components into target namespace".

(** The call works on the team object, whatever it returns. *)
Definition ensureActiveEnvironmentPromoted : Handler unit :=
  do targetNs <- getTargetNamespace;
  do a <- get_obj;
  do teamComp <- onW (getTeam (kname a));
  do ' (r, teamComp) <- onW (with_obj teamComp (attempt
    (s2h_PromoteActiveEnvironment targetNs (as_PromotedBy (atp_Spec a))
       (ast_ActiveComponents (atp_Status a)))));
  run (match r with
       | inl err => if IsAlreadyExists err then throw err else mret tt
       | inr _ => mret tt
       end);
  do r <- attempt (onW (ensureTeamNamespaceUpdated
                          (tn_Active (tst_Namespace (team_Status teamComp))) targetNs));
  match r with
  | inl _ => throw ErrEnsureActivePromoted
  | inr _ => mret tt
  end.

(** ** history.go *)

Definition generateHistoryName (atpName : string) (startTime : Z) (noOfRetry : Z) : string :=
  atpName +:+ "-" +:+ rt_stamp (W:=W) startTime +:+ "-" +:+ pretty noOfRetry.

(** [for i := ...; i > maxHistoriesPerTeam-2; i--], [true] when a deletion finds nothing. *)
Fixpoint delete_histories (fuel : nat) (items : list ActivePromotionHistory) (last i : Z) : M W unit :=
  match fuel with
  | O => mret tt
  | S fuel =>
      if last <? i then
        do item <- (if i <? 0 then go_panic IndexOutOfRange else index items (Z.to_nat i));
        do r <- attempt (k_delete item);
        match r with
        | inl err =>
            if IsNotFound err then mret tt
            else throw (Wrap err ("cannot delete activepromotionhistory " +:+ kname item))
        | inr _ => delete_histories fuel items last (i - 1)
        end
      else mret tt
  end.

(** The fuel counts the indices down to one below 0, where the code panics. *)
Definition deleteActivePromotionHistoryOutOfRange (teamName : string)
    (selectors : gmap string string) : M W unit :=
  do r <- attempt (k_list ActivePromotionHistory (MatchingLabels selectors));
  match r with
  | inl err =>
      if IsNotFound err then mret tt
      else throw (Wrap err "cannot list activepromotionhistories with selectors")
  | inr items =>
      do maxHistoriesPerTeam <- used_or (ac_MaxHistories (s2h_ActivePromotion configs)) teamName
        (fun c => nonzero (ca_MaxHistories c));
      if maxHistoriesPerTeam <? Z.of_nat (length items) + 1 then
        let items := SortDESC items in
        delete_histories (S (S (length items))) items (int_sub maxHistoriesPerTeam 2)
          (Z.of_nat (length items) - 1)
      else mret tt
  end.

Definition createActivePromotionHistory : Handler string :=
  do a <- get_obj;
  run onW (deleteActivePromotionHistoryOutOfRange (kname a) (GetDefaultLabels (kname a)));
  do t <- onW now;
  do targetNs <- getTargetNamespace;
  do a <- get_obj;
  let name := generateHistoryName (kname a) (om_CreationTimestamp (atp_Meta a))
                (as_NoOfRetry (atp_Spec a)) in
  let history := mkActivePromotionHistory
    ((namedMeta "" name) <| om_Labels := <["namespace" := targetNs]> (GetDefaultLabels (kname a)) |>)
    (mkActivePromotionHistorySpec (kname a)
       (Some (mkActivePromotion noMeta (atp_Spec a) (atp_Status a)))
       (IsActivePromotionSuccess a) (Some t)) in
  do r <- attempt (onW (k_create history));
  match r with
  | inl err =>
      if IsAlreadyExists err then mret name
      else throw (Wrap err ("cannot create activepromotionhistory of " +:+ kname a))
  | inr _ => mret name
  end.

Definition updateActivePromotionHistory (histName : string) (a : ActivePromotion) : M W unit :=
  do atpHist <- k_get ActivePromotionHistory ("", histName);
  wrapping ("cannot update activepromotionhistory " +:+ histName)
    (k_update (atpHist <| ath_Spec ::= fun s =>
       s <| ahs_ActivePromotion := Some (mkActivePromotion noMeta (atp_Spec a) (atp_Status a)) |> |>)).

(** ** postactive.go *)

(** A call on the status of the object. *)
Definition on_status {A} (m : M (W * ActivePromotionStatus) A) : Handler A := fun s =>
  match m (fst s, atp_Status (snd s)) with
  | (r, (w', st')) => (r, (w', (snd s) <| atp_Status := st' |>))
  end.

Definition sendReport : Handler unit :=
  do targetNs <- getTargetNamespace;
  do a <- get_obj;
  let currentNs :=
    if bool_decide (ast_Result (atp_Status a) <> ActivePromotionSuccess) then
      if bool_decide (ast_DemotionStatus (atp_Status a) = ActivePromotionDemotionFailure) then ""
      else ast_PreviousActiveNamespace (atp_Status a)
    else targetNs in
  do teamComp <- onW (getTeam (kname a));
  do ' (_, teamComp) <- onW (with_obj teamComp s2h_LoadTeamSecret);
  onW (ignore_error (s2h_NotifyActivePromotionReport
    (mkActivePromotionReporter (kname a) currentNs (int_add (as_NoOfRetry (atp_Spec a)) 1)
       (ts_Credential (tst_Used (team_Status teamComp))) (atp_Status a) configs))).

Definition setOutdatedDuration : Handler unit :=
  do a <- get_obj;
  do config <- onW (cfg_Get (kname a));
  do targetNs <- getTargetNamespace;
  let targetNs := if bool_decide (ast_Result (atp_Status a) <> ActivePromotionSuccess)
                  then ast_PreviousActiveNamespace (atp_Status a) else targetNs in
  do stableComps <- (if String.eqb targetNs "" then mret []
                     else onW (k_list StableComponent (InNamespace targetNs)));
  let currentActiveComps := foldl (fun m comp =>
    <[kname comp := mkStableComponent noMeta (stable_Spec comp) (mkStableComponentStatus None None)]> m)
    ∅ stableComps in
  do teamComp <- onW (getTeam (kname a));
  let currentActiveComps :=
    if bool_decide (size currentActiveComps = 0%nat)
    then tst_ActiveComponents (team_Status teamComp) else currentActiveComps in
  do o <- onW (Outdated.New (cst_Used (config_Status config))
                 (tst_DesiredComponentImageCreatedTime (team_Status teamComp)) currentActiveComps);
  on_status (SetOutdatedDuration zone o).

Definition runPostActive : Handler unit :=
  do a <- get_obj;
  if String.eqb (ast_ActivePromotionHistoryName (atp_Status a)) "" then
    run setOutdatedDuration;
    do r <- attempt createActivePromotionHistory;
    do histName <- (match r with
                    | inl err => if IsAlreadyExists err then mret "" else throw err
                    | inr histName => mret histName
                    end);
    run set_status (SetActivePromotionHistoryName histName);
    run sendReport;
    updateActivePromotion
  else onW (updateActivePromotionHistory (ast_ActivePromotionHistoryName (atp_Status a)) a).

(** ** demote.go *)

(** A failed or late demotion ends with the destruction of the active environment,
    without waiting for it. *)
Definition destroy_without_waiting : Handler unit :=
  do a <- get_obj;
  do r <- attempt (destroyActiveEnvironment (ast_DestroyedTime (atp_Status a)));
  match r with
  | inl err => if IsDeletingReleases err || IsEnsuringNamespaceDestroyed err then mret tt else throw err
  | inr _ => mret tt
  end.

Definition ensureQueueActiveDemoted (teamName ns : string) : M W unit :=
  do q <- wrapping ("cannot ensure environment demoted from active components, namespace " +:+ ns)
            (EnsureDemoteFromActiveComponents teamName ns);
  if bool_decide (qst_State (queue_Status q) = Finished) then
    if negb (IsDeploySuccess q) then throw ErrReleaseFailed else mret tt
  else throw ErrEnsureActiveDemoted.

Definition checkDemotionTimeout : Handler unit :=
  do isTimeout <- isTimeoutFromConfig timeoutActiveDemotion;
  if isTimeout : bool then
    do a <- get_obj;
    if bool_decide (ast_DestroyedTime (atp_Status a) = None) then
      do t <- onW now;
      run set_status (SetDemotionStatus ActivePromotionDemotionFailure);
      run set_status (SetDestroyedTime t);
      run updateActivePromotion;
      throw ErrActiveDemotionTimeout
    else
      run destroy_without_waiting;
      run set_cond ActivePromotionCondActiveDemoted ConditionFalse
        "Demoted an active environment timeout, active environment has been deleted";
      if no_downtime a then
        run set_state ActivePromotionDestroyingPreviousActive "Demoted active environment timeout";
        throw ErrActiveDemotionTimeout
      else
        run set_state ActivePromotionActiveEnvironment "Demoted active environment timeout";
        run updateActivePromotion;
        throw ErrActiveDemotionTimeout
  else mret tt.

Definition demoted : Handler unit :=
  do a <- get_obj;
  run set_status (SetDemotionStatus ActivePromotionDemotionSuccess);
  run set_cond ActivePromotionCondActiveDemoted ConditionTrue
    "Demoted an active environment successfully";
  if no_downtime a then
    set_state ActivePromotionDestroyingPreviousActive "Destroying the previous active environment"
  else set_state ActivePromotionActiveEnvironment "Promoting an active environment".

Definition demoteActiveEnvironment : Handler unit :=
  run checkDemotionTimeout;
  do a <- get_obj;
  let prevNs := ast_PreviousActiveNamespace (atp_Status a) in
  if negb (String.eqb prevNs "") then
    do r <- attempt (onW (ensureQueueActiveDemoted (kname a) prevNs));
    match r with
    | inl err =>
        if negb (IsErrReleaseFailed err) then throw err else
        run destroy_without_waiting;
        run set_cond ActivePromotionCondActiveDemoted ConditionFalse
          "Failed to demote active environment, active environment has been deleted";
        if no_downtime a then
          set_state ActivePromotionDestroyingPreviousActive "Failed to demote active environment"
        else set_state ActivePromotionActiveEnvironment "Failed to demote active environment"
    | inr _ => demoted
    end
  else demoted.

(** ** deploy.go *)

Definition ensurePreActiveComponentsDeployed (teamName targetNs : string) (skipTest : bool) : M W Queue :=
  do q <- wrapping ("cannot ensure pre-active components, namespace " +:+ targetNs)
            (EnsurePreActiveComponents teamName targetNs skipTest);
  if bool_decide (qst_State (queue_Status q) = Finished) then mret q else
  if bool_decide (qst_StartDeployTime (queue_Status q) <> None) &&
     bool_decide (qst_State (queue_Status q) <> Creating)
  then mret q else throw ErrEnsureComponentDeployed.

Definition deployComponentsToTargetNamespace : Handler unit :=
  do targetNs <- getTargetNamespace;
  do a <- get_obj;
  do q <- onW (ensurePreActiveComponentsDeployed (kname a) targetNs (as_SkipTestRunner (atp_Spec a)));
  if IsDeploySuccess q then
    set_state ActivePromotionTestingPreActive "Testing pre-active environment"
  else
    run set_status (SetResult ActivePromotionFailure);
    run set_cond ActivePromotionCondVerified ConditionTrue "Deployment failed";
    set_state ActivePromotionCollectingPreActiveResult "Collecting result".

Definition ensurePreActiveComponentsTested (teamName targetNs : string) (skipTest : bool) : M W Queue :=
  do q <- wrapping ("cannot ensure pre-active components, namespace " +:+ targetNs)
            (EnsurePreActiveComponents teamName targetNs skipTest);
  if bool_decide (qst_State (queue_Status q) = Finished) then mret q
  else throw ErrEnsureComponentTested.

Definition test_message (q : Queue) : string :=
  if IsTeamcityTestSuccess q || IsGitlabTestSuccess q then
    if negb (IsTeamcityTestSuccess q) then "Test in Teamcity failed"
    else if negb (IsGitlabTestSuccess q) then "Test in Gitlab failed"
    else "Test failed"
  else "Test failed".

Definition testPreActiveEnvironment : Handler unit :=
  do targetNs <- getTargetNamespace;
  do a <- get_obj;
  do q <- onW (ensurePreActiveComponentsTested (kname a) targetNs (as_SkipTestRunner (atp_Spec a)));
  run (if IsTestSuccess q then
         set_cond ActivePromotionCondVerified ConditionTrue
           "Pre-active environment has been verified successfully"
       else
         run set_status (SetResult ActivePromotionFailure);
         set_cond ActivePromotionCondVerified ConditionTrue (test_message q));
  set_state ActivePromotionCollectingPreActiveResult "Collecting result".

(** ** collect_result.go *)

Definition collectResult : Handler unit :=
  do targetNs <- getTargetNamespace;
  do a <- get_obj;
  do q <- onW (wrapping ("cannot ensure pre-active components, namespace " +:+ targetNs)
    (EnsurePreActiveComponents (kname a) targetNs (as_SkipTestRunner (atp_Spec a))));
  do q <- (if negb (IsActivePromotionCanceled a) && negb (ast_IsTimeout (atp_Status a)) then
    onW (wrapping ("cannot ensure pre-active components finished, namespace " +:+ targetNs)
      (ensurePreActiveComponentsTested (kname a) targetNs (as_SkipTestRunner (atp_Spec a))))
    else mret q);
  run set_status (SetPreActiveQueue (queue_Status q));
  run (if (0 <? length (qst_ImageMissingList (queue_Status q)))%nat
       then set_cond ActivePromotionCondVerified ConditionTrue "Image missing" else mret tt);
  if IsActivePromotionFailure a || IsActivePromotionCanceled a then
    run set_cond ActivePromotionCondResultCollected ConditionTrue "Result has been collected";
    do a <- get_obj;
    run set_cond ActivePromotionCondActivePromoted ConditionFalse
      (getActivePromotionVerificationReason a);
    set_state ActivePromotionDestroyingPreActive "Destroying pre-active environment"
  else if no_downtime a then
    set_state ActivePromotionActiveEnvironment "Promoting an active environment"
  else
    run set_cond ActivePromotionCondActiveDemotionStarted ConditionTrue
      "Active demotion has been started";
    set_state ActivePromotionDemoting "Demoting an active environment".

(** ** promote.go *)

Definition ensureQueuePromotedToActive (teamName ns : string) : M W unit :=
  do q <- wrapping ("cannot ensure environment promoted to active components, namespace " +:+ ns)
            (EnsurePromoteToActiveComponents teamName ns);
  if bool_decide (qst_State (queue_Status q) = Finished) then
    if negb (IsDeploySuccess q) then throw ErrReleaseFailed else mret tt
  else throw ErrEnsureActivePromoted.

Definition promoteActiveEnvironment : Handler unit :=
  do targetNs <- getTargetNamespace;
  do a <- get_obj;
  let prevNs := ast_PreviousActiveNamespace (atp_Status a) in
  run onW (DeletePreActiveQueue targetNs);
  do r <- attempt (onW (ensureQueuePromotedToActive (kname a) targetNs));
  match r with
  | inl err =>
      if IsErrReleaseFailed err then
        run set_status (SetResult ActivePromotionFailure);
        run set_cond ActivePromotionCondRollbackStarted ConditionTrue
          "Rollback process has been started due to cannot apply active values file";
        set_state ActivePromotionRollback
          "Active promotion failed due to cannot apply active values file"
      else throw err
  | inr _ =>
      run ensureActiveEnvironmentPromoted;
      run (if negb (String.eqb prevNs "") && bool_decide (ast_DestroyedTime (atp_Status a) = None) then
             do t <- onW now;
             do d <- deref (as_TearDownDuration (atp_Spec a));
             set_status (SetDestroyedTime (t + d))
           else mret tt);
      run set_status (SetResult ActivePromotionSuccess);
      run set_cond ActivePromotionCondResultCollected ConditionTrue
        "Result has been collected, promoted successfully";
      run set_cond ActivePromotionCondActivePromoted ConditionTrue
        "Active environment has been promoted";
      run (if no_downtime a then
             run set_cond ActivePromotionCondActiveDemotionStarted ConditionTrue
               "Active demotion has been started";
             set_state ActivePromotionDemoting "Demoting an active environment"
           else
             set_state ActivePromotionDestroyingPreviousActive
               "Destroying the previous active environment");
      runPostActive
  end.

(** ** rollback.go *)

Definition demotePreActiveForRollback (teamName targetNs : string) : M W unit :=
  run DeletePreActiveQueue targetNs;
  run DeletePromoteToActiveQueue targetNs;
  do teamComp <- getTeam teamName;
  let preActiveNs := tn_PreActive (tst_Namespace (team_Status teamComp)) in
  if negb (String.eqb preActiveNs "") then ensureQueueActiveDemoted teamName preActiveNs
  else mret tt.

Definition destroyPreActiveEnvironmentForRollback : Handler unit :=
  do targetNs <- getTargetNamespace;
  do a <- get_obj;
  run onW (ensureDestroyEnvironment preActiveEnvironment (kname a) targetNs
             (AtpGetConditionLatestTime (atp_Status a) ActivePromotionCondRollbackStarted));
  set_cond ActivePromotionCondPreActiveDestroyed ConditionTrue
    "Pre-active environment has been destroyed due to rollback".

(** Two goroutines that report on a channel: each runs to its end, the first error to
    arrive is returned. *)
Definition both (first second : Handler unit) : Handler unit :=
  do r1 <- attempt first;
  do r2 <- attempt second;
  match r1, r2 with
  | inl err, _ => throw err
  | inr _, inl err => throw err
  | inr _, inr _ => mret tt
  end.

Definition demoteAndDestroyPreActive : Handler unit :=
  do isTimeout <- isTimeoutFromConfig timeoutActiveDemotionForRollback;
  if isTimeout : bool then mret tt else
  do targetNs <- getTargetNamespace;
  do a <- get_obj;
  let demote := onW (demotePreActiveForRollback (kname a) targetNs) in
  do demoteFirst <- onW first_wins;
  if demoteFirst : bool then both demote destroyPreActiveEnvironmentForRollback
  else both destroyPreActiveEnvironmentForRollback demote.

Definition resetTeamNamespace (teamName prevNs : string) : M W unit :=
  do teamComp <- getTeam teamName;
  do ' (_, _) <- with_obj teamComp (
    run s2h_SetActiveNamespace prevNs;
    s2h_SetPreviousActiveNamespace "");
  mret tt.

Definition rePromoteCurrentActive : Handler unit :=
  do targetNs <- getTargetNamespace;
  do a <- get_obj;
  do teamComp <- onW (getTeam (kname a));
  let currentNs := tn_Active (tst_Namespace (team_Status teamComp)) in
  run onW (if negb (String.eqb currentNs "") then
             run DeleteDemoteFromActiveQueue currentNs;
             ensureQueuePromotedToActive (kname a) currentNs
           else mret tt);
  run onW (resetTeamNamespace (kname a) currentNs);
  run set_status (SetRollbackStatus ActivePromotionRollbackSuccess);
  run set_cond ActivePromotionCondFinished ConditionTrue
    "Active promotion process has been finished, rolled back successfully";
  set_state ActivePromotionFinished "Completed".

Definition checkRollbackTimeout : Handler unit :=
  do isTimeout <- isTimeoutFromConfig timeoutActivePromotionRollback;
  if isTimeout : bool then
    run set_status (SetRollbackStatus ActivePromotionRollbackFailure);
    run set_cond ActivePromotionCondFinished ConditionFalse
      "Active promotion process has not been finished, rolled back timeout";
    run set_state ActivePromotionFinished "Rollback timeout";
    run updateActivePromotion;
    throw ErrRollbackActivePromotionTimeout
  else mret tt.

Definition rollbackActiveEnvironment : Handler unit :=
  run checkRollbackTimeout;
  do r <- attempt demoteAndDestroyPreActive;
  run (match r with
       | inl err =>
           if IsEnsuringActiveDemoted err || IsEnsuringNamespaceDestroyed err
           then throw ErrRollingBackActivePromotion else throw err
       | inr _ => mret tt
       end);
  do r <- attempt rePromoteCurrentActive;
  match r with
  | inl err => if IsEnsuringActivePromoted err then throw ErrRollingBackActivePromotion else throw err
  | inr _ => mret tt
  end.

(** ** controller.go *)

Definition setup : Handler unit :=
  do a <- get_obj;
  do config <- onW (cfg_Get (kname a));
  run (match as_TearDownDuration (atp_Spec a) with
       | Some _ => mret tt
       | None =>
           let duration := default (ac_TearDownDuration (s2h_ActivePromotion configs))
             (used_promotion config ≫= fun c => nonzero (ca_TearDownDuration c)) in
           mod_obj (fun a => a <| atp_Spec ::= SetTearDownDuration duration |>)
       end);
  run (match as_NoDowntimeGuarantee (atp_Spec a), used_promotion config with
       | None, Some c =>
           mod_obj (fun a => a <| atp_Spec ::= fun s =>
             s <| as_NoDowntimeGuarantee := Some (ca_NoDowntimeGuarantee c) |> |>)
       | _, _ => mret tt
       end);
  do a <- get_obj;
  do _promote_first <- deref (as_NoDowntimeGuarantee (atp_Spec a));
  run mod_obj (appendStateLabel stateWaiting);
  set_state ActivePromotionWaiting "Waiting in queue".

(** The errors of the queues' deletion are dropped. *)
Definition teardown : Handler unit :=
  do targetNs <- getTargetNamespace;
  do a <- get_obj;
  run onW (ignore_error (DeletePreActiveQueue targetNs));
  run onW (ignore_error (DeletePromoteToActiveQueue targetNs));
  run onW (ignore_error (DeleteDemoteFromActiveQueue targetNs));
  let prevNs := ast_PreviousActiveNamespace (atp_Status a) in
  run onW (if negb (String.eqb prevNs "") then
             run ignore_error (DeletePromoteToActiveQueue prevNs);
             ignore_error (DeleteDemoteFromActiveQueue prevNs)
           else mret tt);
  runPostActive.

(** To the rollback when the pre-active environment was verified, and otherwise to the
    collection of its result. *)
Definition checkActivePromotionTimeout : Handler unit :=
  do a <- get_obj;
  if ast_IsTimeout (atp_Status a) then mret tt else
  if stateCannotBeTimeoutOrCancel (ast_State (atp_Status a)) then mret tt else
  do isTimeout <- isTimeoutFromConfig timeoutActivePromotion;
  if isTimeout : bool then
    run set_status SetIsTimeout;
    run set_status (SetResult ActivePromotionFailure);
    run (if isToRollbackState a then
           run set_cond ActivePromotionCondActivePromoted ConditionFalse
             "Active promotion has been timeout";
           run set_cond ActivePromotionCondRollbackStarted ConditionTrue
             "Rollback process has been started due to promoting timeout";
           set_state ActivePromotionRollback "Active promotion has been timeout"
         else
           run set_cond ActivePromotionCondVerified ConditionFalse
             "Active promotion has been timeout";
           set_state ActivePromotionCollectingPreActiveResult "Active promotion has been timeout");
    run updateActivePromotion;
    throw ErrActivePromotionTimeout
  else mret tt.

(** What becomes of an object that is being deleted and has the finalizer. *)
Definition cancel_promotion : Handler bool :=
  do a <- get_obj;
  if bool_decide (ast_State (atp_Status a) = ActivePromotionFinished) then
    run removeFinalizerObject;
    mret true
  else if IsActivePromotionCanceled a then mret false
  else if bool_decide (ast_State (atp_Status a) = ActivePromotionDestroyingPreviousActive) then
    run (if time_is_zero (ast_DestroyedTime (atp_Status a)) then
           do t <- onW now; set_status (SetDestroyedTime t)
         else mret tt);
    mret false
  else if stateCannotBeTimeoutOrCancel (ast_State (atp_Status a)) then mret false
  else
    run set_status (SetResult ActivePromotionCanceled);
    run set_cond ActivePromotionCondActivePromoted ConditionFalse
      "Active promotion has been canceled";
    do a <- get_obj;
    run (if isToRollbackState a then
           run set_cond ActivePromotionCondRollbackStarted ConditionTrue
             "Rollback process has been started due to canceling";
           set_state ActivePromotionRollback "Active promotion has been canceled"
         else
           run set_cond ActivePromotionCondVerified ConditionFalse
             "Active promotion has been canceled";
           set_state ActivePromotionCollectingPreActiveResult "Active promotion has been canceled");
    run updateActivePromotion;
    mret true.

Definition finish_promotion : Handler bool :=
  run teardown;
  do skipReconcile <- checkRetryQueue;
  if skipReconcile : bool then mret true else
  do a <- get_obj;
  if time_is_zero (om_DeletionTimestamp (atp_Meta a)) then
    run deleteActivePromotion;
    mret true
  else mret false.

Definition deleteFinalizerWhenFinished : Handler bool :=
  do a <- get_obj;
  do done <- (if bool_decide (ast_State (atp_Status a) = ActivePromotionFinished)
              then finish_promotion else mret false);
  if done : bool then mret true else
  do a <- get_obj;
  if negb (time_is_zero (om_DeletionTimestamp (atp_Meta a))) &&
     ContainsString (om_Finalizers (atp_Meta a)) activePromotionFinalizer
  then cancel_promotion else mret false.

(** [if err := m(); err != nil { if test(err) { return Result{true, after}, nil }; return err }]. *)
Definition requeue_if (test : error -> bool) (after : Duration) (m : Handler unit) : Handler (option Result) :=
  do r <- attempt m;
  match r with
  | inl err => if test err then mret (Some (mkResult true after)) else throw err
  | inr _ => mret None
  end.

(** The [switch] over the state: a result ends the reconciliation without an update. *)
Definition process : Handler (option Result) :=
  do a <- get_obj;
  match ast_State (atp_Status a) with
  | ActivePromotionNew => run setup; mret None
  | ActivePromotionWaiting => mret (Some (mkResult true (2 * Second)))
  | ActivePromotionCreatingPreActive =>
      requeue_if IsEnsuringPreActiveEnvironmentCreated (2 * Second)
        createPreActiveEnvAndDeployStableCompObjects
  | ActivePromotionDeployingComponents =>
      requeue_if IsEnsuringComponentDeployed (2 * Second) deployComponentsToTargetNamespace
  | ActivePromotionTestingPreActive =>
      requeue_if IsEnsuringComponentTested (2 * Second) testPreActiveEnvironment
  | ActivePromotionCollectingPreActiveResult =>
      requeue_if IsEnsuringComponentTested (2 * Second) collectResult
  | ActivePromotionDemoting =>
      requeue_if (fun err => IsEnsuringActiveDemoted err || IsErrActiveDemotionTimeout err)
        (1 * Second) demoteActiveEnvironment
  | ActivePromotionActiveEnvironment =>
      requeue_if IsEnsuringActivePromoted (2 * Second) promoteActiveEnvironment
  | ActivePromotionDestroyingPreviousActive =>
      requeue_if IsEnsuringNamespaceDestroyed (2 * Second) destroyPreviousActiveEnvironment
  | ActivePromotionDestroyingPreActive =>
      requeue_if IsEnsuringNamespaceDestroyed (2 * Second) destroyPreActiveEnvironment
  | ActivePromotionRollback =>
      do r <- attempt (requeue_if
        (fun err => IsRollingBackActivePromotion err || IsErrRollbackActivePromotionTimeout err)
        (1 * Second) rollbackActiveEnvironment);
      match r with
      | inl err => throw (Wrap err ("cannot rollback activepromotion " +:+ kname a))
      | inr res => mret res
      end
  | ActivePromotionFinished | OtherActivePromotionState _ => mret None
  end.

Definition reconcile_object : Handler Result :=
  do a <- get_obj;
  do skipReconcile <- onW (manageQueue a);
  if skipReconcile : bool then mret noResult else
  do r <- attempt (onW (getTeam (kname a)));
  if match r with inl err => IsNotFound err | inr _ => false end then
    run forceDeleteActivePromotion;
    mret noResult
  else
    do skipReconcile <- deleteFinalizerWhenFinished;
    if skipReconcile : bool then mret noResult else
    do r <- attempt checkActivePromotionTimeout;
    match r with
    | inl err =>
        if IsErrActivePromotionTimeout err then mret (mkResult true (1 * Second)) else throw err
    | inr _ =>
        do res <- process;
        match res with
        | Some res => mret res
        | None => run updateActivePromotion; mret noResult
        end
    end.

Definition Reconcile (req : Request) : M W Result :=
  do r <- attempt (k_get ActivePromotion req);
  match r with
  | inl err => if IsNotFound err then mret noResult else throw err
  | inr atpComp => do ' (res, _) <- with_obj atpComp reconcile_object; mret res
  end.
End controller.
