(* ===== verification/SamsahaiCtrl.v ===== *)
(** Model of [internal/samsahai/controller.go]: the controller of teams, which owns the
    namespaces of a team (staging, pre-active, active, previous active and those of pull
    requests), creates and destroys them, and switches the active one.  It is the
    component behind the interface [SamsahaiController].

    The Kubernetes objects in an environment, with their builders and their comparison,
    which [K8sObjects] implements, and what leaves the process (a shell command, the work queue, the reporters, the hash and
    merge libraries) are the classes [StagingObjects] and [SamsahaiOutside]. *)

From S2P Require Import Prelude.
From S2P Require Import GoRuntime.
From S2P Require Import Errors.
From S2P Require Import KubeApi.
From S2P Require Import ConfigTypes.
From S2P Require Import ComponentTypes.
From S2P Require Import QueueTypes.
From S2P Require Import TeamTypes.
From S2P Require Import AtpTypes.
From S2P Require Import QueueCtrl.
From S2P Require Import Interfaces.
Open Scope string_scope.
Open Scope list_scope.
Open Scope Z_scope.

Definition teamFinalizerName : string := "team.finalizers.samsahai.io".
Definition PromotedBySamsahai : string := "samsahai".
Definition ResourcesQuotaSuffix : string := "-resources".

(** A secret: its data by key. *)
Record Secret := mkSecret { secret_Meta : ObjectMeta; secret_Data : gmap string string }.
#[export] Instance secret_object : KObject Secret := secret_Meta.
#[export] Instance secret_mark : KMark Secret := fun t x => mkSecret (mark_deleted t (secret_Meta x)) (secret_Data x).
#[export] Instance secret_mark_laws : KMarkLaws Secret.
Proof. intros t x. apply (mark_deleted_key t (secret_Meta x)). Qed.

Record ActiveEnvironmentDeletedReporter := mkActiveEnvironmentDeletedReporter {
  aed_TeamName : string; aed_ActiveNamespace : string; aed_DeletedBy : string; aed_DeletedAt : string }.

(** The objects of an environment, their builders and the calls on them. *)
Class StagingObjects (W O : Type) := {
  so_GetService : Team -> string -> O;
  so_GetServiceAccount : Team -> string -> O;
  so_GetRole : Team -> string -> O;
  so_GetRoleBinding : Team -> string -> O;
  so_GetClusterRole : Team -> string -> O;
  so_GetClusterRoleBinding : Team -> string -> O;
  so_GetSecret : Team -> string -> list (string * string) -> O;
  so_GetDeployment : Team -> string -> SamsahaiConfig -> M W O;
  so_GetResourceQuota : Team -> string -> option ResourceList -> M W O;
  so_GetEmptyResourceQuota : string -> O;
  (** [IsK8sObjectChanged(found, target)] writes the target's fields into [found]: the
      object with the changes, when there are any. *)
  so_IsK8sObjectChanged : O -> O -> M W (option O);
  so_get : O -> M W O;                        (* by the kind and the key of the object *)
  so_create : O -> M W unit;
  so_update : O -> M W unit;
  so_delete : O -> M W unit;
}.

(** What leaves the process, and the libraries behind it. *)
Class SamsahaiOutside (W : Type) := {
  out_helm3 : string -> DeployEngine W;
  out_SetControllerReference : ObjectMeta -> ObjectMeta -> error + ObjectMeta;
  (** [mergo.Merge(&dst, src)] where [dst] is a copy of a value that shares its pointers:
      the copy and the value afterwards. *)
  out_Merge : TeamSpec -> TeamSpec -> error + (TeamSpec * TeamSpec);
  out_TeamHash : TeamSpec -> string;
  out_RenderAndExecute : SamsahaiConfig -> CommandAndArgs -> string -> Team -> M W string;
  out_Notify : string -> string -> string -> M W unit;    (* [c.queue.Add] *)
  out_reporters : M W (gmap string (ActiveEnvironmentDeletedReporter -> M W unit));
  out_set_gitlab_reporter : string -> string -> M W unit; (* the address and the token *)
  out_NotifyActivePromotionReport : ActivePromotionReporter -> M W unit;
  out_GenerateRandomString : M W string;
  out_stamp : Z -> string;                    (* [t.UTC().Format(...)] *)
}.

(** ** The roles of a namespace

    A [TeamNamespaceStatusOption] writes a namespace into the status of a team, and says
    which namespace, which resources and which condition it is about. *)

Definition NamespaceInfo : Type := string * option ResourceList * TeamConditionType.
Definition TeamNamespaceStatusOption : Type := Team -> Team * NamespaceInfo.

Definition over_namespace (f : TeamNamespace -> TeamNamespace) (t : Team) : Team :=
  t <| team_Status ::= fun s => s <| tst_Namespace ::= f |> |>.

Definition withTeamStagingNamespaceStatus (namespace : string) (resources : option ResourceList)
    (isDelete : bool) : TeamNamespaceStatusOption := fun t =>
  (over_namespace (fun n => n <| tn_Staging := if isDelete then "" else namespace |>) t,
   (namespace, resources, TeamNamespaceStagingCreated)).

Definition withTeamPreActiveNamespaceStatus (namespace : string) (isDelete : bool)
    : TeamNamespaceStatusOption := fun t =>
  (over_namespace (fun n => n <| tn_PreActive := if isDelete then "" else namespace |>) t,
   (namespace, None, TeamNamespacePreActiveCreated)).

Definition withTeamPreviousActiveNamespaceStatus (namespace : string) (isDelete : bool)
    : TeamNamespaceStatusOption := fun t =>
  (over_namespace (fun n => n <| tn_PreviousActive := if isDelete then "" else namespace |>) t,
   (namespace, None, TeamNamespacePreviousActiveCreated)).

Definition withTeamActiveNamespaceStatus (namespace promotedBy : string) (isDelete : bool)
    : TeamNamespaceStatusOption := fun t =>
  let t := over_namespace (fun n => n <| tn_Active := namespace |>) t in
  let t := if negb (String.eqb promotedBy "")
           then t <| team_Status ::= fun s => s <| tst_ActivePromotedBy := promotedBy |>
                                                <| tst_ActiveDeletedBy := "" |> |>
           else t in
  let t := if isDelete
           then over_namespace (fun n => n <| tn_Active := "" |>) t
                  <| team_Status ::= fun s => s <| tst_ActivePromotedBy := "" |> |>
           else t in
  (t, (namespace, None, TeamNamespaceActiveCreated)).

Definition getPullRequestNamespaceCreatedConditionType (namespace : string) : TeamConditionType :=
  OtherTeamCondition ("TeamNamespacePullRequestCreated" +:+ "-" +:+ namespace).
Definition getPostPullRequestNamespaceRunConditionType (namespace : string) : TeamConditionType :=
  OtherTeamCondition ("TeamPostPullRequestNamespaceCreationRun" +:+ "-" +:+ namespace).

Definition withTeamPullRequestNamespaceStatus (namespace : string) (resources : option ResourceList)
    (isDelete : bool) : TeamNamespaceStatusOption := fun t =>
  (over_namespace (fun n =>
     let n := if ContainsString (tn_PullRequests n) namespace then n
              else n <| tn_PullRequests ::= fun l => l ++ [namespace] |> in
     if isDelete then n <| tn_PullRequests ::= fun l => RemoveString l namespace |> else n) t,
   (namespace, resources, getPullRequestNamespaceCreatedConditionType namespace)).

Definition getAllTeamNamespaces (t : Team) (isDelete : bool) : list TeamNamespaceStatusOption :=
  let n := tst_Namespace (team_Status t) in
  let unless_empty (ns : string) (opt : TeamNamespaceStatusOption) :=
    if EqualFold "" ns then [] else [opt] in
  unless_empty (tn_Staging n) (withTeamStagingNamespaceStatus (tn_Staging n) None isDelete) ++
  unless_empty (tn_PreviousActive n) (withTeamPreviousActiveNamespaceStatus (tn_PreviousActive n) isDelete) ++
  unless_empty (tn_PreActive n) (withTeamPreActiveNamespaceStatus (tn_PreActive n) isDelete) ++
  unless_empty (tn_Active n) (withTeamActiveNamespaceStatus (tn_Active n) "" isDelete) ++
  map (fun ns => withTeamPullRequestNamespaceStatus ns None isDelete) (tn_PullRequests n).

Definition GenClusterRoleName (namespace : string) : string := "s2h-staging-ctrl" +:+ "-" +:+ namespace.

(** [addFinalizer] of a team. *)
Definition addTeamFinalizer (t : Team) : Team :=
  if ContainsString (om_Finalizers (team_Meta t)) teamFinalizerName then t
  else t <| team_Meta ::= fun m => m <| om_Finalizers ::= fun l => l ++ [teamFinalizerName] |> |>.

(** The comparison with the address of a fresh value is never true. *)
Definition validateTeamRequiredField (t : Team) : error + unit :=
  if (length (ts_Owners (tst_Used (team_Status t))) =? 0)%nat
  then inl (Errors.New "team used cannot be empty") else inr tt.

Section controller.
Context {W O : Type} `{GR : GoRuntime W} `{CC : ConfigController W}.
Context `{KTeam : KClient W Team} `{KStable : KClient W StableComponent} `{KAtp : KClient W ActivePromotion}.
Context `{KConfig : KClient W Config} `{KSecret : KClient W Secret} {KObjs : forall k, KClient W (KubeObj k)}.
Context `{SO : StagingObjects W O} `{OUT : SamsahaiOutside W}.
(** The configuration and the namespace of Samsahai. *)
Context (configs : SamsahaiConfig) (s2h_namespace : string).

(** A call on a team that the caller holds. *)
Definition TeamHandler (A : Type) : Type := M (W * Team) A.

Definition set_team_cond (cond : TeamConditionType) (status : ConditionStatus) (message : string)
    : TeamHandler unit :=
  do t <- onW now;
  mod_obj (fun x => x <| team_Status ::= TeamSetCondition t cond status message |>).
Definition team_cond (cond : TeamConditionType) : TeamHandler bool :=
  do t <- get_obj; mret (TeamIsConditionTrue (team_Status t) cond).
Definition apply_option (opt : TeamNamespaceStatusOption) : TeamHandler NamespaceInfo := fun s =>
  let (t, info) := opt (snd s) in (Ok info, (fst s, t)).

(** [getTeam] and [updateTeam]. *)
Definition fetchTeam (teamName : string) : M W Team := k_get Team ("", teamName).
Definition updateTeam : TeamHandler unit :=
  do t <- get_obj; wrapping "cannot update team" (onW (k_update t)).

Definition updateTeamNamespacesStatus (opts : list TeamNamespaceStatusOption) : TeamHandler unit :=
  run for_each opts (fun opt => run apply_option opt; mret tt);
  updateTeam.

(** ** Switching the active namespace *)

Definition storeActiveComponentsToTeam (comps : gmap string StableComponent) : TeamHandler unit :=
  mod_obj (fun t => t <| team_Status ::= SetTeamActiveComponents comps |>).

Definition PromoteActiveEnvironment (namespace promotedBy : string) (comps : gmap string StableComponent)
    : TeamHandler unit :=
  do t <- get_obj;
  let preActiveNamespace := tn_PreActive (tst_Namespace (team_Status t)) in
  let activeNamespace := tn_Active (tst_Namespace (team_Status t)) in
  if String.eqb namespace preActiveNamespace then
    run wrapping ("cannot store active components of " +:+ namespace +:+ " into team " +:+ kname t)
      (storeActiveComponentsToTeam comps);
    run set_team_cond TeamNamespaceActiveCreated ConditionTrue
      (preActiveNamespace +:+ " namespace is switched to active");
    run set_team_cond TeamNamespacePreviousActiveCreated ConditionTrue
      (activeNamespace +:+ " namespace is switched to previous active");
    run set_team_cond TeamNamespacePreActiveCreated ConditionFalse "pre-active namespace is reset";
    wrapping "cannot update team conditions when promote active"
      (updateTeamNamespacesStatus
         [withTeamActiveNamespaceStatus preActiveNamespace promotedBy false;
          withTeamPreviousActiveNamespaceStatus activeNamespace false;
          withTeamPreActiveNamespaceStatus "" false])
  else if String.eqb namespace activeNamespace then mret tt
  else throw (Errors.New ("regarding " +:+ namespace +:+ " (pre-active namespace) is not consistent with " +:+
    preActiveNamespace +:+ " (team pre-active namespace), so this pre-active namespace cannot be switched")).

(** The three setters differ in the role, its condition and the text. *)
Definition set_role (cond : TeamConditionType) (role : string) (opt : TeamNamespaceStatusOption)
    (namespace : string) : TeamHandler unit :=
  run (if String.eqb namespace ""
       then set_team_cond cond ConditionFalse (role +:+ " namespace is reset")
       else set_team_cond cond ConditionTrue (namespace +:+ " namespace is switched to " +:+ role));
  updateTeamNamespacesStatus [opt].
Definition SetPreviousActiveNamespace (namespace : string) : TeamHandler unit :=
  set_role TeamNamespacePreviousActiveCreated "previous active"
    (withTeamPreviousActiveNamespaceStatus namespace false) namespace.
Definition SetPreActiveNamespace (namespace : string) : TeamHandler unit :=
  set_role TeamNamespacePreActiveCreated "pre-active" (withTeamPreActiveNamespaceStatus namespace false) namespace.
Definition SetActiveNamespace (namespace : string) : TeamHandler unit :=
  set_role TeamNamespaceActiveCreated "active" (withTeamActiveNamespaceStatus namespace "" false) namespace.

(** ** Creating a namespace *)

Definition deployStagingCtrl (obj : O) : M W unit :=
  do r <- attempt (so_get obj);
  match r with
  | inl err => if IsNotFound err then so_create obj else throw err
  | inr found =>
      do changed <- so_IsK8sObjectChanged found obj;
      match changed with
      | Some changed => so_update changed
      | None => mret tt
      end
  end.

Definition createEnvironmentObjects (t : Team) (namespace : string) (resources : option ResourceList) : M W unit :=
  let cred := s2h_SamsahaiCredential configs in
  let secretKVs := [("s2h-auth-token", scr_InternalAuthToken cred);
                    ("teamcity-username", scr_TeamcityUsername cred);
                    ("teamcity-password", scr_TeamcityPassword cred);
                    ("gitlab-token", scr_GitlabToken cred);
                    ("teamcity-url", s2h_TeamcityURL configs)] in
  let used := tst_Used (team_Status t) in
  let k8sObjects :=
    [so_GetService (W:=W) t namespace; so_GetServiceAccount (W:=W) t namespace; so_GetRole (W:=W) t namespace;
     so_GetRoleBinding (W:=W) t namespace; so_GetClusterRole (W:=W) t namespace;
     so_GetClusterRoleBinding (W:=W) t namespace; so_GetSecret (W:=W) t namespace secretKVs] in
  let deploymentObj := do deploymentObj <- so_GetDeployment t namespace configs; mret [deploymentObj] in
  do deployments <- match ts_StagingCtrl used with
                    | Some ctrl => if negb (stc_IsDeploy ctrl) then mret [] else deploymentObj
                    | None => deploymentObj
                    end;
  do quotas <- (
    if (0 <? size (default ∅ resources))%nat then (do quotaObj <- so_GetResourceQuota t namespace resources; mret [quotaObj])
    else if (0 <? size (ts_Resources used))%nat then (do quotaObj <- so_GetResourceQuota t namespace None; mret [quotaObj])
    else
      do r <- attempt (so_delete (so_GetEmptyResourceQuota (W:=W) namespace));
      match r with
      | inl err => if IsNotFound err then mret []
                   else throw (Wrap err ("cannot delete resources quota of " +:+ namespace +:+ " namespace"))
      | inr _ => mret []
      end);
  for_each (k8sObjects ++ deployments ++ quotas) (fun obj => wrapping "cannot deploy staging controller" (deployStagingCtrl obj)).

Definition setPostNamespaceCreationCondition (nsConditionType : TeamConditionType) (cond : ConditionStatus)
    (namespace message : string) : TeamHandler unit :=
  if decide (nsConditionType = TeamNamespaceStagingCreated)
  then set_team_cond TeamPostStagingNamespaceCreationRun cond message
  else if decide (nsConditionType = TeamNamespacePreActiveCreated)
  then set_team_cond TeamPostPreActiveNamespaceCreationRun cond message
  else if decide (nsConditionType = getPullRequestNamespaceCreatedConditionType namespace)
  then set_team_cond (getPostPullRequestNamespaceRunConditionType namespace) cond message
  else mret tt.

(** The output of the command is logged. *)
Definition runPostNamespaceCreation (cmd : CommandAndArgs) (ns : string) (t : Team) : M W unit :=
  run out_RenderAndExecute configs cmd ns (mkTeam noMeta (tst_Used (team_Status t)) (team_Status t)); mret tt.

Definition notifyComponentChanged (teamName : string) : M W unit :=
  do comps <- cfg_GetComponents teamName;
  do comps <- range_map comps;
  for_each comps (fun comp => out_Notify (fst comp) "" teamName).

Definition createActivePromotion (teamName : string) : M W unit :=
  do r <- attempt (k_create (mkActivePromotion (namedMeta "" teamName)
                               (mkActivePromotionSpec None 0 false PromotedBySamsahai None) zeroAtpStatus));
  match r with
  | inl err => if IsAlreadyExists err then mret tt else throw err
  | inr _ => mret tt
  end.

(** The namespace is not there: create it, and come back later. *)
Definition create_missing_namespace (namespace : string) (nsConditionType : TeamConditionType) : TeamHandler unit :=
  do t <- get_obj;
  do meta <- (if decide (nsConditionType = TeamNamespaceStagingCreated) then
                match out_SetControllerReference (W:=W) (team_Meta t) (namedMeta "" namespace) with
                | inl err => throw err
                | inr meta =>
                    run set_team_cond TeamFirstNotifyComponentChanged ConditionFalse
                      "namespace has been being created";
                    run (if ac_PromoteOnTeamCreation (s2h_ActivePromotion configs)
                         then set_team_cond TeamFirstActivePromotionRun ConditionFalse
                                "namespace has been being created"
                         else mret tt);
                    mret meta
                end
              else mret (namedMeta "" namespace));
  do r <- attempt (onW (k_create (bareObj (k:=NamespaceKind) meta)));
  run (match r with
       | inl err => if IsAlreadyExists err then mret tt else throw err
       | inr _ => mret tt
       end);
  run (match s2h_PostNamespaceCreation configs with
       | Some _ => setPostNamespaceCreationCondition nsConditionType ConditionFalse namespace
                     "namespace has been being created"
       | None => mret tt
       end);
  throw ErrTeamNamespaceStillCreating.

(** The command after the creation; its error is logged. *)
Definition post_namespace_creation (namespace : string) (nsConditionType : TeamConditionType) : TeamHandler unit :=
  match s2h_PostNamespaceCreation configs with
  | None => mret tt
  | Some cmd =>
      do stagingRun <- team_cond TeamPostStagingNamespaceCreationRun;
      do preActiveRun <- team_cond TeamPostPreActiveNamespaceCreationRun;
      do pullRequestRun <- team_cond (getPostPullRequestNamespaceRunConditionType namespace);
      let notRun :=
        bool_decide (nsConditionType = TeamNamespaceStagingCreated) && negb stagingRun ||
        bool_decide (nsConditionType = TeamNamespacePreActiveCreated) && negb preActiveRun ||
        bool_decide (nsConditionType = getPullRequestNamespaceCreatedConditionType namespace) &&
          negb pullRequestRun in
      if notRun then
        do t <- get_obj;
        run ignore_error (onW (runPostNamespaceCreation cmd namespace t));
        setPostNamespaceCreationCondition nsConditionType ConditionTrue namespace
          "post namespace creation has been executed successfully"
      else mret tt
  end.

(** What only the staging namespace needs: the first notification of every component,
    and the first promotion. *)
Definition first_run : TeamHandler unit :=
  do t <- get_obj;
  do notified <- team_cond TeamFirstNotifyComponentChanged;
  if negb notified then
    run wrapping "cannot notify component changed while creating staging namespace"
      (onW (notifyComponentChanged (kname t)));
    run set_team_cond TeamFirstNotifyComponentChanged ConditionTrue "notified component changed successfully";
    throw ErrTeamNamespaceComponentNotified
  else
    do promoted <- team_cond TeamFirstActivePromotionRun;
    if ac_PromoteOnTeamCreation (s2h_ActivePromotion configs) && negb promoted then
      run wrapping "cannot create active promotion while creating staging namespace"
        (onW (createActivePromotion (kname t)));
      run set_team_cond TeamFirstActivePromotionRun ConditionTrue "triggered active promotion successfully";
      throw ErrTeamNamespacePromotionCreated
    else mret tt.

Definition createNamespaceByTeam (opt : TeamNamespaceStatusOption) : TeamHandler unit :=
  do ' (namespace, resources, nsConditionType) <- apply_option opt;
  do r <- attempt (onW (k_get (KubeObj NamespaceKind) ("", namespace)));
  match r with
  | inl err =>
      if IsNotFound err then create_missing_namespace namespace nsConditionType else throw err
  | inr _ =>
      do t <- get_obj;
      do r <- attempt (onW (createEnvironmentObjects t namespace resources));
      run (match r with inl _ => throw ErrTeamNamespaceEnvObjsCreated | inr _ => mret tt end);
      do created <- team_cond nsConditionType;
      run (if negb created then post_namespace_creation namespace nsConditionType else mret tt);
      if decide (nsConditionType = TeamNamespaceStagingCreated) then first_run else mret tt
  end.

Definition create_namespace_of (opt : TeamNamespaceStatusOption) : TeamHandler unit :=
  do ' (namespace, _, nsConditionType) <- apply_option opt;
  do r <- attempt (createNamespaceByTeam opt);
  match r with
  | inl err =>
      run (if IsNamespaceStillCreating err || IsNewNamespaceEnvObjsCreated err ||
              IsNewNamespaceComponentNotified err || IsNewNamespacePromotionCreated err
           then
             run set_team_cond nsConditionType ConditionFalse (namespace +:+ " " +:+ err_text err);
             wrapping "cannot update team conditions while creating namespace"
               (updateTeamNamespacesStatus [opt])
           else mret tt);
      throw err
  | inr _ =>
      do created <- team_cond nsConditionType;
      if negb created then
        run set_team_cond nsConditionType ConditionTrue
          (namespace +:+ " namespace is created and staging ctrl is deployed");
        wrapping "cannot update team conditions when create namespace success"
          (updateTeamNamespacesStatus [opt])
      else mret tt
  end.

Definition createNamespace (teamName : string) (opt : TeamNamespaceStatusOption) : M W unit :=
  do t <- fetchTeam teamName;
  do ' (_, _) <- with_obj t (create_namespace_of opt); mret tt.

(** ** Destroying namespaces *)

Definition destroyAllStableComponents (namespace : string) : M W unit :=
  run k_delete_all_of StableComponent (InNamespace namespace);
  do stables <- k_list StableComponent (InNamespace namespace);
  if (0 <? length stables)%nat then throw ErrEnsureStableComponentsDestroyed else mret tt.

(** [destroyClusterRole] and [destroyClusterRoleBinding]. *)
Definition destroy_cluster_object (k : Kind) (name : string) : M W unit :=
  do r <- attempt (k_get (KubeObj k) ("", name));
  match r with
  | inl err => if IsNotFound err then mret tt else throw (Wrap err ("cannot get clusterrole name " +:+ name))
  | inr obj =>
      do r <- attempt (k_delete obj);
      match r with
      | inl err => if IsNotFound err then mret tt else throw err
      | inr _ => mret tt
      end
  end.
Definition destroyClusterRole (namespace : string) : M W unit :=
  destroy_cluster_object ClusterRoleKind (GenClusterRoleName namespace).
Definition destroyClusterRoleBinding (namespace : string) : M W unit :=
  destroy_cluster_object ClusterRoleBindingKind (GenClusterRoleName namespace).

(** One namespace.  A namespace that is already being destroyed is a conflict. *)
Definition destroy_one (opt : TeamNamespaceStatusOption) : TeamHandler unit :=
  do ' (namespace, _, nsConditionType) <- apply_option opt;
  if String.eqb namespace "" then
    run set_team_cond nsConditionType ConditionFalse "there is no namespace to destroy";
    wrapping "cannot update team conditions when no namespace" (updateTeamNamespacesStatus [opt])
  else
    run wrapping "cannot delete all stable components" (onW (destroyAllStableComponents namespace));
    run wrapping "cannot delete clusterrole" (onW (destroyClusterRole namespace));
    run wrapping "cannot delete clusterrolebinding" (onW (destroyClusterRoleBinding namespace));
    do r <- attempt (onW (k_get (KubeObj NamespaceKind) ("", namespace)));
    match r with
    | inl err =>
        if IsNotFound err then
          run set_team_cond nsConditionType ConditionFalse (namespace +:+ " namespace is destroyed");
          wrapping "cannot update team conditions when destroy namespace success"
            (updateTeamNamespacesStatus [opt])
        else throw (Wrap err "cannot get namespaceObj")
    | inr namespaceObj =>
        do r <- attempt (onW (k_delete namespaceObj));
        match r with
        | inl err => if IsConflict err then mret tt else throw (Wrap err "cannot destroy namespace")
        | inr _ => throw ErrTeamNamespaceStillExists
        end
    end.

Definition destroyNamespaces (opts : list TeamNamespaceStatusOption) : TeamHandler unit :=
  for_each opts destroy_one.

Definition destroyNamespace (teamName : string) (opt : TeamNamespaceStatusOption) : M W unit :=
  do r <- attempt (fetchTeam teamName);
  match r with
  | inl err => if IsNotFound err then mret tt else throw err
  | inr t => do ' (_, _) <- with_obj t (destroyNamespaces [opt]); mret tt
  end.

Definition DestroyActiveEnvironment (teamName namespace : string) : M W unit :=
  destroyNamespace teamName (withTeamActiveNamespaceStatus namespace "" true).
Definition DestroyPreActiveEnvironment (teamName namespace : string) : M W unit :=
  destroyNamespace teamName (withTeamPreActiveNamespaceStatus namespace true).
Definition DestroyPreviousActiveEnvironment (teamName namespace : string) : M W unit :=
  destroyNamespace teamName (withTeamPreviousActiveNamespaceStatus namespace true).

Definition CreatePreActiveEnvironment (teamName namespace : string) : M W unit :=
  createNamespace teamName (withTeamPreActiveNamespaceStatus namespace false).

Definition GetActivePromotionDeployEngine (teamName ns : string) : M W (DeployEngine W) :=
  do r <- attempt (cfg_Get teamName);
  match r with
  | inl _ => mret MockEngine
  | inr config =>
      let e := default EngineName (do atp <- used_promotion config; do d <- ca_Deployment atp; cd_Engine d) in
      mret (if String.eqb e "helm3" then out_helm3 ns else MockEngine)
  end.

(** ** Deletion of the active environment on request *)

(** [sendActiveEnvironmentDeleted]: the first reporter that fails ends it. *)
Definition sendActiveEnvironmentDeleted (teamName activeNs deletedBy : string) : M W unit :=
  do t <- now;
  do reporters <- out_reporters;
  do reporters <- range_map reporters;
  for_each reporters (fun reporter => snd reporter
    (mkActiveEnvironmentDeletedReporter teamName activeNs deletedBy (out_stamp (W:=W) t))).

Definition deleted_condition (namespace : string) : TeamHandler unit :=
  set_team_cond TeamActiveEnvironmentDeleted ConditionTrue (namespace +:+ " namespace is deleting").

Definition delete_active_environment (teamName namespace deletedBy : string) : TeamHandler unit :=
  do sent <- team_cond TeamActiveEnvironmentDeletedReportSent;
  run (if negb sent then
         do r <- attempt (onW (sendActiveEnvironmentDeleted teamName namespace deletedBy));
         match r with
         | inl _ => set_team_cond TeamActiveEnvironmentDeletedReportSent ConditionFalse
                      "cannot sent deleted active namespace report"
         | inr _ => set_team_cond TeamActiveEnvironmentDeletedReportSent ConditionTrue
                      "deleted active namespace report has been sent successfully"
         end
       else mret tt);
  do deleted <- team_cond TeamActiveEnvironmentDeleted;
  run (if negb deleted then
         run (if negb (String.eqb deletedBy "")
              then mod_obj (fun t => t <| team_Status ::= fun s => s <| tst_ActiveDeletedBy := deletedBy |> |>)
              else mret tt);
         deleted_condition namespace
       else mret tt);
  do deployEngine <- onW (GetActivePromotionDeployEngine teamName namespace);
  do parentComps <- onW (cfg_GetParentComponents teamName);
  do parentComps <- onW (range_map parentComps);
  run for_each parentComps (fun comp => onW (ignore_error (de_Delete deployEngine (GenReleaseName (fst comp)))));
  do r <- attempt (onW (DestroyActiveEnvironment teamName namespace));
  run (match r with
       | inl err =>
           if IsNamespaceStillExists err then mret tt
           else
             run deleted_condition namespace;
             run ignore_error updateTeam;
             throw err
       | inr _ => mret tt
       end);
  run mod_obj (fun t => over_namespace (fun n => n <| tn_Active := "" |>) t
                          <| team_Status ::= fun s => s <| tst_ActivePromotedBy := "" |> |>);
  run set_team_cond TeamActiveEnvironmentDeleted ConditionFalse
    (namespace +:+ " namespace has been deleted successfully");
  run set_team_cond TeamNamespaceActiveCreated ConditionFalse (namespace +:+ " namespace is destroyed");
  run set_team_cond TeamActiveEnvironmentDeletedReportSent ConditionFalse
    "deleted active namespace report has been sent successfully";
  ignore_error updateTeam.

(** An error other than [NotFound] leaves the zero team. *)
Definition DeleteTeamActiveEnvironment (teamName namespace deletedBy : string) : M W unit :=
  do r <- attempt (fetchTeam teamName);
  match r with
  | inl err =>
      if IsNotFound err then mret tt
      else do ' (_, _) <- with_obj zeroTeam (delete_active_environment teamName namespace deletedBy); mret tt
  | inr t => do ' (_, _) <- with_obj t (delete_active_environment teamName namespace deletedBy); mret tt
  end.

(** ** The staging environment *)

Definition EnsureStagingResourcesQuota (teamName namespace : string) (dryRun : bool)
    : M W (option ResourceList) :=
  do stgConfig <- cfg_GetStagingConfig teamName;
  do t <- fetchTeam teamName;
  do resources <- (
    if (0 <? size (ts_Resources (tst_Used (team_Status t))))%nat then
      do stgConfig <- deref stgConfig;
      do deployment <- deref (cs_Deployment stgConfig);
      mret (match cd_Engine deployment with
            | Some e => if String.eqb e EngineName then Some (s2h_InitialResourcesQuota configs) else None
            | None => None
            end)
    else mret None);
  if dryRun then mret resources
  else
    do r <- attempt (k_get (KubeObj ResourceQuotaKind) (namespace, namespace +:+ ResourcesQuotaSuffix));
    match r with
    | inl err => if IsNotFound err then mret resources else throw err
    | inr _ =>
        do quotaObj <- so_GetResourceQuota t namespace resources;
        run so_update quotaObj; mret resources
    end.

Definition CreateStagingEnvironment (teamName namespace : string) : M W unit :=
  do resources <- wrapping "cannot ensure staging resources quota"
    (EnsureStagingResourcesQuota teamName namespace true);
  createNamespace teamName (withTeamStagingNamespaceStatus namespace resources false).

(** ** Secrets *)

Definition over_credential (f : Credential -> Credential) (t : Team) : Team :=
  t <| team_Status ::= fun s => s <| tst_Used ::= fun u => u <| ts_Credential ::= f |> |> |>.

(** A secret that is not found is an error; on any other error the secret is the zero
    one.  A reference that is [nil] panics. *)
Definition LoadTeamSecret : TeamHandler unit :=
  do t <- get_obj;
  let cred := ts_Credential (tst_Used (team_Status t)) in
  let secretName := cred_SecretName cred in
  if String.eqb secretName "" then mret tt else
  do r <- attempt (onW (k_get Secret (s2h_namespace, secretName)));
  do data <- (match r with
    | inl err =>
        if IsNotFound err
        then throw (Wrap err ("cannot find " +:+ secretName +:+ " secret in " +:+ s2h_namespace +:+ " namespace"))
        else mret ∅
    | inr secret => mret (secret_Data secret)
    end);
  let value (key : string) := default "" (data !! key) in
  run (match cred_Teamcity cred with
       | Some tc =>
           do username <- deref (up_UsernameRef tc);
           run mod_obj (over_credential (fun c => c <| cred_Teamcity ::= fmap (fun u =>
                          u <| up_Username := value (sk_Key username) |>) |>));
           do password <- deref (up_PasswordRef tc);
           mod_obj (over_credential (fun c => c <| cred_Teamcity ::= fmap (fun u =>
                      u <| up_Password := value (sk_Key password) |>) |>))
       | None => mret tt
       end);
  run (match cred_Github cred with
       | Some git =>
           do token <- deref (tok_TokenRef git);
           mod_obj (over_credential (fun c => c <| cred_Github ::= fmap (fun u =>
                      u <| tok_Token := value (sk_Key token) |>) |>))
       | None => mret tt
       end);
  match cred_Gitlab cred with
  | Some git =>
      do token <- deref (tok_TokenRef git);
      run mod_obj (over_credential (fun c => c <| cred_Gitlab ::= fmap (fun u =>
                     u <| tok_Token := value (sk_Key token) |>) |>));
      onW (out_set_gitlab_reporter (s2h_GitlabURL configs) (value (sk_Key token)))
  | None => mret tt
  end.

(** ** The reconciliation of a team *)

Definition ensureConfigDestroyed (configName : string) : M W unit :=
  do r <- attempt (k_get Config ("", configName));
  match r with
  | inl err => if IsNotFound err then mret tt else throw err
  | inr _ => throw ErrEnsureConfigDestroyed
  end.

(** The metric of the teams' names needs their list. *)
Definition GetTeams : M W (list Team) := wrapping "cannot list teams" (k_list Team (InNamespace "")).

Definition deleteFinalizer : TeamHandler unit :=
  do t <- get_obj;
  if ContainsString (om_Finalizers (team_Meta t)) teamFinalizerName then
    run destroyNamespaces (getAllTeamNamespaces t true);
    run onW (cfg_Delete (kname t));
    run onW (ensureConfigDestroyed (kname t));
    run mod_obj (fun t => t <| team_Meta ::= fun m =>
      m <| om_Finalizers ::= fun l => RemoveString l teamFinalizerName |> |>);
    run updateTeam;
    run onW GetTeams;
    mret tt
  else mret tt.

Definition ensureAndUpdateConfig : TeamHandler unit :=
  do t <- get_obj;
  do config <- onW (cfg_Get (kname t));
  match om_OwnerReferences (config_Meta config) with
  | [] =>
      match out_SetControllerReference (W:=W) (team_Meta t) (config_Meta config) with
      | inl err => throw err
      | inr meta => onW (cfg_Update (config <| config_Meta := meta |>))
      end
  | _ => mret tt
  end.

(** [applyTeamTemplate]: the used values are those of the team, completed by the
    template. *)
Definition applyTeamTemplate (template : Team) : TeamHandler unit :=
  run mod_obj (fun t => t <| team_Status ::= fun s => s <| tst_Used := team_Spec t |> |>);
  do t <- get_obj;
  match out_Merge (W:=W) (tst_Used (team_Status t)) (team_Spec template) with
  | inl err => throw err
  | inr (used, spec) =>
      mod_obj (fun t => t <| team_Spec := spec |> <| team_Status ::= fun s => s <| tst_Used := used |> |>)
  end.

Definition EnsureTeamTemplateChanged : TeamHandler unit :=
  do t <- get_obj;
  do configComp <- onW (cfg_Get (kname t));
  let configTemplate := cf_Template (config_Spec configComp) in
  run (if negb (String.eqb configTemplate "") && negb (String.eqb configTemplate (kname t)) then
         do template <- onW (fetchTeam configTemplate);
         applyTeamTemplate template
       else mod_obj (fun t => t <| team_Status ::= fun s => s <| tst_Used := team_Spec t |> |>));
  do t <- get_obj;
  let hashID := out_TeamHash (W:=W) (tst_Used (team_Status t)) in
  run mod_obj (fun t => t <| team_Status ::= fun s => s <| tst_SyncTemplate := true |> |>);
  if negb (String.eqb (tst_TemplateUID (team_Status t)) hashID) then
    run mod_obj (fun t => t <| team_Status ::= fun s => s <| tst_TemplateUID := hashID |> |>);
    set_team_cond TeamUsedUpdated ConditionFalse "need update team"
  else mret tt.

(** Every team whose configuration has this team as its template. *)
Definition ensureTriggerChildrenTeam (name : string) : M W bool :=
  do configs <- k_list Config (InNamespace "");
  let children := filter (fun conf => cf_Template (config_Spec conf) = name) configs in
  run for_each children (fun conf =>
    do t <- fetchTeam (kname conf);
    do ' (_, _) <- with_obj t (
      run mod_obj (fun t => t <| team_Status ::= fun s => s <| tst_SyncTemplate := false |> |>);
      updateTeam);
    mret tt);
  mret (0 <? length children)%nat.

(** A condition that is set once: the first time, the team is stored and the
    reconciliation ends. *)
Definition once (cond : TeamConditionType) (message : string) (store : TeamHandler unit)
    (next : TeamHandler Result) : TeamHandler Result :=
  do isTrue <- team_cond cond;
  if negb isTrue then
    run set_team_cond cond ConditionTrue message;
    run store;
    mret noResult
  else next.

Definition create_staging : TeamHandler Result :=
  do t <- get_obj;
  let teamName := kname t in
  do r <- attempt (onW (CreateStagingEnvironment teamName (GenStagingNamespace teamName)));
  match r with
  | inl err =>
      if IsNamespaceStillCreating err then mret (mkResult true (2 * Second)) else throw err
  | inr _ =>
      run LoadTeamSecret;
      run onW GetTeams;
      mret noResult
  end.

Definition validate_team : TeamHandler Result :=
  do t <- get_obj;
  match validateTeamRequiredField t with
  | inl _ =>
      run set_team_cond TeamRequiredFieldsValidated ConditionFalse "invalid required fields";
      run wrapping "cannot update team conditions when require fields is invalid" updateTeam;
      mret noResult
  | inr _ =>
      once TeamRequiredFieldsValidated "validate required fields successfully"
        (wrapping "cannot update team conditions when require fields is valid" updateTeam) create_staging
  end.

Definition trigger_children : TeamHandler Result :=
  do t <- get_obj;
  do childTemplateUpdated <- onW (ensureTriggerChildrenTeam (kname t));
  if childTemplateUpdated : bool then mret (mkResult true (1 * Second)) else validate_team.

Definition reconcile_config : TeamHandler Result :=
  do r <- attempt ensureAndUpdateConfig;
  match r with
  | inl err =>
      do id <- onW out_GenerateRandomString;
      run set_team_cond TeamConfigExisted ConditionFalse (err_text err +:+ ", errId: " +:+ id);
      run wrapping "cannot update team conditions when config does not exist" updateTeam;
      mret noResult
  | inr _ =>
      once TeamConfigExisted "Config exists"
        (wrapping "cannot update team conditions when config exists" updateTeam) (
        run EnsureTeamTemplateChanged;
        once TeamUsedUpdated "update team template successfully" updateTeam trigger_children)
  end.

Definition reconcile_team : TeamHandler Result :=
  do t <- get_obj;
  if negb (time_is_zero (om_DeletionTimestamp (team_Meta t))) then
    do r <- attempt deleteFinalizer;
    match r with
    | inl err =>
        if IsNamespaceStillExists err || IsEnsuringConfigDestroyed err
        then mret (mkResult true (2 * Second)) else throw err
    | inr _ => mret noResult
    end
  else
    run mod_obj addTeamFinalizer;
    let active := tn_Active (tst_Namespace (team_Status t)) in
    if negb (String.eqb active "") && TeamIsConditionTrue (team_Status t) TeamActiveEnvironmentDeleted then
      do r <- attempt (onW (DeleteTeamActiveEnvironment (kname t) active ""));
      match r with
      | inl err => if IsNamespaceStillExists err then mret noResult else throw err
      | inr _ => mret noResult
      end
    else reconcile_config.

(** The interface that the other controllers call, implemented. *)
Definition team_controller : SamsahaiController W := {|
  s2h_GetActivePromotionDeployEngine := GetActivePromotionDeployEngine;
  s2h_LoadTeamSecret := LoadTeamSecret;
  s2h_CreatePreActiveEnvironment := CreatePreActiveEnvironment;
  s2h_PromoteActiveEnvironment := PromoteActiveEnvironment;
  s2h_DestroyActiveEnvironment := DestroyActiveEnvironment;
  s2h_DestroyPreActiveEnvironment := DestroyPreActiveEnvironment;
  s2h_DestroyPreviousActiveEnvironment := DestroyPreviousActiveEnvironment;
  s2h_SetPreviousActiveNamespace := SetPreviousActiveNamespace;
  s2h_SetPreActiveNamespace := SetPreActiveNamespace;
  s2h_SetActiveNamespace := SetActiveNamespace;
  s2h_NotifyActivePromotionReport := out_NotifyActivePromotionReport;
  s2h_GetTeam := fetchTeam;
  s2h_EnsureStagingResourcesQuota := EnsureStagingResourcesQuota;
|}.

(** [Reconcile] of a team. *)
Definition ReconcileTeam (req : Request) : M W Result :=
  do r <- attempt (k_get Team ("", snd req));
  match r with
  | inl err => if IsNotFound err then mret noResult else throw err
  | inr t => do ' (res, _) <- with_obj t reconcile_team; mret res
  end.
End controller.
