(* ===== verification/AtpMachine.v ===== *)
(** The promotion as a state machine: the abstract specification of the controller of
    active promotions.  A [control] is what decides how a promotion goes on; [step] is
    one transition of it; [sound] is the invariant of the machine. *)

From S2P Require Import Prelude.
From S2P Require Import GoRuntime.
From S2P Require Import Errors.
From S2P Require Import KubeApi.
From S2P Require Import ConfigTypes.
From S2P Require Import ComponentTypes.
From S2P Require Import QueueTypes.
From S2P Require Import TeamTypes.
From S2P Require Import AtpTypes.
From S2P Require Import RpcTypes.
From S2P Require Import QueueCtrl.
From S2P Require Import Interfaces.
From S2P Require Import Cleanup.
From S2P Require Import Outdated.
From S2P Require Import AtpCtrl.
From stdpp Require Import relations.
Open Scope string_scope.
Open Scope list_scope.
Open Scope Z_scope.

(** ** The control of a promotion *)

Record control := mkControl {
  ct_key : string * string;
  ct_label : option string;                   (* the label [state]: its queue *)
  ct_held : bool;                             (* the controller's finalizer is there *)
  ct_retry : Z;
  ct_no_downtime : option bool;
  ct_state : ActivePromotionState;
  ct_result : ActivePromotionResult;
  ct_verified : bool;
  ct_promoted : bool;
}.
#[export] Instance eta_control : Eta control := fun x =>
  mkControl (ct_key x) (ct_label x) (ct_held x) (ct_retry x) (ct_no_downtime x) (ct_state x)
    (ct_result x) (ct_verified x) (ct_promoted x).

Definition ctl (a : ActivePromotion) : control :=
  mkControl (kkey a) (om_Labels (atp_Meta a) !! "state")
    (ContainsString (om_Finalizers (atp_Meta a)) activePromotionFinalizer)
    (as_NoOfRetry (atp_Spec a)) (as_NoDowntimeGuarantee (atp_Spec a))
    (ast_State (atp_Status a)) (ast_Result (atp_Status a))
    (AtpIsConditionTrue (atp_Status a) ActivePromotionCondVerified)
    (AtpIsConditionTrue (atp_Status a) ActivePromotionCondActivePromoted).

(** Promote first, demote afterwards. *)
Definition promote_first (c : control) : bool :=
  match ct_no_downtime c with Some b => b | None => false end.

Definition rejected (r : ActivePromotionResult) : Prop :=
  r = ActivePromotionFailure \/ r = ActivePromotionCanceled.

(** ** The transitions

    [retries] bounds the retries that the configuration allows; [orphaned] says that the
    team of the promotion is gone. *)
Section machine.
Context (retries : Z) (orphaned : Prop).
Implicit Types (c : control).

Inductive step : control -> control -> Prop :=
(* queue.go *)
| step_setup c b :
    ct_state c = ActivePromotionNew ->
    (forall b', ct_no_downtime c = Some b' -> b' = b) ->
    step c (c <| ct_label := Some stateWaiting |> <| ct_no_downtime := Some b |>
              <| ct_state := ActivePromotionWaiting |>)
| step_start c h :
    ct_label c = Some stateWaiting -> (ct_held c = true -> h = true) ->
    step c (c <| ct_label := Some stateRunning |> <| ct_held := h |>
              <| ct_state := ActivePromotionCreatingPreActive |>)
| step_retry c :
    ct_state c = ActivePromotionFinished -> ct_result c = ActivePromotionFailure ->
    ct_retry c < retries ->
    step c (c <| ct_retry ::= fun n => int_add n 1 |> <| ct_state := ActivePromotionNew |>
              <| ct_result := NoResult |> <| ct_verified := false |> <| ct_promoted := false |>)
(* the pre-active environment *)
| step_created c :
    ct_state c = ActivePromotionCreatingPreActive ->
    step c (c <| ct_state := ActivePromotionDeployingComponents |>)
| step_deployed c :
    ct_state c = ActivePromotionDeployingComponents ->
    step c (c <| ct_state := ActivePromotionTestingPreActive |>)
| step_deploy_failed c :
    ct_state c = ActivePromotionDeployingComponents ->
    step c (c <| ct_result := ActivePromotionFailure |> <| ct_verified := true |>
              <| ct_state := ActivePromotionCollectingPreActiveResult |>)
| step_tested c :
    ct_state c = ActivePromotionTestingPreActive ->
    step c (c <| ct_verified := true |> <| ct_state := ActivePromotionCollectingPreActiveResult |>)
| step_test_failed c :
    ct_state c = ActivePromotionTestingPreActive ->
    step c (c <| ct_result := ActivePromotionFailure |> <| ct_verified := true |>
              <| ct_state := ActivePromotionCollectingPreActiveResult |>)
(* the collected result decides *)
| step_reject c v :
    ct_state c = ActivePromotionCollectingPreActiveResult -> rejected (ct_result c) ->
    (ct_verified c = true -> v = true) ->
    step c (c <| ct_verified := v |> <| ct_promoted := false |>
              <| ct_state := ActivePromotionDestroyingPreActive |>)
| step_accept c v :
    ct_state c = ActivePromotionCollectingPreActiveResult -> ~ rejected (ct_result c) ->
    (ct_verified c = true -> v = true) ->
    step c (c <| ct_verified := v |>
              <| ct_state := if promote_first c then ActivePromotionActiveEnvironment
                             else ActivePromotionDemoting |>)
(* the active environment *)
| step_demoted c :
    ct_state c = ActivePromotionDemoting ->
    step c (c <| ct_state := if promote_first c then ActivePromotionDestroyingPreviousActive
                             else ActivePromotionActiveEnvironment |>)
| step_promoted c :
    ct_state c = ActivePromotionActiveEnvironment ->
    step c (c <| ct_result := ActivePromotionSuccess |> <| ct_promoted := true |>
              <| ct_state := if promote_first c then ActivePromotionDemoting
                             else ActivePromotionDestroyingPreviousActive |>)
| step_promote_failed c :
    ct_state c = ActivePromotionActiveEnvironment ->
    step c (c <| ct_result := ActivePromotionFailure |> <| ct_state := ActivePromotionRollback |>)
(* the end *)
| step_finished c :
    ct_state c = ActivePromotionDestroyingPreviousActive \/
    ct_state c = ActivePromotionDestroyingPreActive \/ ct_state c = ActivePromotionRollback ->
    step c (c <| ct_state := ActivePromotionFinished |>)
| step_released c :
    ct_state c = ActivePromotionFinished -> step c (c <| ct_held := false |>)
| step_orphaned c : orphaned -> step c (c <| ct_held := false |>)
(* timeout and cancellation, by the result of the verification so far *)
| step_abort c r p :
    stateCannotBeTimeoutOrCancel (ct_state c) = false -> rejected r ->
    (p = true -> ct_promoted c = true) ->
    step c (c <| ct_result := r |> <| ct_promoted := p |>
              <| ct_state := if ct_verified c then ActivePromotionRollback
                             else ActivePromotionCollectingPreActiveResult |>).

(** ** The invariant *)

(** The result that belongs to a state. *)
Definition result_fits c : Prop :=
  match ct_state c with
  | ActivePromotionNew | ActivePromotionWaiting | ActivePromotionCreatingPreActive
  | ActivePromotionDeployingComponents | ActivePromotionTestingPreActive
  | ActivePromotionActiveEnvironment => ct_result c = NoResult
  | ActivePromotionCollectingPreActiveResult => ct_result c <> ActivePromotionSuccess
  | ActivePromotionDemoting =>
      ct_result c = if promote_first c then ActivePromotionSuccess else NoResult
  | ActivePromotionDestroyingPreviousActive => ct_result c = ActivePromotionSuccess
  | ActivePromotionDestroyingPreActive | ActivePromotionRollback => rejected (ct_result c)
  | ActivePromotionFinished => ct_result c <> NoResult
  | OtherActivePromotionState _ => True
  end.

Record sound c : Prop := {
  sound_queue : ct_label c = Some stateWaiting -> ct_state c = ActivePromotionWaiting;
  sound_result : result_fits c;
  sound_success : ct_result c = ActivePromotionSuccess -> ct_promoted c = true;
  sound_retry : 0 <= ct_retry c <= retries;
}.

Lemma step_key c c' : step c c' -> ct_key c' = ct_key c.
Proof. by destruct 1. Qed.

Lemma steps_key c c' : rtc step c c' -> ct_key c' = ct_key c.
Proof. induction 1 as [|c1 c2 c3 H _ IH]; [done|]. rewrite IH. by apply step_key. Qed.

Lemma waiting_label c s' :
  sound c -> ct_state c = s' -> s' <> ActivePromotionWaiting -> ct_label c <> Some stateWaiting.
Proof. intros [Hq _ _ _] <- Hs Hl. auto. Qed.

Lemma abort_not_waiting s : stateCannotBeTimeoutOrCancel s = false -> s <> ActivePromotionWaiting.
Proof. by intros Hs ->. Qed.

Context (Hretries : 0 <= retries < 2 ^ 63).

(** Every transition keeps the invariant. *)
Lemma step_sound c c' : step c c' -> sound c -> sound c'.
Proof.
  intros Hstep Hsound. pose proof Hsound as [Hq Hr Hsucc Hretry]. unfold result_fits in Hr.
  destruct Hstep as
    [c b Hs _|c h Hl _|c Hs Hf Hn|c Hs|c Hs|c Hs|c Hs|c Hs|c v Hs Hrej _|c v Hs Hrej _|c Hs|c Hs|c Hs
    |c Hs|c Hs|c Ho|c r p Hs Hrej Hp];
    try (rewrite Hs in Hr); split; unfold result_fits, promote_first; simpl; auto; try congruence.
  all: try (intros Hl; by destruct (waiting_label _ _ Hsound Hs ltac:(done))).
  - discriminate.
  - by rewrite (Hq Hl) in Hr.
  - rewrite int_add_id; unfold in64; lia.
  - unfold rejected in Hrej. destruct (ct_no_downtime c) as [[]|], (ct_result c); naive_solver.
  - unfold promote_first in Hr. destruct (ct_no_downtime c) as [[]|]; done.
  - by destruct (ct_no_downtime c) as [[]|].
  - by left.
  - intros Hl. destruct Hs as [Hs|[Hs|Hs]]; by destruct (waiting_label _ _ Hsound Hs ltac:(done)).
  - destruct Hs as [Hs|[Hs|Hs]]; rewrite Hs in Hr; [congruence|destruct Hr; congruence..].
  - by rewrite Hs.
  - intros Hl. destruct (waiting_label _ _ Hsound eq_refl (abort_not_waiting _ Hs)). done.
  - destruct (ct_verified c); [done|]. destruct Hrej; congruence.
  - destruct Hrej; congruence.
Qed.

Lemma steps_sound c c' : rtc step c c' -> sound c -> sound c'.
Proof. induction 1 as [|c1 c2 c3 H _ IH]; [done|]. intros. eapply IH, step_sound; eauto. Qed.

(** The active environment was switched, and nothing but the destruction of the
    previous one is left to do. *)
Definition settled (c : control) : Prop :=
  ct_result c = ActivePromotionSuccess /\
  (ct_state c = ActivePromotionDestroyingPreviousActive \/ ct_state c = ActivePromotionFinished).

Lemma step_settled c c' : step c c' -> sound c -> settled c -> settled c'.
Proof.
  intros Hstep Hsound [Hr Hs]. pose proof Hsound as [Hq _ _ _].
  destruct Hstep; unfold settled in *; simpl in *; try (destruct Hs; congruence); auto.
  - destruct Hs as [Hs|Hs]; rewrite Hs in Hq; naive_solver.
  - destruct Hs as [Hs|Hs]; rewrite Hs in *; done.
Qed.

Lemma steps_settled c c' : rtc step c c' -> sound c -> settled c -> settled c'.
Proof.
  induction 1 as [|c1 c2 c3 H _ IH]; [done|]. intros Hsound Hset.
  apply IH; [by eapply step_sound|by eapply step_settled].
Qed.
End machine.
