(* ===== verification/AtpFrame.v ===== *)
(** What the calls of the promotion controller leave alone: every call but those on the
    [ActivePromotion] objects themselves keeps a reading of the cluster that the other
    components do not touch. *)

From S2P Require Import Prelude.
From S2P Require Import GoRuntime.
From S2P Require Import Errors.
From S2P Require Import KubeApi.
From S2P Require Import Frame.
From S2P Require Import ConfigTypes.
From S2P Require Import ComponentTypes.
From S2P Require Import QueueTypes.
From S2P Require Import TeamTypes.
From S2P Require Import AtpTypes.
From S2P Require Import RpcTypes.
From S2P Require Import QueueCtrl.
From S2P Require Import Interfaces.
From S2P Require Import Cleanup.
From S2P Require Import Outdated.
From S2P Require Import AtpCtrl.
Open Scope string_scope.
Open Scope list_scope.
Open Scope Z_scope.

(** ** The calls of the controller *)

(** The other components keep the reading [v]. *)
Class PromotionFrame (W : Type) `{GR : GoRuntime W, PC : PromotionCluster W, CC : ConfigController W,
    SC : SamsahaiController W} {V : Type} (v : W -> V) : Prop := {
  pf_runtime :: RuntimeFrame W v;
  pf_hist :: KFrame W ActivePromotionHistory v;
  pf_team :: KFrame W Team v;
  pf_queue :: KFrame W Queue v;
  pf_stable :: KFrame W StableComponent v;
  pf_objects :: forall k, KFrame W (KubeObj k) v;
  pf_config :: forall team, Preserves (cfg_Get team) v;
  pf_parents :: forall team, Preserves (cfg_GetParentComponents team) v;
  pf_engine :: forall team ns, Preserves (s2h_GetActivePromotionDeployEngine team ns) v;
  pf_engine_calls team ns w e w' : s2h_GetActivePromotionDeployEngine team ns w = (Ok e, w') ->
    forall ref, Preserves (de_Delete e ref) v /\ Preserves (de_ForceDelete e ref) v;
  pf_secret :: Preserves s2h_LoadTeamSecret (of_world v);
  pf_create_pre :: forall team ns, Preserves (s2h_CreatePreActiveEnvironment team ns) v;
  pf_promote :: forall ns by_ comps, Preserves (s2h_PromoteActiveEnvironment ns by_ comps) (of_world v);
  pf_destroy_active :: forall team ns, Preserves (s2h_DestroyActiveEnvironment team ns) v;
  pf_destroy_pre :: forall team ns, Preserves (s2h_DestroyPreActiveEnvironment team ns) v;
  pf_destroy_prev :: forall team ns, Preserves (s2h_DestroyPreviousActiveEnvironment team ns) v;
  pf_set_prev :: forall ns, Preserves (s2h_SetPreviousActiveNamespace ns) (of_world v);
  pf_set_active :: forall ns, Preserves (s2h_SetActiveNamespace ns) (of_world v);
  pf_notify :: forall rpt, Preserves (s2h_NotifyActivePromotionReport rpt) v;
}.

Section frame.
Context {W : Type} `{GR : GoRuntime W} `{GS : GoSort} `{PC : PromotionCluster W}
  `{CC : ConfigController W} `{SC : SamsahaiController W}.
Context (configs : SamsahaiConfig) (zone : Z).
Context {V : Type} (v : W -> V) {PF : PromotionFrame W v}.

(** ** Queues *)

#[export] Instance active_demoted_preserves team ns : Preserves (ensureQueueActiveDemoted team ns) v.
Proof. unfold ensureQueueActiveDemoted. preserves. Qed.
#[export] Instance promoted_preserves team ns : Preserves (ensureQueuePromotedToActive team ns) v.
Proof. unfold ensureQueuePromotedToActive. preserves. Qed.
#[export] Instance deployed_preserves team ns skip :
  Preserves (ensurePreActiveComponentsDeployed team ns skip) v.
Proof. unfold ensurePreActiveComponentsDeployed. preserves. Qed.
#[export] Instance tested_preserves team ns skip :
  Preserves (ensurePreActiveComponentsTested team ns skip) v.
Proof. unfold ensurePreActiveComponentsTested. preserves. Qed.

(** ** Configuration *)

#[export] Instance used_or_preserves {A} (d : A) team f : Preserves (used_or d team f) v.
Proof. unfold used_or. preserves. Qed.
#[export] Instance getTeam_preserves team : Preserves (getTeam team) v.
Proof. unfold getTeam. apply _. Qed.
#[export] Instance cleanup_timeout_preserves team : Preserves (getComponentCleanupTimeout team) v.
Proof. unfold getComponentCleanupTimeout. preserves. Qed.
#[export] Instance max_retry_preserves team : Preserves (getMaxActivePromotionRetry configs team) v.
Proof. unfold getMaxActivePromotionRetry. preserves. Qed.
#[export] Instance isTimeout_both {G} (g : ActivePromotion -> G) type :
  Preserves (isTimeoutFromConfig configs type) (of_both v g).
Proof.
  unfold isTimeoutFromConfig, getActivePromotionTimeout, getActiveDemotionTimeout,
    getActivePromotionRollbackTimeout. preserves.
Qed.
#[export] Instance target_both {G} (g : ActivePromotion -> G) : Preserves getTargetNamespace (of_both v g).
Proof. unfold getTargetNamespace. preserves. Qed.

(** ** Environments *)

#[export] Instance delete_all_components_preserves team ns start :
  Preserves (deleteAllComponentsInNamespace team ns start) v.
Proof.
  unfold deleteAllComponentsInNamespace.
  eapply (bind_preserves_post v (fun e =>
    forall ref, Preserves (de_Delete e ref) v /\ Preserves (de_ForceDelete e ref) v));
    [apply pf_engine_calls|apply _|].
  intros e Hcalls.
  assert (forall ref, Preserves (de_Delete e ref) v) by (intros; apply Hcalls).
  assert (forall ref, Preserves (de_ForceDelete e ref) v) by (intros; apply Hcalls).
  preserves. apply wait_preserves; try apply _; exact H0.
Qed.

#[export] Instance namespace_destroyed_preserves team ns : Preserves (ensureNamespaceDestroyed team ns) v.
Proof. unfold ensureNamespaceDestroyed. preserves. Qed.
#[export] Instance destroy_namespace_preserves msg (m : M W unit) :
  Preserves m v -> Preserves (destroy_namespace msg m) v.
Proof. intros. unfold destroy_namespace. preserves. Qed.
#[export] Instance destroy_environment_preserves env team ns start :
  Preserves (ensureDestroyEnvironment env team ns start) v.
Proof. unfold ensureDestroyEnvironment. preserves. Qed.
#[export] Instance destroy_previous_preserves team ns t :
  Preserves (destroyPreviousActiveEnvironmentAt team ns t) v.
Proof. unfold destroyPreviousActiveEnvironmentAt. preserves. Qed.
#[export] Instance destroy_active_both {G} (g : ActivePromotion -> G) start :
  Preserves (destroyActiveEnvironment start) (of_both v g).
Proof. unfold destroyActiveEnvironment. preserves. Qed.
#[export] Instance destroy_without_waiting_both {G} (g : ActivePromotion -> G) :
  Preserves destroy_without_waiting (of_both v g).
Proof. unfold destroy_without_waiting. preserves. Qed.

#[export] Instance namespace_ready_preserves ns : Preserves (ensureNamespaceReady ns) v.
Proof. unfold ensureNamespaceReady. preserves. Qed.
#[export] Instance namespace_updated_preserves a b : Preserves (ensureTeamNamespaceUpdated a b) v.
Proof. unfold ensureTeamNamespaceUpdated. preserves. Qed.
#[export] Instance create_pre_active_preserves team ns : Preserves (createPreActiveEnvironment team ns) v.
Proof. unfold createPreActiveEnvironment. preserves. Qed.
#[export] Instance deploy_stable_preserves ns comp : Preserves (deploy_stable ns comp) v.
Proof. unfold deploy_stable. preserves. Qed.
#[export] Instance deploy_stables_preserves comps ns : Preserves (deployStableComponentObjects comps ns) v.
Proof. unfold deployStableComponentObjects. preserves. Qed.
#[export] Instance stables_preserves ns : Preserves (getStableComponentObjects ns) v.
Proof. unfold getStableComponentObjects. apply _. Qed.

(** ** History and reports *)

Lemma delete_histories_preserves fuel items last i : Preserves (delete_histories fuel items last i) v.
Proof. revert i. induction fuel as [|fuel IH]; intros i; cbn [delete_histories]; preserves. Qed.
#[export] Instance history_range_preserves team sel :
  Preserves (deleteActivePromotionHistoryOutOfRange configs team sel) v.
Proof. unfold deleteActivePromotionHistoryOutOfRange. preserves. apply delete_histories_preserves. Qed.
#[export] Instance history_update_preserves name a : Preserves (updateActivePromotionHistory name a) v.
Proof. unfold updateActivePromotionHistory. preserves. Qed.
#[export] Instance history_create_both {G} (g : ActivePromotion -> G) :
  Preserves (createActivePromotionHistory configs) (of_both v g).
Proof. unfold createActivePromotionHistory. preserves. Qed.
#[export] Instance report_both {G} (g : ActivePromotion -> G) : Preserves (sendReport configs) (of_both v g).
Proof. unfold sendReport. preserves. Qed.

(** ** Promotion and rollback *)

#[export] Instance ensure_promoted_both {G} (g : ActivePromotion -> G) :
  Preserves ensureActiveEnvironmentPromoted (of_both v g).
Proof. unfold ensureActiveEnvironmentPromoted. preserves. Qed.
#[export] Instance demote_pre_preserves team ns : Preserves (demotePreActiveForRollback team ns) v.
Proof. unfold demotePreActiveForRollback. preserves. Qed.
#[export] Instance reset_preserves team ns : Preserves (resetTeamNamespace team ns) v.
Proof. unfold resetTeamNamespace. preserves. Qed.

(** The outdated components are the only part of a status that is written. *)
Lemma outdated_component_both {G} (g : ActivePromotionStatus -> G) o comp :
  (forall f s, g (s <| ast_OutdatedComponents ::= f |>) = g s) ->
  (forall b s, g (s <| ast_HasOutdatedComponent := b |>) = g s) ->
  Preserves (outdated_component zone o comp) (of_both v g).
Proof.
  intros Ho Hb. unfold outdated_component, SortByCreatedTimeDESC, getOutdatedComponent, put_outdated.
  preserves; try (apply mod_obj_both; intros; apply Ho).
  intros [newer i].
  unfold older_image, getOutdatedComponent, put_outdated.
  preserves; apply mod_obj_both; intros; solve [apply Ho|apply Hb].
Qed.
Lemma SetOutdatedDuration_both {G} (g : ActivePromotionStatus -> G) o :
  (forall f s, g (s <| ast_OutdatedComponents ::= f |>) = g s) ->
  (forall b s, g (s <| ast_HasOutdatedComponent := b |>) = g s) ->
  Preserves (SetOutdatedDuration zone o) (of_both v g).
Proof.
  intros Ho Hb. unfold SetOutdatedDuration. preserves. intros. by apply outdated_component_both.
Qed.
End frame.
