(* ===== verification/AtpSpec.v ===== *)
(** The controller of active promotions implements the state machine: every call of
    [Reconcile], whatever the other components answer and wherever it stops, moves the
    stored promotions along transitions of [AtpMachine.step] only. *)

From S2P Require Import Prelude.
From S2P Require Import GoRuntime.
From S2P Require Import Errors.
From S2P Require Import KubeApi.
From S2P Require Import Frame.
From S2P Require Import Evolution.
From S2P Require Import ConfigTypes.
From S2P Require Import ComponentTypes.
From S2P Require Import QueueTypes.
From S2P Require Import TeamTypes.
From S2P Require Import AtpTypes.
From S2P Require Import RpcTypes.
From S2P Require Import QueueCtrl.
From S2P Require Import Interfaces.
From S2P Require Import Cleanup.
From S2P Require Import Outdated.
From S2P Require Import AtpCtrl.
From S2P Require Import AtpMachine.
From S2P Require Import AtpFrame.
From stdpp Require Import relations.
Open Scope string_scope.
Open Scope list_scope.
Open Scope Z_scope.

(** A condition counts for the control when it is one of two. *)
Definition ctl_cond (cond : ActivePromotionConditionType) (status : ConditionStatus) (c : control) : control :=
  match cond with
  | ActivePromotionCondVerified => c <| ct_verified := bool_decide (status = ConditionTrue) |>
  | ActivePromotionCondActivePromoted => c <| ct_promoted := bool_decide (status = ConditionTrue) |>
  | _ => c
  end.

Lemma ctl_set_state t st msg a : ctl (AtpSetState t st msg a) = (ctl a) <| ct_state := st |>.
Proof. unfold AtpSetState, ctl. simpl. by case_match. Qed.

Lemma ctl_set_cond t cond status msg a :
  ctl (a <| atp_Status ::= AtpSetCondition t cond status msg |>) = ctl_cond cond status (ctl a).
Proof.
  unfold AtpSetCondition, ctl_cond, ctl, AtpIsConditionTrue. simpl.
  destruct cond; simpl; rewrite ?is_condition_true_set, ?is_condition_true_set_ne by done; done.
Qed.

Section spec.
Context {W : Type} `{GR : GoRuntime W} `{GS : GoSort} `{PC : PromotionCluster W}
  `{CC : ConfigController W} `{SC : SamsahaiController W}.
Context `{KVA : KView W ActivePromotion} `{KLA : !KClientLaws W ActivePromotion}.
Context `{PF : !PromotionFrame W (kview ActivePromotion)}.
Context (configs : SamsahaiConfig) (zone : Z).

Notation store := (gmap (string * string) ActivePromotion).
Notation view s := (kview ActivePromotion (fst s)).

(** ** Rules for the parts of a handler *)

Lemma wp_set_state st msg s V c (Q : outcome unit -> W * ActivePromotion -> Prop) :
  view s = V -> ctl (snd s) = c ->
  (forall s', view s' = V -> ctl (snd s') = c <| ct_state := st |> -> Q (Ok tt) s') ->
  wp (set_state st msg) s Q.
Proof.
  intros Hv Hc HQ. unfold set_state. wp_step. apply wp_onW, wp_frame with (v := kview ActivePromotion);
    [apply _|]. intros r w' Hr Hw. unfold now in Hr. destruct (rt_now (fst s)). simplify_eq.
  wp_step. apply HQ; simpl; [done|]. apply ctl_set_state.
Qed.

Lemma wp_set_cond cond status msg s V c (Q : outcome unit -> W * ActivePromotion -> Prop) :
  view s = V -> ctl (snd s) = c ->
  (forall s', view s' = V -> ctl (snd s') = ctl_cond cond status c -> Q (Ok tt) s') ->
  wp (set_cond cond status msg) s Q.
Proof.
  intros Hv Hc HQ. unfold set_cond. wp_step. apply wp_onW, wp_frame with (v := kview ActivePromotion);
    [apply _|]. intros r w' Hr Hw. unfold now in Hr. destruct (rt_now (fst s)). simplify_eq.
  unfold set_status. wp_step. apply HQ; [done|]. apply ctl_set_cond.
Qed.

Lemma wp_set_result res s V c (Q : outcome unit -> W * ActivePromotion -> Prop) :
  view s = V -> ctl (snd s) = c ->
  (forall s', view s' = V -> ctl (snd s') = c <| ct_result := res |> -> Q (Ok tt) s') ->
  wp (set_status (SetResult res)) s Q.
Proof. intros <- <- HQ. unfold set_status. wp_step. by apply HQ. Qed.

(** A part of the status that the control does not read. *)
Lemma neutral_status f :
  (forall a, ctl (a <| atp_Status ::= f |>) = ctl a) ->
  Preserves (set_status f) (of_both (kview ActivePromotion) ctl).
Proof. intros. by apply mod_obj_both. Qed.

#[export] Instance on_status_neutral {A} (m : M (W * ActivePromotionStatus) A) :
  Preserves m (of_both (kview ActivePromotion) (fun s => (ast_State s, ast_Result s, ast_Conditions s))) ->
  Preserves (on_status m) (of_both (kview ActivePromotion) ctl).
Proof.
  intros Hm [w a]. specialize (Hm (w, atp_Status a)). unfold on_status, of_both in *. simpl in *.
  destruct (m (w, atp_Status a)) as [r [w' st']]. simpl in *.
  apply pair_equal_spec in Hm as [H1 H2]. apply pair_equal_spec in H2 as [H2 H3].
  apply pair_equal_spec in H2 as [H2 H4].
  unfold ctl, AtpIsConditionTrue. simpl. by rewrite H1, H2, H3, H4.
Qed.

#[export] Instance outdated_neutral :
  Preserves (setOutdatedDuration zone) (of_both (kview ActivePromotion) ctl).
Proof.
  unfold setOutdatedDuration, Outdated.New. preserves. intros. apply on_status_neutral.
  by apply SetOutdatedDuration_both.
Qed.
End spec.

(** Symbolic execution of a handler: [view] and [ctl] of the state are kept as two
    hypotheses about the current state. *)
Ltac ctl_step :=
  lazy beta iota;
  lazymatch goal with
  | |- wp (set_state _ _) _ _ => eapply wp_set_state; [eassumption..|intros ???]
  | |- wp (set_cond _ _ _) _ _ => eapply wp_set_cond; [eassumption..|intros ???]
  | |- wp (set_status (SetResult _)) _ _ => eapply wp_set_result; [eassumption..|intros ???]
  | |- wp (set_status _) _ _ =>
      eapply (wp_keeps ctl); [by apply neutral_status|eassumption..|intros [[]|?|?] ???]
  | |- wp (mbind _ _) _ _ => apply wp_bind
  | |- wp (attempt _) _ _ => apply wp_attempt
  | |- wp (mret _) _ _ => apply wp_ret
  | |- wp (throw _) _ _ => apply wp_throw
  | |- wp get_obj _ _ => apply wp_get_obj
  | |- wp (let x := _ in _) _ _ => cbv zeta
  | |- wp (match ?x with _ => _ end) _ _ => destruct x eqn:?
  | |- wp (onW (match ?x with _ => _ end)) _ _ => destruct x eqn:?
  | |- wp _ _ _ => eapply (wp_keeps ctl); [apply _|eassumption..|intros [?|?|?] ???]
  end.

(** What the code asks about an object is what the control says. *)
Lemma rejected_ctl a c :
  ctl a = c -> IsActivePromotionFailure a || IsActivePromotionCanceled a = true <-> rejected (ct_result c).
Proof.
  intros <-. unfold IsActivePromotionFailure, IsActivePromotionCanceled, rejected.
  by rewrite orb_true_iff, !bool_decide_eq_true.
Qed.
Lemma no_downtime_ctl a c : ctl a = c -> no_downtime a = promote_first c.
Proof. by intros <-. Qed.

(** Read the conditions of the branches off the control. *)
Ltac ctl_facts :=
  repeat match goal with
  | H : no_downtime ?a = _, E : ctl ?a = _ |- _ => rewrite (no_downtime_ctl _ _ E) in H
  | H : IsActivePromotionFailure ?a || IsActivePromotionCanceled ?a = true, E : ctl ?a = _ |- _ =>
      apply (rejected_ctl _ _ E) in H
  | H : IsActivePromotionFailure ?a || IsActivePromotionCanceled ?a = false, E : ctl ?a = ?c |- _ =>
      assert (~ rejected (ct_result c)) by (rewrite <- (rejected_ctl _ _ E), H; done); clear H
  end.

Ltac ctl_end :=
  match goal with H : ctl ?a = _ |- step _ _ _ (ctl ?a) => rewrite H end.

Section moves.
Context {W : Type} `{GR : GoRuntime W} `{GS : GoSort} `{PC : PromotionCluster W}
  `{CC : ConfigController W} `{SC : SamsahaiController W}.
Context `{KVA : KView W ActivePromotion} `{KLA : !KClientLaws W ActivePromotion}.
Context `{PF : !PromotionFrame W (kview ActivePromotion)}.
Context (configs : SamsahaiConfig) (zone : Z) (retries : Z) (orphaned : Prop).

Notation view s := (kview ActivePromotion (fst s)).
Notation move := (step retries orphaned).

(** The call stores no promotion, and when it succeeds the control of the object at
    hand has made one transition. *)
Definition moves {A} (h : Handler A) (s : W * ActivePromotion) : Prop :=
  wp h s (fun r s' => view s' = view s /\
    match r with Ok _ => move (ctl (snd s)) (ctl (snd s')) | _ => True end).

Ltac ctl_start h :=
  unfold moves;
  match goal with |- context [wp _ ?s _] =>
    let V := fresh "V" in let c := fresh "c" in
    remember (view s) as V eqn:HV; remember (ctl (snd s)) as c eqn:Hc; symmetry in HV, Hc end;
  intros Hs; unfold h; repeat ctl_step; (split; [assumption|]); try done.
Lemma deploy_moves s :
  ct_state (ctl (snd s)) = ActivePromotionDeployingComponents ->
  moves deployComponentsToTargetNamespace s.
Proof.
  ctl_start @deployComponentsToTargetNamespace; ctl_end.
  - by apply step_deployed.
  - by apply step_deploy_failed.
Qed.

Lemma test_moves s :
  ct_state (ctl (snd s)) = ActivePromotionTestingPreActive -> moves testPreActiveEnvironment s.
Proof.
  ctl_start @testPreActiveEnvironment; ctl_end.
  - by apply step_tested.
  - by apply step_test_failed.
Qed.

Lemma same_verified c : c <| ct_verified := ct_verified c |> = c.
Proof. by destruct c. Qed.
Lemma step_reject_same c :
  ct_state c = ActivePromotionCollectingPreActiveResult -> rejected (ct_result c) ->
  move c (c <| ct_promoted := false |> <| ct_state := ActivePromotionDestroyingPreActive |>).
Proof.
  intros Hs Hr. pose proof (step_reject retries orphaned c (ct_verified c) Hs Hr (fun h => h)) as H.
  by rewrite same_verified in H.
Qed.
Lemma step_accept_as c v b :
  ct_state c = ActivePromotionCollectingPreActiveResult -> ~ rejected (ct_result c) ->
  (ct_verified c = true -> v = true) -> promote_first c = b ->
  move c (c <| ct_verified := v |>
            <| ct_state := if b then ActivePromotionActiveEnvironment else ActivePromotionDemoting |>).
Proof. intros Hs Hr Hv <-. by apply step_accept. Qed.
Lemma step_accept_same c b :
  ct_state c = ActivePromotionCollectingPreActiveResult -> ~ rejected (ct_result c) ->
  promote_first c = b ->
  move c (c <| ct_state := if b then ActivePromotionActiveEnvironment else ActivePromotionDemoting |>).
Proof.
  intros Hs Hr Hb. pose proof (step_accept_as c (ct_verified c) b Hs Hr (fun h => h) Hb) as H.
  by rewrite same_verified in H.
Qed.

Lemma collect_moves s :
  ct_state (ctl (snd s)) = ActivePromotionCollectingPreActiveResult -> moves collectResult s.
Proof.
  ctl_start @collectResult; ctl_end; ctl_facts.
  all: first [ by apply (step_reject _ _ _ true) | by apply step_reject_same
             | by apply (step_accept_as _ true true) | by apply (step_accept_as _ true false)
             | by apply (step_accept_same _ true) | by apply (step_accept_same _ false) ].
Qed.

#[export] Instance random_token_neutral {S V} (v : S -> V) l seed :
  Preserves (randomToken (W:=W) (S:=S) l seed) v.
Proof.
  unfold randomToken. apply bind_preserves; [|apply _]. generalize (seq 0 l) as js.
  induction js as [|j js IH]; cbn [mapM]; apply _.
Qed.
#[export] Instance copy_neutral base target :
  Preserves (copyStableComponentObjectsToTargetNamespace base target)
    (of_both (kview ActivePromotion) ctl).
Proof.
  unfold copyStableComponentObjectsToTargetNamespace. preserves.
Qed.

Lemma create_moves s :
  ct_state (ctl (snd s)) = ActivePromotionCreatingPreActive ->
  moves createPreActiveEnvAndDeployStableCompObjects s.
Proof.
  ctl_start @createPreActiveEnvAndDeployStableCompObjects; ctl_end.
  by apply step_created.
Qed.

Lemma destroy_previous_moves s :
  ct_state (ctl (snd s)) = ActivePromotionDestroyingPreviousActive ->
  moves destroyPreviousActiveEnvironment s.
Proof. ctl_start @destroyPreviousActiveEnvironment; ctl_end. apply step_finished. by left. Qed.

Lemma destroy_pre_moves s :
  ct_state (ctl (snd s)) = ActivePromotionDestroyingPreActive -> moves destroyPreActiveEnvironment s.
Proof. ctl_start @destroyPreActiveEnvironment; ctl_end. apply step_finished. by right; left. Qed.
End moves.

(** ** Stored promotions *)

#[export] Instance promotion_evolution retries orphaned : Evolution ctl (step retries orphaned) :=
  {| ev_key := ct_key; ev_ctl_key (a : ActivePromotion) := eq_refl : kkey a = ct_key (ctl a); ev_move_key := step_key retries orphaned |}.
Lemma ctl_kkey a : kkey a = ct_key (ctl a).
Proof. done. Qed.

Section stored.
Context {W : Type} `{GR : GoRuntime W} `{GS : GoSort} `{PC : PromotionCluster W}
  `{CC : ConfigController W} `{SC : SamsahaiController W}.
Context `{KVA : KView W ActivePromotion} `{KLA : !KClientLaws W ActivePromotion}.
Context `{PF : !PromotionFrame W (kview ActivePromotion)}.
Context (configs : SamsahaiConfig) (zone : Z) (retries : Z) (orphaned : Prop).

Notation store := (gmap (string * string) ActivePromotion).
Notation view s := (kview ActivePromotion (fst s)).
Notation move := (step retries orphaned).
Notation ahead := (ahead ctl move).
Notation good := (good ctl move).
Implicit Types (V : store) (s : W * ActivePromotion).

Lemma wp_update V s c (Q : outcome unit -> W * ActivePromotion -> Prop) :
  ahead V s -> ctl (snd s) = c ->
  (forall r s', good V (fun _ _ => True) r s' -> snd s' = snd s -> ctl (snd s') = c -> Q r s') ->
  wp updateActivePromotion s Q.
Proof.
  intros Hs Hc HQ. unfold updateActivePromotion, wrapping. do 4 wp_step.
  eapply (wp_put ctl move); [exact Hs|exact Hc|].
  intros [[]|e|p] s' Hg Ho Hc'; [wp_step; by apply HQ..|by apply HQ].
Qed.

(** A handler that stores nothing itself. *)
Lemma moves_good {A} (h : Handler A) V s :
  ahead V s -> moves retries orphaned h s -> wp h s (good V (fun _ _ => True)).
Proof.
  intros Hs Hm. unfold moves in Hm. eapply wp_mono; [exact Hm|]. cbv beta. intros r s' [Hv Hstep]. pose proof Hs as [He _].
  split; [by rewrite Hv|]. destruct r; [|done..]. split; [|done].
  by_ahead_move; [exact Hs|exact Hv|]. by apply rtc_once.
Qed.

End stored.

(** Run a handler that stores the object: what is left is that the control of the stored
    object has moved by transitions. *)
Ltac good_step :=
  lazy beta iota;
  lazymatch goal with
  | |- wp updateActivePromotion ?s _ =>
      eapply wp_update; [by_ahead_move; [eassumption|congruence|]|eassumption|intros [[]|?|?] ? ? ? ?]
  | |- good _ _ ?V _ (Ok _) ?s =>
      first [ by_good_same; [eassumption|congruence|congruence|cbv beta iota]
            | match goal with H : good _ _ V _ _ s |- _ => split; [apply H|split; [apply H|cbv beta]] end
            | by_good_moved; [eassumption|congruence| |cbv beta] ]
  | |- good _ _ ?V _ _ ?s =>
      first [ match goal with H : good _ _ V _ _ s |- _ => split; [apply H|done] end
            | split; [|done]; match goal with H : ahead _ _ V ?s0 |- _ =>
                let E := fresh in assert (kview ActivePromotion (fst s) = kview ActivePromotion (fst s0)) as E
                  by congruence; rewrite E; apply H end ]
  | |- wp _ _ _ => ctl_step
  end.

(** The control did not move, or it made one transition. *)
Ltac stays := match goal with |- rtc _ ?x ?y => replace y with x by congruence; done end.
Ltac one_step :=
  match goal with H : ctl ?a = _, H' : ctl ?b = _ |- rtc (step _ _) (ctl ?a) (ctl ?b) =>
    rewrite H, H'; apply rtc_once end.

Section handlers.
Context {W : Type} `{GR : GoRuntime W} `{GS : GoSort} `{PC : PromotionCluster W}
  `{CC : ConfigController W} `{SC : SamsahaiController W}.
Context `{KVA : KView W ActivePromotion} `{KLA : !KClientLaws W ActivePromotion}.
Context `{PF : !PromotionFrame W (kview ActivePromotion)}.
Context (configs : SamsahaiConfig) (zone : Z) (retries : Z) (orphaned : Prop).

Notation store := (gmap (string * string) ActivePromotion).
Notation view s := (kview ActivePromotion (fst s)).
Notation move := (step retries orphaned).
Notation ahead := (ahead ctl move).
Notation good := (good ctl move).
Implicit Types (V : store) (s : W * ActivePromotion).

(** Name what is known about the state. *)
Ltac good_start h :=
  intros Hs Hc;
  match goal with H : ctl (snd ?s) = _ |- _ =>
    let V0 := fresh "V0" in let HV := fresh "HV" in remember (view s) as V0 eqn:HV; symmetry in HV end;
  unfold h; repeat good_step.

Lemma runPostActive_good V s c :
  ahead V s -> ctl (snd s) = c -> wp (runPostActive configs zone) s (good V (fun _ c' => c' = c)).
Proof.
  good_start @runPostActive; try stays; try congruence.
Qed.

Lemma step_demoted_as c b :
  ct_state c = ActivePromotionDemoting -> promote_first c = b ->
  move c (c <| ct_state := if b then ActivePromotionDestroyingPreviousActive
                           else ActivePromotionActiveEnvironment |>).
Proof. intros Hs <-. by apply step_demoted. Qed.

(** Make a call with a lemma about it, and go on when it succeeds. *)
Ltac call L :=
  eapply wp_mono; [eapply L; eassumption|]; cbv beta;
  let x := fresh "x" in let s' := fresh "s" in let Hg := fresh "Hg" in
  intros [x|?|?] s' Hg; [destruct Hg as (_ & ? & ?)|split; [apply Hg|done]..];
  assert (exists V1, view s' = V1) as [? ?] by eauto.

Lemma checkDemotionTimeout_good V s c :
  ct_state c = ActivePromotionDemoting -> ahead V s -> ctl (snd s) = c ->
  wp (checkDemotionTimeout configs) s (good V (fun _ c' => c' = c)).
Proof.
  intros Hst. good_start @checkDemotionTimeout; try stays; try congruence.
  ctl_facts. one_step. by apply (step_demoted_as _ false).
Qed.

Lemma demote_good V s c :
  ct_state c = ActivePromotionDemoting -> ahead V s -> ctl (snd s) = c ->
  wp (demoteActiveEnvironment configs) s (good V (fun _ _ => True)).
Proof.
  intros Hst Hs Hc. unfold demoteActiveEnvironment, demoted. wp_step. call checkDemotionTimeout_good.
  repeat good_step.
  all: try done; ctl_facts; one_step;
    first [by apply (step_demoted_as _ true) | by apply (step_demoted_as _ false)].
Qed.

Lemma step_promoted_as c b :
  ct_state c = ActivePromotionActiveEnvironment -> promote_first c = b ->
  move c (c <| ct_result := ActivePromotionSuccess |> <| ct_promoted := true |>
            <| ct_state := if b then ActivePromotionDemoting
                           else ActivePromotionDestroyingPreviousActive |>).
Proof. intros Hs <-. by apply step_promoted. Qed.

Lemma promote_good V s c :
  ct_state c = ActivePromotionActiveEnvironment -> ahead V s -> ctl (snd s) = c ->
  wp (promoteActiveEnvironment configs zone) s (good V (fun _ _ => True)).
Proof.
  intros Hst. good_start @promoteActiveEnvironment.
  all: try done.
  all: try (eapply wp_mono;
    [ eapply runPostActive_good; [by_ahead_move; [eassumption|congruence|]|reflexivity]
    | intros r s'' Hg; by eapply good_weaken; [|exact Hg]]); ctl_facts; one_step;
    first [by apply (step_promoted_as _ true) | by apply (step_promoted_as _ false)
          | by apply step_promote_failed].
Qed.

#[local] Instance destroy_for_rollback_neutral :
  Preserves destroyPreActiveEnvironmentForRollback (of_both (kview ActivePromotion) ctl).
Proof.
  intros s. apply (wp_elim _ _ (fun _ s' => of_both _ ctl s' = of_both _ ctl s)).
  unfold destroyPreActiveEnvironmentForRollback, of_both.
  assert (exists V, view s = V) as [V HV] by eauto. assert (exists c, ctl (snd s) = c) as [c Hc] by eauto.
  repeat ctl_step; simpl in *; congruence.
Qed.
#[local] Instance both_neutral (first second : Handler unit) :
  Preserves first (of_both (kview ActivePromotion) ctl) ->
  Preserves second (of_both (kview ActivePromotion) ctl) ->
  Preserves (both first second) (of_both (kview ActivePromotion) ctl).
Proof.
  intros. unfold both. apply bind_preserves; [apply _|intros r1].
  apply bind_preserves; [apply _|intros r2]. destruct r1, r2; apply _.
Qed.
#[local] Instance demote_and_destroy_neutral :
  Preserves (demoteAndDestroyPreActive configs) (of_both (kview ActivePromotion) ctl).
Proof. unfold demoteAndDestroyPreActive. preserves. Qed.

Lemma checkRollbackTimeout_good V s c :
  ct_state c = ActivePromotionRollback -> ahead V s -> ctl (snd s) = c ->
  wp (checkRollbackTimeout configs) s (good V (fun _ c' => c' = c)).
Proof.
  intros Hst. good_start @checkRollbackTimeout; try congruence.
  one_step. apply step_finished. by right; right.
Qed.

Lemma rollback_good V s c :
  ct_state c = ActivePromotionRollback -> ahead V s -> ctl (snd s) = c ->
  wp (rollbackActiveEnvironment configs) s (good V (fun _ _ => True)).
Proof.
  intros Hst Hs Hc. unfold rollbackActiveEnvironment, rePromoteCurrentActive. wp_step. call checkRollbackTimeout_good.
  repeat good_step.
  all: try done; one_step; apply step_finished; by right; right.
Qed.

Lemma setup_moves s :
  ct_state (ctl (snd s)) = ActivePromotionNew -> moves retries orphaned (setup configs) s.
Proof.
  intros Hst. unfold moves.
  remember (view s) as V eqn:HV; remember (ctl (snd s)) as c eqn:Hc; symmetry in HV, Hc.
  unfold setup. wp_step. wp_step. ctl_step. ctl_step; [|done..].
  (* the duration *)
  wp_step. apply (wp_mono _ _ (fun r s1 => r = Ok tt /\ view s1 = V /\ ctl (snd s1) = c)).
  { destruct (as_TearDownDuration _); [by wp_step|]. cbv zeta. by wp_step. }
  intros r s1 (-> & HV1 & Hc1).
  (* the order of demotion and promotion *)
  wp_step. apply (wp_mono _ _ (fun r s2 => r = Ok tt /\ view s2 = V /\
    exists nd, ctl (snd s2) = c <| ct_no_downtime := nd |> /\
      (forall b, ct_no_downtime c = Some b -> nd = Some b))).
  { assert (c = c <| ct_no_downtime := ct_no_downtime c |>) as Hsame by by destruct c.
    assert (ct_no_downtime c = as_NoDowntimeGuarantee (atp_Spec (snd s))) as Hnd by by subst c.
    destruct (as_NoDowntimeGuarantee _) as [b|], (used_promotion a) as [cfg|]; wp_step;
      (split; [done|]); (split; [done|]).
    1-2,4: exists (ct_no_downtime c); rewrite Hnd in *; by rewrite <- Hsame.
    exists (Some (ca_NoDowntimeGuarantee cfg)). split; [by rewrite <- Hc1|]. by rewrite Hnd. }
  intros r s2 (-> & HV2 & nd & Hc2 & Hnd).
  wp_step. wp_step. wp_step. wp_step.
  assert (as_NoDowntimeGuarantee (atp_Spec (snd s2)) = nd) as -> by (by injection Hc2).
  destruct nd as [b|]; [|done].
  wp_step. wp_step. eapply wp_set_state; [exact HV2|reflexivity|]. intros s3 HV3 Hc3. split; [done|].
  rewrite Hc3. unfold appendStateLabel. unfold ctl at 1. simpl. rewrite lookup_insert_eq.
  change (move c (((ctl (snd s2)) <| ct_label := Some stateWaiting |>) <| ct_state := ActivePromotionWaiting |>)).
  rewrite Hc2. apply step_setup; [done|]. intros b' Hb'. apply Hnd in Hb'. congruence.
Qed.
End handlers.

(** ** The whole reconciliation *)

Section reconcile.
Context {W : Type} `{GR : GoRuntime W} `{GS : GoSort} `{PC : PromotionCluster W}
  `{CC : ConfigController W} `{SC : SamsahaiController W}.
Context `{KVA : KView W ActivePromotion} `{KLA : !KClientLaws W ActivePromotion}.
Context `{PF : !PromotionFrame W (kview ActivePromotion)}.
Context `{KVT : KView W Team} `{KLT : !KClientLaws W Team}.
Context `{RFT : !RuntimeFrame W (kview Team)} `{KFT : !KFrame W ActivePromotion (kview Team)}.
Context (configs : SamsahaiConfig) (zone : Z) (retries : Z) (orphaned : Prop).
(** No configuration allows more than [retries] retries. *)
Context (retries_default : forall m, ac_MaxRetry (s2h_ActivePromotion configs) = Some m -> m <= retries)
  (retries_used : forall team w config w', cfg_Get team w = (Ok config, w') ->
     forall m, used_promotion config ≫= ca_MaxRetry = Some m -> m <= retries).

Notation store := (gmap (string * string) ActivePromotion).
Notation view s := (kview ActivePromotion (fst s)).
Notation move := (step retries orphaned).
Notation ahead := (ahead ctl move).
Notation good := (good ctl move).
Notation evolves := (evolves ctl move).
Implicit Types (V : store) (s : W * ActivePromotion).

(** *** Reads and deletions of promotions *)

#[local] Instance get_promotion_neutral key :
  Preserves (k_get ActivePromotion key) (kview (W:=W) ActivePromotion).
Proof. apply get_own_preserves. Qed.

Lemma ctl_mark t a : ctl (kmark t a) = ctl a.
Proof. unfold kmark, atp_mark, ctl, kkey, kns, kname, kmeta, atp_object, mark_deleted. simpl. by case_match. Qed.

Lemma wp_delete_promotion V s c :
  ahead V s -> ctl (snd s) = c -> wp deleteActivePromotion s (good V (fun _ c' => c' = c)).
Proof.
  intros [He Ha] Hc. unfold deleteActivePromotion. wp_step. wp_step. wp_step. wp_step.
  apply wp_onW, run_wp. intros r w' Hdel.
  pose proof (k_delete_law (snd s) (fst s)) as Hl. rewrite Hdel in Hl.
  destruct r as [[]|e|p]; [|destruct Hl as [_ Hw]|done].
  - destruct Hl as (y & Hy & Hgone & Hmark). wp_step.
    assert (kview ActivePromotion w' = delete (kkey (snd s)) (view s) \/
      exists t, kview ActivePromotion w' = <[kkey (snd s) := kmark t y]> (view s)) as Hw.
    { destruct (decide (om_Finalizers (kmeta y) = [])); [left|right]; auto. }
    destruct Hw as [Hw|[t Hw]]; split; try split; try split; simpl; rewrite ?Hw; try done.
    + intros k a [_ Hk]%lookup_delete_Some. by apply He.
    + intros k a [_ Hk]%lookup_delete_Some. by apply He.
    + intros a. by rewrite lookup_delete_eq.
    + intros k a [[<- <-]|[_ Hk]]%lookup_insert_Some; [|by apply He]. rewrite ctl_mark. by apply He.
    + intros k a [[<- <-]|[_ Hk]]%lookup_insert_Some; [|by apply He]. rewrite ctl_mark. by apply He.
    + intros a. rewrite lookup_insert_eq. intros [= <-]. rewrite ctl_mark. by apply Ha.
  - destruct (IsNotFound e); wp_step; split; try split; try split; simpl; rewrite ?Hw; done.
Qed.

Lemma removeFinalizer_good V s c :
  ct_state c = ActivePromotionFinished \/ orphaned -> ahead V s -> ctl (snd s) = c ->
  wp removeFinalizerObject s (good V (fun _ _ => True)).
Proof.
  intros Hrel Hs Hc. assert (exists V0, view s = V0) as [V0 HV] by eauto.
  unfold removeFinalizerObject, wrapping. wp_step. wp_step. ctl_step. ctl_step.
  assert (forall r : error + ActivePromotion, forall s', view s' = V0 -> ctl (snd s') = c ->
    wp (if match r with inl err => IsNotFound err | inr _ => false end then mret tt else
        if ContainsString (om_Finalizers (atp_Meta (snd s))) activePromotionFinalizer then
          run mod_obj (fun a => a <| atp_Meta ::= fun m =>
            m <| om_Finalizers ::= fun l => RemoveString l activePromotionFinalizer |> |>);
          wrapping ("cannot remove finalizer of activepromotion " +:+ kname (snd s)) updateActivePromotion
        else mret tt) s' (good V (fun _ _ => True))) as Hrest.
  { intros r s' Hv' Hc'.
    destruct (match r with inl err => IsNotFound err | inr _ => false end); [repeat good_step; done|].
    destruct (ContainsString _ _); [|repeat good_step; done].
    wp_step. wp_step. unfold wrapping. wp_step. wp_step.
    eapply (wp_update retries orphaned); [by_ahead_move; [exact Hs|simpl; congruence|]|reflexivity|].
    - simpl. rewrite Hc. replace (ctl _) with (c <| ct_held := false |>).
      + apply rtc_once. destruct Hrel; [by apply step_released|by apply step_orphaned].
      + subst c. rewrite <- Hc'. unfold ctl. simpl. by rewrite contains_removed.
    - intros [[]|e|p] s'' Hg Hobj Hc''; wp_step || idtac; split; try apply Hg; try (split; [apply Hg|]); done. }
  ctl_step; [by apply (Hrest (inr a))|by apply (Hrest (inl e))|repeat good_step].
Qed.

Ltac good_start h :=
  intros Hs Hc;
  match goal with H : ctl (snd ?s) = _ |- _ =>
    let V0 := fresh "V0" in let HV := fresh "HV" in remember (view s) as V0 eqn:HV; symmetry in HV end;
  unfold h; repeat good_step.
Ltac call L :=
  eapply wp_mono; [eapply L; eassumption|]; cbv beta;
  let x := fresh "x" in let s' := fresh "s" in let Hg := fresh "Hg" in
  intros [x|?|?] s' Hg; [destruct Hg as (_ & ? & ?)|split; [apply Hg|done]..];
  assert (exists V1, view s' = V1) as [? ?] by eauto.

(** *** Timeout and cancellation *)

Lemma abort_as c c' r p :
  stateCannotBeTimeoutOrCancel (ct_state c) = false -> rejected r -> (p = true -> ct_promoted c = true) ->
  c' = c <| ct_result := r |> <| ct_promoted := p |>
         <| ct_state := if ct_verified c then ActivePromotionRollback
                        else ActivePromotionCollectingPreActiveResult |> ->
  move c c'.
Proof. intros Hs Hr Hp ->. by apply step_abort. Qed.
Lemma verified_ctl a c : ctl a = c -> isToRollbackState a = ct_verified c.
Proof. by intros <-. Qed.
Lemma state_ctl a c : ctl a = c -> ast_State (atp_Status a) = ct_state c.
Proof. by intros <-. Qed.

Lemma checkTimeout_good V s c :
  ahead V s -> ctl (snd s) = c ->
  wp (checkActivePromotionTimeout configs) s (good V (fun _ c' => c' = c)).
Proof.
  good_start @checkActivePromotionTimeout; try congruence.
  all: match goal with H : isToRollbackState ?a = _, E : ctl ?a = _ |- _ => rewrite (verified_ctl _ _ E) in H end.
  all: match goal with H : stateCannotBeTimeoutOrCancel (ast_State (atp_Status ?a)) = false, E : ctl ?a = _ |- _ =>
         rewrite (state_ctl _ _ E) in H end.
  all: one_step.
  - apply (abort_as _ _ ActivePromotionFailure false); [done|by left|done|].
    destruct c; simpl in *; by subst.
  - apply (abort_as _ _ ActivePromotionFailure (ct_promoted c)); [done|by left|done|].
    destruct c; simpl in *; by subst.
Qed.

(** *** The retry *)

Lemma wp_max_retry team s V c (Q : outcome Z -> W * ActivePromotion -> Prop) :
  view s = V -> ctl (snd s) = c ->
  (forall m s', m <= retries -> view s' = V -> ctl (snd s') = c -> snd s' = snd s -> Q (Ok m) s') ->
  (forall r s', (forall m, r <> Ok m) -> view s' = V -> ctl (snd s') = c -> Q r s') ->
  wp (onW (getMaxActivePromotionRetry configs team)) s Q.
Proof.
  intros Hv Hc HQ HE. apply wp_onW. apply (wp_preserve (kview ActivePromotion)); [apply _|].
  unfold getMaxActivePromotionRetry, used_or. wp_step. wp_step. wp_step. apply run_wp.
  intros [config|e|p] w' Hget; wp_step || idtac.
  - assert (forall m, default (ac_MaxRetry (s2h_ActivePromotion configs))
      (used_promotion config ≫= (fun c => Some <$> ca_MaxRetry c)) = Some m -> m <= retries) as Hm.
    { intros m. pose proof (retries_used _ _ _ _ Hget) as Hu.
      destruct (used_promotion config) as [cfg|]; simpl in *; [|apply retries_default].
      destruct (ca_MaxRetry cfg); simpl in *; [|apply retries_default]. intros [= <-]. auto. }
    wp_step. destruct (default _ _) as [m|]; intros Hw.
    + apply HQ; [by apply Hm|simpl; congruence|done|done].
    + apply HE; [done|simpl; congruence|done].
  - wp_step. destruct (ac_MaxRetry _) as [m|] eqn:Hd; intros Hw.
    + apply HQ; [by apply retries_default|simpl; congruence|done|done].
    + apply HE; [done|simpl; congruence|done].
  - intros Hw. apply HE; [done|simpl; congruence|done].
Qed.

Lemma checkRetry_good V s c :
  ct_state c = ActivePromotionFinished -> ahead V s -> ctl (snd s) = c ->
  wp (checkRetryQueue configs) s (good V (fun b c' => b = false -> c' = c)).
Proof.
  intros Hst Hs Hc. assert (exists V0, view s = V0) as [V0 HV] by eauto.
  unfold checkRetryQueue. wp_step. wp_step. ctl_step; [|by repeat good_step].
  apply andb_true_iff in Heqb as [_ Hfail]. apply bool_decide_eq_true in Hfail.
  assert (ct_result c = ActivePromotionFailure) as Hres by by rewrite <- Hc.
  wp_step. apply wp_max_retry with (V := V0) (c := c); [done..| |].
  - intros m s1 Hm HV1 Hc1 Hobj. lazy beta iota.
    destruct (as_NoOfRetry (atp_Spec (snd s)) <? m) eqn:Hlt; [|repeat good_step; by intros _].
    apply Z.ltb_lt in Hlt. wp_step. wp_step. unfold setRetryQueue, set_status. wp_step. wp_step.
    apply wp_onW, wp_frame with (v := kview ActivePromotion); [apply _|]. intros [t|e|p] w2 Hnow Hw2;
      unfold now in Hnow; destruct (rt_now _); simplify_eq. wp_step. wp_step.
    eapply (wp_update retries orphaned); [by_ahead_move; [exact Hs|simpl in *; congruence|]|reflexivity|].
    + match goal with |- rtc _ _ ?y => replace y with ((ctl (snd s)) <| ct_retry ::= fun n => int_add n 1 |>
        <| ct_state := ActivePromotionNew |> <| ct_result := NoResult |>
        <| ct_verified := false |> <| ct_promoted := false |>) by (simpl; by rewrite Hobj) end.
      apply rtc_once, step_retry; [done..|]. simpl. lia.
    + intros [[]|e|p] s3 Hg _ _; [wp_step|..]; split; try apply Hg; try (split; [apply Hg|]); done.
  - intros r s1 Hr HV1 Hc1. destruct r as [m|e|p]; [by destruct (Hr m)|..]; repeat good_step.
Qed.

Lemma teardown_good V s c :
  ahead V s -> ctl (snd s) = c -> wp (teardown configs zone) s (good V (fun _ c' => c' = c)).
Proof.
  good_start @teardown.
  all: eapply runPostActive_good; [by_ahead_move; [eassumption|congruence|stays]|assumption].
Qed.

Lemma finish_good V s c :
  ct_state c = ActivePromotionFinished -> ahead V s -> ctl (snd s) = c ->
  wp (finish_promotion configs zone) s (good V (fun b c' => b = false -> c' = c)).
Proof.
  intros Hst Hs Hc. unfold finish_promotion. wp_step. call teardown_good. wp_step.
  eapply wp_mono; [eapply checkRetry_good; [|eassumption..]; congruence|]. cbv beta.
  intros [b|e|p] s1 Hg; [|split; [apply Hg|done]..]. destruct Hg as (_ & Hs1 & Hb).
  destruct b; [wp_step; split; [apply Hs1|by split]|]. specialize (Hb eq_refl).
  wp_step. wp_step. destruct (time_is_zero _); [|wp_step; split; [apply Hs1|by split]].
  wp_step. eapply wp_mono; [eapply wp_delete_promotion; [exact Hs1|exact Hb]|].
  intros [[]|e|p] s2 Hg; [wp_step; split; [apply Hg|]; split; [apply Hg|done]|split; [apply Hg|done]..].
Qed.

Lemma cancel_good V s c :
  ahead V s -> ctl (snd s) = c ->
  wp cancel_promotion s (good V (fun b c' => b = false -> c' = c)).
Proof.
  intros Hs Hc. assert (exists V0, view s = V0) as [V0 HV] by eauto.
  unfold cancel_promotion. wp_step. wp_step.
  destruct (bool_decide (ast_State _ = ActivePromotionFinished)) eqn:Hfin.
  { apply bool_decide_eq_true in Hfin. wp_step.
    eapply wp_mono; [eapply removeFinalizer_good; [|exact Hs|exact Hc]; left; by rewrite <- Hc|].
    intros [[]|e|p] s2 Hg; [wp_step; split; [apply Hg|]; split; [apply Hg|done]|split; [apply Hg|done]..]. }
  repeat good_step; try (by intros _); try done.
  all: match goal with H : isToRollbackState ?a = _, E : ctl ?a = _ |- _ => rewrite (verified_ctl _ _ E) in H end.
  all: match goal with H : stateCannotBeTimeoutOrCancel (ast_State (atp_Status ?a)) = false, E : ctl ?a = _ |- _ =>
         rewrite (state_ctl _ _ E) in H end.
  all: one_step.
  - apply (abort_as _ _ ActivePromotionCanceled false); [done|by right|done|].
    destruct c; simpl in *; by subst.
  - apply (abort_as _ _ ActivePromotionCanceled false); [done|by right|done|].
    destruct c; simpl in *; by subst.
Qed.

Lemma deleteFinalizer_good V s c :
  ahead V s -> ctl (snd s) = c ->
  wp (deleteFinalizerWhenFinished configs zone) s (good V (fun b c' => b = false -> c' = c)).
Proof.
  intros Hs Hc. unfold deleteFinalizerWhenFinished. wp_step. wp_step. wp_step.
  apply (wp_mono _ _ (good V (fun b c' => b = false -> c' = c))).
  - destruct (bool_decide _) eqn:Hfin; [|wp_step; split; [apply Hs|by split]].
    apply bool_decide_eq_true in Hfin. eapply finish_good; [|exact Hs|exact Hc]. by rewrite <- Hc.
  - intros [[]|e|p] s1 Hg; [|destruct Hg as (_ & Hs1 & Hc1)|split; [apply Hg|done]..].
    { wp_step. split; [apply Hg|]. split; [apply Hg|done]. }
    wp_step. wp_step. destruct (_ && _); [|wp_step; split; [apply Hs1|by split]].
    by apply cancel_good; [|apply Hc1].
Qed.

Lemma force_delete_good V s c :
  orphaned -> ahead V s -> ctl (snd s) = c ->
  wp forceDeleteActivePromotion s (good V (fun _ _ => True)).
Proof.
  intros Ho Hs Hc. unfold forceDeleteActivePromotion. wp_step.
  eapply wp_mono; [eapply removeFinalizer_good; [by right|exact Hs|exact Hc]|].
  intros [[]|e|p] s1 Hg; [|split; [apply Hg|done]..].
  eapply wp_mono; [eapply wp_delete_promotion; [apply Hg|reflexivity]|].
  intros r s2 Hg2. by eapply good_weaken; [|exact Hg2].
Qed.

(** *** The queue *)

Lemma ctl_addFinalizer a : exists h,
  ctl (addFinalizer a) = (ctl a) <| ct_held := h |> /\ (ct_held (ctl a) = true -> h = true).
Proof.
  exists (ct_held (ctl (addFinalizer a))). unfold addFinalizer.
  destruct (time_is_zero _); [|by destruct a]. destruct (ContainsString _ _) eqn:Hc; [by destruct a|].
  split; [done|]. simpl. congruence.
Qed.
Lemma ctl_appendStateLabel l a : ctl (appendStateLabel l a) = (ctl a) <| ct_label := Some l |>.
Proof. unfold appendStateLabel, ctl. simpl. by rewrite lookup_insert_eq. Qed.

Lemma wp_mod_ctl f s V c c' (Q : outcome unit -> W * ActivePromotion -> Prop) :
  view s = V -> ctl (snd s) = c -> ctl (f (snd s)) = c' ->
  (forall s', view s' = V -> ctl (snd s') = c' -> Q (Ok tt) s') -> wp (mod_obj f) s Q.
Proof. intros Hv Hc Hc' HQ. wp_step. by apply HQ. Qed.

(** The start of a promotion from the queue. *)
Lemma wp_start (V : store) w first :
  kview ActivePromotion w = V -> V !! kkey first = Some first ->
  om_Labels (atp_Meta first) !! "state" = Some stateWaiting ->
  wp (run mod_obj addFinalizer;
      run set_state ActivePromotionCreatingPreActive "Creating pre-active environment";
      run set_cond ActivePromotionCondStarted ConditionTrue "Active promotion has been started";
      run mod_obj (appendStateLabel stateRunning);
      updateActivePromotion) (w, first)
    (fun r s => evolves V (view s) /\
       ast_State (atp_Status (snd s)) = ActivePromotionCreatingPreActive /\
       om_Labels (atp_Meta (snd s)) !! "state" = Some stateRunning /\ kkey (snd s) = kkey first /\
       (view s = V \/ view s = store_update (snd s) V)).
Proof.
  intros HV Hfirst Hlabel. set (c := ctl first).
  destruct (ctl_addFinalizer first) as (h & Hh & Hheld).
  wp_step. apply wp_mod_ctl with (V := V) (c := c) (c' := c <| ct_held := h |>); [done..|intros s1 HV1 Hc1].
  wp_step. eapply wp_set_state; [exact HV1|exact Hc1|intros s2 HV2 Hc2].
  wp_step. eapply wp_set_cond; [exact HV2|exact Hc2|intros s3 HV3 Hc3].
  wp_step. eapply wp_mod_ctl; [exact HV3|exact Hc3|rewrite ctl_appendStateLabel; by rewrite Hc3|intros s4 HV4 Hc4].
  assert (kkey (snd s4) = kkey first) as Hkey by (rewrite ctl_kkey, Hc4; done).
  assert (ast_State (atp_Status (snd s4)) = ActivePromotionCreatingPreActive) as Hst
    by (rewrite (state_ctl _ _ Hc4); done).
  assert (om_Labels (atp_Meta (snd s4)) !! "state" = Some stateRunning) as Hrun.
  { change (ct_label (ctl (snd s4)) = Some stateRunning). by rewrite Hc4. }
  assert (ahead V s4) as Hs4.
  { split; [rewrite HV4; apply evolves_refl|]. intros a. rewrite HV4, Hkey, Hfirst. intros [= <-].
    rewrite Hc4. apply rtc_once. by apply (step_start _ _ c h). }
  unfold updateActivePromotion, wrapping. wp_step. wp_step. wp_step. wp_step. apply wp_onW, wp_k_update.
  - intros w' Hin Hw'. wp_step. simpl. rewrite Hw'. split_and!; [by eapply ahead_put|done..|].
    right. by rewrite HV4.
  - intros e w' Hw'. wp_step. simpl. rewrite Hw', HV4. split_and!; [apply evolves_refl|done..|]. by left.
Qed.

Lemma manageQueue_evolves a w :
  wp (manageQueue configs a) w (fun r w' =>
    evolves (kview ActivePromotion w) (kview ActivePromotion w') /\
    (r = Ok false -> kview ActivePromotion w' !! kkey a = kview ActivePromotion w !! kkey a)).
Proof.
  assert (evolves (kview ActivePromotion w) (kview ActivePromotion w)) as Hrefl by apply evolves_refl.
  unfold manageQueue, wrapping. wp_step. wp_step. wp_step. apply wp_k_list; [|by intros e w1 Hw1; wp_step; rewrite Hw1].
  intros running w1 _ Hw1. wp_step. lazy beta iota zeta.
  destruct (_ <=? _); [wp_step; by rewrite Hw1|].
  wp_step. wp_step. wp_step. apply wp_k_list; [|by intros e w2 Hw2; wp_step; rewrite Hw2, Hw1].
  intros waiting w2 Hwaiting Hw2. wp_step. lazy beta iota zeta. rewrite Hw1 in Hw2.
  destruct (_ =? _)%nat; [wp_step; by rewrite Hw2|].
  destruct (0 <? _); [|wp_step; by rewrite Hw2].
  wp_step. wp_step. destruct (SortASC waiting !! 0%nat) as [first|] eqn:Hfirst; [|by rewrite Hw2].
  assert (first ∈ waiting) as Hin.
  { rewrite <- (go_sort_perm AtpLess waiting). by eapply list_elem_of_lookup_2. }
  rewrite Hwaiting, list_elem_of_filter, list_elem_of_fmap in Hin.
  destruct Hin as [[_ Hlabel] ([k first'] & -> & Hk%elem_of_map_to_list)]. simpl in *. rewrite Hw1 in Hk.
  rewrite map_subseteq_spec in Hlabel. specialize (Hlabel "state" stateWaiting (lookup_singleton_eq _ _)).
  pose proof (k_view_keyed _ _ _ Hk) as Hkey.
  wp_step. apply wp_with_obj. eapply wp_mono; [by apply wp_start; [exact Hw2|rewrite Hkey|]|].
  intros [[]|e|p] s1 (He & _ & _ & Hkey1 & Hput); [|by split..]. wp_step. split; [done|].
  intros [= Hne]. apply String.eqb_neq in Hne. destruct Hput as [->| ->]; [done|].
  apply store_update_other. intros Heq. apply Hne. by injection Heq.
Qed.

(** *** The switch over the state *)

(** A reconciliation that goes on has an object that is ahead of the stored one. *)
Definition goes_on V (r : outcome (option Result)) s : Prop :=
  evolves V (view s) /\ (r = Ok None -> ahead V s).

Lemma requeue_goes_on test t (h : Handler unit) V s (P : unit -> control -> Prop) :
  wp h s (good V P) -> wp (requeue_if test t h) s (goes_on V).
Proof.
  intros Hh. unfold requeue_if. wp_step. wp_step. eapply wp_mono; [exact Hh|].
  intros [[]|e|p] s1 [He Hg].
  - wp_step. split; [done|]. intros _. apply Hg.
  - destruct (test e); wp_step; by split.
  - by split.
Qed.

Lemma process_goes_on V s c :
  ahead V s -> ctl (snd s) = c -> wp (process configs zone) s (goes_on V).
Proof.
  intros Hs Hc. assert (evolves V (view s)) as He by apply Hs.
  unfold process. wp_step. wp_step. rewrite (state_ctl _ _ Hc).
  destruct (ct_state c) eqn:Hst; try (wp_step; by split).
  - eapply requeue_goes_on, moves_good; [done|]. apply create_moves. by rewrite Hc.
  - eapply requeue_goes_on, moves_good; [done|]. apply deploy_moves. by rewrite Hc.
  - eapply requeue_goes_on, moves_good; [done|]. apply test_moves. by rewrite Hc.
  - eapply requeue_goes_on, moves_good; [done|]. apply collect_moves. by rewrite Hc.
  - eapply requeue_goes_on. by eapply demote_good.
  - eapply requeue_goes_on. by eapply promote_good.
  - eapply requeue_goes_on, moves_good; [done|]. apply destroy_previous_moves. by rewrite Hc.
  - eapply requeue_goes_on, moves_good; [done|]. apply destroy_pre_moves. by rewrite Hc.
  - wp_step. wp_step. eapply wp_mono; [eapply requeue_goes_on, rollback_good; [exact Hst|done..]|].
    intros [res|e|p] s1 [He1 Hg]; wp_step || idtac; split; done.
  - wp_step. eapply wp_mono; [eapply moves_good; [exact Hs|apply setup_moves; by rewrite Hc]|].
    intros [[]|e|p] s1 [He1 Hg]; [wp_step|..]; split; try done. intros _. apply Hg.
Qed.

Lemma reconcile_object_evolves V s :
  evolves V (view s) -> view s !! kkey (snd s) = Some (snd s) ->
  (kview Team (fst s) !! ("", kname (snd s)) = None -> orphaned) ->
  wp (reconcile_object configs zone) s (fun _ s' => evolves V (view s')).
Proof.
  intros HV Hstored Horphan. unfold reconcile_object. wp_step. wp_step. wp_step.
  apply wp_onW, wp_preserve with (v := kview Team).
  { unfold manageQueue. preserves. }
  eapply wp_mono; [apply manageQueue_evolves|]. intros r w1 [He1 Hsame] Hteam.
  assert (evolves V (kview ActivePromotion w1)) as HV1 by (by eapply evolves_trans).
  destruct r as [[]|e|p]; [by wp_step| |done..]. specialize (Hsame eq_refl).
  assert (ahead V (w1, snd s)) as Hs.
  { split; [done|]. intros a. simpl. rewrite Hsame, Hstored. by intros [= <-]. }
  wp_step. wp_step. unfold getTeam. apply wp_onW, (wp_preserve (kview ActivePromotion)); [apply _|].
  simpl. apply wp_k_get; [intros team w2 _ _ Hw2|intros e w2 Hnone _ Hw2].
  2: destruct (IsNotFound e) eqn:Hnf.
  2: { wp_step. eapply wp_mono; [eapply force_delete_good; [|by_ahead_move; [exact Hs|done|done]|reflexivity]|].
       - apply Horphan. rewrite <- Hteam. by apply Hnone.
       - intros [[]|e'|p] s2 Hg; [wp_step|..]; apply Hg. }
  all: assert (ahead V (w2, snd s)) as Hs2 by (by_ahead_move; [exact Hs|done|done]).
  all: lazy beta iota; rewrite ?Hnf; wp_step; eapply wp_mono; [by eapply deleteFinalizer_good|];
    intros [[]|e'|p] s3 Hg; [wp_step; apply Hg| |apply Hg..]; wp_step; wp_step;
    eapply wp_mono; [eapply checkTimeout_good; [apply Hg|reflexivity]|];
    intros [[]|e''|p] s4 Hg4; [|destruct (IsErrActivePromotionTimeout e''); wp_step; apply Hg4|apply Hg4];
    wp_step; eapply wp_mono; [eapply process_goes_on; [apply Hg4|reflexivity]|];
    intros [[res|]|e''|p] s5 [He5 Hg5]; [by wp_step| |done..];
    wp_step; eapply (wp_update retries orphaned); [by apply Hg5|reflexivity|];
    intros [[]|e''|p] s6 Hg6 _ _; [wp_step|..]; apply Hg6.
Qed.

Lemma Reconcile_evolves V req w :
  evolves V (kview ActivePromotion w) -> (kview Team w !! ("", snd req) = None -> orphaned) ->
  wp (Reconcile configs zone req) w (fun _ w' => evolves V (kview ActivePromotion w')).
Proof.
  intros HV Horphan. unfold Reconcile. wp_step. wp_step.
  apply wp_preserve with (v := kview Team); [apply _|].
  apply wp_k_get; [intros a w1 Ha Hw1 Hteam|intros e w1 _ Hw1 _].
  - wp_step. apply wp_with_obj.
    pose proof (k_view_keyed _ _ _ Ha) as Hkey.
    eapply wp_mono; [eapply (reconcile_object_evolves V); simpl|].
    + by rewrite Hw1.
    + by rewrite Hw1, Hkey.
    + rewrite Hteam. assert (kname a = snd req) as ->; [|done]. by rewrite <- Hkey.
    + intros [res|e|p] s He; [wp_step|..]; done.
  - destruct (IsNotFound e); wp_step; by rewrite Hw1.
Qed.
End reconcile.
