(* ===== verification/TeamFrame.v ===== *)
(** What the calls of the team controller leave alone, and the composition with the
    promotion controller: the team controller keeps a reading of the cluster that its
    clients, its objects and the outside keep; so it does not touch the stored
    promotions, except that it may create the first one of a team together with its
    staging namespace. *)

From S2P Require Import Prelude.
From S2P Require Import GoRuntime.
From S2P Require Import Errors.
From S2P Require Import KubeApi.
From S2P Require Import Frame.
From S2P Require Import ConfigTypes.
From S2P Require Import ComponentTypes.
From S2P Require Import QueueTypes.
From S2P Require Import TeamTypes.
From S2P Require Import AtpTypes.
From S2P Require Import RpcTypes.
From S2P Require Import QueueCtrl.
From S2P Require Import Interfaces.
From S2P Require Import Cleanup.
From S2P Require Import Outdated.
From S2P Require Import AtpCtrl.
From S2P Require Import SamsahaiCtrl.
From S2P Require Import AtpMachine.
From S2P Require Import AtpFrame.
From S2P Require Import AtpSpec.
Open Scope string_scope.
Open Scope list_scope.
Open Scope Z_scope.

(** The objects of an environment and the outside keep the reading [v]. *)
Class OutsideFrame (W O : Type) `{SO : StagingObjects W O, OUT : SamsahaiOutside W} {V : Type} (v : W -> V) : Prop := {
  of_get :: forall o, Preserves (so_get o) v;
  of_create :: forall o, Preserves (so_create o) v;
  of_update :: forall o, Preserves (so_update o) v;
  of_delete :: forall o, Preserves (so_delete o) v;
  of_deployment :: forall t ns configs, Preserves (so_GetDeployment (O:=O) t ns configs) v;
  of_quota :: forall t ns resources, Preserves (so_GetResourceQuota (O:=O) t ns resources) v;
  of_changed :: forall found target, Preserves (so_IsK8sObjectChanged (O:=O) found target) v;
  of_execute :: forall configs cmd ns t, Preserves (out_RenderAndExecute configs cmd ns t) v;
  of_gitlab :: forall url token, Preserves (out_set_gitlab_reporter url token) v;
  of_report :: forall rpt, Preserves (out_NotifyActivePromotionReport rpt) v;
  of_helm ns ref : Preserves (de_Delete (out_helm3 ns) ref) v /\ Preserves (de_ForceDelete (out_helm3 ns) ref) v;
}.

#[export] Instance cluster_object_preserves {W V : Type} {KObjs : forall k, KClient W (KubeObj k)} (v : W -> V) k name :
  KFrame W (KubeObj k) v -> Preserves (destroy_cluster_object k name) v.
Proof. intros. unfold destroy_cluster_object. preserves. Qed.

Section frame.
Context {W O : Type} `{GR : GoRuntime W} `{CC : ConfigController W}.
Context `{KTeam : KClient W Team} `{KStable : KClient W StableComponent} `{KAtp : KClient W ActivePromotion}.
Context `{KConfig : KClient W Config} `{KSecret : KClient W Secret} {KObjs : forall k, KClient W (KubeObj k)}.
Context `{SO : StagingObjects W O} `{OUT : SamsahaiOutside W}.
Context (configs : SamsahaiConfig) (s2h_namespace : string).
Context {V : Type} (v : W -> V) {RF : RuntimeFrame W v} {OF : OutsideFrame W O v}.
Context {FT : KFrame W Team v} {FS : KFrame W StableComponent v} {FSec : KFrame W Secret v}
  {FO : forall k, KFrame W (KubeObj k) v} {FC : forall team, Preserves (cfg_Get team) v}.

Lemma apply_preserves {A} (opt : TeamNamespaceStatusOption) (k : NamespaceInfo -> TeamHandler A) :
  (forall t t' info, opt t = (t', info) -> Preserves (k info) (of_world v)) ->
  Preserves (mbind k (apply_option opt)) (of_world v).
Proof.
  intros Hk [w t]. unfold mbind, M_bind, apply_option. simpl. specialize (Hk t).
  destruct (opt t) as [t' info]. apply (Hk t' info eq_refl (w, t')).
Qed.

#[export] Instance apply_option_preserves opt : Preserves (apply_option opt) (of_world v).
Proof. intros [w t]. unfold apply_option. simpl. by destruct (opt t). Qed.

#[export] Instance team_condition_preserves cond status msg :
  Preserves (set_team_cond cond status msg) (of_world v).
Proof. unfold set_team_cond. preserves. Qed.
#[export] Instance has_condition_preserves cond : Preserves (team_cond cond) (of_world (W:=W) v).
Proof. unfold team_cond. preserves. Qed.
#[export] Instance update_team_preserves : Preserves updateTeam (of_world v).
Proof. unfold updateTeam. preserves. Qed.
#[export] Instance handler_for_each_preserves {X T} (l : list X) (body : X -> M (W * T) unit) :
  (forall x, Preserves (body x) (of_world v)) -> Preserves (for_each l body) (of_world v).
Proof. intros Hb. induction l as [|x l IH]; cbn [for_each]; [by intros []|]. apply bind_preserves; [done|]. by intros. Qed.
#[export] Instance update_namespaces_preserves opts : Preserves (updateTeamNamespacesStatus opts) (of_world v).
Proof.
  unfold updateTeamNamespacesStatus. apply bind_preserves; [|intros; apply _].
  apply handler_for_each_preserves. intros opt. apply apply_preserves. intros t t' info _. by intros [].
Qed.
#[export] Instance PromoteActive_preserves ns by_ comps :
  Preserves (PromoteActiveEnvironment ns by_ comps) (of_world v).
Proof. unfold PromoteActiveEnvironment, storeActiveComponentsToTeam. preserves. Qed.
Lemma set_role_preserves cond role opt ns : Preserves (set_role cond role opt ns) (of_world v).
Proof. unfold set_role. preserves. Qed.

(** ** Creation *)

#[export] Instance staging_ctrl_preserves obj : Preserves (deployStagingCtrl obj) v.
Proof. unfold deployStagingCtrl. preserves. Qed.
#[export] Instance environment_objects_preserves t ns res : Preserves (createEnvironmentObjects configs t ns res) v.
Proof. unfold createEnvironmentObjects. preserves. Qed.
#[export] Instance post_condition_preserves type cond ns msg :
  Preserves (setPostNamespaceCreationCondition type cond ns msg) (of_world v).
Proof. unfold setPostNamespaceCreationCondition. preserves. Qed.
#[export] Instance missing_namespace_preserves ns type :
  Preserves (create_missing_namespace configs ns type) (of_world v).
Proof. unfold create_missing_namespace. preserves. Qed.
#[export] Instance post_creation_preserves ns type : Preserves (post_namespace_creation configs ns type) (of_world v).
Proof. unfold post_namespace_creation, runPostNamespaceCreation, ignore_error. preserves. Qed.

(** Only for the staging namespace there is a first run, which may create a promotion. *)
Lemma create_by_team_preserves opt :
  (forall t, (opt t).2.2 <> TeamNamespaceStagingCreated) ->
  Preserves (createNamespaceByTeam configs opt) (of_world v).
Proof.
  intros Hopt. unfold createNamespaceByTeam. apply apply_preserves. intros t t' [[ns res] type] Heq. specialize (Hopt t). rewrite Heq in Hopt. simpl in Hopt. apply bind_preserves; [preserves|]. intros [e|x]; [preserves|].
  do 4 (apply bind_preserves; [preserves|intros]). rewrite decide_False by done. preserves.
Qed.

Lemma create_namespace_preserves team opt :
  (forall t, (opt t).2.2 <> TeamNamespaceStagingCreated) -> Preserves (createNamespace configs team opt) v.
Proof.
  intros Hopt. unfold createNamespace, fetchTeam. apply bind_preserves; [preserves|]. intros t.
  apply bind_preserves; [|intros []; preserves]. apply with_obj_preserves. unfold create_namespace_of.
  apply apply_preserves. intros t0 t' [[ns res] type] _.
  apply bind_preserves; [|preserves]. apply attempt_preserves. by apply create_by_team_preserves.
Qed.

#[export] Instance CreatePreActive_preserves team ns : Preserves (CreatePreActiveEnvironment configs team ns) v.
Proof. apply create_namespace_preserves. done. Qed.

(** ** Destruction *)

#[export] Instance stables_destroyed_preserves ns : Preserves (destroyAllStableComponents ns) v.
Proof. unfold destroyAllStableComponents. preserves. Qed.
#[export] Instance destroy_one_preserves opt : Preserves (destroy_one opt) (of_world v).
Proof.
  unfold destroy_one, destroyClusterRole, destroyClusterRoleBinding. apply apply_preserves.
  intros t t' [[ns res] type] _. preserves.
Qed.
#[export] Instance destroy_namespace_of_preserves team opt : Preserves (destroyNamespace team opt) v.
Proof.
  unfold destroyNamespace, fetchTeam, destroyNamespaces. preserves.
Qed.

#[export] Instance load_secret_preserves : Preserves (LoadTeamSecret configs s2h_namespace) (of_world v).
Proof. unfold LoadTeamSecret. preserves. Qed.
#[export] Instance deploy_engine_preserves team ns : Preserves (GetActivePromotionDeployEngine team ns) v.
Proof. unfold GetActivePromotionDeployEngine. preserves. Qed.

Lemma deploy_engine_calls team ns w e w' :
  GetActivePromotionDeployEngine team ns w = (Ok e, w') ->
  forall ref, Preserves (de_Delete e ref) v /\ Preserves (de_ForceDelete e ref) v.
Proof.
  unfold GetActivePromotionDeployEngine, mbind, M_bind, attempt.
  destruct (cfg_Get team w) as [[config|err|p] w1]; [| |done].
  - destruct (String.eqb _ _); intros [= <- _] ref; [apply of_helm|split; apply _].
  - intros [= <- _] ref. split; apply _.
Qed.
End frame.

(** ** The composition with the promotion controller *)

(** The team controller gives the promotion controller what it is proved against. *)
Lemma team_promotion_frame {W O : Type} `{GR : GoRuntime W} `{CC : ConfigController W}
    `{PC : PromotionCluster W} `{KConfig : KClient W Config} `{KSecret : KClient W Secret}
    `{SO : StagingObjects W O} `{OUT : SamsahaiOutside W} (configs : SamsahaiConfig) (s2h_namespace : string)
    {V : Type} (v : W -> V) `{RF : !RuntimeFrame W v} `{OF : !OutsideFrame W O v}
    `{FH : !KFrame W ActivePromotionHistory v} `{FT : !KFrame W Team v} `{FQ : !KFrame W Queue v}
    `{FS : !KFrame W StableComponent v} `{FSec : !KFrame W Secret v} `{FO : forall k, KFrame W (KubeObj k) v}
    `{FC : forall team, Preserves (cfg_Get team) v} `{FP : forall team, Preserves (cfg_GetParentComponents team) v} :
  PromotionFrame W (SC := team_controller (O:=O) configs s2h_namespace) v.
Proof.
  split; try apply _; simpl.
  - intros. by eapply deploy_engine_calls.
  - intros. unfold SetPreviousActiveNamespace, SetActiveNamespace. eapply set_role_preserves; try apply _.
  - intros. unfold SetPreviousActiveNamespace, SetActiveNamespace. eapply set_role_preserves; try apply _.
Qed.
