(* ===== verification/AtpSim.v ===== *)
(** A cluster in memory for the promotion controller: stores for the objects it works on,
    one configuration for every team, and a manager of environments that keeps the
    namespaces of a team as [internal/samsahai/controller.go] does.  It satisfies the
    assumptions of the theorems and is the world of their concrete runs. *)

From S2P Require Import Prelude.
From S2P Require Import GoRuntime.
From S2P Require Import Errors.
From S2P Require Import KubeApi.
From S2P Require Import Frame.
From S2P Require Import ConfigTypes.
From S2P Require Import ComponentTypes.
From S2P Require Import QueueTypes.
From S2P Require Import TeamTypes.
From S2P Require Import AtpTypes.
From S2P Require Import RpcTypes.
From S2P Require Import QueueCtrl.
From S2P Require Import Interfaces.
From S2P Require Import Cleanup.
From S2P Require Import Outdated.
From S2P Require Import AtpCtrl.
From S2P Require Import SamsahaiCtrl.
From S2P Require Import AtpMachine.
From S2P Require Import AtpFrame.
From S2P Require Import AtpSpec.
Open Scope string_scope.
Open Scope list_scope.
Open Scope Z_scope.

Record AtpSim := mkAtpSim {
  as_clock : Z;
  as_atps : gmap (string * string) ActivePromotion;
  as_hists : gmap (string * string) ActivePromotionHistory;
  as_teams : gmap (string * string) Team;
  as_queues : gmap (string * string) Queue;
  as_stables : gmap (string * string) StableComponent;
  as_objects : objects;
  as_config : option (option bool);
  as_configs : gmap (string * string) Config;
  as_secrets : gmap (string * string) Secret;
}.
#[export] Instance eta_AtpSim : Eta AtpSim := fun x =>
  mkAtpSim (as_clock x) (as_atps x) (as_hists x) (as_teams x) (as_queues x) (as_stables x)
    (as_objects x) (as_config x) (as_configs x) (as_secrets x).

#[export] Instance asim_clock : HasClock AtpSim :=
  {| clock_get := as_clock; clock_set t w := w <| as_clock := t |> |}.
#[export] Instance asim_atps : HasStore AtpSim ActivePromotion :=
  {| store_get := as_atps; store_set m w := w <| as_atps := m |>; store_get_set _ _ := eq_refl |}.
#[export] Instance asim_hists : HasStore AtpSim ActivePromotionHistory :=
  {| store_get := as_hists; store_set m w := w <| as_hists := m |>; store_get_set _ _ := eq_refl |}.
#[export] Instance asim_teams : HasStore AtpSim Team :=
  {| store_get := as_teams; store_set m w := w <| as_teams := m |>; store_get_set _ _ := eq_refl |}.
#[export] Instance asim_queues : HasStore AtpSim Queue :=
  {| store_get := as_queues; store_set m w := w <| as_queues := m |>; store_get_set _ _ := eq_refl |}.
#[export] Instance asim_stables : HasStore AtpSim StableComponent :=
  {| store_get := as_stables; store_set m w := w <| as_stables := m |>; store_get_set _ _ := eq_refl |}.
#[export] Instance asim_config_store : HasStore AtpSim Config :=
  {| store_get := as_configs; store_set m w := w <| as_configs := m |>; store_get_set _ _ := eq_refl |}.
#[export] Instance asim_secrets : HasStore AtpSim Secret :=
  {| store_get := as_secrets; store_set m w := w <| as_secrets := m |>; store_get_set _ _ := eq_refl |}.
#[export] Program Instance asim_objects k : HasStore AtpSim (KubeObj k) := {|
  store_get w := as_objects w k;
  store_set m w := w <| as_objects ::= set_kind k m |>;
|}.
Next Obligation. intros k m w. apply set_kind_same. Qed.

#[export] Instance asim_cluster : PromotionCluster AtpSim := {|
  pcl_atp := mem_client; pcl_hist := mem_client; pcl_team := mem_client; pcl_queue := mem_client;
  pcl_stable := mem_client; pcl_objects k := mem_client |}.

(** Every team has the same configuration: with a part on promotions, that says whether
    they are to be without downtime, or without that part. *)
Definition sim_config (promotion : option bool) : Config :=
  mkConfig (namedMeta "" "teamtest")
    (mkConfigSpec [] ∅ [] None None None [] None "")
    (mkConfigStatus (mkConfigSpec [] ∅ [] None
       ((fun noDowntime => mkConfigActivePromotion 0 0 0 None 0 0 None noDowntime None) <$> promotion)
       None [] None "") "" false []).

#[export] Instance asim_configs : ConfigController AtpSim := {|
  cfg_Get _ := fun w => match as_config w with
    | Some promotion => (Ok (sim_config promotion), w) | None => (Err NotFoundError, w) end;
  cfg_GetComponents _ := mret ∅;
  cfg_GetParentComponents _ := mret ∅;
  cfg_GetPullRequestComponents _ _ _ := mret ∅;
  cfg_GetBundles _ := mret ∅;
  cfg_GetPriorityQueues _ := mret [];
  cfg_GetStagingConfig _ := mret None;
  cfg_GetPullRequestConfig _ := mret None;
  cfg_GetPullRequestBundleDependencies _ _ := mret [];
  cfg_Update _ := mret tt;
  cfg_Delete _ := mret tt;
  cfg_EnsureConfigTemplateChanged := mret tt;
|}.

Definition asim_engine : DeployEngine AtpSim := {|
  de_GetName := "mock"; de_Create _ _ _ _ _ := mret tt; de_Rollback _ _ := mret tt;
  de_GetHistories _ := mret []; de_GetReleases := mret []; de_Delete _ := mret tt;
  de_ForceDelete _ := mret tt; de_GetLabelSelectors _ := ∅; de_WaitForPreHookReady _ := mret true;
  de_IsMocked := true |}.

(** ** The manager of environments *)

Definition set_namespaces (f : TeamNamespace -> TeamNamespace) (t : Team) : Team :=
  t <| team_Status ::= fun s => s <| tst_Namespace ::= f |> |>.
Definition store_team (t : Team) (w : AtpSim) : AtpSim := w <| as_teams ::= insert (kkey t) t |>.
Definition namespaces (f : gmap (string * string) (KubeObj NamespaceKind) -> gmap (string * string) (KubeObj NamespaceKind))
    (w : AtpSim) : AtpSim :=
  w <| as_objects ::= fun objs => set_kind NamespaceKind (f (objs NamespaceKind)) objs |>.

Definition update_team (f : TeamNamespace -> TeamNamespace) : M (AtpSim * Team) unit := fun s =>
  let t := set_namespaces f (snd s) in (Ok tt, (store_team t (fst s), t)).
(** The namespace is gone at once. *)
Definition drop_namespace (team ns : string) (f : TeamNamespace -> TeamNamespace) : M AtpSim unit := fun w =>
  match as_teams w !! ("", team) with
  | Some t => (Ok tt, namespaces (delete ("", ns)) (store_team (set_namespaces f t) w))
  | None => (Ok tt, w)
  end.

#[export] Instance asim_s2h : SamsahaiController AtpSim := {|
  s2h_GetActivePromotionDeployEngine _ _ := mret asim_engine;
  s2h_LoadTeamSecret := mret tt;
  s2h_CreatePreActiveEnvironment team ns := fun w =>
    match as_teams w !! ("", team) with
    | Some t => (Ok tt, namespaces (insert ("", ns) (bareObj (namedMeta "" ns)))
                          (store_team (set_namespaces (fun n => n <| tn_PreActive := ns |>) t) w))
    | None => (Err NotFoundError, w)
    end;
  s2h_PromoteActiveEnvironment ns _ _ := update_team (fun n =>
    n <| tn_PreviousActive := tn_Active n |> <| tn_Active := ns |> <| tn_PreActive := "" |>);
  s2h_DestroyActiveEnvironment team ns := drop_namespace team ns (fun n => n <| tn_Active := "" |>);
  s2h_DestroyPreActiveEnvironment team ns := drop_namespace team ns (fun n => n <| tn_PreActive := "" |>);
  s2h_DestroyPreviousActiveEnvironment team ns :=
    drop_namespace team ns (fun n => n <| tn_PreviousActive := "" |>);
  s2h_SetPreviousActiveNamespace ns := update_team (fun n => n <| tn_PreviousActive := ns |>);
  s2h_SetPreActiveNamespace ns := update_team (fun n => n <| tn_PreActive := ns |>);
  s2h_SetActiveNamespace ns := update_team (fun n => n <| tn_Active := ns |>);
  s2h_NotifyActivePromotionReport _ := mret tt;
  s2h_GetTeam name := k_get Team ("", name);
  s2h_EnsureStagingResourcesQuota _ _ _ := mret None;
|}.

(** ** It satisfies the assumptions *)

#[export] Instance asim_frame : PromotionFrame AtpSim (kview ActivePromotion).
Proof.
  split; try (intros; apply _); try (intros; by apply mem_frame); try (by apply sim_runtime_frame).
  - intros team w. simpl. by destruct (as_config w).
  - intros team ns w e w' [= <- <-] ref. split; apply _.
  - intros team ns w. simpl. by destruct (as_teams w !! _).
  - by intros ns by_ comps [w t].
  - intros team ns w. simpl. unfold drop_namespace. by destruct (as_teams w !! _).
  - intros team ns w. simpl. unfold drop_namespace. by destruct (as_teams w !! _).
  - intros team ns w. simpl. unfold drop_namespace. by destruct (as_teams w !! _).
  - by intros ns [w t].
  - by intros ns [w t].
Qed.
#[export] Instance asim_team_runtime : RuntimeFrame AtpSim (kview Team).
Proof. by apply sim_runtime_frame. Qed.
#[export] Instance asim_team_frame : KFrame AtpSim ActivePromotion (kview Team).
Proof. by apply mem_frame. Qed.

(** ** Initial worlds *)

Definition sim_promotion_config (maxRetry maxHistories : Z) : ActivePromotionConfig :=
  mkActivePromotionConfig 1 (30 * Minute) (10 * Minute) (5 * Minute) (3 * Hour) (Some maxRetry)
    maxHistories false.
Definition sim_samsahai_keeping (maxRetry maxHistories : Z) : SamsahaiConfig :=
  mkSamsahaiConfig "" "" "" "" "" "" "" "" (sim_promotion_config maxRetry maxHistories) (mkPullRequestConfig 0 0 0 0 0)
    None ∅ ∅ ∅ "" (mkSamsahaiCredential "" "" "" (mkMSTeamsCredential "" "" "" "" "") "" "" "").
Definition sim_samsahai (maxRetry : Z) : SamsahaiConfig := sim_samsahai_keeping maxRetry 2.

Definition sim_team : Team :=
  mkTeam (namedMeta "" "teamtest") zeroTeamSpec
    (zeroTeamStatus <| tst_Namespace := mkTeamNamespace "s2h-teamtest" "" "" "s2h-teamtest-old" [] |>).

Definition sim_atp (meta : ObjectMeta) (retry : Z) (noDowntime : option bool) (status : ActivePromotionStatus)
    : ActivePromotion :=
  mkActivePromotion meta (mkActivePromotionSpec None retry false "" noDowntime) status.

(** The team, its staging environment and its active environment, and one promotion. *)
Definition sim_world (t : Z) (atp : ActivePromotion) (queues : list Queue) : AtpSim :=
  mkAtpSim t {[ kkey atp := atp ]} ∅ {[ ("", "teamtest") := sim_team ]}
    (list_to_map ((fun q => (kkey q, q)) <$> queues)) ∅
    (fun k => match k with
       | NamespaceKind => {[ ("", "s2h-teamtest") := bareObj (namedMeta "" "s2h-teamtest");
                             ("", "s2h-teamtest-old") := bareObj (namedMeta "" "s2h-teamtest-old") ]}
       | _ => ∅ end)
    (Some (Some false)) ∅ ∅.

(** The staging side: every queue of the promotion is finished with success. *)
Definition finish_queues (w : AtpSim) : AtpSim :=
  w <| as_queues ::= fmap (fun q => q <| queue_Status ::= fun s =>
         SetCondition 0 QueueTested ConditionTrue "" (SetCondition 0 QueueDeployed ConditionTrue ""
           (s <| qst_State := Finished |> <| qst_StartDeployTime := Some 0 |>)) |>) |>.

Definition sim_request : Request := ("", "teamtest").
#[export] Instance asim_sort : GoSort := insertion_GoSort.

(** Reconcile, let the queues finish, and again. *)
Fixpoint sim_rounds (n : nat) (w : AtpSim) : AtpSim :=
  match n with
  | O => w
  | S n => sim_rounds n (finish_queues (snd (Reconcile (sim_samsahai 0) 0 sim_request w)))
  end.
Definition sim_new (noDowntime : option bool) : ActivePromotion :=
  sim_atp (namedMeta "" "teamtest") 0 noDowntime zeroAtpStatus.
