(* ===== verification/AtpClaims.v ===== *)
(** The properties of the promotion controller: refinement of the state machine, its
    invariant, the queue, the history, the environments, and what modelling it showed. *)

From S2P Require Import Prelude.
From S2P Require Import GoRuntime.
From S2P Require Import Errors.
From S2P Require Import KubeApi.
From S2P Require Import Frame.
From S2P Require Import Evolution.
From S2P Require Import ConfigTypes.
From S2P Require Import ComponentTypes.
From S2P Require Import QueueTypes.
From S2P Require Import TeamTypes.
From S2P Require Import AtpTypes.
From S2P Require Import RpcTypes.
From S2P Require Import QueueCtrl.
From S2P Require Import Interfaces.
From S2P Require Import Cleanup.
From S2P Require Import Outdated.
From S2P Require Import AtpCtrl.
From S2P Require Import AtpMachine.
From S2P Require Import AtpFrame.
From S2P Require Import AtpSpec.
From S2P Require Import AtpSim.
From stdpp Require Import relations.
Open Scope string_scope.
Open Scope list_scope.
Open Scope Z_scope.

Section claims.
Context {W : Type} `{GR : GoRuntime W} `{GS : GoSort} `{PC : PromotionCluster W}
  `{CC : ConfigController W} `{SC : SamsahaiController W}.
Context `{KVA : KView W ActivePromotion} `{KLA : !KClientLaws W ActivePromotion}.
Context `{PF : !PromotionFrame W (kview ActivePromotion)}.
Context `{KVT : KView W Team} `{KLT : !KClientLaws W Team}.
Context `{RFT : !RuntimeFrame W (kview Team)} `{KFT : !KFrame W ActivePromotion (kview Team)}.
Context (configs : SamsahaiConfig) (zone : Z) (retries : Z).
Context (retries_default : forall m, ac_MaxRetry (s2h_ActivePromotion configs) = Some m -> m <= retries)
  (retries_used : forall team w config w', cfg_Get team w = (Ok config, w') ->
     forall m, used_promotion config ≫= ca_MaxRetry = Some m -> m <= retries).

(** Nobody works on the team of the request any more. *)
Definition team_gone (req : Request) (w : W) : Prop := kview Team w !! ("", snd req) = None.

(** C1: [Reconcile] implements the state machine of promotions.  Whatever the other
    components answer, and wherever the call stops (with a result, an error or a
    panic), every promotion that is stored afterwards was stored before, and its
    control has moved by transitions of [step] only; the finalizer is given up in the
    finished state, or when the team is gone. *)
Theorem Reconcile_refines req w r w' k a' :
  Reconcile configs zone req w = (r, w') ->
  kview ActivePromotion w' !! k = Some a' ->
  exists a, kview ActivePromotion w !! k = Some a /\
    rtc (step retries (team_gone req w)) (ctl a) (ctl a').
Proof.
  intros Heq. revert k a'. change (evolves ctl (step retries (team_gone req w)) (kview ActivePromotion w)
    (kview ActivePromotion w')).
  eapply (wp_run _ _ _ _ (fun _ w' => evolves _ _ (kview ActivePromotion w) (kview ActivePromotion w')));
    [|exact Heq].
  apply Reconcile_evolves; [done..|apply evolves_refl|done].
Qed.

(** C2: the invariant of the machine is kept by every reconciliation: in each state the
    result is the one that belongs to it (a promotion that demotes after promoting is
    successful, one that is rolled back is failed or canceled, a finished one is
    decided), a success comes with a promoted active environment, a promotion in the
    queue is waiting, and no more retries are made than allowed. *)
Theorem Reconcile_keeps_sound req w r w' :
  0 <= retries < 2 ^ 63 ->
  (forall k a, kview ActivePromotion w !! k = Some a -> sound retries (ctl a)) ->
  Reconcile configs zone req w = (r, w') ->
  forall k a, kview ActivePromotion w' !! k = Some a -> sound retries (ctl a).
Proof.
  intros Hret Hsound Heq k a' Hk.
  assert (evolves ctl (step retries (team_gone req w)) (kview ActivePromotion w) (kview ActivePromotion w')) as He.
  { eapply (wp_run _ _ _ _ (fun _ w' => evolves _ _ (kview ActivePromotion w) (kview ActivePromotion w')));
      [|exact Heq]. apply Reconcile_evolves; [done..|apply evolves_refl|done]. }
  destruct (He k a' Hk) as (a & Ha & Hsteps). eapply steps_sound; [done|exact Hsteps|by eapply Hsound].
Qed.

(** C3: a switched active environment is never rolled back.  Once a promotion is
    successful and only the previous environment is left to destroy, no reconciliation
    of any promotion, no timeout and no cancellation changes its result or brings it
    back to an earlier state; it can only get finished. *)
Theorem success_is_final req w r w' k a a' :
  0 <= retries < 2 ^ 63 ->
  kview ActivePromotion w !! k = Some a -> sound retries (ctl a) -> settled (ctl a) ->
  Reconcile configs zone req w = (r, w') ->
  kview ActivePromotion w' !! k = Some a' -> settled (ctl a').
Proof.
  intros Hret Ha Hsound Hset Heq Hk.
  assert (evolves ctl (step retries (team_gone req w)) (kview ActivePromotion w) (kview ActivePromotion w')) as He.
  { eapply (wp_run _ _ _ _ (fun _ w' => evolves _ _ (kview ActivePromotion w) (kview ActivePromotion w')));
      [|exact Heq]. apply Reconcile_evolves; [done..|apply evolves_refl|done]. }
  destruct (He k a' Hk) as (a0 & Ha0 & Hsteps). assert (a0 = a) as -> by congruence.
  eapply steps_settled; [done|exact Hsteps|done..].
Qed.

(** ** The queue of promotions *)

Definition is_running (a : ActivePromotion) : Prop := om_Labels (atp_Meta a) !! "state" = Some stateRunning.
Definition is_waiting (a : ActivePromotion) : Prop := om_Labels (atp_Meta a) !! "state" = Some stateWaiting.
#[local] Instance is_running_dec a : Decision (is_running a).
Proof. unfold is_running. apply _. Defined.
Definition running (V : gmap (string * string) ActivePromotion) : Z := count_stored is_running V.

Lemma state_label_matches st (a : ActivePromotion) :
  list_matches (MatchingLabels (getStateLabel st)) a <-> om_Labels (atp_Meta a) !! "state" = Some st.
Proof.
  unfold list_matches, MatchingLabels, getStateLabel. simpl. rewrite map_singleton_subseteq_l.
  split; [by intros []|]. intros. split; [by left|done].
Qed.

Lemma length_running (l : list ActivePromotion) V :
  l ≡ₚ filter (list_matches (MatchingLabels (getStateLabel stateRunning))) (map_to_list V).*2 ->
  Z.of_nat (length l) = running V.
Proof.
  intros ->. unfold running, count_stored. f_equal. f_equal. apply list_filter_iff. intros a.
  apply state_label_matches.
Qed.

(** The promotion that has been waiting longest is started, and there is room for it. *)
Definition starts_longest_waiting (V V' : gmap (string * string) ActivePromotion) : Prop :=
  exists first started, V !! kkey first = Some first /\ is_waiting first /\
    running V < ac_Concurrences (s2h_ActivePromotion configs) /\
    (forall k b, V !! k = Some b -> is_waiting b -> started_or_created first <= started_or_created b) /\
    kkey started = kkey first /\ is_running started /\
    ast_State (atp_Status started) = ActivePromotionCreatingPreActive /\
    V' = store_update started V.

(** C16: the queue.  [manageQueue] leaves the stored promotions alone, or it starts one:
    then there was room for it, it was waiting, and no other had been waiting for
    longer.  So the number of running promotions never grows beyond the configured
    one. *)
Theorem manageQueue_starts_next a w r w' :
  manageQueue configs a w = (r, w') ->
  let V := kview ActivePromotion w in
  let V' := kview ActivePromotion w' in
  (V' = V \/ starts_longest_waiting V V') /\
  running V' <= Z.max (running V) (ac_Concurrences (s2h_ActivePromotion configs)).
Proof.
  intros Heq V V'. enough (V' = V \/ starts_longest_waiting V V') as Hmain.
  { split; [done|]. destruct Hmain as [->|(first & started & _ & _ & Hroom & _ & _ & _ & _ & ->)]; [lia|].
    pose proof (count_update is_running started V). unfold running in *. lia. }
  subst V'. revert Heq. apply (wp_run _ _ _ _ (fun _ w' => kview ActivePromotion w' = V \/
    starts_longest_waiting V (kview ActivePromotion w'))).
  unfold manageQueue, wrapping. wp_step. wp_step. wp_step.
  apply wp_k_list; [|intros e w1 Hw1; wp_step; by left].
  intros l w1 Hl Hw1. wp_step. lazy beta iota zeta. rewrite (length_running _ _ Hl).
  destruct (_ <=? _) eqn:Hroom; [wp_step; by left|]. apply Z.leb_gt in Hroom.
  wp_step. wp_step. wp_step. apply wp_k_list; [|intros e w2 Hw2; wp_step; left; subst V; congruence].
  intros waiting w2 Hwaiting Hw2. wp_step. lazy beta iota zeta. rewrite Hw1 in Hw2, Hwaiting.
  destruct (_ =? _)%nat; [wp_step; by left|].
  destruct (0 <? _); [|wp_step; by left].
  wp_step. wp_step. destruct (SortASC waiting !! 0%nat) as [first|] eqn:Hfirst; [|by left].
  assert (forall b, b ∈ waiting <-> V !! kkey b = Some b /\ is_waiting b) as Hin.
  { intros b. rewrite <- Hw1 in Hwaiting. rewrite (listed_in _ _ w1 b Hwaiting), state_label_matches. by rewrite Hw1. }
  assert (first ∈ waiting) as Hfin.
  { rewrite <- (go_sort_perm AtpLess waiting). by eapply list_elem_of_lookup_2. }
  pose proof (proj1 (Hin first) Hfin) as [Hk Hlabel].
  wp_step. apply wp_with_obj. eapply wp_mono; [by eapply (wp_start 0 True); [exact Hw2|exact Hk|exact Hlabel]|].
  intros r1 s1 (_ & Hst & Hrun & Hkey1 & Hput).
  enough (kview ActivePromotion (fst s1) = V \/ starts_longest_waiting V (kview ActivePromotion (fst s1))) as Hgoal
    by (destruct r1; [wp_step|..]; exact Hgoal).
  destruct Hput as [?|Hput]; [by left|right]. exists first, (snd s1). split_and!; try done.
  intros k' b Hb Hbw. assert (b ∈ SortASC waiting) as Hbin.
  { unfold SortASC. rewrite go_sort_perm. apply Hin. split; [by rewrite (k_view_keyed _ _ _ Hb)|done]. }
  pose proof (go_sort_in_order AtpLess waiting AtpLess_ordering) as Hsorted.
  change (go_sort AtpLess waiting) with (SortASC waiting) in Hsorted.
  destruct (SortASC waiting) as [|x rest]; [done|]. simpl in Hfirst. simplify_eq.
  pose proof (in_order_head _ _ _ b Hsorted Hbin) as Hf. unfold may_follow, AtpLess in Hf. lia.
Qed.
End claims.

(** ** Environments *)

Section environments.
Context {W : Type} `{GR : GoRuntime W} `{GL : !GoRuntimeLaws W} `{PC : PromotionCluster W}
  `{CC : ConfigController W} `{SC : SamsahaiController W}.

(** the random part of the name of an environment is six lower-case letters or
    digits, and a function of the seed alone. *)
Theorem randomToken_alphabet {S} (seed : Z) (s : S) :
  exists token, randomToken (W:=W) tokenLength seed s = (Ok token, s) /\
    String.length token = 6%nat /\
    Forall (fun c => c ∈ letters) (String.list_ascii_of_string token) /\
    (forall S' (s' : S'), randomToken (W:=W) tokenLength seed s' = (Ok token, s')).
Proof.
  assert (forall j, exists c, c ∈ letters /\ forall S (s : S),
    index letters (Z.to_nat (rt_intn (W:=W) seed j (Z.of_nat (length letters)))) s = (Ok c, s)) as Hidx.
  { intros j. pose proof (rt_intn_bound (W:=W) seed j (Z.of_nat (length letters)) ltac:(done)) as Hb.
    destruct (lookup_lt_is_Some_2 letters (Z.to_nat (rt_intn (W:=W) seed j (Z.of_nat (length letters)))))
      as [c Hc]; [lia|].
    exists c. split; [by eapply list_elem_of_lookup_2|]. intros S' s'. unfold index. by rewrite Hc. }
  assert (forall js, exists cs, length cs = length js /\ Forall (fun c => c ∈ letters) cs /\
    forall S (s : S), mapM (M:=M S) (fun j => index letters
      (Z.to_nat (rt_intn (W:=W) seed j (Z.of_nat (length letters))))) js s = (Ok cs, s)) as Hall.
  { induction js as [|j js (cs & Hlen & Hcs & IH)]; [by exists []|].
    destruct (Hidx j) as (c & Hc & Hrun). exists (c :: cs). split; [simpl; lia|]. split; [by constructor|].
    intros S' s'. cbn [mapM]. unfold mbind, M_bind. rewrite Hrun. rewrite IH. done. }
  destruct (Hall (seq 0 tokenLength)) as (cs & Hlen & Hcs & Hrun).
  exists (String.string_of_list_ascii cs).
  assert (forall S (s : S), randomToken (W:=W) tokenLength seed s = (Ok (String.string_of_list_ascii cs), s)) as Htok.
  { intros S' s'. unfold randomToken, mbind, M_bind. by rewrite Hrun. }
  split_and!; [apply Htok| | |intros; apply Htok].
  - assert (forall l, String.length (String.string_of_list_ascii l) = length l) as Hl.
    { induction l as [|c l IH]; simpl; [done|]. by rewrite IH. }
    rewrite Hl, Hlen. done.
  - by rewrite String.list_ascii_of_string_of_list_ascii.
Qed.

(** ** Deployment of the stable components *)

Context `{KVS : KView W StableComponent} `{KLS : !KClientLaws W StableComponent}.

(** What the cluster holds has not been removed. *)
Definition alive (V : gmap (string * string) StableComponent) : Prop :=
  forall k x, V !! k = Some x -> ~ is_gone (stable_Meta x).

Lemma wp_deploy_stable ns comp w :
  alive (kview StableComponent w) ->
  wp (deploy_stable ns comp) w (fun r w' =>
    alive (kview StableComponent w') /\
    (forall k, k <> (ns, kname comp) -> kview StableComponent w' !! k = kview StableComponent w !! k) /\
    (r = Ok tt -> exists x, kview StableComponent w' !! (ns, kname comp) = Some x /\
       stable_Spec x = stable_Spec comp)).
Proof.
  intros Halive. unfold deploy_stable. cbv zeta.
  set (new := mkStableComponent _ _ _).
  assert (kkey new = (ns, kname comp)) as Hkey by done.
  wp_step. wp_step. apply wp_k_create.
  - intros w' Hnone Hw. wp_step. rewrite Hw, Hkey. split_and!.
    + intros k x [[_ <-]|[_ Hk]]%lookup_insert_Some; [|by eapply Halive]. by intros [? _].
    + intros k Hk. by rewrite lookup_insert_ne.
    + intros _. exists new. by rewrite lookup_insert_eq.
  - intros e w' _ Hw. destruct (IsAlreadyExists e); [|wp_step; rewrite Hw; by split_and!].
    wp_step. apply wp_k_get; [intros old w2 Hold Hw2|intros e2 w2 _ Hw2; rewrite Hw2, Hw; by split_and!].
    rewrite Hw in Hw2, Hold. pose proof (Halive _ _ Hold) as Hnot.
    rewrite <- Hw in Hold. pose proof (k_view_keyed _ _ _ Hold) as Hold_key.
    set (upd := old <| stable_Spec := _ |> <| stable_Status := _ |>).
    assert (kkey upd = (ns, kname comp)) as Hukey by done.
    apply wp_k_update; [intros w3 _ Hw3|intros e3 w3 Hw3; rewrite Hw3, Hw2; by split_and!].
    assert (store_update upd (kview StableComponent w) = <[kkey upd := upd]> (kview StableComponent w)) as Hput.
    { unfold store_update. by rewrite decide_False. }
    rewrite Hw2, Hput, Hukey in Hw3. rewrite Hw3. split_and!.
    + intros k x [[_ <-]|[_ Hk]]%lookup_insert_Some; [done|by eapply Halive].
    + intros k Hk. by rewrite lookup_insert_ne.
    + intros _. exists upd. by rewrite lookup_insert_eq.
Qed.

(** when the stable components are deployed into a namespace without an error, every
    one of them is there with its specification, whether it was there before or not;
    in any case no other object is touched, and without a namespace nothing is. *)
Theorem stable_components_deployed comps ns w r w' :
  alive (kview StableComponent w) -> NoDup (kname <$> comps) ->
  deployStableComponentObjects comps ns w = (r, w') ->
  (r = Ok tt -> ns <> "" /\ forall comp, comp ∈ comps ->
     exists x, kview StableComponent w' !! (ns, kname comp) = Some x /\ stable_Spec x = stable_Spec comp) /\
  (forall k, k ∉ (fun comp => (ns, kname comp)) <$> comps ->
     kview StableComponent w' !! k = kview StableComponent w !! k) /\
  (ns = "" -> w' = w).
Proof.
  intros Halive Hnd Heq. unfold deployStableComponentObjects in Heq.
  destruct (String.eqb_spec ns "") as [->|Hns]; [by injection Heq as <- <-|].
  set (V := kview StableComponent w) in *.
  enough ((r = Ok tt -> forall comp, comp ∈ comps -> exists x,
       kview StableComponent w' !! (ns, kname comp) = Some x /\ stable_Spec x = stable_Spec comp) /\
    (forall k, k ∉ (fun comp => (ns, kname comp)) <$> comps -> kview StableComponent w' !! k = V !! k)) as [H1 H2]
    by (split_and!; [intros Hr; split; [done|by apply H1]|done|done]).
  revert Heq. apply (wp_run _ _ _ _ (fun r w' => (r = Ok tt -> forall comp, comp ∈ comps -> exists x,
       kview StableComponent w' !! (ns, kname comp) = Some x /\ stable_Spec x = stable_Spec comp) /\
    (forall k, k ∉ (fun comp => (ns, kname comp)) <$> comps -> kview StableComponent w' !! k = V !! k))).
  apply (wp_for_each (fun todo w1 => exists seen, comps = seen ++ todo /\ alive (kview StableComponent w1) /\
    (forall comp, comp ∈ seen -> exists x,
       kview StableComponent w1 !! (ns, kname comp) = Some x /\ stable_Spec x = stable_Spec comp) /\
    (forall k, k ∉ (fun comp => (ns, kname comp)) <$> comps -> kview StableComponent w1 !! k = V !! k))).
  - exists []. split_and!; [done|done|by intros ? ?%elem_of_nil|done].
  - intros comp todo w1 (seen & Hsplit & Halive1 & Hseen & Hother).
    eapply wp_mono; [by apply wp_deploy_stable|]. intros r1 w2 (Halive2 & Hframe & Hnew).
    assert (forall k, k ∉ (fun comp => (ns, kname comp)) <$> comps -> kview StableComponent w2 !! k = V !! k) as Hother2.
    { intros k Hk. rewrite Hframe; [by apply Hother|]. intros ->. apply Hk.
      apply list_elem_of_fmap. exists comp. split; [done|]. rewrite Hsplit. apply elem_of_app. right. by left. }
    destruct r1 as [[]|e|p]; [|by split..]. exists (seen ++ [comp]). rewrite <- app_assoc.
    split_and!; [done..| |done]. intros c [Hc| ->%list_elem_of_singleton]%elem_of_app; [|by apply Hnew].
    destruct (Hseen c Hc) as (x & Hx & Hspec). exists x. split; [|done]. rewrite Hframe; [done|].
    intros [= Heqn]. rewrite Hsplit, fmap_app in Hnd. apply NoDup_app in Hnd as (_ & Hdis & _).
    apply (Hdis (kname c)); [by apply list_elem_of_fmap_2|]. rewrite Heqn. by left.
  - intros w1 (seen & Hsplit & _ & Hseen & Hother). rewrite app_nil_r in Hsplit. subst seen. by split.
Qed.
End environments.

(** ** Destruction *)

Section destruction.
Context {W : Type} `{GR : GoRuntime W} `{PC : PromotionCluster W}
  `{CC : ConfigController W} `{SC : SamsahaiController W}.
Context `{KVN : KView W (KubeObj NamespaceKind)} `{KLN : !KClientLaws W (KubeObj NamespaceKind)}.

Lemma wp_ensureDestroyEnvironment env team ns start w :
  wp (ensureDestroyEnvironment env team ns start) w (fun r w' =>
    r = Ok tt -> kview (KubeObj NamespaceKind) w' !! ("", ns) = None).
Proof.
  unfold ensureDestroyEnvironment. wp_step. wp_step. apply run_wp. intros [x|e|p] w1 _; [| |done].
  all: wp_step; apply run_wp; intros [y|e'|p'] w2 _; [|done..];
    wp_step; apply run_wp; intros [z|e''|p''] w3 _; [|done..];
    unfold ensureNamespaceDestroyed; wp_step; wp_step; apply wp_k_get;
    [by intros ns' w4 _ _; wp_step|];
    intros en w4 Hnone Hw; destruct (IsNotFound en) eqn:Hn; wp_step; [|done];
    intros _; rewrite Hw; by apply Hnone.
Qed.

(** the previous active environment is kept until its time.  Before the destruction
    time, or when none is recorded, the call asks to be repeated and does nothing but
    read the clock; and when it succeeds the time is over and the namespace is gone. *)
Theorem previous_environment_kept team ns d w r w' :
  ns <> "" -> destroyPreviousActiveEnvironmentAt team ns d w = (r, w') ->
  (r = Ok tt -> exists t, d = Some t /\ t < fst (rt_now w) /\
     kview (KubeObj NamespaceKind) w' !! ("", ns) = None) /\
  (match d with None => True | Some t => fst (rt_now w) <= t end ->
     r = Err ErrEnsureNamespaceDestroyed /\ (w' = w \/ w' = snd (rt_now w))).
Proof.
  intros Hns Heq. unfold destroyPreviousActiveEnvironmentAt in Heq.
  rewrite (proj2 (String.eqb_neq _ _) Hns) in Heq. destruct d as [t|]; cbn [time_is_zero] in Heq.
  2: { cbv [throw] in Heq. simplify_eq. split; [intros [=]|intros _; split; [reflexivity|by left]]. }
  destruct (bool_decide (t = zero_time)).
  { cbv [throw] in Heq. simplify_eq. split; [intros [=]|intros _; split; [reflexivity|by left]]. }
  unfold now, mbind, M_bind in Heq. destruct (rt_now w) as [t1 w1]. simpl in *.
  destruct (Z.ltb_spec t t1) as [Hlt|Hge]; simpl in Heq.
  - split; [|lia]. intros ->. exists t. split; [done|]. split; [done|].
    by apply (wp_run _ _ _ _ _ (wp_ensureDestroyEnvironment previousActiveEnvironment team ns (Some t) w1) Heq).
  - cbv [throw] in Heq. simplify_eq. split; [intros [=]|intros _; split; [reflexivity|by right]].
Qed.
End destruction.

(** ** History *)

Section history.
Context {W : Type} `{GR : GoRuntime W} `{GS : GoSort} `{PC : PromotionCluster W}
  `{CC : ConfigController W} `{SC : SamsahaiController W}.
Context `{KVH : KView W ActivePromotionHistory} `{KLH : !KClientLaws W ActivePromotionHistory}.
Context {cfg_frame : forall team, Preserves (cfg_Get team) (kview ActivePromotionHistory)}.
Context (configs : SamsahaiConfig).

Notation store := (gmap (string * string) ActivePromotionHistory).
Implicit Types (V : store) (items : list ActivePromotionHistory).

(** One round of the loop: the histories behind the index [i] are gone, then so is the
    one at [i]. *)
Lemma wp_delete_at items V i w (Q : error + unit -> W -> Prop) x :
  NoDup (kkey <$> items) -> (forall x, x ∈ items -> V !! kkey x = Some x) ->
  (forall x, x ∈ items -> om_Finalizers (ath_Meta x) = []) ->
  0 <= i -> items !! Z.to_nat i = Some x ->
  kview ActivePromotionHistory w = without (drop (Z.to_nat (i + 1)) items) V ->
  (forall w', k_delete x w = (Ok tt, w') ->
     kview ActivePromotionHistory w' = without (drop (Z.to_nat i) items) V -> Q (inr tt) w') ->
  (forall e w', k_delete x w = (Err e, w') -> IsNotFound e = false ->
     kview ActivePromotionHistory w !! kkey x = Some x ->
     kview ActivePromotionHistory w' = kview ActivePromotionHistory w -> Q (inl e) w') ->
  wp (attempt (k_delete x)) w (fun r w' => match r with Ok v => Q v w' | _ => False end).
Proof.
  intros Hnd Hin Hfin Hi Hx Hw Hok Herr.
  assert (x ∈ items) as Hxin by by eapply list_elem_of_lookup_2.
  assert (drop (Z.to_nat i) items = x :: drop (Z.to_nat (i + 1)) items) as Hdrop.
  { rewrite (drop_S _ _ _ Hx). by replace (Z.to_nat (i + 1)) with (S (Z.to_nat i)) by lia. }
  assert (kview ActivePromotionHistory w !! kkey x = Some x) as Hst.
  { rewrite Hw. apply without_lookup. split; [by apply Hin|]. intros Hbad.
    rewrite <- (take_drop (Z.to_nat i) items), Hdrop, fmap_app, fmap_cons in Hnd.
    apply NoDup_app in Hnd as (_ & _ & Hnd). by inversion Hnd. }
  wp_step. apply run_wp. intros r w1 Heq.
  pose proof (k_delete_law (T:=ActivePromotionHistory) x w) as Hlaw. rewrite Heq in Hlaw.
  destruct r as [[]|e|p]; [|destruct Hlaw as [Hnone Hw1]|done].
  - destruct Hlaw as (y & Hy & Hgone & _). assert (y = x) as -> by congruence.
    apply Hok; [done|]. rewrite (Hgone (Hfin _ Hxin)), Hw, Hdrop. by rewrite without_cons.
  - apply Herr; try done. destruct (IsNotFound e); [|done]. by rewrite Hnone in Hst.
Qed.

(** The loop from the index [i] downwards. *)
Lemma wp_delete_histories fuel items V last i w :
  NoDup (kkey <$> items) -> (forall x, x ∈ items -> V !! kkey x = Some x) ->
  (forall x, x ∈ items -> om_Finalizers (ath_Meta x) = []) ->
  -1 <= last <= i -> i < Z.of_nat (length items) -> (Z.to_nat (i - last) < fuel)%nat ->
  kview ActivePromotionHistory w = without (drop (Z.to_nat (i + 1)) items) V ->
  wp (delete_histories fuel items last i) w (fun r w' => (forall p, r <> Panic p) /\
    exists j, last <= j <= i /\
      kview ActivePromotionHistory w' = without (drop (Z.to_nat (j + 1)) items) V /\
      (r = Ok tt -> j = last)).
Proof.
  intros Hnd Hin Hfin. revert i w. induction fuel as [|fuel IH]; intros i w Hlast Hi Hfuel Hw; [lia|].
  cbn [delete_histories]. destruct (Z.ltb_spec last i) as [Hlt|Hge].
  2: { wp_step. split; [done|]. exists i. split; [lia|]. split; [done|]. lia. }
  rewrite (proj2 (Z.ltb_ge i 0)) by lia. wp_step.
  destruct (lookup_lt_is_Some_2 items (Z.to_nat i)) as [x Hx]; [lia|]. wp_step. rewrite Hx.
  wp_step. eapply wp_mono; [apply (wp_delete_at items V i _ (fun v w' =>
    match v with
    | inr _ => kview ActivePromotionHistory w' = without (drop (Z.to_nat i) items) V
    | inl e => IsNotFound e = false /\ kview ActivePromotionHistory w' = kview ActivePromotionHistory w
    end)); try done; lia|].
  intros [[e|[]]|e|p] w1 H1; [|  |done..].
  - destruct H1 as [-> Hw1]. wp_step. split; [done|]. exists i. split; [lia|]. split; [congruence|done].
  - eapply wp_mono; [apply (IH (i - 1)); try lia|].
    + by replace (i - 1 + 1) with i by lia.
    + intros r w2 (Hp & j & Hj & Hw2 & Hr). split; [done|]. exists j. split; [lia|done].
Qed.

(** With a bound below -1 the loop leaves the list. *)
Lemma wp_delete_past fuel items V last i w :
  (forall (x : ActivePromotionHistory) w e w', k_delete x w = (Err e, w') ->
     kview ActivePromotionHistory w !! kkey x = None) ->
  NoDup (kkey <$> items) -> (forall x, x ∈ items -> V !! kkey x = Some x) ->
  (forall x, x ∈ items -> om_Finalizers (ath_Meta x) = []) ->
  last < -1 <= i -> i < Z.of_nat (length items) -> (Z.to_nat (i + 1) < fuel)%nat ->
  kview ActivePromotionHistory w = without (drop (Z.to_nat (i + 1)) items) V ->
  wp (delete_histories fuel items last i) w (fun r _ => r = Panic IndexOutOfRange).
Proof.
  intros Hdel Hnd Hin Hfin. revert i w. induction fuel as [|fuel IH]; intros i w Hlast Hi Hfuel Hw; [lia|].
  cbn [delete_histories]. rewrite (proj2 (Z.ltb_lt last i)) by lia.
  destruct (Z.ltb_spec i 0) as [Hneg|Hpos]; [by wp_step; wp_step|]. wp_step.
  destruct (lookup_lt_is_Some_2 items (Z.to_nat i)) as [x Hx]; [lia|]. wp_step. rewrite Hx.
  wp_step. eapply wp_mono; [apply (wp_delete_at items V i _ (fun v w' =>
    v = inr tt /\ kview ActivePromotionHistory w' = without (drop (Z.to_nat i) items) V)); try done|].
  - intros e w1 He _ Hst _. by rewrite (Hdel _ _ _ _ He) in Hst.
  - intros [v|e|p] w1 H1; [|done..]. destruct H1 as [-> Hw1]. apply IH; try lia.
    by replace (i - 1 + 1) with i by lia.
Qed.

Definition own_history (selectors : gmap string string) V : list ActivePromotionHistory :=
  filter (list_matches (MatchingLabels selectors)) (map_to_list V).*2.

(** What the removal may do: only histories of the team go, the oldest ones, and a
    removal that succeeds makes room below the limit. *)
Definition prunes (selectors : gmap string string) (limit : Z) V (r : outcome unit) (V' : store) : Prop :=
  (forall p, r <> Panic p) /\ V' ⊆ V /\
  (forall k x, V !! k = Some x -> V' !! k = None ->
     list_matches (MatchingLabels selectors) x /\
     forall k' y, V' !! k' = Some y -> list_matches (MatchingLabels selectors) y ->
       om_CreationTimestamp (ath_Meta x) <= om_CreationTimestamp (ath_Meta y)) /\
  (r = Ok tt -> Z.of_nat (length (own_history selectors V')) < limit).

Lemma elem_of_own sel V x : x ∈ own_history sel V <->
  list_matches (MatchingLabels sel) x /\ exists k, V !! k = Some x.
Proof.
  unfold own_history. rewrite list_elem_of_filter, list_elem_of_fmap.
  split; (intros [Hm H]; split; [done|]).
  - destruct H as ([k y] & -> & Hk). exists k. by apply elem_of_map_to_list.
  - destruct H as [k Hk]. exists (k, x). by rewrite elem_of_map_to_list.
Qed.

Lemma own_history_keys sel V : (forall k x, V !! k = Some x -> kkey x = k) ->
  NoDup (kkey <$> own_history sel V).
Proof.
  intros Hkeyed. unfold own_history.
  assert (kkey <$> (map_to_list V).*2 = (map_to_list V).*1) as Hk.
  { rewrite <- list_fmap_compose. apply list_fmap_ext. intros i [k x] Hi. simpl. apply Hkeyed.
    apply elem_of_map_to_list. by eapply list_elem_of_lookup_2. }
  pose proof (NoDup_fst_map_to_list V) as Hnd. rewrite <- Hk in Hnd. revert Hnd. clear.
  generalize ((map_to_list V).*2). intros l. induction l as [|x l IH]; [done|].
  rewrite fmap_cons, NoDup_cons, filter_cons. intros [Hx Hnd]. case_decide; [|by apply IH].
  rewrite fmap_cons, NoDup_cons. split; [|by apply IH]. intros (y & Hy & Hin)%list_elem_of_fmap.
  apply Hx. rewrite Hy. apply list_elem_of_fmap_2. by apply list_elem_of_filter in Hin as [_ Hin].
Qed.

Lemma prunes_without sel limit V items j r :
  items ≡ₚ own_history sel V -> in_order HistoryLess items ->
  (forall k x, V !! k = Some x -> kkey x = k) ->
  (forall p, r <> Panic p) -> limit - 2 <= j -> 1 <= limit -> (r = Ok tt -> j = limit - 2) ->
  prunes sel limit V r (without (drop (Z.to_nat (j + 1)) items) V).
Proof.
  intros Hitems Hsorted Hkeyed Hp Hj Hlim Hr. set (n := Z.to_nat (j + 1)).
  assert (forall x k, V !! k = Some x -> list_matches (MatchingLabels sel) x ->
    k ∉ kkey <$> drop n items -> x ∈ take n items) as Htake.
  { intros x k Hx Hm Hk. assert (x ∈ items) as Hin by (rewrite Hitems; apply elem_of_own; eauto).
    rewrite <- (take_drop n items) in Hin. apply elem_of_app in Hin as [?|Hin]; [done|].
    destruct Hk. rewrite <- (Hkeyed _ _ Hx). by apply list_elem_of_fmap_2. }
  split_and!; [done|apply map_filter_subseteq| |].
  - intros k x Hx Hgone. apply map_lookup_filter_None in Hgone as [Hgone|Hgone]; [congruence|].
    specialize (Hgone x Hx). simpl in Hgone. apply dec_stable in Hgone.
    apply list_elem_of_fmap in Hgone as (x' & Hkx & Hxd).
    assert (x' ∈ own_history sel V) as Hown.
    { rewrite <- Hitems. rewrite <- (take_drop n items). apply elem_of_app. by right. }
    apply elem_of_own in Hown as [Hm [k' Hk']]. pose proof (Hkeyed _ _ Hk') as Hkk.
    assert (x' = x) as -> by congruence. split; [done|].
    intros k2 y [Hy Hk2]%without_lookup Hmy. pose proof (Htake y k2 Hy Hmy Hk2) as Hyt.
    apply list_elem_of_lookup in Hyt as [a Ha], Hxd as [b Hb].
    apply lookup_take_Some in Ha as [Ha Han]. rewrite lookup_drop in Hb.
    pose proof (sorted_lookup_lt _ _ _ _ _ _ Hsorted (ltac:(lia) : (a < n + b)%nat) Ha Hb) as Hf.
    unfold may_follow, HistoryLess in Hf. lia.
  - intros Hok. specialize (Hr Hok).
    assert (own_history sel (without (drop n items) V) ⊆+ take n items) as Hsub.
    { apply NoDup_submseteq.
      - eapply NoDup_fmap_1, own_history_keys. intros k x [Hx _]%without_lookup. by apply Hkeyed.
      - intros x [Hm [k [Hk Hnot]%without_lookup]]%elem_of_own. by eapply Htake. }
    apply submseteq_length in Hsub. rewrite length_take in Hsub. lia.
Qed.

Lemma sorted_histories_stored sel V items :
  items ≡ₚ own_history sel V -> (forall k x, V !! k = Some x -> kkey x = k) ->
  (forall k x, V !! k = Some x -> om_Finalizers (ath_Meta x) = []) ->
  NoDup (kkey <$> items) /\ forall x, x ∈ items -> V !! kkey x = Some x /\ om_Finalizers (ath_Meta x) = [].
Proof.
  intros Hown Hkeyed Hfin. split; [rewrite Hown; by apply own_history_keys|].
  intros x Hx. rewrite Hown in Hx. apply elem_of_own in Hx as [_ [k Hk]].
  rewrite (Hkeyed _ _ Hk). split; [done|by eapply Hfin].
Qed.

(** C35: room for one more history.  With a limit of at least one, the removal of old
    histories never panics, and removes histories of the team only, the oldest ones;
    when it succeeds fewer than the limit are left, so that the one to come fits. *)
Theorem history_kept_within_limit team selectors limit w r w' :
  (forall opts w e w', k_list ActivePromotionHistory opts w = (Err e, w') -> IsNotFound e = false) ->
  (forall w, fst (used_or (ac_MaxHistories (s2h_ActivePromotion configs)) team
                    (fun c => nonzero (ca_MaxHistories c)) w) = Ok limit) ->
  1 <= limit < 2 ^ 62 ->
  (forall k x, kview ActivePromotionHistory w !! k = Some x -> om_Finalizers (ath_Meta x) = []) ->
  deleteActivePromotionHistoryOutOfRange configs team selectors w = (r, w') ->
  prunes selectors limit (kview ActivePromotionHistory w) r (kview ActivePromotionHistory w').
Proof.
  intros Hlist Hlimit Hl Hfin. set (V := kview ActivePromotionHistory w) in *.
  apply (wp_run _ _ _ _ (fun r w' => prunes selectors limit V r (kview ActivePromotionHistory w'))).
  assert (forall r w1, (forall p, r <> Panic p) -> r <> Ok tt -> kview ActivePromotionHistory w1 = V ->
    prunes selectors limit V r (kview ActivePromotionHistory w1)) as Hsame.
  { intros r1 w1 Hp Hne ->. split_and!; [done|done|congruence|done]. }
  unfold deleteActivePromotionHistoryOutOfRange. wp_step. wp_step. apply run_wp. intros r1 w1 Heq.
  pose proof (k_list_law (T:=ActivePromotionHistory) (MatchingLabels selectors) w) as Hlaw. rewrite Heq in Hlaw.
  destruct r1 as [items|e|p]; [|rewrite (Hlist _ _ _ _ Heq); wp_step; by apply Hsame|done].
  destruct Hlaw as [Hitems Hw1]. fold V in Hw1. wp_step. apply wp_preserve with (v := kview ActivePromotionHistory).
  { unfold used_or. apply bind_preserves; [apply _|]. intros []; apply _. }
  apply run_wp. intros r2 w2 Hu Hw2. pose proof (Hlimit w1) as Hlim. rewrite Hu in Hlim. simpl in Hlim. subst r2.
  cbv zeta. assert (length items = length (own_history selectors V)) as Hlen by by rewrite Hitems.
  destruct (Z.ltb_spec limit (Z.of_nat (length items) + 1)) as [Hlt|Hge].
  2: { wp_step. rewrite Hw2, Hw1. split_and!; [done|done|congruence|]. intros _. fold V. lia. }
  pose proof (go_sort_perm HistoryLess items) as Hsp. change (go_sort HistoryLess items) with (SortDESC items) in Hsp.
  pose proof (Permutation_length Hsp) as Hsl.
  assert (int_sub limit 2 = limit - 2) as -> by (apply int_sub_id; unfold in64; lia).
  assert (SortDESC items ≡ₚ own_history selectors V) as Hown by by rewrite Hsp, Hitems.
  assert (forall k x, V !! k = Some x -> kkey x = k) as Hkeyed by (intros k x; apply k_view_keyed).
  destruct (sorted_histories_stored _ _ _ Hown Hkeyed Hfin) as [Hnd Hin].
  eapply wp_mono; [apply (wp_delete_histories _ _ V); try done; try lia; try (intros x Hx; by apply Hin)|].
  - rewrite Hw2, Hw1, drop_ge by lia. by rewrite without_nil.
  - intros r3 w3 (Hp & j & Hj & Hw3 & Hr). rewrite Hw3. apply prunes_without; try done; try lia.
    apply go_sort_in_order, HistoryLess_ordering.
Qed.

(** a limit below one is not usable.  Although every history can be deleted, and
    even when there is none, the loop over the histories runs past the first element
    of the slice, and the call panics. *)
Theorem history_limit_below_one_panics team selectors limit w items w1 :
  (forall (x : ActivePromotionHistory) w e w', k_delete x w = (Err e, w') ->
     kview ActivePromotionHistory w !! kkey x = None) ->
  (forall k x, kview ActivePromotionHistory w !! k = Some x -> om_Finalizers (ath_Meta x) = []) ->
  - 2 ^ 62 < limit <= 0 ->
  (forall w, fst (used_or (ac_MaxHistories (s2h_ActivePromotion configs)) team
                    (fun c => nonzero (ca_MaxHistories c)) w) = Ok limit) ->
  k_list ActivePromotionHistory (MatchingLabels selectors) w = (Ok items, w1) ->
  fst (deleteActivePromotionHistoryOutOfRange configs team selectors w) = Panic IndexOutOfRange.
Proof.
  intros Hdel Hfin Hlim Hlimit Hlist. set (V := kview ActivePromotionHistory w) in *.
  enough (wp (deleteActivePromotionHistoryOutOfRange configs team selectors) w
    (fun r _ => r = Panic IndexOutOfRange)) as Hwp.
  { destruct (deleteActivePromotionHistoryOutOfRange configs team selectors w) as [r w'] eqn:Heq.
    exact (wp_run _ _ _ _ _ Hwp Heq). }
  unfold deleteActivePromotionHistoryOutOfRange. wp_step. wp_step. apply run_wp. intros r1 w1' Heq.
  rewrite Hlist in Heq. injection Heq as <- <-.
  pose proof (k_list_law (T:=ActivePromotionHistory) (MatchingLabels selectors) w) as Hlaw.
  rewrite Hlist in Hlaw. destruct Hlaw as [Hitems Hw1]. fold V in Hw1, Hitems. wp_step.
  apply wp_preserve with (v := kview ActivePromotionHistory).
  { unfold used_or. apply bind_preserves; [apply _|]. intros []; apply _. }
  apply run_wp. intros r2 w2 Hu Hw2. pose proof (Hlimit w1) as Hl. rewrite Hu in Hl. simpl in Hl. subst r2.
  cbv zeta. rewrite (proj2 (Z.ltb_lt limit _)) by lia. rewrite int_sub_id by (unfold in64; lia).
  pose proof (go_sort_perm HistoryLess items) as Hsp. change (go_sort HistoryLess items) with (SortDESC items) in Hsp.
  pose proof (Permutation_length Hsp) as Hsl.
  destruct (sorted_histories_stored selectors V (SortDESC items)) as [Hnd Hin];
    [by rewrite Hsp, Hitems|intros k x; apply k_view_keyed|done|].
  apply (wp_delete_past _ _ V); try done; try lia; try (intros x Hx; by apply Hin).
  rewrite Hw2, Hw1, drop_ge by lia. by rewrite without_nil.
Qed.
End history.

(** ** Concrete runs *)

Definition sim_start (noDowntime : option bool) : AtpSim := sim_world 1000 (sim_new noDowntime) [].
Definition stored (w : AtpSim) : option ActivePromotion := kview ActivePromotion w !! sim_request.
Definition stored_state (w : AtpSim) : option (ActivePromotionState * ActivePromotionResult) :=
  (fun a => (ast_State (atp_Status a), ast_Result (atp_Status a))) <$> stored w.

Lemma sim_default_retries m :
  ac_MaxRetry (s2h_ActivePromotion (sim_samsahai 0)) = Some m -> m <= 0.
Proof. by intros [= <-]. Qed.

Lemma sim_used_retries team (w : AtpSim) config w' :
  cfg_Get team w = (Ok config, w') -> forall m, used_promotion config ≫= ca_MaxRetry = Some m -> m <= 0.
Proof. simpl. destruct (as_config w) as [[]|]; by intros [= <- <-]. Qed.

Lemma sim_world_stored t atp queues k a :
  kview ActivePromotion (sim_world t atp queues) !! k = Some a -> a = atp.
Proof. intros [Hk _]%well_filed_lookup. simpl in Hk. by apply lookup_singleton_Some in Hk as [_ ->]. Qed.

Lemma stored_some w s : stored_state w = Some s -> exists a, stored w = Some a.
Proof. unfold stored_state. destruct (stored w); [eauto|done]. Qed.

(** A promotion in the middle of its life. *)
Definition sim_at (noDowntime : bool) (state : ActivePromotionState) (result : ActivePromotionResult)
    (conds : list ActivePromotionConditionType) : ActivePromotion :=
  sim_atp ((namedMeta "" "teamtest") <| om_Labels := {[ "state" := stateRunning ]} |>) 0 (Some noDowntime)
    (zeroAtpStatus <| ast_State := state |> <| ast_Result := result |>
       <| ast_Conditions := map (fun c => mkCondition c ConditionTrue 0 "" "") conds |>
       <| ast_TargetNamespace := "s2h-teamtest-new" |>
       <| ast_PreviousActiveNamespace := "s2h-teamtest-old" |>
       <| ast_ActivePromotionHistoryName := "teamtest-history" |>).

Lemma Reconcile_refines_witness :
  let w := sim_rounds 6 (sim_start (Some false)) in
  let w' := snd (Reconcile (sim_samsahai 0) 0 sim_request w) in
  stored_state w' = Some (ActivePromotionDemoting, NoResult) /\
  match stored w, stored w' with
  | Some a, Some a' => rtc (step 0 (team_gone sim_request w)) (ctl a) (ctl a')
  | _, _ => False
  end.
Proof.
  intros w w'.
  match goal with |- ?P /\ _ => assert P as Hstate by by vm_compute end. split; [exact Hstate|].
  destruct (stored_some _ _ Hstate) as [a' Ha']. rewrite Ha'.
  destruct (Reconcile_refines (sim_samsahai 0) 0 0 sim_default_retries sim_used_retries sim_request w
    (fst (Reconcile (sim_samsahai 0) 0 sim_request w)) w' sim_request a' (surjective_pairing _) Ha')
    as (a & Ha & Hsteps).
  change (stored w = Some a) in Ha. by rewrite Ha.
Defined.

(** A cancellation while the pre-active environment is tested. *)
Definition sim_canceled : ActivePromotion :=
  (sim_at false ActivePromotionTestingPreActive NoResult []) <| atp_Meta ::= fun m =>
    m <| om_DeletionTimestamp := Some 900 |> <| om_Finalizers := [activePromotionFinalizer] |> |>.

Lemma sim_canceled_sound : sound 0 (ctl sim_canceled).
Proof. split; try done; vm_compute; congruence. Qed.

Lemma Reconcile_keeps_sound_witness :
  let w := sim_world 1000 sim_canceled [] in
  let w' := snd (Reconcile (sim_samsahai 0) 0 sim_request w) in
  stored_state w' = Some (ActivePromotionCollectingPreActiveResult, ActivePromotionCanceled) /\
  forall k a, kview ActivePromotion w' !! k = Some a -> sound 0 (ctl a).
Proof.
  intros w w'. split; [by vm_compute|].
  apply (Reconcile_keeps_sound (sim_samsahai 0) 0 0 sim_default_retries sim_used_retries sim_request w
    (fst (Reconcile (sim_samsahai 0) 0 sim_request w)) w'); [lia| |apply surjective_pairing].
  intros k a ->%sim_world_stored. exact sim_canceled_sound.
Defined.

(** The previous environment's time is over. *)
Definition sim_settled : ActivePromotion :=
  (sim_at true ActivePromotionDestroyingPreviousActive ActivePromotionSuccess
     [ActivePromotionCondVerified; ActivePromotionCondActivePromoted])
  <| atp_Status ::= fun s => s <| ast_DestroyedTime := Some 500 |> |>.

Lemma sim_settled_sound : sound 0 (ctl sim_settled).
Proof. split; try done; vm_compute; congruence. Qed.

Lemma success_is_final_witness :
  let w := sim_world 1000 sim_settled [] in
  let w' := snd (Reconcile (sim_samsahai 0) 0 sim_request w) in
  stored_state w' = Some (ActivePromotionFinished, ActivePromotionSuccess) /\
  match stored w' with Some a' => settled (ctl a') | None => False end.
Proof.
  intros w w'.
  match goal with |- ?P /\ _ => assert P as Hstate by by vm_compute end. split; [exact Hstate|].
  destruct (stored_some _ _ Hstate) as [a' Ha']. rewrite Ha'.
  refine (success_is_final (sim_samsahai 0) 0 0 sim_default_retries sim_used_retries sim_request w
    (fst (Reconcile (sim_samsahai 0) 0 sim_request w)) w' sim_request sim_settled a'
    ltac:(lia) _ _ _ (surjective_pairing _) Ha').
  - reflexivity.
  - exact sim_settled_sound.
  - split; [reflexivity|left; reflexivity].
Defined.

Lemma manageQueue_starts_next_witness :
  let w := sim_rounds 1 (sim_start (Some false)) in
  let a := default (sim_new None) (stored w) in
  let w' := snd (manageQueue (sim_samsahai 0) a w) in
  stored_state w = Some (ActivePromotionWaiting, NoResult) /\
  stored_state w' = Some (ActivePromotionCreatingPreActive, NoResult) /\
  (kview ActivePromotion w' = kview ActivePromotion w \/
   starts_longest_waiting (sim_samsahai 0) (kview ActivePromotion w) (kview ActivePromotion w')) /\
  running (kview ActivePromotion w') <= 1.
Proof.
  intros w a w'. split; [by vm_compute|]. split; [by vm_compute|].
  pose proof (manageQueue_starts_next (sim_samsahai 0) a w (fst (manageQueue (sim_samsahai 0) a w)) w'
    (surjective_pairing _)) as [H1 H2].
  split; [exact H1|]. eapply Z.le_trans; [exact H2|]. by vm_compute.
Defined.

Lemma randomToken_alphabet_witness :
  exists token, randomToken (W:=AtpSim) tokenLength 3 tt = (Ok token, tt) /\ String.length token = 6%nat.
Proof. destruct (randomToken_alphabet (W:=AtpSim) 3 tt) as (token & H1 & H2 & _). eauto. Defined.

Definition sim_stable (ns name version : string) : StableComponent :=
  mkStableComponent (namedMeta ns name) (mkStableComponentSpec name "repo" version "")
    (mkStableComponentStatus None None).

Lemma stable_components_deployed_witness :
  let w := (sim_start None) <| as_stables := {[ ("s2h-new", "redis") := sim_stable "s2h-new" "redis" "1.0" ]} |> in
  let comps := [sim_stable "s2h" "redis" "2.0"; sim_stable "s2h" "web" "1.0"] in
  let w' := snd (deployStableComponentObjects comps "s2h-new" w) in
  fst (deployStableComponentObjects comps "s2h-new" w) = Ok tt /\
  exists x y, kview StableComponent w' !! ("s2h-new", "redis") = Some x /\ sc_Version (stable_Spec x) = "2.0" /\
    kview StableComponent w' !! ("s2h-new", "web") = Some y.
Proof.
  intros w comps w'.
  match goal with |- ?P /\ _ => assert P as Hok by by vm_compute end. split; [exact Hok|].
  destruct (stable_components_deployed comps "s2h-new" w (fst (deployStableComponentObjects comps "s2h-new" w)) w')
    as (H & _ & _).
  - clear. intros k x [Hk _]%well_filed_lookup. simpl in Hk. apply lookup_singleton_Some in Hk as [_ <-].
    by intros [? _].
  - apply (bool_decide_unpack _). exact I.
  - apply surjective_pairing.
  - destruct (H Hok) as (_ & Hc).
    destruct (Hc (sim_stable "s2h" "redis" "2.0")) as (x & Hx & Hs); [by left|].
    destruct (Hc (sim_stable "s2h" "web" "1.0")) as (y & Hy & _); [right; left|].
    exists x, y. split; [exact Hx|]. split; [rewrite Hs; reflexivity|exact Hy].
Defined.

Lemma previous_environment_kept_witness :
  let at_ d := destroyPreviousActiveEnvironmentAt "teamtest" "s2h-teamtest-old" (Some d) (sim_start None) in
  fst (at_ 1500) = Err ErrEnsureNamespaceDestroyed /\
  kview (KubeObj NamespaceKind) (snd (at_ 500)) !! ("", "s2h-teamtest-old") = None.
Proof.
  intros at_. split.
  - apply (previous_environment_kept "teamtest" "s2h-teamtest-old" (Some 1500) (sim_start None)
      (fst (at_ 1500)) (snd (at_ 1500))); [done|apply surjective_pairing|by vm_compute].
  - destruct (previous_environment_kept "teamtest" "s2h-teamtest-old" (Some 500) (sim_start None)
      (fst (at_ 500)) (snd (at_ 500))) as [H _]; [done|apply surjective_pairing|].
    destruct H as (t & _ & _ & Hgone); [by vm_compute|]. exact Hgone.
Defined.

Definition sim_history (name : string) (created : Z) : ActivePromotionHistory :=
  mkActivePromotionHistory
    ((namedMeta "" name) <| om_Labels := GetDefaultLabels "teamtest" |> <| om_CreationTimestamp := created |>)
    (mkActivePromotionHistorySpec "teamtest" None true None).
Definition sim_histories (l : list ActivePromotionHistory) : AtpSim :=
  (sim_start None) <| as_hists := list_to_map ((fun h => (kkey h, h)) <$> l) |>.

Lemma sim_cfg_frame team : Preserves (cfg_Get (W:=AtpSim) team) (kview ActivePromotionHistory).
Proof. intros w. simpl. by destruct (as_config w). Qed.

Lemma history_kept_within_limit_witness :
  let w := sim_histories [sim_history "h1" 10; sim_history "h2" 30; sim_history "h3" 20] in
  let res := deleteActivePromotionHistoryOutOfRange (sim_samsahai 0) "teamtest" (GetDefaultLabels "teamtest") w in
  prunes (GetDefaultLabels "teamtest") 2 (kview ActivePromotionHistory w) (fst res)
    (kview ActivePromotionHistory (snd res)) /\
  (map_to_list (kview ActivePromotionHistory (snd res))).*1 = [("", "h2")].
Proof.
  intros w res. split; [|by vm_compute].
  apply (history_kept_within_limit (cfg_frame:=sim_cfg_frame) (sim_samsahai 0) "teamtest" (GetDefaultLabels "teamtest") 2 w).
  - done.
  - intros w0. unfold used_or, attempt, mbind, M_bind. simpl. by destruct (as_config w0) as [[]|].
  - lia.
  - intros k x [Hk _]%well_filed_lookup. simpl in Hk.
    by repeat (apply lookup_insert_Some in Hk as [[_ <-]|[_ Hk]]; [done|]).
  - apply surjective_pairing.
Defined.

Lemma history_limit_below_one_panics_witness :
  let configs := sim_samsahai_keeping 0 0 in
  fst (deleteActivePromotionHistoryOutOfRange configs "teamtest" ∅ (sim_histories [])) = Panic IndexOutOfRange.
Proof.
  intros configs. apply (history_limit_below_one_panics (cfg_frame:=sim_cfg_frame) configs "teamtest" ∅ 0 _ [] (sim_histories [])).
  - intros x w e w'. simpl. by destruct (kview ActivePromotionHistory w !! kkey x) eqn:Hx.
  - by intros k x [Hk _]%well_filed_lookup.
  - lia.
  - intros w0. unfold used_or, attempt, mbind, M_bind. simpl. by destruct (as_config w0) as [[]|].
  - reflexivity.
Defined.
