(* ===== verification/AtpFindings.v ===== *)
(** Behaviour of the promotion controller that modelling it brought to light: each
    theorem states what the code does where a comment, a test or the rest of the code
    suggests something else. *)

From S2P Require Import Prelude.
From S2P Require Import GoRuntime.
From S2P Require Import Errors.
From S2P Require Import KubeApi.
From S2P Require Import Frame.
From S2P Require Import ConfigTypes.
From S2P Require Import ComponentTypes.
From S2P Require Import QueueTypes.
From S2P Require Import TeamTypes.
From S2P Require Import AtpTypes.
From S2P Require Import RpcTypes.
From S2P Require Import QueueCtrl.
From S2P Require Import Interfaces.
From S2P Require Import Cleanup.
From S2P Require Import Outdated.
From S2P Require Import AtpCtrl.
From S2P Require Import AtpMachine.
From S2P Require Import AtpFrame.
From S2P Require Import AtpSpec.
From S2P Require Import AtpSim.
From S2P Require Import AtpClaims.
Open Scope string_scope.
Open Scope list_scope.
Open Scope Z_scope.

Section findings.
Context {W : Type} `{GR : GoRuntime W} `{GS : GoSort} `{PC : PromotionCluster W}
  `{CC : ConfigController W} `{SC : SamsahaiController W}.
Context (configs : SamsahaiConfig).

(** [setup] needs somebody to choose.  It panics exactly when neither the promotion
    nor the promotion part of the team's configuration says whether to guarantee no
    downtime, and otherwise succeeds and leaves the choice in the promotion. *)
Theorem setup_needs_a_choice w a config w1 :
  cfg_Get (kname a) w = (Ok config, w1) ->
  let choice := match as_NoDowntimeGuarantee (atp_Spec a) with
    | Some b => Some b | None => ca_NoDowntimeGuarantee <$> used_promotion config end in
  match choice with
  | None => fst (setup configs (w, a)) = Panic NilDereference
  | Some b => fst (setup configs (w, a)) = Ok tt /\
      let a' := snd (snd (setup configs (w, a))) in
      as_NoDowntimeGuarantee (atp_Spec a') = Some b /\ is_Some (as_TearDownDuration (atp_Spec a')) /\
      ast_State (atp_Status a') = ActivePromotionWaiting /\ is_waiting a'
  end.
Proof.
  intros Hcfg. cbv zeta.
  destruct (rt_now w1) as [t w2] eqn:Ht.
  unfold setup, mbind, M_bind, get_obj, onW, mod_obj, mret, M_ret, deref. simpl. rewrite Hcfg. simpl.
  destruct (as_TearDownDuration (atp_Spec a)) eqn:Htd, (as_NoDowntimeGuarantee (atp_Spec a)) eqn:Hnd,
    (used_promotion config) as [c|] eqn:Hc; simpl; rewrite ?Hnd; simpl; try done;
    unfold set_state, now, mbind, M_bind, onW, mod_obj; simpl; rewrite Ht; simpl; rewrite ?Hnd, ?Htd;
    split_and!; try done; apply lookup_insert_eq.
Qed.

(** The errors of a call that are errors of [P]. *)
Definition errs_with {S A} (P : error -> Prop) (m : M S A) : Prop :=
  forall s e s', m s = (Err e, s') -> P e.

Section errs.
Context {S : Type} (P : error -> Prop).

Lemma errs_ret {A} (x : A) : errs_with (S:=S) P (mret x).
Proof. by intros s e s'. Qed.
Lemma errs_bind {A B} (m : M S A) (k : A -> M S B) :
  errs_with P m -> (forall x, errs_with P (k x)) -> errs_with P (mbind k m).
Proof.
  intros Hm Hk s e s'. unfold mbind, M_bind. destruct (m s) as [[x|e1|p] s1] eqn:Hs; intros Heq; [by eapply Hk| |done].
  simplify_eq. by eapply Hm.
Qed.
Lemma errs_attempt {A} (m : M S A) : errs_with P (attempt m).
Proof. intros s e s'. unfold attempt. by destruct (m s) as [[] ?]. Qed.
Lemma errs_wrapping {A} msg (m : M S A) :
  (forall e, P (Wrap e msg)) -> errs_with P (wrapping msg m).
Proof.
  intros HP. unfold wrapping. apply errs_bind; [apply errs_attempt|].
  intros [e|x]; [|apply errs_ret]. intros s e' s' [= <- _]. apply HP.
Qed.
End errs.

Lemma errs_get_obj P : errs_with (S:=W * ActivePromotion) P get_obj.
Proof. by intros s e s'. Qed.
Lemma errs_mod_obj P f : errs_with (S:=W * ActivePromotion) P (mod_obj f).
Proof. by intros s e s'. Qed.
Lemma errs_now P : errs_with (S:=W) P now.
Proof. intros s e s'. unfold now. by destruct (rt_now s). Qed.
Lemma errs_onW {A} P (m : M W A) : errs_with P m -> errs_with (S:=W * ActivePromotion) P (onW m).
Proof.
  intros Hm [w a] e s'. unfold onW. simpl. destruct (m w) as [r w1] eqn:Hw. intros [= -> _]. by eapply Hm.
Qed.

Ltac errs :=
  repeat (intros; first
    [ apply errs_ret | apply errs_get_obj | apply errs_mod_obj | apply errs_attempt | apply errs_now
    | apply errs_wrapping | apply errs_bind | apply errs_onW
    | match goal with |- errs_with _ (match ?x with _ => _ end) => destruct x end
    | progress lazy beta iota zeta ]).

(** an unfinished queue is never waited for while the result is collected: no error
    of [collectResult] is the one that [Reconcile] requeues in this state, because the
    one that tells of an unfinished queue has been wrapped. *)
Theorem collect_error_never_requeued s e s' :
  collectResult s = (Err e, s') -> IsEnsuringComponentTested e = false.
Proof.
  revert s e s'. change (errs_with (fun e => IsEnsuringComponentTested e = false) collectResult).
  unfold collectResult, getTargetNamespace, set_cond, set_state, set_status. errs; reflexivity.
Qed.

Context `{KVA : KView W ActivePromotion} `{KLA : !KClientLaws W ActivePromotion}.
Context `{PF : !PromotionFrame W (kview ActivePromotion)}.

(** a late demotion without downtime is forgotten.  When such a promotion has
    recorded the time of the destruction, the check of the demotion timeout stores no
    promotion, and does not return normally unless it left its copy alone as well: when
    a timeout moves the copy on to the next state, the stored promotion stays where it
    is, and the next reconciliation finds it late again. *)
Theorem late_demotion_forgotten w a r w' a' :
  no_downtime a = true -> ast_DestroyedTime (atp_Status a) <> None ->
  checkDemotionTimeout configs (w, a) = (r, (w', a')) ->
  kview ActivePromotion w' = kview ActivePromotion w /\ (r = Ok tt -> a' = a).
Proof.
  intros Hnd Hd Heq. set (V := kview ActivePromotion w).
  refine (wp_run _ _ r (w', a') (fun r s => kview ActivePromotion (fst s) = V /\ (r = Ok tt -> snd s = a)) _ Heq).
  assert (forall A (h : Handler A) s, Preserves h (of_both (kview ActivePromotion) id) ->
    kview ActivePromotion (fst s) = V -> snd s = a -> forall Q', (forall r s', kview ActivePromotion (fst s') = V ->
      snd s' = a -> Q' r s') -> wp h s Q') as Hkeep.
  { intros A h s Hp Hv Ha Q' HQ. apply (wp_frame h (of_both (kview ActivePromotion) id)). intros r1 s1 _ Hs.
    unfold of_both, id in Hs. injection Hs as H1 H2. apply HQ; congruence. }
  unfold checkDemotionTimeout.
  wp_step. apply Hkeep; [apply _|done..|]. intros [[]|e|p] s1 Hv Ha; [|by wp_step|done..].
  wp_step. wp_step. rewrite Ha. rewrite bool_decide_false by done.
  wp_step. apply Hkeep; [apply _|done..|]. intros [[]|e|p] s2 Hv2 Ha2; [|done..]. rewrite Hnd.
  match goal with |- wp ?h _ _ => apply (wp_frame h (of_world (kview ActivePromotion))) end.
  unfold of_world. intros r3 s3 Hrun Hv3. split; [congruence|]. intros ->.
  unfold set_cond, set_state, set_status, mbind, M_bind, onW, mod_obj, throw, now in Hrun.
  destruct s2 as [w2 a2]. simpl in Hrun. repeat case_match; congruence.
Qed.
End findings.

(** ** Concrete runs *)

Definition later (d : Z) (w : AtpSim) : AtpSim := w <| as_clock ::= Z.add d |>.
Definition active_namespace (w : AtpSim) : string :=
  match as_teams w !! ("", "teamtest") with
  | Some t => tn_Active (tst_Namespace (team_Status t)) | None => "" end.

(** a late timeout destroys the environment that has just become active.  In a run
    without downtime the promotion is a success, its namespace is the active one of the
    team, and the demotion of the previous one is still going on.  Then the time of the
    promotion is over: it becomes a failure and rolls back, which destroys the active
    namespace, while the team still points to it. *)
Theorem timeout_destroys_active_environment :
  let w := sim_rounds 10 (sim_start (Some true)) in
  let w' := sim_rounds 2 (later Hour w) in
  stored_state w = Some (ActivePromotionDemoting, ActivePromotionSuccess) /\
  stored_state w' = Some (ActivePromotionRollback, ActivePromotionFailure) /\
  active_namespace w' = active_namespace w /\ active_namespace w <> "" /\
  is_Some (kview (KubeObj NamespaceKind) w !! ("", active_namespace w)) /\
  kview (KubeObj NamespaceKind) w' !! ("", active_namespace w) = None.
Proof. vm_compute. repeat split; try discriminate. by eexists. Qed.

Definition sim_unset (w : AtpSim) : AtpSim := w <| as_config := Some None |>.

Lemma setup_needs_a_choice_witness :
  fst (setup (sim_samsahai 0) (sim_unset (sim_start None), sim_new None)) = Panic NilDereference /\
  fst (setup (sim_samsahai 0) (sim_start None, sim_new None)) = Ok tt.
Proof.
  split.
  - exact (setup_needs_a_choice (sim_samsahai 0) (sim_unset (sim_start None)) (sim_new None)
      (sim_config None) _ eq_refl).
  - exact (proj1 (setup_needs_a_choice (sim_samsahai 0) (sim_start None) (sim_new None)
      (sim_config (Some false)) _ eq_refl)).
Defined.

(** The demotion began more than the ten minutes ago that it may take. *)
Definition sim_late : ActivePromotion :=
  (sim_at true ActivePromotionDemoting ActivePromotionSuccess
     [ActivePromotionCondVerified; ActivePromotionCondActivePromoted; ActivePromotionCondActiveDemotionStarted])
  <| atp_Status ::= fun s => s <| ast_DestroyedTime := Some 500 |> |>.
Definition sim_late_world : AtpSim := sim_world (15 * Minute) sim_late [].
Definition sim_late_run : outcome unit * (AtpSim * ActivePromotion) :=
  checkDemotionTimeout (sim_samsahai 0) (sim_late_world, sim_late).

Lemma late_demotion_forgotten_witness :
  fst sim_late_run = Err ErrActiveDemotionTimeout /\
  ast_State (atp_Status (snd (snd sim_late_run))) = ActivePromotionDestroyingPreviousActive /\
  kview ActivePromotion (fst (snd sim_late_run)) = kview ActivePromotion sim_late_world.
Proof.
  split; [reflexivity|]. split; [reflexivity|].
  apply (late_demotion_forgotten (sim_samsahai 0) sim_late_world sim_late (fst sim_late_run)
    (fst (snd sim_late_run)) (snd (snd sim_late_run))); [reflexivity|discriminate|].
  unfold sim_late_run. destruct (checkDemotionTimeout _ _) as [r [w a]]. reflexivity.
Defined.

(** The deployment failed, and the queue is not finished. *)
Definition sim_collecting : ActivePromotion :=
  sim_at false ActivePromotionCollectingPreActiveResult ActivePromotionFailure [ActivePromotionCondVerified].

Lemma collect_error_never_requeued_witness :
  let w := sim_world 1000 sim_collecting [] in
  match collectResult (w, sim_collecting) with
  | (Err e, _) => string_contains (err_text e) (err_text ErrEnsureComponentTested) = true /\
                  IsEnsuringComponentTested e = false
  | _ => False
  end.
Proof.
  intros w. destruct (collectResult (w, sim_collecting)) as [r s'] eqn:Heq.
  assert (fst (collectResult (w, sim_collecting)) =
    Err (Wrap ErrEnsureComponentTested "cannot ensure pre-active components finished, namespace s2h-teamtest-new")) as Hr
    by reflexivity.
  rewrite Heq in Hr. simpl in Hr. subst r. split; [reflexivity|].
  exact (collect_error_never_requeued _ _ _ Heq).
Defined.
