(* ===== verification/TeamClaims.v ===== *)
(** The properties of the team controller: the switch of the active namespace, the
    deletion of a team, and the composition with the promotion controller. *)

From S2P Require Import Prelude.
From S2P Require Import GoRuntime.
From S2P Require Import Errors.
From S2P Require Import KubeApi.
From S2P Require Import Frame.
From S2P Require Import Evolution.
From S2P Require Import ConfigTypes.
From S2P Require Import ComponentTypes.
From S2P Require Import QueueTypes.
From S2P Require Import TeamTypes.
From S2P Require Import AtpTypes.
From S2P Require Import RpcTypes.
From S2P Require Import QueueCtrl.
From S2P Require Import Interfaces.
From S2P Require Import ConfigCtrl.
From S2P Require Import Cleanup.
From S2P Require Import Outdated.
From S2P Require Import AtpCtrl.
From S2P Require Import SamsahaiCtrl.
From S2P Require Import AtpMachine.
From S2P Require Import AtpFrame.
From S2P Require Import AtpSpec.
From S2P Require Import TeamFrame.
From S2P Require Import AtpSim.
From S2P Require Import AtpClaims.
From S2P Require Import AtpFindings.
From stdpp Require Import relations.
Open Scope string_scope.
Open Scope list_scope.
Open Scope Z_scope.

(** ** The switch *)

Section switch.
Context {W O : Type} `{GR : GoRuntime W} `{KTeam : KClient W Team}.
Context `{KVT : KView W Team} `{KLT : !KClientLaws W Team} `{RFT : !RuntimeFrame W (kview Team)}.

(** A condition is set at some time; nothing is stored. *)
Lemma wp_set_team_cond cond status msg s (Q : outcome unit -> W * Team -> Prop) :
  (forall w' t, kview Team w' = kview Team (fst s) ->
     Q (Ok tt) (w', (snd s) <| team_Status ::= TeamSetCondition t cond status msg |>)) ->
  wp (set_team_cond cond status msg) s Q.
Proof.
  intros HQ. unfold set_team_cond. wp_step. apply wp_onW, wp_frame with (v := kview Team); [apply _|].
  intros r w' Hr Hw. unfold now in Hr. destruct (rt_now (fst s)) as [t w1]. simplify_eq. wp_step. by apply HQ.
Qed.

(** The copy of the caller is stored, or nothing is. *)
Lemma wp_updateTeam s (Q : outcome unit -> W * Team -> Prop) :
  (forall w', kview Team w' = store_update (snd s) (kview Team (fst s)) -> Q (Ok tt) (w', snd s)) ->
  (forall e w', kview Team w' = kview Team (fst s) -> Q (Err e) (w', snd s)) ->
  wp updateTeam s Q.
Proof.
  intros Hok Herr. unfold updateTeam, wrapping. wp_step. wp_step. wp_step. wp_step. wp_step. wp_fst.
  apply wp_k_update; intros; wp_step; eauto.
Qed.

Lemma wp_apply_option {A} opt (k : NamespaceInfo -> TeamHandler A) s (Q : outcome A -> W * Team -> Prop) :
  wp (k (opt (snd s)).2) (fst s, (opt (snd s)).1) Q -> wp (mbind k (apply_option opt)) s Q.
Proof.
  intros H. wp_step. apply run_wp. intros r s' Heq. unfold apply_option in Heq.
  destruct (opt (snd s)) as [t info]. by injection Heq as <- <-.
Qed.

Definition apply_options (opts : list TeamNamespaceStatusOption) (t : Team) : Team :=
  fold_left (fun t opt => (opt t).1) opts t.

(** The options are applied in turn, and the result is stored. *)
Lemma wp_updateTeamNamespacesStatus opts s (Q : outcome unit -> W * Team -> Prop) :
  let t := apply_options opts (snd s) in
  (forall w', kview Team w' = store_update t (kview Team (fst s)) -> Q (Ok tt) (w', t)) ->
  (forall e w', kview Team w' = kview Team (fst s) -> Q (Err e) (w', t)) ->
  wp (updateTeamNamespacesStatus opts) s Q.
Proof.
  intros t Hok Herr. unfold updateTeamNamespacesStatus. wp_step.
  apply (wp_for_each (fun todo s' => fst s' = fst s /\
    apply_options todo (snd s') = t)); [done| |].
  - intros opt todo s' [Hw Ht]. apply wp_apply_option. by wp_step.
  - intros s' [Hw Ht]. simpl in Ht. apply wp_updateTeam; rewrite Hw, Ht; auto.
Qed.

(** The roles of the namespaces of a team. *)
Definition roles (t : Team) : TeamNamespace := tst_Namespace (team_Status t).
Definition holds (t : Team) (cond : TeamConditionType) : bool := TeamIsConditionTrue (team_Status t) cond.

Lemma holds_set t x cond st msg cond' :
  holds (x <| team_Status ::= TeamSetCondition t cond st msg |>) cond' =
  if decide (cond' = cond) then bool_decide (st = ConditionTrue) else holds x cond'.
Proof.
  unfold holds, TeamIsConditionTrue, TeamSetCondition. simpl. case_decide as Hc.
  - subst. by rewrite is_condition_true_set.
  - by rewrite is_condition_true_set_ne.
Qed.

(** What the switch makes of a team. *)
Definition switched (ns promotedBy : string) (comps : gmap string StableComponent) (t t' : Team) : Prop :=
  roles t' = (roles t) <| tn_Active := ns |> <| tn_PreviousActive := tn_Active (roles t) |> <| tn_PreActive := "" |> /\
  tst_ActiveComponents (team_Status t') = kept <$> comps /\
  (promotedBy <> "" ->
     tst_ActivePromotedBy (team_Status t') = promotedBy /\ tst_ActiveDeletedBy (team_Status t') = "") /\
  holds t' TeamNamespaceActiveCreated = true /\ holds t' TeamNamespacePreviousActiveCreated = true /\
  holds t' TeamNamespacePreActiveCreated = false /\
  team_Meta t' = team_Meta t /\ team_Spec t' = team_Spec t.

Lemma switched_by promotedBy comps t x :
  roles x = roles t -> tst_ActiveComponents (team_Status x) = kept <$> comps ->
  holds x TeamNamespaceActiveCreated = true -> holds x TeamNamespacePreviousActiveCreated = true ->
  holds x TeamNamespacePreActiveCreated = false -> team_Meta x = team_Meta t -> team_Spec x = team_Spec t ->
  switched (tn_PreActive (roles t)) promotedBy comps t (apply_options
    [withTeamActiveNamespaceStatus (tn_PreActive (roles t)) promotedBy false;
     withTeamPreviousActiveNamespaceStatus (tn_Active (roles t)) false;
     withTeamPreActiveNamespaceStatus "" false] x).
Proof.
  unfold switched, apply_options, withTeamActiveNamespaceStatus, roles. simpl. intros Hr.
  destruct (String.eqb_spec promotedBy ""); simpl; intros; rewrite ?Hr; by split_and!.
Qed.

(** A call that stores the caller's copy, or fails. *)
Definition stores (r : outcome unit) (w w' : W) (t' : Team) : Prop :=
  r = Ok tt /\ kview Team w' = store_update t' (kview Team w) \/
  (exists e, r = Err e) /\ kview Team w' = kview Team w.

(** the switch of the active namespace.  For the pre-active namespace of the team it
    becomes the active one, the active one becomes the previous one and there is no
    pre-active one any more, with the conditions to match and the components recorded;
    the copy is stored exactly when the call succeeds.  For the namespace that is active
    already the call does nothing; any other namespace is an error and nothing is
    touched. *)
Theorem PromoteActiveEnvironment_switches ns promotedBy comps w t r w' t' :
  PromoteActiveEnvironment ns promotedBy comps (w, t) = (r, (w', t')) ->
  if decide (ns = tn_PreActive (roles t)) then switched ns promotedBy comps t t' /\ stores r w w' t'
  else w' = w /\ t' = t /\ (r = Ok tt <-> ns = tn_Active (roles t)) /\ (forall p, r <> Panic p).
Proof.
  intros Heq. case_decide as Hns.
  - refine (wp_run _ _ r (w', t') (fun r s => switched ns promotedBy comps t (snd s) /\ stores r w (fst s) (snd s)) _ Heq).
    unfold PromoteActiveEnvironment. wp_step. wp_step. cbv zeta. wp_fst. subst ns.
    rewrite String.eqb_refl. wp_step. apply wp_wrapping. unfold storeActiveComponentsToTeam. wp_step. wp_fst.
    do 3 (wp_step; apply wp_set_team_cond; wp_fst; intros ? ? ?). apply wp_wrapping.
    apply wp_updateTeamNamespacesStatus; wp_fst.
    all: intros; lazy beta iota; cbn [fst snd]; (split; [|unfold stores; naive_solver congruence]).
    all: apply switched_by; try done; rewrite !holds_set; reflexivity.
  - unfold PromoteActiveEnvironment, mbind, M_bind, get_obj in Heq. simpl in Heq. fold (roles t) in Heq.
    destruct (String.eqb_spec ns (tn_PreActive (roles t))); [done|].
    destruct (String.eqb_spec ns (tn_Active (roles t))); injection Heq as <- <- <-; split_and!; try done.
Qed.
End switch.

(** ** The deletion of a team *)

Section deletion.
Context {W O : Type} `{GR : GoRuntime W} `{CC : ConfigController W}.
Context `{KTeam : KClient W Team} `{KStable : KClient W StableComponent} `{KConfig : KClient W Config}
  {KObjs : forall k, KClient W (KubeObj k)}.
Context `{KVT : KView W Team} `{KLT : !KClientLaws W Team}.
Context `{KVN : KView W (KubeObj NamespaceKind)} `{KLN : !KClientLaws W (KubeObj NamespaceKind)}.
Context `{KVC : KView W Config} `{KLC : !KClientLaws W Config}.
(** Each kind of object is stored on its own. *)
Context `{RFT : !RuntimeFrame W (kview Team)} `{FTS : !KFrame W StableComponent (kview Team)}
  `{FTO : forall k, KFrame W (KubeObj k) (kview Team)} `{FTC : !KFrame W Config (kview Team)}
  `{FTD : forall team, Preserves (cfg_Delete team) (kview Team)}.
Context `{RFN : !RuntimeFrame W (kview (KubeObj NamespaceKind))}
  `{FNT : !KFrame W Team (kview (KubeObj NamespaceKind))}
  `{FNS : !KFrame W StableComponent (kview (KubeObj NamespaceKind))}
  `{FNO : forall k, k <> NamespaceKind -> KFrame W (KubeObj k) (kview (KubeObj NamespaceKind))}
  `{FNC : !KFrame W Config (kview (KubeObj NamespaceKind))}
  `{FND : forall team, Preserves (cfg_Delete team) (kview (KubeObj NamespaceKind))}.
Context `{FCT : !KFrame W Team (kview Config)}.
(** The server answers a deletion with a conflict when the namespace is on its way out. *)
Context (conflict_terminating : forall (x : KubeObj NamespaceKind) w e w',
  k_delete x w = (Err e, w') -> IsConflict e = true ->
  exists y, kview (KubeObj NamespaceKind) w !! kkey x = Some y /\ om_DeletionTimestamp (ko_Meta y) <> None).

(** A namespace that is gone, or on its way out. *)
Definition released (w : W) (ns : string) : Prop :=
  forall y, kview (KubeObj NamespaceKind) w !! ("", ns) = Some y -> om_DeletionTimestamp (ko_Meta y) <> None.
Definition held (t : Team) : Prop := ContainsString (om_Finalizers (team_Meta t)) teamFinalizerName = true.
(** The stored team has its finalizer, and so has the copy. *)
Definition guarded (m : ObjectMeta) (s : W * Team) : Prop :=
  team_Meta (snd s) = m /\ exists x, kview Team (fst s) !! (om_Namespace m, om_Name m) = Some x /\ held x.

(** An option about the namespace [ns]. *)
Definition about (ns : string) (opt : TeamNamespaceStatusOption) : Prop :=
  forall t, (opt t).2.1.1 = ns /\ team_Meta (opt t).1 = team_Meta t.

Lemma guarded_frame m w w' t t' :
  guarded m (w, t) -> kview Team w' = kview Team w -> team_Meta t' = team_Meta t -> guarded m (w', t').
Proof. unfold guarded. simpl. intros [H1 H2] Hw Ht. rewrite Hw, Ht. by split. Qed.

Lemma guarded_store m w w' t :
  guarded m (w, t) -> held t -> kview Team w' = store_update t (kview Team w) -> guarded m (w', t).
Proof.
  unfold guarded. simpl. intros [<- H2] Ht Hw. split; [done|]. rewrite Hw. exists t. split; [|done].
  unfold store_update. rewrite decide_False; [by rewrite lookup_insert_eq|].
  intros [_ Hf]. unfold held in Ht. change (om_Finalizers (team_Meta t) = []) in Hf. by rewrite Hf in Ht.
Qed.

Lemma wp_guarded_update m opts s (Q : outcome unit -> W * Team -> Prop) :
  guarded m s -> held (snd s) -> Forall (fun opt => exists ns, about ns opt) opts ->
  (forall r s', guarded m s' -> kview (KubeObj NamespaceKind) (fst s') = kview (KubeObj NamespaceKind) (fst s) ->
     Q r s') ->
  wp (updateTeamNamespacesStatus opts) s Q.
Proof.
  intros Hg Hh Hopts HQ. apply run_wp. intros r s' Heq. apply HQ.
  - assert (team_Meta (apply_options opts (snd s)) = team_Meta (snd s)) as Hm.
    { clear -Hopts. destruct s as [w t]. simpl. revert t. induction Hopts as [|opt opts [ns Ho] _ IH]; [done|].
      intros t. unfold apply_options in *. cbn [fold_left]. rewrite IH. apply Ho. }
    eapply (wp_run _ _ _ _ (fun _ s' => guarded m s')); [|exact Heq]. destruct s as [w t]. cbn [fst snd] in *.
    apply wp_updateTeamNamespacesStatus; cbn [fst snd].
    + intros w' Hw. eapply guarded_store; [by eapply guarded_frame|unfold held; by rewrite Hm|done].
    + intros e w' Hw. by eapply guarded_frame.
  - pose proof (preserves (m:=updateTeamNamespacesStatus opts) (v:=of_world (kview (KubeObj NamespaceKind))) s) as Hp.
    by rewrite Heq in Hp.
Qed.

(** A step that touches neither the teams nor the namespaces. *)
Lemma wp_aside {A} m (h : M W A) s (Q : outcome A -> W * Team -> Prop) :
  Preserves h (kview Team) -> Preserves h (kview (KubeObj NamespaceKind)) -> guarded m s ->
  (forall r w', guarded m (w', snd s) -> kview (KubeObj NamespaceKind) w' = kview (KubeObj NamespaceKind) (fst s) ->
     Q r (w', snd s)) ->
  wp (onW h) s Q.
Proof.
  intros HpT HpN Hg HQ. apply wp_onW, run_wp. intros r w' Heq.
  pose proof (preserves (m:=h) (v:=kview Team) (fst s)) as HT. pose proof (preserves (m:=h)
    (v:=kview (KubeObj NamespaceKind)) (fst s)) as HN. rewrite Heq in HT, HN. apply HQ; [|done].
  destruct s. by eapply guarded_frame.
Qed.

Lemma wp_guarded_cond m cond st msg s (Q : outcome unit -> W * Team -> Prop) :
  guarded m s ->
  (forall s', guarded m s' -> kview (KubeObj NamespaceKind) (fst s') = kview (KubeObj NamespaceKind) (fst s) ->
     Q (Ok tt) s') ->
  wp (set_team_cond cond st msg) s Q.
Proof.
  intros Hg HQ. apply run_wp. intros r s' Heq.
  pose proof (preserves (m:=set_team_cond cond st msg) (v:=of_world (kview (KubeObj NamespaceKind))) s) as HN.
  rewrite Heq in HN. revert Heq HN.
  refine (wp_run _ _ r s' (fun r s' => of_world _ s' = of_world _ s -> Q r s') _).
  apply wp_set_team_cond. intros w' t Hw HN. apply HQ; [|exact HN]. destruct s. by eapply guarded_frame.
Qed.

Lemma held_meta m s : guarded m s -> held (snd s) <-> ContainsString (om_Finalizers m) teamFinalizerName = true.
Proof. unfold held. by intros [-> _]. Qed.

(** A namespace that is dealt with without an error has not been touched: it was away or
    on its way out. *)
Lemma wp_destroy_one m ns opt s :
  guarded m s -> ContainsString (om_Finalizers m) teamFinalizerName = true -> about ns opt ->
  wp (destroy_one opt) s (fun r s' => guarded m s' /\
    (r = Ok tt -> kview (KubeObj NamespaceKind) (fst s') = kview (KubeObj NamespaceKind) (fst s) /\
       (ns <> "" -> released (fst s) ns))).
Proof.
  intros Hg Hm Hopt. unfold destroy_one. apply wp_apply_option. destruct s as [w t]. cbn [fst snd].
  destruct (Hopt t) as [Hns Hmeta]. destruct (opt t) as [t1 [[ns' res] type]]. simpl in Hns, Hmeta. subst ns'.
  cbn [fst snd]. lazy beta iota.
  assert (guarded m (w, t1)) as Hg1 by by eapply guarded_frame.
  assert (Forall (fun opt => exists ns, about ns opt) [opt]) as Hopts by (constructor; [by exists ns|done]).
  destruct (String.eqb_spec ns "") as [->|Hne].
  - wp_step. apply (wp_guarded_cond m); [done|]. intros s1 Hg2 Hn2. apply wp_wrapping.
    eapply wp_guarded_update; [done|by apply (held_meta m)|done|]. intros r s2 Hg3 Hn3.
    destruct r; (split; [done|]); simpl in *; try done. intros _. split; [congruence|done].
  - pose proof (FNO ClusterRoleKind ltac:(done)). pose proof (FNO ClusterRoleBindingKind ltac:(done)).
    unfold destroyClusterRole, destroyClusterRoleBinding.
    do 3 (wp_step; apply wp_wrapping; eapply (wp_aside m); [apply _|apply _|eassumption|];
      let Hg := fresh "Hg" in intros [[]|?|?] ? Hg ?; cbn [fst snd] in *; [|by split..]).
    pose proof (FTO NamespaceKind). assert (kview (KubeObj NamespaceKind) w'1 = kview (KubeObj NamespaceKind) w) as Hw1 by congruence.
    wp_step. wp_step. wp_step. cbn [fst snd] in *. apply wp_preserve with (v := kview Team); [apply _|]. apply wp_k_get.
    + intros y w4 Hy Hw4 HT4. assert (guarded m (w4, t1)) by by eapply guarded_frame.
      pose proof (k_view_keyed _ _ _ Hy) as Hkey.
      wp_step. wp_step. wp_step. cbn [fst snd] in *. apply run_wp. intros r w5 Hdel.
      pose proof (k_delete_frame (v:=kview Team) y w4) as HT5. rewrite Hdel in HT5.
      assert (guarded m (w5, t1)) by by eapply guarded_frame.
      pose proof (k_delete_law y w4) as Hlaw. rewrite Hdel in Hlaw.
      destruct r as [[]|e|p]; [by wp_step| |done]. destruct (IsConflict e) eqn:Hc; wp_step; (split; [done|]); [|done].
      intros _. split; [simpl; destruct Hlaw; congruence|]. intros _ z Hz.
      destruct (conflict_terminating _ _ _ _ Hdel Hc) as (y' & Hy' & Hmark). congruence.
    + intros e w4 Hnone Hw4 HT4. assert (guarded m (w4, t1)) by by eapply guarded_frame.
      destruct (IsNotFound e) eqn:Hnf; [|by wp_step].
      wp_step. apply (wp_guarded_cond m); [done|]. intros s5 Hg5 Hn5. apply wp_wrapping.
      eapply wp_guarded_update; [done|by apply (held_meta m)|done|]. intros r s6 Hg6 Hn6.
      assert (r = Ok tt -> kview (KubeObj NamespaceKind) (fst s6) = kview (KubeObj NamespaceKind) w /\
        (ns <> "" -> released w ns)).
      { intros _. split; [simpl in *; congruence|]. intros _ y Hy. rewrite <- Hw1, Hnone in Hy; done. }
      destruct r; by split.
Qed.

(** The namespaces in which a team has something. *)
Definition own_namespaces (t : Team) : list string :=
  [tn_Staging (roles t); tn_PreviousActive (roles t); tn_PreActive (roles t); tn_Active (roles t)] ++
  tn_PullRequests (roles t).

Lemma EqualFold_empty ns : EqualFold "" ns = true <-> ns = "".
Proof. unfold EqualFold. destruct ns as [|c ns]; by split. Qed.

(** The namespaces to destroy are the ones the team has. *)
Lemma getAllTeamNamespaces_about t : exists l,
  Forall2 about l (getAllTeamNamespaces t true) /\ forall ns, ns ∈ own_namespaces t -> ns <> "" -> ns ∈ l.
Proof.
  set (keep (ns : string) := if EqualFold "" ns then [] else [ns]).
  exists (keep (tn_Staging (roles t)) ++ keep (tn_PreviousActive (roles t)) ++ keep (tn_PreActive (roles t)) ++
    keep (tn_Active (roles t)) ++ tn_PullRequests (roles t)). split.
  - unfold getAllTeamNamespaces, keep. fold (roles t).
    repeat (apply Forall2_app; [destruct (EqualFold _ _); repeat constructor|]);
      try (unfold withTeamActiveNamespaceStatus; done).
    induction (tn_PullRequests (roles t)) as [|ns l IH]; constructor; [by intros t'|done].
  - assert (forall ns, ns <> "" -> ns ∈ keep ns) as Hkeep.
    { intros ns Hne. unfold keep. destruct (EqualFold "" ns) eqn:He; [by apply EqualFold_empty in He|by left]. }
    intros ns Hin Hne. unfold own_namespaces in Hin.
    repeat (apply elem_of_cons in Hin as [->|Hin]; [specialize (Hkeep _ Hne); set_solver|]). set_solver.
Qed.

Lemma wp_destroyNamespaces m l opts s :
  guarded m s -> ContainsString (om_Finalizers m) teamFinalizerName = true -> Forall2 about l opts ->
  wp (destroyNamespaces opts) s (fun r s' => guarded m s' /\
    (r = Ok tt -> kview (KubeObj NamespaceKind) (fst s') = kview (KubeObj NamespaceKind) (fst s) /\
       forall ns, ns ∈ l -> ns <> "" -> released (fst s) ns)).
Proof.
  intros Hg Hm Hl. unfold destroyNamespaces.
  apply (wp_for_each (fun todo s' => guarded m s' /\ kview (KubeObj NamespaceKind) (fst s') =
    kview (KubeObj NamespaceKind) (fst s) /\ exists l', Forall2 about l' todo /\
    forall ns, ns ∈ l -> ns <> "" -> ns ∈ l' \/ released (fst s) ns)).
  - split_and!; [done|done|]. exists l. split; [done|]. by left.
  - intros opt todo s' (Hg' & Hn' & l' & Hl' & Hin). apply Forall2_cons_inv_r in Hl' as (ns & l'' & Hopt & Hl'' & ->).
    eapply wp_mono; [by eapply wp_destroy_one|]. intros r s'' [Hg'' Hok]. destruct r as [[]|e|p]; [|by split..].
    destruct (Hok eq_refl) as [Hn'' Hrel]. split_and!; [done|congruence|]. exists l''. split; [done|].
    intros ns' Hns' Hne. destruct (Hin ns' Hns' Hne) as [[->|?]%elem_of_cons|?]; [|by left|by right].
    right. intros y Hy. apply (Hrel Hne y). by rewrite Hn'.
  - intros s' (Hg' & Hn' & l' & Hl' & Hin). split; [done|]. intros _. split; [done|].
    apply Forall2_nil_inv_r in Hl' as ->. intros ns Hns Hne. by destruct (Hin ns Hns Hne) as [[]%elem_of_nil|?].
Qed.

(** Nothing of a team is left. *)
Definition all_released (t : Team) (w : W) : Prop :=
  (forall ns, ns ∈ own_namespaces t -> ns <> "" -> released w ns) /\ kview Config w !! ("", kname t) = None.

Lemma wp_deleteFinalizer t w :
  guarded (team_Meta t) (w, t) -> held t ->
  wp deleteFinalizer (w, t) (fun r s => guarded (team_Meta t) s \/ all_released t (fst s)).
Proof.
  intros Hg Hm. unfold deleteFinalizer. wp_step. wp_step. cbn [fst snd]. unfold held in Hm. rewrite Hm.
  destruct (getAllTeamNamespaces_about t) as (l & Hl & Hown).
  wp_step. eapply wp_mono; [by eapply wp_destroyNamespaces|].
  intros [[]|e|p] s1 [Hg1 Hok]; [|by left..]. destruct (Hok eq_refl) as [Hn1 Hrel]. cbn [fst] in Hn1, Hrel.
  wp_step. eapply (wp_aside (team_Meta t)); [apply _..|done|]. intros [[]|e|p] w2 Hg2 Hn2; [|by left..].
  wp_step. unfold ensureConfigDestroyed. wp_step. cbn [fst snd]. wp_step. wp_step.
  apply wp_preserve with (v := kview Team); [apply _|].
  apply wp_preserve with (v := kview (KubeObj NamespaceKind)); [apply _|].
  apply wp_k_get; [intros c w3 _ _ _ HT3; wp_step; left; by eapply guarded_frame|].
  intros e w3 Hnone HC3 HN3 HT3. assert (guarded (team_Meta t) (w3, snd s1)) by by eapply guarded_frame.
  destruct (IsNotFound e); [|wp_step; by left]. wp_step.
  assert (all_released t w3) as [Hns Hcfg].
  { split; [intros ns Hns Hne y Hy|by apply Hnone in HC3 || rewrite HC3; apply Hnone].
    apply (Hrel ns (Hown ns Hns Hne) Hne y). by rewrite <- Hn1, <- Hn2, <- HN3. }
  match goal with |- wp ?h _ _ =>
    assert (Preserves h (of_world (kview (KubeObj NamespaceKind)))) as P1 by (unfold GetTeams; preserves);
    assert (Preserves h (of_world (kview Config))) as P2 by (unfold GetTeams; preserves) end.
  apply run_wp. intros r s' Heq. right. specialize (P1 (w3, snd s1)). specialize (P2 (w3, snd s1)).
  rewrite Heq in P1, P2. unfold of_world in *. cbn [fst snd] in *. split; [|congruence].
  intros ns Hin Hne. unfold released. rewrite P1. by apply Hns.
Qed.

Context `{KAtp : KClient W ActivePromotion} `{KSecret : KClient W Secret}
  `{SO : StagingObjects W O} `{OUT : SamsahaiOutside W}.

(** a team is given up last.  While a team that is being deleted is reconciled,
    wherever the call stops, the stored team keeps the finalizer of the controller, or
    every namespace of the team (staging, pre-active, active, previous active and those
    of pull requests) is gone or on its way out and its configuration is gone. *)
Theorem team_deleted_last configs s2h_namespace req w r w' t :
  kview Team w !! ("", snd req) = Some t -> time_is_zero (om_DeletionTimestamp (team_Meta t)) = false -> held t ->
  ReconcileTeam configs s2h_namespace req w = (r, w') ->
  (exists x, kview Team w' !! ("", snd req) = Some x /\ held x) \/ all_released t w'.
Proof.
  intros Ht Hdel Hheld Heq.
  refine (wp_run _ _ r w' (fun _ w' => (exists x, kview Team w' !! ("", snd req) = Some x /\ held x) \/ all_released t w') _ Heq).
  pose proof (k_view_keyed _ _ _ Ht) as Hkey. unfold ReconcileTeam. wp_step. wp_step. apply wp_k_get.
  - intros t' w1 Ht' Hw1. assert (t' = t) as -> by congruence. wp_step. apply wp_with_obj.
    eapply wp_mono with (Q := fun _ s => guarded (team_Meta t) s \/ all_released t (fst s)).
    + unfold reconcile_team. wp_step. wp_step. cbn [fst snd].
      rewrite Hdel. cbn [negb]. wp_step. wp_step.
      eapply wp_mono; [apply wp_deleteFinalizer; [|done]|].
      * split; [done|]. exists t. split; [|done]. cbn [fst]. rewrite Hw1. by rewrite <- Ht, <- Hkey.
      * intros [[]|e|p] s Hs; [by wp_step| |done]. destruct (_ || _); by wp_step.
    + intros r1 s Hs. assert ((exists x, kview Team (fst s) !! ("", snd req) = Some x /\ held x) \/
        all_released t (fst s)) as Hgoal.
      { destruct Hs as [[_ Hs]|?]; [left|by right]. by rewrite <- Hkey. }
      destruct r1; [wp_step|..]; exact Hgoal.
  - intros e w1 _ Hw1. assert (exists x, kview Team w1 !! ("", snd req) = Some x /\ held x) by (rewrite Hw1; eauto).
    destruct (IsNotFound e); wp_step; by left.
Qed.
End deletion.

(** ** The composition *)

Section composition.
Context {W O : Type} `{GR : GoRuntime W} `{GS : GoSort} `{PC : PromotionCluster W}
  `{KConfig : KClient W Config} `{KSecret : KClient W Secret}
  `{CO : ConfigOutside W} `{SO : StagingObjects W O} `{OUT : SamsahaiOutside W}.
Context `{KVA : KView W ActivePromotion} `{KLA : !KClientLaws W ActivePromotion}.
Context `{KVT : KView W Team} `{KLT : !KClientLaws W Team}.
Context `{RFT : !RuntimeFrame W (kview Team)} `{KFT : !KFrame W ActivePromotion (kview Team)}.
(** Each kind of object is stored apart from the promotions, and what leaves the process
    does not reach them. *)
Context `{RFA : !RuntimeFrame W (kview ActivePromotion)} `{OFA : !OutsideFrame W O (kview ActivePromotion)}.
Context `{FH : !KFrame W ActivePromotionHistory (kview ActivePromotion)} `{FT : !KFrame W Team (kview ActivePromotion)}
  `{FQ : !KFrame W Queue (kview ActivePromotion)} `{FS : !KFrame W StableComponent (kview ActivePromotion)}
  `{FSec : !KFrame W Secret (kview ActivePromotion)} `{FO : forall k, KFrame W (KubeObj k) (kview ActivePromotion)}
  `{FC : !KFrame W Config (kview ActivePromotion)}.
Context (configs : SamsahaiConfig) (s2h_namespace : string) (zone : Z) (retries : Z).
Context (retries_default : forall m, ac_MaxRetry (s2h_ActivePromotion configs) = Some m -> m <= retries)
  (retries_used : forall team w config w', getConfig team w = (Ok config, w') ->
     forall m, used_promotion config ≫= ca_MaxRetry = Some m -> m <= retries).

Lemma controllers_frame :
  PromotionFrame W (CC := config_controller) (SC := team_controller (CC := config_controller) (O:=O) configs s2h_namespace)
    (kview ActivePromotion).
Proof.
  assert (forall team, Preserves (cfg_Get (ConfigController:=config_controller) team) (kview ActivePromotion)).
  { intros team. simpl. unfold getConfig. apply _. }
  assert (forall team, Preserves (cfg_GetParentComponents (ConfigController:=config_controller) team) (kview ActivePromotion)).
  { intros team. simpl. unfold GetParentComponents, GetComponents, getConfig. apply _. }
  apply team_promotion_frame; apply _.
Qed.

(** C33: the promotion controller together with the controllers of teams and of
    configurations implements the state machine of promotions: with their own operations
    in place of the interfaces, every stored promotion still moves by transitions of
    [step] only. *)
Theorem promotion_with_teams_refines req w r w' k a' :
  Reconcile (CC := config_controller) (SC := team_controller (CC := config_controller) (O:=O) configs s2h_namespace)
    configs zone req w = (r, w') ->
  kview ActivePromotion w' !! k = Some a' ->
  exists a, kview ActivePromotion w !! k = Some a /\
    rtc (step retries (team_gone req w)) (ctl a) (ctl a').
Proof.
  intros Heq. revert k a'. change (evolves ctl (step retries (team_gone req w)) (kview ActivePromotion w)
    (kview ActivePromotion w')).
  eapply (wp_run _ _ _ _ (fun _ w' => evolves _ _ (kview ActivePromotion w) (kview ActivePromotion w')));
    [|exact Heq].
  apply (Reconcile_evolves (PF:=controllers_frame)); [done..|apply evolves_refl|done].
Qed.
End composition.

(** ** What a destruction does to the roles *)

Section destruction.
Context {W : Type} `{GR : GoRuntime W}.
Context `{KTeam : KClient W Team} `{KStable : KClient W StableComponent} {KObjs : forall k, KClient W (KubeObj k)}.
Context `{KVT : KView W Team} `{KLT : !KClientLaws W Team}.
Context `{KVN : KView W (KubeObj NamespaceKind)} `{KLN : !KClientLaws W (KubeObj NamespaceKind)}.
Context `{RFT : !RuntimeFrame W (kview Team)}.
Context `{FNT : !KFrame W Team (kview (KubeObj NamespaceKind))}
  `{FNS : !KFrame W StableComponent (kview (KubeObj NamespaceKind))}
  `{FNO : forall k, k <> NamespaceKind -> KFrame W (KubeObj k) (kview (KubeObj NamespaceKind))}.

(** the destruction of an active environment whose namespace is gone clears the active
    namespace of the team, also when the team's active namespace is another one by now:
    the roles are reset without a look at the namespace they name. *)
Theorem DestroyActiveEnvironment_clears_active teamName ns w w' t :
  kview Team w !! ("", teamName) = Some t -> ~ is_gone (team_Meta t) ->
  ns <> "" -> kview (KubeObj NamespaceKind) w !! ("", ns) = None ->
  DestroyActiveEnvironment teamName ns w = (Ok tt, w') ->
  exists x, kview Team w' !! ("", teamName) = Some x /\
    roles x = (roles t) <| tn_Active := "" |> /\ tst_ActivePromotedBy (team_Status x) = "".
Proof.
  intros Ht Halive Hne Hgone Heq. pose proof (k_view_keyed _ _ _ Ht) as Hkey.
  refine (wp_run _ _ (Ok tt) w' (fun r w' => r = Ok tt -> exists x, kview Team w' !! ("", teamName) = Some x /\
    roles x = (roles t) <| tn_Active := "" |> /\ tst_ActivePromotedBy (team_Status x) = "") _ Heq eq_refl).
  unfold DestroyActiveEnvironment, destroyNamespace, fetchTeam. wp_step. wp_step.
  apply wp_preserve with (v := kview (KubeObj NamespaceKind)); [apply _|].
  apply wp_k_get.
  2: { intros e w1 Hnone _ _. destruct (IsNotFound e); [|by wp_step]. by rewrite Hnone in Ht. }
  intros t' w1 Ht' _ Hn1. assert (t' = t) as -> by congruence. wp_step. apply wp_with_obj.
  set (opt := withTeamActiveNamespaceStatus ns "" true).
  eapply wp_mono with (Q := fun r s => r = Ok tt -> kview Team (fst s) !! ("", teamName) = Some (snd s) /\
    roles (snd s) = (roles t) <| tn_Active := "" |> /\ tst_ActivePromotedBy (team_Status (snd s)) = "").
  2: { intros [[]|e|p] s Hs; [|done..]. wp_step. intros _. exists (snd s). by apply Hs. }
  unfold destroyNamespaces. cbn [for_each]. wp_step.
  eapply wp_mono with (Q := fun r s => r = Ok tt -> kview Team (fst s) !! ("", teamName) = Some (snd s) /\
    roles (snd s) = (roles t) <| tn_Active := "" |> /\ tst_ActivePromotedBy (team_Status (snd s)) = "").
  2: { intros [[]|e|p] s Hs; [by wp_step|done..]. }
  unfold destroy_one. apply wp_apply_option. cbn [fst snd].
  unfold opt, withTeamActiveNamespaceStatus at 1. cbn [fst snd]. lazy beta iota.
  destruct (String.eqb_spec ns ""); [done|].
  pose proof (FNO ClusterRoleKind ltac:(done)). pose proof (FNO ClusterRoleBindingKind ltac:(done)).
  unfold destroyClusterRole, destroyClusterRoleBinding.
  do 3 (wp_step; apply wp_wrapping; apply wp_onW, (wp_frame _ (kview (KubeObj NamespaceKind)));
    intros [[]|?|?] ? _ ?; cbn [fst snd] in *; [|done..]).
  wp_step. wp_step. wp_step. cbn [fst snd]. apply wp_k_get; [intros y w5 Hy _; congruence|].
  intros e w5 _ _. destruct (IsNotFound e); [|by wp_step]. wp_step. apply wp_set_team_cond. intros w6 t6 _.
  apply wp_wrapping, wp_updateTeamNamespacesStatus; [|done]. cbn [fst snd].
  intros w7 Hw7 _. rewrite Hw7, <- Hkey. unfold store_update. rewrite decide_False by done. by rewrite lookup_insert_eq.
Qed.
End destruction.

(** ** Concrete runs *)

(** The objects of an environment are always there, and nothing leaves the process. *)
#[export] Instance asim_staging : StagingObjects AtpSim string := {|
  so_GetService _ ns := ns; so_GetServiceAccount _ ns := ns; so_GetRole _ ns := ns;
  so_GetRoleBinding _ ns := ns; so_GetClusterRole _ ns := ns; so_GetClusterRoleBinding _ ns := ns;
  so_GetSecret _ ns _ := ns; so_GetDeployment _ ns _ := mret ns; so_GetResourceQuota _ ns _ := mret ns;
  so_GetEmptyResourceQuota ns := ns; so_IsK8sObjectChanged _ _ := mret None;
  so_get o := mret o; so_create _ := mret tt; so_update _ := mret tt; so_delete _ := mret tt |}.
#[export] Instance asim_outside : SamsahaiOutside AtpSim := {|
  out_helm3 _ := MockEngine; out_SetControllerReference _ m := inr m; out_Merge a _ := inr (a, a);
  out_TeamHash _ := "hash"; out_RenderAndExecute _ _ _ _ := mret ""; out_Notify _ _ _ := mret tt;
  out_reporters := mret ∅; out_set_gitlab_reporter _ _ := mret tt; out_NotifyActivePromotionReport _ := mret tt;
  out_GenerateRandomString := mret "id"; out_stamp _ := "" |}.
#[export] Instance asim_kconfig : KClient AtpSim Config := mem_client.
#[export] Instance asim_ksecret : KClient AtpSim Secret := mem_client.

Definition sim_team_controller : SamsahaiController AtpSim :=
  team_controller (O:=string) (sim_samsahai 0) "samsahai-system".
Definition sim_reconcile (w : AtpSim) : AtpSim :=
  snd (Reconcile (SC:=sim_team_controller) (sim_samsahai 0) 0 sim_request w).
Fixpoint sim_team_rounds (n : nat) (w : AtpSim) : AtpSim :=
  match n with O => w | S n => sim_team_rounds n (finish_queues (sim_reconcile w)) end.
Definition sim_roles (w : AtpSim) : option TeamNamespace := roles <$> kview Team w !! ("", "teamtest").

Lemma asim_apart {T U} `{KObject T, KMark T, HasStore AtpSim T, KObject U, HasStore AtpSim U} :
  (forall m w, store_get (T:=U) (store_set (T:=T) m w) = store_get w) -> KFrame AtpSim T (kview U).
Proof. intros Hs. apply mem_frame. intros m w. unfold kview, mem_view. f_equal. apply Hs. Qed.

Definition sim_preactive : Team := set_namespaces (fun n => n <| tn_PreActive := "s2h-teamtest-new" |>) sim_team.

Lemma PromoteActiveEnvironment_switches_witness :
  let w := sim_start (Some true) in
  let comps := {[ "redis" := sim_stable "s2h-teamtest-new" "redis" "1.0" ]} in
  let res := PromoteActiveEnvironment "s2h-teamtest-new" "somebody" comps (w, sim_preactive) in
  roles (snd (snd res)) = mkTeamNamespace "s2h-teamtest" "s2h-teamtest-old" "" "s2h-teamtest-new" [] /\
  switched "s2h-teamtest-new" "somebody" comps sim_preactive (snd (snd res)) /\
  stores (fst res) w (fst (snd res)) (snd (snd res)).
Proof.
  intros w comps res. split; [reflexivity|].
  refine (PromoteActiveEnvironment_switches "s2h-teamtest-new" "somebody" comps w sim_preactive
    (fst res) (fst (snd res)) (snd (snd res)) _).
  unfold res. by destruct (PromoteActiveEnvironment _ _ _ _) as [r [w' t']].
Defined.

(** A team that is being deleted. *)
Definition sim_dying : Team :=
  sim_team <| team_Meta ::= fun m => m <| om_Finalizers := [teamFinalizerName] |> <| om_DeletionTimestamp := Some 1 |> |>.
Definition sim_dying_world : AtpSim := (sim_start None) <| as_teams := {[ ("", "teamtest") := sim_dying ]} |>.
Definition sim_reconcile_team (w : AtpSim) : AtpSim :=
  snd (ReconcileTeam (O:=string) (sim_samsahai 0) "samsahai-system" sim_request w).

Lemma mem_delete_conflict (x : KubeObj NamespaceKind) (w : AtpSim) e w' :
  k_delete x w = (Err e, w') -> IsConflict e = true ->
  exists y, kview (KubeObj NamespaceKind) w !! kkey x = Some y /\ om_DeletionTimestamp (ko_Meta y) <> None.
Proof. simpl. destruct (kview (KubeObj NamespaceKind) w !! kkey x); [done|]. by intros [= <- _]. Qed.


#[export] Instance asim_stable_team : KFrame AtpSim StableComponent (kview Team).
Proof. by apply asim_apart. Qed.
#[export] Instance asim_objects_team k : KFrame AtpSim (KubeObj k) (kview Team).
Proof. by apply asim_apart. Qed.
#[export] Instance asim_config_team : KFrame AtpSim Config (kview Team).
Proof. by apply asim_apart. Qed.
#[export] Instance asim_runtime_namespace : RuntimeFrame AtpSim (kview (KubeObj NamespaceKind)).
Proof. by apply sim_runtime_frame. Qed.
#[export] Instance asim_team_namespace : KFrame AtpSim Team (kview (KubeObj NamespaceKind)).
Proof. by apply asim_apart. Qed.
#[export] Instance asim_stable_namespace : KFrame AtpSim StableComponent (kview (KubeObj NamespaceKind)).
Proof. by apply asim_apart. Qed.
#[export] Instance asim_config_namespace : KFrame AtpSim Config (kview (KubeObj NamespaceKind)).
Proof. by apply asim_apart. Qed.
Lemma asim_object_namespace k : k <> NamespaceKind -> KFrame AtpSim (KubeObj k) (kview (KubeObj NamespaceKind)).
Proof. intros Hk. apply asim_apart. intros m w. simpl. by rewrite set_kind_other. Qed.
#[export] Instance asim_team_config : KFrame AtpSim Team (kview Config).
Proof. by apply asim_apart. Qed.

Lemma team_deleted_last_witness :
  let w := Nat.iter 2 sim_reconcile_team sim_dying_world in
  let w' := sim_reconcile_team w in
  kview Team w' !! ("", "teamtest") = None /\
  all_released (default zeroTeam (kview Team w !! ("", "teamtest"))) w'.
Proof.
  intros w w'. assert (kview Team w' !! ("", "teamtest") = None) as Hgone by by vm_compute. split; [exact Hgone|].
  destruct (team_deleted_last (O:=string) (FNO:=asim_object_namespace) mem_delete_conflict (sim_samsahai 0) "samsahai-system"
    sim_request w (fst (ReconcileTeam (O:=string) (sim_samsahai 0) "samsahai-system" sim_request w)) w'
    (default zeroTeam (kview Team w !! ("", "teamtest")))) as [(x & Hx & _)|H]; [reflexivity..|apply surjective_pairing| |exact H].
  change (kview Team w' !! ("", "teamtest") = Some x) in Hx. rewrite Hgone in Hx. discriminate.
Defined.

#[export] Instance asim_outside_frame : OutsideFrame AtpSim string (kview ActivePromotion).
Proof. split; try (intros; apply _). intros. split; apply _. Qed.
#[export] Instance asim_secret_promotion : KFrame AtpSim Secret (kview ActivePromotion).
Proof. by apply asim_apart. Qed.

(** The same with the controller of configurations, on a server that only lets one
    configuration be read. *)
#[export] Instance asim_config_outside : ConfigOutside AtpSim := {|
  co_Merge a _ := inr (a, a); co_ConfigHash _ := "hash"; co_http_Get _ := mret ""; co_Unmarshal _ := inr [];
  co_teamNameRendering _ values := values |}.
Definition fixed_configs : KClient AtpSim Config := {|
  k_get _ := fun w => match as_config w with
    | Some promotion => (Ok (sim_config promotion), w) | None => (Err NotFoundError, w) end;
  k_list _ := mret []; k_create _ := throw NotFoundError; k_update _ := throw NotFoundError;
  k_delete _ := throw NotFoundError; k_delete_all_of _ := mret tt |}.
Lemma fixed_configs_frame : KFrame AtpSim Config (H:=fixed_configs) (kview ActivePromotion).
Proof. split; try done. intros key w. simpl. by destruct (as_config w). Qed.
Lemma fixed_configs_retries team (w : AtpSim) config w' :
  getConfig (KConfig:=fixed_configs) team w = (Ok config, w') ->
  forall m, used_promotion config ≫= ca_MaxRetry = Some m -> m <= 0.
Proof. unfold getConfig. simpl. destruct (as_config w) as [[]|]; by intros [= <- <-]. Qed.

Definition sim_config_controller : ConfigController AtpSim := config_controller (KConfig:=fixed_configs).
Definition sim_controllers (w : AtpSim) : outcome Result * AtpSim :=
  Reconcile (CC:=sim_config_controller)
    (SC:=team_controller (CC:=sim_config_controller) (O:=string) (sim_samsahai 0) "samsahai-system")
    (sim_samsahai 0) 0 sim_request w.

Lemma promotion_with_teams_refines_witness :
  let w := sim_team_rounds 9 (sim_start (Some true)) in
  let w' := snd (sim_controllers w) in
  stored_state w' = Some (ActivePromotionDemoting, ActivePromotionSuccess) /\
  match stored w, stored w' with
  | Some a, Some a' => rtc (step 0 (team_gone sim_request w)) (ctl a) (ctl a')
  | _, _ => False
  end.
Proof.
  intros w w'.
  match goal with |- ?P /\ _ => assert P as Hstate by by vm_compute end. split; [exact Hstate|].
  destruct (stored_some _ _ Hstate) as [a' Ha']. rewrite Ha'.
  destruct (promotion_with_teams_refines (O:=string) (FC:=fixed_configs_frame) (sim_samsahai 0) "samsahai-system" 0 0
    sim_default_retries fixed_configs_retries sim_request w (fst (sim_controllers w)) w' sim_request a'
    (surjective_pairing _) Ha') as (a & Ha & Hsteps).
  change (stored w = Some a) in Ha. rewrite Ha. exact Hsteps.
Defined.

(** The promotion has switched the active namespace, and takes too long for the demotion
    of the former one: two reconciliations later the team has no active namespace any
    more, although the environment is there. *)
Definition sim_switched : AtpSim := later (11 * Minute) (sim_team_rounds 10 (sim_start (Some true))).

Lemma DestroyActiveEnvironment_clears_active_witness :
  let w := sim_reconcile sim_switched in
  let w' := snd (DestroyActiveEnvironment "teamtest" "s2h-teamtest-old" w) in
  tn_Active <$> sim_roles w = Some "s2h-teamtest-cdefgh" /\
  is_Some (kview (KubeObj NamespaceKind) w !! ("", "s2h-teamtest-cdefgh")) /\
  tn_Active <$> sim_roles w' = Some "" /\
  tn_Active <$> sim_roles (sim_reconcile w) = Some "".
Proof.
  intros w w'. split; [by vm_compute|]. split; [vm_compute; by eexists|]. split; [|by vm_compute].
  destruct (kview Team w !! ("", "teamtest")) as [t|] eqn:Ht; [|by vm_compute in Ht].
  destruct (DestroyActiveEnvironment_clears_active (FNO:=asim_object_namespace) "teamtest" "s2h-teamtest-old" w w' t Ht)
    as (x & Hx & Hr & _).
  - intros [Hd _]. apply Hd. assert (om_DeletionTimestamp ∘ team_Meta <$> kview Team w !! ("", "teamtest") = Some None)
      as Hn by by vm_compute. rewrite Ht in Hn. by injection Hn.
  - done.
  - by vm_compute.
  - rewrite (surjective_pairing (DestroyActiveEnvironment _ _ w)). f_equal.
  - unfold sim_roles. rewrite Hx. simpl. by rewrite Hr.
Defined.
