(* ===== verification/StbCtrl.v ===== *)
(** Model of [internal/stablecomponent/controller.go]: the stable components of the staging
    namespace of a team are mirrored in the status of the team, and the queue loses the
    components whose stable version is the desired one.

    The team controller behind it is [SamsahaiCtrl]. *)

From S2P Require Import Prelude.
From S2P Require Import GoRuntime.
From S2P Require Import Errors.
From S2P Require Import KubeApi.
From S2P Require Import ComponentTypes.
From S2P Require Import QueueTypes.
From S2P Require Import TeamTypes.
From S2P Require Import QueueCtrl.
From S2P Require Import Interfaces.
From S2P Require Import SamsahaiCtrl.
Open Scope string_scope.
Open Scope list_scope.
Open Scope Z_scope.

Definition stableFinalizerName : string := "stable.finalizers.samsahai.io".

Section controller.
Context {W : Type} `{GR : GoRuntime W}.
Context `{KS : KClient W StableComponent} `{KT : KClient W Team} `{KQ : KClient W Queue}.
Context `{KD : KClient W DesiredComponent}.
Implicit Types (stableComp : StableComponent) (desiredComp : DesiredComponent) (team : Team).

(** The queues of a namespace. *)
Definition GetQueues (namespace : string) : M W QueueList :=
  wrapping "cannot list queues" (k_list Queue (InNamespace namespace)).

Definition updateStable stableComp : M W unit :=
  wrapping "cannot update stable component" (k_update stableComp).
Definition updateTeam team : M W unit := wrapping "cannot update team" (k_update team).

(** The team whose staging namespace the component is in. *)
Definition getTeamStaging stableComp : M W (option Team) :=
  match om_Labels (stable_Meta stableComp) !! GetTeamLabelKey with
  | Some (String _ _ as teamName) =>
      do r <- attempt (fetchTeam teamName);
      match r with
      | inl err => if IsNotFound err then mret None else throw err
      | inr team =>
          mret (if String.eqb (tn_Staging (tst_Namespace (team_Status team))) (kns stableComp)
                then Some team else None)
      end
  | _ =>
      do teams <- GetTeams;
      mret (List.find (fun team => String.eqb (tn_Staging (tst_Namespace (team_Status team))) (kns stableComp)) teams)
  end.

Definition over_finalizers (f : list string -> list string) stableComp : StableComponent :=
  stableComp <| stable_Meta ::= fun m => m <| om_Finalizers ::= f |> |>.

(** The component with its finalizer. *)
Definition addFinalizer stableComp : M W StableComponent :=
  if ContainsString (om_Finalizers (stable_Meta stableComp)) stableFinalizerName then mret stableComp
  else
    let stableComp := over_finalizers (fun l => l ++ [stableFinalizerName]) stableComp in
    run updateStable stableComp;
    mret stableComp.

Definition deleteFinalizer stableComp team : M W unit :=
  if ContainsString (om_Finalizers (stable_Meta stableComp)) stableFinalizerName then
    let (changed, status) := SetStableComponents (Some stableComp) true (team_Status team) in
    run (if changed : bool then
           do r <- attempt (updateTeam (team <| team_Status := status |>));
           match r with
           | inl err => if IsNotFound err then mret tt else throw err
           | inr _ => mret tt
           end
         else mret tt);
    updateStable (over_finalizers (fun l => RemoveString l stableFinalizerName) stableComp)
  else mret tt.

Definition detectSpecChanged stableComp team : bool :=
  let teamStableComp := GetStableComponent (kname stableComp) (team_Status team) in
  if String.eqb (sc_Name (stable_Spec teamStableComp)) "" then true
  else negb (bool_decide (stable_Spec teamStableComp = stable_Spec stableComp)).

(** The first queue that only has the component, to remove, or that has others too, to
    update; the zero queue when there is none. *)
Fixpoint same_version_queue stableComp (items : QueueList) : Queue * Queue :=
  match items with
  | [] => (zeroQueue, zeroQueue)
  | queue :: rest =>
      let comps := qs_Components (queue_Spec queue) in
      let validComponents := filter (fun comp => qc_Name comp <> kname stableComp) comps in
      if Nat.eqb (length validComponents) 0 then (queue, zeroQueue)
      else if negb (Nat.eqb (length validComponents) (length comps)) then
        (zeroQueue, queue <| queue_Spec ::= fun s => s <| qs_Components := validComponents |> |>)
      else same_version_queue stableComp rest
  end.
Definition removeSameVersionQueue (queueList : QueueList) stableComp desiredComp : Queue * Queue :=
  if String.eqb (sc_Repository (stable_Spec stableComp)) (dc_Repository (desired_Spec desiredComp)) &&
     String.eqb (sc_Version (stable_Spec stableComp)) (dc_Version (desired_Spec desiredComp))
  then same_version_queue stableComp queueList
  else (zeroQueue, zeroQueue).

(** The team, then the component, then the queue. *)
Definition spec_changed (req : Request) stableComp team : M W unit :=
  do t <- now;
  let stableComp := stableComp <| stable_Status ::= fun s =>
    s <| scs_UpdatedAt := Some t |>
      <| scs_CreatedAt ::= fun created => match created with Some _ => created | None => Some t end |> |> in
  let (changed, status) := SetStableComponents (Some stableComp) false (team_Status team) in
  run (if changed : bool then updateTeam (team <| team_Status := status |>) else mret tt);
  run updateStable stableComp;
  do desiredComp <- k_get DesiredComponent req;
  do queueList <- GetQueues (fst req);
  let (removeQueue, updateQueue) := removeSameVersionQueue queueList stableComp desiredComp in
  run (if String.eqb (kname removeQueue) "" then mret tt else k_delete removeQueue);
  if String.eqb (kname updateQueue) "" then mret tt else k_update updateQueue.

(** [Reconcile]. *)
Definition ReconcileStable (req : Request) : M W Result :=
  do r <- attempt (k_get StableComponent req);
  match r with
  | inl err => if IsNotFound err then mret noResult else throw err
  | inr stableComp =>
      do team <- getTeamStaging stableComp;
      match team with
      | None => mret noResult
      | Some team =>
          if negb (time_is_zero (om_DeletionTimestamp (stable_Meta stableComp))) then
            run deleteFinalizer stableComp team; mret noResult
          else
            do stableComp <- addFinalizer stableComp;
            if negb (detectSpecChanged stableComp team) then mret noResult
            else run spec_changed req stableComp team; mret noResult
      end
  end.
End controller.
