(* ===== verification/StbClaims.v ===== *)
(** What the controller of the stable components keeps: the team lists what its staging
    namespace has, and a stable component is released only when the team has forgotten it. *)

From S2P Require Import Prelude.
From S2P Require Import GoRuntime.
From S2P Require Import Errors.
From S2P Require Import KubeApi.
From S2P Require Import Frame.
From S2P Require Import ComponentTypes.
From S2P Require Import QueueTypes.
From S2P Require Import TeamTypes.
From S2P Require Import QueueCtrl.
From S2P Require Import Interfaces.
From S2P Require Import SamsahaiCtrl.
From S2P Require Import StbCtrl.
Open Scope string_scope.
Open Scope list_scope.
Open Scope Z_scope.

Notation team_store := (gmap (string * string) Team).
Notation stable_store := (gmap (string * string) StableComponent).

(** The staging namespace of the team is that of the component, and the label of the
    component, when it has one, names the team. *)
Definition owns (V : team_store) (sc : StableComponent) (t : Team) : Prop :=
  V !! kkey t = Some t /\ tn_Staging (tst_Namespace (team_Status t)) = kns sc /\
  match om_Labels (stable_Meta sc) !! GetTeamLabelKey with
  | Some (String _ _ as name) => kkey t = ("", name)
  | _ => True
  end.
(** What the team has of the component of the name. *)
Definition listed (t : Team) (name : string) : option StableComponentSpec :=
  stable_Spec <$> tst_StableComponents (team_Status t) !! name.

Section claims.
Context {W : Type} `{GR : GoRuntime W}.
Context `{KS : KClient W StableComponent} `{KVS : KView W StableComponent} `{KLS : !KClientLaws W StableComponent}.
Context `{KT : KClient W Team} `{KVT : KView W Team} `{KLT : !KClientLaws W Team}.
Context `{KQ : KClient W Queue} `{KD : KClient W DesiredComponent}.

Notation teams w := (kview Team w).
Notation stables w := (kview StableComponent w).
Definition both (w : W) := (teams w, stables w).

Context {RF : RuntimeFrame W both} {KFQ : KFrame W Queue both} {KFD : KFrame W DesiredComponent both}.
Context {KFT : KFrame W Team (kview StableComponent)} {KFS : KFrame W StableComponent (kview Team)}.
Implicit Types (w : W) (sc : StableComponent) (t : Team) (req : string * string).

Lemma wp_getTeamStaging sc w (Q : outcome (option Team) -> W -> Prop) :
  (forall o w', both w' = both w ->
     match o with Some t => owns (teams w) sc t | None => forall t, ~ owns (teams w) sc t end -> Q (Ok o) w') ->
  (forall e w', both w' = both w -> Q (Err e) w') -> wp (getTeamStaging sc) w Q.
Proof using KLT KFT.
  intros Hok Herr. unfold getTeamStaging.
  assert (wp (do teams <- GetTeams;
              mret (List.find (fun team => String.eqb (tn_Staging (tst_Namespace (team_Status team))) (kns sc)) teams)) w
    (fun r w' => both w' = both w /\ match r with
       | Ok (Some t) => teams w !! kkey t = Some t /\ tn_Staging (tst_Namespace (team_Status t)) = kns sc
       | Ok None => forall t, teams w !! kkey t = Some t -> tn_Staging (tst_Namespace (team_Status t)) <> kns sc
       | Err _ => True | Panic _ => False end)) as Hlist.
  { unfold GetTeams. wp_step. apply wp_wrapping. apply (wp_preserve (kview StableComponent)); [apply _|].
    apply wp_k_list; [|intros e w' Hw' Hs; unfold both; by rewrite Hw', Hs].
    intros l w' Hl Hw' Hs. lazy beta iota. wp_step. split; [unfold both; by rewrite Hw', Hs|].
    assert (forall t, t ∈ l <-> teams w !! kkey t = Some t) as Hin.
    { intros t. rewrite Hl, list_elem_of_filter, list_elem_of_fmap. split.
      - intros (_ & [k y] & -> & Hy%elem_of_map_to_list). simpl. by rewrite (k_view_keyed _ _ _ Hy).
      - intros Ht. split; [split; [by left|apply map_empty_subseteq]|]. exists (kkey t, t). by rewrite elem_of_map_to_list. }
    destruct (List.find _ l) as [t|] eqn:Hf.
    - apply find_some in Hf as [Hi He%String.eqb_eq]. split; [|done]. by apply Hin, list_elem_of_In.
    - intros t Ht He. apply Hin, list_elem_of_In in Ht. pose proof (find_none _ _ Hf _ Ht) as Hno. simpl in Hno.
      by rewrite He, String.eqb_refl in Hno. }
  assert (match om_Labels (stable_Meta sc) !! GetTeamLabelKey with Some (String _ _) => False | _ => True end ->
    wp (do teams <- GetTeams;
        mret (List.find (fun team => String.eqb (tn_Staging (tst_Namespace (team_Status team))) (kns sc)) teams)) w Q)
    as Hunlabelled.
  { intros Hl. eapply wp_mono; [exact Hlist|]. cbv beta. intros [[t|]|e|p] w' [Hw' Hr]; [| |by apply Herr|done].
    - apply Hok; [done|]. unfold owns. destruct Hr. split_and!; [done..|].
      by destruct (om_Labels (stable_Meta sc) !! GetTeamLabelKey) as [[]|].
    - apply Hok; [done|]. intros t (Ht & Hns & _). by apply (Hr t). }
  destruct (om_Labels (stable_Meta sc) !! GetTeamLabelKey) as [[|a name]|] eqn:Hlabel; [by apply Hunlabelled| |by apply Hunlabelled].
  clear Hlist Hunlabelled. unfold fetchTeam. wp_step. wp_step.
  apply (wp_preserve (kview StableComponent)); [apply _|]. apply wp_k_get.
  - intros t w' Ht Hw' Hs. wp_step. pose proof (k_view_keyed _ _ _ Ht) as Hk. unfold both in *.
    destruct (String.eqb_spec (tn_Staging (tst_Namespace (team_Status t))) (kns sc)) as [He|He];
      (apply Hok; [by rewrite Hw', Hs|]).
    + unfold owns. rewrite Hlabel, Hk. by split_and!.
    + intros t' (Ht' & Hns & Hl). rewrite Hlabel in Hl. rewrite Hl in Ht'. congruence.
  - intros e w' Hn Hw' Hs. assert (both w' = both w) as Hb by (unfold both; by rewrite Hw', Hs).
    destruct (IsNotFound e) eqn:He; wp_step; [|by apply Herr]. apply Hok; [done|].
    intros t (Ht & _ & Hl). rewrite Hlabel in Hl. rewrite Hl, Hn in Ht by done. done.
Qed.

(** The stored component after a change to [sc], and the team after the change [f] of what
    it has of the component. *)
Definition mirrored (V V' : team_store) (C C' : stable_store) req sc t : Prop :=
  exists t' sc',
    V' = <[kkey t := t']> V /\ C' = <[req := sc']> C /\ stable_Spec sc' = stable_Spec sc /\
    stableFinalizerName ∈ om_Finalizers (stable_Meta sc') /\
    team_Meta t' = team_Meta t /\ team_Spec t' = team_Spec t /\
    listed t' (snd req) = Some (stable_Spec sc) /\ (forall name, name <> snd req -> listed t' name = listed t name).

Lemma wp_update_team t w (Q : outcome unit -> W -> Prop) :
  ~ is_gone (team_Meta t) ->
  (forall w', teams w' = <[kkey t := t]> (teams w) -> stables w' = stables w -> Q (Ok tt) w') ->
  (forall e e0 w', k_update t w = (Err e0, w') -> err_reason e = err_reason e0 -> both w' = both w -> Q (Err e) w') ->
  wp (updateTeam t) w Q.
Proof using KLT KFT.
  intros Hg Hok Herr. unfold updateTeam. apply wp_wrapping, (wp_preserve (kview StableComponent)); [apply _|].
  apply run_wp. intros r w' Heq Hs. pose proof (k_update_law t w) as Hlaw. rewrite Heq in Hlaw.
  destruct r as [[]|e|p]; [|eapply Herr; [exact Heq|done|unfold both; by rewrite Hlaw, Hs]|done].
  destruct Hlaw as [_ Hw']. apply Hok; [|done]. by rewrite Hw'; unfold store_update; rewrite decide_False.
Qed.
Lemma wp_update_stable sc w (Q : outcome unit -> W -> Prop) :
  (forall w', stables w' = store_update sc (stables w) -> teams w' = teams w -> Q (Ok tt) w') ->
  (forall e w', both w' = both w -> Q (Err e) w') ->
  wp (updateStable sc) w Q.
Proof using KLS KFS.
  intros Hok Herr. unfold updateStable. apply wp_wrapping, (wp_preserve (kview Team)); [apply _|].
  apply wp_k_update; [intros w' _ Hw' Ht; by apply Hok|].
  intros e w' Hw' Ht. apply Herr. unfold both. by rewrite Hw', Ht.
Qed.

(** What follows the two updates does not touch teams and components. *)
#[local] Instance clear_queue_frame req sc :
  Preserves (do desiredComp <- k_get DesiredComponent req;
      do queueList <- GetQueues (fst req);
      let (removeQueue, updateQueue) := removeSameVersionQueue queueList sc desiredComp in
      run (if String.eqb (kname removeQueue) "" then mret tt else k_delete removeQueue);
      if String.eqb (kname updateQueue) "" then mret tt else k_update updateQueue) both.
Proof using KFQ KFD.
  unfold GetQueues. preserves.
Qed.

Lemma wp_spec_changed req sc t w :
  teams w !! kkey t = Some t -> ~ is_gone (team_Meta t) -> om_DeletionTimestamp (stable_Meta sc) = None ->
  kkey sc = req -> stableFinalizerName ∈ om_Finalizers (stable_Meta sc) ->
  wp (spec_changed req sc t) w (fun r w' => r = Ok tt -> mirrored (teams w) (teams w') (stables w) (stables w') req sc t).
Proof using KLT KFT KLS KFS RF KFQ KFD.
  intros Ht Hg Hd Hk Hf. unfold spec_changed. wp_step.
  apply wp_frame with (v := both); [apply _|]. intros [tm|e|p] w1 _ Hw1; [|done..].
  apply pair_equal_spec in Hw1 as [Hw1 Hs1]. cbv zeta. set (sc1 := sc <| stable_Status ::= _ |>).
  assert (kname sc1 = snd req) as Hname by by rewrite <- Hk.
  pose proof (SetStableComponents_spec sc1 false (team_Status t)) as Hset.
  destruct (SetStableComponents (Some sc1) false (team_Status t)) as [changed status]. rewrite Hname in Hset.
  destruct Hset as (Hnew & Hother & _ & Hsame).
  set (t1 := t <| team_Status := status |>) in *.
  assert (forall w2, teams w2 = <[kkey t := t1]> (teams w) -> stables w2 = stables w ->
    wp (run updateStable sc1;
        do desiredComp <- k_get DesiredComponent req;
        do queueList <- GetQueues (fst req);
        let (removeQueue, updateQueue) := removeSameVersionQueue queueList sc1 desiredComp in
        run (if String.eqb (kname removeQueue) "" then mret tt else k_delete removeQueue);
        if String.eqb (kname updateQueue) "" then mret tt else k_update updateQueue) w2
      (fun r w' => r = Ok tt -> mirrored (teams w) (teams w') (stables w) (stables w') req sc t)) as Hrest.
  { intros w2 Ht2 Hs2. wp_step. apply wp_update_stable; [|done]. intros w3 Hs3 Ht3.
    apply wp_frame with (v := both); [apply clear_queue_frame|]. intros r w4 _ Hw4 _.
    apply pair_equal_spec in Hw4 as [Ht4 Hs4]. exists t1, sc1. rewrite Ht4, Ht3, Ht2, Hs4, Hs3, Hs2.
    rewrite store_update_plain by exact Hd. split_and!; [done|by rewrite <- Hk|done..|].
    intros name Hne. unfold listed. simpl. by rewrite Hother. }
  wp_step. destruct changed.
  - apply wp_update_team; [done| |done]. intros w2 Ht2 Hs2. apply Hrest; [by rewrite Ht2, Hw1|by rewrite Hs2].
  - wp_step. apply Hrest; [|done]. assert (t1 = t) as -> by (subst t1; rewrite Hsame by done; by destruct t).
    by rewrite insert_id.
Qed.

(** A reconciliation of a stable component that succeeds leaves the team, whose staging
    namespace it is in, with the specification of the component under its name, next to
    unchanged entries for all other names, and the component with its finalizer and an
    unchanged specification; without such a team nothing changes. *)
Theorem stable_mirrored req sc w res w' :
  stables w !! req = Some sc -> om_DeletionTimestamp (stable_Meta sc) = None ->
  (forall t, owns (teams w) sc t -> ~ is_gone (team_Meta t)) ->
  ReconcileStable req w = (Ok res, w') ->
  (exists t, owns (teams w) sc t /\ mirrored (teams w) (teams w') (stables w) (stables w') req sc t) \/
  ((forall t, ~ owns (teams w) sc t) /\ both w' = both w).
Proof using KLT KFT KLS KFS RF KFQ KFD.
  intros Hsc Hd Hlive Heq. pose proof (k_view_keyed _ _ _ Hsc) as Hk.
  refine (wp_run _ _ _ _ (fun r w' => forall res, r = Ok res -> _ \/ _) _ Heq res eq_refl). clear Heq res w'.
  unfold ReconcileStable. wp_step. wp_step. apply (wp_preserve (kview Team)); [apply _|].
  apply wp_k_get; [|intros e w1 Hn Hw1 _; rewrite Hsc in Hn; destruct (IsNotFound e); [by discriminate (Hn eq_refl)|by wp_step]].
  intros sc1 w1 Hsc1 Hs1 Ht1. rewrite Hsc in Hsc1. injection Hsc1 as <-.
  wp_step. apply wp_getTeamStaging; [|done]. rewrite Ht1. intros [t|] w2 Hw2 Ho; last first.
  { wp_step. intros res _. right. split; [done|]. rewrite Hw2. unfold both. by rewrite Ht1, Hs1. }
  apply pair_equal_spec in Hw2 as [Ht2 Hs2]. rewrite Hd. cbn [time_is_zero negb].
  wp_step. eapply wp_mono with (Q := fun r w3 => match r with
    | Ok sc1 => teams w3 = teams w /\ stables w3 = <[req := sc1]> (stables w) /\ kkey sc1 = req /\
        stable_Spec sc1 = stable_Spec sc /\ om_DeletionTimestamp (stable_Meta sc1) = None /\
        stableFinalizerName ∈ om_Finalizers (stable_Meta sc1)
    | _ => True end).
  { unfold addFinalizer. destruct (ContainsString _ _) eqn:Hc.
    - wp_step. split_and!; [congruence| |done..|].
      + rewrite insert_id; congruence.
      + unfold ContainsString in Hc. apply existsb_exists in Hc as (x & Hx & ->%String.eqb_eq). by apply list_elem_of_In.
    - wp_step. apply wp_update_stable; [|done]. intros w3 Hs3 Ht3. wp_step.
      rewrite store_update_plain in Hs3 by exact Hd. split_and!; [congruence| |exact Hk|done|exact Hd|].
      + rewrite Hs3, Hs2, Hs1, <- Hk. done.
      + apply elem_of_app. right. by left. }
  cbv beta. intros [sc1|e|p] w3 H3; [|done..]. destruct H3 as (Ht3 & Hs3 & Hk1 & Hsp1 & Hd1 & Hf1).
  pose proof Ho as (Ht & _). assert (kname sc1 = snd req) as Hname by by rewrite <- Hk1.
  destruct (negb (detectSpecChanged sc1 t)) eqn:Hch.
  - wp_step. intros res _. left. exists t. split; [done|]. exists t, sc1. rewrite Ht3, Hs3.
    apply negb_true_iff in Hch. unfold detectSpecChanged in Hch.
    destruct (String.eqb_spec (sc_Name (stable_Spec (GetStableComponent (kname sc1) (team_Status t)))) "") as [|Hn]; [done|].
    apply negb_false_iff, bool_decide_eq_true in Hch. rewrite Hname in Hch, Hn. split_and!; try done.
    + by rewrite insert_id.
    + unfold listed, GetStableComponent in *. case_bool_decide; [done|].
      destruct (tst_StableComponents (team_Status t) !! snd req); [|done]. simpl. by rewrite Hch, Hsp1.
  - wp_step. eapply wp_mono; [apply wp_spec_changed; [by rewrite Ht3|by apply Hlive|done..]|]. cbv beta.
    intros [[]|e|p] w4 H4; [|done..]. wp_step. intros res _. left. exists t. split; [done|].
    destruct (H4 eq_refl) as (t' & sc' & Ht4 & Hs4 & Hsp & Hf & Hm & Hts & Hl & Ho4). exists t', sc'.
    rewrite Ht4, Ht3, Hs4, Hs3, insert_insert_eq. split_and!; try done; congruence.
Qed.

(** A server that says that a team is not there does not have it. *)
Context (update_not_found : forall t w e w', k_update t w = (Err e, w') -> IsNotFound e = true -> teams w !! kkey t = None).

(** C21: A stable component that is being deleted keeps its finalizer until the team whose
    staging namespace it is in has nothing under its name, or no such team is there: if its
    stored object changes in a reconciliation, however that ends, it only loses the
    finalizer, and a team has forgotten it. *)
Theorem stable_released_last req sc w r w' :
  stables w !! req = Some sc -> time_is_zero (om_DeletionTimestamp (stable_Meta sc)) = false ->
  (forall t, owns (teams w) sc t -> ~ is_gone (team_Meta t)) ->
  ReconcileStable req w = (r, w') ->
  stables w' = stables w \/
  (stables w' = store_update (over_finalizers (fun l => RemoveString l stableFinalizerName) sc) (stables w) /\
   exists t t', owns (teams w) sc t /\ teams w' !! kkey t = Some t' /\ listed t' (snd req) = None).
Proof using KLT KFT KLS KFS RF KFQ KFD update_not_found.
  intros Hsc Hd Hlive Heq. pose proof (k_view_keyed _ _ _ Hsc) as Hk.
  refine (wp_run (ReconcileStable req) w r w' (fun _ w' => stables w' = stables w \/ _) _ Heq). clear Heq r w'.
  unfold ReconcileStable. wp_step. wp_step. apply (wp_preserve (kview Team)); [apply _|].
  apply wp_k_get; [|intros e w1 Hn Hw1 _; destruct (IsNotFound e); wp_step; by left].
  intros sc1 w1 Hsc1 Hs1 Ht1. rewrite Hsc in Hsc1. injection Hsc1 as <-.
  wp_step. apply wp_getTeamStaging.
  2: { intros e w2 Hw2. apply pair_equal_spec in Hw2 as [_ Hw2]. left. congruence. }
  rewrite Ht1. intros [t|] w2 Hw2 Ho; apply pair_equal_spec in Hw2 as [Ht2 Hs2]; [|wp_step; left; congruence].
  rewrite Hd. cbn [negb].
  pose proof Ho as (Ht & _). assert (kname sc = snd req) as Hname by by rewrite <- Hk.
  assert (teams w2 = teams w /\ stables w2 = stables w) as [Ht2' Hs2'] by (split; congruence). clear Ht1 Hs1 Ht2 Hs2.
  wp_step. unfold deleteFinalizer. destruct (ContainsString _ _); [|wp_step; wp_step; by left].
  pose proof (SetStableComponents_spec sc true (team_Status t)) as Hset.
  destruct (SetStableComponents (Some sc) true (team_Status t)) as [changed status]. rewrite Hname in Hset.
  destruct Hset as (Hnew & _ & _ & Hsame). set (t1 := t <| team_Status := status |>) in *.
  assert (listed t1 (snd req) = None) as Hgone by (unfold listed; simpl; exact Hnew).
  assert (forall w3, teams w3 = <[kkey t := t1]> (teams w) -> stables w3 = stables w ->
    wp (updateStable (over_finalizers (fun l => RemoveString l stableFinalizerName) sc)) w3 (fun r w' =>
      match r with
      | Ok _ => wp (mret noResult) w' (fun _ w' => stables w' = stables w \/
          (stables w' = store_update (over_finalizers (fun l => RemoveString l stableFinalizerName) sc) (stables w) /\
           exists t t', owns (teams w) sc t /\ teams w' !! kkey t = Some t' /\ listed t' (snd req) = None))
      | _ => stables w' = stables w \/
          (stables w' = store_update (over_finalizers (fun l => RemoveString l stableFinalizerName) sc) (stables w) /\
           exists t t', owns (teams w) sc t /\ teams w' !! kkey t = Some t' /\ listed t' (snd req) = None)
      end)) as Hrelease.
  { intros w3 Ht3 Hs3. apply wp_update_stable.
    - intros w4 Hs4 Ht4. wp_step. right. rewrite Hs4, Hs3. split; [done|]. exists t, t1.
      rewrite Ht4, Ht3, lookup_insert_eq. by split_and!.
    - intros e w4 Hw4. apply pair_equal_spec in Hw4 as [_ Hs4]. left. congruence. }
  wp_step. destruct changed.
  - wp_step. wp_step. apply wp_update_team; [exact (Hlive t Ho)| |].
    + intros w3 Ht3 Hs3. wp_step. apply Hrelease; [by rewrite Ht3, Ht2'|congruence].
    + intros e e0 w3 Hup Hre Hw3. apply pair_equal_spec in Hw3 as [Ht3 Hs3].
      destruct (IsNotFound e) eqn:He; wp_step; [|left; congruence].
      assert (IsNotFound e0 = true) as He0 by (unfold IsNotFound, has_reason in *; by rewrite <- Hre).
      pose proof (update_not_found _ _ _ _ Hup He0) as Hnone. change (kkey t1) with (kkey t) in Hnone.
      rewrite Ht2', Ht in Hnone. done.
  - wp_step. apply Hrelease; [|done]. assert (t1 = t) as -> by (subst t1; rewrite Hsame by done; by destruct t).
    by rewrite insert_id.
Qed.
End claims.

(** ** A concrete cluster *)

Record StbSim := mkStbSim {
  bs_clock : Z;
  bs_teams : gmap (string * string) Team;
  bs_stables : gmap (string * string) StableComponent;
  bs_queues : gmap (string * string) Queue;
  bs_desired : gmap (string * string) DesiredComponent;
}.
#[export] Instance eta_StbSim : Eta StbSim := fun x =>
  mkStbSim (bs_clock x) (bs_teams x) (bs_stables x) (bs_queues x) (bs_desired x).
#[export] Instance bsim_clock : HasClock StbSim :=
  {| clock_get := bs_clock; clock_set t w := w <| bs_clock := t |> |}.
#[export] Instance bsim_teams : HasStore StbSim Team :=
  {| store_get := bs_teams; store_set m w := w <| bs_teams := m |>; store_get_set _ _ := eq_refl |}.
#[export] Instance bsim_stables : HasStore StbSim StableComponent :=
  {| store_get := bs_stables; store_set m w := w <| bs_stables := m |>; store_get_set _ _ := eq_refl |}.
#[export] Instance bsim_queues : HasStore StbSim Queue :=
  {| store_get := bs_queues; store_set m w := w <| bs_queues := m |>; store_get_set _ _ := eq_refl |}.
#[export] Instance bsim_desired : HasStore StbSim DesiredComponent :=
  {| store_get := bs_desired; store_set m w := w <| bs_desired := m |>; store_get_set _ _ := eq_refl |}.
#[local] Instance bsim_runtime_frame : RuntimeFrame StbSim (both (W:=StbSim)).
Proof. by apply sim_runtime_frame. Qed.
#[local] Instance bsim_queue_frame : KFrame StbSim Queue (both (W:=StbSim)).
Proof. by apply mem_frame. Qed.
#[local] Instance bsim_desired_frame : KFrame StbSim DesiredComponent (both (W:=StbSim)).
Proof. by apply mem_frame. Qed.
#[local] Instance bsim_team_frame : KFrame StbSim Team (kview (W:=StbSim) StableComponent).
Proof. by apply mem_frame. Qed.
#[local] Instance bsim_stable_frame : KFrame StbSim StableComponent (kview (W:=StbSim) Team).
Proof. by apply mem_frame. Qed.

Definition bs_key : string * string := ("s2h-teamtest", "redis").
Definition bs_stable : StableComponent :=
  mkStableComponent (namedMeta "s2h-teamtest" "redis") (mkStableComponentSpec "redis" "repo/redis" "5.0" "samsahai")
    (mkStableComponentStatus None None).
Definition bs_team : Team :=
  zeroTeam <| team_Meta := namedMeta "" "teamtest" |>
    <| team_Status ::= fun s => s <| tst_Namespace ::= fun n => n <| tn_Staging := "s2h-teamtest" |> |> |>.
Definition bs_wanted : DesiredComponent :=
  mkDesiredComponent (namedMeta "s2h-teamtest" "redis") (mkDesiredComponentSpec "redis" "5.0" "repo/redis" "")
    (mkDesiredComponentStatus None None).
Definition bs_world (sc : StableComponent) (t : Team) : StbSim :=
  mkStbSim 0 {[ ("", "teamtest") := t ]} {[ bs_key := sc ]}
    {[ bs_key := NewQueue "teamtest" "s2h-teamtest" "redis" "" [mkQueueComponent "redis" "repo/redis" "5.0"] QueueTypeUpgrade ]}
    {[ bs_key := bs_wanted ]}.

(** The team learns the version, and the queue that asks for it goes. *)
Lemma stable_mirrored_witness :
  let w := bs_world bs_stable bs_team in
  let w' := snd (ReconcileStable bs_key w) in
  bs_queues w' !! bs_key = None /\
  exists t, owns (kview Team w) bs_stable t /\
    mirrored (kview Team w) (kview Team w') (kview StableComponent w) (kview StableComponent w') bs_key bs_stable t.
Proof.
  intros w w'. split; [by vm_compute|].
  assert (fst (ReconcileStable bs_key w) = Ok noResult) as Hok by by vm_compute.
  destruct (stable_mirrored bs_key bs_stable w noResult w') as [H|[Hno _]].
  - reflexivity.
  - reflexivity.
  - intros t (Ht & _). apply well_filed_lookup in Ht as [Ht _]. simpl in Ht.
    apply lookup_singleton_Some in Ht as [_ <-]. intros [Hd _]. exact (Hd eq_refl).
  - exact (ok_run _ _ _ Hok).
  - exact H.
  - destruct (Hno bs_team). split; [reflexivity|split; [reflexivity|exact I]].
Defined.

(** A component that is being deleted, and the team that lists it. *)
Definition bs_leaving : StableComponent :=
  bs_stable <| stable_Meta ::= fun m =>
    m <| om_DeletionTimestamp := Some 7 |> <| om_Finalizers := [stableFinalizerName] |> |>.
Definition bs_listing : Team := bs_team <| team_Status ::= fun s => s <| tst_StableComponents := {[ "redis" := bs_stable ]} |> |>.

Lemma stable_released_last_witness :
  let w := bs_world bs_leaving bs_listing in
  let w' := snd (ReconcileStable bs_key w) in
  kview StableComponent w' !! bs_key = None /\
  exists t t', owns (kview Team w) bs_leaving t /\ kview Team w' !! kkey t = Some t' /\ listed t' "redis" = None.
Proof.
  intros w w'. assert (kview StableComponent w' !! bs_key = None) as Hgone by by vm_compute.
  split; [exact Hgone|].
  assert (kview StableComponent w !! bs_key = Some bs_leaving) as Hin by by vm_compute.
  destruct (stable_released_last (W:=StbSim)) with (req := bs_key) (sc := bs_leaving) (w := w)
    (r := fst (ReconcileStable bs_key w)) (w' := w') as [Hsame|[_ H]].
  - intros t w0 e w1. simpl. unfold kview. destruct (mem_view w0 !! kkey t); [discriminate|reflexivity].
  - reflexivity.
  - reflexivity.
  - intros t (Ht & _). apply well_filed_lookup in Ht as [Ht _]. simpl in Ht.
    apply lookup_singleton_Some in Ht as [_ <-]. intros [Hd _]. exact (Hd eq_refl).
  - exact (surjective_pairing _).
  - rewrite Hsame, Hin in Hgone. clear - Hgone. generalize dependent bs_leaving. discriminate.
  - exact H.
Defined.
