(* ===== verification/DesCtrl.v ===== *)
(** Model of [internal/desiredcomponent/controller.go]: a version that a component is wanted
    to have is put into the queues of the namespace. *)

From S2P Require Import Prelude.
From S2P Require Import GoRuntime.
From S2P Require Import Errors.
From S2P Require Import KubeApi.
From S2P Require Import ComponentTypes.
From S2P Require Import QueueTypes.
From S2P Require Import RpcTypes.
From S2P Require Import QueueCtrl.
From S2P Require Import Interfaces.
Open Scope string_scope.
Open Scope list_scope.
Open Scope Z_scope.

(** [ds_s2hClient]: there is a client for the remote calls. *)
Record desired_controller := mkDesiredController {
  ds_teamName : string;
  ds_queueCtrl : QueueCtrl.controller;
  ds_s2hClient : bool;
}.

Section controller.
Context {W : Type} `{GR : GoRuntime W} `{GS : GoSort} `{RPC : SamsahaiRPC W}.
Context `{KQ : KClient W Queue} `{KS : KClient W StableComponent} `{KD : KClient W DesiredComponent}.
Context (c : desired_controller).

(** The times that a component does not have yet. *)
Definition stamp_desired (t : Z) (comp : DesiredComponent) : DesiredComponent :=
  let unless_set (o : option Z) := match o with Some _ => o | None => Some t end in
  comp <| desired_Status ::= fun s => s <| dcs_CreatedAt ::= unless_set |> <| dcs_UpdatedAt ::= unless_set |> |>.

(** The queue that asks for the component. *)
Definition desired_queue (namespace bundle : string) (comp : DesiredComponent) : Queue :=
  let spec := desired_Spec comp in
  NewQueue (ds_teamName c) namespace (dc_Name spec) bundle
    [mkQueueComponent (dc_Name spec) (dc_Repository spec) (dc_Version spec)] QueueTypeUpgrade.

(** [Add] with the pointer to the fresh queue. *)
Definition add_queue (q : Queue) (priorityQueues : list string) : M W unit :=
  do ' (_, _) <- with_obj (QueueObject q) (Add (ds_queueCtrl c) priorityQueues); mret tt.

(** The errors of the remote calls are logged; the bundle of a call that has failed is
    [nil]. *)
Definition ReconcileDesired (req : Request) : M W Result :=
  do t <- now;
  do r <- attempt (k_get DesiredComponent req);
  match r with
  | inl err => if IsNotFound err then mret noResult else throw err
  | inr comp =>
      let comp := stamp_desired t comp in
      if negb (ds_s2hClient c) then go_panic NilDereference else
      do bundle <- attempt (rpc_GetBundleName (mkTeamWithBundleName (ds_teamName c) (dc_Name (desired_Spec comp))));
      do priorityQueues <- attempt (rpc_GetPriorityQueues (ds_teamName c));
      match bundle with
      | inl _ => go_panic NilDereference
      | inr bundle =>
          let q := desired_queue (fst req) bundle comp in
          run add_queue q (match priorityQueues with inl _ => [] | inr l => l end);
          run ignore_error (rpc_SendUpdateStateQueueMetric
            (mkComponentUpgrade UpgradeStatus_FAILURE (qs_Name (queue_Spec q)) "" [] IssueType_UNKNOWN "" []
               (kns q) "" 0 false ReverificationStatus_UNKNOWN [] None ""));
          run k_update comp;
          mret noResult
      end
  end.
End controller.
