(* ===== verification/DesClaims.v ===== *)
(** What the controller of the desired components brings about: the wanted version waits in
    the queues, unless it is the stable one. *)

From S2P Require Import Prelude.
From S2P Require Import GoRuntime.
From S2P Require Import Errors.
From S2P Require Import KubeApi.
From S2P Require Import Frame.
From S2P Require Import ComponentTypes.
From S2P Require Import QueueTypes.
From S2P Require Import RpcTypes.
From S2P Require Import QueueCtrl.
From S2P Require Import QueueSpec.
From S2P Require Import Interfaces.
From S2P Require Import StbClaims.
From S2P Require Import DesCtrl.
Open Scope string_scope.
Open Scope list_scope.
Open Scope Z_scope.

Section claims.
Context {W : Type} `{GR : GoRuntime W} `{GS : GoSort} `{RPC : SamsahaiRPC W}.
Context `{KQ : KClient W Queue} `{KVQ : KView W Queue} `{KLQ : !KClientLaws W Queue}.
Context `{KS : KClient W StableComponent} `{KVS : KView W StableComponent} `{KLS : !KClientLaws W StableComponent}.
Context `{KD : KClient W DesiredComponent} `{KVD : KView W DesiredComponent} `{KLD : !KClientLaws W DesiredComponent}.
Context `{RFQ : !RuntimeFrame W (kview Queue)} `{RFD : !RuntimeFrame W (kview DesiredComponent)}.
Context `{RFS : !RuntimeFrame W (kview StableComponent)}.
Context `{FS : !KFrame W StableComponent (kview Queue)} `{FQ : !KFrame W Queue (kview StableComponent)}.
Context `{FDQ : !KFrame W DesiredComponent (kview Queue)} `{FDS : !KFrame W DesiredComponent (kview StableComponent)}.

Definition queues_and_stables (w : W) := (kview Queue w, kview StableComponent w).
Notation view := queues_and_stables.
Context (rpc_bundle : forall team, Preserves (rpc_GetBundleName team) view).
Context (rpc_priority : forall team, Preserves (rpc_GetPriorityQueues team) view).
Context (rpc_metric : forall comp, Preserves (rpc_SendUpdateStateQueueMetric comp) view).
Context (c : desired_controller).

Lemma pair_frame {A} (m : M W A) :
  Preserves m (kview Queue) -> Preserves m (kview StableComponent) -> Preserves m view.
Proof. intros H1 H2 w. unfold queues_and_stables. by rewrite (H1 w), (H2 w). Qed.

(** The component that the desired one asks for. *)
Definition wanted (comp : DesiredComponent) : QueueComponent :=
  let spec := desired_Spec comp in mkQueueComponent (dc_Name spec) (dc_Repository spec) (dc_Version spec).

Lemma desired_queue_wf ns bundle comp :
  dc_Name (desired_Spec comp) <> "" -> queue_wf ns (desired_queue c ns bundle comp).
Proof.
  intros Hn. unfold desired_queue, NewQueue.
  split; simpl; try done; try (by destruct (String.eqb_spec bundle "")); apply NoDup_singleton.
Qed.

Lemma wp_add_queue ns comp bundle l w :
  ns <> "" -> store_ok ns (kview Queue w) -> dc_Name (desired_Spec comp) <> "" ->
  wp (add_queue c (desired_queue c ns bundle comp) l) w (fun (r : outcome unit) (w' : W) =>
    (forall p, r <> Panic p) /\ on_behalf ns (wanted comp) (kview Queue w) (kview Queue w') /\
    (r = Ok tt -> already_stable (ds_queueCtrl c) w (wanted comp) /\ kview Queue w' = kview Queue w \/
                  pending ns (kview Queue w') (wanted comp))).
Proof using KLQ KLS RFQ FS FQ.
  intros Hns Hok Hname. unfold add_queue. wp_step. apply wp_with_obj. unfold Add, on_queue.
  set (q := desired_queue c ns bundle comp).
  pose proof (wp_add ns (wanted comp) q (ds_queueCtrl c) (desired_queue_wf _ _ _ Hname) eq_refl Hns false l w Hok) as Hwp.
  apply run_wp. intros ra [w5 o5] Heq. simpl in Heq.
  destruct (add _ _ _ (w, q)) as [ra' [w5' q5]] eqn:Ha. injection Heq as -> -> <-.
  pose proof (wp_run _ _ _ _ _ Hwp Ha) as (Hp & Hob & Hfin). simpl in Hob, Hfin.
  destruct ra as [[]|e|p]; cbn [fst snd]; [|by split_and!|by destruct (Hp p)].
  wp_step. split_and!; [done|exact Hob|]. intros _. by apply Hfin.
Qed.

Definition put_in_queue ns comp w (r : outcome Result) (w' : W) : Prop :=
  on_behalf ns (wanted comp) (kview Queue w) (kview Queue w') /\
  (forall res, r = Ok res ->
     already_stable (ds_queueCtrl c) w (wanted comp) /\ kview Queue w' = kview Queue w \/
     pending ns (kview Queue w') (wanted comp)).

(** C20: A reconciliation of a desired component that succeeds has its version waiting in the
    queues of the namespace, and no other version of the component, unless that version is
    the stable one already; however it ends, the other components wait as before and the
    other namespaces are left alone.  It cannot end in a panic as long as the name of the
    bundle is to be had. *)
Theorem desired_gets_queued ns name comp w r w' :
  ns <> "" -> store_ok ns (kview Queue w) -> kview DesiredComponent w !! (ns, name) = Some comp ->
  dc_Name (desired_Spec comp) <> "" ->
  ReconcileDesired c (ns, name) w = (r, w') ->
  store_ok ns (kview Queue w') /\
  (forall other, qc_Name other <> qc_Name (wanted comp) ->
     pending ns (kview Queue w') other <-> pending ns (kview Queue w) other) /\
  (forall k, k.1 <> ns -> kview Queue w' !! k = kview Queue w !! k) /\
  (forall res, r = Ok res ->
     already_stable (ds_queueCtrl c) w (wanted comp) /\ kview Queue w' = kview Queue w \/
     (forall other, qc_Name other = qc_Name (wanted comp) ->
        pending ns (kview Queue w') other <-> other = wanted comp)).
Proof using KLQ KLS KLD RFQ RFD RFS FS FQ FDQ FDS rpc_bundle rpc_priority rpc_metric.
  intros Hns Hok Hcomp Hname Heq.
  assert (put_in_queue ns comp w r w') as [[Hok' Hothers Hnew Helse] Hfin].
  2: { split_and!; [done..|]. intros res Hr. destruct (Hfin _ Hr); [by left|]. right. intros other Hn.
       split; [|by intros ->]. intros Hp. by eapply pending_functional. }
  refine (wp_run _ _ _ _ (put_in_queue ns comp w) _ Heq). clear Heq r w'.
  assert (forall (r : outcome Result) w', kview Queue w' = kview Queue w -> (forall res, r <> Ok res) ->
            put_in_queue ns comp w r w') as Hstop.
  { intros r w' Hw' Hr. split; [rewrite Hw'; by apply on_behalf_refl|]. intros res Hres. by destruct (Hr res). }
  unfold ReconcileDesired. wp_step. apply (wp_preserve (kview DesiredComponent)); [apply _|].
  apply wp_frame with (v := view); [apply pair_frame; apply _|].
  intros [t|e|p] w1 _ Hw1 Hd1; [|by apply Hstop; [apply pair_equal_spec in Hw1 as []|]..].
  wp_step. wp_step. apply (wp_preserve view); [apply pair_frame; apply _|]. apply wp_k_get.
  2: { intros e w2 Hn _ Hw2. rewrite Hd1, Hcomp in Hn. rewrite Hw1 in Hw2. apply pair_equal_spec in Hw2 as [Hw2 _].
       destruct (IsNotFound e); [by discriminate (Hn eq_refl)|]. wp_step. by apply Hstop. }
  intros comp1 w2 Hc1 _ Hw2. rewrite Hd1, Hcomp in Hc1. injection Hc1 as <-. rewrite Hw1 in Hw2.
  cbv zeta. destruct (negb (ds_s2hClient c)); [wp_step; apply Hstop; [by apply pair_equal_spec in Hw2 as []|done]|].
  wp_step. wp_step. apply wp_frame with (v := view); [apply rpc_bundle|]. intros rb w3 _ Hw3. rewrite Hw2 in Hw3.
  assert (forall b : error + string,
    wp (do priorityQueues <- attempt (rpc_GetPriorityQueues (ds_teamName c));
        match b with
        | inl _ => go_panic NilDereference
        | inr bundle =>
            let q := desired_queue c ns bundle (stamp_desired t comp) in
            run add_queue c q (match priorityQueues with inl _ => [] | inr l => l end);
            run ignore_error (rpc_SendUpdateStateQueueMetric
              (mkComponentUpgrade UpgradeStatus_FAILURE (qs_Name (queue_Spec q)) "" [] IssueType_UNKNOWN "" []
                 (kns q) "" 0 false ReverificationStatus_UNKNOWN [] None ""));
            run k_update (stamp_desired t comp);
            mret noResult
        end) w3 (put_in_queue ns comp w)) as Hrest.
  { intros b. wp_step. wp_step. apply wp_frame with (v := view); [apply rpc_priority|]. intros rp w4 _ Hw4.
    rewrite Hw3 in Hw4. apply pair_equal_spec in Hw4 as [Hq4 Hs4].
    assert (forall l : error + list string,
      wp (match b with
        | inl _ => go_panic NilDereference
        | inr bundle =>
            let q := desired_queue c ns bundle (stamp_desired t comp) in
            run add_queue c q (match l with inl _ => [] | inr l => l end);
            run ignore_error (rpc_SendUpdateStateQueueMetric
              (mkComponentUpgrade UpgradeStatus_FAILURE (qs_Name (queue_Spec q)) "" [] IssueType_UNKNOWN "" []
                 (kns q) "" 0 false ReverificationStatus_UNKNOWN [] None ""));
            run k_update (stamp_desired t comp);
            mret noResult
        end) w4 (put_in_queue ns comp w)) as Hadd.
    { intros l. destruct b as [e|bundle]; [wp_step; by apply Hstop|]. cbv zeta.
      wp_step. eapply wp_mono; [apply wp_add_queue; [done|by rewrite Hq4|exact Hname]|]. cbv beta.
      change (wanted (stamp_desired t comp)) with (wanted comp). rewrite Hq4. intros ra w5 (Hp & Hob & Hfin).
      assert (forall (r : outcome Result) w6, kview Queue w6 = kview Queue w5 ->
                ra = Ok tt \/ (forall res, r <> Ok res) -> put_in_queue ns comp w r w6) as Hend.
      { intros r w6 Hw6 Hr. split; [by rewrite Hw6|]. intros res Hres. destruct Hr as [Hr|Hr]; [|by destruct (Hr res)].
        rewrite Hw6. destruct (Hfin Hr) as [[Hst Hq]|]; [left|by right]. split; [|done].
        unfold already_stable in *. by rewrite Hs4 in Hst. }
      destruct ra as [[]|e|p]; [|by apply Hend; [|right]|by destruct (Hp p)].
      wp_step. apply wp_frame with (v := view); [apply ignore_preserves, rpc_metric|].
      intros rm w6 _ Hw6. apply pair_equal_spec in Hw6 as [Hq6 _]. destruct rm as [[]|e|p]; [|by apply Hend; [|right]..].
      wp_step. apply wp_frame with (v := kview Queue); [apply _|]. intros ru w7 _ Hw7.
      destruct ru as [[]|e|p]; [wp_step|..]; (apply Hend; [congruence|]); first [by left|by right]. }
    destruct rp as [l|e|p]; [exact (Hadd (inr l))|exact (Hadd (inl e))|by apply Hstop]. }
  destruct rb as [b|e|p]; [exact (Hrest (inr b))|exact (Hrest (inl e))|apply Hstop; [by apply pair_equal_spec in Hw3 as []|done]].
Qed.
End claims.

(** ** A concrete cluster *)

(** A server whose bundles are to be had or not. *)
Definition bundle_rpc (bundle : error + string) : SamsahaiRPC StbSim := {|
  rpc_GetTeamActiveNamespace team := mret (mkTeamWithNamespace team "");
  rpc_RunPostComponentUpgrade _ := mret tt;
  rpc_RunPostPullRequestQueue _ := mret tt;
  rpc_RunPostPullRequestTrigger _ := mret tt;
  rpc_RunPostPullRequestQueueTestRunnerTrigger _ := mret tt;
  rpc_GetMissingVersions _ := mret [];
  rpc_SendUpdateStateQueueMetric _ := mret tt;
  rpc_GetBundleName _ := match bundle with inl e => throw e | inr b => mret b end;
  rpc_GetPriorityQueues _ := mret [];
  rpc_GetPullRequestBundleDependencies _ := mret [];
  rpc_GetPullRequestConfig _ := throw NotFoundError;
  rpc_GetPullRequestComponentSources _ := mret [];
  rpc_GetComponentVersion _ := mret "";
  rpc_DeployActiveServicesIntoPullRequestEnvironment _ := mret tt;
  rpc_CreatePullRequestEnvironment _ := mret tt;
  rpc_DestroyPullRequestEnvironment _ := mret tt;
|}.
#[local] Instance bsim_sort : GoSort := insertion_GoSort.
Definition bs_desired_controller : desired_controller :=
  mkDesiredController "teamtest" (QueueCtrl.New "s2h-teamtest") true.
(** The namespace has an older version waiting. *)
Definition bs_older : DesiredComponent := bs_wanted <| desired_Spec ::= fun s => s <| dc_Version := "4.9" |> |>.
Definition bs_waiting : Queue := desired_queue bs_desired_controller "s2h-teamtest" "" bs_older.
Definition bs_desired_world : StbSim :=
  mkStbSim 0 ∅ {[ bs_key := bs_stable <| stable_Spec ::= fun s => s <| sc_Version := "4.0" |> |> ]}
    {[ bs_key := bs_waiting ]} {[ bs_key := bs_wanted ]}.

#[local] Instance bsim_frame_queues : RuntimeFrame StbSim (kview (W:=StbSim) Queue).
Proof. by apply sim_runtime_frame. Qed.
#[local] Instance bsim_frame_stables : RuntimeFrame StbSim (kview (W:=StbSim) StableComponent).
Proof. by apply sim_runtime_frame. Qed.
#[local] Instance bsim_frame_desired : RuntimeFrame StbSim (kview (W:=StbSim) DesiredComponent).
Proof. by apply sim_runtime_frame. Qed.
#[local] Instance bsim_stables_queues : KFrame StbSim StableComponent (kview (W:=StbSim) Queue).
Proof. by apply mem_frame. Qed.
#[local] Instance bsim_queues_stables : KFrame StbSim Queue (kview (W:=StbSim) StableComponent).
Proof. by apply mem_frame. Qed.
#[local] Instance bsim_desired_queues : KFrame StbSim DesiredComponent (kview (W:=StbSim) Queue).
Proof. by apply mem_frame. Qed.
#[local] Instance bsim_desired_stables : KFrame StbSim DesiredComponent (kview (W:=StbSim) StableComponent).
Proof. by apply mem_frame. Qed.

Lemma desired_gets_queued_witness :
  let res := ReconcileDesired (RPC := bundle_rpc (inr "")) bs_desired_controller bs_key bs_desired_world in
  fst res = Ok noResult /\
  (forall other, qc_Name other = "redis" ->
     pending "s2h-teamtest" (kview Queue (snd res)) other <-> other = mkQueueComponent "redis" "repo/redis" "5.0").
Proof.
  intros res. assert (fst res = Ok noResult) as Hok by by vm_compute. split; [exact Hok|].
  assert (store_ok "s2h-teamtest" (kview Queue bs_desired_world)) as Hstore.
  { assert (forall k q, kview Queue bs_desired_world !! k = Some q -> k = bs_key /\
      q = bs_waiting) as Hall.
    { intros k q [Hk _]%well_filed_lookup. change (({[ bs_key := bs_waiting ]} : gmap _ Queue) !! k = Some q) in Hk.
      apply lookup_singleton_Some in Hk as [<- <-]. split; reflexivity. }
    split.
    + intros k q Hk _. destruct (Hall _ _ Hk) as [_ ->].
      apply desired_queue_wf. discriminate.
    + intros k q Hk. destruct (Hall _ _ Hk) as [-> ->]. reflexivity.
    + intros k1 k2 q1 q2 n H1 H2 _ _ _ _. exact (eq_trans (proj1 (Hall _ _ H1)) (eq_sym (proj1 (Hall _ _ H2)))). }
  destruct (desired_gets_queued (RPC := bundle_rpc (inr "")) (fun _ _ => eq_refl) (fun _ _ => eq_refl)
    (fun _ _ => eq_refl) bs_desired_controller "s2h-teamtest" "redis" bs_wanted bs_desired_world (fst res) (snd res)
    ltac:(discriminate) Hstore eq_refl ltac:(discriminate) (surjective_pairing _)) as (_ & _ & _ & Hr).
  destruct (Hr _ Hok) as [[(sc & Hsc & _ & Hv) _]|Hp]; [|exact Hp].
  assert ((fun x => sc_Version (stable_Spec x)) <$> kview StableComponent bs_desired_world !! bs_key = Some "4.0") as H4
    by by vm_compute.
  pose proof (eq_trans (f_equal (fmap (fun x => sc_Version (stable_Spec x))) (eq_sym Hsc)) H4) as Hsv.
  simpl in Hsv. rewrite Hv in Hsv. discriminate Hsv.
Defined.

(** When the name of the bundle is not to be had, the controller stops in a panic. *)
Lemma unanswered_bundle_panics :
  fst (ReconcileDesired (RPC := bundle_rpc (inl NotFoundError)) bs_desired_controller bs_key bs_desired_world)
    = Panic NilDereference.
Proof. by vm_compute. Qed.
