(* ===== verification/Reporters.v ===== *)
(** Model of [internal/reporter.go]: what Samsahai reports to other systems, and the
    interface of a reporter, which the packages under [internal/reporter] implement.

    The environment variables of the process, which every report carries, are left out.
    The reports of promotions and of deleted environments are in [Interfaces] and
    [SamsahaiCtrl], with the controllers that send them. *)

From S2P Require Import Prelude.
From S2P Require Import GoRuntime.
From S2P Require Import Errors.
From S2P Require Import ConfigTypes.
From S2P Require Import QueueTypes.
From S2P Require Import TeamTypes.
From S2P Require Import PrtTypes.
From S2P Require Import RpcTypes.
From S2P Require Import Interfaces.
From S2P Require Import SamsahaiCtrl.
Open Scope string_scope.
Open Scope list_scope.
Open Scope Z_scope.

(** [StatusType] and [IssueType]. *)
Inductive StatusType := StatusSuccess | StatusFailure | StatusCanceled.
Inductive ReportedIssue := IssueUnknown | IssueDesiredVersionFailed | IssueImageMissing | IssueEnvironment.

Definition convertIssueType (issueType : IssueType) : ReportedIssue :=
  match issueType with
  | IssueType_DESIRED_VERSION_FAILED => IssueDesiredVersionFailed
  | IssueType_ENVIRONMENT_ISSUE => IssueEnvironment
  | IssueType_IMAGE_MISSING => IssueImageMissing
  | IssueType_UNKNOWN => IssueUnknown
  end.
Definition convertStatusType (statusType : UpgradeStatus) : StatusType :=
  match statusType with
  | UpgradeStatus_SUCCESS => StatusSuccess
  | UpgradeStatus_CANCELED => StatusCanceled
  | UpgradeStatus_FAILURE => StatusFailure
  end.
(** The numbers of [service.proto]. *)
Definition status_number (status : UpgradeStatus) : Z :=
  match status with UpgradeStatus_FAILURE => 0 | UpgradeStatus_SUCCESS => 1 | UpgradeStatus_CANCELED => 2 end.

(** The embedded message is a pointer: who writes its fields writes the message of the
    caller. *)
Record ComponentUpgradeReporter := mkComponentUpgradeReporter {
  cur_IssueTypeStr : ReportedIssue;
  cur_StatusStr : StatusType;
  cur_StatusInt : Z;
  cur_TestRunner : TestRunner;
  cur_Credential : Credential;
  cur_ComponentUpgrade : ComponentUpgrade;
  cur_SamsahaiConfig : SamsahaiConfig;
}.
Record ImageMissingReporter := mkImageMissingReporter {
  imr_TeamName : string;
  imr_ComponentName : string;
  imr_Reason : string;
  imr_Image : Image;
  imr_SamsahaiConfig : SamsahaiConfig;
}.
Definition NewImageMissingReporter (image : Image) (s2hConfig : SamsahaiConfig) (teamName compName reason : string)
    : ImageMissingReporter :=
  mkImageMissingReporter teamName compName reason image s2hConfig.
Record PullRequestTriggerReporter := mkPullRequestTriggerReporter {
  ptr_TeamName : string;
  ptr_BundleName : string;
  ptr_PRNumber : string;
  ptr_Result : string;
  ptr_Components : list PullRequestTriggerComponent;
  ptr_NoOfRetry : Z;
  ptr_Status : PullRequestTriggerStatus;
  ptr_SamsahaiConfig : SamsahaiConfig;
}.
Definition NewPullRequestTriggerResultReporter (status : PullRequestTriggerStatus) (s2hConfig : SamsahaiConfig)
    (teamName bundleName prNumber result : string) (noOfRetry : Z) (comps : list PullRequestTriggerComponent)
    : PullRequestTriggerReporter :=
  mkPullRequestTriggerReporter teamName bundleName prNumber result comps noOfRetry status s2hConfig.
Record PullRequestTestRunnerPendingReporter := mkPullRequestTestRunnerPendingReporter {
  ppr_TeamName : string;
  ppr_BundleName : string;
  ppr_PRNumber : string;
  ppr_CommitSHA : string;
  ppr_Credential : Credential;
  ppr_SamsahaiConfig : SamsahaiConfig;
}.
Definition NewPullRequestTestRunnerPendingReporter (s2hConfig : SamsahaiConfig)
    (teamName bundleName prNumber commitSHA : string) (credential : Credential)
    : PullRequestTestRunnerPendingReporter :=
  mkPullRequestTestRunnerPendingReporter teamName bundleName prNumber commitSHA credential s2hConfig.

#[export] Instance eta_ComponentUpgrade : Eta ComponentUpgrade := fun x =>
  mkComponentUpgrade (cu_Status x) (cu_Name x) (cu_TeamName x) (cu_Components x) (cu_IssueType x)
    (cu_QueueHistoryName x) (cu_ImageMissingList x) (cu_Namespace x) (cu_TestBuildTypeID x) (cu_Runs x)
    (cu_IsReverify x) (cu_ReverificationStatus x) (cu_DeploymentIssues x) (cu_PullRequestComponent x)
    (cu_PullRequestNamespace x).
#[export] Instance eta_ComponentUpgradeReporter : Eta ComponentUpgradeReporter := fun x =>
  mkComponentUpgradeReporter (cur_IssueTypeStr x) (cur_StatusStr x) (cur_StatusInt x) (cur_TestRunner x)
    (cur_Credential x) (cur_ComponentUpgrade x) (cur_SamsahaiConfig x).

(** ** Options *)

Definition ComponentUpgradeOption : Type := ComponentUpgradeReporter -> ComponentUpgradeReporter.
Definition WithTestRunner (tr : TestRunner) : ComponentUpgradeOption := fun c => c <| cur_TestRunner := tr |>.
Definition WithQueueHistoryName (qHist : string) : ComponentUpgradeOption := fun c =>
  c <| cur_ComponentUpgrade ::= fun m => m <| cu_QueueHistoryName := qHist |> |>.
Definition WithNamespace (ns : string) : ComponentUpgradeOption := fun c =>
  if negb (String.eqb ns "") then c <| cur_ComponentUpgrade ::= fun m => m <| cu_Namespace := ns |> |> else c.
Definition WithComponentUpgradeOptCredential (creds : Credential) : ComponentUpgradeOption := fun c =>
  c <| cur_Credential := creds |>.

Definition NewComponentUpgradeReporter (comp : ComponentUpgrade) (s2hConfig : SamsahaiConfig)
    (opts : list ComponentUpgradeOption) : ComponentUpgradeReporter :=
  foldl (fun c opt => opt c)
    (mkComponentUpgradeReporter (convertIssueType (cu_IssueType comp)) (convertStatusType (cu_Status comp))
       (status_number (cu_Status comp)) noTestRunner noCredential comp s2hConfig) opts.

(** ** The interface [Reporter] *)

Record Reporter (W : Type) := mkReporter {
  rp_SendComponentUpgrade : ComponentUpgradeReporter -> M W unit;
  rp_SendPullRequestQueue : ComponentUpgradeReporter -> M W unit;
  rp_SendActivePromotionStatus : ActivePromotionReporter -> M W unit;
  rp_SendImageMissing : ImageMissingReporter -> M W unit;
  rp_SendPullRequestTriggerResult : PullRequestTriggerReporter -> M W unit;
  rp_SendPullRequestTestRunnerPendingResult : PullRequestTestRunnerPendingReporter -> M W unit;
  rp_SendActiveEnvironmentDeleted : ActiveEnvironmentDeletedReporter -> M W unit;
}.
Arguments rp_SendComponentUpgrade {_} _ _.
Arguments rp_SendPullRequestQueue {_} _ _.
Arguments rp_SendActivePromotionStatus {_} _ _.
Arguments rp_SendImageMissing {_} _ _.
Arguments rp_SendPullRequestTriggerResult {_} _ _.
Arguments rp_SendPullRequestTestRunnerPendingResult {_} _ _.
Arguments rp_SendActiveEnvironmentDeleted {_} _ _.

(** ** The plugins of Samsahai *)

(** [internal.DesiredComponentChecker].  [GetVersion] answers with a version even when it
    answers with an error. *)
Record Checker (W : Type) := mkChecker {
  ck_GetVersion : string -> string -> string -> M W (string * option error);
  ck_EnsureVersion : string -> string -> string -> M W unit;
}.
Arguments ck_GetVersion {_} _ _ _ _.
Arguments ck_EnsureVersion {_} _ _ _ _.

(** The checkers are loaded once; a reporter may be added when the secret of a team is
    read. *)
Class SamsahaiPlugins (W : Type) := {
  sp_checkers : gmap string (Checker W);
  sp_reporters : M W (gmap string (Reporter W));
}.

(** An answer with an error, as a call. *)
Definition or_throw {S A} (r : error + A) : M S A := match r with inl err => throw err | inr a => mret a end.

Definition getComponentChecker {W} `{SamsahaiPlugins W} (source : string) : error + Checker W :=
  match sp_checkers !! source with
  | None => inl (New ("component checker source " +:+ source +:+ " not found"))
  | Some checker => inr checker
  end.
