(* ===== verification/S2hProcess.v ===== *)
(** Model of [internal/samsahai/internal_process.go]: the work queue of Samsahai.  A change
    of a component is looked up in the configurations of the teams, and for each team that
    has it the checker is asked for the version that the team should have; the answer
    becomes the desired component of the team.

    The work queue is a library, and a class here. *)

From S2P Require Import Prelude.
From S2P Require Import GoRuntime.
From S2P Require Import Errors.
From S2P Require Import KubeApi.
From S2P Require Import ConfigTypes.
From S2P Require Import ComponentTypes.
From S2P Require Import QueueTypes.
From S2P Require Import TeamTypes.
From S2P Require Import QueueCtrl.
From S2P Require Import Interfaces.
From S2P Require Import SamsahaiCtrl.
From S2P Require Import Reporters.
From S2P Require Import Outdated.
Open Scope string_scope.
Open Scope list_scope.
Open Scope Z_scope.

Definition maxDesiredMappingPerComp : nat := 10.

(** ** The work queue *)

Record TeamDesiredUpdate := mkTeamDesiredUpdate {
  udc_TeamName : string;
  udc_ComponentName : string;
  udc_ComponentSource : string;
  udc_ComponentImage : ComponentImage;
  udc_ComponentBundle : string;
}.
(** What a piece of work is. *)
Inductive work :=
| changedComponent (Name Repository TeamName : string)
| updateTeamDesired (updateInfo : TeamDesiredUpdate)
| updateHealth
| exportMetric
| OtherWork.

(** [workqueue.RateLimitingInterface].  [Get] answers [nil] when there is nothing, and
    whether the queue is shutting down. *)
Class WorkQueue (W : Type) := {
  wq_Get : W -> (option work * bool) * W;
  wq_Add : work -> W -> W;
  wq_AddAfter : work -> Duration -> W -> W;
  wq_AddRateLimited : work -> W -> W;
  wq_Forget : option work -> W -> W;
  wq_Done : option work -> W -> W;
}.
Definition wq_do {W} (f : W -> W) : M W unit := fun w => (Ok tt, f w).

(** [defer d()]: [d] runs however [m] ends. *)
Definition deferred {W A} (m : M W A) (d : W -> W) : M W A := fun w => let (r, w') := m w in (r, d w').

(** ** Desired images of a team *)

Record desiredTime := mkDesiredTime { dtm_image : string; dtm_desiredImageTime : DesiredImageTime }.

Definition isImageInActive (team : Team) (compName desiredImage : string) : bool :=
  match tst_ActiveComponents (team_Status team) !! compName with
  | Some activeComp =>
      let spec := stable_Spec activeComp in
      if negb (String.eqb (sc_Name spec) "")
      then String.eqb (ConcatImageString (sc_Repository spec) (sc_Version spec)) desiredImage
      else false
  | None => false
  end.

(** By time, the latest first; the sort is stable. *)
Definition later_image (a b : desiredTime) : bool :=
  dit_CreatedTime (dtm_desiredImageTime b) <? dit_CreatedTime (dtm_desiredImageTime a).
Definition sortDesiredList (desiredList : list desiredTime) : list desiredTime :=
  insertion_sort later_image desiredList.

(** The images to delete among [n] of the oldest, from the oldest on: the active image
    ends it. *)
Fixpoint oldest_images (active : string -> bool) (n : nat) (oldest_first : list desiredTime) : list string :=
  match n, oldest_first with
  | S n, d :: rest => if active (dtm_image d) then [] else dtm_image d :: oldest_images active n rest
  | _, _ => []
  end.

Section process.
Context {W O : Type} `{GR : GoRuntime W} `{GS : GoSort} `{CC : ConfigController W}.
Context `{KTeam : KClient W Team} `{KD : KClient W DesiredComponent}.
Context `{WQ : WorkQueue W} `{SP : SamsahaiPlugins W}.
Context (configs : SamsahaiConfig).

Definition convertDesiredMapToDesiredTimeList (desiredMap : gmap string DesiredImageTime) : M W (list desiredTime) :=
  do entries <- range_map desiredMap;
  mret (map (fun e => mkDesiredTime (fst e) (snd e)) entries).

(** One component of the loop; it works on the map of the team. *)
Definition delete_out_of_range (maxDesiredMapping : nat) (compName : string) (m : gmap string DesiredImageTime)
    : TeamHandler unit :=
  do desiredList <- onW (convertDesiredMapToDesiredTimeList m);
  if (maxDesiredMapping <? length desiredList)%nat then
    do team <- get_obj;
    let images := oldest_images (isImageInActive team compName) (length desiredList - maxDesiredMapping)
                    (reverse (sortDesiredList desiredList)) in
    mod_obj (fun t => t <| team_Status ::= fun s => s <| tst_DesiredComponentImageCreatedTime ::=
      alter (fun m => foldr delete m images) compName |> |>)
  else mret tt.
Definition deleteDesiredMappingOutOfRange (maxDesiredMapping : nat) : TeamHandler unit :=
  do team <- get_obj;
  do desiredMap <- onW (range_map (tst_DesiredComponentImageCreatedTime (team_Status team)));
  for_each desiredMap (fun e => delete_out_of_range maxDesiredMapping (fst e) (snd e)).

(** ** The handlers of the work *)

(** The errors of the reporters are logged. *)
Definition sendImageMissingReport (teamName compName repo version reason : string) : M W unit :=
  do reporters <- sp_reporters;
  do reporters <- range_map reporters;
  for_each reporters (fun reporter => ignore_error (rp_SendImageMissing (snd reporter)
    (NewImageMissingReporter (mkImage repo version) configs teamName compName reason))).

(** The desired component that the answer of the checker stands for. *)
Definition desired_spec (updateInfo : TeamDesiredUpdate) (version : string) : DesiredComponentSpec :=
  mkDesiredComponentSpec (udc_ComponentName updateInfo) version (ci_Repository (udc_ComponentImage updateInfo))
    (udc_ComponentBundle updateInfo).
Definition new_desired (updateInfo : TeamDesiredUpdate) (version teamName compNs : string) (t : Z) : DesiredComponent :=
  let compName := udc_ComponentName updateInfo in
  mkDesiredComponent
    ((namedMeta compNs compName) <| om_Labels := <["app" := compName]> (GetDefaultLabels teamName) |>)
    (desired_spec updateInfo version) (mkDesiredComponentStatus (Some t) (Some t)).

(** The error of [Create] is logged. *)
Definition set_desired (updateInfo : TeamDesiredUpdate) (version teamName compNs : string) (t : Z) : M W unit :=
  do r <- attempt (k_get DesiredComponent (compNs, udc_ComponentName updateInfo));
  match r with
  | inl err =>
      if IsNotFound err
      then ignore_error (k_create (new_desired updateInfo version teamName compNs t))
      else throw err
  | inr desiredComp =>
      let spec := desired_spec updateInfo version in
      if IsSame desiredComp (mkDesiredComponent noMeta spec (mkDesiredComponentStatus None None)) then mret tt
      else k_update (desiredComp <| desired_Spec := mkDesiredComponentSpec (dc_Name (desired_Spec desiredComp))
                                      (dc_Version spec) (dc_Repository spec) (dc_Bundle spec) |>
                                 <| desired_Status ::= fun s => s <| dcs_UpdatedAt := Some t |> |>)
  end.

(** The image in the status of the team. *)
Definition record_image (updateInfo : TeamDesiredUpdate) (version : string) (isImageMissing : bool) (t : Z)
    : TeamHandler unit :=
  let compRepository := ci_Repository (udc_ComponentImage updateInfo) in
  do team <- get_obj;
  do status <- onW (UpdateDesiredComponentImageCreatedTime (udc_ComponentName updateInfo)
    (ConcatImageString compRepository version)
    (mkDesiredImageTime (Some (mkImage compRepository version)) t isImageMissing) (team_Status team));
  run mod_obj (fun team => team <| team_Status := status |>);
  run deleteDesiredMappingOutOfRange maxDesiredMappingPerComp;
  updateTeam.

Definition updateTeamDesiredComponent (updateInfo : TeamDesiredUpdate) : M W unit :=
  do checker <- or_throw (getComponentChecker (udc_ComponentSource updateInfo));
  do team <- fetchTeam (udc_TeamName updateInfo);
  let compNs := tn_Staging (tst_Namespace (team_Status team)) in
  let compName := udc_ComponentName updateInfo in
  let compRepository := ci_Repository (udc_ComponentImage updateInfo) in
  do ' (version, vErr) <- ck_GetVersion checker compRepository compName (ci_Pattern (udc_ComponentImage updateInfo));
  match vErr with
  | Some vErr =>
      if IsImageNotFound vErr || IsErrRequestTimeout vErr then
        do t <- now;
        do ' (_, _) <- with_obj team (record_image updateInfo version true t);
        sendImageMissingReport (udc_TeamName updateInfo) compName compRepository version ""
      else if IsInternalCheckerError vErr then
        sendImageMissingReport (udc_TeamName updateInfo) compName compRepository version (err_text vErr)
      else throw vErr
  | None =>
      do t <- now;
      do ' (_, _) <- with_obj team (record_image updateInfo version false t);
      set_desired updateInfo version (kname team) compNs t
  end.

(** [getBundleName] of [rpc.go]: the first bundle, in the order of the map, that has the
    component; an error of the configuration counts as no bundles. *)
Definition getBundleName (compName teamName : string) : M W string :=
  do r <- attempt (cfg_GetBundles teamName);
  do bundles <- range_map (match r with inl _ => ∅ | inr bundles => bundles end);
  mret (match List.find (fun b => existsb (fun comp => String.eqb comp compName) (snd b)) bundles with
        | Some (bundleName, _) => bundleName
        | None => ""
        end).

(** A component that has changed, when it has a checker; a repository that is given has to
    be the configured one. *)
Definition notified (compName repository : string) (comp : Component) : option UpdatingSource :=
  if negb (String.eqb compName (cp_Name comp)) then None else
  match cp_Source comp with
  | None => None
  | Some source =>
      match getComponentChecker source with
      | inl _ => None
      | inr _ =>
          if negb (String.eqb repository "") && negb (String.eqb repository (ci_Repository (cp_Image comp)))
          then None else Some source
      end
  end.

(** An error of [GetComponents] counts as no components. *)
Definition checkTeamComponentChanged (compName repository teamName : string) : M W unit :=
  run fetchTeam teamName;
  do r <- attempt (cfg_GetComponents teamName);
  do comps <- range_map (match r with inl _ => ∅ | inr comps => comps end);
  for_each comps (fun e =>
    let comp := snd e in
    match notified compName repository comp with
    | None => mret tt
    | Some source =>
        do bundleName <- getBundleName (cp_Name comp) teamName;
        wq_do (wq_Add (updateTeamDesired
          (mkTeamDesiredUpdate teamName (cp_Name comp) source (cp_Image comp) bundleName)))
    end).

Definition checkComponentChanged (compName repository teamName : string) : M W unit :=
  if negb (String.eqb teamName "") then checkTeamComponentChanged compName repository teamName
  else
    do teamList <- GetTeams;
    for_each teamList (fun team => ignore_error (checkTeamComponentChanged compName repository (kname team))).

(** The metrics themselves are left out. *)
Definition exportTeamMetric : M W unit := run GetTeams; mret tt.
Definition updateHealthMetric : M W unit := wq_do (wq_AddAfter updateHealth Minute).

Definition NotifyComponentChanged (compName repository teamName : string) : M W unit :=
  wq_do (wq_Add (changedComponent compName repository teamName)).

(** ** The loop *)

Definition handle (v : work) : M W unit :=
  match v with
  | changedComponent compName repository teamName => checkComponentChanged compName repository teamName
  | updateTeamDesired updateInfo => updateTeamDesiredComponent updateInfo
  | updateHealth => updateHealthMetric
  | exportMetric => exportTeamMetric
  | OtherWork => mret tt
  end.

(** One turn: [true] goes on at once, [false] ends the loop until it is started again half
    a second later. *)
Definition process : M W bool := fun w =>
  let '((obj, shutdown), w) := wq_Get w in
  (run (match obj with None => wq_do (wq_Forget obj) | Some _ => mret tt end);
   if shutdown : bool then mret false
   else
     deferred (
       match obj with
       | None | Some OtherWork => run wq_do (wq_Forget obj); mret true
       | Some v =>
           do r <- attempt (handle v);
           match r with
           | inl _ => run wq_do (wq_AddRateLimited v); mret false
           | inr _ => run wq_do (wq_Forget obj); mret true
           end
       end) (wq_Done obj)) w.

(** What [Start] puts into the queue before the loops run. *)
Definition start_work : M W unit :=
  run wq_do (wq_Add updateHealth);
  wq_do (wq_AddAfter exportMetric (30 * Second)).
End process.
