(* ===== verification/S2hProcClaims.v ===== *)
(** What the work queue of Samsahai brings about: which of the images that a component was
    wanted to have are kept, which desired components follow from the answer of a checker,
    and what a notification adds to the queue. *)

From S2P Require Import Prelude.
From S2P Require Import GoRuntime.
From S2P Require Import Errors.
From S2P Require Import KubeApi.
From S2P Require Import Frame.
From S2P Require Import ConfigTypes.
From S2P Require Import ComponentTypes.
From S2P Require Import QueueTypes.
From S2P Require Import TeamTypes.
From S2P Require Import QueueCtrl.
From S2P Require Import Interfaces.
From S2P Require Import SamsahaiCtrl.
From S2P Require Import Outdated.
From S2P Require Import Reporters.
From S2P Require Import S2hProcess.
Open Scope string_scope.
Open Scope list_scope.
Open Scope Z_scope.

Notation image_map := (gmap string DesiredImageTime).

(** ** Old images *)

(** What is kept of the images [m] of a component. *)
Record kept_images (active : string -> bool) (n : nat) (m m' : image_map) : Prop := {
  ki_subset : m' ⊆ m;
  ki_few : (size m <= n)%nat -> m' = m;
  ki_newest : forall i d, m !! i = Some d -> m' !! i = None -> active i = false /\
    exists newer : list string, NoDup newer /\ length newer = n /\
      forall j, j ∈ newer -> exists e, m' !! j = Some e /\ dit_CreatedTime d <= dit_CreatedTime e;
  ki_active : (size m' <= n)%nat \/
    exists i d, active i = true /\ m' !! i = Some d /\
      forall j e, m' !! j = Some e -> dit_CreatedTime d <= dit_CreatedTime e;
}.

Lemma oldest_images_prefix active n L :
  (n <= length L)%nat ->
  exists k, (k <= n)%nat /\ oldest_images active n L = dtm_image <$> take k L /\
    (forall d, d ∈ take k L -> active (dtm_image d) = false) /\
    (k = n \/ exists d, L !! k = Some d /\ active (dtm_image d) = true).
Proof.
  revert n. induction L as [|d L IH]; intros [|n] Hn; simpl in Hn; try lia.
  1-2: exists 0%nat; split_and!; [lia|done|by intros ? Hd%not_elem_of_nil|by left].
  cbn [oldest_images]. destruct (active (dtm_image d)) eqn:Ha.
  - exists 0%nat. split_and!; [lia|done|by intros e He%not_elem_of_nil|right; by exists d].
  - destruct (IH n) as (k & Hk & -> & Hinact & Hend); [lia|]. exists (S k). split_and!; [lia|done| |].
    + intros e [->|He]%elem_of_cons; [done|by apply Hinact].
    + destruct Hend as [->|?]; [by left|by right].
Qed.

(** The list that the map of a component becomes, the oldest first. *)
Definition ages (L : list desiredTime) : Prop :=
  StronglySorted (fun a b => dit_CreatedTime (dtm_desiredImageTime a) <= dit_CreatedTime (dtm_desiredImageTime b)) L.
Definition listed_images (m : image_map) (L : list desiredTime) : Prop :=
  L ≡ₚ (fun e => mkDesiredTime (fst e) (snd e)) <$> map_to_list m.

Lemma later_image_ordering : sort_ordering later_image.
Proof. split; intros x y z; unfold later_image; lia. Qed.

Lemma sorted_ages l : ages (reverse (sortDesiredList l)).
Proof.
  pose proof (insertion_sort_in_order later_image l later_image_ordering) as Hs.
  apply StronglySorted_reverse in Hs. unfold ages, sortDesiredList in *.
  induction Hs as [|x L Hs IH Hx]; constructor; [done|]. eapply Forall_impl; [exact Hx|]. intros y Hy.
  unfold flip, may_follow, later_image in Hy. lia.
Qed.

Lemma ages_lookup L i j d e :
  ages L -> (i <= j)%nat -> L !! i = Some d -> L !! j = Some e ->
  dit_CreatedTime (dtm_desiredImageTime d) <= dit_CreatedTime (dtm_desiredImageTime e).
Proof.
  intros Hs. revert i j. induction Hs as [|x L Hs IH Hx]; intros [|i] [|j] Hij Hi Hj; simplify_eq/=; try lia.
  - rewrite Forall_forall in Hx. apply Hx. by eapply list_elem_of_lookup_2.
  - eapply (IH i j); [lia|done..].
Qed.

Lemma oldest_deleted active m L n :
  listed_images m L -> ages L -> (n < length L)%nat ->
  kept_images active n m (foldr delete m (oldest_images active (length L - n) L)).
Proof.
  intros HL Hages Hn. destruct (oldest_images_prefix active (length L - n) L) as (k & Hk & -> & Hinact & Hend); [lia|].
  assert (NoDup (dtm_image <$> L)) as Hnd.
  { rewrite HL, <- list_fmap_compose. apply NoDup_fst_map_to_list. }
  assert (forall i d, m !! i = Some d <-> mkDesiredTime i d ∈ L) as Hin.
  { intros i d. rewrite HL, list_elem_of_fmap, <- elem_of_map_to_list. split.
    - intros Hi. by exists (i, d).
    - by intros ([i' d'] & [= -> ->] & Hi). }
  assert (size m = length L) as Hsize by by rewrite HL, length_fmap, length_map_to_list.
  set (m' := foldr delete m (dtm_image <$> take k L)).
  assert (forall i d, m' !! i = Some d <-> mkDesiredTime i d ∈ drop k L) as Hin'.
  { intros i d. unfold m'. rewrite lookup_foldr_delete_Some, Hin.
    pose proof Hnd as Hsplit. rewrite <- (take_drop k L), fmap_app in Hsplit. apply NoDup_app in Hsplit as (_ & Hdis & _).
    assert (forall x, x ∈ L <-> x ∈ take k L \/ x ∈ drop k L) as HinL.
    { intros x. by rewrite <- elem_of_app, take_drop. }
    rewrite HinL. split.
    - intros [Hi [Ht|]]; [|done]. destruct Hi. apply list_elem_of_fmap. by exists (mkDesiredTime i d).
    - intros Hd. split; [|by right]. intros Ht. apply (Hdis _ Ht), list_elem_of_fmap. by exists (mkDesiredTime i d). }
  split.
  - apply map_subseteq_spec. intros i d. unfold m'. rewrite lookup_foldr_delete_Some. by intros [_ ?].
  - intros. lia.
  - intros i d Hi Hi'. apply Hin in Hi as HiL. rewrite <- (take_drop k L), elem_of_app in HiL.
    destruct HiL as [HiL|HiL]; [|by apply Hin' in HiL; rewrite Hi' in HiL]. split; [by apply (Hinact _ HiL)|].
    exists (dtm_image <$> drop (length L - n) L). split_and!.
    + rewrite fmap_drop. rewrite <- (take_drop (length L - n) (dtm_image <$> L)) in Hnd. by apply NoDup_app in Hnd as (_ & _ & ?).
    + rewrite length_fmap, length_drop. lia.
    + intros j ([j' e] & -> & Hj)%list_elem_of_fmap. exists e. split.
      * apply Hin'. replace (length L - n)%nat with (k + (length L - n - k))%nat in Hj by lia.
        rewrite <- drop_drop in Hj. by eapply subseteq_drop.
      * apply list_elem_of_lookup in HiL as [p Hp], Hj as [q Hq].
        pose proof (lookup_lt_Some _ _ _ Hp) as Hlt. rewrite length_take in Hlt.
        rewrite lookup_take_lt in Hp by lia. rewrite lookup_drop in Hq.
        exact (ages_lookup _ p (length L - n + q) _ _ Hages ltac:(lia) Hp Hq).
  - destruct Hend as [->|([i d] & Hi & Ha)].
    + left. assert (map_to_list m' ≡ₚ (fun x => (dtm_image x, dtm_desiredImageTime x)) <$> drop (length L - n) L) as Hp.
      { apply NoDup_Permutation; [apply NoDup_map_to_list| |].
        - apply (NoDup_fmap_1 fst). rewrite <- list_fmap_compose. change (fst ∘ _) with dtm_image. rewrite fmap_drop.
          rewrite <- (take_drop (length L - n) (dtm_image <$> L)) in Hnd. by apply NoDup_app in Hnd as (_ & _ & ?).
        - intros [i d]. rewrite elem_of_map_to_list, Hin', list_elem_of_fmap. split.
          + intros. by exists (mkDesiredTime i d).
          + by intros ([i' d'] & [= -> ->] & ?). }
      rewrite <- length_map_to_list, Hp, length_fmap, length_drop. lia.
    + right. exists i, d. simpl in Ha. split_and!; [done| |].
      * apply Hin'. apply list_elem_of_lookup. exists 0%nat. by rewrite lookup_drop, Nat.add_0_r.
      * intros j e (q & Hq)%Hin'%list_elem_of_lookup. rewrite lookup_drop in Hq.
        exact (ages_lookup _ k (k + q) _ _ Hages ltac:(lia) Hi Hq).
Qed.

Lemma kept_all active n m : (size m <= n)%nat -> kept_images active n m m.
Proof. intros Hs. split; [done..| |by left]. intros i d Hi Hi'. by rewrite Hi in Hi'. Qed.

Notation desired_images t := (tst_DesiredComponentImageCreatedTime (team_Status t)).

(** The team with other images. *)
Definition with_images (t : Team) (images : gmap string image_map) : Team :=
  t <| team_Status ::= fun s => s <| tst_DesiredComponentImageCreatedTime := images |> |>.
Lemma with_images_id t : with_images t (desired_images t) = t.
Proof. by destruct t as [? ? []]. Qed.
Lemma with_images_twice t m m' : with_images (with_images t m) m' = with_images t m'.
Proof. by destruct t as [? ? []]. Qed.
Lemma with_images_active t m comp : isImageInActive (with_images t m) comp = isImageInActive t comp.
Proof. by destruct t as [? ? []]. Qed.

(** The images of a team after they were cut down to [n] for each component. *)
Definition images_pruned (n : nat) (t : Team) (images : gmap string image_map) : Prop :=
  forall comp, match desired_images t !! comp, images !! comp with
    | Some m, Some m' => kept_images (isImageInActive t comp) n m m'
    | None, None => True
    | _, _ => False
    end.

Section images.
Context {W : Type} `{GR : GoRuntime W} {GL : GoRuntimeLaws W}.

Lemma wp_delete_out_of_range n comp m (s : W * Team) (Q : outcome unit -> W * Team -> Prop) :
  desired_images (snd s) !! comp = Some m ->
  (forall w' m', kept_images (isImageInActive (snd s) comp) n m m' ->
     Q (Ok tt) (w', with_images (snd s) (<[comp := m']> (desired_images (snd s))))) ->
  wp (delete_out_of_range n comp m) s Q.
Proof using GL.
  intros Hm HQ. destruct s as [w t]. simpl in *. unfold delete_out_of_range, convertDesiredMapToDesiredTimeList.
  wp_step. wp_step. wp_step. apply wp_range_map. intros entries w1 Hr. simpl in Hr. wp_step.
  pose proof (rt_range_perm _ m w) as Hp. rewrite Hr in Hp. simpl in Hp.
  set (l := map _ entries). assert (listed_images m (reverse (sortDesiredList l))) as Hl.
  { unfold listed_images, sortDesiredList. rewrite reverse_Permutation, insertion_sort_perm. subst l.
    change (map ?f entries) with (f <$> entries). by rewrite Hp. }
  assert (length l = length (reverse (sortDesiredList l))) as Hlen.
  { unfold sortDesiredList. by rewrite reverse_Permutation, insertion_sort_perm. }
  destruct (Nat.ltb_spec n (length l)) as [Hlt|Hge].
  - wp_step. wp_step. wp_step. rewrite Hlen.
    pose proof (oldest_deleted (isImageInActive t comp) m _ n Hl (sorted_ages l) ltac:(lia)) as Hk.
    apply (HQ w1) in Hk. simpl. rewrite (alter_alt_Some _ _ _ _ Hm). exact Hk.
  - wp_step. rewrite <- (with_images_id t) at 1. rewrite <- (insert_id (desired_images t) comp m Hm).
    apply HQ. apply kept_all. rewrite <- length_map_to_list. unfold listed_images in Hl.
    rewrite Hlen, Hl, length_fmap in Hge. done.
Qed.

(** After the loop every component has been cut down. *)
Lemma wp_deleteDesiredMappingOutOfRange n t w (Q : outcome unit -> W * Team -> Prop) :
  (forall w' images, images_pruned n t images -> Q (Ok tt) (w', with_images t images)) ->
  wp (deleteDesiredMappingOutOfRange n) (w, t) Q.
Proof using GL.
  intros HQ. unfold deleteDesiredMappingOutOfRange. wp_step. wp_step. wp_step. wp_step. apply wp_range_map.
  intros l w1 Hr. pose proof (rt_range_perm _ (desired_images t) w) as Hp. simpl in Hr. rewrite Hr in Hp. simpl in Hp.
  pose (I := fun (l : list (string * image_map)) (s : W * Team) => exists images,
    snd s = with_images t images /\ NoDup l.*1 /\
    forall comp, (exists m, (comp, m) ∈ l /\ desired_images t !! comp = Some m /\ images !! comp = Some m) \/
      comp ∉ l.*1 /\ match desired_images t !! comp, images !! comp with
        | Some m, Some m' => kept_images (isImageInActive t comp) n m m'
        | None, None => True
        | _, _ => False
        end).
  apply wp_for_each with (I := I).
  - exists (desired_images t). simpl. rewrite with_images_id. split_and!; [done| |].
    + rewrite Hp. apply NoDup_fst_map_to_list.
    + intros comp. destruct (desired_images t !! comp) as [m|] eqn:Hm.
      * left. exists m. by rewrite Hp, elem_of_map_to_list.
      * right. split; [|done]. rewrite Hp. intros ([? m] & -> & Hin)%list_elem_of_fmap.
        apply elem_of_map_to_list in Hin. simpl in *. by rewrite Hm in Hin.
  - intros [comp m] l' [w2 t2] (images & Heq & Hnd & Hall). simpl in Heq. subst t2. simpl in Hnd.
    apply NoDup_cons in Hnd as [Hnin Hnd]. simpl.
    assert (desired_images t !! comp = Some m /\ images !! comp = Some m) as [Hm Hm'].
    { destruct (Hall comp) as [(m0 & Hin & H1 & H2)|[Hno _]]; [|by destruct Hno; left].
      apply elem_of_cons in Hin as [[= ->]|Hin]; [done|]. destruct Hnin. apply list_elem_of_fmap. by exists (comp, m0). }
    apply wp_delete_out_of_range; [by destruct t as [? ? []]|]. simpl. intros w3 m' Hk.
    rewrite with_images_twice. rewrite with_images_active in Hk.
    exists (<[comp := m']> images). split_and!; [by destruct t as [? ? []]|done|].
    intros c. destruct (decide (c = comp)) as [->|Hne].
    + right. split; [done|]. by rewrite Hm, lookup_insert_eq.
    + rewrite lookup_insert_ne by done. destruct (Hall c) as [(m0 & Hin & H1 & H2)|[Hno H1]].
      * left. exists m0. split_and!; [|done..]. by apply elem_of_cons in Hin as [[= -> ->]|].
      * right. split; [|done]. intros ?. apply Hno. by right.
  - intros [w2 t2] (images & Heq & _ & Hall). simpl in Heq. subst t2. apply HQ. intros comp.
    destruct (Hall comp) as [(m0 & []%not_elem_of_nil & _)|[_ H]]. done.
Qed.

(** The clean-up of the images that a component was wanted to have always succeeds, and
    removes only old ones: of each component the newest images are kept, as many as are
    allowed, and the active one always; it stops at the active one, so that more than are
    allowed are left only when the active one is among the oldest of them. *)
Theorem old_images_removed n t w :
  exists w' images, deleteDesiredMappingOutOfRange n (w, t) = (Ok tt, (w', with_images t images)) /\
                    images_pruned n t images.
Proof using GL.
  destruct (deleteDesiredMappingOutOfRange n (w, t)) as [r s'] eqn:Heq.
  refine (wp_run _ _ _ _ (fun r s' => exists w' images, (r, s') = (Ok tt, (w', with_images t images)) /\ images_pruned n t images) _ Heq).
  apply wp_deleteDesiredMappingOutOfRange. intros w' images H. by exists w', images.
Qed.
End images.

(** ** Desired components *)

Section desired.
Context {W O : Type} `{GR : GoRuntime W} {GL : GoRuntimeLaws W} `{GS : GoSort} `{CC : ConfigController W}.
Context `{KT : KClient W Team} `{KVT : KView W Team} `{KLT : !KClientLaws W Team}.
Context `{KD : KClient W DesiredComponent} `{KVD : KView W DesiredComponent} `{KLD : !KClientLaws W DesiredComponent}.
Context `{WQ : WorkQueue W} `{SP : SamsahaiPlugins W}.
Context (configs : SamsahaiConfig).

Notation teams w := (kview Team w).
Notation desireds w := (kview DesiredComponent w).
Definition teams_and_desireds (w : W) := (teams w, desireds w).
Notation view := teams_and_desireds.
Context {RF : RuntimeFrame W view} {FTD : KFrame W Team (kview DesiredComponent)}.
Context {FDT : KFrame W DesiredComponent (kview Team)}.
(** The checkers and the reporters do not write teams and desired components. *)
Context (checkers_frame : forall source checker repo name pattern, sp_checkers !! source = Some checker ->
  Preserves (ck_GetVersion checker repo name pattern) view).
Context (reporters_frame : Preserves sp_reporters view).
Context (reporter_frame : forall w l name reporter rpt, fst (sp_reporters w) = Ok l -> l !! name = Some reporter ->
  Preserves (rp_SendImageMissing reporter rpt) view).

(** The checker of the component gives the answer. *)
Definition answers (updateInfo : TeamDesiredUpdate) (version : string) (vErr : option error) : Prop :=
  exists checker w1 w2, sp_checkers !! udc_ComponentSource updateInfo = Some checker /\
    ck_GetVersion checker (ci_Repository (udc_ComponentImage updateInfo)) (udc_ComponentName updateInfo)
      (ci_Pattern (udc_ComponentImage updateInfo)) w1 = (Ok (version, vErr), w2).

(** The desired component is what the answer asks for. *)
Definition asked_for (updateInfo : TeamDesiredUpdate) (version : string) (d : DesiredComponent) : Prop :=
  dc_Version (desired_Spec d) = version /\
  dc_Repository (desired_Spec d) = ci_Repository (udc_ComponentImage updateInfo) /\
  dc_Bundle (desired_Spec d) = udc_ComponentBundle updateInfo.

(** The server was asked to create the desired component, and has refused. *)
Definition creation_refused (updateInfo : TeamDesiredUpdate) (version : string) (key : string * string) (w w' : W) : Prop :=
  desireds w !! key = None /\
  exists d e w1, kkey d = key /\ asked_for updateInfo version d /\ desireds w1 = desireds w /\ k_create d w1 = (Err e, w').

Lemma wp_set_desired info version teamName ns t w (Q : outcome unit -> W -> Prop) :
  let key := (ns, udc_ComponentName info) in
  (forall d, desireds w !! key = Some d -> ~ is_gone (desired_Meta d)) ->
  (forall d w', teams w' = teams w -> desireds w' = <[key := d]> (desireds w) -> kkey d = key ->
     asked_for info version d -> Q (Ok tt) w') ->
  (forall w', view w' = view w -> creation_refused info version key w w' -> Q (Ok tt) w') ->
  (forall e w', view w' = view w -> Q (Err e) w') ->
  wp (set_desired info version teamName ns t) w Q.
Proof using KLD FDT.
  intros key Hlive Hset Hrefused Herr. unfold set_desired. wp_step. wp_step.
  assert (forall w', teams w' = teams w -> desireds w' = desireds w -> view w' = view w) as Hview.
  { intros w' H1 H2. unfold teams_and_desireds. by rewrite H1, H2. }
  apply (wp_preserve (kview Team)); [apply _|]. apply wp_k_get.
  - intros d w1 Hd Hd1 Ht1. lazy beta iota. pose proof (k_view_keyed _ _ _ Hd) as Hk.
    destruct (IsSame _ _) eqn:Hs.
    + wp_step. apply IsSame_spec in Hs. simpl in Hs. apply (Hset d); [done| |done|by unfold asked_for; rewrite Hs].
      by rewrite insert_id.
    + match goal with |- wp (k_update ?x) _ _ => set (d' := x) end.
      apply (wp_preserve (kview Team)); [apply _|].
      apply wp_k_update; [|intros e w2 Hd2 Ht2; apply Herr, Hview; congruence].
      intros w2 _ Hd2 Ht2. unfold store_update in Hd2. rewrite decide_False in Hd2 by exact (Hlive _ Hd).
      change (kkey d') with (kkey d) in Hd2. rewrite Hk, Hd1 in Hd2.
      by apply (Hset d'); [congruence|..].
  - intros e w1 Hn Hd1 Ht1. lazy beta iota. destruct (IsNotFound e); [|wp_step; by apply Herr, Hview].
    specialize (Hn eq_refl). unfold ignore_error. wp_step. wp_step. apply (wp_preserve (kview Team)); [apply _|].
    apply wp_remember, wp_k_create.
    + intros w2 _ Hd2 _ Ht2. wp_step. rewrite Hd1 in Hd2. by apply (Hset (new_desired info version teamName ns t)); [congruence|..].
    + intros e2 w2 _ Hd2 Hrun Ht2. wp_step. apply Hrefused; [apply Hview; congruence|]. split; [done|].
      by exists (new_desired info version teamName ns t), e2, w1.
Qed.

(** Of the team only the images change. *)
Definition only_images (w w' : W) (team : Team) : Prop :=
  teams w' = teams w \/ exists images, teams w' = <[kkey team := with_images team images]> (teams w).

Lemma update_created_time_images compName image time ts w (Q : outcome TeamStatus -> W -> Prop) :
  (forall images w', view w' = view w ->
     Q (Ok (ts <| tst_DesiredComponentImageCreatedTime := images |>)) w') ->
  (forall p w', view w' = view w -> Q (Panic p) w') ->
  wp (UpdateDesiredComponentImageCreatedTime compName image time ts) w Q.
Proof using RF.
  intros Hok Hp. unfold UpdateDesiredComponentImageCreatedTime.
  assert (forall w', view w' = view w -> Q (Ok ts) w') as Hsame.
  { intros w' Hw'. specialize (Hok (tst_DesiredComponentImageCreatedTime ts) w' Hw'). by destruct ts. }
  destruct (_ !! compName) as [images|]; [|wp_step; by apply Hok].
  unfold SortByCreatedTimeDESC. wp_step. wp_step. apply (wp_preserve view); [apply _|]. apply wp_range_map.
  intros l w1 _ Hw1. lazy beta iota. wp_step. wp_step. wp_step.
  destruct (_ !! 0%nat) as [latest|]; [|by apply Hp]. lazy beta iota.
  destruct (_ && _); wp_step; [by apply Hsame|by apply Hok].
Qed.

Lemma wp_record_image info version missing t team w (Q : outcome unit -> W * Team -> Prop) :
  ~ is_gone (team_Meta team) ->
  (forall r w' team', desireds w' = desireds w -> only_images w w' team -> Q r (w', team')) ->
  wp (record_image info version missing t) (w, team) Q.
Proof using RF GL KLT FTD.
  intros Hlive HQ. unfold record_image. wp_step. wp_step. wp_step. wp_step. wp_fst.
  apply update_created_time_images.
  2: { intros p w1 Hw1. apply pair_equal_spec in Hw1 as [? ?]. apply HQ; [done|by left]. }
  intros images w1 Hw1. wp_step. wp_step. wp_fst. wp_step.
  apply (wp_preserve (of_world view)); [unfold deleteDesiredMappingOutOfRange, delete_out_of_range,
    convertDesiredMapToDesiredTimeList; preserves|].
  change (team <| team_Status := _ |>) with (with_images team images).
  apply wp_deleteDesiredMappingOutOfRange. intros w2 images2 _ Hw2. unfold of_world in Hw2. simpl in Hw2.
  rewrite Hw1 in Hw2. apply pair_equal_spec in Hw2 as [Ht2 Hd2]. rewrite with_images_twice.
  unfold updateTeam. wp_step. wp_step. apply wp_wrapping. wp_step. wp_fst.
  apply (wp_preserve (kview DesiredComponent)); [apply _|]. apply wp_k_update.
  - intros w3 _ Ht3 Hd3. apply HQ; [congruence|]. right. exists images2. rewrite Ht3. unfold store_update.
    rewrite decide_False by exact Hlive. by rewrite Ht2.
  - intros e w3 Ht3 Hd3. apply HQ; [congruence|]. left. congruence.
Qed.

#[local] Instance missing_report_frame team comp repo version reason :
  Preserves (sendImageMissingReport configs team comp repo version reason) view.
Proof using RF GL reporters_frame reporter_frame.
  intros w. unfold sendImageMissingReport. pose proof (reporters_frame w) as H0.
  unfold mbind at 1, M_bind. destruct (sp_reporters w) as [[l|e|p] w1] eqn:Hl; [|done..]. simpl in H0. rewrite <- H0.
  unfold mbind, M_bind, range_map. pose proof (rt_range_perm _ l w1) as Hp.
  pose proof (range_frame (v:=view) _ l w1) as Hf. destruct (rt_range l w1) as [rs w2]. simpl in Hp, Hf. rewrite <- Hf.
  assert (forall x, x ∈ rs -> l !! fst x = Some (snd x)) as Hin.
  { intros [k x]. rewrite Hp. apply elem_of_map_to_list. }
  clear Hp Hf. revert w2 Hin. induction rs as [|x rs IH]; intros w2 Hin; [done|]. cbn [for_each].
  unfold mbind, M_bind at 1. pose proof (ignore_preserves view (rp_SendImageMissing (snd x)
    (NewImageMissingReporter (mkImage repo version) configs team comp reason))) as Hi.
  specialize (Hi (reporter_frame w l (fst x) (snd x) _ ltac:(by rewrite Hl) (Hin x ltac:(by left))) w2).
  destruct (ignore_error _ w2) as [[a|e|p] w3]; [|done..]. simpl in Hi. rewrite <- Hi. apply IH.
  intros y Hy. apply Hin. by right.
Qed.

(** Where the desired component of the team is. *)
Definition desired_key (team : Team) (info : TeamDesiredUpdate) : string * string :=
  (tn_Staging (tst_Namespace (team_Status team)), udc_ComponentName info).
Definition follows (info : TeamDesiredUpdate) (w : W) (r : outcome unit) (w' : W) : Prop :=
  view w' = view w /\ r <> Ok tt \/
  exists team version vErr, teams w !! ("", udc_TeamName info) = Some team /\ answers info version vErr /\
    only_images w w' team /\
    (desireds w' = desireds w \/
     vErr = None /\ exists d, desireds w' = <[desired_key team info := d]> (desireds w) /\
       kkey d = desired_key team info /\ asked_for info version d) /\
    (r = Ok tt -> vErr = None ->
     (exists d, desireds w' !! desired_key team info = Some d /\ asked_for info version d) \/
     exists w1, desireds w1 = desireds w /\ creation_refused info version (desired_key team info) w1 w').

(** C17: The desired component of a team follows the answer of the checker, and nothing else:
    it only changes to the version that the checker of the component has answered, together
    with the repository and the bundle of the configuration, and a version that is missing
    changes nothing but the images in the status of the team; when the work succeeds with an
    answer without an error, the stored component is the one that was asked for, unless there
    was none, the server was asked to create it, and that very call has failed.  No other component, and no other team, is touched. *)
Theorem desired_follows_checker info w r w' :
  (forall key team, teams w !! key = Some team -> ~ is_gone (team_Meta team)) ->
  (forall key d, desireds w !! key = Some d -> ~ is_gone (desired_Meta d)) ->
  updateTeamDesiredComponent configs info w = (r, w') -> follows info w r w'.
Proof using RF GL KLT KLD FTD FDT checkers_frame reporters_frame reporter_frame.
  intros Hlt Hld Heq. refine (wp_run _ _ _ _ (follows info w) _ Heq). clear Heq r w'.
  unfold updateTeamDesiredComponent, getComponentChecker, or_throw. wp_step.
  destruct (sp_checkers !! _) as [checker|] eqn:Hc; [|wp_step; by left]. wp_step.
  unfold fetchTeam. wp_step. apply (wp_preserve (kview DesiredComponent)); [apply _|].
  apply wp_k_get; [|intros e w1 _ Ht1 Hd1; left; split; [unfold teams_and_desireds; congruence|done]].
  intros team w1 Ht Ht1 Hd1. cbv zeta. pose proof (k_view_keyed _ _ _ Ht) as Hk.
  wp_step. apply (wp_preserve view); [by eapply checkers_frame|]. apply run_wp. intros [[version vErr]|e|p] w2 Hans Hw2.
  2-3: left; split; [rewrite Hw2; unfold teams_and_desireds; by rewrite Ht1, Hd1|done].
  assert (answers info version vErr) as Ha by by exists checker, w1, w2.
  assert (teams w2 = teams w /\ desireds w2 = desireds w) as [Ht2 Hd2].
  { apply pair_equal_spec in Hw2 as [? ?]. split; congruence. }
  clear w1 Ht1 Hd1 Hans Hw2. lazy beta iota.
  assert (forall (r : outcome unit) w3, only_images w w3 team -> desireds w3 = desireds w ->
            (r = Ok tt -> vErr <> None) -> follows info w r w3) as Hstop.
  { intros r w3 Ho Hd Hr. right. exists team, version, vErr. split_and!; [done..|by left|]. intros H1 H2. by destruct (Hr H1). }
  assert (forall r w3, view w3 = view w2 -> (r = Ok tt -> vErr <> None) -> follows info w r w3) as Hend.
  { intros r w3 Hw3 Hr. apply pair_equal_spec in Hw3 as [Ht3 Hd3]. apply Hstop; [left; congruence|congruence|exact Hr]. }
  destruct vErr as [e|].
  - destruct (IsImageNotFound e || IsErrRequestTimeout e).
    + wp_step. apply wp_frame with (v := view); [apply _|]. intros [t|e1|p] w3 _ Hw3; [|by apply Hend..].
      apply pair_equal_spec in Hw3 as [Ht3 Hd3]. wp_step. apply wp_with_obj. apply wp_record_image; [by eapply Hlt|].
      intros r w4 team' Hd4 Ho. assert (only_images w w4 team) as Ho'.
      { destruct Ho as [?|[images ?]]; [left; congruence|right; exists images; rewrite <- Ht2, <- Ht3; assumption]. }
      destruct r as [[]|e1|p]; wp_fst; [|apply Hstop; [done|congruence|done]..].
      apply wp_frame with (v := view); [apply _|]. intros r w5 _ Hw5. apply pair_equal_spec in Hw5 as [Ht5 Hd5].
      apply Hstop; [unfold only_images in *; by rewrite Ht5|congruence|done].
    + destruct (IsInternalCheckerError e); [|wp_step; by apply Hend].
      apply wp_frame with (v := view); [apply _|]. intros r w3 _ Hw3. by apply Hend.
  - wp_step. apply wp_frame with (v := view); [apply _|]. intros [t|e1|p] w3 _ Hw3; [|by apply Hend..].
    apply pair_equal_spec in Hw3 as [Ht3 Hd3]. wp_step. apply wp_with_obj. apply wp_record_image; [by eapply Hlt|].
    intros r w4 team' Hd4 Ho. assert (only_images w w4 team) as Ho'.
    { destruct Ho as [?|[images ?]]; [left; congruence|right; exists images; rewrite <- Ht2, <- Ht3; assumption]. }
    destruct r as [[]|e1|p]; wp_fst; [|apply Hstop; [done|congruence|done]..].
    assert (desireds w4 = desireds w) as Hd by congruence.
    apply wp_set_desired; [intros d; rewrite Hd; apply Hld|..].
    + intros d w5 Ht5 Hd5 Hkd Has. right. exists team, version, None. rewrite Hd in Hd5. split_and!; [done..| | |].
      * unfold only_images in *. by rewrite Ht5.
      * right. split; [done|]. by exists d.
      * intros _ _. left. exists d. by rewrite Hd5, lookup_insert_eq.
    + intros w5 Hw5 Href. apply pair_equal_spec in Hw5 as [Ht5 Hd5]. right. exists team, version, None.
      split_and!; [done..| |left; congruence|].
      * unfold only_images in *. by rewrite Ht5.
      * intros _ _. right. by exists w4.
    + intros e w5 Hw5. apply pair_equal_spec in Hw5 as [Ht5 Hd5].
      apply Hstop; [unfold only_images in *; by rewrite Ht5|congruence|done].
Qed.
End desired.

(** ** Notifications *)

(** The work that waits; what is added waits afterwards, once. *)
Class WorkQueueView (W : Type) := wq_waits : W -> work -> Prop.
Class WorkQueueLaws (W : Type) `{WorkQueue W, WorkQueueView W} :=
  wq_add_law x w y : wq_waits (wq_Add x w) y <-> y = x \/ wq_waits w y.

Section notified.
Context {W : Type} `{GR : GoRuntime W} {GL : GoRuntimeLaws W} `{CC : ConfigController W}.
Context `{KT : KClient W Team} `{KVT : KView W Team} `{KLT : !KClientLaws W Team}.
Context `{WQ : WorkQueue W} {WV : WorkQueueView W} {WL : WorkQueueLaws W} `{SP : SamsahaiPlugins W}.
Context {RF : RuntimeFrame W wq_waits} {FT : KFrame W Team (wq_waits (W:=W))}.
(** What the configuration of the team says, and that reading it adds no work. *)
Context (teamName : string) (comps : gmap string Component) (bundles : ConfigBundles).
Context (config_comps : forall w, exists w1, cfg_GetComponents teamName w = (Ok comps, w1) /\ wq_waits w1 = wq_waits w).
Context (config_bundles : forall w, exists w1, cfg_GetBundles teamName w = (Ok bundles, w1) /\ wq_waits w1 = wq_waits w).

(** The bundle that a component is in, if any. *)
Definition in_bundle (compName bundle : string) : Prop :=
  (exists l, bundles !! bundle = Some l /\ compName ∈ l) \/
  bundle = "" /\ forall b l, bundles !! b = Some l -> compName ∉ l.

Lemma wp_getBundleName compName w (Q : outcome string -> W -> Prop) :
  (forall b w', wq_waits w' = wq_waits w -> in_bundle compName b -> Q (Ok b) w') ->
  wp (getBundleName compName teamName) w Q.
Proof using GL RF config_bundles.
  intros HQ. unfold getBundleName. wp_step. wp_step. destruct (config_bundles w) as (w1 & Hb & Hw1).
  apply run_wp. intros r w1' Heq. rewrite Hb in Heq. injection Heq as <- <-. wp_step.
  apply (wp_preserve wq_waits); [apply _|]. apply wp_range_map. intros l w2 Hr Hw2. wp_step. apply HQ; [congruence|].
  pose proof (rt_range_perm _ bundles w1) as Hp. rewrite Hr in Hp. simpl in Hp.
  destruct (List.find _ l) as [[b cs]|] eqn:Hf.
  - apply find_some in Hf as [Hin Hex]. apply list_elem_of_In in Hin. rewrite Hp in Hin. apply elem_of_map_to_list in Hin.
    apply existsb_exists in Hex as (x & Hx & ->%String.eqb_eq). left. exists cs. by rewrite list_elem_of_In.
  - right. split; [done|]. intros b cs Hb' Hin. apply elem_of_map_to_list in Hb'. rewrite <- Hp in Hb'.
    apply list_elem_of_In in Hb'. pose proof (find_none _ _ Hf _ Hb') as Hno. simpl in Hno.
    apply not_true_iff_false in Hno. apply Hno, existsb_exists. exists compName.
    rewrite String.eqb_refl. by rewrite <- list_elem_of_In.
Qed.

(** The work that a change of the component stands for, taken from [l]. *)
Definition work_for (compName repository : string) (l : list (string * Component)) (y : work) : Prop :=
  exists name comp source bundle, (name, comp) ∈ l /\ notified compName repository comp = Some source /\
    in_bundle compName bundle /\
    y = updateTeamDesired (mkTeamDesiredUpdate teamName compName source (cp_Image comp) bundle).

Lemma notified_name compName repository comp source :
  notified compName repository comp = Some source -> cp_Name comp = compName.
Proof. unfold notified. by destruct (String.eqb_spec compName (cp_Name comp)). Qed.

(** A change of a component of a team is turned into one piece of work for each component
    of the configuration that has the name, a checker, and the repository if one is given;
    the work names the checker, the image and a bundle of the component; no other work is
    added, and none at all when the team cannot be read. *)
Theorem change_is_looked_up compName repository w r w' :
  checkTeamComponentChanged compName repository teamName w = (r, w') ->
  (forall e, r = Err e -> wq_waits w' = wq_waits w) /\ (forall p, r <> Panic p) /\
  (r = Ok tt ->
   (forall y, wq_waits w y -> wq_waits w' y) /\
   (forall y, wq_waits w' y -> wq_waits w y \/ work_for compName repository (map_to_list comps) y) /\
   (forall name comp source, comps !! name = Some comp -> notified compName repository comp = Some source ->
      exists bundle, in_bundle compName bundle /\
        wq_waits w' (updateTeamDesired (mkTeamDesiredUpdate teamName compName source (cp_Image comp) bundle)))).
Proof using GL RF FT WL KLT config_comps config_bundles.
  intros Heq. refine (wp_run _ _ _ _ (fun r w' => _ /\ _ /\ (r = Ok tt -> _)) _ Heq). clear Heq r w'.
  unfold checkTeamComponentChanged, fetchTeam. wp_step. apply (wp_preserve wq_waits); [apply _|].
  apply wp_k_get; [|intros e w1 _ _ Hw1; split_and!; [by intros|done|done]].
  intros team w1 _ _ Hw1. wp_step. wp_step. destruct (config_comps w1) as (w2 & Hc & Hw2).
  apply run_wp. intros r w2' Heq. rewrite Hc in Heq. injection Heq as <- <-. wp_step.
  apply (wp_preserve wq_waits); [apply _|]. apply wp_range_map. intros l w3 Hr Hw3.
  pose proof (rt_range_perm _ comps w2) as Hp. rewrite Hr in Hp. simpl in Hp.
  assert (wq_waits w3 = wq_waits w) as Hw by congruence. clear Hw1 Hw2 Hw3 Hc Hr w1 w2 team.
  apply wp_for_each with (I := fun rest s => exists seen, l = seen ++ rest /\
    (forall y, wq_waits w y -> wq_waits s y) /\
    (forall y, wq_waits s y -> wq_waits w y \/ work_for compName repository seen y) /\
    (forall e source, e ∈ seen -> notified compName repository (snd e) = Some source ->
       exists bundle, in_bundle compName bundle /\
         wq_waits s (updateTeamDesired (mkTeamDesiredUpdate teamName compName source (cp_Image (snd e)) bundle)))).
  - exists []. rewrite Hw. split_and!; [done..|by left|]. by intros e source []%not_elem_of_nil.
  - intros [name comp] rest s (seen & Hl & H1 & H2 & H3). simpl.
    assert (forall y, work_for compName repository seen y -> work_for compName repository (seen ++ [(name, comp)]) y) as Hmore.
    { intros y (n & c & so & b & Hin & Hrest). exists n, c, so, b. split; [|done]. apply elem_of_app. by left. }
    destruct (notified compName repository comp) as [source|] eqn:Hn.
    + wp_step. rewrite (notified_name _ _ _ _ Hn). apply wp_getBundleName. intros b s1 Hs1 Hb.
      apply run_wp. intros r s2 Heq. unfold wq_do in Heq. injection Heq as <- <-.
      exists (seen ++ [(name, comp)]). rewrite <- app_assoc. split_and!; [done|..]; setoid_rewrite wq_add_law; rewrite Hs1.
      * intros y Hy. right. by apply H1.
      * intros y [->|Hy]; [right|by destruct (H2 y Hy); [left|right; apply Hmore]].
        exists name, comp, source, b. split_and!; [|done..]. apply elem_of_app. right. by left.
      * intros e so [He|[->|[]%not_elem_of_nil]%elem_of_cons]%elem_of_app Hso.
        -- destruct (H3 e so He Hso) as (b' & Hb' & Hy). exists b'. split; [done|by right].
        -- simpl in *. rewrite Hn in Hso. injection Hso as <-. exists b. split; [done|by left].
    + wp_step. exists (seen ++ [(name, comp)]). rewrite <- app_assoc. split_and!; [done..| |].
      * intros y Hy. by destruct (H2 y Hy); [left|right; apply Hmore].
      * intros e so [He|[->|[]%not_elem_of_nil]%elem_of_cons]%elem_of_app Hso; [by apply H3|]. simpl in Hso. by rewrite Hn in Hso.
  - intros s (seen & Hl & H1 & H2 & H3). rewrite app_nil_r in Hl. subst seen. split_and!; [done..|]. intros _. split_and!; [done| |].
    + intros y Hy. destruct (H2 y Hy) as [|(n & c & so & b & Hin & Hrest)]; [by left|right].
      exists n, c, so, b. by rewrite <- Hp.
    + intros name comp source Hin Hso. apply (H3 (name, comp)); [|done]. rewrite Hp. by apply elem_of_map_to_list.
Qed.
End notified.

(** ** A concrete cluster *)

Record S2hSim := mkS2hSim {
  hs_clock : Z;
  hs_teams : gmap (string * string) Team;
  hs_stables : gmap (string * string) StableComponent;
  hs_desired : gmap (string * string) DesiredComponent;
  hs_waiting : list work;
}.
#[export] Instance eta_S2hSim : Eta S2hSim := fun x =>
  mkS2hSim (hs_clock x) (hs_teams x) (hs_stables x) (hs_desired x) (hs_waiting x).
#[export] Instance hsim_clock : HasClock S2hSim :=
  {| clock_get := hs_clock; clock_set t w := w <| hs_clock := t |> |}.
#[export] Instance hsim_teams : HasStore S2hSim Team :=
  {| store_get := hs_teams; store_set m w := w <| hs_teams := m |>; store_get_set _ _ := eq_refl |}.
#[export] Instance hsim_stables : HasStore S2hSim StableComponent :=
  {| store_get := hs_stables; store_set m w := w <| hs_stables := m |>; store_get_set _ _ := eq_refl |}.
#[export] Instance hsim_desired : HasStore S2hSim DesiredComponent :=
  {| store_get := hs_desired; store_set m w := w <| hs_desired := m |>; store_get_set _ _ := eq_refl |}.
(** A queue that keeps the order and never delays. *)
#[export] Instance hsim_queue : WorkQueue S2hSim := {|
  wq_Get w := match hs_waiting w with
              | [] => ((None, false), w)
              | x :: l => ((Some x, false), w <| hs_waiting := l |>)
              end;
  wq_Add x w := w <| hs_waiting ::= fun l => l ++ [x] |>;
  wq_AddAfter x _ w := w <| hs_waiting ::= fun l => l ++ [x] |>;
  wq_AddRateLimited x w := w <| hs_waiting ::= fun l => l ++ [x] |>;
  wq_Forget _ w := w;
  wq_Done _ w := w;
|}.
#[export] Instance hsim_waits : WorkQueueView S2hSim := fun w x => x ∈ hs_waiting w.
#[local] Instance hsim_queue_laws : WorkQueueLaws S2hSim.
Proof. intros x w y. unfold wq_waits, hsim_waits. simpl. rewrite elem_of_app, list_elem_of_singleton. tauto. Qed.

(** One component, and a registry that has a version of it or says what is wrong. *)
Definition hs_component : Component :=
  mkComponent "" "redis" (mkComponentChart "" "redis" "") (mkComponentImage "repo/redis" "" "5.*") []
    (Some "public-registry") [] [].
Definition hs_comps : gmap string Component := {[ "redis" := hs_component ]}.
Definition hs_bundles : ConfigBundles := {[ "stores" := ["redis"] ]}.
Definition hs_registry (answer : string * option error) : Checker S2hSim :=
  mkChecker _ (fun _ _ _ => mret answer)
    (fun _ _ version => if String.eqb version "gone" then throw ErrImageVersionNotFound else mret tt).
Definition hs_plugins (answer : string * option error) : SamsahaiPlugins S2hSim :=
  {| sp_checkers := {[ "public-registry" := hs_registry answer ]}; sp_reporters := mret ∅ |}.
#[export] Instance hs_config : ConfigController S2hSim := {|
  cfg_Get _ := throw NotFoundError;
  cfg_GetComponents _ := mret hs_comps;
  cfg_GetParentComponents _ := mret hs_comps;
  cfg_GetPullRequestComponents _ _ _ := mret ∅;
  cfg_GetBundles _ := mret hs_bundles;
  cfg_GetPriorityQueues _ := mret [];
  cfg_GetStagingConfig _ := mret None;
  cfg_GetPullRequestConfig _ := mret None;
  cfg_GetPullRequestBundleDependencies _ _ := mret [];
  cfg_Update _ := mret tt;
  cfg_Delete _ := mret tt;
  cfg_EnsureConfigTemplateChanged := mret tt;
|}.
Definition hs_team : Team :=
  zeroTeam <| team_Meta := namedMeta "" "teamtest" |>
    <| team_Status ::= fun s => s <| tst_Namespace ::= fun n => n <| tn_Staging := "s2h-teamtest" |> |> |>.
Definition hs_world : S2hSim := mkS2hSim 0 {[ ("", "teamtest") := hs_team ]} ∅ ∅ [].
Definition hs_update : TeamDesiredUpdate :=
  mkTeamDesiredUpdate "teamtest" "redis" "public-registry" (cp_Image hs_component) "stores".

#[local] Instance hsim_sort : GoSort := insertion_GoSort.
#[local] Instance hsim_runtime_frame : RuntimeFrame S2hSim (teams_and_desireds (W:=S2hSim)).
Proof. by apply sim_runtime_frame. Qed.
#[local] Instance hsim_waits_frame : RuntimeFrame S2hSim (wq_waits (W:=S2hSim)).
Proof. by apply sim_runtime_frame. Qed.
#[local] Instance hsim_team_frame : KFrame S2hSim Team (kview (W:=S2hSim) DesiredComponent).
Proof. by apply mem_frame. Qed.
#[local] Instance hsim_desired_frame : KFrame S2hSim DesiredComponent (kview (W:=S2hSim) Team).
Proof. by apply mem_frame. Qed.
#[local] Instance hsim_team_waits : KFrame S2hSim Team (wq_waits (W:=S2hSim)).
Proof. by apply mem_frame. Qed.

(** The change of the component becomes the work that asks its checker. *)
Lemma change_is_looked_up_witness :
  let res := checkTeamComponentChanged (SP := hs_plugins ("5.0", None)) "redis" "" "teamtest" hs_world in
  fst res = Ok tt /\
  exists bundle, wq_waits (snd res) (updateTeamDesired
    (mkTeamDesiredUpdate "teamtest" "redis" "public-registry" (cp_Image hs_component) bundle)).
Proof.
  intros res. assert (fst res = Ok tt) as Hok by by vm_compute. split; [exact Hok|].
  assert (forall w : S2hSim, exists w1, cfg_GetComponents "teamtest" w = (Ok hs_comps, w1) /\ wq_waits w1 = wq_waits w) as Hc.
  { intros w. exists w. split; reflexivity. }
  assert (forall w : S2hSim, exists w1, cfg_GetBundles "teamtest" w = (Ok hs_bundles, w1) /\ wq_waits w1 = wq_waits w) as Hb.
  { intros w. exists w. split; reflexivity. }
  pose proof (change_is_looked_up (SP := hs_plugins ("5.0", None)) "teamtest" hs_comps hs_bundles Hc Hb
    "redis" "" hs_world (fst res) (snd res) (surjective_pairing res)) as (_ & _ & H).
  destruct (H Hok) as (_ & _ & Hall). destruct (Hall "redis" hs_component "public-registry") as (bundle & _ & Hw).
  - reflexivity.
  - reflexivity.
  - exists bundle. exact Hw.
Defined.


Definition hs_samsahai : SamsahaiConfig :=
  mkSamsahaiConfig "" "" "" "" "" "" "" "cluster.local" (mkActivePromotionConfig 1 0 0 0 0 None 1 false)
    (mkPullRequestConfig 3 2 5 (5 * Minute) 7) None ∅ ∅ ∅ ""
    (mkSamsahaiCredential "token" "" "" (mkMSTeamsCredential "" "" "" "" "") "" "" "").

Lemma hs_checker answer source checker :
  sp_checkers (SamsahaiPlugins := hs_plugins answer) !! source = Some checker -> checker = hs_registry answer.
Proof.
  change (({[ "public-registry" := hs_registry answer ]} : gmap string (Checker S2hSim)) !! source = Some checker ->
    checker = hs_registry answer).
  by intros [_ <-]%lookup_singleton_Some.
Qed.
Lemma hs_only_team key team : kview Team hs_world !! key = Some team -> team = hs_team.
Proof.
  intros [H _]%well_filed_lookup.
  change (({[ ("", "teamtest") := hs_team ]} : gmap (string * string) Team) !! key = Some team) in H.
  by apply lookup_singleton_Some in H as [_ <-].
Qed.

(** The answer of the registry becomes the desired component of the team. *)
Lemma desired_follows_checker_witness :
  let res := updateTeamDesiredComponent (SP := hs_plugins ("5.0", None)) hs_samsahai hs_update hs_world in
  exists d, kview DesiredComponent (snd res) !! ("s2h-teamtest", "redis") = Some d /\ asked_for hs_update "5.0" d.
Proof.
  intros res. assert (fst res = Ok tt) as Hok by by vm_compute.
  assert ((fun d => dc_Version (desired_Spec d)) <$> kview DesiredComponent (snd res) !! ("s2h-teamtest", "redis")
    = Some "5.0") as Hset by by vm_compute.
  destruct (desired_follows_checker (SP := hs_plugins ("5.0", None)) hs_samsahai) with (info := hs_update)
    (w := hs_world) (r := fst res) (w' := snd res)
    as [[_ Hno]|(team & version & vErr & Ht & (checker & w1 & w2 & Hc & Hans) & _ & _ & Hend)].
  - intros source checker repo name pattern Hc. rewrite (hs_checker _ _ _ Hc). intros w. reflexivity.
  - intros w. reflexivity.
  - intros w l name reporter rpt Hl Hr. injection Hl as <-. rewrite lookup_empty in Hr. discriminate Hr.
  - intros key team Ht [Hd _]. rewrite (hs_only_team _ _ Ht) in Hd. exact (Hd eq_refl).
  - intros key d Hd. apply well_filed_lookup in Hd as [Hd _]. discriminate Hd.
  - exact (surjective_pairing _).
  - destruct (Hno Hok).
  - rewrite (hs_checker _ _ _ Hc) in Hans. injection Hans as <- <- <-. rewrite (hs_only_team _ _ Ht) in Hend.
    destruct (Hend Hok eq_refl) as [H|(w1' & _ & Hnone & d & e & w2' & _ & _ & Hd & Hcreate)]; [exact H|].
    change (desired_key hs_team hs_update) with ("s2h-teamtest", "redis") in Hnone.
    pose proof (k_create_law d w2') as Hlaw. rewrite Hcreate in Hlaw. destruct Hlaw as [_ Hsame].
    rewrite Hsame, Hd, Hnone in Hset. discriminate Hset.
Defined.

(** Of three images of a component two are kept. *)
Definition hs_image (time : Z) : DesiredImageTime := mkDesiredImageTime None time false.
Definition hs_images : image_map := {[ "redis:1" := hs_image 1; "redis:3" := hs_image 3; "redis:2" := hs_image 2 ]}.
Definition hs_crowded : Team := with_images hs_team {[ "redis" := hs_images ]}.
(** The times of the images that are left. *)
Definition hs_left (images : gmap string image_map) : list (option Z) :=
  map (fun image => dit_CreatedTime <$> (default ∅ (images !! "redis") : image_map) !! image) ["redis:1"; "redis:2"; "redis:3"].
Lemma old_images_removed_witness :
  exists (w' : S2hSim) images,
    deleteDesiredMappingOutOfRange 2 (hs_world, hs_crowded) = (Ok tt, (w', with_images hs_crowded images)) /\
    hs_left images = [None; Some 2; Some 3].
Proof.
  destruct (old_images_removed 2 hs_crowded hs_world) as (w' & images & Heq & _).
  exists w', images. split; [exact Heq|].
  assert (hs_left (desired_images (snd (snd (deleteDesiredMappingOutOfRange 2 (hs_world, hs_crowded)))))
    = [None; Some 2; Some 3]) as H by (vm_compute; reflexivity).
  rewrite Heq in H. exact H.
Defined.
