(* ===== verification/S2hRpc.v ===== *)
(** Model of [internal/samsahai/rpc.go]: the calls that the staging controllers make on
    Samsahai, behind the interface [SamsahaiRPC].

    A call carries the token of its header, if any; the transport of the messages is left
    out.  The client of the cluster, the checkers, the reporters, the template library and
    the text of a duration are classes.  The reports are in [Reporters]; metrics are left
    out.

    [GetMissingVersions] asks the checkers in goroutines, one for each component, in two
    groups.  The model lets them do their work in an order that the runtime chooses, the
    answers of a group arrive in any order, and so do the two groups; the time-out of
    five minutes may come before either of them.  Requests of different goroutines that
    overlap are not modelled, nor are those that go on after the time-out. *)

From S2P Require Import Prelude.
From S2P Require Import GoRuntime.
From S2P Require Import Errors.
From S2P Require Import KubeApi.
From S2P Require Import ConfigTypes.
From S2P Require Import ComponentTypes.
From S2P Require Import QueueTypes.
From S2P Require Import TeamTypes.
From S2P Require Import AtpTypes.
From S2P Require Import QueueCtrl.
From S2P Require Import Interfaces.
From S2P Require Import SamsahaiCtrl.
From S2P Require Import PrqTypes.
From S2P Require Import PrtTypes.
From S2P Require Import StgTypes.
From S2P Require Import RpcTypes.
From S2P Require Import Reporters.
From S2P Require Import S2hProcess.
Open Scope string_scope.
Open Scope list_scope.
Open Scope Z_scope.

(** [Duration.String], and [template.TextRender] for the number of a pull request. *)
Class RpcOutside (W : Type) := {
  ro_duration_string : Duration -> string;
  ro_TextRender : string -> string -> string -> M W string;
}.

(** [strings.ReplaceAll] on ASCII texts: an empty text is found around every character. *)
Fixpoint replace_from (old new : string) (skip : nat) (s : string) : string :=
  match s with
  | EmptyString => EmptyString
  | String ch s' =>
      match skip with
      | S skip => replace_from old new skip s'
      | O => if String.prefix old s then new +:+ replace_from old new (String.length old - 1) s'
             else String ch (replace_from old new 0 s')
      end
  end.
Fixpoint replace_around (new s : string) : string :=
  match s with
  | EmptyString => new
  | String ch s' => new +:+ String ch (replace_around new s')
  end.
Definition ReplaceAll (s old new : string) : string :=
  if String.eqb old "" then replace_around new s else replace_from old new 0 s.

Definition replaceServiceFromReleaseName (svcName prNamespace activeNamespace : string) : string :=
  ReplaceAll svcName activeNamespace prNamespace.

(** The services of the active namespace that the other does not have, by their names. *)
Definition getDifferentServices (prSvcList activeSvcList : list (KubeObj ServiceKind)) : list (KubeObj ServiceKind) :=
  filter (fun activeSvc => Forall (fun prSvc => kname prSvc <> kname activeSvc) prSvcList) activeSvcList.

(** ** The configuration of pull requests *)

Definition bundle_named (name : string) (bundles : list PullRequestBundle) : option PullRequestBundle :=
  List.find (fun bundle => String.eqb (prb_Name bundle) name) bundles.
(** A setting of the team that is zero is that of Samsahai. *)
Definition nonzero_or (setting fallback : Z) : Z := if setting =? 0 then fallback else setting.

Definition tear_down_message (tearDownDuration : option PullRequestTearDownDuration) : error + RpcTearDownDuration :=
  match tearDownDuration with
  | None => inr (mkRpcTearDownDuration 0 Criteria_UNKNOWN)
  | Some d =>
      match FromCrdCriteria (td_Criteria d) with
      | inl err => inl err
      | inr criteria => inr (mkRpcTearDownDuration (td_Duration d) criteria)
      end
  end.

(** The resources of the last bundle of the name that has some, or those of the team. *)
Definition bundle_resources (bundleName : string) (prConfig : ConfigPullRequest) : option ResourceList :=
  foldl (fun resources bundle =>
      if String.eqb (prb_Name bundle) bundleName
      then match pec_Resources (prb_Extra bundle) with Some r => Some r | None => resources end
      else resources)
    (pec_Resources (cpr_Extra prConfig)) (cpr_Bundles prConfig).

(** ** Sources of components *)

Definition component_source (teamWithPR : TeamWithPullRequest) (prComp : Component) (pattern : string)
    : RpcComponentSource :=
  let image := cp_Image prComp in
  mkRpcComponentSource (cp_Name prComp) (default "" (cp_Source prComp)) pattern
    (Some (mkRpcImage (ci_Repository image) (if String.eqb (ci_Tag image) "" then pattern else ci_Tag image))).

(** What is empty comes from the component of the configuration. *)
Definition fill_source (compName : string) (comp : Component) (compSource : RpcComponentSource) : RpcComponentSource :=
  if String.eqb compName (csr_ComponentName compSource) then
    let or_else (s t : string) := if String.eqb s "" then t else s in
    let image := default (mkRpcImage "" "") (csr_Image compSource) in
    mkRpcComponentSource (csr_ComponentName compSource)
      (or_else (csr_Source compSource) (default "" (cp_Source comp)))
      (or_else (csr_Pattern compSource) (ci_Pattern (cp_Image comp)))
      (Some (mkRpcImage (or_else (ri_Repository image) (ci_Repository (cp_Image comp)))
                        (or_else (ri_Tag image) (ci_Tag (cp_Image comp)))))
  else compSource.

(** ** Dependencies *)

Definition dependency_of (activeComps : gmap string StableComponent) (dep : string) : RpcComponent :=
  mkRpcComponent dep (Some (
    match activeComps !! dep with
    | Some activeComp => mkRpcImage (sc_Repository (stable_Spec activeComp)) (sc_Version (stable_Spec activeComp))
    | None => mkRpcImage "" ""
    end)).

(** What a goroutine of [getMissingVersions] is about. *)
Inductive detection := OfStable (stable : StableComponent) | OfCurrent (qComp : RpcComponent).
Definition is_stable (d : detection) : bool := match d with OfStable _ => true | OfCurrent _ => false end.

Section handlers.
Context {W O : Type} `{GR : GoRuntime W} `{GS : GoSort} `{GSch : GoSchedule W} `{CC : ConfigController W}.
Context `{KTeam : KClient W Team} `{KStable : KClient W StableComponent} `{KAtp : KClient W ActivePromotion}.
Context `{KSecret : KClient W Secret} {KObjs : forall k, KClient W (KubeObj k)}.
Context `{KQueue : KClient W Queue} `{KHist : KClient W QueueHistory}.
Context `{KPrq : KClient W PullRequestQueue} `{KPqh : KClient W PullRequestQueueHistory}.
Context `{KPrt : KClient W PullRequestTrigger}.
Context `{SO : StagingObjects W O} `{OUT : SamsahaiOutside W} `{SP : SamsahaiPlugins W} `{RO : RpcOutside W}.
(** The configuration and the namespace of Samsahai, and the token of the call. *)
Context (configs : SamsahaiConfig) (s2h_namespace : string) (authToken : option string).

Definition authenticateRPC : M W unit :=
  match authToken with
  | None => throw ErrAuthTokenNotFound
  | Some token =>
      if String.eqb token (scr_InternalAuthToken (s2h_SamsahaiCredential configs)) then mret tt
      else throw ErrUnauthorized
  end.

Definition GetTeamActiveNamespace (teamName : string) : M W TeamWithNamespace :=
  run authenticateRPC;
  do teamComp <- wrapping "cannot get of team " (fetchTeam teamName);
  mret (mkTeamWithNamespace teamName (tn_Active (tst_Namespace (team_Status teamComp)))).

(** ** Missing images *)

(** The image when the registry does not have it. *)
Definition detectMissingImage (source : UpdatingSource) (repo name version : string) : M W (option RpcImage) :=
  do checker <- wrapping ("cannot get component checker, source: " +:+ source) (or_throw (getComponentChecker source));
  if String.eqb repo "" then mret None else
  do r <- attempt (ck_EnsureVersion checker repo name version);
  match r with
  | inl err =>
      if negb (IsImageNotFound err) && negb (IsErrRequestTimeout err)
      then throw (Wrap err ("cannot ensure version, name: " +:+ name +:+ ", source: " +:+ source +:+
                            ", repository: " +:+ repo +:+ ", version: " +:+ version))
      else mret (Some (mkRpcImage repo version))
  | inr _ => mret None
  end.

Definition getImageSource (comps : gmap string Component) (name : string) : option UpdatingSource :=
  match comps !! name with
  | None => None
  | Some comp =>
      match cp_Source comp with
      | None => None
      | Some source => match sp_checkers !! source with None => None | Some _ => Some source end
      end
  end.

(** The errors are logged. *)
Definition logged (m : M W (option RpcImage)) : M W (option RpcImage) :=
  do r <- attempt m; mret (match r with inl _ => None | inr image => image end).

(** One goroutine. *)
Definition detect (teamInfo : TeamWithCurrentComponent) (comps : gmap string Component) (d : detection)
    : M W (option RpcImage) :=
  match d with
  | OfStable stable =>
      match getImageSource comps (kname stable) with
      | None => mret None
      | Some source =>
          if existsb (fun qComp => String.eqb (rc_Name qComp) (kname stable)) (twc_Components teamInfo) then mret None
          else logged (detectMissingImage source (sc_Repository (stable_Spec stable)) (kname stable)
                         (sc_Version (stable_Spec stable)))
      end
  | OfCurrent qComp =>
      match getImageSource comps (rc_Name qComp) with
      | None => mret None
      | Some source =>
          do image <- deref (rc_Image qComp);
          logged (detectMissingImage source (ri_Repository image) (rc_Name qComp) (ri_Tag image))
      end
  end.

(** All goroutines, in the order in which they do their work. *)
Fixpoint detect_all (teamInfo : TeamWithCurrentComponent) (comps : gmap string Component) (ds : list detection)
    : M W (list (bool * RpcImage)) :=
  match ds with
  | [] => mret []
  | d :: rest =>
      do image <- detect teamInfo comps d;
      do found <- detect_all teamInfo comps rest;
      mret (match image with Some image => (is_stable d, image) :: found | None => found end)
  end.
Definition images_of (group : bool) (found : list (bool * RpcImage)) : list RpcImage :=
  map snd (List.filter (fun p => Bool.eqb (fst p) group) found).

Definition detect_timeout : error := Wrap ErrRequestTimeout "detect missing images took longer than 5m0s".
(** The answers of the groups, as they come. *)
Fixpoint collect_groups (groups : list (list RpcImage)) (images : list RpcImage) : M W (list RpcImage) :=
  match groups with
  | [] => mret images
  | missingImages :: rest =>
      do timedOut <- coin;
      if timedOut : bool then throw detect_timeout else collect_groups rest (images ++ missingImages)
  end.

Definition getMissingVersions (teamInfo : TeamWithCurrentComponent) (stableList : list StableComponent)
    (comps : gmap string Component) : M W (list RpcImage) :=
  do ds <- in_finish_order (map OfStable stableList ++ map OfCurrent (twc_Components teamInfo));
  do found <- detect_all teamInfo comps ds;
  do stables <- in_finish_order (images_of true found);
  do currents <- in_finish_order (images_of false found);
  do groups <- in_finish_order [stables; currents];
  collect_groups groups [].

Definition GetMissingVersions (teamInfo : TeamWithCurrentComponent) : M W (list RpcImage) :=
  run authenticateRPC;
  do teamComp <- wrapping "cannot get of team " (fetchTeam (twc_TeamName teamInfo));
  let staging := tn_Staging (tst_Namespace (team_Status teamComp)) in
  if String.eqb staging "" then
    throw (Wrap (Errors.New ("staging namespace of " +:+ twc_TeamName teamInfo +:+ " is empty"))
             "staging namespace should not be empty")
  else
    do r <- attempt (k_list StableComponent (InNamespace staging));
    do stableList <- (match r with
      | inl err => if IsNotFound err then mret []
                   else throw (Wrap err ("cannot get list of stable components, namespace " +:+ staging))
      | inr l => mret l
      end);
    do comps <- wrapping ("cannot get components of team " +:+ kname teamComp) (cfg_GetComponents (kname teamComp));
    getMissingVersions teamInfo stableList comps.

(** ** Reports *)

(** The message of the call is shared by all reports, whose options write into it. *)
Definition sendDeploymentQueueReport (queueHistName : string) (queue : option Queue) (comp : ComponentUpgrade)
    : M W unit :=
  do teamComp <- fetchTeam (cu_TeamName comp);
  do ' (_, teamComp) <- with_obj teamComp (LoadTeamSecret configs s2h_namespace);
  do reporters <- sp_reporters;
  do reporters <- range_map reporters;
  do ' (_, _) <- with_obj comp (for_each reporters (fun reporter =>
    do comp <- get_obj;
    let testRunner := match queue with Some queue => qst_TestRunner (queue_Status queue) | None => noTestRunner end in
    let upgradeComp := NewComponentUpgradeReporter comp configs
      [WithTestRunner testRunner; WithQueueHistoryName queueHistName; WithNamespace (cu_PullRequestNamespace comp);
       WithComponentUpgradeOptCredential (ts_Credential (tst_Used (team_Status teamComp)))] in
    run mod_obj (fun _ => cur_ComponentUpgrade upgradeComp);
    let ofPullRequest :=
      match cu_PullRequestComponent comp with Some pr => negb (String.eqb (tpr_PRNumber pr) "") | None => false end in
    onW (ignore_error (if ofPullRequest then rp_SendPullRequestQueue (snd reporter) upgradeComp
                       else rp_SendComponentUpgrade (snd reporter) upgradeComp))));
  mret tt.

Definition listQueueHistory (selectors : gmap string string) : M W (list QueueHistory) :=
  do queueHists <- k_list QueueHistory (MatchingLabels selectors); mret (QueueHistorySortDESC queueHists).

Definition zeroQueueHistory : QueueHistory := mkQueueHistory noMeta (mkQueueHistorySpec None [] None false false false None).
Definition getLatestFailureQueueHistory (comp : ComponentUpgrade) : M W QueueHistory :=
  let qLabels := <["app" := cu_Name comp]> (GetDefaultLabels (cu_TeamName comp)) in
  do qHists <- wrapping "cannot list queue history" (listQueueHistory qLabels);
  mret (default zeroQueueHistory (qHists !! 1%nat)).

(** The metric of the queue is left out, but not the call that reads the queue. *)
Definition RunPostComponentUpgrade (comp : ComponentUpgrade) : M W unit :=
  run authenticateRPC;
  let key := (cu_Namespace comp, cu_QueueHistoryName comp) in
  do queueHist <- wrapping "cannot get queue history" (k_get QueueHistory key);
  do qHist <- (if cu_IsReverify comp && bool_decide (cu_IssueType comp = IssueType_DESIRED_VERSION_FAILED)
               then getLatestFailureQueueHistory comp else mret queueHist);
  do q <- deref (qhs_Queue (qh_Spec qHist));
  do q <- (if bool_decide (qst_TestRunner (queue_Status q) = noTestRunner) then
             do q0 <- deref (qhs_Queue (qh_Spec queueHist));
             mret (q <| queue_Status ::= fun s => s <| qst_TestRunner := qst_TestRunner (queue_Status q0) |> |>)
           else mret q);
  run sendDeploymentQueueReport (kname qHist) (Some q) comp;
  run attempt (k_get Queue key);
  mret tt.

Definition RunPostPullRequestQueue (comp : ComponentUpgrade) : M W unit :=
  run authenticateRPC;
  do prQueueHist <- k_get PullRequestQueueHistory (cu_Namespace comp, cu_QueueHistoryName comp);
  match pqh_PullRequestQueue prQueueHist with
  | Some prQueue =>
      sendDeploymentQueueReport (cu_QueueHistoryName comp) (pst_DeploymentQueue (prq_Status prQueue)) comp
  | None => mret tt
  end.

Definition sendPullRequestTriggerReport (prTrigger : PullRequestTrigger) (prTriggerRPC : RpcPullRequestTrigger)
    : M W unit :=
  let spec := prt_Spec prTrigger in
  do reporters <- sp_reporters;
  do reporters <- range_map reporters;
  for_each reporters (fun reporter => ignore_error (rp_SendPullRequestTriggerResult (snd reporter)
    (NewPullRequestTriggerResultReporter (prt_Status prTrigger) configs (rpt_TeamName prTriggerRPC)
       (pts_BundleName spec) (pts_PRNumber spec) (rpt_Result prTriggerRPC) (default 0 (pts_NoOfRetry spec))
       (pts_Components spec)))).

Definition RunPostPullRequestTrigger (prTriggerRPC : RpcPullRequestTrigger) : M W unit :=
  run authenticateRPC;
  do prTrigger <- k_get PullRequestTrigger (rpt_Namespace prTriggerRPC, rpt_Name prTriggerRPC);
  sendPullRequestTriggerReport prTrigger prTriggerRPC.

(** The first reporter that fails ends it. *)
Definition sendPullRequestTestRunnerPendingReport (prQueue : PullRequestQueue) (teamWithPR : TeamWithPullRequest)
    : M W unit :=
  do teamComp <- fetchTeam (tpr_TeamName teamWithPR);
  do ' (_, teamComp) <- with_obj teamComp (LoadTeamSecret configs s2h_namespace);
  let spec := prq_Spec prQueue in
  do reporters <- sp_reporters;
  do reporters <- range_map reporters;
  for_each reporters (fun reporter => rp_SendPullRequestTestRunnerPendingResult (snd reporter)
    (NewPullRequestTestRunnerPendingReporter configs (tpr_TeamName teamWithPR) (ps_BundleName spec)
       (ps_PRNumber spec) (ps_CommitSHA spec) (ts_Credential (tst_Used (team_Status teamComp))))).

Definition RunPostPullRequestQueueTestRunnerTrigger (teamWithPR : TeamWithPullRequest) : M W unit :=
  run authenticateRPC;
  do prQueue <- k_get PullRequestQueue (tpr_Namespace teamWithPR, tpr_BundleName teamWithPR);
  sendPullRequestTestRunnerPendingReport prQueue teamWithPR.

Definition SendUpdateStateQueueMetric (comp : ComponentUpgrade) : M W unit :=
  run authenticateRPC;
  if negb (String.eqb (cu_Name comp) "") then
    run attempt (k_get Queue (cu_Namespace comp, cu_Name comp)); mret tt
  else mret tt.

(** ** Reading the configuration *)

Definition GetBundleName (teamWithCompName : TeamWithBundleName) : M W string :=
  run authenticateRPC;
  getBundleName (twb_BundleName teamWithCompName) (twb_TeamName teamWithCompName).

(** An error of the configuration counts as no dependencies. *)
Definition GetPullRequestBundleDependencies (teamWithBundleName : TeamWithBundleName) : M W (list RpcComponent) :=
  run authenticateRPC;
  do r <- attempt (cfg_GetPullRequestBundleDependencies (twb_TeamName teamWithBundleName) (twb_BundleName teamWithBundleName));
  let deps := match r with inl _ => [] | inr deps => deps end in
  do teamComp <- fetchTeam (twb_TeamName teamWithBundleName);
  mret (map (dependency_of (tst_ActiveComponents (team_Status teamComp))) deps).

Definition GetPriorityQueues (teamName : string) : M W (list string) :=
  run authenticateRPC;
  do r <- attempt (cfg_GetPriorityQueues teamName);
  mret (match r with inl _ => [] | inr queues => queues end).

Definition GetComponentVersion (compSource : RpcComponentSource) : M W string :=
  run authenticateRPC;
  do checker <- or_throw (getComponentChecker (csr_Source compSource));
  let imgRepository := match csr_Image compSource with Some image => ri_Repository image | None => "" end in
  let imgTag := match csr_Image compSource with Some image => ri_Tag image | None => "" end in
  let imgTag := if String.eqb imgTag "" then csr_Pattern compSource else imgTag in
  if String.eqb imgRepository "" || String.eqb imgTag "" then
    throw (Errors.New ("image repository and tag should not be empty, repository: " +:+ imgRepository +:+ ", tag: " +:+ imgTag))
  else
    do ' (version, err) <- ck_GetVersion checker imgRepository (csr_ComponentName compSource) imgTag;
    match err with
    | Some err =>
        if same_text ErrNoDesiredComponentVersion err || same_text ErrRequestTimeout err
        then throw (Errors.New (imgRepository +:+ ":" +:+ imgTag +:+ " not found, " +:+ err_text err))
        else throw err
    | None => mret version
    end.

Definition GetPullRequestConfig (teamWithComp : TeamWithBundleName) : M W RpcPullRequestConfig :=
  run authenticateRPC;
  do prConfig <- cfg_GetPullRequestConfig (twb_TeamName teamWithComp);
  do prConfig <- deref prConfig;
  let pc := s2h_PullRequest configs in
  let trigger := cpr_Trigger prConfig in
  let maxRetryTrigger := default (pc_MaxTriggerRetryCounts pc) (ptc_MaxRetry trigger) in
  let pollingTimeTrigger := nonzero_or (ptc_PollingTime trigger) (pc_TriggerPollingTime pc) in
  let queueConcurrences := nonzero_or (cpr_Concurrences prConfig) (pc_QueueConcurrences pc) in
  let maxRetryVerification := default (pc_MaxVerificationRetryCounts pc) (pec_MaxRetry (cpr_Extra prConfig)) in
  let tearDownDuration := pec_TearDownDuration (cpr_Extra prConfig) in
  let '(gitRepository, maxRetryVerification, tearDownDuration) :=
    match bundle_named (twb_BundleName teamWithComp) (cpr_Bundles prConfig) with
    | None => ("", maxRetryVerification, tearDownDuration)
    | Some bundle =>
        (prb_GitRepository bundle, default maxRetryVerification (pec_MaxRetry (prb_Extra bundle)),
         match pec_TearDownDuration (prb_Extra bundle) with Some d => Some d | None => tearDownDuration end)
    end in
  let maxHistoryDays := nonzero_or (cpr_MaxHistoryDays prConfig) (pc_MaxHistoryDays pc) in
  do rpcTearDownDuration <- or_throw (tear_down_message tearDownDuration);
  mret (mkRpcPullRequestConfig (wrap32 queueConcurrences) (wrap32 maxRetryVerification) (wrap32 maxHistoryDays)
          (Some (mkRpcTriggerConfig (wrap32 maxRetryTrigger) (ro_duration_string (W:=W) pollingTimeTrigger)))
          gitRepository "" (Some rpcTearDownDuration)).

(** The sources of the components of the pull request, in the order of the map. *)
Fixpoint component_sources (teamWithPR : TeamWithPullRequest) (prComps : list (string * Component))
    : M W (list RpcComponentSource) :=
  match prComps with
  | [] => mret []
  | (_, prComp) :: rest =>
      do pattern <- ro_TextRender "PullRequestTagPattern" (ci_Pattern (cp_Image prComp)) (tpr_PRNumber teamWithPR);
      do sources <- component_sources teamWithPR rest;
      mret (component_source teamWithPR prComp pattern :: sources)
  end.
Definition GetPullRequestComponentSources (teamWithPR : TeamWithPullRequest) : M W (list RpcComponentSource) :=
  run authenticateRPC;
  do prComps <- cfg_GetPullRequestComponents (tpr_TeamName teamWithPR) (tpr_BundleName teamWithPR) false;
  do prComps <- range_map prComps;
  do compSources <- component_sources teamWithPR prComps;
  do comps <- cfg_GetComponents (tpr_TeamName teamWithPR);
  do comps <- range_map comps;
  mret (foldl (fun sources e => map (fill_source (fst e) (snd e)) sources) compSources comps).

(** ** Environments of pull requests *)

(** The service that stands for one of the active namespace. *)
Definition external_service (prNamespace activeNs : string) (svc : KubeObj ServiceKind) : KubeObj ServiceKind :=
  mkKubeObj (k := ServiceKind)
    (namedMeta prNamespace (replaceServiceFromReleaseName (kname svc) prNamespace activeNs))
    (mkServiceBody ServiceTypeExternalName "" false
       (kname svc +:+ "." +:+ kns svc +:+ ".svc." +:+ s2h_ClusterDomain configs)).

Definition DeployActiveServicesIntoPullRequestEnvironment (teamWithNS : TeamWithNamespace) : M W unit :=
  run authenticateRPC;
  let prNamespace := twn_Namespace teamWithNS in
  do teamComp <- fetchTeam (twn_TeamName teamWithNS);
  let activeNs := tn_Active (tst_Namespace (team_Status teamComp)) in
  if String.eqb activeNs "" then mret tt else
  do activeSvcList <- k_list (KubeObj ServiceKind) (InNamespace activeNs);
  do prSvcList <- k_list (KubeObj ServiceKind) (InNamespace prNamespace);
  for_each (getDifferentServices prSvcList activeSvcList) (fun svc =>
    do r <- attempt (k_create (external_service prNamespace activeNs svc));
    match r with
    | inl err => if IsAlreadyExists err then mret tt else throw err
    | inr _ => mret tt
    end).

Definition CreatePullRequestEnvironment (teamWithPR : TeamWithPullRequest) : M W unit :=
  run authenticateRPC;
  do prConfig <- cfg_GetPullRequestConfig (tpr_TeamName teamWithPR);
  do prConfig <- deref prConfig;
  createNamespace configs (tpr_TeamName teamWithPR)
    (withTeamPullRequestNamespaceStatus (tpr_Namespace teamWithPR)
       (bundle_resources (tpr_BundleName teamWithPR) prConfig) false).

Definition ensureTeamPullRequestNamespaceUpdated (teamName targetNs : string) : M W unit :=
  do r <- attempt (fetchTeam teamName);
  match r with
  | inl err => if IsNotFound err then mret tt else throw err
  | inr teamComp =>
      if ContainsString (tn_PullRequests (tst_Namespace (team_Status teamComp))) targetNs
      then throw ErrTeamNamespaceStillExists else mret tt
  end.

Definition DestroyPullRequestEnvironment (teamWithNS : TeamWithNamespace) : M W unit :=
  run authenticateRPC;
  run destroyNamespace (twn_TeamName teamWithNS)
    (withTeamPullRequestNamespaceStatus (twn_Namespace teamWithNS) None true);
  ensureTeamPullRequestNamespaceUpdated (twn_TeamName teamWithNS) (twn_Namespace teamWithNS).

(** The service that the controllers of the staging side call. *)
Definition samsahai_rpc : SamsahaiRPC W := {|
  rpc_GetTeamActiveNamespace := GetTeamActiveNamespace;
  rpc_RunPostComponentUpgrade := RunPostComponentUpgrade;
  rpc_RunPostPullRequestQueue := RunPostPullRequestQueue;
  rpc_RunPostPullRequestTrigger := RunPostPullRequestTrigger;
  rpc_RunPostPullRequestQueueTestRunnerTrigger := RunPostPullRequestQueueTestRunnerTrigger;
  rpc_GetMissingVersions := GetMissingVersions;
  rpc_SendUpdateStateQueueMetric := SendUpdateStateQueueMetric;
  rpc_GetBundleName := GetBundleName;
  rpc_GetPriorityQueues := GetPriorityQueues;
  rpc_GetPullRequestBundleDependencies := GetPullRequestBundleDependencies;
  rpc_GetPullRequestConfig := GetPullRequestConfig;
  rpc_GetPullRequestComponentSources := GetPullRequestComponentSources;
  rpc_GetComponentVersion := GetComponentVersion;
  rpc_DeployActiveServicesIntoPullRequestEnvironment := DeployActiveServicesIntoPullRequestEnvironment;
  rpc_CreatePullRequestEnvironment := CreatePullRequestEnvironment;
  rpc_DestroyPullRequestEnvironment := DestroyPullRequestEnvironment;
|}.
End handlers.
