(* ===== verification/S2hRpcClaims.v ===== *)
(** What the calls on Samsahai promise: nothing without the token; the missing images are
    those of a reference that knows no goroutines; the settings of pull requests are taken
    from the nearest place that has them; an environment of a pull request counts as
    destroyed only when its namespace is on its way out and the team has forgotten it. *)

From S2P Require Import Prelude.
From S2P Require Import GoRuntime.
From S2P Require Import Errors.
From S2P Require Import KubeApi.
From S2P Require Import Frame.
From S2P Require Import ConfigTypes.
From S2P Require Import ComponentTypes.
From S2P Require Import QueueTypes.
From S2P Require Import TeamTypes.
From S2P Require Import AtpTypes.
From S2P Require Import QueueCtrl.
From S2P Require Import Interfaces.
From S2P Require Import SamsahaiCtrl.
From S2P Require Import TeamFrame.
From S2P Require Import TeamClaims.
From S2P Require Import AtpSim.
From S2P Require Import PrqTypes.
From S2P Require Import PrtTypes.
From S2P Require Import StgTypes.
From S2P Require Import RpcTypes.
From S2P Require Import Reporters.
From S2P Require Import S2hProcess.
From S2P Require Import S2hProcClaims.
From S2P Require Import S2hRpc.
Open Scope string_scope.
Open Scope list_scope.
Open Scope Z_scope.

(** ** Missing images *)

Section missing.
Context {W : Type} `{GR : GoRuntime W} `{GSch : GoSchedule W} {GSL : GoScheduleLaws W} `{SP : SamsahaiPlugins W}.

(** The registry says that the image is not there, or does not say anything in time. *)
Definition is_missing {A} (r : outcome A) : bool :=
  match r with Err err => IsImageNotFound err || IsErrRequestTimeout err | _ => false end.

(** What the registries have does not change during the call. *)
Context (missing : UpdatingSource -> string -> string -> string -> bool).
Context (registries : forall source checker repo name version w, sp_checkers !! source = Some checker ->
  exists r w', ck_EnsureVersion checker repo name version w = (r, w') /\ (forall p, r <> Panic p) /\
    is_missing r = missing source repo name version).

(** The image of one component, when it is missing. *)
Definition missing_image (comps : gmap string Component) (name repo version : string) : option RpcImage :=
  match getImageSource comps name with
  | Some source =>
      if negb (String.eqb repo "") && missing source repo name version then Some (mkRpcImage repo version) else None
  | None => None
  end.
(** A stable component counts when it is not one of the current ones. *)
Definition missing_of (teamInfo : TeamWithCurrentComponent) (comps : gmap string Component) (d : detection)
    : option RpcImage :=
  match d with
  | OfStable stable =>
      if decide (kname stable ∈ map rc_Name (twc_Components teamInfo)) then None
      else missing_image comps (kname stable) (sc_Repository (stable_Spec stable)) (sc_Version (stable_Spec stable))
  | OfCurrent qComp =>
      match rc_Image qComp with
      | Some image => missing_image comps (rc_Name qComp) (ri_Repository image) (ri_Tag image)
      | None => None
      end
  end.
Definition missing_versions (teamInfo : TeamWithCurrentComponent) (stables : list StableComponent)
    (comps : gmap string Component) : list RpcImage :=
  omap (fun stable => missing_of teamInfo comps (OfStable stable)) stables ++
  omap (fun qComp => missing_of teamInfo comps (OfCurrent qComp)) (twc_Components teamInfo).

Lemma image_source_checker comps name source :
  getImageSource comps name = Some source -> is_Some (sp_checkers !! source).
Proof.
  unfold getImageSource. destruct (comps !! name) as [comp|]; [|done]. destruct (cp_Source comp) as [s|]; [|done].
  destruct (sp_checkers !! s) eqn:Hc; [|done]. intros [= <-]. by rewrite Hc.
Qed.

Lemma wp_detect_missing source repo name version w (Q : outcome (option RpcImage) -> W -> Prop) :
  is_Some (sp_checkers !! source) ->
  (forall w', Q (Ok (if negb (String.eqb repo "") && missing source repo name version
                     then Some (mkRpcImage repo version) else None)) w') ->
  wp (logged (detectMissingImage source repo name version)) w Q.
Proof using registries.
  intros [checker Hc] HQ.
  assert (getComponentChecker source = inr checker) as Hg.
  { unfold getComponentChecker. change (sp_checkers (W:=W) !! (source : string) = Some checker) in Hc. by rewrite Hc. }
  unfold logged, detectMissingImage, or_throw. wp_step. wp_step. wp_step.
  apply wp_wrapping. rewrite Hg. wp_step. lazy beta iota.
  destruct (String.eqb repo ""); [wp_step; by wp_step|].
  wp_step. wp_step. destruct (registries source checker repo name version w Hc) as (r & w' & Heq & Hp & Hm).
  apply run_wp. intros r0 w0 Heq0. rewrite Heq in Heq0. injection Heq0 as <- <-. specialize (HQ w').
  rewrite <- Hm in HQ. destruct r as [[]|err|p]; [wp_step; by wp_step| |by destruct (Hp p)].
  lazy beta iota. simpl in HQ. rewrite <- negb_orb. destruct (_ || _); simpl in *; wp_step; by wp_step.
Qed.

Lemma wp_detect teamInfo comps d w (Q : outcome (option RpcImage) -> W -> Prop) :
  (forall qComp, d = OfCurrent qComp -> rc_Image qComp <> None) ->
  (forall w', Q (Ok (missing_of teamInfo comps d)) w') ->
  wp (detect teamInfo comps d) w Q.
Proof using registries.
  intros Hnil HQ. destruct d as [stable|qComp]; simpl in *; unfold missing_image in HQ.
  - destruct (getImageSource comps (kname stable)) as [source|] eqn:Hs.
    2: { wp_step. specialize (HQ w). by destruct (decide _). }
    destruct (existsb _ _) eqn:He.
    + wp_step. rewrite decide_True in HQ; [done|]. apply existsb_exists in He as (x & Hx & <-%String.eqb_eq).
      apply list_elem_of_In, in_map_iff. by exists x.
    + rewrite decide_False in HQ; [by apply wp_detect_missing; [by eapply image_source_checker|]|].
      intros (x & Hx & Hin)%list_elem_of_In%in_map_iff. apply not_true_iff_false in He. apply He, existsb_exists.
      exists x. by rewrite Hx, String.eqb_refl.
  - specialize (Hnil _ eq_refl). destruct (rc_Image qComp) as [image|]; [|done].
    destruct (getImageSource comps (rc_Name qComp)) as [source|] eqn:Hs; [|by wp_step].
    wp_step. wp_step. by apply wp_detect_missing; [by eapply image_source_checker|].
Qed.

(** The answers with the group that they go to. *)
Definition answer_of teamInfo comps (d : detection) : option (bool * RpcImage) :=
  (fun image => (is_stable d, image)) <$> missing_of teamInfo comps d.
Lemma wp_detect_all teamInfo comps ds w (Q : outcome (list (bool * RpcImage)) -> W -> Prop) :
  (forall qComp, OfCurrent qComp ∈ ds -> rc_Image qComp <> None) ->
  (forall w', Q (Ok (omap (answer_of teamInfo comps) ds)) w') ->
  wp (detect_all teamInfo comps ds) w Q.
Proof using registries.
  revert w Q. induction ds as [|d ds IH]; intros w Q Hnil HQ; cbn [detect_all]; [by wp_step|].
  wp_step. apply wp_detect; [intros qComp ->; apply Hnil; by left|]. intros w1. wp_step.
  apply IH; [intros qComp Hin; apply Hnil; by right|]. intros w2. wp_step. specialize (HQ w2).
  cbn [omap list_omap] in HQ. unfold answer_of at 1 in HQ. by destruct (missing_of teamInfo comps d).
Qed.

Lemma images_of_perm group l l' : l ≡ₚ l' -> images_of group l ≡ₚ images_of group l'.
Proof.
  unfold images_of. induction 1 as [|x l l' _ IH|x y l|]; simpl; [done|..].
  - destruct (Bool.eqb _ _); simpl; by rewrite IH.
  - destruct (Bool.eqb (fst x) group), (Bool.eqb (fst y) group); simpl; try done. apply Permutation_swap.
  - by etrans.
Qed.
Lemma images_of_app group l l' : images_of group (l ++ l') = images_of group l ++ images_of group l'.
Proof. unfold images_of. by rewrite List.filter_app, map_app. Qed.

(** The answers of one group, when all the goroutines are of that group or of the other. *)
Lemma answers_of_group teamInfo comps {A} (f : A -> detection) group l :
  (forall x, is_stable (f x) = group) ->
  images_of group (omap (answer_of teamInfo comps) (map f l)) = omap (fun x => missing_of teamInfo comps (f x)) l /\
  images_of (negb group) (omap (answer_of teamInfo comps) (map f l)) = [].
Proof.
  intros Hf. induction l as [|x l [IH1 IH2]]; [done|]. cbn [map omap list_omap].
  assert (answer_of teamInfo comps (f x) = (fun image => (group, image)) <$> missing_of teamInfo comps (f x)) as ->.
  { unfold answer_of. by rewrite Hf. }
  destruct (missing_of teamInfo comps (f x)); simpl; [|done]. unfold images_of in *. simpl.
  rewrite Bool.eqb_reflx. split; [by rewrite <- IH1|]. by destruct group.
Qed.

Lemma answers_perm teamInfo comps stables ds :
  ds ≡ₚ map OfStable stables ++ map OfCurrent (twc_Components teamInfo) ->
  images_of true (omap (answer_of teamInfo comps) ds) ++ images_of false (omap (answer_of teamInfo comps) ds)
    ≡ₚ missing_versions teamInfo stables comps.
Proof.
  intros Hp. assert (omap (answer_of teamInfo comps) ds ≡ₚ omap (answer_of teamInfo comps) (map OfStable stables) ++
    omap (answer_of teamInfo comps) (map OfCurrent (twc_Components teamInfo))) as Ho.
  { rewrite Hp. by rewrite omap_app. }
  rewrite (images_of_perm true _ _ Ho), (images_of_perm false _ _ Ho), !images_of_app.
  destruct (answers_of_group teamInfo comps OfStable true stables (fun _ => eq_refl)) as [-> Hs].
  destruct (answers_of_group teamInfo comps OfCurrent false (twc_Components teamInfo) (fun _ => eq_refl)) as [-> Hq].
  simpl in Hs, Hq. rewrite Hs, Hq. simpl. by rewrite app_nil_r.
Qed.

Lemma wp_in_finish_order {A} (l : list A) w (Q : outcome (list A) -> W -> Prop) :
  (forall l' w', l' ≡ₚ l -> Q (Ok l') w') -> wp (in_finish_order l) w Q.
Proof.
  intros HQ. apply run_wp. intros r w' Heq. unfold in_finish_order in Heq.
  destruct (finish_order_perm (length l) l w) as (l' & Hl' & Hp). rewrite Heq in Hl'. simpl in Hl'. subst r. by apply HQ.
Qed.
Lemma wp_coin w (Q : outcome bool -> W -> Prop) : (forall b w', Q (Ok b) w') -> wp coin w Q.
Proof. intros HQ. apply run_wp. intros r w' Heq. unfold coin in Heq. destruct (rt_choose 2 w). injection Heq as <- <-. apply HQ. Qed.

Lemma wp_collect_groups groups images w (Q : outcome (list RpcImage) -> W -> Prop) :
  (forall w', Q (Ok (images ++ concat groups)) w') -> (forall w', Q (Err detect_timeout) w') ->
  wp (collect_groups groups images) w Q.
Proof.
  revert images w. induction groups as [|g groups IH]; intros images w Hok Herr; cbn [collect_groups].
  - wp_step. specialize (Hok w). simpl in Hok. by rewrite app_nil_r in Hok.
  - wp_step. apply wp_coin. intros [] w1; [by wp_step|]. apply IH; [|done]. intros w2. rewrite <- app_assoc. apply Hok.
Qed.

Definition all_images (teamInfo : TeamWithCurrentComponent) : Prop :=
  forall qComp, qComp ∈ twc_Components teamInfo -> rc_Image qComp <> None.

Lemma wp_getMissingVersions teamInfo stables comps w (Q : outcome (list RpcImage) -> W -> Prop) :
  all_images teamInfo ->
  (forall images w', images ≡ₚ missing_versions teamInfo stables comps -> Q (Ok images) w') ->
  (forall w', Q (Err detect_timeout) w') ->
  wp (getMissingVersions teamInfo stables comps) w Q.
Proof using registries.
  intros Hall Hok Herr. unfold getMissingVersions. wp_step. apply wp_in_finish_order. intros ds w1 Hds.
  wp_step. apply wp_detect_all.
  { intros qComp. rewrite Hds, elem_of_app. intros [Hin|Hin]; apply list_elem_of_In, in_map_iff in Hin as (x & Hx & Hin);
      [done|]. injection Hx as ->. by apply Hall, list_elem_of_In. }
  intros w2. apply answers_perm with (comps := comps) in Hds. set (found := omap _ ds) in *.
  wp_step. apply wp_in_finish_order. intros s w3 Hs. wp_step. apply wp_in_finish_order. intros q w4 Hq.
  wp_step. apply wp_in_finish_order. intros groups w5 Hg. apply wp_collect_groups; [|done].
  intros w6. apply Hok. rewrite <- Hds, <- Hs, <- Hq. simpl. rewrite Hg. simpl. by rewrite app_nil_r.
Qed.

(** C18: The images that are found missing are those of a reference without goroutines,
    whatever the order in which the registries answer: for each stable component that is not
    among the current ones, and for each current one, its image when its registry does not
    have it.  The only other end is the time-out. *)
Theorem missing_versions_reference teamInfo stables comps w r w' :
  all_images teamInfo -> getMissingVersions teamInfo stables comps w = (r, w') ->
  r = Err detect_timeout \/ exists images, r = Ok images /\ images ≡ₚ missing_versions teamInfo stables comps.
Proof using registries.
  intros Hall Heq. refine (wp_run _ _ _ _ (fun r _ => r = _ \/ _) _ Heq).
  apply wp_getMissingVersions; [done| |by left]. intros images w1 Hp. right. by exists images.
Qed.
End missing.

(** ** Authentication *)

Section handlers.
Context {W O : Type} `{GR : GoRuntime W} `{GS : GoSort} `{GSch : GoSchedule W} `{CC : ConfigController W}.
Context `{KTeam : KClient W Team} `{KStable : KClient W StableComponent} `{KAtp : KClient W ActivePromotion}.
Context `{KSecret : KClient W Secret} {KObjs : forall k, KClient W (KubeObj k)}.
Context `{KQueue : KClient W Queue} `{KHist : KClient W QueueHistory}.
Context `{KPrq : KClient W PullRequestQueue} `{KPqh : KClient W PullRequestQueueHistory}.
Context `{KPrt : KClient W PullRequestTrigger}.
Context `{SO : StagingObjects W O} `{OUT : SamsahaiOutside W} `{SP : SamsahaiPlugins W} `{RO : RpcOutside W}.
Context (configs : SamsahaiConfig) (s2h_namespace : string) (authToken : option string).

Notation right_token := (scr_InternalAuthToken (s2h_SamsahaiCredential configs)).
Definition refusal : error := match authToken with None => ErrAuthTokenNotFound | Some _ => ErrUnauthorized end.
(** The call does nothing but refuse. *)
Definition refuses {A B} (handler : A -> M W B) : Prop := forall x w, handler x w = (Err refusal, w).

Lemma authenticate_wrong {B} (k : unit -> M W B) w :
  authToken <> Some right_token -> mbind k (authenticateRPC configs authToken) w = (Err refusal, w).
Proof.
  intros Hne. unfold authenticateRPC, refusal. destruct authToken as [token|]; [|done].
  destruct (String.eqb_spec token right_token) as [->|]; [by destruct Hne|done].
Qed.
Lemma authenticate_right : authToken = Some right_token -> authenticateRPC (W:=W) configs authToken = (fun w => (Ok tt, w)).
Proof. intros ->. unfold authenticateRPC. by rewrite String.eqb_refl. Qed.

(** Without the token of Samsahai every call of the service is refused: it answers with
    an error and does nothing else, whatever is asked for. *)
Theorem unauthorized_refused :
  let service := samsahai_rpc configs s2h_namespace authToken in
  authToken <> Some right_token ->
  refuses (rpc_GetTeamActiveNamespace (SamsahaiRPC := service)) /\
  refuses (rpc_RunPostComponentUpgrade (SamsahaiRPC := service)) /\
  refuses (rpc_RunPostPullRequestQueue (SamsahaiRPC := service)) /\
  refuses (rpc_RunPostPullRequestTrigger (SamsahaiRPC := service)) /\
  refuses (rpc_RunPostPullRequestQueueTestRunnerTrigger (SamsahaiRPC := service)) /\
  refuses (rpc_GetMissingVersions (SamsahaiRPC := service)) /\
  refuses (rpc_SendUpdateStateQueueMetric (SamsahaiRPC := service)) /\
  refuses (rpc_GetBundleName (SamsahaiRPC := service)) /\
  refuses (rpc_GetPriorityQueues (SamsahaiRPC := service)) /\
  refuses (rpc_GetPullRequestBundleDependencies (SamsahaiRPC := service)) /\
  refuses (rpc_GetPullRequestConfig (SamsahaiRPC := service)) /\
  refuses (rpc_GetPullRequestComponentSources (SamsahaiRPC := service)) /\
  refuses (rpc_GetComponentVersion (SamsahaiRPC := service)) /\
  refuses (rpc_DeployActiveServicesIntoPullRequestEnvironment (SamsahaiRPC := service)) /\
  refuses (rpc_CreatePullRequestEnvironment (SamsahaiRPC := service)) /\
  refuses (rpc_DestroyPullRequestEnvironment (SamsahaiRPC := service)).
Proof.
  intros service Hne. assert (forall A B (handler : A -> M W B) k,
    (forall x, handler x = mbind (k x) (authenticateRPC configs authToken)) -> refuses handler) as Hrefuse.
  { intros A B handler k Hh x w. rewrite Hh. by apply authenticate_wrong. }
  split_and!; (eapply Hrefuse; intros; reflexivity).
Qed.

(** ** Settings of pull requests *)

(** The first place that has the setting. *)
Definition first_set {A} (places : list (option A)) : option A :=
  foldr (fun place rest => match place with Some a => Some a | None => rest end) None places.
Definition bundle_of (name : string) (prConfig : ConfigPullRequest) : option PullRequestBundle :=
  snd <$> list_find (fun bundle => prb_Name bundle = name) (cpr_Bundles prConfig).

Lemma bundle_named_of name prConfig : bundle_named name (cpr_Bundles prConfig) = bundle_of name prConfig.
Proof.
  unfold bundle_named, bundle_of. induction (cpr_Bundles prConfig) as [|b l IH]; [done|]. simpl.
  destruct (String.eqb_spec (prb_Name b) name) as [Hn|Hn].
  - by rewrite decide_True.
  - rewrite decide_False by done. rewrite IH. by destruct (list_find _ l) as [[]|].
Qed.

(** What is sent of a tear-down duration is what the receiver reads out of it. *)
Definition same_tear_down (d : option PullRequestTearDownDuration) (m : RpcTearDownDuration) : Prop :=
  match d with
  | None => rtd_Criteria m = Criteria_UNKNOWN
  | Some d => rtd_Duration m = td_Duration d /\ ToCrdCriteria (rtd_Criteria m) = inr (td_Criteria d)
  end.

Lemma tear_down_sent d :
  match tear_down_message d with
  | inr m => same_tear_down d m
  | inl _ => exists d', d = Some d' /\ forall c, ToCrdCriteria c <> inr (td_Criteria d')
  end.
Proof.
  unfold tear_down_message. destruct d as [[t c]|]; [|done]. simpl. unfold FromCrdCriteria.
  destruct (String.eqb_spec c PullRequestTearDownDurationCriteriaBoth) as [->|H1]; [done|].
  destruct (String.eqb_spec c PullRequestTearDownDurationCriteriaFailure) as [->|H2]; [done|].
  destruct (String.eqb_spec c PullRequestTearDownDurationCriteriaSuccess) as [->|H3]; [done|].
  eexists. split; [done|]. simpl. intros []; simpl; congruence.
Qed.

(** The answer, when the configuration is to be had. *)
Definition config_answer (team name : string) (prConfig : ConfigPullRequest) (d : RpcTearDownDuration)
    : RpcPullRequestConfig :=
  let bundle := bundle_of name prConfig in
  let global := s2h_PullRequest configs in
  let trigger := cpr_Trigger prConfig in
  mkRpcPullRequestConfig
    (wrap32 (if decide (cpr_Concurrences prConfig = 0) then pc_QueueConcurrences global else cpr_Concurrences prConfig))
    (wrap32 (default (pc_MaxVerificationRetryCounts global)
       (first_set [bundle ≫= (fun b => pec_MaxRetry (prb_Extra b)); pec_MaxRetry (cpr_Extra prConfig)])))
    (wrap32 (if decide (cpr_MaxHistoryDays prConfig = 0) then pc_MaxHistoryDays global else cpr_MaxHistoryDays prConfig))
    (Some (mkRpcTriggerConfig (wrap32 (default (pc_MaxTriggerRetryCounts global) (ptc_MaxRetry trigger)))
       (ro_duration_string (W:=W)
          (if decide (ptc_PollingTime trigger = 0) then pc_TriggerPollingTime global else ptc_PollingTime trigger))))
    (default "" (prb_GitRepository <$> bundle)) "" (Some d).
Definition bundle_tear_down (name : string) (prConfig : ConfigPullRequest) : option PullRequestTearDownDuration :=
  first_set [bundle_of name prConfig ≫= (fun b => pec_TearDownDuration (prb_Extra b));
             pec_TearDownDuration (cpr_Extra prConfig)].

Lemma GetPullRequestConfig_answer team name prConfig w w1 :
  authToken = Some right_token -> cfg_GetPullRequestConfig team w = (Ok (Some prConfig), w1) ->
  GetPullRequestConfig configs authToken (mkTeamWithBundleName team name) w =
  match tear_down_message (bundle_tear_down name prConfig) with
  | inl e => (Err e, w1)
  | inr d => (Ok (config_answer team name prConfig d), w1)
  end.
Proof.
  intros Hauth Hcfg. unfold GetPullRequestConfig, mbind, M_bind. rewrite (authenticate_right Hauth).
  cbn [twb_TeamName twb_BundleName]. rewrite Hcfg. cbn [deref]. unfold mret at 1, M_ret at 1. rewrite bundle_named_of.
  assert (forall a b, nonzero_or a b = if decide (a = 0) then b else a) as Hnz.
  { intros a b. unfold nonzero_or. destruct (Z.eqb_spec a 0); by case_decide. }
  rewrite !Hnz. clear Hnz Hcfg. unfold config_answer, bundle_tear_down, or_throw, throw, mret, M_ret.
  generalize tear_down_message. intros send. destruct (bundle_of name prConfig) as [b|]; simpl.
  - destruct (pec_MaxRetry (prb_Extra b)), (pec_MaxRetry (cpr_Extra prConfig)), (pec_TearDownDuration (prb_Extra b)),
      (pec_TearDownDuration (cpr_Extra prConfig)); by destruct (send _).
  - destruct (pec_MaxRetry (cpr_Extra prConfig)), (pec_TearDownDuration (cpr_Extra prConfig)); by destruct (send _).
Qed.

(** C34: Each setting of the pull requests of a bundle comes from the nearest place that has
    it: the bundle, then the team, then Samsahai itself; as 32-bit numbers; and the
    tear-down duration is sent so that the receiver reads the same duration and criteria out
    of it.  The call only fails when the criteria is none of the known ones. *)
Theorem pull_request_config_layers team name prConfig w w1 r w' :
  authToken = Some right_token ->
  cfg_GetPullRequestConfig team w = (Ok (Some prConfig), w1) ->
  GetPullRequestConfig configs authToken (mkTeamWithBundleName team name) w = (r, w') ->
  w' = w1 /\
  match r with
  | Ok m => exists d, m = config_answer team name prConfig d /\ same_tear_down (bundle_tear_down name prConfig) d
  | Err _ => exists d, bundle_tear_down name prConfig = Some d /\ forall c, ToCrdCriteria c <> inr (td_Criteria d)
  | Panic _ => False
  end.
Proof.
  intros Hauth Hcfg Heq. rewrite (GetPullRequestConfig_answer _ _ _ _ _ Hauth Hcfg) in Heq.
  pose proof (tear_down_sent (bundle_tear_down name prConfig)) as Hsent.
  destruct (tear_down_message _) as [e|d]; injection Heq as <- <-; (split; [done|]); [exact Hsent|by exists d].
Qed.
End handlers.

(** ** Environments of pull requests *)

Section environments.
Context {W : Type} `{GR : GoRuntime W}.
Context `{KTeam : KClient W Team} `{KStable : KClient W StableComponent} {KObjs : forall k, KClient W (KubeObj k)}.
Context `{KVT : KView W Team} `{KLT : !KClientLaws W Team}.
Context `{KVN : KView W (KubeObj NamespaceKind)} `{KLN : !KClientLaws W (KubeObj NamespaceKind)}.
Context `{RFT : !RuntimeFrame W (kview Team)} `{FTS : !KFrame W StableComponent (kview Team)}
  `{FTO : forall k, KFrame W (KubeObj k) (kview Team)}.
Context `{RFN : !RuntimeFrame W (kview (KubeObj NamespaceKind))}
  `{FNT : !KFrame W Team (kview (KubeObj NamespaceKind))}
  `{FNS : !KFrame W StableComponent (kview (KubeObj NamespaceKind))}
  `{FNO : forall k, k <> NamespaceKind -> KFrame W (KubeObj k) (kview (KubeObj NamespaceKind))}.
Context (conflict_terminating : forall (x : KubeObj NamespaceKind) w e w',
  k_delete x w = (Err e, w') -> IsConflict e = true ->
  exists y, kview (KubeObj NamespaceKind) w !! kkey x = Some y /\ om_DeletionTimestamp (ko_Meta y) <> None).
Context (configs : SamsahaiConfig) (authToken : option string).

(** C19: The environment of a pull request is reported as destroyed only when its namespace
    is gone or on its way out, and the team does not list it any more. *)
Theorem pr_environment_destroyed team ns w w' t :
  authToken = Some (scr_InternalAuthToken (s2h_SamsahaiCredential configs)) ->
  kview Team w !! ("", team) = Some t -> held t -> ns <> "" ->
  DestroyPullRequestEnvironment configs authToken (mkTeamWithNamespace team ns) w = (Ok tt, w') ->
  released w ns /\ forall t', kview Team w' !! ("", team) = Some t' -> ns ∉ tn_PullRequests (roles t').
Proof using KLT KLN RFT FTS FTO RFN FNT FNS FNO conflict_terminating.
  intros Hauth Ht Hheld Hne Heq. pose proof (k_view_keyed _ _ _ Ht) as Hk.
  refine (wp_run _ _ _ _ (fun r w' => r = Ok tt -> _ /\ _) _ Heq eq_refl). clear Heq w'.
  unfold DestroyPullRequestEnvironment. wp_step. rewrite (authenticate_right _ _ Hauth).
  apply run_wp. intros r w0 [= <- <-]. cbn [twn_TeamName twn_Namespace]. wp_step.
  unfold destroyNamespace, fetchTeam. wp_step. wp_step.
  apply (wp_preserve (kview (KubeObj NamespaceKind))); [apply _|]. apply wp_k_get.
  2: { intros e w1 Hn _ _. rewrite Ht in Hn. lazy beta iota. destruct (IsNotFound e); [by discriminate (Hn eq_refl)|by wp_step]. }
  intros t1 w1 Ht1 Hw1 Hn1. rewrite Ht in Ht1. injection Ht1 as <-. lazy beta iota. wp_step. apply wp_with_obj.
  assert (guarded (team_Meta t) (w1, t)) as Hg.
  { split; [done|]. exists t. simpl. rewrite Hw1. change (om_Namespace (team_Meta t), om_Name (team_Meta t)) with (kkey t).
    by rewrite Hk. }
  eapply wp_mono; [eapply (wp_destroyNamespaces conflict_terminating (team_Meta t) [ns]);
    [exact Hg|exact Hheld|repeat constructor]|]. cbv beta. cbn [fst snd].
  intros r [w2 t2] [_ Hrel]. destruct r as [[]|e|p]; [|done..]. cbn [fst snd] in *.
  destruct (Hrel eq_refl) as [_ Hgone]. lazy beta iota. wp_step.
  assert (released w ns) as Hr.
  { intros y Hy. rewrite <- Hn1 in Hy. by apply (Hgone ns ltac:(by left) Hne y). }
  unfold ensureTeamPullRequestNamespaceUpdated, fetchTeam. wp_step. wp_step. apply wp_k_get.
  - intros t3 w3 Ht3 Hw3. lazy beta iota. destruct (ContainsString _ _) eqn:Hc; wp_step; [done|]. intros _.
    split; [exact Hr|]. intros t' Ht'. rewrite Hw3, Ht3 in Ht'. injection Ht' as <-. intros Hin.
    apply not_true_iff_false in Hc. apply Hc. unfold ContainsString. apply existsb_exists. exists ns.
    rewrite String.eqb_refl. split; [by apply list_elem_of_In|done].
  - intros e w3 Hn Hw3. lazy beta iota. destruct (IsNotFound e); wp_step; [|done]. intros _. split; [exact Hr|].
    intros t' Ht'. rewrite Hw3, Hn in Ht' by done. done.
Qed.
End environments.

(** ** Concrete runs *)

#[local] Instance hs_schedule : GoSchedule S2hSim := fun n w => (Nat.pred n, w).
#[local] Instance hs_schedule_laws : GoScheduleLaws S2hSim.
Proof. intros n w Hn. unfold rt_choose, hs_schedule. simpl. lia. Qed.
#[local] Instance hs_rpc_outside : RpcOutside S2hSim :=
  {| ro_duration_string d := pretty d; ro_TextRender _ tmpl number := mret (ReplaceAll tmpl "{{ .PRNumber }}" number) |}.

(** A registry that does not have the version [gone]. *)
Definition hs_gone (source : UpdatingSource) (repo name version : string) : bool := String.eqb version "gone".
Definition hs_current (version : string) : TeamWithCurrentComponent :=
  mkTeamWithCurrentComponent "teamtest" [mkRpcComponent "redis" (Some (mkRpcImage "repo/redis" version))].
Definition hs_two_comps : gmap string Component :=
  {[ "redis" := hs_component; "mariadb" := hs_component ]}.
Definition hs_stable (name version : string) : StableComponent :=
  mkStableComponent (namedMeta "s2h-teamtest" name) (mkStableComponentSpec name ("repo/" +:+ name) version "")
    (mkStableComponentStatus None None).

Lemma missing_versions_reference_witness :
  let stables := [hs_stable "redis" "1.0"; hs_stable "mariadb" "gone"] in
  exists images,
    missing_versions (SP := hs_plugins ("", None)) hs_gone (hs_current "gone") stables hs_two_comps = images /\
    images = [mkRpcImage "repo/mariadb" "gone"; mkRpcImage "repo/redis" "gone"] /\
    let r := fst (getMissingVersions (SP := hs_plugins ("", None)) (hs_current "gone") stables hs_two_comps hs_world) in
    r = Err detect_timeout \/ exists images', r = Ok images' /\ images' ≡ₚ images.
Proof.
  intros stables. eexists. split; [reflexivity|]. split; [vm_compute; reflexivity|].
  apply (missing_versions_reference (SP := hs_plugins ("", None)) hs_gone) with (w := hs_world)
    (w' := snd (getMissingVersions (SP := hs_plugins ("", None)) (hs_current "gone") stables hs_two_comps hs_world)).
  - intros source checker repo name version w Hc. rewrite (hs_checker _ _ _ Hc). unfold hs_gone, hs_registry. simpl.
    destruct (String.eqb version "gone"); eexists _, w; (split; [reflexivity|split; [discriminate|reflexivity]]).
  - intros qComp Hin. apply list_elem_of_singleton in Hin as ->. discriminate.
  - apply surjective_pairing.
Defined.

(** The settings of a bundle with its own number of tries, in a team with a tear-down. *)
Definition hs_pull_requests : ConfigPullRequest :=
  mkConfigPullRequest 0 (mkPullRequestTriggerConfig 0 (Some 9))
    (Some [mkPullRequestBundle "stores" [] None [] "agoda/stores" "" (mkPullRequestExtraConfig (Some 4) None None)])
    0 (mkPullRequestExtraConfig None None (Some (mkPullRequestTearDownDuration Hour "success"))).
Definition hs_pr_config : ConfigController S2hSim := {|
  cfg_Get _ := throw NotFoundError;
  cfg_GetComponents _ := mret hs_comps;
  cfg_GetParentComponents _ := mret hs_comps;
  cfg_GetPullRequestComponents _ _ _ := mret ∅;
  cfg_GetBundles _ := mret hs_bundles;
  cfg_GetPriorityQueues _ := mret [];
  cfg_GetStagingConfig _ := mret None;
  cfg_GetPullRequestConfig _ := mret (Some hs_pull_requests);
  cfg_GetPullRequestBundleDependencies _ _ := mret [];
  cfg_Update _ := mret tt;
  cfg_Delete _ := mret tt;
  cfg_EnsureConfigTemplateChanged := mret tt;
|}.

Lemma pull_request_config_layers_witness :
  let res := GetPullRequestConfig (CC := hs_pr_config) hs_samsahai (Some "token")
               (mkTeamWithBundleName "teamtest" "stores") hs_world in
  snd res = hs_world /\
  match fst res with
  | Ok m => rpc_MaxRetry m = 4 /\ rpc_Concurrences m = 3 /\
      exists d, same_tear_down (bundle_tear_down "stores" hs_pull_requests) d
  | _ => False
  end.
Proof.
  intros res. destruct (pull_request_config_layers (CC := hs_pr_config) hs_samsahai (Some "token") "teamtest" "stores"
    hs_pull_requests hs_world hs_world (fst res) (snd res) eq_refl eq_refl (surjective_pairing res)) as [Hw Hr].
  split; [exact Hw|]. destruct (fst res) as [m|e|p].
  - destruct Hr as (d & -> & Hd). split; [vm_compute; reflexivity|]. split; [vm_compute; reflexivity|]. exists d. exact Hd.
  - destruct Hr as (d & [= <-] & Hno). apply (Hno Criteria_SUCCESS). reflexivity.
  - exact Hr.
Defined.

(** A cluster without the objects of the staging side. *)
Definition no_client {W T} : KClient W T := {|
  k_get _ := throw NotFoundError; k_list _ := mret []; k_create _ := throw NotFoundError;
  k_update _ := throw NotFoundError; k_delete _ := throw NotFoundError; k_delete_all_of _ := mret tt |}.
#[local] Instance asim_schedule : GoSchedule AtpSim := fun n w => (0%nat, w).
#[local] Instance asim_plugins : SamsahaiPlugins AtpSim := {| sp_checkers := ∅; sp_reporters := mret ∅ |}.
#[local] Instance asim_rpc_outside : RpcOutside AtpSim := {| ro_duration_string d := pretty d; ro_TextRender _ tmpl _ := mret tmpl |}.
Definition asim_service : option string -> SamsahaiRPC AtpSim :=
  samsahai_rpc (O := string) (KHist := no_client) (KPrq := no_client) (KPqh := no_client) (KPrt := no_client)
    hs_samsahai "samsahai-system".

Lemma unauthorized_refused_witness :
  rpc_DestroyPullRequestEnvironment (SamsahaiRPC := asim_service (Some "guess"))
    (mkTeamWithNamespace "teamtest" "s2h-teamtest-pr") sim_dying_world = (Err ErrUnauthorized, sim_dying_world).
Proof.
  pose proof (unauthorized_refused (O := string) (KHist := no_client) (KPrq := no_client) (KPqh := no_client)
    (KPrt := no_client) hs_samsahai "samsahai-system" (Some "guess") ltac:(discriminate))
    as (_ & _ & _ & _ & _ & _ & _ & _ & _ & _ & _ & _ & _ & _ & _ & H).
  apply H.
Defined.

(** The namespace of a pull request that the team still lists is gone. *)
Definition sim_with_pr : Team :=
  sim_team <| team_Meta ::= fun m => m <| om_Finalizers := [teamFinalizerName] |> |>
    <| team_Status ::= fun s => s <| tst_Namespace ::= fun n => n <| tn_PullRequests := ["s2h-teamtest-pr"] |> |> |>.
Definition sim_pr_world : AtpSim := sim_dying_world <| as_teams := {[ ("", "teamtest") := sim_with_pr ]} |>.
Lemma pr_environment_destroyed_witness :
  let res := DestroyPullRequestEnvironment hs_samsahai (Some "token") (mkTeamWithNamespace "teamtest" "s2h-teamtest-pr") sim_pr_world in
  fst res = Ok tt /\ released sim_pr_world "s2h-teamtest-pr" /\
  (forall t', kview Team (snd res) !! ("", "teamtest") = Some t' -> "s2h-teamtest-pr" ∉ tn_PullRequests (roles t')).
Proof.
  intros res. assert (fst res = Ok tt) as Hok by by vm_compute. split; [exact Hok|].
  apply (pr_environment_destroyed (FNO := asim_object_namespace) mem_delete_conflict hs_samsahai (Some "token")
    "teamtest" "s2h-teamtest-pr" sim_pr_world (snd res) sim_with_pr).
  - reflexivity.
  - reflexivity.
  - reflexivity.
  - discriminate.
  - exact (ok_run _ _ _ Hok).
Defined.

(** The report of a verification whose component has a single history reads the queue of a
    history that is not there. *)
Definition one_history : QueueHistory :=
  mkQueueHistory (namedMeta "s2h-teamtest" "redis-1") (mkQueueHistorySpec (Some zeroQueue) [] None true true true None).
Definition history_client : KClient AtpSim QueueHistory := {|
  k_get _ := mret one_history; k_list _ := mret [one_history]; k_create _ := mret tt;
  k_update _ := mret tt; k_delete _ := mret tt; k_delete_all_of _ := mret tt |}.
Definition verified_redis : ComponentUpgrade :=
  mkComponentUpgrade UpgradeStatus_FAILURE "redis" "teamtest" [] IssueType_DESIRED_VERSION_FAILED "redis-1" []
    "s2h-teamtest" "" 0 true ReverificationStatus_SUCCESS [] None "".
Lemma first_verification_panics :
  fst (RunPostComponentUpgrade (KHist := history_client) hs_samsahai "samsahai-system" (Some "token") verified_redis
         sim_pr_world) = Panic NilDereference.
Proof. vm_compute. reflexivity. Qed.
