(* ===== verification/Versions.v ===== *)
(** Model of [internal/version.go]: the order in which the tags of an image are sorted.

    A tag is split at its dots, underscores and hyphens.  Two parts that both hold a digit
    are compared as numbers by [strconv.Atoi] with its error dropped, any others as texts.
    Tags of plain numbers come in the order of their lists of numbers; with other parts the
    relation is not an order. *)

From S2P Require Import Prelude.
From S2P Require Import GoRuntime.
From Stdlib Require Import Ascii.
Open Scope string_scope.
Open Scope list_scope.
Open Scope Z_scope.

(** ** [regexpSplit] *)

(** The pattern [[._-]]. *)
Definition is_separator (c : ascii) : bool :=
  Ascii.eqb c "."%char || Ascii.eqb c "_"%char || Ascii.eqb c "-"%char.

(** [reg.Split(input, -1)]. *)
Fixpoint split_all (s : string) : list string :=
  match s with
  | EmptyString => [""]
  | String c s' =>
      if is_separator c then "" :: split_all s' else
      match split_all s' with
      | [] => [String c ""]
      | part :: rest => String c part :: rest
      end
  end.
Definition regexpSplit (input : string) : list string :=
  List.filter (fun part => negb (String.eqb part "")) (split_all input).

(** ** [strconv.Atoi], its error dropped *)

Definition digit_of (c : ascii) : option Z :=
  let n := Z.of_N (N_of_ascii c) in if (48 <=? n) && (n <=? 57) then Some (n - 48) else None.
(** The pattern [\d+] matches. *)
Fixpoint has_digit (s : string) : bool :=
  match s with
  | EmptyString => false
  | String c s' => match digit_of c with Some _ => true | None => has_digit s' end
  end.

(** The digits of an unsigned number: [None] is a syntax error; the number that no longer
    fits ends the reading. *)
Fixpoint parse_uint (s : string) (n : Z) : option Z :=
  match s with
  | EmptyString => Some n
  | String c s' =>
      match digit_of c with
      | None => None
      | Some d =>
          if (2 ^ 64 - 1) / 10 + 1 <=? n then Some (2 ^ 64 - 1) else
          let n1 := n * 10 + d in
          if 2 ^ 64 - 1 <? n1 then Some (2 ^ 64 - 1) else parse_uint s' n1
      end
  end.
Definition parse_int (neg : bool) (digits : string) : Z :=
  match digits with
  | EmptyString => 0
  | _ =>
      match parse_uint digits 0 with
      | None => 0
      | Some un =>
          if neg : bool then (if 2 ^ 63 <? un then - 2 ^ 63 else - un)
          else (if 2 ^ 63 <=? un then 2 ^ 63 - 1 else un)
      end
  end.
Definition Atoi (s : string) : Z :=
  match s with
  | String c s' =>
      if Ascii.eqb c "-"%char then parse_int true s'
      else if Ascii.eqb c "+"%char then parse_int false s' else parse_int false s
  | EmptyString => 0
  end.

(** ** [Less] *)

Fixpoint less_parts (vis vjs : list string) : bool :=
  match vis, vjs with
  | i :: vis', j :: vjs' =>
      match String.compare i j with
      | Eq => less_parts vis' vjs'
      | c =>
          if has_digit i && has_digit j then
            if Atoi i =? Atoi j then less_parts vis' vjs' else Atoi i <? Atoi j
          else match c with Lt => true | _ => false end
      end
  | _, _ => (length vis <? length vjs)%nat
  end.
Definition SortableVersion_Less (vi vj : string) : bool := less_parts (regexpSplit vi) (regexpSplit vj).
Definition sort_versions `{GoSort} (v : list string) : list string := go_sort SortableVersion_Less v.

(** ** Tags of plain numbers *)

(** A number as its decimal digits. *)
Definition digits_value (ds : list Z) : Z := foldl (fun n d => n * 10 + d) 0 ds.
Definition digit_char (d : Z) : ascii := ascii_of_N (Z.to_N (48 + d)).
Definition digits_text (ds : list Z) : string := foldr (fun d s => String (digit_char d) s) "" ds.
Definition number (ds : list Z) : Prop := ds <> [] /\ Forall (fun d => 0 <= d <= 9) ds /\ digits_value ds < 2 ^ 63.
Definition dotted (parts : list (list Z)) : string := String.concat "." (digits_text <$> parts).

(** The order of lists of numbers. *)
Fixpoint lex_less (l k : list Z) : bool :=
  match l, k with
  | x :: l', y :: k' => if x =? y then lex_less l' k' else x <? y
  | [], _ :: _ => true
  | _, [] => false
  end.

Lemma digit_of_char d : 0 <= d <= 9 -> digit_of (digit_char d) = Some d.
Proof.
  intros Hd. assert (d ∈ [0; 1; 2; 3; 4; 5; 6; 7; 8; 9]) as Hin by (rewrite !elem_of_cons; lia).
  repeat (apply elem_of_cons in Hin as [->|Hin]; [done|]). by apply elem_of_nil in Hin.
Qed.

Lemma digit_char_plain d :
  0 <= d <= 9 ->
  is_separator (digit_char d) = false /\ digit_char d <> "-"%char /\ digit_char d <> "+"%char.
Proof.
  intros Hd. assert (d ∈ [0; 1; 2; 3; 4; 5; 6; 7; 8; 9]) as Hin by (rewrite !elem_of_cons; lia).
  repeat (apply elem_of_cons in Hin as [->|Hin]; [done|]). by apply elem_of_nil in Hin.
Qed.

Lemma digits_value_grows ds n :
  0 <= n -> Forall (fun d => 0 <= d <= 9) ds -> n <= foldl (fun n d => n * 10 + d) n ds.
Proof.
  intros Hn Hds. revert n Hn. induction Hds as [|d ds Hd Hds IH]; intros n Hn; simpl; [lia|].
  etrans; [|apply IH]; lia.
Qed.

(** A number that fits is read as it is. *)
Lemma parse_uint_digits ds n :
  0 <= n -> Forall (fun d => 0 <= d <= 9) ds -> foldl (fun n d => n * 10 + d) n ds < 2 ^ 63 ->
  parse_uint (digits_text ds) n = Some (foldl (fun n d => n * 10 + d) n ds).
Proof.
  intros Hn Hds. revert n Hn. induction Hds as [|d ds Hd Hds IH]; intros n Hn Hb; [done|].
  cbn [digits_text foldr parse_uint]. rewrite digit_of_char by done. cbn [foldl] in *.
  pose proof (digits_value_grows ds (n * 10 + d) ltac:(lia) Hds).
  destruct (Z.leb_spec ((2 ^ 64 - 1) / 10 + 1) n) as [Hle|_]; [change ((2 ^ 64 - 1) / 10) with 1844674407370955161 in Hle; lia|].
  destruct (Z.ltb_spec (2 ^ 64 - 1) (n * 10 + d)); [lia|]. apply IH; [lia|done].
Qed.

Lemma parse_int_digits ds : number ds -> parse_int false (digits_text ds) = digits_value ds.
Proof.
  intros (Hne & Hds & Hb). destruct ds as [|d ds]; [done|].
  change (parse_int false (digits_text (d :: ds)))
    with (match parse_uint (digits_text (d :: ds)) 0 with
          | None => 0
          | Some un => if 2 ^ 63 <=? un then 2 ^ 63 - 1 else un
          end).
  rewrite parse_uint_digits by done. fold (digits_value (d :: ds)).
  by destruct (Z.leb_spec (2 ^ 63) (digits_value (d :: ds))); [lia|].
Qed.

Lemma Atoi_digits ds : number ds -> Atoi (digits_text ds) = digits_value ds.
Proof.
  intros Hn. rewrite <- parse_int_digits by done. destruct Hn as (Hne & Hds & _).
  destruct ds as [|d ds]; [done|]. inversion Hds as [|?? Hd _]; subst.
  destruct (digit_char_plain d Hd) as (_ & Hm & Hp). cbn [digits_text foldr Atoi].
  by rewrite (proj2 (Ascii.eqb_neq _ _) Hm), (proj2 (Ascii.eqb_neq _ _) Hp).
Qed.

Lemma number_has_digit ds : number ds -> has_digit (digits_text ds) = true.
Proof.
  intros (Hne & Hds & _). destruct ds as [|d ds]; [done|]. inversion Hds; subst.
  cbn [digits_text foldr has_digit]. by rewrite digit_of_char.
Qed.

(** ** Splitting a dotted number *)

Lemma string_app_nil_r s : s +:+ "" = s.
Proof. induction s as [|c s IH]; [done|]. change (String c s +:+ "") with (String c (s +:+ "")). by rewrite IH. Qed.

Lemma split_all_nonempty s : split_all s <> [].
Proof. destruct s as [|c s]; simpl; [done|]. by destruct (is_separator c), (split_all s). Qed.

Lemma split_all_digits ds s :
  Forall (fun d => 0 <= d <= 9) ds ->
  split_all (digits_text ds +:+ s) =
    match split_all s with [] => [] | part :: rest => (digits_text ds +:+ part) :: rest end.
Proof.
  induction 1 as [|d ds Hd Hds IH]; [by change (digits_text [] +:+ s) with s; destruct (split_all s)|].
  change (digits_text (d :: ds) +:+ s) with (String (digit_char d) (digits_text ds +:+ s)).
  cbn [split_all]. destruct (digit_char_plain d Hd) as (-> & _). rewrite IH.
  pose proof (split_all_nonempty s). by destruct (split_all s).
Qed.

Lemma split_all_dotted parts :
  parts <> [] -> Forall number parts -> split_all (dotted parts) = digits_text <$> parts.
Proof.
  induction parts as [|ds parts IH]; [done|]. intros _ Hn. inversion Hn as [|?? Hds Hps]; subst.
  destruct Hds as (_ & Hds & _). unfold dotted. destruct parts as [|ds' parts].
  - cbn [fmap list_fmap String.concat]. rewrite <- (string_app_nil_r (digits_text ds)) at 1.
    rewrite split_all_digits by done. simpl. by rewrite string_app_nil_r.
  - change (String.concat "." (digits_text <$> ds :: ds' :: parts))
      with (digits_text ds +:+ ("." +:+ dotted (ds' :: parts))).
    rewrite split_all_digits by done.
    change (split_all ("." +:+ dotted (ds' :: parts))) with ("" :: split_all (dotted (ds' :: parts))).
    rewrite IH by done. by rewrite string_app_nil_r.
Qed.

Lemma regexpSplit_dotted parts : Forall number parts -> regexpSplit (dotted parts) = digits_text <$> parts.
Proof.
  intros Hn. destruct parts as [|ds parts]; [done|]. unfold regexpSplit. rewrite split_all_dotted by done.
  induction Hn as [|ds' parts' (Hne & _) _ IH]; [done|]. cbn [fmap list_fmap List.filter].
  destruct ds'; [done|]. simpl. f_equal. exact IH.
Qed.

Lemma less_parts_numbers v w :
  Forall number v -> Forall number w ->
  less_parts (digits_text <$> v) (digits_text <$> w) = lex_less (digits_value <$> v) (digits_value <$> w).
Proof.
  intros Hv. revert w. induction Hv as [|x v Hx Hv IH]; intros w Hw; [by destruct Hw|].
  destruct Hw as [|y w Hy Hw]; [done|]. cbn [fmap list_fmap less_parts lex_less].
  pose proof (Atoi_digits x Hx) as Ax. pose proof (Atoi_digits y Hy) as Ay.
  rewrite !number_has_digit, Ax, Ay by done. cbn [andb].
  destruct (String.compare _ _) eqn:E; [|by rewrite IH..].
  apply String.compare_eq_iff in E. rewrite E in Ax. replace (digits_value x) with (digits_value y) by congruence.
  rewrite Z.eqb_refl. by apply IH.
Qed.

Lemma lex_less_trans l1 l2 l3 : lex_less l1 l2 = true -> lex_less l2 l3 = true -> lex_less l1 l3 = true.
Proof.
  revert l2 l3. induction l1 as [|x l1 IH]; intros [|y l2] [|z l3]; simpl; try done.
  destruct (Z.eqb_spec x y), (Z.eqb_spec y z), (Z.eqb_spec x z); subst; rewrite ?Z.ltb_lt; try lia; eauto.
Qed.

Lemma lex_less_neg_trans l1 l2 l3 :
  lex_less l1 l2 = false -> lex_less l2 l3 = false -> lex_less l1 l3 = false.
Proof.
  revert l2 l3. induction l1 as [|x l1 IH]; intros [|y l2] [|z l3]; simpl; try done.
  destruct (Z.eqb_spec x y), (Z.eqb_spec y z), (Z.eqb_spec x z); subst; rewrite ?Z.ltb_ge; try lia; eauto.
Qed.

(** A tag of plain numbers. *)
Definition plain_tag (tag : string) : Prop := exists parts, Forall number parts /\ tag = dotted parts.

(** On such tags [Less] is what [sort.Sort] asks for. *)
Lemma Less_ordering_on (P : string -> Prop) :
  (forall tag, P tag -> plain_tag tag) -> sort_ordering_on P SortableVersion_Less.
Proof.
  intros HP. split; intros x y z (v & Hv & ->)%HP (u & Hu & ->)%HP (w & Hw & ->)%HP;
    unfold SortableVersion_Less; rewrite !regexpSplit_dotted, !less_parts_numbers by done.
  - apply lex_less_trans.
  - apply lex_less_neg_trans.
Qed.

(** The last of the sorted tags is the greatest. *)
Lemma sort_versions_last `{GS : GoSort, !GoSortOn} tags newest tag :
  (forall t, t ∈ tags -> plain_tag t) -> last (sort_versions tags) = Some newest -> tag ∈ tags ->
  newest ∈ tags /\ (SortableVersion_Less newest tag = true -> SortableVersion_Less tag newest = true).
Proof.
  intros Hp Hl Hin. split.
  - rewrite <- (go_sort_perm SortableVersion_Less). by apply last_Some_elem_of.
  - eapply (in_order_last _ (sort_versions tags)); [|done|by unfold sort_versions; rewrite go_sort_perm].
    apply go_sort_in_order_on. by apply Less_ordering_on.
Qed.

Lemma sort_versions_nonempty `{GS : GoSort} tags :
  tags <> [] -> exists newest, last (sort_versions tags) = Some newest /\ newest ∈ tags.
Proof.
  intros Hne. pose proof (go_sort_perm SortableVersion_Less tags) as Hp. unfold sort_versions.
  destruct (last _) as [newest|] eqn:E.
  - exists newest. split; [done|]. rewrite <- Hp. by apply last_Some_elem_of.
  - apply last_None in E. rewrite E in Hp. by apply Permutation_nil_l in Hp.
Qed.

(** ** Numbers as they are written *)

Lemma pretty_digit x : (x < 10)%N -> pretty_N_char x = digit_char (Z.of_N x).
Proof.
  intros Hx. destruct (N.lt_ge_cases x 5), x as [|[[[|[]|]|[|[]|]|]|[[|[]|]|[|[]|]|]|]]; try done; lia.
Qed.
Lemma pretty_go_digits x ds :
  exists ds', pretty_N_go x (digits_text ds) = digits_text (ds' ++ ds) /\ digits_value ds' = Z.of_N x /\
    Forall (fun d => 0 <= d <= 9) ds' /\ (x <> 0%N -> ds' <> []).
Proof.
  revert ds. induction (N.lt_wf_0 x) as [x _ IH]; intros ds.
  destruct (decide (x = 0)%N) as [->|Hx]; [by exists []|].
  rewrite pretty_N_go_step by lia. pose proof (N.mod_lt x 10 ltac:(done)) as Hm.
  rewrite (pretty_digit _ Hm). change (String _ (digits_text ds)) with (digits_text (Z.of_N (x mod 10) :: ds)).
  destruct (IH (x / 10)%N ltac:(apply N.div_lt; lia) (Z.of_N (x mod 10) :: ds)) as (ds' & -> & Hv & Hd & _).
  exists (ds' ++ [Z.of_N (x mod 10)]). rewrite <- app_assoc. split_and!; [done| | |].
  - unfold digits_value in *. rewrite foldl_app, Hv. simpl. pose proof (N.div_mod x 10 ltac:(done)) as He.
    generalize dependent (x / 10)%N. generalize dependent (x mod 10)%N. intros. lia.
  - apply Forall_app. split; [done|]. constructor; [|done]. generalize dependent (x mod 10)%N. intros. lia.
  - intros _ Heq%app_nil. by destruct Heq.
Qed.

(** A number that is written and read again is the same. *)
Lemma Atoi_pretty (n : nat) : Z.of_nat n < 2 ^ 63 -> Atoi (pretty n) = Z.of_nat n.
Proof.
  intros Hn. destruct (decide (n = 0)%nat) as [->|Hne]; [done|].
  unfold pretty, pretty_nat, pretty, pretty_N. rewrite decide_False by lia.
  destruct (pretty_go_digits (N.of_nat n) []) as (ds & Heq & Hv & Hd & Hnil). simpl in Heq. rewrite Heq, app_nil_r.
  rewrite Atoi_digits; [lia|]. split_and!; [apply Hnil; lia|done|lia].
Qed.

(** ** Properties *)

(** tags of plain numbers, written in digits and separated by dots, are compared like
    the lists of their numbers: number by number from the left, a list before its
    extensions; leading zeros make no difference. *)
Theorem Less_compares_numbers v w :
  Forall number v -> Forall number w ->
  SortableVersion_Less (dotted v) (dotted w) = lex_less (digits_value <$> v) (digits_value <$> w).
Proof. intros Hv Hw. unfold SortableVersion_Less. rewrite !regexpSplit_dotted by done. by apply less_parts_numbers. Qed.

Lemma Less_compares_numbers_witness :
  SortableVersion_Less "1.9" "1.10.0" = true /\ SortableVersion_Less "1.10.0" "1.9" = false.
Proof.
  assert (Forall number [[1]; [9]] /\ Forall number [[1]; [1; 0]; [0]]) as [H1 H2].
  { split; repeat constructor; done || (vm_compute; congruence). }
  split.
  - exact (Less_compares_numbers [[1]; [9]] [[1]; [1; 0]; [0]] H1 H2).
  - exact (Less_compares_numbers [[1]; [1; 0]; [0]] [[1]; [9]] H2 H1).
Defined.

(** A letter before the number makes the number zero: version 2 comes before version 1.9.
    With other parts there are even circles, so the newest tag depends on the algorithm of
    the sort. *)
Theorem Less_ignores_prefixed_numbers :
  SortableVersion_Less "v2.0.0" "v1.9.0" = true /\ SortableVersion_Less "v1.9.0" "v2.0.0" = false /\
  ~ sort_ordering SortableVersion_Less /\
  SortableVersion_Less "1-rc1" "1-5" = true /\ SortableVersion_Less "1-5" "1-beta" = true /\
  SortableVersion_Less "1-beta" "1-rc1" = true.
Proof.
  split_and!; [done|done| |done..].
  intros [Ht _]. specialize (Ht "1-rc1" "1-5" "1-beta" eq_refl eq_refl).
  by specialize (Ht : SortableVersion_Less "1-rc1" "1-beta" = true).
Qed.
