(* ===== verification/HttpClient.v ===== *)
(** Model of [internal/util/http/client.go] and of the clients of Gitlab and Github that
    use it ([internal/util/gitlab/gitlab.go], [internal/util/github/github.go]): the requests
    they send, their headers and what they make of an answer.

    The network, the parser of URLs and the encoding as JSON are parameters. *)

From S2P Require Import Prelude.
From S2P Require Import GoRuntime.
From S2P Require Import Errors.
From S2P Require Import ConfigTypes.
From S2P Require Import TeamTypes.
From Stdlib Require Import Ascii.
Open Scope string_scope.
Open Scope list_scope.
Open Scope Z_scope.

(** ** Texts *)

Definition is_upper (c : ascii) : bool := let n := N_of_ascii c in (65 <=? n)%N && (n <=? 90)%N.
Definition is_lower (c : ascii) : bool := let n := N_of_ascii c in (97 <=? n)%N && (n <=? 122)%N.
Definition is_digit (c : ascii) : bool := let n := N_of_ascii c in (48 <=? n)%N && (n <=? 57)%N.
Definition to_upper (c : ascii) : ascii := if is_lower c then ascii_of_N (N_of_ascii c - 32) else c.
Definition hex_digit (n : N) : ascii := ascii_of_N (if (n <? 10)%N then 48 + n else 55 + n).

(** [url.QueryEscape]. *)
Fixpoint QueryEscape (s : string) : string :=
  match s with
  | EmptyString => ""
  | String c s' =>
      if is_upper c || is_lower c || is_digit c ||
         Ascii.eqb c "-"%char || Ascii.eqb c "_"%char || Ascii.eqb c "."%char || Ascii.eqb c "~"%char
      then String c (QueryEscape s')
      else if Ascii.eqb c " "%char then String "+"%char (QueryEscape s')
      else String "%"%char (String (hex_digit (N_of_ascii c / 16))
             (String (hex_digit (N_of_ascii c mod 16)) (QueryEscape s')))
  end.

(** [http.CanonicalHeaderKey], for a key of letters, digits and hyphens: the first letter
    and those after a hyphen are capitals.  Other keys stay as they are. *)
Fixpoint header_text (s : string) : bool :=
  match s with
  | EmptyString => true
  | String c s' => (is_upper c || is_lower c || is_digit c || Ascii.eqb c "-"%char) && header_text s'
  end.
Fixpoint capitalized (up : bool) (s : string) : string :=
  match s with
  | EmptyString => ""
  | String c s' => String (if up then to_upper c else ascii_lower c) (capitalized (Ascii.eqb c "-"%char) s')
  end.
Definition CanonicalHeaderKey (key : string) : string := if header_text key then capitalized true key else key.

(** ** Requests *)

Record Request := mkRequest {
  rq_Method : string;
  rq_URL : string;
  rq_Header : gmap string string;
  rq_BasicAuth : option (string * string);
  rq_Body : string;
}.
Record HttpClient := mkHttpClient {
  hc_BaseURL : string;
  hc_InsecureSkipVerify : bool;
  hc_Timeout : Duration;
  hc_req : option Request;
  hc_username : string;
  hc_password : string;
}.
#[export] Instance eta_Request : Eta Request := fun x =>
  mkRequest (rq_Method x) (rq_URL x) (rq_Header x) (rq_BasicAuth x) (rq_Body x).
#[export] Instance eta_HttpClient : Eta HttpClient := fun x =>
  mkHttpClient (hc_BaseURL x) (hc_InsecureSkipVerify x) (hc_Timeout x) (hc_req x) (hc_username x) (hc_password x).

(** What a request is answered with; reading the body may fail. *)
Record Response := mkResponse { rs_StatusCode : Z; rs_Body : error + string }.

(** The transport, with the time that a client allows for a request; [url.Parse] and
    [String]; a URL whose path is joined with another. *)
Class HttpTransport (W : Type) := {
  http_Do : bool -> Duration -> Request -> M W Response;
  url_Parse : string -> error + string;
  url_JoinPath : string -> string -> string;
}.

Definition HttpOption : Type := HttpClient -> HttpClient.
Definition WithSkipTLSVerify : HttpOption := fun c => c <| hc_InsecureSkipVerify := true |>.
Definition WithTimeout (timeout : Duration) : HttpOption := fun c => c <| hc_Timeout := timeout |>.
(** The end of the context is an event of the caller. *)
Definition WithContext : HttpOption := fun c => c.
Definition WithHeader (key value : string) : HttpOption := fun c =>
  match hc_req c with
  | None => c
  | Some req => c <| hc_req := Some (req <| rq_Header ::= <[CanonicalHeaderKey key := value]> |>) |>
  end.
Definition WithBasicAuth (username password : string) : HttpOption := fun c =>
  c <| hc_username := username |> <| hc_password := password |>.

Section http.
Context {W : Type} `{HT : HttpTransport W}.

(** [http.NewRequest]. *)
Definition NewRequest (method url body : string) : error + Request :=
  match url_Parse (W:=W) url with
  | inl err => inl err
  | inr url => inr (mkRequest method url ∅ None body)
  end.

(** An answer outside 200 to 299 is an error with the status and the body as its text. *)
Definition http_request (c : HttpClient) (req : Request) : M W (Z * (error + string)) :=
  let req := if String.eqb (default "" (rq_Header req !! "Content-Type")) ""
             then req <| rq_Header ::= <["Content-Type" := "application/json"]> |> else req in
  let req := if negb (String.eqb (hc_username c) "") && negb (String.eqb (hc_password c) "")
             then req <| rq_BasicAuth := Some (hc_username c, hc_password c) |> else req in
  do r <- attempt (http_Do (hc_InsecureSkipVerify c) (hc_Timeout c) req);
  match r with
  | inl err => mret (0, inl err)
  | inr resp =>
      match rs_Body resp with
      | inl err => mret (rs_StatusCode resp, inl err)
      | inr body =>
          if (200 <=? rs_StatusCode resp) && (rs_StatusCode resp <? 300) then mret (rs_StatusCode resp, inr body)
          else mret (rs_StatusCode resp, inl (Errors.New (pretty (rs_StatusCode resp) +:+ " - " +:+ body)))
      end
  end.

(** The functions of the package: the options see the request. *)
Definition http_send (method reqURI data : string) (opts : list HttpOption) : M W (Z * (error + string)) :=
  match url_Parse (W:=W) reqURI with
  | inl err => mret (0, inl err)
  | inr reqURL =>
      match NewRequest method reqURL data with
      | inl err => mret (0, inl err)
      | inr req =>
          let client := foldl (fun c opt => opt c) (mkHttpClient "" false 0 (Some req) "" "") opts in
          http_request client (default req (hc_req client))
      end
  end.
Definition http_Get (reqURI : string) (opts : list HttpOption) : M W (Z * (error + string)) :=
  http_send "GET" reqURI "" opts.
Definition http_Post (reqURI data : string) (opts : list HttpOption) : M W (Z * (error + string)) :=
  http_send "POST" reqURI data opts.
Definition http_Delete (reqURI : string) (opts : list HttpOption) : M W (Z * (error + string)) :=
  http_send "DELETE" reqURI "" opts.

(** The methods of a client: the options change the client, which has no request. *)
Definition client_send (method reqURI data : string) (opts : list HttpOption)
    : M (W * HttpClient) (Z * (error + string)) :=
  do c <- get_obj;
  match url_Parse (W:=W) (hc_BaseURL c) with
  | inl err => mret (0, inl err)
  | inr baseURL =>
      match NewRequest method (url_JoinPath (W:=W) baseURL reqURI) data with
      | inl err => mret (0, inl err)
      | inr req =>
          run mod_obj (fun c => foldl (fun c opt => opt c) c opts);
          do c <- get_obj;
          onW (http_request c req)
      end
  end.
Definition client_Delete (reqURI : string) (opts : list HttpOption) : M (W * HttpClient) (Z * (error + string)) :=
  client_send "DELETE" reqURI "" opts.
Definition client_Post (reqURI data : string) (opts : list HttpOption) : M (W * HttpClient) (Z * (error + string)) :=
  client_send "POST" reqURI data opts.
Definition client_Get (reqURI : string) (opts : list HttpOption) : M (W * HttpClient) (Z * (error + string)) :=
  client_send "GET" reqURI "" opts.

(** [NewClient] ends the process when the URL cannot be parsed: [None]. *)
Definition NewHttpClient (baseURL : string) (opts : list HttpOption) : option HttpClient :=
  match url_Parse (W:=W) baseURL with
  | inl _ => None
  | inr baseURL => Some (foldl (fun c opt => opt c) (mkHttpClient baseURL false 0 None "" "") opts)
  end.
End http.

(** How many requests a goroutine gets done before the deadline of its caller. *)
Class Deadline (W : Type) := before_deadline : W -> nat * W.
(** The work of a goroutine, up to the deadline: [None] when it is not done by then. *)
Definition by_deadline {W A} `{Deadline W} (work : nat -> M W (option A)) : M W (option A) := fun w =>
  let (n, w) := before_deadline w in work n w.

(** ** The clients of Gitlab and Github *)

Definition gitRequestTimeout : Duration := 5 * Second.

Inductive CommitStatus := CommitStatusSuccess | CommitStatusFailure | CommitStatusPending.
(** The two services have different words for a failure; Github is never told of a pending one. *)
Definition gitlab_state (status : CommitStatus) : string :=
  match status with
  | CommitStatusSuccess => "success" | CommitStatusFailure => "failed" | CommitStatusPending => "pending"
  end.
Definition github_state (status : CommitStatus) : string :=
  match status with
  | CommitStatusSuccess => "success" | CommitStatusFailure => "failure" | CommitStatusPending => "pending"
  end.
Record GitClient := mkGitClient { gc_baseURL : string; gc_token : string }.

(** Encoding an object of texts, and the source branch in the answer of Gitlab. *)
Class GitJSON := {
  json_object : list (string * string) -> string;
  json_SourceBranch : string -> error + string;
}.

Section git.
Context {W : Type} `{HT : HttpTransport W, GO : GoSchedule W, GJ : GitJSON}.

(** The request runs beside the caller, which may have given up when its answer comes. *)
Definition within_request_time (m : M W (Z * (error + string))) : M W string :=
  do ' (_, r) <- m;
  do timeout <- coin;
  if (timeout : bool) then throw ErrRequestTimeout
  else match r with inl err => throw err | inr res => mret res end.

Definition gitlab_opts (token : string) : list HttpOption :=
  [WithTimeout gitRequestTimeout; WithContext; WithHeader "PRIVATE-TOKEN" token].
Definition gitlab_PublishCommitStatus (c : GitClient)
    (repository commitSHA labelName targetURL description : string) (status : CommitStatus) : M W unit :=
  let commitStatusAPI := gc_baseURL c +:+ "/api/v4/projects/" +:+ QueryEscape repository +:+ "/statuses/" +:+ commitSHA in
  let reqBody := json_object [("state", gitlab_state status); ("target_url", targetURL); ("description", description);
                              ("context", labelName); ("private_token", gc_token c)] in
  run within_request_time (http_Post commitStatusAPI reqBody (gitlab_opts (gc_token c)));
  mret tt.
Definition gitlab_GetMRSourceBranch (c : GitClient) (repository MRiid : string) : M W string :=
  let getMRSourceBranchAPI := gc_baseURL c +:+ "/api/v4/projects/" +:+ QueryEscape repository +:+
                              "/merge_requests/" +:+ QueryEscape MRiid in
  do res <- within_request_time (http_Get getMRSourceBranchAPI (gitlab_opts (gc_token c)));
  match json_SourceBranch res with inl err => throw err | inr branch => mret branch end.

Definition github_PublishCommitStatus (c : GitClient)
    (repository commitSHA labelName targetURL description : string) (status : CommitStatus) : M W unit :=
  let commitStatusAPI := gc_baseURL c +:+ "/api/v3/repos/" +:+ repository +:+ "/statuses/" +:+ commitSHA in
  let reqBody := json_object [("state", github_state status); ("target_url", targetURL); ("description", description);
                              ("context", labelName)] in
  run within_request_time (http_Post commitStatusAPI reqBody
    [WithTimeout gitRequestTimeout; WithContext; WithHeader "Authorization" ("token " +:+ gc_token c)]);
  mret tt.
End git.
