(* ===== verification/Checkers.v ===== *)
(** Model of the checkers of image versions: [internal/samsahai/checker/harbor],
    [internal/samsahai/checker/publicregistry] and [internal/samsahai/checker/samsahai].
    Each answers which tag of an image matches a pattern.  Plugins are in [Commands].

    A checker of a registry asks for one page of tags after the other in a goroutine, and
    answers that it timed out when the deadline comes first: the deadline is a number of
    requests, which the world decides.  The request that the deadline interrupts fails, too,
    with the error of its context; the [select] has been waiting on the channel of that
    context for a minute by then, and is settled when the channel is closed, before the
    request returns: the model answers with the time-out alone.  What the goroutine does
    after the deadline is not followed.  Regular expressions, the parser of image names and the bodies of the
    registries' answers are parameters. *)

From S2P Require Import Prelude.
From S2P Require Import GoRuntime.
From S2P Require Import Errors.
From S2P Require Import KubeApi.
From S2P Require Import ConfigTypes.
From S2P Require Import ComponentTypes.
From S2P Require Import QueueTypes.
From S2P Require Import TeamTypes.
From S2P Require Import Interfaces.
From S2P Require Import SamsahaiCtrl.
From S2P Require Import Reporters.
From S2P Require Import Versions.
From S2P Require Import HttpClient.
From S2P Require Import S2hRpc.
From Stdlib Require Import Ascii.
Open Scope string_scope.
Open Scope list_scope.
Open Scope Z_scope.

(** ** What the checkers use *)

(** [regexp.Compile], with [MatchString] of its result. *)
Class GoRegexp := regexp_Compile : string -> error + (string -> bool).
(** [reference.ParseNormalizedNamed], with [Domain] and [Path] of its result. *)
Class ImageNames := ParseNormalizedNamed : string -> error + (string * string).

Record dockerioJSON := mkDockerioJSON { dk_Next : string; dk_Tags : list string }.
Record quayioJSON := mkQuayioJSON { qy_HasAdditional : bool; qy_Tags : list string }.
(** [json.Unmarshal] of the answers; of Harbor's, the tags of each artifact. *)
Class RegistryJSON := {
  json_harbor : string -> error + list (list string);
  json_dockerio : string -> error + dockerioJSON;
  json_quayio : string -> error + quayioJSON;
}.

Definition MaxRequestsTimeout : Duration := 60 * Second.
Definition MaxOneRequestTimeout : Duration := 10 * Second.

(** What [GetVersion] answers with. *)
Definition answer : Type := string * option error.
Definition refused {S} (err : error) : M S answer := mret ("", Some err).

Section registries.
Context {W : Type} `{HT : HttpTransport W, DL : Deadline W, RX : GoRegexp, IN : ImageNames, RJ : RegistryJSON, GS : GoSort}.

(** One page: [None] when it is not the last, and what comes out otherwise. *)
Definition page_result : Type := option (error + string).

(** The [select]: no result before the deadline is a time-out. *)
Definition select_answer (pattern : string) (r : page_result) : answer :=
  match r with
  | None => (pattern, Some ErrRequestTimeout)
  | Some (inl err) => (pattern, Some err)
  | Some (inr tag) => (tag, None)
  end.
Definition registry_opts : list HttpOption := [WithTimeout MaxOneRequestTimeout; WithContext].
Definition get_page {A} (reqURL : string) (opts : list HttpOption) (decode : string -> error + A) : M W (error + A) :=
  do ' (_, r) <- http_Get reqURL opts;
  mret (match r with inl err => inl err | inr data => decode data end).

(** What both checkers of registries do first. *)
Definition with_matcher (repository pattern : string)
    (k : string -> string -> string -> (string -> bool) -> M W answer) : M W answer :=
  let pattern := if String.eqb pattern "" then ".*" else pattern in
  match ParseNormalizedNamed repository with
  | inl err => refused err
  | inr (domain, repo) =>
      match regexp_Compile pattern with
      | inl err => refused err
      | inr matcher => k pattern domain repo matcher
      end
  end.
Definition until_deadline (pages : nat -> M W page_result) (pattern : string) : M W answer := fun w =>
  let (n, w) := before_deadline w in
  (do r <- pages n; mret (select_answer pattern r)) w.

(** ** Harbor *)

Definition pageSize : Z := 100.
Definition maximumPages : Z := 100.

(** [strings.Split(s, sep)] for one character. *)
Fixpoint split_on (sep : ascii) (s : string) : list string :=
  match s with
  | EmptyString => [""]
  | String c s' =>
      if Ascii.eqb c sep then "" :: split_on sep s' else
      match split_on sep s' with
      | [] => [String c ""]
      | part :: rest => String c part :: rest
      end
  end.
(** Harbor wants the name of the repository escaped twice. *)
Definition doubleEscapeParam (str : string) : string := QueryEscape (QueryEscape str).
Definition extractProjectAndRepository (fullRepository : string) : string * string :=
  match split_on "/"%char fullRepository with
  | project :: _ :: _ => (project, doubleEscapeParam (ReplaceAll fullRepository (project +:+ "/") ""))
  | _ => ("", "")
  end.

Definition harbor_url (domain project repository : string) (currentPage : Z) : string :=
  "https://" +:+ domain +:+ "/api/v2.0/projects/" +:+ project +:+ "/repositories/" +:+ repository +:+
  "/artifacts?tags=*&page=" +:+ pretty currentPage +:+ "&page_size=" +:+ pretty pageSize.
Definition matching_tags (matcher : string -> bool) (respJSON : list (list string)) : list string :=
  List.filter matcher (concat respJSON).

Fixpoint harbor_pages (httpOpts : list HttpOption) (domain project repository : string) (matcher : string -> bool)
    (currentPage : Z) (matchedTags : list string) (n : nat) : M W page_result :=
  match n with
  | O => mret None
  | S n =>
      let currentPage := currentPage + 1 in
      do r <- get_page (harbor_url domain project repository currentPage) (registry_opts ++ httpOpts) json_harbor;
      match r with
      | inl err => mret (Some (inl err))
      | inr respJSON =>
          let matchedTags := matchedTags ++ matching_tags matcher respJSON in
          match last (sort_versions matchedTags) with
          | Some newest => mret (Some (inr newest))
          | None =>
              if (length respJSON =? 0)%nat || (maximumPages <=? currentPage)
              then mret (Some (inl ErrImageVersionNotFound))
              else harbor_pages httpOpts domain project repository matcher currentPage matchedTags n
          end
      end
  end.
Definition harbor_invalid (fullRepository : string) : error :=
  Errors.New ("invalid image repository of harbor, expected `<project_name>/<repository_name>`, got " +:+ fullRepository).
Definition harbor_check (httpOpts : list HttpOption) (domain fullRepository : string) (matcher : string -> bool)
    (n : nat) : M W page_result :=
  let '(project, repository) := extractProjectAndRepository fullRepository in
  if String.eqb project "" || String.eqb repository "" then mret (Some (inl (harbor_invalid fullRepository)))
  else harbor_pages httpOpts domain project repository matcher 0 [] n.

Definition harbor_GetVersion (httpOpts : list HttpOption) (repository name pattern : string) : M W answer :=
  with_matcher repository pattern (fun pattern domain repo matcher =>
    until_deadline (harbor_check httpOpts domain repo matcher) pattern).

(** ** Public registries *)

Definition dockerioAPIURL : string := "https://hub.docker.com/v2/repositories".
Definition dockerioDomain : string := "docker.io".
Definition quayioAPIURL : string := "https://quay.io/api/v1/repository".
Definition quayioDomain : string := "quay.io".

(** The next page is where the answer says. *)
Fixpoint dockerio_pages (matcher : string -> bool) (reqURL : string) (n : nat) : M W page_result :=
  match n with
  | O => mret None
  | S n =>
      do r <- get_page reqURL registry_opts json_dockerio;
      match r with
      | inl err => mret (Some (inl err))
      | inr respJSON =>
          match List.find matcher (dk_Tags respJSON) with
          | Some tag => mret (Some (inr tag))
          | None =>
              if String.eqb (dk_Next respJSON) "" then mret (Some (inl ErrImageVersionNotFound))
              else dockerio_pages matcher (dk_Next respJSON) n
          end
      end
  end.
Definition DockerHubFindTag (repository : string) (matcher : string -> bool) (n : nat) : M W page_result :=
  dockerio_pages matcher (dockerioAPIURL +:+ "/" +:+ repository +:+ "/tags/?page=1") n.

Definition quayio_url (repo : string) (page : Z) : string :=
  quayioAPIURL +:+ "/" +:+ repo +:+ "/tag/?onlyActiveTags=true&page=" +:+ pretty page.
Fixpoint quayio_pages (matcher : string -> bool) (repo : string) (page : Z) (n : nat) : M W page_result :=
  match n with
  | O => mret None
  | S n =>
      do r <- get_page (quayio_url repo page) registry_opts json_quayio;
      match r with
      | inl err => mret (Some (inl err))
      | inr respJSON =>
          match List.find matcher (qy_Tags respJSON) with
          | Some tag => mret (Some (inr tag))
          | None =>
              if negb (qy_HasAdditional respJSON) then mret (Some (inl ErrImageVersionNotFound))
              else quayio_pages matcher repo (page + 1) n
          end
      end
  end.
Definition QuayIOFindTag (repo : string) (matcher : string -> bool) (n : nat) : M W page_result :=
  quayio_pages matcher repo 1 n.

Definition public_GetVersion (repository name pattern : string) : M W answer :=
  with_matcher repository pattern (fun pattern domain repo matcher =>
    if String.eqb domain dockerioDomain then until_deadline (DockerHubFindTag repo matcher) pattern
    else if String.eqb domain quayioDomain then until_deadline (QuayIOFindTag repo matcher) pattern
    else refused (Errors.New ("repository not supported: " +:+ domain))).

(** [EnsureVersion]: the version is the pattern. *)
Definition ensure_version (GetVersion : string -> string -> string -> M W answer) (repository name version : string)
    : M W unit :=
  do ' (_, err) <- GetVersion repository name version;
  match err with Some err => throw err | None => mret tt end.
Definition harbor_EnsureVersion (httpOpts : list HttpOption) : string -> string -> string -> M W unit :=
  ensure_version (harbor_GetVersion httpOpts).
Definition public_EnsureVersion : string -> string -> string -> M W unit := ensure_version public_GetVersion.

Definition harbor_checker (httpOpts : list HttpOption) : Checker W :=
  mkChecker W (harbor_GetVersion httpOpts) (harbor_EnsureVersion httpOpts).
Definition public_checker : Checker W := mkChecker W public_GetVersion public_EnsureVersion.
End registries.

(** ** The stable components of other teams *)

Definition HarborCheckerName : string := "harbor".
Definition PublicRegistryCheckerName : string := "public-registry".
Definition SamsahaiCheckerName : string := "samsahai-stable".

Section stable.
Context {W : Type} `{CC : ConfigController W, KTeam : KClient W Team, RX : GoRegexp, GS : GoSort}.

(** The stable version of component [name] of one team, when it counts: the team has the
    component, from another source, and stable from the same repository. *)
Definition stable_version (matcher : string -> bool) (repository name : string) (teamComp : Team) : M W (option string) :=
  let teamName := kname teamComp in
  if negb (matcher teamName) then mret None else
  do comps <- wrapping "cannot get config controller" (cfg_GetComponents teamName);
  match comps !! name with
  | None => mret None
  | Some comp =>
      match cp_Source comp with
      | None => mret None
      | Some source =>
          if String.eqb source SamsahaiCheckerName then mret None else
          do r <- attempt (fetchTeam teamName);
          match r with
          | inl err => if IsNotFound err then mret None else throw (Wrap err "cannot get team")
          | inr team =>
              match tst_StableComponents (team_Status team) !! name with
              | None => mret None
              | Some stableComp =>
                  if negb (String.eqb repository "") && negb (String.eqb (sc_Repository (stable_Spec stableComp)) repository)
                  then mret None else mret (Some (sc_Version (stable_Spec stableComp)))
              end
          end
      end
  end.
Fixpoint stable_versions (matcher : string -> bool) (repository name : string) (teamList : list Team) : M W (list string) :=
  match teamList with
  | [] => mret []
  | teamComp :: rest =>
      do version <- stable_version matcher repository name teamComp;
      do versions <- stable_versions matcher repository name rest;
      mret (match version with Some version => version :: versions | None => versions end)
  end.

(** The pattern is for the names of teams. *)
Definition samsahai_GetVersion (repository name pattern : string) : M W answer :=
  let pattern := if String.eqb pattern "" then ".*" else pattern in
  match regexp_Compile pattern with
  | inl err => refused err
  | inr matcher =>
      do r <- attempt (do teamList <- GetTeams; stable_versions matcher repository name teamList);
      match r with
      | inl err => refused err
      | inr matchedTags =>
          match last (sort_versions matchedTags) with
          | None => refused ErrImageVersionNotFound
          | Some newest => mret (newest, None)
          end
      end
  end.
Definition samsahai_EnsureVersion : string -> string -> string -> M W unit := ensure_version samsahai_GetVersion.
Definition samsahai_checker : Checker W := mkChecker W samsahai_GetVersion samsahai_EnsureVersion.
End stable.
