(* ===== verification/CheckerClaims.v ===== *)
(** The properties of the checkers of image versions. *)

From S2P Require Import Prelude.
From S2P Require Import GoRuntime.
From S2P Require Import Errors.
From S2P Require Import KubeApi.
From S2P Require Import ConfigTypes.
From S2P Require Import ComponentTypes.
From S2P Require Import QueueTypes.
From S2P Require Import TeamTypes.
From S2P Require Import Interfaces.
From S2P Require Import SamsahaiCtrl.
From S2P Require Import Reporters.
From S2P Require Import Versions.
From S2P Require Import HttpClient.
From S2P Require Import Checkers.
From S2P Require Import RpcTypes.
From S2P Require Import S2hRpc.
From Stdlib Require Import Ascii.
Open Scope string_scope.
Open Scope list_scope.
Open Scope Z_scope.

Lemma sort_versions_nil `{GS : GoSort} : sort_versions [] = [].
Proof.
  unfold sort_versions. pose proof (go_sort_perm SortableVersion_Less []) as Hp.
  by apply Permutation_nil_r in Hp.
Qed.

Lemma lex_less_asym l k : lex_less l k = true -> lex_less k l = false.
Proof.
  revert k. induction l as [|x l IH]; intros [|y k]; simpl; try done.
  destruct (Z.eqb_spec x y), (Z.eqb_spec y x); subst; rewrite ?Z.ltb_lt, ?Z.ltb_ge; try lia; eauto.
Qed.

(** The last of the sorted tags is not before any other. *)
Lemma sort_versions_newest `{GS : GoSort, !GoSortOn} tags newest tag :
  (forall t, t ∈ tags -> plain_tag t) -> last (sort_versions tags) = Some newest -> tag ∈ tags ->
  SortableVersion_Less newest tag = false.
Proof.
  intros Hp Hl Hin. destruct (sort_versions_last tags newest tag Hp Hl Hin) as [Hn Hord].
  destruct (SortableVersion_Less newest tag) eqn:E; [|done]. specialize (Hord eq_refl).
  destruct (Hp _ Hn) as (v & Hv & ->), (Hp _ Hin) as (u & Hu & ->).
  unfold SortableVersion_Less in *. rewrite !regexpSplit_dotted, !less_parts_numbers in E, Hord by done.
  apply lex_less_asym in E. congruence.
Qed.

(** ** Harbor *)

Section harbor.
Context {W : Type} `{HT : HttpTransport W, DL : Deadline W, RX : GoRegexp, IN : ImageNames, RJ : RegistryJSON, GS : GoSort}.
Context (httpOpts : list HttpOption) (domain project repository : string) (matcher : string -> bool).

Notation pages := (harbor_pages (W:=W) httpOpts domain project repository matcher).
Notation page p := (get_page (W:=W) (harbor_url domain project repository p) (registry_opts ++ httpOpts) json_harbor).

(** After the last page there is an answer: more time changes nothing. *)
Lemma harbor_pages_end p tags n w :
  0 <= p <= maximumPages -> (Z.to_nat (maximumPages - p) <= n)%nat -> p < maximumPages ->
  pages p tags n w = pages p tags (Z.to_nat (maximumPages - p)) w /\ fst (pages p tags n w) <> Ok None.
Proof.
  remember (Z.to_nat (maximumPages - p)) as k eqn:Hk. revert p tags n w Hk.
  induction k as [|k IH]; intros p tags n w Hk Hp Hn Hlt; [lia|].
  destruct n as [|n]; [lia|]. cbn [harbor_pages].
  unfold mbind, M_bind. destruct (page (p + 1) w) as [[[err|resp]|e|q] w']; try done.
  destruct (last (sort_versions (tags ++ matching_tags matcher resp))) as [newest|]; [done|].
  destruct ((length resp =? 0)%nat || (maximumPages <=? p + 1)) eqn:E; [done|].
  apply orb_false_iff in E as [_ E%Z.leb_gt]. apply IH; lia.
Qed.

Context (serve : Z -> list (list string)).
Context (Hserve : forall p w, fst (page p w) = Ok (inr (serve p))).

(** The pages up to the first with a match are read, and the last of its sorted matches is
    the answer. *)
Lemma harbor_pages_find p k n w :
  0 <= p -> p + Z.of_nat (S k) <= maximumPages -> (S k <= n)%nat ->
  (forall i, p < i <= p + Z.of_nat k -> serve i <> [] /\ matching_tags matcher (serve i) = []) ->
  matching_tags matcher (serve (p + Z.of_nat (S k))) <> [] ->
  exists newest, fst (pages p [] n w) = Ok (Some (inr newest)) /\
    last (sort_versions (matching_tags matcher (serve (p + Z.of_nat (S k))))) = Some newest.
Proof.
  revert p n w. induction k as [|k IH]; intros p n w Hp Hmax Hn Hskip Hmatch; (destruct n as [|n]; [lia|]);
    cbn [harbor_pages]; rewrite (bind_ok _ _ _ _ (Hserve _ _)), app_nil_l.
  - replace (p + Z.of_nat 1) with (p + 1) in * by lia.
    destruct (sort_versions_nonempty _ Hmatch) as (newest & Hl & _). exists newest. by rewrite Hl.
  - destruct (Hskip (p + 1)) as [Hne Hno]; [lia|]. rewrite Hno, sort_versions_nil. cbn [last].
    destruct (serve (p + 1)) as [|a l] eqn:Hs; [done|]. cbn [length Nat.eqb orb].
    destruct (Z.leb_spec maximumPages (p + 1)); [lia|].
    replace (p + Z.of_nat (S (S k))) with (p + 1 + Z.of_nat (S k)) in * by lia.
    apply IH; [lia|lia|lia| |done]. intros i Hi. apply Hskip. lia.
Qed.
End harbor.

(** C24: the checker of Harbor answers the last of the sorted tags that match the pattern, on
    the first page that has any, provided that page is among the first hundred and is read
    before the deadline; later pages are not asked for, whatever they hold.  When all those
    tags are plain numbers, no tag of the page that matches is greater than the answer; of
    other tags there is no order ([Versions.Less_ignores_prefixed_numbers]). *)
Theorem harbor_answers_newest {W : Type}
    `{HT : HttpTransport W, DL : Deadline W, RX : GoRegexp, IN : ImageNames, RJ : RegistryJSON, GS : GoSort, !GoSortOn}
    (httpOpts : list HttpOption) (image name pattern domain path project repository : string)
    (matcher : string -> bool) (serve : Z -> list (list string)) (k : nat) (w : W)
    (Himage : ParseNormalizedNamed image = inr (domain, path))
    (Hpattern : pattern <> "" /\ regexp_Compile pattern = inr matcher)
    (Hpath : extractProjectAndRepository path = (project, repository) /\ project <> "" /\ repository <> "")
    (Hserve : forall p w, fst (get_page (W:=W) (harbor_url domain project repository p)
                                 (registry_opts ++ httpOpts) json_harbor w) = Ok (inr (serve p)))
    (Hskip : forall i, 0 < i <= Z.of_nat k -> serve i <> [] /\ matching_tags matcher (serve i) = [])
    (Hfound : matching_tags matcher (serve (Z.of_nat (S k))) <> [])
    (Htime : (S k <= 100)%nat /\ (S k <= fst (before_deadline w))%nat) :
  let matching := matching_tags matcher (serve (Z.of_nat (S k))) in
  exists newest, fst (harbor_GetVersion httpOpts image name pattern w) = Ok (newest, None) /\
    newest ∈ matching /\ last (sort_versions matching) = Some newest /\
    ((forall tag, tag ∈ matching -> plain_tag tag) ->
     forall tag, tag ∈ matching -> SortableVersion_Less newest tag = false).
Proof.
  destruct Hpattern as [Hne Hrx], Hpath as (Hex & Hp & Hr), Htime as [H100 Hdl].
  unfold harbor_GetVersion, with_matcher. rewrite (proj2 (String.eqb_neq _ _) Hne), Himage, Hrx.
  unfold until_deadline. destruct (before_deadline w) as [n w'] eqn:Hn. simpl in Hdl.
  unfold harbor_check. rewrite Hex, (proj2 (String.eqb_neq _ _) Hp), (proj2 (String.eqb_neq _ _) Hr). cbn [orb].
  destruct (harbor_pages_find httpOpts domain project repository matcher serve Hserve 0 k n w')
    as (newest & Heq & Hl); [lia|unfold maximumPages; lia|lia|done|done|].
  rewrite Z.add_0_l in Hl. exists newest. split_and!.
  - by rewrite (bind_ok _ _ _ _ Heq).
  - rewrite <- (go_sort_perm SortableVersion_Less). by apply last_Some_elem_of.
  - exact Hl.
  - intros Hplain tag Hin. by eapply sort_versions_newest.
Qed.

(** the checker of Harbor asks for at most a hundred pages: whatever Harbor answers, more
    time than that changes neither the answer nor the world, and the search has ended by
    itself. *)
Theorem harbor_search_ends {W : Type} `{HT : HttpTransport W, RJ : RegistryJSON, GS : GoSort}
    (httpOpts : list HttpOption) (domain path : string) (matcher : string -> bool) (n : nat) (w : W)
    (Hn : (100 <= n)%nat) :
  harbor_check httpOpts domain path matcher n w = harbor_check httpOpts domain path matcher 100 w /\
  fst (harbor_check httpOpts domain path matcher n w) <> Ok None.
Proof.
  unfold harbor_check. destruct (extractProjectAndRepository path) as [project repository].
  destruct (String.eqb project "" || String.eqb repository ""); [done|].
  apply (harbor_pages_end httpOpts domain project repository matcher 0 [] n w); unfold maximumPages; lia.
Qed.

(** ** Public registries *)

Section public.
Context {W : Type} `{HT : HttpTransport W, DL : Deadline W, RX : GoRegexp, IN : ImageNames, RJ : RegistryJSON}.
Context (matcher : string -> bool).

(** The pages of Docker Hub from [url] on. *)
Inductive dockerio_listing : string -> list (list string) -> Prop :=
| dockerio_last url tags :
    (forall w, fst (get_page (W:=W) url registry_opts json_dockerio w) = Ok (inr (mkDockerioJSON "" tags))) ->
    dockerio_listing url [tags]
| dockerio_more url next tags rest :
    (forall w, fst (get_page (W:=W) url registry_opts json_dockerio w) = Ok (inr (mkDockerioJSON next tags))) ->
    next <> "" -> dockerio_listing next rest -> dockerio_listing url (tags :: rest).

(** What is found on [pages] in the time for [n] of them. *)
Definition first_match (pages : list (list string)) (n : nat) : page_result :=
  match List.find matcher (concat (take n pages)) with
  | Some tag => Some (inr tag)
  | None => if (n <? length pages)%nat then None else Some (inl ErrImageVersionNotFound)
  end.

Lemma find_app (l k : list string) :
  List.find matcher (l ++ k) = match List.find matcher l with Some tag => Some tag | None => List.find matcher k end.
Proof. induction l as [|x l IH]; simpl; [done|]. by destruct (matcher x). Qed.

Lemma first_match_cons tags pages n :
  first_match (tags :: pages) (S n) =
    match List.find matcher tags with Some tag => Some (inr tag) | None => first_match pages n end.
Proof. unfold first_match. cbn [take concat length]. rewrite find_app. by destruct (List.find matcher tags). Qed.

Lemma dockerio_pages_find url pages n w :
  dockerio_listing url pages -> fst (dockerio_pages (W:=W) matcher url n w) = Ok (first_match pages n).
Proof.
  intros Hl. revert n w. induction Hl as [url tags Hs|url next tags rest Hs Hne Hl IH]; intros [|n] w; try done;
    cbn [dockerio_pages]; rewrite (bind_ok _ _ _ _ (Hs _)), first_match_cons; cbn [dk_Tags dk_Next];
    destruct (List.find matcher tags); [done| |done|].
  - unfold first_match. by rewrite take_nil.
  - by rewrite (proj2 (String.eqb_neq _ _) Hne).
Qed.

(** The pages of Quay from [page] on. *)
Fixpoint quayio_listing (repo : string) (page : Z) (pages : list (list string)) : Prop :=
  match pages with
  | [] => False
  | tags :: rest =>
      (forall w, fst (get_page (W:=W) (quayio_url repo page) registry_opts json_quayio w) =
                 Ok (inr (mkQuayioJSON (match rest with [] => false | _ => true end) tags))) /\
      match rest with [] => True | _ => quayio_listing repo (page + 1) rest end
  end.

Lemma quayio_pages_find repo page pages n w :
  quayio_listing repo page pages -> fst (quayio_pages (W:=W) matcher repo page n w) = Ok (first_match pages n).
Proof.
  revert page n w. induction pages as [|tags rest IH]; intros page [|n] w; [done|done|done|]. intros [Hs Hrest].
  cbn [quayio_pages]. rewrite (bind_ok _ _ _ _ (Hs _)), first_match_cons. cbn [qy_Tags qy_HasAdditional].
  destruct (List.find matcher tags); [done|]. destruct rest as [|tags' rest]; [|by apply IH].
  unfold first_match. by rewrite take_nil.
Qed.

Lemma until_deadline_answer (pages : nat -> M W page_result) pattern r w :
  (forall n w', fst (pages n w') = Ok (r n)) ->
  fst (until_deadline pages pattern w) = Ok (select_answer pattern (r (fst (before_deadline w)))).
Proof.
  intros Hp. unfold until_deadline. destruct (before_deadline w) as [n w'].
  by rewrite (bind_ok _ _ _ _ (Hp n w')).
Qed.
End public.

Lemma public_answers {W : Type}
    `{HT : HttpTransport W, DL : Deadline W, RX : GoRegexp, IN : ImageNames, RJ : RegistryJSON}
    image name pattern domain path matcher pages (w : W) :
  ParseNormalizedNamed image = inr (domain, path) -> pattern <> "" -> regexp_Compile pattern = inr matcher ->
  (domain = "docker.io" /\
     dockerio_listing (W:=W) ("https://hub.docker.com/v2/repositories/" +:+ path +:+ "/tags/?page=1") pages \/
   domain = "quay.io" /\ quayio_listing (W:=W) path 1 pages) ->
  fst (public_GetVersion image name pattern w) =
    Ok (select_answer pattern (first_match matcher pages (fst (before_deadline w)))).
Proof.
  intros Himage Hne Hrx Hp.
  unfold public_GetVersion, with_matcher. rewrite (proj2 (String.eqb_neq _ _) Hne), Himage, Hrx.
  destruct Hp as [[-> Hl]|[-> Hl]]; cbn [String.eqb Ascii.eqb Bool.eqb dockerioDomain quayioDomain];
    apply (until_deadline_answer _ _ (first_match matcher pages)); intros n w'.
  - by apply dockerio_pages_find.
  - by apply quayio_pages_find.
Qed.

(** on Docker Hub and on Quay the checker answers the first tag that matches, in the order
    of the registry's pages; when the registry has none it answers the pattern and that the
    version was not found, and when the deadline comes before a match and before the last
    page, the pattern and a time-out; any other registry is refused. *)
Theorem public_answers_first_match {W : Type}
    `{HT : HttpTransport W, DL : Deadline W, RX : GoRegexp, IN : ImageNames, RJ : RegistryJSON}
    (image name pattern domain path : string) (matcher : string -> bool) (pages : list (list string)) (w : W)
    (Himage : ParseNormalizedNamed image = inr (domain, path))
    (Hpattern : pattern <> "" /\ regexp_Compile pattern = inr matcher)
    (Hpages : (domain = "docker.io" ->
                 dockerio_listing (W:=W) ("https://hub.docker.com/v2/repositories/" +:+ path +:+ "/tags/?page=1") pages) /\
              (domain = "quay.io" -> quayio_listing (W:=W) path 1 pages)) :
  fst (public_GetVersion image name pattern w) = Ok (
    if String.eqb domain "docker.io" || String.eqb domain "quay.io" then
      let n := fst (before_deadline w) in
      match List.find matcher (concat (take n pages)) with
      | Some tag => (tag, None)
      | None => (pattern, Some (if (n <? length pages)%nat then ErrRequestTimeout else ErrImageVersionNotFound))
      end
    else ("", Some (Errors.New ("repository not supported: " +:+ domain)))).
Proof.
  destruct Hpattern as [Hne Hrx], Hpages as [Hdocker Hquay].
  destruct (String.eqb_spec domain "docker.io") as [Hd|Hd], (String.eqb_spec domain "quay.io") as [Hq|Hq]; cbn [orb].
  4: { unfold public_GetVersion, with_matcher. rewrite (proj2 (String.eqb_neq _ _) Hne), Himage, Hrx.
       unfold dockerioDomain, quayioDomain.
       by rewrite (proj2 (String.eqb_neq _ _) Hd), (proj2 (String.eqb_neq _ _) Hq). }
  all: rewrite (public_answers image name pattern domain path matcher pages w Himage Hne Hrx) by auto;
    unfold first_match; cbv zeta; f_equal; destruct (List.find _ _); [done|]; by destruct (_ <? _)%nat.
Qed.

(** ** Versions that are looked for *)

(** A pattern of letters and digits matches the texts that contain it. *)
Class LiteralPatterns `{GoRegexp} : Prop :=
  literal_pattern (p s : string) (matcher : string -> bool) :
    header_text p = true -> string_contains p "-" = false -> regexp_Compile p = inr matcher ->
    matcher s = string_contains s p.

(** A version counts as present when some tag contains it: the version is a pattern that is
    not anchored. *)
Theorem ensure_accepts_longer_tag {W : Type}
    `{HT : HttpTransport W, DL : Deadline W, RX : GoRegexp, IN : ImageNames, RJ : RegistryJSON, !LiteralPatterns}
    (image name version path tag : string) (matcher : string -> bool) (w : W) :
  ParseNormalizedNamed image = inr ("quay.io", path) ->
  version <> "" -> header_text version = true -> string_contains version "-" = false ->
  regexp_Compile version = inr matcher ->
  quayio_listing (W:=W) path 1 [[tag]] -> (1 <= fst (before_deadline w))%nat ->
  string_contains tag version = true -> tag <> version ->
  fst (public_EnsureVersion image name version w) = Ok tt.
Proof.
  intros Himage Hne Ht Hh Hrx Hl Hn Hc _. unfold public_EnsureVersion, ensure_version.
  rewrite (bind_ok _ _ _ _ (public_answers image name version "quay.io" path matcher [[tag]] w
    Himage Hne Hrx (or_intror (conj eq_refl Hl)))).
  unfold first_match. destruct (fst (before_deadline w)) as [|n]; [lia|].
  cbn [take concat app List.find]. by rewrite (literal_pattern version tag matcher Ht Hh Hrx), Hc.
Qed.

(** ** Stable components of other teams *)

Section stable.
Context {W : Type} `{CC : ConfigController W, KTeam : KClient W Team, RX : GoRegexp, GS : GoSort}.
(** The teams, their components as configured, and what is stored of a team. *)
Context (teams : list Team) (comps_of : string -> gmap string Component) (stored : string -> error + Team).
Context (Hteams : forall w, fst (GetTeams (W:=W) w) = Ok teams).
Context (Hcomps : forall team w, fst (cfg_GetComponents (W:=W) team w) = Ok (comps_of team)).
Context (Hstored : forall team w, fst (fetchTeam (W:=W) team w) =
                     match stored team with inl err => Err err | inr t => Ok t end).
Context (Hfound : forall team err, stored team = inl err -> IsNotFound err = true).

(** The version that a team offers for component [name] of image [repository]. *)
Definition offered (matcher : string -> bool) (repository name : string) (teamComp : Team) : option string :=
  let team := kname teamComp in
  if negb (matcher team) then None else
  match comps_of team !! name, stored team with
  | Some comp, inr t =>
      match cp_Source comp, tst_StableComponents (team_Status t) !! name with
      | Some source, Some stable =>
          if String.eqb source SamsahaiCheckerName then None
          else if String.eqb repository "" || String.eqb (sc_Repository (stable_Spec stable)) repository
               then Some (sc_Version (stable_Spec stable)) else None
      | _, _ => None
      end
  | _, _ => None
  end.

Lemma stable_version_offered matcher repository name teamComp (w : W) :
  fst (stable_version matcher repository name teamComp w) = Ok (offered matcher repository name teamComp).
Proof.
  unfold stable_version, offered. destruct (matcher (kname teamComp)); [|done]. cbn [negb].
  assert (fst (wrapping "cannot get config controller" (cfg_GetComponents (kname teamComp)) w)
          = Ok (comps_of (kname teamComp))) as Hc.
  { specialize (Hcomps (kname teamComp) w). unfold wrapping, attempt, mbind, M_bind.
    destruct (cfg_GetComponents (kname teamComp) w) as [[]]; by simplify_eq/=. }
  rewrite (bind_ok _ _ _ _ Hc). destruct (comps_of (kname teamComp) !! name) as [comp|]; [|done].
  destruct (cp_Source comp) as [source|]; [|by destruct (stored (kname teamComp))].
  destruct (String.eqb source SamsahaiCheckerName).
  { destruct (stored (kname teamComp)) as [|t]; [done|]. by destruct (_ !! name). }
  set (w' := snd _). pose proof (Hstored (kname teamComp) w') as Hf.
  pose proof (Hfound (kname teamComp)) as Hnf.
  unfold mbind, M_bind, attempt.
  destruct (fetchTeam (kname teamComp) w') as [[t|e|p] w'']; destruct (stored (kname teamComp)) as [err|t'];
    simplify_eq/=; [|by rewrite (Hnf err eq_refl)].
  destruct (tst_StableComponents (team_Status t') !! name) as [st|]; [|done].
  by destruct (String.eqb repository ""), (String.eqb (sc_Repository (stable_Spec st)) repository).
Qed.

Lemma stable_versions_offered matcher repository name l (w : W) :
  fst (stable_versions matcher repository name l w) = Ok (omap (offered matcher repository name) l).
Proof.
  revert w. induction l as [|t l IH]; intros w; [done|]. cbn [stable_versions].
  rewrite (bind_ok _ _ _ _ (stable_version_offered matcher repository name t w)), (bind_ok _ _ _ _ (IH _)).
  simpl. by destruct (offered matcher repository name t).
Qed.

Lemma samsahai_answers repository name pattern matcher (w : W) :
  pattern <> "" -> regexp_Compile pattern = inr matcher ->
  fst (samsahai_GetVersion repository name pattern w) = Ok (
    match last (sort_versions (omap (offered matcher repository name) teams)) with
    | None => ("", Some ErrImageVersionNotFound)
    | Some newest => (newest, None)
    end).
Proof.
  intros Hne Hrx. unfold samsahai_GetVersion. rewrite (proj2 (String.eqb_neq _ _) Hne), Hrx.
  assert (fst (attempt (do teamList <- GetTeams; stable_versions matcher repository name teamList) w)
          = Ok (inr (omap (offered matcher repository name) teams))) as Ha.
  { unfold attempt.
    assert (fst ((do teamList <- GetTeams; stable_versions matcher repository name teamList) w)
            = Ok (omap (offered matcher repository name) teams)) as Hb.
    { rewrite (bind_ok _ _ _ _ (Hteams w)). apply stable_versions_offered. }
    destruct ((do teamList <- GetTeams; stable_versions matcher repository name teamList) w) as [[]]; by simplify_eq/=. }
  rewrite (bind_ok _ _ _ _ Ha). by destruct (last _).
Qed.

(** The pattern of [EnsureVersion] is the version, but the checker matches it with the names
    of teams: a stable image whose version is not (part of) the name of a team counts as
    missing, also when it is stable somewhere. *)
Theorem stable_image_counts_as_missing `{SP : SamsahaiPlugins W} repository name version matcher (w : W) :
  sp_checkers !! SamsahaiCheckerName = Some samsahai_checker ->
  repository <> "" -> version <> "" -> regexp_Compile version = inr matcher ->
  (forall t, t ∈ teams -> matcher (kname t) = false) ->
  fst (detectMissingImage SamsahaiCheckerName repository name version w) = Ok (Some (mkRpcImage repository version)).
Proof.
  intros Hc Hr Hne Hrx Hno.
  assert (omap (offered matcher repository name) teams = []) as Ho.
  { clear Hteams. induction teams as [|t l IH]; [done|]. simpl. unfold offered at 1.
    rewrite Hno by left. simpl. apply IH. intros t' Ht'. apply Hno. by right. }
  unfold detectMissingImage, getComponentChecker. rewrite Hc.
  assert (forall msg (k : Checker W -> M W (option RpcImage)),
            mbind k (wrapping msg (or_throw (inr samsahai_checker))) w = k samsahai_checker w) as Hk by done.
  rewrite Hk, (proj2 (String.eqb_neq _ _) Hr). pose proof (samsahai_answers repository name version matcher w Hne Hrx) as Ha.
  rewrite Ho, sort_versions_nil in Ha. cbn [last] in Ha. cbn [ck_EnsureVersion samsahai_checker].
  unfold samsahai_EnsureVersion, ensure_version, attempt, mbind, M_bind.
  destruct (samsahai_GetVersion repository name version w) as [[[v e]|e|p] w'']; by simplify_eq/=.
Qed.
End stable.

(** the checker of stable components answers a version that a team offers, whose name
    matches the pattern: the team has the component in its configuration, with another source,
    and has it stable from the asked repository; when all offered versions are plain numbers,
    no offered version is greater, and when no team offers one, the version is not found. *)
Theorem stable_checker_answers_newest {W : Type}
    `{CC : ConfigController W, KTeam : KClient W Team, RX : GoRegexp, GS : GoSort, !GoSortOn}
    (teams : list Team) (comps_of : string -> gmap string Component) (stored : string -> error + Team)
    (repository name pattern : string) (matcher : string -> bool) (w : W)
    (Hteams : forall w, fst (GetTeams (W:=W) w) = Ok teams)
    (Hcomps : forall team w, fst (cfg_GetComponents (W:=W) team w) = Ok (comps_of team))
    (Hstored : forall team w, fst (fetchTeam (W:=W) team w) =
                 match stored team with inl err => Err err | inr t => Ok t end)
    (Hfound : forall team err, stored team = inl err -> IsNotFound err = true)
    (Hpattern : pattern <> "" /\ regexp_Compile pattern = inr matcher)
    (Hplain : forall v, v ∈ omap (offered comps_of stored matcher repository name) teams -> plain_tag v) :
  let versions := omap (offered comps_of stored matcher repository name) teams in
  match versions with
  | [] => fst (samsahai_GetVersion repository name pattern w) = Ok ("", Some ErrImageVersionNotFound)
  | _ => exists newest, fst (samsahai_GetVersion repository name pattern w) = Ok (newest, None) /\
           newest ∈ versions /\ forall v, v ∈ versions -> SortableVersion_Less newest v = false
  end.
Proof.
  destruct Hpattern as [Hne Hrx]. cbv zeta.
  pose proof (samsahai_answers teams comps_of stored Hteams Hcomps Hstored Hfound repository name pattern matcher w Hne Hrx)
    as Ha. destruct (omap _ teams) as [|v vs] eqn:Ho; [by rewrite sort_versions_nil in Ha|].
  destruct (sort_versions_nonempty (v :: vs)) as (newest & Hl & Hin); [done|].
  rewrite Hl in Ha. exists newest. split_and!; [done|done|]. intros u Hu. by eapply sort_versions_newest.
Qed.

(** ** Concrete registries *)

Module CheckerSim.

(** Every answer's body is the URL that was asked for. *)
#[local] Instance echo_transport : HttpTransport unit := {|
  http_Do _ _ req := mret (mkResponse 200 (inr (rq_URL req)));
  url_Parse := inr;
  url_JoinPath := String.append;
|}.
#[local] Instance five_requests : Deadline unit := fun w => (5%nat, w).
#[local] Instance contains : GoRegexp := fun p => inr (fun s => string_contains s p).
#[local] Instance names : ImageNames := fun image =>
  inr (if String.eqb image "alpine" then ("docker.io", "library/alpine") else ("harbor.io", "shop/team/api")).
Definition harbor_tags (url : string) : list (list string) :=
  if String.eqb url (harbor_url "harbor.io" "shop" "team%252Fapi" 1) then [["latest"]]
  else if String.eqb url (harbor_url "harbor.io" "shop" "team%252Fapi" 2) then [["1.9"; "latest"]; ["1.10"; "1.2"]]
  else [].
Definition docker_page1 : string := "https://hub.docker.com/v2/repositories/library/alpine/tags/?page=1".
#[local] Instance bodies : RegistryJSON := {|
  json_harbor url := inr (harbor_tags url);
  json_dockerio url := inr (if String.eqb url docker_page1 then mkDockerioJSON "page2" ["edge"]
                            else mkDockerioJSON "" ["3.8"; "3.9.1"; "3.9.2"]);
  json_quayio _ := inr (mkQuayioJSON false []);
|}.
#[local] Existing Instance insertion_GoSort.
#[local] Existing Instance insertion_sort_in_order_on.

Lemma plain_of parts tag : Forall number parts -> dotted parts = tag -> plain_tag tag.
Proof. intros Hn <-. by exists parts. Qed.

Lemma harbor_answers_newest_witness :
  fst (harbor_GetVersion [] "shop" "api" "1" tt) = Ok ("1.10", None) /\
  exists newest, fst (harbor_GetVersion [] "shop" "api" "1" tt) = Ok (newest, None) /\
    forall tag, tag ∈ ["1.9"; "1.10"; "1.2"] -> SortableVersion_Less newest tag = false.
Proof.
  split; [by vm_compute|].
  destruct (harbor_answers_newest [] "shop" "api" "1" "harbor.io" "shop/team/api" "shop" "team%252Fapi"
           (fun s => string_contains s "1") (fun p => harbor_tags (harbor_url "harbor.io" "shop" "team%252Fapi" p)) 1 tt)
    as (newest & Hv & _ & _ & Hgreatest); [done|done|done|done| | |split; simpl; lia|].
  - intros i Hi. assert (i = 1) as -> by lia. by vm_compute.
  - by vm_compute.
  - exists newest. split; [exact Hv|]. apply Hgreatest. intros tag Hin.
    change (tag ∈ ["1.9"; "1.10"; "1.2"]) in Hin. rewrite !elem_of_cons, elem_of_nil in Hin.
    destruct Hin as [->|[->|[->|[]]]].
    + apply (plain_of [[1]; [9]]); [|done]. repeat constructor; done || (vm_compute; congruence).
    + apply (plain_of [[1]; [1; 0]]); [|done]. repeat constructor; done || (vm_compute; congruence).
    + apply (plain_of [[1]; [2]]); [|done]. repeat constructor; done || (vm_compute; congruence).
Defined.

Lemma harbor_search_ends_witness :
  harbor_check [] "harbor.io" "shop/team/api" (fun s => string_contains s "1") 105 tt =
    harbor_check [] "harbor.io" "shop/team/api" (fun s => string_contains s "1") 100 tt /\
  fst (harbor_check [] "harbor.io" "shop/team/api" (fun s => string_contains s "1") 105 tt) <> Ok None.
Proof. apply harbor_search_ends. lia. Defined.

Lemma public_answers_first_match_witness :
  fst (public_GetVersion "alpine" "alpine" "3.9" tt) = Ok ("3.9.1", None).
Proof.
  etransitivity; [apply (public_answers_first_match "alpine" "alpine" "3.9" "docker.io" "library/alpine"
           (fun s => string_contains s "3.9") [["edge"]; ["3.8"; "3.9.1"; "3.9.2"]] tt); [done|done|]|by vm_compute].
  split; [|done]. intros _. apply (dockerio_more _ "page2"); [done|done|]. by apply dockerio_last.
Defined.

(** Three teams, of which two offer a version of the same component. *)
Definition stable_team (name version : string) : Team :=
  mkTeam (namedMeta "" name) zeroTeamSpec
    (mkTeamStatus (tst_Namespace zeroTeamStatus)
       {[ "redis" := mkStableComponent (namedMeta "" "redis") (mkStableComponentSpec "redis" "bitnami/redis" version "")
                       (stable_Status zeroStable) ]}
       ∅ [] ∅ "" "" zeroTeamSpec "" false).
Definition sim_teams : list Team := [stable_team "shop" "1.9"; stable_team "search" "1.10"; stable_team "ads" "2.0"].
Definition sim_stored (team : string) : error + Team :=
  match List.find (fun t => String.eqb (kname t) team) sim_teams with
  | Some t => inr t
  | None => inl (mkError "team not found" (Some ReasonNotFound))
  end.
Definition sim_comps (team : string) : gmap string Component :=
  {[ "redis" := mkComponent "" "redis" (mkComponentChart "" "redis" "") (mkComponentImage "bitnami/redis" "" "") []
                  (Some "public-registry") [] [] ]}.
#[local] Instance sim_client : KClient unit Team := {|
  k_get key := match sim_stored (snd key) with inl err => throw err | inr t => mret t end;
  k_list _ := mret sim_teams;
  k_create _ := mret tt; k_update _ := mret tt; k_delete _ := mret tt; k_delete_all_of _ := mret tt;
|}.
Definition unused {A} : M unit A := throw ErrNotImplemented.
#[local] Instance sim_config : ConfigController unit := {|
  cfg_Get _ := unused; cfg_GetComponents team := mret (sim_comps team); cfg_GetParentComponents _ := unused;
  cfg_GetPullRequestComponents _ _ _ := unused; cfg_GetBundles _ := unused; cfg_GetPriorityQueues _ := unused;
  cfg_GetStagingConfig _ := unused; cfg_GetPullRequestConfig _ := unused;
  cfg_GetPullRequestBundleDependencies _ _ := unused; cfg_Update _ := unused; cfg_Delete _ := unused;
  cfg_EnsureConfigTemplateChanged := throw ErrNotImplemented;
|}.

Lemma stable_checker_answers_newest_witness :
  exists newest, fst (samsahai_GetVersion "bitnami/redis" "redis" "s" tt) = Ok (newest, None) /\
    newest ∈ ["1.9"; "1.10"; "2.0"] /\ forall v, v ∈ ["1.9"; "1.10"; "2.0"] -> SortableVersion_Less newest v = false.
Proof.
  apply (stable_checker_answers_newest sim_teams sim_comps sim_stored "bitnami/redis" "redis" "s"
           (fun s => string_contains s "s") tt); [done|done| | |done|].
  - intros team w. unfold fetchTeam. cbn [k_get sim_client snd]. by destruct (sim_stored team).
  - intros team err. unfold sim_stored. destruct (List.find _ _); [done|]. by intros [= <-].
  - intros v Hin. change (v ∈ ["1.9"; "1.10"; "2.0"]) in Hin. rewrite !elem_of_cons, elem_of_nil in Hin.
    destruct Hin as [->|[->|[->|[]]]].
    + apply (plain_of [[1]; [9]]); [|done]. repeat constructor; done || (vm_compute; congruence).
    + apply (plain_of [[1]; [1; 0]]); [|done]. repeat constructor; done || (vm_compute; congruence).
    + apply (plain_of [[2]; [0]]); [|done]. repeat constructor; done || (vm_compute; congruence).
Defined.
End CheckerSim.

(** The name of the project goes wherever it stands in the path of an image, not only at its
    front. *)
Theorem project_name_removed_everywhere :
  extractProjectAndRepository "lib/mylib/app" = ("lib", "myapp").
Proof. by vm_compute. Qed.
