(* ===== verification/Commands.v ===== *)
(** Model of [internal/util/cmd/cmd.go] and of the plugins of
    [internal/samsahai/plugin/plugin.go]: programs that answer for a checker of versions.

    Running a program and rendering a template are parameters. *)

From S2P Require Import Prelude.
From S2P Require Import GoRuntime.
From S2P Require Import Errors.
From S2P Require Import ConfigTypes.
From S2P Require Import Reporters.
From Stdlib Require Import Ascii.
Open Scope string_scope.
Open Scope list_scope.
Open Scope Z_scope.

(** [exec.ExitError], its text and what the program wrote to its standard error, or another
    error. *)
Inductive exec_error := ExitError (text stderr : string) | ExecError (err : error).
(** [exec.CommandContext(ctx, command, args...)], its directory and its [Output]. *)
Class Executables (W : Type) := exec_Output : string -> string -> list string -> M W (string * option exec_error).

Section commands.
Context {W : Type} `{EX : Executables W}.

Definition parseCommand (cmdObj : option CommandAndArgs) : error + (string * list string) :=
  match cmdObj with
  | Some (mkCommandAndArgs (command :: rest) args) => inr (command, rest ++ args)
  | _ => inl (Wrap (Errors.New "no command to execute") "cannot parse data to command")
  end.
Definition ExecuteCommand (exePath : string) (cmdObj : option CommandAndArgs) : M W (string * option exec_error) :=
  match parseCommand cmdObj with
  | inl err => mret ("", Some (ExecError err))
  | inr (command, args) => exec_Output exePath command args
  end.
Definition RenderTemplate (TextRender : string -> string -> string) (commands args : list string) : CommandAndArgs :=
  mkCommandAndArgs (map (TextRender "CommandsRendering") commands) (map (TextRender "ArgsRendering") args).
End commands.

(** ** Plugins *)

Definition CmdGetNameArg : string := "get-name".
Definition CmdGetVersionArg : string := "get-version".
Definition CmdEnsureVersionArg : string := "ensure-version".
Definition CmdGetComponentArg : string := "get-component".

Record plugin := mkPlugin { pl_name : string; pl_path : string; pl_cwd : string }.

Definition newline : ascii := ascii_of_N 10.
(** [strings.TrimRight(s, newline)]. *)
Fixpoint TrimRight (s : string) : string :=
  match s with
  | EmptyString => ""
  | String c s' =>
      match TrimRight s' with
      | EmptyString => if Ascii.eqb c newline then "" else String c ""
      | rest => String c rest
      end
  end.

Section plugins.
Context {W : Type} `{EX : Executables W, GO : GoSchedule W}.

Definition plugin_verify (p : plugin) : M W string :=
  do ' (data, err) <- ExecuteCommand (pl_cwd p) (Some (mkCommandAndArgs [pl_path p] [CmdGetNameArg]));
  match err with
  | Some (ExitError text _) => throw (Errors.New text)
  | Some (ExecError err) => throw err
  | None => mret (TrimRight data)
  end.
Definition NewPlugin (path cwd : string) : M W plugin :=
  do name <- plugin_verify (mkPlugin "" path cwd);
  mret (mkPlugin name path cwd).

(** The program runs in a goroutine; the caller waits for its error and its output, or for
    the end of its time. *)
Definition executeCmd (p : plugin) (commandAndArgs : list string) : M W (string * option error) :=
  do ' (data, err) <- ExecuteCommand (pl_cwd p) (Some (mkCommandAndArgs [pl_path p] commandAndArgs));
  do timeout <- coin;
  if (timeout : bool) then mret ("", Some ErrRequestTimeout) else
  mret (TrimRight data,
        match err with
        | Some (ExitError _ stderr) => Some (Errors.New (TrimRight stderr))
        | Some (ExecError err) => Some err
        | None => None
        end).

(** Two errors are told by their texts and replaced by the program's own. *)
Definition plugin_error (err : error) : error :=
  if same_text ErrNoDesiredComponentVersion err then ErrNoDesiredComponentVersion
  else if same_text ErrRequestTimeout err then ErrRequestTimeout
  else err.
Definition plugin_GetVersion (p : plugin) (repository name pattern : string) : M W (string * option error) :=
  do ' (output, err) <- executeCmd p [CmdGetVersionArg; repository; name; pattern];
  mret (output, plugin_error <$> err).
Definition plugin_EnsureVersion (p : plugin) (repository name version : string) : M W unit :=
  do ' (_, err) <- executeCmd p [CmdEnsureVersionArg; repository; name; version];
  match err with Some err => throw (plugin_error err) | None => mret tt end.
Definition plugin_GetComponentName (p : plugin) (name : string) : M W string :=
  if String.eqb name "" then mret "" else
  do ' (output, err) <- executeCmd p [CmdGetComponentArg; name];
  mret (match err with Some _ => name | None => output end).

Definition plugin_checker (p : plugin) : Checker W := mkChecker W (plugin_GetVersion p) (plugin_EnsureVersion p).
End plugins.
