(* ===== verification/MSTeams.v ===== *)
(** Model of the client of Microsoft Teams, [internal/util/msteams/msteams.go]: tokens, the
    identifiers of groups and channels, and posting a message.

    A request that is refused because the token expired is repeated with a new one; how
    often, before the caller gives up, is up to the world ([Deadline]).  The encoding as JSON
    and the parser of UUIDs are parameters. *)

From S2P Require Import Prelude.
From S2P Require Import GoRuntime.
From S2P Require Import Errors.
From S2P Require Import ConfigTypes.
From S2P Require Import HttpClient.
From Stdlib Require Import Ascii.
Open Scope string_scope.
Open Scope list_scope.
Open Scope Z_scope.

Inductive MessageContentType := PlainText | HTML.
Definition content_type_text (c : MessageContentType) : string :=
  match c with PlainText => "text" | HTML => "html" end.

Record MSTeamsClient := mkMSTeamsClient {
  mt_tenantID : string;
  mt_clientID : string;
  mt_clientSecret : string;
  mt_username : string;
  mt_password : string;
  mt_contentType : MessageContentType;
  mt_baseLoginURL : string;
  mt_baseGraphURL : string;
}.
#[export] Instance eta_MSTeamsClient : Eta MSTeamsClient := fun x =>
  mkMSTeamsClient (mt_tenantID x) (mt_clientID x) (mt_clientSecret x) (mt_username x) (mt_password x)
    (mt_contentType x) (mt_baseLoginURL x) (mt_baseGraphURL x).
Definition NewMSTeamsClient (tenantID clientID clientSecret username password : string) : MSTeamsClient :=
  mkMSTeamsClient tenantID clientID clientSecret username password PlainText
    "https://login.microsoftonline.com" "https://graph.microsoft.com/beta".

(** A page of groups or of channels: the link to the next one, and identifiers with names. *)
Record namesJSON := mkNamesJSON { nj_NextLink : string; nj_Values : list (string * string) }.
Class TeamsJSON := {
  json_AccessToken : string -> error + string;
  json_ID : string -> error + string;
  json_names : string -> error + namesJSON;
  json_message : string -> string -> string;
  uuid_valid : string -> bool;
}.

(** [strings.TrimSpace], for texts whose white space is ASCII. *)
Definition is_space (c : ascii) : bool :=
  let n := N_of_ascii c in ((9 <=? n) && (n <=? 13) || (n =? 32))%N.
Fixpoint trim_left (s : string) : string :=
  match s with EmptyString => "" | String c s' => if is_space c then trim_left s' else s end.
Fixpoint trim_right (s : string) : string :=
  match s with
  | EmptyString => ""
  | String c s' =>
      match trim_right s' with EmptyString => if is_space c then "" else String c "" | rest => String c rest end
  end.
Definition TrimSpace (s : string) : string := trim_right (trim_left s).

(** [url.Values.Encode], for keys in their order. *)
Definition form_text (values : list (string * string)) : string :=
  String.concat "&" (map (fun kv => QueryEscape (fst kv) +:+ "=" +:+ QueryEscape (snd kv)) values).

Section client.
Context {W : Type} `{HT : HttpTransport W, GO : GoSchedule W, DL : Deadline W, TJ : TeamsJSON}.
Context (c : MSTeamsClient).

Definition teamsRequestTimeout : Duration := 5 * Second.

Definition GetAccessToken : M W string :=
  do res <- within_request_time (http_Post (mt_baseLoginURL c +:+ "/" +:+ mt_tenantID c +:+ "/oauth2/v2.0/token")
    (form_text [("client_id", mt_clientID c); ("client_secret", mt_clientSecret c); ("grant_type", "password");
                ("password", mt_password c); ("scope", "https://graph.microsoft.com/.default");
                ("userName", mt_username c)])
    [WithTimeout teamsRequestTimeout; WithContext; WithHeader "Content-Type" "application/x-www-form-urlencoded"]);
  match json_AccessToken res with inl err => throw err | inr token => mret token end.

(** What a goroutine has found: an error or a result. *)
Definition found (A : Type) : Type := option (error + A).

(** An empty token is renewed. *)
Definition renewed (accessToken : string) : M W (error + string) :=
  if String.eqb accessToken "" then attempt GetAccessToken else mret (inr accessToken).
Definition authorized (timeout : Duration) (accessToken : string) : list HttpOption :=
  [WithTimeout timeout; WithContext; WithHeader "Authorization" accessToken].

(** One request after the other: [send] with a token, until it is answered with anything but
    [401]. *)
Fixpoint with_token (send : string -> M W (Z * (error + string))) (accessToken : string) (n : nat) : M W (found string) :=
  match n with
  | O => mret None
  | S n =>
      do t <- renewed accessToken;
      match t with
      | inl err => mret (Some (inl err))
      | inr accessToken =>
          do ' (respCode, r) <- send accessToken;
          match r with
          | inl err => if respCode =? 401 then with_token send "" n else mret (Some (inl err))
          | inr res => mret (Some (inr res))
          end
      end
  end.

Definition finished {A} (r : found A) : M W A :=
  match r with None => throw ErrRequestTimeout | Some (inl err) => throw err | Some (inr a) => mret a end.

Definition post_message (groupID channelID message accessToken : string) : M W (Z * (error + string)) :=
  http_Post (mt_baseGraphURL c +:+ "/teams/" +:+ groupID +:+ "/channels/" +:+ channelID +:+ "/messages")
    (json_message (content_type_text (mt_contentType c)) message) (authorized (10 * Second) accessToken).

(** The identifier of the user of the token.  The token is not renewed here. *)
Fixpoint profile_pages (accessToken : string) (n : nat) : M W (found string) :=
  match n with
  | O => mret None
  | S n =>
      do ' (respCode, r) <- http_Get (mt_baseGraphURL c +:+ "/me") (authorized teamsRequestTimeout accessToken);
      match r with
      | inl err => if respCode =? 401 then profile_pages "" n else mret (Some (inl err))
      | inr res => mret (Some (inr res))
      end
  end.
Definition getMyUserID (accessToken : string) : M W string :=
  do r <- by_deadline (profile_pages accessToken);
  do res <- finished r;
  match json_ID res with inl err => throw err | inr id => mret id end.

Definition getChannelInfo (groupID channelNameOrID accessToken : string) : M W unit :=
  do r <- by_deadline (with_token (fun token =>
    http_Get (mt_baseGraphURL c +:+ "/teams/" +:+ groupID +:+ "/channels/" +:+ channelNameOrID)
      (authorized teamsRequestTimeout token)) accessToken);
  run finished r; mret tt.

(** The pages of groups or of channels are read until the name is found. *)
Fixpoint matched_id (firstPage name : string) (notFound : error) (nextLink accessToken : string) (n : nat)
    : M W (found string) :=
  match n with
  | O => mret None
  | S n =>
      do t <- renewed accessToken;
      match t with
      | inl err => mret (Some (inl err))
      | inr accessToken =>
          let url := if String.eqb nextLink "" then firstPage else nextLink in
          do ' (respCode, r) <- http_Get url (authorized teamsRequestTimeout accessToken);
          match r with
          | inl err =>
              if respCode =? 401 then matched_id firstPage name notFound nextLink "" n else mret (Some (inl err))
          | inr res =>
              match json_names res with
              | inl err => mret (Some (inl err))
              | inr respJSON =>
                  match List.find (fun v => String.eqb (TrimSpace name) (TrimSpace (snd v))) (nj_Values respJSON) with
                  | Some (id, _) => mret (Some (inr id))
                  | None =>
                      if String.eqb (nj_NextLink respJSON) "" then mret (Some (inl notFound))
                      else matched_id firstPage name notFound (nj_NextLink respJSON) accessToken n
                  end
              end
          end
      end
  end.
Definition getMatchedGroupID (groupName accessToken : string) : M W string :=
  do userID <- getMyUserID accessToken;
  do r <- by_deadline (matched_id (mt_baseGraphURL c +:+ "/users/" +:+ userID +:+ "/joinedTeams") groupName
    (Errors.New ("group " +:+ groupName +:+ " not found")) "" accessToken);
  finished r.
Definition getMatchedChannelID (groupID channelName accessToken : string) : M W string :=
  do r <- by_deadline (matched_id (mt_baseGraphURL c +:+ "/teams/" +:+ groupID +:+ "/channels") channelName
    (Errors.New ("channel " +:+ channelName +:+ " not found")) "" accessToken);
  finished r.

Definition GetGroupID (groupNameOrID accessToken : string) : M W string :=
  if negb (uuid_valid groupNameOrID) then getMatchedGroupID groupNameOrID accessToken else mret groupNameOrID.
(** Any error of the look-up by identifier means that a name was given. *)
Definition GetChannelID (groupID channelNameOrID accessToken : string) : M W string :=
  do r <- attempt (getChannelInfo groupID channelNameOrID accessToken);
  match r with
  | inl _ => getMatchedChannelID groupID channelNameOrID accessToken
  | inr _ => mret channelNameOrID
  end.
End client.

Definition PostMsgOption : Type := MSTeamsClient -> MSTeamsClient.
Definition WithContentType (contentType : MessageContentType) : PostMsgOption := fun c =>
  c <| mt_contentType := contentType |>.
(** The options change the client for good. *)
Definition PostMessage {W} `{HttpTransport W, GoSchedule W, Deadline W, TeamsJSON}
    (groupID channelID message accessToken : string) (opts : list PostMsgOption) : M (W * MSTeamsClient) unit :=
  run mod_obj (fun c => foldl (fun c opt => opt c) c opts);
  do c <- get_obj;
  onW (do r <- by_deadline (with_token c (post_message c groupID channelID message) accessToken);
       run finished r; mret tt).
