(* ===== verification/ReporterPackages.v ===== *)
(** Model of the packages under [internal/reporter]: which reports Slack, Microsoft Teams,
    Gitlab, Github, the REST endpoints and the shell commands of a team are sent.

    The texts are rendered from templates and are parameters, like their encodings. *)

From S2P Require Import Prelude.
From S2P Require Import GoRuntime.
From S2P Require Import Errors.
From S2P Require Import ConfigTypes.
From S2P Require Import QueueTypes.
From S2P Require Import TeamTypes.
From S2P Require Import AtpTypes.
From S2P Require Import PrtTypes.
From S2P Require Import RpcTypes.
From S2P Require Import Interfaces.
From S2P Require Import SamsahaiCtrl.
From S2P Require Import Reporters.
From S2P Require Import HttpClient.
From S2P Require Import MSTeams.
From S2P Require Import Commands.
From Stdlib Require Import Ascii.
Open Scope string_scope.
Open Scope list_scope.
Open Scope Z_scope.

(** ** [internal/reporter/util] *)

Definition statusSuccess : string := "success".
Definition statusFailure : string := "failure".
(** [strings.ToLower], of ASCII letters. *)
Definition ToLower : string -> string := string_lower.

(** The error, when the report is not wanted. *)
Definition CheckMatchingInterval (interval : ReporterInterval) (isReverify : bool) : option error :=
  match interval with
  | IntervalEveryTime => None
  | _ => if negb isReverify then Some (Errors.New "interval was not matched") else None
  end.
Definition CheckMatchingCriteria (criteria : ReporterCriteria) (result : string) : option error :=
  let lowerCaseResult := ToLower result in
  match criteria with
  | CriteriaBoth => None
  | CriteriaSuccess =>
      if negb (String.eqb lowerCaseResult statusSuccess) then Some (Errors.New "criteria was not matched") else None
  | _ => if negb (String.eqb lowerCaseResult statusFailure) then Some (Errors.New "criteria was not matched") else None
  end.
Definition status_text (s : StatusType) : string :=
  match s with StatusSuccess => "Success" | StatusFailure => "Failure" | StatusCanceled => "Canceled" end.

Definition convertRPCImageListToK8SImageList (images : list RpcImage) : list Image :=
  map (fun img => mkImage (ri_Repository img) (ri_Tag img)) images.

(** The reporter's part of the configuration in use. *)
Definition reporter_config (config : Config) : option ConfigReporter := cf_Reporter (cst_Used (config_Status config)).

(** An extra message of an event replaces the general one. *)
Definition extra_message (general : string) (event : string) : string :=
  if negb (String.eqb event "") then event else general.

(** What both interval and criteria of an event ask for. *)
Definition wanted (event : option (ReporterInterval * ReporterCriteria)) (isReverify : bool) (status : StatusType) : bool :=
  match event with
  | None => true
  | Some (interval, criteria) =>
      match CheckMatchingInterval interval isReverify with
      | Some _ => false
      | None => match CheckMatchingCriteria criteria (status_text status) with Some _ => false | None => true end
      end
  end.
Definition upgrade_event (o : option ConfigComponentUpgradeReport) : option (ReporterInterval * ReporterCriteria) :=
  (fun r => (ConfigTypes.cur_Interval r, ConfigTypes.cur_Criteria r)) <$> o.
Definition queue_event (o : option ConfigPullRequestQueueReport) : option (ReporterInterval * ReporterCriteria) :=
  (fun r => (pqr_Interval r, pqr_Criteria r)) <$> o.
Definition trigger_wanted (o : option ConfigPullRequestTriggerReport) (result : string) : bool :=
  match o with
  | None => true
  | Some r => match CheckMatchingCriteria (ptr_Criteria r) result with Some _ => false | None => true end
  end.

(** ** Slack *)

(** [slack.PostMessage]. *)
Class SlackAPI (W : Type) := slack_PostMessage : string -> string -> M W unit.

(** The rendered parts of a message, of one kind of reporter; a line break. *)
Record ReportTexts := mkReportTexts {
  tx_ComponentUpgrade : ComponentUpgradeReporter -> string -> string;
  tx_PullRequestQueue : ComponentUpgradeReporter -> string -> string;
  tx_ActivePromotion : ActivePromotionReporter -> string -> string;
  tx_Outdated : gmap string OutdatedComponent -> string;
  tx_NoOutdated : string;
  tx_RollbackFailure : string;
  tx_DemotionFailure : string;
  tx_DestroyedTime : ActivePromotionStatus -> string;
  tx_ImageMissing : list Image -> string -> string;
  tx_TriggerResult : PullRequestTriggerReporter -> string -> string;
}.
Definition line_break : string := String newline "".

Definition with_missing (TX : ReportTexts) (message separator : string) (images : list Image) : string :=
  if (0 <? length images)%nat then message +:+ separator +:+ tx_ImageMissing TX images "" else message.
(** The parts that follow the first of a promotion's report, each with what separates it. *)
Definition promotion_notes (TX : ReportTexts) (status : ActivePromotionStatus) (separator : string) : string :=
  let isDemotionFailed := bool_decide (ast_DemotionStatus status = ActivePromotionDemotionFailure) in
  (if isDemotionFailed then separator +:+ tx_DemotionFailure TX else "") +:+
  (if bool_decide (ast_RollbackStatus status = ActivePromotionRollbackFailure) then separator +:+ tx_RollbackFailure TX else "") +:+
  (if bool_decide (ast_Result status = ActivePromotionSuccess) &&
      negb (String.eqb (ast_PreviousActiveNamespace status) "") && negb isDemotionFailed
   then separator +:+ tx_DestroyedTime TX status else "").

Section slack.
Context {W : Type} `{CC : ConfigController W, SL : SlackAPI W}.
Context (TX : ReportTexts).

Definition getSlackConfig (teamName : string) : M W ReporterSlack :=
  do config <- cfg_Get teamName;
  match reporter_config config with
  | Some (mkConfigReporter _ (Some slack) _ _ _ _ _ _) => mret slack
  | _ => throw (Errors.New "slack configuration not found")
  end.
(** Every channel is told; the last error is the result. *)
Fixpoint slack_channels (channels : list string) (message : string) (globalErr : option error) : M W (option error) :=
  match channels with
  | [] => mret globalErr
  | channel :: rest =>
      do r <- attempt (slack_PostMessage channel message);
      slack_channels rest message (match r with inl err => Some err | inr _ => globalErr end)
  end.
Definition slack_post (slackConfig : ReporterSlack) (message : string) : M W unit :=
  do globalErr <- slack_channels (rs_Channels slackConfig) message None;
  match globalErr with Some err => throw err | None => mret tt end.
(** A team without a configuration for Slack is left out. *)
Definition with_slack (teamName : string) (k : ReporterSlack -> M W unit) : M W unit :=
  do r <- attempt (getSlackConfig teamName);
  match r with inl _ => mret tt | inr slackConfig => k slackConfig end.

Definition slack_SendComponentUpgrade (comp : ComponentUpgradeReporter) : M W unit :=
  let m := cur_ComponentUpgrade comp in
  with_slack (cu_TeamName m) (fun slackConfig =>
    if negb (wanted (upgrade_event (rs_ComponentUpgrade slackConfig)) (cu_IsReverify m) (cur_StatusStr comp)) then mret tt else
    let extra := match rs_ComponentUpgrade slackConfig with
                 | Some r => extra_message (rs_ExtraMessage slackConfig) (cur_ExtraMessage r)
                 | None => rs_ExtraMessage slackConfig end in
    slack_post slackConfig (with_missing TX (tx_ComponentUpgrade TX comp extra) line_break
      (convertRPCImageListToK8SImageList (cu_ImageMissingList m)))).
Definition slack_SendPullRequestQueue (comp : ComponentUpgradeReporter) : M W unit :=
  let m := cur_ComponentUpgrade comp in
  with_slack (cu_TeamName m) (fun slackConfig =>
    if negb (wanted (queue_event (rs_PullRequestQueue slackConfig)) (cu_IsReverify m) (cur_StatusStr comp)) then mret tt else
    let extra := match rs_PullRequestQueue slackConfig with
                 | Some r => extra_message (rs_ExtraMessage slackConfig) (pqr_ExtraMessage r)
                 | None => rs_ExtraMessage slackConfig end in
    slack_post slackConfig (with_missing TX (tx_PullRequestQueue TX comp extra) line_break
      (convertRPCImageListToK8SImageList (cu_ImageMissingList m)))).

Definition slack_SendActivePromotionStatus (atpRpt : ActivePromotionReporter) : M W unit :=
  with_slack (apr_TeamName atpRpt) (fun slackConfig =>
    let extra := match rs_ActivePromotion slackConfig with
                 | Some r => extra_message (rs_ExtraMessage slackConfig) (apr_ExtraMessage r)
                 | None => rs_ExtraMessage slackConfig end in
    let status := apr_Status atpRpt in
    let message := with_missing TX (tx_ActivePromotion TX atpRpt extra) line_break
                     (qst_ImageMissingList (ast_PreActiveQueue status)) in
    slack_post slackConfig (message +:+ line_break +:+
      (if ast_HasOutdatedComponent status then tx_Outdated TX (ast_OutdatedComponents status) else tx_NoOutdated TX) +:+
      promotion_notes TX status line_break)).
Definition slack_SendImageMissing (imageMissingRpt : ImageMissingReporter) : M W unit :=
  with_slack (imr_TeamName imageMissingRpt) (fun slackConfig =>
    slack_post slackConfig (tx_ImageMissing TX [imr_Image imageMissingRpt] (imr_Reason imageMissingRpt))).
Definition slack_SendPullRequestTriggerResult (prTriggerRpt : PullRequestTriggerReporter) : M W unit :=
  with_slack (ptr_TeamName prTriggerRpt) (fun slackConfig =>
    if negb (trigger_wanted (rs_PullRequestTrigger slackConfig) (ptr_Result prTriggerRpt)) then mret tt else
    let extra := match rs_PullRequestTrigger slackConfig with
                 | Some r => extra_message (rs_ExtraMessage slackConfig) (ConfigTypes.ptr_ExtraMessage r)
                 | None => rs_ExtraMessage slackConfig end in
    slack_post slackConfig (with_missing TX (tx_TriggerResult TX prTriggerRpt extra) line_break
      (ptst_ImageMissingList (ptr_Status prTriggerRpt)))).
(** What is not supported does nothing. *)
Definition slack_SendPullRequestTestRunnerPendingResult (_ : PullRequestTestRunnerPendingReporter) : M W unit := mret tt.
Definition slack_SendActiveEnvironmentDeleted (_ : ActiveEnvironmentDeletedReporter) : M W unit := mret tt.

Definition slack_reporter : Reporter W :=
  mkReporter W slack_SendComponentUpgrade slack_SendPullRequestQueue slack_SendActivePromotionStatus slack_SendImageMissing
    slack_SendPullRequestTriggerResult slack_SendPullRequestTestRunnerPendingResult slack_SendActiveEnvironmentDeleted.
End slack.

(** ** Microsoft Teams *)

(** The interface [MSTeams]. *)
Class MSTeamsAPI (W : Type) := {
  ms_GetAccessToken : M W string;
  ms_PostMessage : string -> string -> string -> string -> list PostMsgOption -> M W unit;
  ms_GetGroupID : string -> string -> M W string;
  ms_GetChannelID : string -> string -> string -> M W string;
}.
Definition client_api {W} `{HttpTransport W, GoSchedule W, Deadline W, TeamsJSON} (c : MSTeamsClient) : MSTeamsAPI W := {|
  ms_GetAccessToken := GetAccessToken c;
  ms_PostMessage groupID channelID message token opts :=
    run with_obj c (PostMessage groupID channelID message token opts); mret tt;
  ms_GetGroupID := GetGroupID c;
  ms_GetChannelID := GetChannelID c;
|}.

Section msteams.
Context {W : Type} `{CC : ConfigController W, MS : MSTeamsAPI W}.
Context (TX : ReportTexts).

Definition getMSTeamsConfig (teamName : string) : M W ReporterMSTeams :=
  do config <- cfg_Get teamName;
  match reporter_config config with
  | Some (mkConfigReporter _ _ (Some msTeams) _ _ _ _ _) => mret msTeams
  | _ => throw (Errors.New "msTeams configuration not found")
  end.
(** A channel that is not found is left out, without an error of the report. *)
Fixpoint msteams_channels (groupID message accessToken : string) (channelNameOrIDs : list string) (globalErr : option error)
    : M W (option error) :=
  match channelNameOrIDs with
  | [] => mret globalErr
  | channelNameOrID :: rest =>
      do r <- attempt (ms_GetChannelID groupID channelNameOrID accessToken);
      match r with
      | inl _ => msteams_channels groupID message accessToken rest globalErr
      | inr channelID =>
          do r <- attempt (ms_PostMessage groupID channelID message accessToken [WithContentType HTML]);
          msteams_channels groupID message accessToken rest (match r with inl err => Some err | inr _ => globalErr end)
      end
  end.
(** So is a group. *)
Fixpoint msteams_groups (message accessToken : string) (groups : list MSTeamsGroup) (globalErr : option error)
    : M W (option error) :=
  match groups with
  | [] => mret globalErr
  | group :: rest =>
      do r <- attempt (ms_GetGroupID (mg_GroupNameOrID group) accessToken);
      match r with
      | inl _ => msteams_groups message accessToken rest globalErr
      | inr groupID =>
          do globalErr <- msteams_channels groupID message accessToken (mg_ChannelNameOrIDs group) globalErr;
          msteams_groups message accessToken rest globalErr
      end
  end.
Definition msteams_post (msTeamsConfig : ReporterMSTeams) (message : string) : M W unit :=
  do accessToken <- ms_GetAccessToken;
  do globalErr <- msteams_groups message accessToken (rm_Groups msTeamsConfig) None;
  match globalErr with Some err => throw err | None => mret tt end.
Definition with_msteams (teamName : string) (k : ReporterMSTeams -> M W unit) : M W unit :=
  do r <- attempt (getMSTeamsConfig teamName);
  match r with inl _ => mret tt | inr msTeamsConfig => k msTeamsConfig end.

Definition msteams_SendComponentUpgrade (comp : ComponentUpgradeReporter) : M W unit :=
  let m := cur_ComponentUpgrade comp in
  with_msteams (cu_TeamName m) (fun msTeamsConfig =>
    if negb (wanted (upgrade_event (rm_ComponentUpgrade msTeamsConfig)) (cu_IsReverify m) (cur_StatusStr comp)) then mret tt
    else msteams_post msTeamsConfig (with_missing TX (tx_ComponentUpgrade TX comp "") "<hr/>"
           (convertRPCImageListToK8SImageList (cu_ImageMissingList m)))).
Definition msteams_SendPullRequestQueue (comp : ComponentUpgradeReporter) : M W unit :=
  let m := cur_ComponentUpgrade comp in
  with_msteams (cu_TeamName m) (fun msTeamsConfig =>
    if negb (wanted (queue_event (rm_PullRequestQueue msTeamsConfig)) (cu_IsReverify m) (cur_StatusStr comp)) then mret tt
    else msteams_post msTeamsConfig (with_missing TX (tx_PullRequestQueue TX comp "") line_break
           (convertRPCImageListToK8SImageList (cu_ImageMissingList m)))).
Definition msteams_SendActivePromotionStatus (atpRpt : ActivePromotionReporter) : M W unit :=
  with_msteams (apr_TeamName atpRpt) (fun msTeamsConfig =>
    let status := apr_Status atpRpt in
    let message := with_missing TX (tx_ActivePromotion TX atpRpt "") "<hr/>"
                     (qst_ImageMissingList (ast_PreActiveQueue status)) in
    msteams_post msTeamsConfig (message +:+
      (if ast_HasOutdatedComponent status then "<hr/>" +:+ tx_Outdated TX (ast_OutdatedComponents status)
       else "<br/>" +:+ tx_NoOutdated TX) +:+ "<br/>" +:+ promotion_notes TX status "<br/>")).
Definition msteams_SendImageMissing (imageMissingRpt : ImageMissingReporter) : M W unit :=
  with_msteams (imr_TeamName imageMissingRpt) (fun msTeamsConfig =>
    msteams_post msTeamsConfig (tx_ImageMissing TX [imr_Image imageMissingRpt] (imr_Reason imageMissingRpt))).
Definition msteams_SendPullRequestTriggerResult (prTriggerRpt : PullRequestTriggerReporter) : M W unit :=
  with_msteams (ptr_TeamName prTriggerRpt) (fun msTeamsConfig =>
    if negb (trigger_wanted (rm_PullRequestTrigger msTeamsConfig) (ptr_Result prTriggerRpt)) then mret tt
    else msteams_post msTeamsConfig (with_missing TX (tx_TriggerResult TX prTriggerRpt "") line_break
           (ptst_ImageMissingList (ptr_Status prTriggerRpt)))).
Definition msteams_SendPullRequestTestRunnerPendingResult (_ : PullRequestTestRunnerPendingReporter) : M W unit := mret tt.
Definition msteams_SendActiveEnvironmentDeleted (_ : ActiveEnvironmentDeletedReporter) : M W unit := mret tt.

Definition msteams_reporter : Reporter W :=
  mkReporter W msteams_SendComponentUpgrade msteams_SendPullRequestQueue msteams_SendActivePromotionStatus
    msteams_SendImageMissing msteams_SendPullRequestTriggerResult msteams_SendPullRequestTestRunnerPendingResult
    msteams_SendActiveEnvironmentDeleted.
End msteams.

(** ** Gitlab and Github *)

Definition LabelNameLogs : string := "Samsahai Deployment - Logs".
Definition LabelNameHistory : string := "Samsahai Deployment - History".
Definition prHistDesc : string := "Samsahai pull request deployment history".
Definition prLogsDesc : string := "Samsahai pull request deployment logs".

(** [PublishCommitStatus]: the repository, the commit, the label, the address, the
    description and the status. *)
Definition publisher (W : Type) : Type :=
  string -> string -> string -> string -> string -> CommitStatus -> M W unit.
(** The reporter: a client that overrides its own, and the address and the token of its own.
    There is one for all teams. *)
Record GitReporter (W : Type) := mkGitReporter {
  gtr_client : option (publisher W);
  gtr_URL : string;
  gtr_Token : string;
}.
Arguments mkGitReporter {_} _ _ _.
Arguments gtr_client {_} _.
Arguments gtr_URL {_} _.
Arguments gtr_Token {_} _.
#[export] Instance eta_GitReporter {W} : Eta (GitReporter W) := fun x =>
  mkGitReporter (gtr_client x) (gtr_URL x) (gtr_Token x).

Section git.
Context {W : Type} `{CC : ConfigController W, HT : HttpTransport W, GO : GoSchedule W, GJ : GitJSON}.
Notation GitM := (M (W * GitReporter W)).

Definition convertCommitStatus (status : UpgradeStatus) : CommitStatus :=
  match status with UpgradeStatus_SUCCESS => CommitStatusSuccess | _ => CommitStatusFailure end.
Definition getPRHistoryURL (comp : ComponentUpgradeReporter) : string :=
  s2h_SamsahaiExternalURL (cur_SamsahaiConfig comp) +:+ "/teams/" +:+ cu_TeamName (cur_ComponentUpgrade comp) +:+
  "/pullrequest/queue/histories/" +:+ cu_QueueHistoryName (cur_ComponentUpgrade comp).
Definition getPRLogsURL (comp : ComponentUpgradeReporter) : string := getPRHistoryURL comp +:+ "/log".

(** A team's own token and address stay with the reporter. *)
Definition overrideCredential (token : option TokenCredential) (baseURL : string) : GitM unit :=
  mod_obj (fun r =>
    let r := match token with
             | Some t => if negb (String.eqb (tok_Token t) "") then r <| gtr_Token := tok_Token t |> else r
             | None => r
             end in
    if negb (String.eqb baseURL "") then r <| gtr_URL := baseURL |> else r).

(** The first bundle of the name. *)
Definition bundle_field (field : PullRequestBundle -> string) (bundles : list PullRequestBundle) (bundleName : string)
    : string :=
  match List.find (fun b => String.eqb (prb_Name b) bundleName) bundles with Some b => field b | None => "" end.

Definition git_post (newClient : GitClient -> publisher W) (enabled : bool)
    (repository commitSHA labelName targetURL description : string) (commitStatus : CommitStatus) : GitM unit :=
  if negb enabled || String.eqb repository "" then mret tt else
  do r <- get_obj;
  let gitCli := match gtr_client r with
                | Some client => client
                | None => newClient (mkGitClient (gtr_URL r) (gtr_Token r))
                end in
  onW (gitCli repository commitSHA labelName targetURL description commitStatus).

(** The history and then the log, of the commit that must be there. *)
Definition post_queue (newClient : GitClient -> publisher W) (enabled : bool) (repository : string)
    (comp : ComponentUpgradeReporter) : GitM unit :=
  do prComp <- deref (cu_PullRequestComponent (cur_ComponentUpgrade comp));
  let commitStatus := convertCommitStatus (cu_Status (cur_ComponentUpgrade comp)) in
  run git_post newClient enabled repository (tpr_CommitSHA prComp) LabelNameHistory (getPRHistoryURL comp) prHistDesc commitStatus;
  git_post newClient enabled repository (tpr_CommitSHA prComp) LabelNameLogs (getPRLogsURL comp) prLogsDesc commitStatus.

(** *** Gitlab *)

Definition getGitlabConfig (teamName : string) : M W ReporterGitlab :=
  do config <- cfg_Get teamName;
  match reporter_config config with
  | Some (mkConfigReporter _ _ _ _ (Some gitlab) _ _ _) => mret gitlab
  | _ => throw (Errors.New "Gitlab configuration not found")
  end.
Definition getGitlabProjectID (teamName bundleName : string) : M W string :=
  do conf <- cfg_Get teamName;
  do pr <- deref (cf_PullRequest (cst_Used (config_Status conf)));
  mret (bundle_field prb_GitProjectID (cpr_Bundles pr) bundleName).
Definition gitlab_SendPullRequestQueue (comp : ComponentUpgradeReporter) : GitM unit :=
  let teamName := cu_TeamName (cur_ComponentUpgrade comp) in
  do gitlabConfig <- onW (getGitlabConfig teamName);
  do projectID <- match cu_PullRequestComponent (cur_ComponentUpgrade comp) with
                  | Some prComp => onW (getGitlabProjectID teamName (tpr_BundleName prComp))
                  | None => mret ""
                  end;
  run overrideCredential (cred_Gitlab (cur_Credential comp)) (rgl_BaseURL gitlabConfig);
  post_queue gitlab_PublishCommitStatus (rgl_Enabled gitlabConfig) projectID comp.
Definition gitlab_SendPullRequestTestRunnerPendingResult (prTestRunnerRpt : PullRequestTestRunnerPendingReporter) : GitM unit :=
  let teamName := ppr_TeamName prTestRunnerRpt in
  do gitlabConfig <- onW (getGitlabConfig teamName);
  do projectID <- onW (getGitlabProjectID teamName (ppr_BundleName prTestRunnerRpt));
  run overrideCredential (cred_Gitlab (ppr_Credential prTestRunnerRpt)) (rgl_BaseURL gitlabConfig);
  git_post gitlab_PublishCommitStatus (rgl_Enabled gitlabConfig) projectID (ppr_CommitSHA prTestRunnerRpt)
    LabelNameLogs "" "" CommitStatusPending.

(** *** Github *)

Definition getGithubConfig (teamName : string) : M W ReporterGithub :=
  do config <- cfg_Get teamName;
  match reporter_config config with
  | Some (mkConfigReporter _ _ _ (Some github) _ _ _ _) => mret github
  | _ => throw (Errors.New "github configuration not found")
  end.
Definition getGithubRepository (comp : ComponentUpgradeReporter) : M W string :=
  do r <- attempt (cfg_Get (cu_TeamName (cur_ComponentUpgrade comp)));
  mret (match r, cu_PullRequestComponent (cur_ComponentUpgrade comp) with
        | inr config, Some prComp =>
            match cf_PullRequest (cst_Used (config_Status config)) with
            | Some pr => bundle_field prb_GitRepository (cpr_Bundles pr) (tpr_BundleName prComp)
            | None => ""
            end
        | _, _ => ""
        end).
Definition github_SendPullRequestQueue (comp : ComponentUpgradeReporter) : GitM unit :=
  do r <- onW (attempt (getGithubConfig (cu_TeamName (cur_ComponentUpgrade comp))));
  match r with
  | inl _ => mret tt
  | inr githubConfig =>
      do repository <- onW (getGithubRepository comp);
      run overrideCredential (cred_Github (cur_Credential comp)) (rgh_BaseURL githubConfig);
      post_queue github_PublishCommitStatus (rgh_Enabled githubConfig) repository comp
  end.
End git.

(** ** REST endpoints *)

(** The bodies, with the time and the identifier that each carries; the end of the process
    ([log.Fatalln]), to which an address that cannot be parsed leads. *)
Class RestOutside (W : Type) := {
  rest_ComponentUpgrade : ComponentUpgradeReporter -> M W string;
  rest_ActivePromotion : ActivePromotionReporter -> M W string;
  rest_ImageMissing : Image -> M W string;
  rest_TriggerResult : PullRequestTriggerReporter -> M W string;
  log_Fatal : forall A : Type, M W A;
}.

Section rest.
Context {W : Type} `{CC : ConfigController W, HT : HttpTransport W, RO : RestOutside W}.
(** The client that overrides those of the endpoints. *)
Context (rest : option HttpClient).

Definition rest_send (url body : string) : M W unit :=
  do restCli <- match rest with
                | Some restCli => mret restCli
                | None => match NewHttpClient (W:=W) url [] with Some restCli => mret restCli | None => log_Fatal HttpClient end
                end;
  do ' (r, _) <- with_obj restCli (client_Post "/" body []);
  match snd r with
  | inl err => throw (Wrap err ("cannot send request to " +:+ hc_BaseURL restCli))
  | inr _ => mret tt
  end.
(** The first endpoint that fails ends the report. *)
Definition rest_report (teamName : string) (event : ReporterRest -> option RestObject) (body : M W string) : M W unit :=
  do config <- cfg_Get teamName;
  match reporter_config config with
  | Some (mkConfigReporter _ _ _ _ _ (Some r) _ _) =>
      match event r with
      | Some restObj => for_each (rest_Endpoints restObj) (fun ep => do body <- body; rest_send (ep_URL ep) body)
      | None => mret tt
      end
  | _ => mret tt
  end.

Definition rest_SendComponentUpgrade (comp : ComponentUpgradeReporter) : M W unit :=
  rest_report (cu_TeamName (cur_ComponentUpgrade comp)) rr_ComponentUpgrade (rest_ComponentUpgrade comp).
Definition rest_SendPullRequestQueue (comp : ComponentUpgradeReporter) : M W unit :=
  rest_report (cu_TeamName (cur_ComponentUpgrade comp)) rr_PullRequestQueue (rest_ComponentUpgrade comp).
Definition rest_SendActivePromotionStatus (atpRpt : ActivePromotionReporter) : M W unit :=
  rest_report (apr_TeamName atpRpt) rr_ActivePromotion (rest_ActivePromotion atpRpt).
Definition rest_SendImageMissing (imageMissingRpt : ImageMissingReporter) : M W unit :=
  rest_report (imr_TeamName imageMissingRpt) rr_ImageMissing (rest_ImageMissing (imr_Image imageMissingRpt)).
Definition rest_SendPullRequestTriggerResult (prTriggerRpt : PullRequestTriggerReporter) : M W unit :=
  rest_report (ptr_TeamName prTriggerRpt) rr_PullRequestTrigger (rest_TriggerResult prTriggerRpt).
Definition rest_SendPullRequestTestRunnerPendingResult (_ : PullRequestTestRunnerPendingReporter) : M W unit := mret tt.
Definition rest_SendActiveEnvironmentDeleted (_ : ActiveEnvironmentDeletedReporter) : M W unit := mret tt.

Definition rest_reporter : Reporter W :=
  mkReporter W rest_SendComponentUpgrade rest_SendPullRequestQueue rest_SendActivePromotionStatus rest_SendImageMissing
    rest_SendPullRequestTriggerResult rest_SendPullRequestTestRunnerPendingResult rest_SendActiveEnvironmentDeleted.
End rest.

(** ** Shell commands *)

(** A command is a template, rendered with the report. *)
Record ShellTexts := mkShellTexts {
  sh_ComponentUpgrade : ComponentUpgradeReporter -> string -> string -> string;
  sh_ActivePromotion : ActivePromotionReporter -> string -> string -> string;
  sh_ImageMissing : ImageMissingReporter -> string -> string -> string;
  sh_TriggerResult : PullRequestTriggerReporter -> string -> string -> string;
  sh_EnvironmentDeleted : ActiveEnvironmentDeletedReporter -> string -> string -> string;
}.

Section shell.
Context {W : Type} `{CC : ConfigController W, EX : Executables W, GO : GoSchedule W}.
Context (ST : ShellTexts).

Definition shell_error (err : exec_error) : error :=
  match err with ExitError text _ => Errors.New text | ExecError err => err end.
(** The command runs beside the caller, which may have given up. *)
Definition shell_execute (cmdObj : CommandAndArgs) : M W unit :=
  do ' (_, err) <- ExecuteCommand "." (Some cmdObj);
  do timeout <- coin;
  if (timeout : bool) then throw ErrExecutionTimeout
  else match err with Some err => throw (shell_error err) | None => mret tt end.
Definition shell_report (teamName : string) (event : ReporterShell -> option CommandAndArgs)
    (TextRender : string -> string -> string) : M W unit :=
  do config <- cfg_Get teamName;
  match reporter_config config with
  | Some (mkConfigReporter _ _ _ _ _ _ (Some r) _) =>
      match event r with
      | Some cmd => shell_execute (RenderTemplate TextRender (ca_Command cmd) (ca_Args cmd))
      | None => mret tt
      end
  | _ => mret tt
  end.

Definition shell_SendComponentUpgrade (comp : ComponentUpgradeReporter) : M W unit :=
  shell_report (cu_TeamName (cur_ComponentUpgrade comp)) rsh_ComponentUpgrade (sh_ComponentUpgrade ST comp).
Definition shell_SendPullRequestQueue (comp : ComponentUpgradeReporter) : M W unit :=
  shell_report (cu_TeamName (cur_ComponentUpgrade comp)) rsh_PullRequestQueue (sh_ComponentUpgrade ST comp).
Definition shell_SendActivePromotionStatus (atpRpt : ActivePromotionReporter) : M W unit :=
  shell_report (apr_TeamName atpRpt) rsh_ActivePromotion (sh_ActivePromotion ST atpRpt).
Definition shell_SendImageMissing (imageMissingRpt : ImageMissingReporter) : M W unit :=
  shell_report (imr_TeamName imageMissingRpt) rsh_ImageMissing (sh_ImageMissing ST imageMissingRpt).
Definition shell_SendPullRequestTriggerResult (prTriggerRpt : PullRequestTriggerReporter) : M W unit :=
  shell_report (ptr_TeamName prTriggerRpt) rsh_PullRequestTrigger (sh_TriggerResult ST prTriggerRpt).
Definition shell_SendActiveEnvironmentDeleted (activeNsDeletedRpt : ActiveEnvironmentDeletedReporter) : M W unit :=
  shell_report (aed_TeamName activeNsDeletedRpt) rsh_ActiveEnvironmentDeleted (sh_EnvironmentDeleted ST activeNsDeletedRpt).
Definition shell_SendPullRequestTestRunnerPendingResult (_ : PullRequestTestRunnerPendingReporter) : M W unit := mret tt.

Definition shell_reporter : Reporter W :=
  mkReporter W shell_SendComponentUpgrade shell_SendPullRequestQueue shell_SendActivePromotionStatus shell_SendImageMissing
    shell_SendPullRequestTriggerResult shell_SendPullRequestTestRunnerPendingResult shell_SendActiveEnvironmentDeleted.
End shell.
