(* ===== verification/ReporterClaims.v ===== *)
(** The properties of the reporters. *)

From S2P Require Import Prelude.
From S2P Require Import GoRuntime.
From S2P Require Import Errors.
From S2P Require Import KubeApi.
From S2P Require Import ConfigTypes.
From S2P Require Import QueueTypes.
From S2P Require Import TeamTypes.
From S2P Require Import AtpTypes.
From S2P Require Import PrtTypes.
From S2P Require Import RpcTypes.
From S2P Require Import Interfaces.
From S2P Require Import SamsahaiCtrl.
From S2P Require Import Reporters.
From S2P Require Import HttpClient.
From S2P Require Import MSTeams.
From S2P Require Import ReporterPackages.
From S2P Require Import Versions.
From Stdlib Require Import Ascii.
Open Scope string_scope.
Open Scope list_scope.
Open Scope Z_scope.

(** ** What is reported *)

(** The report of an upgrade is due: at every attempt or at the last one only, and for the
    wanted results. *)
Definition due (event : option (ReporterInterval * ReporterCriteria)) (isReverify : bool) (status : StatusType) : Prop :=
  match event with
  | None => True
  | Some (interval, criteria) =>
      (interval = IntervalEveryTime \/ isReverify = true) /\
      match criteria with
      | CriteriaBoth => True
      | CriteriaSuccess => status = StatusSuccess
      | _ => status = StatusFailure
      end
  end.

Lemma wanted_due event isReverify status : wanted event isReverify status = true <-> due event isReverify status.
Proof.
  unfold wanted, due. destruct event as [[interval criteria]|]; [|done].
  destruct interval, isReverify, criteria, status; simpl; naive_solver.
Qed.

Section slack.
Context {W : Type} `{CC : ConfigController W, SL : SlackAPI W}.
Context (TX : ReportTexts) (sent : W -> list (string * string)) (fails : string -> option error).
Context (Hsent : forall channel message w,
           sent (snd (slack_PostMessage channel message w)) = sent w ++ [(channel, message)]).
Context (Hfails : forall channel message w,
           fst (slack_PostMessage channel message w) = match fails channel with Some err => Err err | None => Ok tt end).

Lemma slack_channels_all channels message err w :
  fst (slack_channels channels message err w) =
    Ok (match last (omap fails channels) with Some err => Some err | None => err end) /\
  sent (snd (slack_channels channels message err w)) = sent w ++ map (fun channel => (channel, message)) channels.
Proof.
  revert err w. induction channels as [|channel rest IH]; intros err w; [simpl; by rewrite app_nil_r|].
  cbn [slack_channels]. unfold attempt, mbind, M_bind.
  specialize (Hsent channel message w). specialize (Hfails channel message w).
  destruct (slack_PostMessage channel message w) as [r w'] eqn:E. simpl in Hsent, Hfails. subst r.
  simpl. destruct (fails channel) as [e|] eqn:F; simpl;
    [destruct (IH (Some e) w') as [Hr Hs]|destruct (IH err w') as [Hr Hs]]; rewrite Hr, Hs, Hsent, <- app_assoc;
    (split; [|done]); [|done].
  rewrite last_cons. change (list_omap _ _ fails rest) with (omap fails rest). by destruct (last (omap fails rest)).
Qed.

Lemma slack_post_all slackConfig message w :
  fst (slack_post slackConfig message w) =
    match last (omap fails (rs_Channels slackConfig)) with Some err => Err err | None => Ok tt end /\
  sent (snd (slack_post slackConfig message w)) =
    sent w ++ map (fun channel => (channel, message)) (rs_Channels slackConfig).
Proof.
  destruct (slack_channels_all (rs_Channels slackConfig) message None w) as [Hr Hs].
  unfold slack_post, mbind, M_bind. destruct (slack_channels _ message None w) as [r w']. simpl in Hr, Hs. subst r.
  rewrite <- Hs. by destruct (last (omap fails _)).
Qed.
End slack.

(** a component upgrade that a team's Slack configuration asks to be told of is posted to
    every channel of the team, with the event's own extra message before the general one and
    the missing images after the text, if there are any, in order and also after a channel that fails, and the error of
    the last channel that failed is the result; one that it does not ask for is posted
    nowhere, without an error. *)
Theorem slack_tells_every_channel {W : Type} `{CC : ConfigController W, SL : SlackAPI W}
    (TX : ReportTexts) (sent : W -> list (string * string)) (fails : string -> option error)
    (comp : ComponentUpgradeReporter) (config : Config) (reporter : ConfigReporter) (slack : ReporterSlack) (w w1 : W)
    (Hsent : forall channel message w,
       sent (snd (slack_PostMessage channel message w)) = sent w ++ [(channel, message)])
    (Hfails : forall channel message w,
       fst (slack_PostMessage channel message w) = match fails channel with Some err => Err err | None => Ok tt end)
    (Hconfig : cfg_Get (cu_TeamName (cur_ComponentUpgrade comp)) w = (Ok config, w1) /\ sent w1 = sent w)
    (Hslack : reporter_config config = Some reporter /\ cr_Slack reporter = Some slack) :
  let report := slack_SendComponentUpgrade TX comp w in
  let is_due := due (upgrade_event (rs_ComponentUpgrade slack)) (cu_IsReverify (cur_ComponentUpgrade comp)) (cur_StatusStr comp) in
  let images := convertRPCImageListToK8SImageList (cu_ImageMissingList (cur_ComponentUpgrade comp)) in
  (is_due -> exists message,
     message = tx_ComponentUpgrade TX comp
         (match cur_ExtraMessage <$> rs_ComponentUpgrade slack with
          | None | Some EmptyString => rs_ExtraMessage slack
          | Some extra => extra
          end) +:+
         (match images with [] => "" | _ => line_break +:+ tx_ImageMissing TX images "" end) /\
     sent (snd report) = sent w ++ map (fun channel => (channel, message)) (rs_Channels slack) /\
     fst report = match last (omap fails (rs_Channels slack)) with Some err => Err err | None => Ok tt end) /\
  (~ is_due -> sent (snd report) = sent w /\ fst report = Ok tt).
Proof.
  destruct Hconfig as [Hc Hw], Hslack as [Hr Hs]. cbv zeta.
  assert (attempt (getSlackConfig (cu_TeamName (cur_ComponentUpgrade comp))) w = (Ok (inr slack), w1)) as Hg.
  { unfold attempt, getSlackConfig, mbind, M_bind. rewrite Hc, Hr. destruct reporter; simpl in Hs. by subst. }
  unfold slack_SendComponentUpgrade, with_slack. cbv zeta. rewrite (bind_run _ _ _ _ _ Hg).
  rewrite <- !wanted_due. destruct (wanted _ _ _); simpl; split; try done.
  intros _. set (message := with_missing _ _ _ _). exists message. rewrite <- Hw.
  split.
  { unfold message, with_missing. destruct (convertRPCImageListToK8SImageList _) as [|image images]; cbn [length Nat.ltb Nat.leb].
    - rewrite string_app_nil_r. by destruct (rs_ComponentUpgrade slack) as [[? ? []]|].
    - by destruct (rs_ComponentUpgrade slack) as [[? ? []]|]. }
  destruct (slack_post_all sent fails Hsent Hfails slack message w1) as [H1 H2]. by rewrite H1, H2.
Qed.

(** ** Microsoft Teams *)

(** A group that is not found is not an error of the report: nobody is told, and nobody
    learns of it. *)
Theorem report_lost_without_error {W : Type} `{MS : MSTeamsAPI W}
    (msTeamsConfig : ReporterMSTeams) (message token : string) (w w1 : W) :
  ms_GetAccessToken w = (Ok token, w1) ->
  (forall group w, group ∈ rm_Groups msTeamsConfig ->
     exists err, fst (ms_GetGroupID (mg_GroupNameOrID group) token w) = Err err) ->
  fst (msteams_post msTeamsConfig message w) = Ok tt.
Proof.
  intros Ht Hg. unfold msteams_post. rewrite (bind_run _ _ _ _ _ Ht).
  assert (forall groups w, (forall g, g ∈ groups -> g ∈ rm_Groups msTeamsConfig) ->
            fst (msteams_groups message token groups None w) = Ok None) as Hall.
  { induction groups as [|g l IH]; intros w' Hin; [done|]. cbn [msteams_groups].
    destruct (Hg g w' ltac:(apply Hin; left)) as [err He].
    unfold attempt, mbind at 1, M_bind. destruct (ms_GetGroupID _ token w') as [r w'']. simpl in He. subst r.
    apply IH. intros g' Hg'. apply Hin. by right. }
  specialize (Hall (rm_Groups msTeamsConfig) w1 ltac:(done)). unfold mbind, M_bind.
  destruct (msteams_groups message token _ None w1) as [r w2]. simpl in Hall. by subst r.
Qed.

(** The user is asked for with the token at hand.  When it has expired it is not renewed, as
    it is everywhere else: the requests are repeated without one until the time is up. *)
Theorem expired_token_never_renewed {W : Type}
    `{HT : HttpTransport W, GO : GoSchedule W, DL : Deadline W, TJ : TeamsJSON} (c : MSTeamsClient)
    (accessToken : string) (err : error) (w : W) :
  (forall opts w, fst (http_Get (mt_baseGraphURL c +:+ "/me") opts w) = Ok (401, inl err)) ->
  fst (getMyUserID c accessToken w) = Err ErrRequestTimeout.
Proof.
  intros Hget. unfold getMyUserID, by_deadline, mbind at 1, M_bind.
  destruct (before_deadline w) as [n w1].
  assert (forall k token w, fst (profile_pages c token k w) = Ok None) as Hp.
  { induction k as [|k IH]; intros token w'; [done|]. cbn [profile_pages].
    specialize (Hget (authorized teamsRequestTimeout token) w'). unfold mbind, M_bind.
    destruct (http_Get _ _ w') as [r w'']. simpl in Hget. subst r. apply IH. }
  specialize (Hp n accessToken w1). destruct (profile_pages c accessToken n w1) as [r w2]. simpl in Hp. by subst r.
Qed.

(** Elsewhere a token that has expired is renewed once it is refused. *)
Lemma with_token_renews {W : Type} `{HT : HttpTransport W, GO : GoSchedule W, TJ : TeamsJSON} (c : MSTeamsClient)
    (send : string -> M W (Z * (error + string))) (old new res : string) (err : error) (n : nat) (w w1 w2 w3 : W) :
  old <> "" -> send old w = (Ok (401, inl err), w1) -> GetAccessToken c w1 = (Ok new, w2) ->
  send new w2 = (Ok (200, inr res), w3) ->
  with_token c send old (S (S n)) w = (Ok (Some (inr res)), w3).
Proof.
  intros Hne Hold Hnew Hsend. cbn [with_token]. unfold renewed. rewrite (proj2 (String.eqb_neq _ _) Hne).
  rewrite (bind_run (mret (inr old)) _ w (inr old) w eq_refl), (bind_run _ _ _ _ _ Hold).
  change (401 =? 401) with true. cbv match. cbn [String.eqb].
  rewrite (bind_run _ _ _ (inr new) w2) by (unfold attempt; by rewrite Hnew).
  by rewrite (bind_run _ _ _ _ _ Hsend).
Qed.

(** ** A world in memory *)

Module ReporterSim.

(** What was posted to channels, and the headers of requests to Gitlab. *)
Record SimWorld := mkSimWorld { sw_sent : list (string * string); sw_tokens : list (string * string) }.

Definition sim_slack : ReporterSlack :=
  mkReporterSlack ["ops"; "gone"; "dev"] "hello" (Some (mkConfigComponentUpgradeReport IntervalRetry CriteriaFailure "check it"))
    None None None.
(** Both teams publish to Gitlab, at its address. *)
Definition sim_bundle : PullRequestBundle :=
  mkPullRequestBundle "api" [] None [] "" "42" (mkPullRequestExtraConfig None None None).
Definition sim_reporter : ConfigReporter :=
  mkConfigReporter [] (Some sim_slack) None None (Some (mkReporterGitlab true "https://gitlab")) None None false.
Definition sim_config (team : string) : Config :=
  mkConfig (namedMeta "" team) (mkConfigSpec [] ∅ [] None None None [] None "")
    (mkConfigStatus (mkConfigSpec [] ∅ [] None None
       (Some (mkConfigPullRequest 0 (mkPullRequestTriggerConfig 0 None) (Some [sim_bundle]) 0 (mkPullRequestExtraConfig None None None)))
       [] (Some sim_reporter) "") "" false []).
Definition unused {A} : M SimWorld A := throw ErrNotImplemented.
#[export] Instance sim_configs : ConfigController SimWorld := {|
  cfg_Get team := mret (sim_config team); cfg_GetComponents _ := unused; cfg_GetParentComponents _ := unused;
  cfg_GetPullRequestComponents _ _ _ := unused; cfg_GetBundles _ := unused; cfg_GetPriorityQueues _ := unused;
  cfg_GetStagingConfig _ := unused; cfg_GetPullRequestConfig _ := unused;
  cfg_GetPullRequestBundleDependencies _ _ := unused; cfg_Update _ := unused; cfg_Delete _ := unused;
  cfg_EnsureConfigTemplateChanged := throw ErrNotImplemented;
|}.
Definition sim_fails (channel : string) : option error :=
  if String.eqb channel "gone" then Some (Errors.New "channel_not_found") else None.
#[export] Instance sim_slack_api : SlackAPI SimWorld := fun channel message w =>
  (match sim_fails channel with Some err => Err err | None => Ok tt end,
   mkSimWorld (sw_sent w ++ [(channel, message)]) (sw_tokens w)).
#[export] Instance sim_transport : HttpTransport SimWorld := {|
  http_Do _ _ req w := (Ok (mkResponse 200 (inr "")),
    mkSimWorld (sw_sent w) (sw_tokens w ++ [(rq_URL req, default "" (rq_Header req !! "Private-Token"))]));
  url_Parse := inr;
  url_JoinPath := String.append;
|}.
#[export] Instance sim_schedule : GoSchedule SimWorld := fun n w => (1%nat, w).
#[export] Instance sim_json : GitJSON := {|
  json_object l := String.concat "," (map fst l); json_SourceBranch := inr |}.
Definition sim_texts : ReportTexts :=
  mkReportTexts (fun _ extra => extra) (fun _ extra => extra) (fun _ extra => extra) (fun _ => "") "" "" "" (fun _ => "")
    (fun _ _ => "") (fun _ extra => extra).
Definition sim_samsahai : SamsahaiConfig :=
  mkSamsahaiConfig "" "" "" "https://s2h" "" "" "" "" (mkActivePromotionConfig 0 0 0 0 0 None 0 false)
    (mkPullRequestConfig 0 0 0 0 0) None ∅ ∅ ∅ ""
    (mkSamsahaiCredential "" "" "" (mkMSTeamsCredential "" "" "" "" "") "" "" "").

(** The report of a failed upgrade of a team, on a pull request, with the token of the team. *)
Definition sim_upgrade (team : string) (token : option string) : ComponentUpgradeReporter :=
  mkComponentUpgradeReporter IssueUnknown StatusFailure 0 noTestRunner
    (mkCredential "" None None ((fun t => mkTokenCredential None t) <$> token))
    (mkComponentUpgrade UpgradeStatus_FAILURE "q" team [] IssueType_UNKNOWN "hist" [] "" "" 1 true
       ReverificationStatus_UNKNOWN [] (Some (mkTeamWithPullRequest team "api" "7" ("sha-" +:+ team) "" 0 [])) "")
    sim_samsahai.

Lemma slack_tells_every_channel_witness :
  snd (slack_SendComponentUpgrade sim_texts (sim_upgrade "shop" None) (mkSimWorld [] [])) =
    mkSimWorld [("ops", "check it"); ("gone", "check it"); ("dev", "check it")] [] /\
  fst (slack_SendComponentUpgrade sim_texts (sim_upgrade "shop" None) (mkSimWorld [] [])) =
    Err (Errors.New "channel_not_found").
Proof.
  split; [by vm_compute|].
  assert (forall channel message w, sw_sent (snd (slack_PostMessage channel message w)) = sw_sent w ++ [(channel, message)])
    as Hsent by done.
  assert (forall channel message (w : SimWorld), fst (slack_PostMessage channel message w) =
            match sim_fails channel with Some err => Err err | None => Ok tt end) as Hfails by done.
  assert (cfg_Get "shop" (mkSimWorld [] []) = (Ok (sim_config "shop"), mkSimWorld [] []) /\
          sw_sent (mkSimWorld [] []) = sw_sent (mkSimWorld [] [])) as Hcfg by done.
  assert (reporter_config (sim_config "shop") = Some sim_reporter /\ cr_Slack sim_reporter = Some sim_slack) as Hsl by done.
  destruct (slack_tells_every_channel sim_texts sw_sent sim_fails (sim_upgrade "shop" None) (sim_config "shop") sim_reporter
    sim_slack (mkSimWorld [] []) (mkSimWorld [] []) Hsent Hfails Hcfg Hsl) as [Hdue _].
  destruct Hdue as (message & _ & _ & ->); [|by vm_compute].
  split; [by right|done].
Defined.

(** One reporter serves all teams and keeps the token of the last one that had its own: the
    status of a team without one is published with the token of another team. *)
Theorem git_token_of_another_team :
  let reporter := mkGitReporter None "https://gitlab" "token of Samsahai" in
  let '(r, (w, _)) :=
    (run gitlab_SendPullRequestQueue (sim_upgrade "shop" (Some "token of shop"));
     gitlab_SendPullRequestQueue (sim_upgrade "ads" None)) (mkSimWorld [] [], reporter) in
  r = Ok tt /\
  drop 2 (sw_tokens w) =
    [("https://gitlab/api/v4/projects/42/statuses/sha-ads", "token of shop");
     ("https://gitlab/api/v4/projects/42/statuses/sha-ads", "token of shop")].
Proof. by vm_compute. Qed.

(** The commit of a report without a pull request is asked for. *)
Theorem report_without_pull_request_panics :
  let comp := sim_upgrade "shop" None in
  fst (gitlab_SendPullRequestQueue (comp <| cur_ComponentUpgrade ::= fun m => m <| cu_PullRequestComponent := None |> |>)
         (mkSimWorld [] [], mkGitReporter None "" "")) = Panic NilDereference.
Proof. by vm_compute. Qed.
End ReporterSim.
