(* ===== verification/S2hLoad.v ===== *)
(** Model of the rest of [internal/samsahai/controller.go]: the checkers, the reporters and
    the plugins that Samsahai loads when it starts, and what it reads for the web pages.

    The nodes and the ingresses of the cluster, and the ports of its services, are read
    through a class; so is a random number. *)

From S2P Require Import Prelude.
From S2P Require Import GoRuntime.
From S2P Require Import Errors.
From S2P Require Import KubeApi.
From S2P Require Import ConfigTypes.
From S2P Require Import ComponentTypes.
From S2P Require Import QueueTypes.
From S2P Require Import TeamTypes.
From S2P Require Import AtpTypes.
From S2P Require Import PrqTypes.
From S2P Require Import StgTypes.
From S2P Require Import Values.
From S2P Require Import Interfaces.
From S2P Require Import ConfigCtrl.
From S2P Require Import Reporters.
From S2P Require Import HttpClient.
From S2P Require Import Checkers.
From S2P Require Import MSTeams.
From S2P Require Import Commands.
From S2P Require Import ReporterPackages.
Open Scope string_scope.
Open Scope list_scope.
Open Scope Z_scope.

(** ** Reporters *)

(** What is created of each package. *)
Inductive loaded_reporter :=
| LoadedMock | LoadedRest | LoadedShell
| LoadedGithub (url token : string)
| LoadedSlack (token : string)
| LoadedMSTeams (client : MSTeamsClient)
| LoadedGitlab (url token : string).
Definition reporter_name (r : loaded_reporter) : string :=
  match r with
  | LoadedMock => "reportermock" | LoadedRest => "rest" | LoadedShell => "shell" | LoadedGithub _ _ => "github"
  | LoadedSlack _ => "slack" | LoadedMSTeams _ => "msteams" | LoadedGitlab _ _ => "gitlab"
  end.

(** The last of a name stays. *)
Definition by_name {A} (name : A -> string) (l : list A) : gmap string A := foldl (fun m x => <[name x := x]> m) ∅ l.

Definition given_text (s : string) : bool := negb (String.eqb s "").
Definition loadReporters (configs : SamsahaiConfig) : gmap string loaded_reporter :=
  let cred := s2h_SamsahaiCredential configs in
  let ms := scr_MSTeams cred in
  by_name reporter_name (
    [LoadedMock; LoadedRest; LoadedShell; LoadedGithub (s2h_GithubURL configs) (scr_GithubToken cred)] ++
    (if given_text (scr_SlackToken cred) then [LoadedSlack (scr_SlackToken cred)] else []) ++
    (if given_text (mc_TenantID ms) && given_text (mc_ClientID ms) && given_text (mc_ClientSecret ms) &&
        given_text (mc_Username ms) && given_text (mc_Password ms)
     then [LoadedMSTeams (NewMSTeamsClient (mc_TenantID ms) (mc_ClientID ms) (mc_ClientSecret ms) (mc_Username ms) (mc_Password ms))]
     else []) ++
    (if given_text (scr_GitlabToken cred) then [LoadedGitlab (s2h_GitlabURL configs) (scr_GitlabToken cred)] else [])).

(** ** Checkers and plugins *)

Section load.
Context {W : Type} `{HT : HttpTransport W, DL : Deadline W, RX : GoRegexp, IN : ImageNames, RJ : RegistryJSON, GS : GoSort}.
Context `{EX : Executables W, GO : GoSchedule W}.

Definition loadCheckers : gmap string (Checker W) :=
  <[HarborCheckerName := harbor_checker []]> (<[PublicRegistryCheckerName := public_checker]> ∅).

(** A program that cannot be asked for its name is left out, and so is the second of a name.
    A plugin takes the place of the checker of its name. *)
Fixpoint loadPlugins (cwd : string) (files : list string) (plugins : gmap string plugin) (checkers : gmap string (Checker W))
    : M W (gmap string plugin * gmap string (Checker W)) :=
  match files with
  | [] => mret (plugins, checkers)
  | file :: rest =>
      do r <- attempt (NewPlugin file cwd);
      match r with
      | inl _ => loadPlugins cwd rest plugins checkers
      | inr p =>
          match plugins !! pl_name p with
          | Some _ => loadPlugins cwd rest plugins checkers
          | None => loadPlugins cwd rest (<[pl_name p := p]> plugins) (<[pl_name p := plugin_checker p]> checkers)
          end
      end
  end.
End load.

(** ** Connections *)

Record Connection := mkConnection {
  cn_Name : string;
  cn_URL : string;
  cn_IP : string;
  cn_Port : string;
  cn_ServicePort : string;
  cn_Type : string;
  cn_ContainerPort : string;
}.
Inductive NodeAddress := NodeInternalIP (a : string) | NodeExternalIP (a : string) | NodeHostName (a : string) | OtherAddress.
Record ServicePort := mkServicePort { sp_Name : string; sp_Port : Z; sp_NodePort : Z; sp_TargetPort : string }.
(** A service: its name, whether it is of type [NodePort], and its ports. *)
Record ServiceView := mkServiceView { sv_Name : string; sv_IsNodePort : bool; sv_Ports : list ServicePort }.
(** A rule of an ingress: its host and, when it has an HTTP part, the services and ports of
    its paths. *)
Record IngressRule := mkIngressRule { ir_Host : string; ir_HTTP : option (list (string * string)) }.
Record IngressView := mkIngressView { iv_Name : string; iv_TLSHosts : list (list string); iv_Rules : list IngressRule }.

(** [rand.IntnRange(0, n)] panics when [n] is not positive. *)
Class ConnectionOutside (W : Type) := {
  cx_nodes : M W (list (list NodeAddress));
  cx_services : string -> M W (list ServiceView);
  cx_ingresses : string -> M W (list IngressView);
  cx_IntnRange : nat -> M W nat;
}.

Section web.
Context {W : Type} `{GR : GoRuntime W}.

(** The last address of each type counts; an internal one is preferred. *)
Definition node_address (addresses : list NodeAddress) : string :=
  let '(internalIP, externalIP, hostName) :=
    foldl (fun '(i, e, h) addr =>
      match addr with
      | NodeInternalIP a => (a, e, h) | NodeExternalIP a => (i, a, h) | NodeHostName a => (i, e, a) | OtherAddress => (i, e, h)
      end) ("", "", "") addresses in
  if given_text internalIP then internalIP else if given_text externalIP then externalIP else hostName.
Definition getNodeIP `{CX : ConnectionOutside W} (nodes : list (list NodeAddress)) : M W string :=
  do i <- cx_IntnRange (length nodes);
  do node <- index nodes i;
  mret (node_address node).

Definition appended {A} (key : string) (x : A) (m : gmap string (list A)) : gmap string (list A) :=
  <[key := default [] (m !! key) ++ [x]]> m.
Definition port_connection (nodeIP : string) (port : ServicePort) : Connection :=
  mkConnection (sp_Name port) "" nodeIP (pretty (sp_NodePort port)) (pretty (sp_Port port)) "NodePort" (sp_TargetPort port).
(** The ports of a service, by number and by name, and the connections to them. *)
Definition service_ports (svcName nodeIP : string) (ports : list ServicePort)
    (acc : gmap string ServicePort * gmap string (list Connection)) : gmap string ServicePort * gmap string (list Connection) :=
  foldl (fun '(byKey, data) port =>
    (<[svcName +:+ "," +:+ sp_Name port := port]> (<[svcName +:+ "," +:+ pretty (sp_Port port) := port]> byKey),
     appended svcName (port_connection nodeIP port) data)) acc ports.

(** The port of the first path that leads to a known one. *)
Definition rule_port (byKey : gmap string ServicePort) (paths : list (string * string)) : option ServicePort :=
  head (omap (fun path => byKey !! (fst path +:+ "," +:+ snd path)) paths).
Definition rule_connection (ingName proto host : string) (port : option ServicePort) : Connection :=
  match port with
  | Some port => mkConnection (sp_Name port) (proto +:+ host) "" "" (pretty (sp_Port port)) "Ingress" (sp_TargetPort port)
  | None => mkConnection ingName (proto +:+ host) "" "" "" "Ingress" ""
  end.
(** The hosts of earlier ingresses with a certificate count for later ones too. *)
Fixpoint ingress_connections (byKey : gmap string ServicePort) (ingresses : list IngressView) (httpsHosts : list string)
    (data : gmap string (list Connection)) : M W (gmap string (list Connection)) :=
  match ingresses with
  | [] => mret data
  | ing :: rest =>
      let httpsHosts := httpsHosts ++ concat (iv_TLSHosts ing) in
      do r <- for_range (iv_Rules ing) data (fun rule data =>
        let proto := if bool_decide (ir_Host rule ∈ httpsHosts) then "https://" else "http://" in
        do paths <- deref (ir_HTTP rule);
        mret (Next (R:=unit) (appended (iv_Name ing)
                (rule_connection (iv_Name ing) proto (ir_Host rule) (rule_port byKey paths)) data)));
      match r with inl data => ingress_connections byKey rest httpsHosts data | inr _ => mret data end
  end.
Fixpoint service_connections `{CX : ConnectionOutside W} (nodes : list (list NodeAddress)) (services : list ServiceView)
    (acc : gmap string ServicePort * gmap string (list Connection))
    : M W (gmap string ServicePort * gmap string (list Connection)) :=
  match services with
  | [] => mret acc
  | svc :: rest =>
      if negb (sv_IsNodePort svc) then service_connections nodes rest acc else
      do nodeIP <- getNodeIP nodes;
      service_connections nodes rest (service_ports (sv_Name svc) nodeIP (sv_Ports svc) acc)
  end.
Definition GetConnections `{CX : ConnectionOutside W} (namespace : string) : M W (gmap string (list Connection)) :=
  do nodes <- wrapping "cannot list nodes" cx_nodes;
  do services <- wrapping "cannot list services" (cx_services namespace);
  do ingresses <- wrapping "cannot list ingresses" (cx_ingresses namespace);
  do ' (byKey, data) <- service_connections nodes services (∅, ∅);
  ingress_connections byKey ingresses [] data.

(** ** What is listed *)

Definition GetPullRequestQueueHistories `{KClient W PullRequestQueueHistory} (namespace : string)
    : M W (list PullRequestQueueHistory) :=
  wrapping "cannot list pull request queue histories" (k_list PullRequestQueueHistory (InNamespace namespace)).
Definition GetPullRequestQueueHistory `{KClient W PullRequestQueueHistory} (name namespace : string)
    : M W PullRequestQueueHistory :=
  k_get PullRequestQueueHistory (namespace, name).
Definition GetPullRequestQueues `{KClient W PullRequestQueue} (namespace : string) : M W (list PullRequestQueue) :=
  wrapping "cannot list pull request queues" (k_list PullRequestQueue (InNamespace namespace)).
Definition GetQueueHistories `{KClient W QueueHistory} (namespace : string) : M W (list QueueHistory) :=
  wrapping "cannot list queue histories" (k_list QueueHistory (InNamespace namespace)).
Definition GetQueueHistory `{KClient W QueueHistory} (name namespace : string) : M W QueueHistory :=
  k_get QueueHistory (namespace, name).
Definition GetActivePromotions `{KClient W ActivePromotion} : M W (list ActivePromotion) :=
  k_list ActivePromotion (InNamespace "").
Definition GetActivePromotion `{KClient W ActivePromotion} (name : string) : M W ActivePromotion :=
  k_get ActivePromotion ("", name).
Definition GetActivePromotionHistories `{KClient W ActivePromotionHistory} (selectors : gmap string string)
    : M W (list ActivePromotionHistory) :=
  k_list ActivePromotionHistory (MatchingLabels selectors).
Definition GetActivePromotionHistory `{KClient W ActivePromotionHistory} (name : string) : M W ActivePromotionHistory :=
  k_get ActivePromotionHistory ("", name).

(** The values of a component, pinned to the stable versions of the staging namespace. *)
Definition GetStableValues `{KClient W StableComponent, ConfigController W, ConfigOutside W} (team : Team) (comp : Component)
    : M W ComponentValues :=
  do stableComps <- GetStableComponentsMap (tn_Staging (tst_Namespace (team_Status team)));
  do config <- cfg_Get (kname team);
  do values <- GetEnvComponentValues (cst_Used (config_Status config)) (cp_Name comp) (kname team) EnvBase;
  mret (GenStableComponentValues comp stableComps values).
End web.
