(* ===== verification/Webhook.v ===== *)
(** Model of the web hooks and pages of Samsahai, [internal/samsahai/webhook]: the handlers
    of requests, over the response that they write.

    The first status that is written is the one that is sent, with the headers of that
    moment, and what is written beyond the announced length is dropped, as [net/http] does.
    Encoding and decoding are parameters; the objects that are encoded are values of
    [payload]. *)

From S2P Require Import Prelude.
From S2P Require Import GoRuntime.
From S2P Require Import Errors.
From S2P Require Import KubeApi.
From S2P Require Import KubeObjects.
From S2P Require Import ConfigTypes.
From S2P Require Import ComponentTypes.
From S2P Require Import QueueTypes.
From S2P Require Import QueueCtrl.
From S2P Require Import TeamTypes.
From S2P Require Import AtpTypes.
From S2P Require Import PrqTypes.
From S2P Require Import PrtTypes.
From S2P Require Import StgTypes.
From S2P Require Import Interfaces.
From S2P Require Import ConfigCtrl.
From S2P Require Import PrtCtrl.
From S2P Require Import SamsahaiCtrl.
From S2P Require Import StbCtrl.
From S2P Require Import S2hProcess.
From S2P Require Import Versions.
From S2P Require Import HttpClient.
From S2P Require Import Checkers.
From S2P Require Import Commands.
From S2P Require Import S2hLoad.
From Stdlib Require Import Ascii.
Open Scope string_scope.
Open Scope list_scope.
Open Scope Z_scope.

(** ** Responses *)

Record ResponseWriter := mkResponseWriter {
  rw_Header : gmap string string;
  rw_Sent : option (Z * gmap string string);
  rw_Body : string;
}.
#[export] Instance eta_ResponseWriter : Eta ResponseWriter := fun x =>
  mkResponseWriter (rw_Header x) (rw_Sent x) (rw_Body x).
Definition new_response : ResponseWriter := mkResponseWriter ∅ None "".

Definition set_header (key value : string) (w : ResponseWriter) : ResponseWriter :=
  w <| rw_Header ::= <[CanonicalHeaderKey key := value]> |>.
Definition write_header (statusCode : Z) (w : ResponseWriter) : ResponseWriter :=
  match rw_Sent w with Some _ => w | None => w <| rw_Sent := Some (statusCode, rw_Header w) |> end.
Definition fits (w : ResponseWriter) (data : string) : bool :=
  match rw_Sent w with
  | Some (_, headers) =>
      match headers !! "Content-Length" with
      | Some n => Z.of_nat (String.length (rw_Body w) + String.length data) <=? Atoi n
      | None => true
      end
  | None => true
  end.
Definition write_data (data : string) (w : ResponseWriter) : ResponseWriter :=
  let w := write_header 200 w in
  if fits w data then w <| rw_Body ::= fun body => body +:+ data |> else w.

(** ** What is encoded *)

Record teamEnvConnections := mkTeamEnvConnections {
  tec_Staging : gmap string (list Connection);
  tec_PreActive : gmap string (list Connection);
  tec_Active : gmap string (list Connection);
  tec_PullRequest : gmap string (gmap string (list Connection));
}.
Record teamJSON := mkTeamJSON {
  tj_Namespace : TeamNamespace;
  tj_TeamName : string;
  tj_Connections : teamEnvConnections;
  tj_Status : TeamStatus;
  tj_Spec : TeamSpec;
}.
Record teamQueueJSON := mkTeamQueueJSON {
  tq_NoOfQueue : Z; tq_Current : option Queue; tq_Queues : list Queue; tq_Histories : list string }.
Record teamPRQueueJSON := mkTeamPRQueueJSON {
  tpq_NoOfQueue : Z; tpq_Current : option PullRequestQueue; tpq_Queues : list PullRequestQueue; tpq_Histories : list string }.
Record activePromotion := mkActivePromotionJSON { apj_Running : list ActivePromotion; apj_InQueues : list string }.
Record teamActivePromotion := mkTeamActivePromotion { tap_Current : option ActivePromotion; tap_Histories : list string }.
Inductive payload :=
| VersionJSON (version gitCommit : string)
| HealthJSON (msg : string)
| ErrResp (text : string)
| TeamsJSON (teams : list string)
| TeamJSON (team : teamJSON)
| ComponentsJSON (comps : gmap string Component)
| TeamQueueJSON (queues : teamQueueJSON)
| QueueHistoryJSON (history : QueueHistory)
| ValuesJSON (values : ComponentValues)
| ConfigJSON (config : ConfigSpec)
| ActivePromotionsJSON (promotions : activePromotion)
| TeamActivePromotionJSON (promotions : teamActivePromotion)
| PromotionHistoriesJSON (histories : list ActivePromotionHistory)
| PromotionHistoryJSON (history : ActivePromotionHistory)
| TeamPRQueueJSON (queues : teamPRQueueJSON)
| PRQueueHistoryJSON (history : PullRequestQueueHistory).

(** What the web hooks are sent. *)
Record newComponentEventJSON := mkNewComponentEventJSON { nce_TeamName : string; nce_Component : string; nce_Repository : string }.
Record Components := mkComponents { wc_Name : string; wc_Tag : string }.
Record pullRequestWebhookEventJSON := mkPullRequestWebhookEventJSON {
  pwe_BundleName : string;
  pwe_PRNumber : string;
  pwe_CommitSHA : string;
  pwe_Components : list Components;
  pwe_TearDownDuration : option PullRequestTearDownDuration;
  pwe_TestRunner : option ConfigTestRunnerOverrider;
}.
Class WebEncoding := {
  we_JSON : payload -> error + string;
  we_YAML : payload -> error + string;
  we_no_JSON : string;                       (* the text when an object cannot be encoded *)
  we_no_YAML : string;
  we_component : string -> error + newComponentEventJSON;
  we_pull_request : string -> error + pullRequestWebhookEventJSON;
  we_base64 : string -> error + string;
  we_error : error -> string;                (* an error formatted with its stack *)
  we_Version : string;
  we_GitCommit : string;
}.

(** A request: the parts of its path, its query, its [accept] header and its body. *)
Record WebRequest := mkWebRequest {
  wr_params : gmap string string;
  wr_deleted_by : option (list string);
  wr_accept : string;
  wr_body : error + string;
}.
Definition ByName (name : string) (r : WebRequest) : string := default "" (wr_params r !! name).

Section responses.
Context {W : Type} `{WE : WebEncoding}.
Definition Web (A : Type) : Type := M (W * ResponseWriter) A.

Definition web_write (statusCode : Z) (data : string) : Web unit :=
  mod_obj (fun w => write_data data (write_header statusCode (set_header "Content-Length" (pretty (String.length data)) w))).
Definition web_JSON (statusCode : Z) (data : payload) : Web unit :=
  run mod_obj (set_header "Content-Type" "application/json");
  match we_JSON data with
  | inl _ => web_write 500 we_no_JSON
  | inr b => web_write statusCode b
  end.
(** The status is written before the headers of the error. *)
Definition web_YAML (statusCode : Z) (data : payload) : Web unit :=
  match we_YAML data with
  | inl _ =>
      run mod_obj (write_header 500);
      run mod_obj (set_header "Content-Type" "application/json");
      web_write 500 we_no_YAML
  | inr b =>
      run mod_obj (set_header "Content-Type" "application/yaml");
      web_write statusCode b
  end.
Definition web_error (statusCode : Z) (text : string) : Web unit := web_JSON statusCode (ErrResp text).
End responses.

Section handlers.
Context {W : Type} `{WE : WebEncoding, GR : GoRuntime W, CC : ConfigController W, GS : GoSort}.
Context `{KTeam : KClient W Team}.
Notation Handler := (Web (W:=W) unit).

(** What a handler goes on with, or the answer that ended it. *)
Definition or_answer {A} (m : M W A) (answer : error -> Handler) (k : A -> Handler) : Handler :=
  do r <- onW (attempt m);
  match r with inl err => answer err | inr a => k a end.

Definition loadTeam (params : WebRequest) (k : Team -> Handler) : Handler :=
  let teamName := ByName "team" params in
  or_answer (fetchTeam teamName) (fun err =>
    if IsNotFound err then web_error 404 ("team " +:+ teamName +:+ " not found")
    else web_error 500 ("cannot get team: " +:+ we_error err)) k.

(** ** The version, the web hooks of components *)

Definition getVersion : Handler := web_JSON 200 (VersionJSON we_Version we_GitCommit).
Definition getHealthz : Handler := web_JSON 200 (HealthJSON "ok").

Definition readRequestBody (r : WebRequest) (k : string -> Handler) : Handler :=
  match wr_body r with inl _ => web_error 500 (err_text ErrInternalError) | inr data => k data end.
Definition no_content : Handler := mod_obj (write_header 204).

Definition newComponentWebhook `{WQ : WorkQueue W} (r : WebRequest) : Handler :=
  readRequestBody r (fun data =>
    match we_component data with
    | inl _ => web_error 400 (err_text ErrInvalidJSONData)
    | inr jsonData =>
        run onW (NotifyComponentChanged (nce_Component jsonData) (nce_Repository jsonData) (nce_TeamName jsonData));
        no_content
    end).
(** The plugin knows the component of the name that it is sent. *)
Definition pluginWebhookFunc `{WQ : WorkQueue W, EX : Executables W, GO : GoSchedule W} (p : plugin) (r : WebRequest) : Handler :=
  readRequestBody r (fun data =>
    match we_component data with
    | inl _ => web_error 400 (err_text ErrInvalidJSONData)
    | inr jsonData =>
        do compName <- onW (plugin_GetComponentName p (nce_Component jsonData));
        run (if negb (String.eqb compName "") then onW (NotifyComponentChanged compName "" "") else mret tt);
        no_content
    end).

(** ** Teams *)

Definition getTeams : Handler :=
  or_answer SamsahaiCtrl.GetTeams (fun err => web_error 500 ("cannot list teams: " +:+ we_error err)) (fun teamList =>
    web_JSON 200 (TeamsJSON (go_sort string_less (map kname teamList)))).

(** The connections of one environment, when the team has it. *)
Definition environment `{CX : ConnectionOutside W} (namespace env : string)
    (k : gmap string (list Connection) -> Handler) : Handler :=
  if String.eqb namespace "" then k ∅ else
  or_answer (GetConnections namespace)
    (fun err => web_error 500 ("cannot get " +:+ env +:+ " connections: " +:+ we_error err)) k.
Fixpoint pull_request_connections `{CX : ConnectionOutside W} (namespaces : list string)
    (acc : gmap string (gmap string (list Connection))) (k : gmap string (gmap string (list Connection)) -> Handler) : Handler :=
  match namespaces with
  | [] => k acc
  | prNamespace :: rest =>
      or_answer (GetConnections prNamespace)
        (fun err => web_error 500 ("cannot get pull-request connections: " +:+ we_error err))
        (fun connections => pull_request_connections rest (<[prNamespace := connections]> acc) k)
  end.
Definition getTeam `{CX : ConnectionOutside W} (r : WebRequest) : Handler :=
  loadTeam r (fun team =>
    let ns := tst_Namespace (team_Status team) in
    environment (tn_Staging ns) "staging" (fun staging =>
    environment (tn_Active ns) "active" (fun active =>
    environment (tn_PreActive ns) "pre-active" (fun preActive =>
    pull_request_connections (tn_PullRequests ns) ∅ (fun pullRequests =>
      web_JSON 200 (TeamJSON (mkTeamJSON ns (kname team) (mkTeamEnvConnections staging preActive active pullRequests)
        (team_Status team) ((tst_Used (team_Status team)) <| ts_Credential := noCredential |>)))))))).

Definition getTeamComponent (r : WebRequest) : Handler :=
  or_answer (cfg_GetComponents (ByName "team" r)) (fun err => web_error 500 ("cannot get components of team: " +:+ we_error err))
    (fun data => web_JSON 200 (ComponentsJSON data)).

(** The last of the queues that are not waiting. *)
Definition last_such {A} (p : A -> bool) (l : list A) : option A := last (List.filter p l).
Definition getTeamQueue `{KQ : KClient W Queue, KH : KClient W QueueHistory} (r : WebRequest) : Handler :=
  loadTeam r (fun team =>
    let staging := tn_Staging (tst_Namespace (team_Status team)) in
    or_answer (GetQueues staging) (fun err => web_error 500 ("cannot list queues: " +:+ we_error err)) (fun queues =>
    or_answer (GetQueueHistories staging) (fun err => web_error 500 ("cannot list queues: " +:+ we_error err)) (fun histories =>
      web_JSON 200 (TeamQueueJSON (mkTeamQueueJSON (Z.of_nat (length queues))
        (last_such (fun q => negb (bool_decide (qst_State (queue_Status q) = Waiting))) queues) queues
        (map (fun h => om_Name (qh_Meta h)) histories)))))).

(** A history of the staging namespace of the team. *)
Definition queue_history `{KH : KClient W QueueHistory} (r : WebRequest) (k : QueueHistory -> Handler) : Handler :=
  loadTeam r (fun team =>
    let queueHistoryName := ByName "queue" r in
    let staging := tn_Staging (tst_Namespace (team_Status team)) in
    let not_found := web_error 404 ("queue history " +:+ queueHistoryName +:+ " in team " +:+ kname team +:+ " not found") in
    if String.eqb queueHistoryName "" || String.eqb staging "" then not_found else
    or_answer (GetQueueHistory queueHistoryName staging)
      (fun err => if IsNotFound err then not_found else web_error 500 ("cannot get team: " +:+ we_error err)) k).
Definition getTeamQueueHistory `{KH : KClient W QueueHistory} (r : WebRequest) : Handler :=
  queue_history r (fun qh => web_JSON 200 (QueueHistoryJSON qh)).
(** The logs of a deployment, as a file of their name. *)
Definition send_log (name : string) (kubeZipLog : Web (W:=W) string) : Handler :=
  run mod_obj (set_header "Content-Type" "application/zip");
  run mod_obj (set_header "Content-Disposition" ("attachment; filename=" +:+ name +:+ "-log.zip"));
  do zip <- kubeZipLog;
  match we_base64 zip with
  | inl err => web_error 500 ("cannot decode zip log from base64: " +:+ we_error err)
  | inr data => mod_obj (write_data data)
  end.
Definition getTeamQueueHistoryLog `{KH : KClient W QueueHistory} (r : WebRequest) : Handler :=
  queue_history r (fun qh =>
    send_log (om_Name (qh_Meta qh)) (do q <- deref (qhs_Queue (qh_Spec qh)); mret (qst_KubeZipLog (queue_Status q)))).

(** An answer as YAML, for those who ask for it. *)
Definition web_values (r : WebRequest) (data : payload) : Handler :=
  if String.eqb (wr_accept r) "application/x-yaml" || String.eqb (wr_accept r) "text/yaml"
  then web_YAML 200 data else web_JSON 200 data.
Definition getTeamComponentStableValues `{KS : KClient W StableComponent, CO : ConfigOutside W} (r : WebRequest) : Handler :=
  loadTeam r (fun team =>
    let componentName := ByName "component" r in
    or_answer (cfg_GetParentComponents (kname team))
      (fun _ => web_error 400 ("cannot get parent components from config of team: " +:+ kname team)) (fun parentComps =>
    match parentComps !! componentName with
    | None => web_error 400 ("invalid component name: " +:+ componentName)
    | Some comp =>
        or_answer (GetStableValues team comp)
          (fun err => web_error 500 ("cannot get stable value for '" +:+ componentName +:+ "': " +:+ we_error err))
          (fun values => web_values r (ValuesJSON values))
    end)).
Definition getTeamConfig (r : WebRequest) : Handler :=
  loadTeam r (fun team =>
    or_answer (cfg_Get (kname team)) (fun _ => web_error 400 ("team config not found: " +:+ kname team))
      (fun config => web_values r (ConfigJSON (cst_Used (config_Status config))))).

(** ** Environments *)

Definition deleteTeamActiveEnvironment `{KStable : KClient W StableComponent, OUT : SamsahaiOutside W}
    {KObjs : forall k, KClient W (KubeObj k)} (r : WebRequest) : Handler :=
  loadTeam r (fun team =>
    do deletedBy <- match wr_deleted_by r with Some d => index d 0 | None => mret "" end;
    let activeNamespace := tn_Active (tst_Namespace (team_Status team)) in
    if String.eqb activeNamespace "" then web_error 400 "there is no active namespace to destroy" else
    or_answer (DeleteTeamActiveEnvironment (kname team) activeNamespace deletedBy)
      (fun err => if negb (IsEnsuringStableComponentsDestroyed err)
                  then web_error 500 ("delete active environment failed, " +:+ err_text err)
                  else mod_obj (write_header 200))
      (fun _ => mod_obj (write_header 200))).

(** ** Promotions *)

Definition getActivePromotions `{KA : KClient W ActivePromotion} : Handler :=
  or_answer GetActivePromotions (fun err => web_error 500 ("cannot get activepromotions: " +:+ we_error err)) (fun atpList =>
    let atpList := SortASC atpList in
    let waiting atp := bool_decide (ast_State (atp_Status atp) = ActivePromotionWaiting) in
    web_JSON 200 (ActivePromotionsJSON (mkActivePromotionJSON (List.filter (fun atp => negb (waiting atp)) atpList)
                                          (map kname (List.filter waiting atpList))))).

Definition getActivePromotionHistoryListByDESC `{KA : KClient W ActivePromotionHistory} (teamName : string)
    : M W (list ActivePromotionHistory) :=
  do atpHistList <- GetActivePromotionHistories (GetDefaultLabels teamName);
  mret (SortDESC atpHistList).
Definition getTeamActivePromotions `{KA : KClient W ActivePromotion, KH : KClient W ActivePromotionHistory} (r : WebRequest)
    : Handler :=
  loadTeam r (fun team =>
    let histories current :=
      or_answer (getActivePromotionHistoryListByDESC (kname team))
        (fun err => web_error 500 ("cannot get activepromotion histories of team " +:+ kname team +:+ ": " +:+ we_error err))
        (fun atpHistList => web_JSON 200 (TeamActivePromotionJSON (mkTeamActivePromotion current (map kname atpHistList)))) in
    or_answer (GetActivePromotion (kname team))
      (fun err => if negb (IsNotFound err)
                  then web_error 500 ("cannot get activepromotion of team " +:+ kname team +:+ ": " +:+ we_error err)
                  else histories None)
      (fun atp => histories (Some atp))).

(** The answer to an empty name does not end these handlers. *)
Definition nonempty_team (teamName : string) : Handler :=
  if String.eqb teamName "" then web_error 400 "team should not be empty" else mret tt.
Definition getTeamActivePromotionHistories `{KH : KClient W ActivePromotionHistory} (r : WebRequest) : Handler :=
  let teamName := ByName "team" r in
  run nonempty_team teamName;
  or_answer (getActivePromotionHistoryListByDESC teamName)
    (fun err => web_error 500 ("cannot get activepromotion histories of team " +:+ teamName +:+ ": " +:+ we_error err))
    (fun atpHistList => web_JSON 200 (PromotionHistoriesJSON atpHistList)).

(** A history with the label of the team. *)
Definition promotion_history `{KH : KClient W ActivePromotionHistory} (r : WebRequest)
    (k : ActivePromotionHistory -> Handler) : Handler :=
  let teamName := ByName "team" r in
  let atpHistName := ByName "history" r in
  run nonempty_team teamName;
  if String.eqb atpHistName "" then web_error 400 ("history " +:+ atpHistName +:+ " should not be empty") else
  let not_found := web_error 404 ("activepromotion history " +:+ atpHistName +:+ " of team " +:+ teamName +:+ " not found") in
  or_answer (GetActivePromotionHistory atpHistName)
    (fun err => if IsNotFound err then not_found
                else web_error 500 ("cannot get activepromotion history " +:+ atpHistName +:+ " of team " +:+ teamName +:+
                                    ": " +:+ we_error err))
    (fun atpHist => if negb (String.eqb (default "" (om_Labels (kmeta atpHist) !! GetTeamLabelKey)) teamName)
                    then not_found else k atpHist).
Definition getTeamActivePromotionHistory `{KH : KClient W ActivePromotionHistory} (r : WebRequest) : Handler :=
  promotion_history r (fun atpHist => web_JSON 200 (PromotionHistoryJSON atpHist)).
Definition getTeamActivePromotionHistoryLog `{KH : KClient W ActivePromotionHistory} (r : WebRequest) : Handler :=
  promotion_history r (fun atpHist =>
    send_log (kname atpHist) (do atp <- deref (ahs_ActivePromotion (ath_Spec atpHist));
                              mret (qst_KubeZipLog (ast_PreActiveQueue (atp_Status atp))))).

(** ** Pull requests *)

Definition alnum (c : ascii) : bool := is_lower c || is_digit c.
(** The end of a label: letters, digits and hyphens, not a hyphen at the end. *)
Fixpoint label_tail (s : string) : bool :=
  match s with
  | EmptyString => true
  | String c EmptyString => alnum c
  | String c s' => (alnum c || Ascii.eqb c "-"%char) && label_tail s'
  end.
Definition valid_label (s : string) : bool :=
  match s with EmptyString => false | String c s' => alnum c && label_tail s' end.
(** [validK8sNamePattern]: labels separated by dots. *)
Definition valid_k8s_name (s : string) : bool := forallb valid_label (split_on "."%char s).

(** Inferring the branch overrides the one of the configuration. *)
Definition infer_branch (testRunner : option ConfigTestRunnerOverrider) : option ConfigTestRunnerOverrider :=
  match testRunner with
  | Some (mkConfigTestRunnerOverrider timeout polling (Some (mkConfigGitlabOverrider project token None (Some true))) tc tm) =>
      Some (mkConfigTestRunnerOverrider timeout polling (Some (mkConfigGitlabOverrider project token (Some "") (Some true))) tc tm)
  | _ => testRunner
  end.
Definition component_tags (comps : list Components) : gmap string string :=
  foldl (fun m comp => <[wc_Name comp := wc_Tag comp]> m) ∅ comps.
Definition invalid_prNumber : string :=
  "invalid prNumber, must match regex ^[a-z0-9]([-a-z0-9]*[a-z0-9])?(\.[a-z0-9]([-a-z0-9]*[a-z0-9])?)*$".
Definition pullRequestWebhook `{S2H : SamsahaiController W, KT : KClient W PullRequestTrigger} (r : WebRequest) : Handler :=
  readRequestBody r (fun data =>
    match we_pull_request data with
    | inl _ => web_error 400 (err_text ErrInvalidJSONData)
    | inr jsonData =>
        if String.eqb (pwe_BundleName jsonData) "" || String.eqb (pwe_PRNumber jsonData) ""
        then web_error 400 "must define bundleName and prNumber"
        else if negb (valid_k8s_name (pwe_PRNumber jsonData)) then web_error 400 invalid_prNumber
        else
          or_answer (TriggerPullRequestDeployment (ByName "team" r) (pwe_BundleName jsonData) (pwe_PRNumber jsonData)
                       (pwe_CommitSHA jsonData) (component_tags (pwe_Components jsonData)) (pwe_TearDownDuration jsonData)
                       (infer_branch (pwe_TestRunner jsonData)))
            (fun err => if IsErrPullRequestBundleNotFound err
                        then web_error 400 ("there is no '" +:+ pwe_BundleName jsonData +:+ "' bundle name exists in configuration")
                        else web_error 500 (err_text err))
            (fun _ => no_content)
    end).

Definition getTeamPullRequestQueue `{KP : KClient W PullRequestQueue, KH : KClient W PullRequestQueueHistory} (r : WebRequest)
    : Handler :=
  loadTeam r (fun team =>
    let staging := tn_Staging (tst_Namespace (team_Status team)) in
    or_answer (GetPullRequestQueues staging) (fun err => web_error 500 ("cannot list pull request queues: " +:+ we_error err))
      (fun prQueues =>
    or_answer (GetPullRequestQueueHistories staging)
      (fun err => web_error 500 ("cannot list pull request queues: " +:+ we_error err)) (fun histories =>
      web_JSON 200 (TeamPRQueueJSON (mkTeamPRQueueJSON (Z.of_nat (length prQueues))
        (last_such (fun q => negb (bool_decide (pst_State (prq_Status q) = PullRequestQueueWaiting))) prQueues) prQueues
        (map kname histories)))))).
Definition pr_queue_history `{KH : KClient W PullRequestQueueHistory} (r : WebRequest)
    (k : PullRequestQueueHistory -> Handler) : Handler :=
  loadTeam r (fun team =>
    let prQueueHistoryName := ByName "queue" r in
    let staging := tn_Staging (tst_Namespace (team_Status team)) in
    let not_found := web_error 404 ("pull request queue history " +:+ prQueueHistoryName +:+ " in team " +:+ kname team +:+ " not found") in
    if String.eqb prQueueHistoryName "" || String.eqb staging "" then not_found else
    or_answer (GetPullRequestQueueHistory prQueueHistoryName staging)
      (fun err => if IsNotFound err then not_found else web_error 500 ("cannot get team: " +:+ we_error err)) k).
Definition getTeamPullRequestQueueHistory `{KH : KClient W PullRequestQueueHistory} (r : WebRequest) : Handler :=
  pr_queue_history r (fun qh => web_JSON 200 (PRQueueHistoryJSON qh)).
(** The headers of the file are set before it is known that there is none. *)
Definition getTeamPullRequestQueueHistoryLog `{KH : KClient W PullRequestQueueHistory} (r : WebRequest) : Handler :=
  pr_queue_history r (fun prQueueHist =>
    match (pqh_PullRequestQueue prQueueHist : option PullRequestQueue) ≫= (fun q => pst_DeploymentQueue (prq_Status q)) with
    | Some deploymentQueue => send_log (kname prQueueHist) (mret (qst_KubeZipLog (queue_Status deploymentQueue)))
    | None =>
        run mod_obj (set_header "Content-Type" "application/zip");
        run mod_obj (set_header "Content-Disposition" ("attachment; filename=" +:+ kname prQueueHist +:+ "-log.zip"));
        web_error 500 "logs not found"
    end).
End handlers.
