(* ===== verification/WebhookClaims.v ===== *)
(** The properties of the web hooks and pages: what an answer is, what a pull request's web
    hook stores before it answers, and which histories a team may read. *)

From S2P Require Import Prelude.
From S2P Require Import GoRuntime.
From S2P Require Import Errors.
From S2P Require Import KubeApi.
From S2P Require Import ConfigTypes.
From S2P Require Import QueueTypes.
From S2P Require Import QueueCtrl.
From S2P Require Import TeamTypes.
From S2P Require Import AtpTypes.
From S2P Require Import PrtTypes.
From S2P Require Import PrtFetch.
From S2P Require Import Interfaces.
From S2P Require Import PrtCtrl.
From S2P Require Import AtpSim.
From S2P Require Import Versions.
From S2P Require Import HttpClient.
From S2P Require Import S2hLoad.
From S2P Require Import Webhook.
From Stdlib Require Import Ascii.
Open Scope string_scope.
Open Scope list_scope.
Open Scope Z_scope.

(** ** Answers *)

(** The status that was sent. *)
Definition status_of (w : ResponseWriter) : option Z := fst <$> rw_Sent w.
(** A complete answer in JSON, to a request that had none. *)
Definition answer (statusCode : Z) (text : string) : ResponseWriter :=
  let headers := <["Content-Length" := pretty (String.length text)]> {["Content-Type" := "application/json"]} in
  mkResponseWriter headers (Some (statusCode, headers)) text.

Section answers.
Context {W : Type} `{WE : WebEncoding}.

(** What is encoded is the whole answer, whatever its length is. *)
Lemma web_JSON_answers statusCode data text (w : W) :
  we_JSON data = inr text -> Z.of_nat (String.length text) < 2 ^ 63 ->
  web_JSON statusCode data (w, new_response) = (Ok tt, (w, answer statusCode text)).
Proof.
  intros Hj Hl. unfold web_JSON. rewrite Hj. unfold web_write, mod_obj, mbind, M_bind. cbn [fst snd].
  unfold write_data, write_header, set_header, new_response. simpl. unfold fits. simpl.
  rewrite lookup_insert_eq, Atoi_pretty by done. change (String.length "" + String.length text)%nat with (String.length text).
  rewrite Z.leb_refl. simpl. by rewrite insert_empty.
Qed.

(** The status of an error is the first one, or that of the text that cannot be encoded. *)
Lemma wp_web_error code text (w : W) (resp : ResponseWriter) (Q : outcome unit -> W * ResponseWriter -> Prop) :
  rw_Sent resp = None ->
  (forall resp', status_of resp' = Some code \/ status_of resp' = Some 500 -> Q (Ok tt) (w, resp')) ->
  wp (web_error code text) (w, resp) Q.
Proof.
  intros Hs HQ. unfold web_error, web_JSON. wp_step. wp_step. wp_fst.
  assert (forall c t r, rw_Sent r = None -> status_of (write_data t (write_header c r)) = Some c) as Hst.
  { intros c t r Hr. unfold write_data, write_header. rewrite Hr. simpl. by destruct (fits _ _). }
  destruct (we_JSON (ErrResp text)); unfold web_write; wp_step; wp_fst; apply HQ; [right|left]; by apply Hst.
Qed.
End answers.

(** ** The web hook of a pull request *)

Section pull_request.
Context {W : Type} `{WE : WebEncoding, GR : GoRuntime W, !GoRuntimeLaws W, CC : ConfigController W, S2H : SamsahaiController W}.
Context `{KT : KClient W PullRequestTrigger, KV : KView W PullRequestTrigger, !KClientLaws W PullRequestTrigger}.

(** What the body of a request asks for. *)
Definition asked (r : WebRequest) (event : pullRequestWebhookEventJSON) : Prop :=
  exists data, wr_body r = inr data /\ we_pull_request data = inr event.
Definition well_named (event : pullRequestWebhookEventJSON) : Prop :=
  pwe_BundleName event <> "" /\ pwe_PRNumber event <> "" /\ valid_k8s_name (pwe_PRNumber event) = true.

(** The trigger of an event. *)
Definition triggers (team : string) (event : pullRequestWebhookEventJSON) (trigger : PullRequestTrigger) : Prop :=
  let spec := prt_Spec trigger in
  om_Labels (kmeta trigger) = getPullRequestTriggerLabels team (pwe_BundleName event) (pwe_PRNumber event) /\
  pts_BundleName spec = pwe_BundleName event /\ pts_PRNumber spec = pwe_PRNumber event /\
  pts_CommitSHA spec = pwe_CommitSHA event /\ pts_TearDownDuration spec = pwe_TearDownDuration event /\
  pts_TestRunner spec = infer_branch (pwe_TestRunner event) /\ prt_Status trigger = zeroPrtStatus /\
  pts_Components spec ≡ₚ map (fun p => mkPullRequestTriggerComponent (fst p) (Some (mkImage "" (snd p))) "" "")
    (map_to_list (component_tags (pwe_Components event))).

(** A trigger is stored, in the staging namespace, when the call succeeds. *)
Lemma wp_TriggerPullRequestDeployment team event (w : W) (Q : outcome unit -> W -> Prop) :
  (forall err w', Q (Err err) w') -> (forall p w', Q (Panic p) w') ->
  (forall w' teamComp wt trigger,
     fst (s2h_GetTeam team wt) = Ok teamComp ->
     kview PullRequestTrigger w' !! (tn_Staging (tst_Namespace (team_Status teamComp)),
       GenPullRequestBundleName (pwe_BundleName event) (pwe_PRNumber event)) = Some trigger ->
     triggers team event trigger -> Q (Ok tt) w') ->
  wp (TriggerPullRequestDeployment team (pwe_BundleName event) (pwe_PRNumber event) (pwe_CommitSHA event)
        (component_tags (pwe_Components event)) (pwe_TearDownDuration event) (infer_branch (pwe_TestRunner event))) w Q.
Proof.
  intros He Hp HQ. unfold TriggerPullRequestDeployment. wp_step.
  apply run_wp. intros [[]|err|p] w1 _; [|apply He|apply Hp]. lazy beta iota. wp_step.
  apply run_wp. intros [teamComp|err|p] w2 Ht; [|apply He|apply Hp]. lazy beta iota. wp_step.
  apply wp_range_map. intros tags w3 Hr. repeat wp_step.
  apply run_wp. intros r w4 _.
  assert (forall w', wp (k_create (mkPullRequestTrigger
    ((namedMeta (tn_Staging (tst_Namespace (team_Status teamComp))) (GenPullRequestBundleName (pwe_BundleName event) (pwe_PRNumber event)))
       <| om_Labels := getPullRequestTriggerLabels team (pwe_BundleName event) (pwe_PRNumber event) |>)
    (mkPullRequestTriggerSpec (pwe_BundleName event) (pwe_PRNumber event) (pwe_CommitSHA event)
       (map (fun p => mkPullRequestTriggerComponent (fst p) (Some (mkImage "" (snd p))) "" "") tags) None None ""
       (pwe_TearDownDuration event) (infer_branch (pwe_TestRunner event))) zeroPrtStatus)) w' Q) as Hcreate.
  { intros w'. apply wp_k_create; [|intros; apply He]. intros w6 _ Hw6.
    eapply HQ; [by rewrite Ht|rewrite Hw6; apply lookup_insert_eq|]. split_and!; try done. simpl.
    apply Permutation_map. pose proof (rt_range_perm _ (component_tags (pwe_Components event)) w2) as Hperm.
    by rewrite Hr in Hperm. }
  destruct r as [old|err|p]; [| |apply Hp]; repeat wp_step.
  - apply run_wp. intros [[]|err|p] w5 _; [apply Hcreate|apply He|apply Hp].
  - destruct (IsNotFound err); repeat wp_step; [apply Hcreate|apply He].
Qed.

(** The trigger that a body asks for is stored in the staging namespace of the team. *)
Definition trigger_stored (r : WebRequest) (w : W) : Prop :=
  exists event teamComp wt trigger, asked r event /\ well_named event /\
    fst (s2h_GetTeam (ByName "team" r) wt) = Ok teamComp /\
    kview PullRequestTrigger w !! (tn_Staging (tst_Namespace (team_Status teamComp)),
      GenPullRequestBundleName (pwe_BundleName event) (pwe_PRNumber event)) = Some trigger /\
    triggers (ByName "team" r) event trigger.
Definition refused_body (r : WebRequest) : Prop := forall event, asked r event -> ~ well_named event.
Definition webhook_outcome (r : WebRequest) (w : W) (res : outcome unit) (s : W * ResponseWriter) : Prop :=
  (status_of (snd s) = Some 204 -> trigger_stored r (fst s)) /\
  (refused_body r -> res = Ok tt /\ fst s = w /\ (status_of (snd s) = Some 400 \/ status_of (snd s) = Some 500)).

(** the web hook of a pull request answers 204 only when the body named a bundle and a
    pull request of a valid name, and the trigger that the body asks for is then stored in the
    staging namespace of the team, fresh, under the name of the bundle and the pull request;
    a body that is not read, not decoded or not well named is answered 400 or 500 and changes
    nothing at all. *)
Theorem pull_request_webhook_stores (r : WebRequest) (w : W) :
  let out := pullRequestWebhook r (w, new_response) in webhook_outcome r w (fst out) (snd out).
Proof.
  cbv zeta. apply (wp_elim _ _ (webhook_outcome r w)).
  assert (forall code text, code = 400 \/ code = 500 ->
    wp (web_error code text) (w, new_response) (webhook_outcome r w)) as Hrefused.
  { intros code text Hc. apply wp_web_error; [done|]. intros resp' Hs. split; simpl; [|naive_solver].
    intros H4. rewrite H4 in Hs. naive_solver. }
  unfold pullRequestWebhook, readRequestBody. destruct (wr_body r) as [|data] eqn:Hb; [apply Hrefused; auto|].
  destruct (we_pull_request data) as [|event] eqn:Hj; [apply Hrefused; auto|].
  destruct (String.eqb_spec (pwe_BundleName event) ""), (String.eqb_spec (pwe_PRNumber event) "");
    [by apply Hrefused; auto..|].
  cbn [orb]. destruct (valid_k8s_name (pwe_PRNumber event)) eqn:Hv; [|by apply Hrefused; auto].
  assert (asked r event /\ well_named event) as [Ha Hn] by (repeat split; [by exists data|done..]).
  assert (forall s res, status_of (snd s) <> Some 204 -> webhook_outcome r w res s) as Hother.
  { intros s res Hs. split; [done|]. intros Hno. by destruct (Hno event). }
  cbn [negb]. unfold or_answer. repeat wp_step. apply wp_TriggerPullRequestDeployment; simpl.
  - intros err w'. repeat wp_step. destruct (IsErrPullRequestBundleNotFound err); apply wp_web_error; try done;
      intros resp' Hs; apply Hother; simpl; destruct Hs as [-> | ->]; done.
  - intros p w'. by apply Hother.
  - intros w' teamComp wt trigger Ht Hk Htr. repeat wp_step. unfold no_content. wp_step. split; simpl.
    + intros _. by exists event, teamComp, wt, trigger.
    + intros Hno. by destruct (Hno event).
Qed.
End pull_request.

(** A team without a configuration of pull requests: its web hook has nothing to look the
    bundle up in. *)
Theorem webhook_without_configuration_panics {W : Type}
    `{WE : WebEncoding, GR : GoRuntime W, CC : ConfigController W, S2H : SamsahaiController W, KT : KClient W PullRequestTrigger}
    (r : WebRequest) (event : pullRequestWebhookEventJSON) (w : W) :
  asked r event -> well_named event ->
  fst (cfg_GetPullRequestConfig (ByName "team" r) w) = Ok None ->
  fst (pullRequestWebhook r (w, new_response)) = Panic NilDereference.
Proof.
  intros (data & Hb & Hj) (Hn & Hp & Hv) Hc. unfold pullRequestWebhook, readRequestBody. rewrite Hb, Hj.
  rewrite (proj2 (String.eqb_neq _ _) Hn), (proj2 (String.eqb_neq _ _) Hp), Hv. cbn [orb negb].
  unfold or_answer, TriggerPullRequestDeployment, validatePullRequestBundleName.
  unfold mbind, M_bind, onW, attempt. cbn [fst snd].
  by destruct (cfg_GetPullRequestConfig (ByName "team" r) w) as [[[]| |] w1]; simplify_eq/=.
Qed.

(** ** The history of a promotion *)

(** The refusal names what was asked for, and nothing else. *)
Definition refusal_text (r : WebRequest) : string :=
  "activepromotion history " +:+ ByName "history" r +:+ " of team " +:+ ByName "team" r +:+ " not found".
Definition no_such_history (r : WebRequest) : payload := ErrResp (refusal_text r).

(** a team is answered a promotion's history only when the history carries the label of
    the team, and then the whole of it; of a history of another team it is answered 404 with
    nothing but the two names that it asked with; so also for a name that is not known. *)
Theorem history_only_for_its_team {W : Type} `{WE : WebEncoding, KH : KClient W ActivePromotionHistory}
    (r : WebRequest) (encoded : payload -> string) (stored : error + ActivePromotionHistory) (w w1 : W)
    (Hnamed : ByName "team" r <> "" /\ ByName "history" r <> "")
    (Hstored : k_get ActivePromotionHistory ("", ByName "history" r) w =
               (match stored with inl err => Err err | inr atpHist => Ok atpHist end, w1))
    (Hfound : forall err, stored = inl err -> IsNotFound err = true)
    (Hencoded : forall data, data = no_such_history r \/ (exists atpHist, stored = inr atpHist /\ data = PromotionHistoryJSON atpHist) ->
       we_JSON data = inr (encoded data) /\ Z.of_nat (String.length (encoded data)) < 2 ^ 63) :
  getTeamActivePromotionHistory r (w, new_response) = (Ok tt, (w1,
    match stored with
    | inr atpHist =>
        if decide (default "" (om_Labels (kmeta atpHist) !! GetTeamLabelKey) = ByName "team" r)
        then answer 200 (encoded (PromotionHistoryJSON atpHist)) else answer 404 (encoded (no_such_history r))
    | inl _ => answer 404 (encoded (no_such_history r))
    end)).
Proof.
  destruct Hnamed as [Ht Hh]. unfold getTeamActivePromotionHistory, promotion_history, nonempty_team, or_answer.
  rewrite (proj2 (String.eqb_neq _ _) Ht), (proj2 (String.eqb_neq _ _) Hh).
  rewrite (bind_run (mret tt) _ _ tt (w, new_response) eq_refl).
  rewrite (bind_run _ _ _ stored (w1, new_response)).
  2: { unfold onW, attempt, GetActivePromotionHistory. cbn [fst snd]. rewrite Hstored. by destruct stored. }
  assert (web_error (W:=W) 404 (refusal_text r) (w1, new_response) =
          (Ok tt, (w1, answer 404 (encoded (no_such_history r))))) as Hno.
  { destruct (Hencoded (no_such_history r) (or_introl eq_refl)). by apply web_JSON_answers. }
  destruct stored as [err|atpHist]; [rewrite (Hfound err eq_refl); apply Hno|].
  case_decide as Hl; [rewrite (proj2 (String.eqb_eq _ _) Hl)|rewrite (proj2 (String.eqb_neq _ _) Hl); apply Hno].
  destruct (Hencoded (PromotionHistoryJSON atpHist) (or_intror (ex_intro _ atpHist (conj eq_refl eq_refl)))). by apply web_JSON_answers.
Qed.

(** ** A world in memory *)

Module WebSim.

(** The clock, the triggers and the histories of promotions. *)
Record SimWorld := mkSimWorld {
  sw_clock : Z;
  sw_triggers : gmap (string * string) PullRequestTrigger;
  sw_hists : gmap (string * string) ActivePromotionHistory;
}.
#[export] Instance eta_SimWorld : Eta SimWorld := fun x => mkSimWorld (sw_clock x) (sw_triggers x) (sw_hists x).
#[export] Instance sim_clock : HasClock SimWorld :=
  {| clock_get := sw_clock; clock_set t w := w <| sw_clock := t |> |}.
#[export] Instance sim_triggers : HasStore SimWorld PullRequestTrigger :=
  {| store_get := sw_triggers; store_set m w := w <| sw_triggers := m |>; store_get_set _ _ := eq_refl |}.
#[export] Instance sim_hists : HasStore SimWorld ActivePromotionHistory :=
  {| store_get := sw_hists; store_set m w := w <| sw_hists := m |>; store_get_set _ _ := eq_refl |}.
#[export] Instance sim_trigger_client : KClient SimWorld PullRequestTrigger := mem_client.
#[export] Instance sim_hist_client : KClient SimWorld ActivePromotionHistory := mem_client.

Definition unused {A} : M SimWorld A := throw ErrNotImplemented.
(** The team of the shop has a bundle. *)
Definition sim_bundles : ConfigPullRequest :=
  mkConfigPullRequest 0 (mkPullRequestTriggerConfig 0 None)
    (Some [mkPullRequestBundle "api" [] None [] "" "42" (mkPullRequestExtraConfig None None None)]) 0
    (mkPullRequestExtraConfig None None None).
#[export] Instance sim_configs : ConfigController SimWorld := {|
  cfg_Get _ := unused; cfg_GetComponents _ := unused; cfg_GetParentComponents _ := unused;
  cfg_GetPullRequestComponents _ _ _ := unused; cfg_GetBundles _ := unused; cfg_GetPriorityQueues _ := unused;
  cfg_GetStagingConfig _ := unused;
  cfg_GetPullRequestConfig team := mret (if String.eqb team "shop" then Some sim_bundles else None);
  cfg_GetPullRequestBundleDependencies _ _ := unused; cfg_Update _ := unused; cfg_Delete _ := unused;
  cfg_EnsureConfigTemplateChanged := throw ErrNotImplemented;
|}.
Definition sim_team (name : string) : Team :=
  mkTeam (namedMeta "" name) zeroTeamSpec
    (zeroTeamStatus <| tst_Namespace := mkTeamNamespace ("s2h-" +:+ name) "" "" "" [] |>).
#[export] Instance sim_s2h : SamsahaiController SimWorld := {|
  s2h_GetActivePromotionDeployEngine _ _ := unused; s2h_LoadTeamSecret := throw ErrNotImplemented;
  s2h_CreatePreActiveEnvironment _ _ := unused; s2h_PromoteActiveEnvironment _ _ _ := throw ErrNotImplemented;
  s2h_DestroyActiveEnvironment _ _ := unused; s2h_DestroyPreActiveEnvironment _ _ := unused;
  s2h_DestroyPreviousActiveEnvironment _ _ := unused; s2h_SetPreviousActiveNamespace _ := throw ErrNotImplemented;
  s2h_SetPreActiveNamespace _ := throw ErrNotImplemented; s2h_SetActiveNamespace _ := throw ErrNotImplemented;
  s2h_NotifyActivePromotionReport _ := unused; s2h_GetTeam name := mret (sim_team name);
  s2h_EnsureStagingResourcesQuota _ _ _ := unused;
|}.
(** The body of a web hook is the number of the pull request. *)
Definition sim_event (prNumber : string) : pullRequestWebhookEventJSON :=
  mkPullRequestWebhookEventJSON "api" prNumber "f00" [mkComponents "api" "1.2"] None None.
Definition sim_JSON (data : payload) : string :=
  match data with
  | ErrResp text => text
  | PromotionHistoryJSON atpHist => kname atpHist
  | _ => ""
  end.
#[export] Instance sim_encoding : WebEncoding := {|
  we_JSON data := inr (sim_JSON data); we_YAML data := inr (sim_JSON data); we_no_JSON := ""; we_no_YAML := "";
  we_component _ := inl ErrInvalidJSONData;
  we_pull_request data := if String.eqb data "" then inl ErrInvalidJSONData else inr (sim_event data);
  we_base64 := inr; we_error := err_text; we_Version := ""; we_GitCommit := "" |}.

Definition sim_request (params : list (string * string)) (body : string) : WebRequest :=
  mkWebRequest (list_to_map params) None "" (inr body).
Definition sim_hist (team : string) : ActivePromotionHistory :=
  mkActivePromotionHistory ((namedMeta "" (team +:+ "-1")) <| om_Labels := GetDefaultLabels team |>)
    (mkActivePromotionHistorySpec team None true None).
Definition sim_world : SimWorld :=
  mkSimWorld 0 ∅ {[ ("", "shop-1") := sim_hist "shop"; ("", "ads-1") := sim_hist "ads" ]}.

(** The trigger of a body that is accepted, and the refusal of a name of capitals. *)
Lemma pull_request_webhook_stores_witness :
  let hook prNumber := pullRequestWebhook (sim_request [("team", "shop")] prNumber) (sim_world, new_response) in
  status_of (snd (snd (hook "7"))) = Some 204 /\
  is_Some (kview PullRequestTrigger (fst (snd (hook "7"))) !! ("s2h-shop", "api-7")) /\
  webhook_outcome (sim_request [("team", "shop")] "PR7") sim_world (fst (hook "PR7")) (snd (hook "PR7")).
Proof.
  cbv zeta. split; [by vm_compute|]. split.
  - destruct (pull_request_webhook_stores (sim_request [("team", "shop")] "7") sim_world) as [Hok _].
    destruct Hok as (event & teamComp & wt & trigger & (data & Hb & Hj) & _ & Ht & Hk & _); [by vm_compute|].
    injection Hb as <-. injection Hj as <-. simpl in Ht. injection Ht as <-. by exists trigger.
  - apply pull_request_webhook_stores.
Defined.

Lemma history_only_for_its_team_witness :
  getTeamActivePromotionHistory (sim_request [("team", "shop"); ("history", "shop-1")] "") (sim_world, new_response) =
    (Ok tt, (sim_world, answer 200 "shop-1")) /\
  getTeamActivePromotionHistory (sim_request [("team", "shop"); ("history", "ads-1")] "") (sim_world, new_response) =
    (Ok tt, (sim_world, answer 404 "activepromotion history ads-1 of team shop not found")).
Proof.
  split.
  - etransitivity; [apply (history_only_for_its_team (sim_request [("team", "shop"); ("history", "shop-1")] "")
      sim_JSON (inr (sim_hist "shop")) sim_world sim_world)|by vm_compute]; [by split|done|done|].
    intros data [->|(? & [= <-] & ->)]; by vm_compute.
  - etransitivity; [apply (history_only_for_its_team (sim_request [("team", "shop"); ("history", "ads-1")] "")
      sim_JSON (inr (sim_hist "ads")) sim_world sim_world)|by vm_compute]; [by split|done|done|].
    intros data [->|(? & [= <-] & ->)]; by vm_compute.
Defined.
End WebSim.
