(* ===== verification/K8sObjects.v ===== *)
(** Model of [internal/samsahai/k8sobject/object.go]: the objects that run the controllers of
    the staging side in a namespace of a team, and the comparison of a stored object with the
    one that is wanted.  They implement the interface [StagingObjects] that [SamsahaiCtrl]
    is proved against.

    An object is made of the fields that the code sets or compares; the other fields of what
    is stored are one text, empty in what is built.  Maps that are [nil] and empty ones are
    the same, but for the data of a secret; a quantity is its text.  The version of the program, which is
    set when it is built, and the calls of the client are parameters. *)

From S2P Require Import Prelude.
From S2P Require Import GoRuntime.
From S2P Require Import Errors.
From S2P Require Import KubeApi.
From S2P Require Import ConfigTypes.
From S2P Require Import TeamTypes.
From S2P Require Import QueueCtrl.
From S2P Require Import Interfaces.
From S2P Require Import SamsahaiCtrl.
From S2P Require Import S2hRpc.
From S2P Require Import HttpClient.
From Stdlib Require Import Ascii.
Open Scope string_scope.
Open Scope list_scope.
Open Scope Z_scope.

Definition StagingCtrlName : string := "s2h-staging-ctrl".
Definition StagingDefaultPort : Z := 8090.

(** ** The objects *)

Record EnvVar := mkEnvVar { ev_Name : string; ev_Value : string; ev_rest : string }.
Record Probe := mkProbe {
  pb_InitialDelaySeconds : Z;
  pb_TimeoutSeconds : Z;
  pb_PeriodSeconds : Z;
  pb_SuccessThreshold : Z;
  pb_FailureThreshold : Z;
  pb_Path : string;
  pb_Port : Z;
  pb_Scheme : string;
}.
Record Container := mkContainer {
  ctn_Name : string;
  ctn_Image : string;
  ctn_ImagePullPolicy : string;
  ctn_Command : list string;
  ctn_Args : list string;
  ctn_TerminationMessagePath : string;
  ctn_TerminationMessagePolicy : string;
  ctn_Ports : list (Z * string);              (* the port and its protocol *)
  ctn_Env : list EnvVar;
  ctn_LivenessProbe : option Probe;
  ctn_ReadinessProbe : option Probe;
  ctn_EnvFrom : list string;                  (* the names of secrets *)
  ctn_Limits : ResourceList;
  ctn_Requests : ResourceList;
  ctn_rest : string;
}.
Record Deployment := mkDeployment {
  dp_Meta : ObjectMeta;
  dp_MatchLabels : gmap string string;
  dp_TemplateLabels : gmap string string;
  dp_Containers : list Container;
  dp_ServiceAccountName : string;
  dp_rest : string;
}.
Record Service := mkService {
  srv_Meta : ObjectMeta;
  srv_Ports : list (string * Z * string * Z);  (* name, port, protocol, target *)
  srv_Selector : gmap string string;
  srv_Type : string;
  srv_rest : string;
}.
Record PolicyRule := mkPolicyRule { pr_APIGroups : list string; pr_Resources : list string; pr_Verbs : list string }.
(** A role or a cluster role; a binding of either, with the kind and the name of the role. *)
Record Role := mkRole { role_Meta : ObjectMeta; role_Rules : list PolicyRule }.
Record Subject := mkSubject { sj_Kind : string; sj_Name : string; sj_Namespace : string }.
Record RoleBinding := mkRoleBinding { rb_Meta : ObjectMeta; rb_RoleRef : string * string; rb_Subjects : list Subject }.
Record ServiceAccount := mkServiceAccount { sa_Meta : ObjectMeta; sa_rest : string }.
(** A secret without data is stored with none, and built with an empty map. *)
Record SecretObject := mkSecretObject { sct_Meta : ObjectMeta; sct_Type : string; sct_Data : option (gmap string string) }.
(** [quota_rest]: the rest of its specification. *)
Record ResourceQuota := mkResourceQuota { quota_Meta : ObjectMeta; quota_Hard : ResourceList; quota_rest : string }.

Inductive StagingObject :=
| ODeployment (x : Deployment)
| OService (x : Service)
| ORole (x : Role)
| ORoleBinding (x : RoleBinding)
| OClusterRole (x : Role)
| OClusterRoleBinding (x : RoleBinding)
| OServiceAccount (x : ServiceAccount)
| OSecret (x : SecretObject)
| OResourceQuota (x : ResourceQuota).

#[export] Instance env_var_eq_dec : EqDecision EnvVar.
Proof. solve_decision. Defined.
#[export] Instance probe_eq_dec : EqDecision Probe.
Proof. solve_decision. Defined.
#[export] Instance container_eq_dec : EqDecision Container.
Proof. solve_decision. Defined.
#[export] Instance policy_rule_eq_dec : EqDecision PolicyRule.
Proof. solve_decision. Defined.
#[export] Instance subject_eq_dec : EqDecision Subject.
Proof. solve_decision. Defined.

#[export] Instance eta_Container : Eta Container := fun x =>
  mkContainer (ctn_Name x) (ctn_Image x) (ctn_ImagePullPolicy x) (ctn_Command x) (ctn_Args x) (ctn_TerminationMessagePath x)
    (ctn_TerminationMessagePolicy x) (ctn_Ports x) (ctn_Env x) (ctn_LivenessProbe x) (ctn_ReadinessProbe x) (ctn_EnvFrom x)
    (ctn_Limits x) (ctn_Requests x) (ctn_rest x).
#[export] Instance eta_Deployment : Eta Deployment := fun x =>
  mkDeployment (dp_Meta x) (dp_MatchLabels x) (dp_TemplateLabels x) (dp_Containers x) (dp_ServiceAccountName x) (dp_rest x).
#[export] Instance eta_Service : Eta Service := fun x =>
  mkService (srv_Meta x) (srv_Ports x) (srv_Selector x) (srv_Type x) (srv_rest x).
#[export] Instance eta_Role : Eta Role := fun x => mkRole (role_Meta x) (role_Rules x).
#[export] Instance eta_RoleBinding : Eta RoleBinding := fun x => mkRoleBinding (rb_Meta x) (rb_RoleRef x) (rb_Subjects x).
#[export] Instance eta_ServiceAccount : Eta ServiceAccount := fun x => mkServiceAccount (sa_Meta x) (sa_rest x).
#[export] Instance eta_SecretObject : Eta SecretObject := fun x => mkSecretObject (sct_Meta x) (sct_Type x) (sct_Data x).
#[export] Instance eta_ResourceQuota : Eta ResourceQuota := fun x => mkResourceQuota (quota_Meta x) (quota_Hard x) (quota_rest x).

(** The kind of an object, with its metadata. *)
Definition object_kind (o : StagingObject) : nat :=
  match o with
  | ODeployment _ => 0 | OService _ => 1 | ORole _ => 2 | ORoleBinding _ => 3 | OClusterRole _ => 4
  | OClusterRoleBinding _ => 5 | OServiceAccount _ => 6 | OSecret _ => 7 | OResourceQuota _ => 8
  end%nat.
Definition object_meta (o : StagingObject) : ObjectMeta :=
  match o with
  | ODeployment x => dp_Meta x | OService x => srv_Meta x | ORole x | OClusterRole x => role_Meta x
  | ORoleBinding x | OClusterRoleBinding x => rb_Meta x | OServiceAccount x => sa_Meta x
  | OSecret x => sct_Meta x | OResourceQuota x => quota_Meta x
  end.
Definition object_key (o : StagingObject) : nat * (string * string) :=
  (object_kind o, (om_Namespace (object_meta o), om_Name (object_meta o))).

(** ** The objects that are wanted *)

(** What a resource list says of processors and of memory; it answers with a pointer. *)
Class ResourceLists := {
  rl_Cpu : ResourceList -> option string;
  rl_Memory : ResourceList -> option string;
}.

Section builders.
Context {W : Type} `{GR : GoRuntime W, OUT : SamsahaiOutside W, RL : ResourceLists}.
(** [internal.Version]. *)
Context (Version : string).

Definition getDefaultLabels (teamName : string) : gmap string string :=
  <["app.kubernetes.io/managed-by" := "samsahai"]>
  (<["app.kubernetes.io/part-of" := "samsahai"]>
  (<["app.kubernetes.io/component" := "custom-ctrl"]>
  (<["app.kubernetes.io/name" := StagingCtrlName]> (GetDefaultLabels teamName)))).
Definition getDefaultLabelsWithVersion (teamName : string) : gmap string string :=
  <["app.kubernetes.io/version" := Version]> (getDefaultLabels teamName).
Definition labelled (t : Team) (namespace name : string) : ObjectMeta :=
  (namedMeta namespace name) <| om_Labels := getDefaultLabelsWithVersion (kname t) |>.
(** An owner that cannot be set is only logged. *)
Definition controlled (t : Team) (m : ObjectMeta) : ObjectMeta :=
  match out_SetControllerReference (W:=W) (kmeta t) m with inl _ => m | inr m => m end.

Definition GetEmptyResourceQuota (namespaceName : string) : StagingObject :=
  OResourceQuota (mkResourceQuota (namedMeta namespaceName (namespaceName +:+ ResourcesQuotaSuffix)) ∅ "").
(** What the custom resources have replaces what the team has. *)
Definition GetResourceQuota (t : Team) (namespaceName : string) (resources : option ResourceList) : M W StagingObject :=
  let used := ts_Resources (tst_Used (team_Status t)) in
  let given (quantity : ResourceList -> option string) :=
    match resources with
    | Some resources => match quantity resources with Some q => Some q | None => quantity used end
    | None => quantity used
    end in
  do cpuResource <- deref (given rl_Cpu);
  do memoryResource <- deref (given rl_Memory);
  mret (OResourceQuota (mkResourceQuota (namedMeta namespaceName (namespaceName +:+ ResourcesQuotaSuffix))
    (list_to_map [("requests.cpu", cpuResource); ("requests.memory", memoryResource);
                  ("limits.cpu", cpuResource); ("limits.memory", memoryResource)]) "")).

Definition healthz (initialDelaySeconds : Z) : Probe :=
  mkProbe initialDelaySeconds 1 10 1 3 "/healthz" StagingDefaultPort "HTTP".
(** The resources of the staging controller: its own, a default when the team has a quota,
    or none. *)
Definition container_resources (used : TeamSpec) : ResourceList * ResourceList :=
  let default_resources : ResourceList := list_to_map [("cpu", "1"); ("memory", "1Gi")] in
  let own := match ts_StagingCtrl used with
             | Some ctrl => if (0 <? size (stc_Limits ctrl) + size (stc_Requests ctrl))%nat
                            then Some (stc_Limits ctrl, stc_Requests ctrl) else None
             | None => None
             end in
  match own with
  | Some resources => resources
  | None => if negb (size (ts_Resources used) =? 0)%nat then (default_resources, default_resources) else (∅, ∅)
  end.
(** The variables of the configuration come in the order of a [range] over a map. *)
Definition staging_env (teamName namespaceName SamsahaiURL : string) (StagingEnvs : list (string * string)) : list EnvVar :=
  [mkEnvVar "S2H_SERVER_URL" SamsahaiURL ""; mkEnvVar "S2H_TEAM_NAME" teamName "";
   mkEnvVar "POD_NAMESPACE" namespaceName ""] ++ map (fun p => mkEnvVar (fst p) (snd p) "") StagingEnvs.
Definition staging_deployment (t : Team) (namespaceName : string) (configs : SamsahaiConfig)
    (StagingEnvs : list (string * string)) : StagingObject :=
  let teamName := kname t in
  let used := tst_Used (team_Status t) in
  let samsahaiImage := match ts_StagingCtrl used with
                       | Some ctrl => if negb (EqualFold (stc_Image ctrl) "") then stc_Image ctrl else s2h_SamsahaiImage configs
                       | None => s2h_SamsahaiImage configs
                       end in
  let envVars := staging_env teamName namespaceName (s2h_SamsahaiURL configs) StagingEnvs in
  let '(limits, requests) := container_resources used in
  ODeployment (mkDeployment (controlled t (labelled t namespaceName StagingCtrlName)) (getDefaultLabels teamName)
    (getDefaultLabelsWithVersion teamName)
    [mkContainer StagingCtrlName samsahaiImage "Always" ["staging"] ["start"] "/dev/termination-log" "File"
       [(StagingDefaultPort, "TCP")] envVars (Some (healthz 20)) (Some (healthz 10)) [StagingCtrlName] limits requests ""]
    StagingCtrlName "").
Definition GetDeployment (t : Team) (namespaceName : string) (configs : SamsahaiConfig) : M W StagingObject :=
  do StagingEnvs <- range_map (s2h_StagingEnvs configs);
  mret (staging_deployment t namespaceName configs StagingEnvs).

Definition GetService (t : Team) (namespaceName : string) : StagingObject :=
  OService (mkService (controlled t (labelled t namespaceName StagingCtrlName))
    [("http", StagingDefaultPort, "TCP", StagingDefaultPort)] (getDefaultLabelsWithVersion (kname t)) "ClusterIP" "").

Definition GetRole (t : Team) (namespaceName : string) : StagingObject :=
  ORole (mkRole (labelled t namespaceName StagingCtrlName)
    [mkPolicyRule ["env.samsahai.io"]
       ["desiredcomponents"; "queues"; "queuehistories"; "stablecomponents"; "pullrequesttriggers"; "pullrequestqueues";
        "pullrequestqueuehistories"] ["*"];
     mkPolicyRule [""]
       ["pods"; "pods/log"; "services"; "endpoints"; "serviceaccounts"; "configmaps"; "secrets"; "persistentvolumeclaims";
        "replicationcontrollers"] ["*"];
     mkPolicyRule ["rbac.authorization.k8s.io"] ["roles"; "rolebindings"] ["*"];
     mkPolicyRule ["apps"] ["deployments"; "statefulsets"; "replicasets"] ["*"];
     mkPolicyRule ["autoscaling"] ["horizontalpodautoscalers"] ["*"];
     mkPolicyRule ["batch"] ["jobs"; "cronjobs"] ["*"];
     mkPolicyRule ["extensions"] ["deployments"; "statefulsets"; "replicasets"; "ingresses"; "networkpolicies"] ["*"];
     mkPolicyRule ["policy"] ["poddisruptionbudgets"] ["*"];
     mkPolicyRule ["networking.k8s.io"] ["networkpolicies"; "ingresses"] ["*"];
     mkPolicyRule ["networking.istio.io"] ["virtualservices"; "destinationrules"] ["*"];
     mkPolicyRule [""] ["bindings"; "events"; "namespaces"; "resourcequotas"] ["get"; "list"; "watch"];
     mkPolicyRule ["env.samsahai.io"] ["configs"] ["get"; "list"; "watch"]]).
Definition GetRoleBinding (t : Team) (namespaceName : string) : StagingObject :=
  ORoleBinding (mkRoleBinding (labelled t namespaceName StagingCtrlName) ("Role", StagingCtrlName)
    [mkSubject "ServiceAccount" StagingCtrlName namespaceName]).

Definition GenClusterRoleName (namespace : string) : string := StagingCtrlName +:+ "-" +:+ namespace.
Definition GetClusterRole (t : Team) (namespace : string) : StagingObject :=
  OClusterRole (mkRole (labelled t "" (GenClusterRoleName namespace))
    [mkPolicyRule ["env.samsahai.io"] ["configs"; "stablecomponents"] ["get"; "list"; "watch"];
     mkPolicyRule ["env.samsahai.io"] ["queues"] ["*"];
     mkPolicyRule ["policy"] ["podsecuritypolicies"] ["get"; "list"; "watch"; "create"; "update"; "patch"; "delete"]]).
Definition GetClusterRoleBinding (t : Team) (namespace : string) : StagingObject :=
  OClusterRoleBinding (mkRoleBinding (labelled t "" (GenClusterRoleName namespace))
    ("ClusterRole", GenClusterRoleName namespace) [mkSubject "ServiceAccount" StagingCtrlName namespace]).
Definition GetServiceAccount (t : Team) (namespaceName : string) : StagingObject :=
  OServiceAccount (mkServiceAccount (labelled t namespaceName StagingCtrlName) "").

(** [strings.ToUpper], of texts in ASCII. *)
Fixpoint ToUpper (s : string) : string :=
  match s with EmptyString => "" | String c s' => String (to_upper c) (ToUpper s') end.
Definition secret_data (kvs : list (string * string)) : gmap string string :=
  foldl (fun data kv =>
    if String.eqb (fst kv) "" || String.eqb (snd kv) "" then data
    else <[ReplaceAll (ToUpper (fst kv)) "-" "_" := snd kv]> data) ∅ kvs.
Definition GetSecret (t : Team) (namespaceName : string) (kvs : list (string * string)) : StagingObject :=
  OSecret (mkSecretObject (controlled t (labelled t namespaceName StagingCtrlName)) "Opaque" (Some (secret_data kvs))).
End builders.
Definition GetTeamSecretName (teamName : string) : string := AppPrefix +:+ teamName +:+ "-secret".

(** ** The comparison *)

(** [sort.SliceStable] by the names. *)
Definition env_before (x y : EnvVar) : bool := string_less (ev_Name x) (ev_Name y).
Definition sort_env (c : Container) : Container := c <| ctn_Env ::= insertion_sort env_before |>.

(** A field that differs is taken over; whether any was. *)
Definition take_over {X A} `{EqDecision A} (field : X -> A) (put : A -> X -> X) (target : X) (s : bool * X) : bool * X :=
  if decide (field (snd s) = field target) then s else (true, put (field target) (snd s)).

(** The slices are sorted where they are, so also when nothing else is found to differ; a
    container beyond those that are wanted is looked for there all the same. *)
Fixpoint containers_changed (found target : list Container) : outcome (bool * list Container) :=
  match found with
  | [] => Ok (false, [])
  | f :: found =>
      match target with
      | [] => Panic IndexOutOfRange
      | t :: target =>
          match containers_changed found target with
          | Ok (changed, rest) =>
              if decide (sort_env f = sort_env t) then Ok (changed, sort_env f :: rest) else Ok (true, sort_env t :: rest)
          | Err err => Err err
          | Panic p => Panic p
          end
      end
  end.
Definition set_labels (labels : gmap string string) (m : ObjectMeta) : ObjectMeta := m <| om_Labels := labels |>.

Definition isDeploymentChanged (found target : Deployment) : outcome (bool * Deployment) :=
  let s := take_over (fun x => om_Labels (dp_Meta x)) (fun l x => x <| dp_Meta ::= set_labels l |>) target (false, found) in
  let '(changed, found) :=
    take_over dp_TemplateLabels (fun l x => x <| dp_TemplateLabels := l |>) target s in
  match containers_changed (dp_Containers found) (dp_Containers target) with
  | Ok (changed', containers) => Ok (changed || changed', found <| dp_Containers := containers |>)
  | Err err => Err err
  | Panic p => Panic p
  end.
Definition isResourceQuotaChanged (found target : ResourceQuota) : bool * ResourceQuota :=
  take_over (fun x => (quota_Hard x, quota_rest x)) (fun s x => x <| quota_Hard := fst s |> <| quota_rest := snd s |>) target
    (false, found).
Definition isRoleChanged (found target : Role) : bool * Role :=
  take_over role_Rules (fun rules x => x <| role_Rules := rules |>) target
    (take_over (fun x => om_Labels (role_Meta x)) (fun l x => x <| role_Meta ::= set_labels l |>) target (false, found)).
Definition isRoleBindingChanged (found target : RoleBinding) : bool * RoleBinding :=
  take_over rb_Subjects (fun subjects x => x <| rb_Subjects := subjects |>) target
    (take_over (fun x => om_Labels (rb_Meta x)) (fun l x => x <| rb_Meta ::= set_labels l |>) target (false, found)).
Definition isSecretChanged (found target : SecretObject) : bool * SecretObject :=
  take_over sct_Data (fun data x => x <| sct_Data := data |>) target
    (take_over (fun x => om_Labels (sct_Meta x)) (fun l x => x <| sct_Meta ::= set_labels l |>) target (false, found)).
Definition isServiceChanged (found target : Service) : bool * Service :=
  take_over srv_Selector (fun selector x => x <| srv_Selector := selector |>) target
    (take_over srv_Ports (fun ports x => x <| srv_Ports := ports |>) target
      (take_over (fun x => om_Labels (srv_Meta x)) (fun l x => x <| srv_Meta ::= set_labels l |>) target (false, found))).
Definition isServiceAccountChanged (found target : ServiceAccount) : bool * ServiceAccount :=
  take_over (fun x => om_Labels (sa_Meta x)) (fun l x => x <| sa_Meta ::= set_labels l |>) target (false, found).

(** Whether [found] differs from [target], and what [found] has become.  Cluster roles and
    their bindings are not compared. *)
Definition IsK8sObjectChanged (found target : StagingObject) : outcome (bool * StagingObject) :=
  let with_kind {X} (mk : X -> StagingObject) (r : bool * X) := Ok (fst r, mk (snd r)) in
  match target, found with
  | ODeployment target, ODeployment found =>
      match isDeploymentChanged found target with
      | Ok r => with_kind ODeployment r
      | Err err => Err err
      | Panic p => Panic p
      end
  | OResourceQuota target, OResourceQuota found => with_kind OResourceQuota (isResourceQuotaChanged found target)
  | ORole target, ORole found => with_kind ORole (isRoleChanged found target)
  | ORoleBinding target, ORoleBinding found => with_kind ORoleBinding (isRoleBindingChanged found target)
  | OSecret target, OSecret found => with_kind OSecret (isSecretChanged found target)
  | OService target, OService found => with_kind OService (isServiceChanged found target)
  | OServiceAccount target, OServiceAccount found => with_kind OServiceAccount (isServiceAccountChanged found target)
  | OClusterRole _, _ | OClusterRoleBinding _, _ => Ok (false, found)
  | _, _ => Panic TypeAssertion
  end.

(** ** The interface that the controller of teams is proved against *)

(** [Get], [Create], [Update] and [Delete] of the client. *)
Class StagingClient (W : Type) := {
  sc_get : StagingObject -> M W StagingObject;
  sc_create : StagingObject -> M W unit;
  sc_update : StagingObject -> M W unit;
  sc_delete : StagingObject -> M W unit;
}.
Definition staging_objects {W} `{GR : GoRuntime W, OUT : SamsahaiOutside W, RL : ResourceLists, SC : StagingClient W}
    (Version : string) : StagingObjects W StagingObject := {|
  so_GetService := GetService (W:=W) Version;
  so_GetServiceAccount := GetServiceAccount Version;
  so_GetRole := GetRole Version;
  so_GetRoleBinding := GetRoleBinding Version;
  so_GetClusterRole := GetClusterRole Version;
  so_GetClusterRoleBinding := GetClusterRoleBinding Version;
  so_GetSecret := GetSecret (W:=W) Version;
  so_GetDeployment := GetDeployment Version;
  so_GetResourceQuota := GetResourceQuota;
  so_GetEmptyResourceQuota := GetEmptyResourceQuota;
  so_IsK8sObjectChanged found target := fun w =>
    match IsK8sObjectChanged found target with
    | Ok (changed, found) => (Ok (if changed : bool then Some found else None), w)
    | Err err => (Err err, w)
    | Panic p => (Panic p, w)
    end;
  so_get := sc_get;
  so_create := sc_create;
  so_update := sc_update;
  so_delete := sc_delete;
|}.
