(* ===== verification/K8sClaims.v ===== *)
(** The properties of the objects that run the staging side: the comparison of a stored
    object with the one that is wanted, and what stands after the objects of a namespace
    were created. *)

From S2P Require Import Prelude.
From S2P Require Import GoRuntime.
From S2P Require Import Errors.
From S2P Require Import KubeApi.
From S2P Require Import ConfigTypes.
From S2P Require Import TeamTypes.
From S2P Require Import Interfaces.
From S2P Require Import SamsahaiCtrl.
From S2P Require Import K8sObjects.
From Stdlib Require Import Ascii.
Open Scope string_scope.
Open Scope list_scope.
Open Scope Z_scope.

(** ** Sorting by name *)

Section stable.
Context {A : Type} (less : A -> A -> bool) (Hso : sort_ordering less).

Lemma insert_back_commutes x y l :
  less x y = true -> less y x = false ->
  insert_back less x (insert_back less y l) = insert_back less y (insert_back less x l).
Proof.
  intros Hxy Hyx. induction l as [|z l IH]; simpl; [by rewrite Hxy, Hyx|].
  destruct (less y z) eqn:Hyz.
  - rewrite (so_trans less Hso x y z Hxy Hyz). simpl. rewrite (so_trans less Hso x y z Hxy Hyz), Hyz. by rewrite IH.
  - simpl. rewrite Hxy. destruct (less x z) eqn:Hxz; simpl; [by rewrite Hyz|]. by rewrite Hyx.
Qed.

(** Two elements that the order tells apart. *)
Definition apart (x y : A) : Prop := less x y <> less y x.

Lemma insertion_foldl_order l k acc :
  l ≡ₚ k -> NoDup l -> (forall x y, x ∈ l -> y ∈ l -> x <> y -> apart x y) ->
  foldl (fun acc x => insert_back less x acc) acc l = foldl (fun acc x => insert_back less x acc) acc k.
Proof.
  intros Hp. revert acc. induction Hp as [|x l k Hp IH|x y l|l k m Hlk IH1 Hkm IH2]; intros acc Hnd Ha; simpl.
  - done.
  - apply NoDup_cons in Hnd as [_ Hnd]. apply IH; [done|]. intros a b Ha' Hb. by apply Ha; right.
  - f_equal. assert (apart x y) as Hxy.
    { apply Ha; [right; left|left|]. intros ->. apply NoDup_cons in Hnd as [Hin _]. apply Hin. left. }
    unfold apart in Hxy. destruct (less x y) eqn:E1, (less y x) eqn:E2; try done;
      [|symmetry]; by apply insert_back_commutes.
  - rewrite IH1 by done. apply IH2; [by rewrite <- Hlk|]. intros a b. rewrite <- Hlk. apply Ha.
Qed.

(** Elements that the order tells apart are sorted alike in whatever order they come after
    the same beginning. *)
Lemma insertion_sort_order pre l k :
  l ≡ₚ k -> NoDup l -> (forall x y, x ∈ l -> y ∈ l -> x <> y -> apart x y) ->
  insertion_sort less (pre ++ l) = insertion_sort less (pre ++ k).
Proof. intros. unfold insertion_sort. rewrite !foldl_app. f_equal. by apply insertion_foldl_order. Qed.

(** A sorted list stays. *)
Lemma insertion_sort_sorted l :
  StronglySorted (fun x y => less y x = false) l -> insertion_sort less l = l.
Proof.
  intros Hs. unfold insertion_sort.
  assert (forall acc, (forall x y, x ∈ acc -> y ∈ l -> less y x = false) ->
            foldl (fun acc x => insert_back less x acc) acc l = reverse l ++ acc) as H.
  { induction Hs as [|x l Hs IH Hx]; intros acc Ha; simpl; [done|].
    assert (insert_back less x acc = x :: acc) as ->.
    { destruct acc as [|y acc]; simpl; [done|]. by rewrite (Ha y x) by left. }
    rewrite IH; [by rewrite reverse_cons, <- app_assoc|]. rewrite Forall_forall in Hx.
    intros y z [->|Hy]%elem_of_cons Hz; [by apply Hx|]. apply Ha; [done|by right]. }
  rewrite H; [by rewrite app_nil_r, reverse_involutive|]. by intros x y Hx%elem_of_nil.
Qed.
End stable.

Lemma env_before_ordering : sort_ordering env_before.
Proof.
  destruct string_less_ordering as [Ht Hn]. split; intros x y z; [apply Ht|apply Hn].
Qed.
Lemma env_apart x y : ev_Name x <> ev_Name y -> apart env_before x y.
Proof.
  intros Hne Heq. apply Hne. unfold env_before in Heq.
  destruct (string_less (ev_Name x) (ev_Name y)) eqn:E1, (string_less (ev_Name y) (ev_Name x)) eqn:E2; try done.
  - exfalso. pose proof (so_trans _ string_less_ordering _ _ _ E1 E2) as H. by rewrite string_less_irrefl in H.
  - by apply string_less_antisym.
Qed.
Lemma env_sorted l : insertion_sort env_before (insertion_sort env_before l) = insertion_sort env_before l.
Proof.
  apply insertion_sort_sorted.
  pose proof (insertion_sort_in_order env_before l env_before_ordering) as Hs. unfold in_order in Hs.
  eapply StronglySorted_ind; [constructor| |exact Hs]. intros x k Hk IH Hx. constructor; [done|].
  eapply Forall_impl; [exact Hx|]. intros y Hxy. unfold may_follow in Hxy.
  destruct (env_before y x) eqn:E; [|done]. specialize (Hxy eq_refl).
  pose proof (so_trans _ env_before_ordering _ _ _ E Hxy) as H. unfold env_before in H. by rewrite string_less_irrefl in H.
Qed.
Lemma sort_env_twice c : sort_env (sort_env c) = sort_env c.
Proof. destruct c. unfold sort_env, over_field. simpl. by rewrite env_sorted. Qed.

(** ** What is compared *)

(** The containers that are stored are the wanted ones, up to the order of their variables. *)
Definition containers_wanted (found target : list Container) : Prop :=
  sort_env <$> found = sort_env <$> take (length found) target.

(** The fields that are compared are those of the target. *)
Definition as_wanted (found target : StagingObject) : Prop :=
  match found, target with
  | ODeployment f, ODeployment t =>
      om_Labels (dp_Meta f) = om_Labels (dp_Meta t) /\ dp_TemplateLabels f = dp_TemplateLabels t /\
      containers_wanted (dp_Containers f) (dp_Containers t)
  | OService f, OService t =>
      om_Labels (srv_Meta f) = om_Labels (srv_Meta t) /\ srv_Ports f = srv_Ports t /\ srv_Selector f = srv_Selector t
  | ORole f, ORole t => om_Labels (role_Meta f) = om_Labels (role_Meta t) /\ role_Rules f = role_Rules t
  | ORoleBinding f, ORoleBinding t => om_Labels (rb_Meta f) = om_Labels (rb_Meta t) /\ rb_Subjects f = rb_Subjects t
  | OServiceAccount f, OServiceAccount t => om_Labels (sa_Meta f) = om_Labels (sa_Meta t)
  | OSecret f, OSecret t => om_Labels (sct_Meta f) = om_Labels (sct_Meta t) /\ sct_Data f = sct_Data t
  | OResourceQuota f, OResourceQuota t => quota_Hard f = quota_Hard t /\ quota_rest f = quota_rest t
  | OClusterRole _, OClusterRole _ | OClusterRoleBinding _, OClusterRoleBinding _ => True
  | _, _ => False
  end.
(** An object without the fields that are compared. *)
Definition unlabelled (m : ObjectMeta) : ObjectMeta := set_labels ∅ m.
Definition erased (o : StagingObject) : StagingObject :=
  match o with
  | ODeployment x => ODeployment (mkDeployment (unlabelled (dp_Meta x)) (dp_MatchLabels x) ∅ [] (dp_ServiceAccountName x) (dp_rest x))
  | OService x => OService (mkService (unlabelled (srv_Meta x)) [] ∅ (srv_Type x) (srv_rest x))
  | ORole x => ORole (mkRole (unlabelled (role_Meta x)) [])
  | ORoleBinding x => ORoleBinding (mkRoleBinding (unlabelled (rb_Meta x)) (rb_RoleRef x) [])
  | OServiceAccount x => OServiceAccount (mkServiceAccount (unlabelled (sa_Meta x)) (sa_rest x))
  | OSecret x => OSecret (mkSecretObject (unlabelled (sct_Meta x)) (sct_Type x) None)
  | OResourceQuota x => OResourceQuota (mkResourceQuota (quota_Meta x) ∅ "")
  | _ => o
  end.

Lemma take_over_spec {X A} `{EqDecision A} (field : X -> A) (put : A -> X -> X) (target : X) s :
  take_over field put target s =
    (fst s || negb (bool_decide (field (snd s) = field target)),
     if decide (field (snd s) = field target) then snd s else put (field target) (snd s)).
Proof.
  unfold take_over. destruct s as [b x]. simpl. destruct (decide _) as [H|H].
  - by rewrite bool_decide_true, orb_false_r.
  - by rewrite bool_decide_false, orb_true_r.
Qed.

Lemma containers_changed_spec found target :
  match containers_changed found target with
  | Ok (changed, found') =>
      (changed = false <-> containers_wanted found target) /\ containers_wanted found' target /\
      length found' = length found /\ (length found <= length target)%nat
  | Err _ => False
  | Panic p => p = IndexOutOfRange /\ (length target < length found)%nat
  end.
Proof.
  revert target. induction found as [|f found IH]; intros target; [by split_and!; [|..|simpl; lia]|].
  destruct target as [|t target]; [by split; [|simpl; lia]|]. cbn [containers_changed]. specialize (IH target).
  destruct (containers_changed found target) as [[changed rest]|err|p]; [|done|by destruct IH; split; [|simpl; lia]].
  destruct IH as (Hc & Hw & Hlen & Hle). unfold containers_wanted in *.
  destruct (decide (sort_env f = sort_env t)) as [Heq|Hne]; cbn [length take fmap list_fmap]; rewrite ?Hlen in *;
    split_and!; try (simpl; lia); rewrite ?fmap_cons, ?sort_env_twice.
  - rewrite Hc. rewrite Heq. split; [by intros ->|by intros [= ->]].
  - by rewrite Heq, Hw.
  - split; [done|]. intros Heq. apply (f_equal head) in Heq. cbn [head] in Heq. congruence.
  - by rewrite Hw.
Qed.

(** The fields one by one, each equal or taken over. *)
Ltac compared_fields :=
  simpl in *; split_and!; repeat case_decide; simpl in *; try done; try (by split_and!);
  repeat case_bool_decide; simpl in *; try done; naive_solver.

(** One comparison. *)
Lemma compared (found target : StagingObject) :
  object_kind found = object_kind target ->
  match IsK8sObjectChanged found target with
  | Ok (changed, found') =>
      (changed = false <-> as_wanted found target) /\ as_wanted found' target /\
      erased found' = erased found /\ object_key found' = object_key found
  | Err _ => False
  | Panic p => p = IndexOutOfRange /\ exists f t, found = ODeployment f /\ target = ODeployment t /\
                 (length (dp_Containers t) < length (dp_Containers f))%nat
  end.
Proof.
  intros Hkind.
  destruct found as [f|f|f|f|f|f|f|f|f], target as [t|t|t|t|t|t|t|t|t]; try done; cbn [IsK8sObjectChanged].
  - unfold isDeploymentChanged. rewrite !take_over_spec. cbn [fst snd].
    pose proof (containers_changed_spec (dp_Containers f) (dp_Containers t)) as Hc.
    assert (forall f' : Deployment, dp_Containers f' = dp_Containers f ->
      containers_changed (dp_Containers f') (dp_Containers t) = containers_changed (dp_Containers f) (dp_Containers t)) as He
      by by intros f' ->.
    rewrite He by (repeat case_decide; done).
    destruct (containers_changed (dp_Containers f) (dp_Containers t)) as [[changed cs]|err|p]; [|done|naive_solver].
    destruct Hc as (Hc & Hw & Hlen & Hle). cbn [fst snd as_wanted]. 
    destruct f as [fm fs ftl fc fa fr], t as [tm ts ttl tc ta tr]. simpl in *. destruct fm, tm. compared_fields.
  - unfold isServiceChanged. rewrite !take_over_spec. destruct f as [[]], t as [[]]. compared_fields.
  - unfold isRoleChanged. rewrite !take_over_spec. destruct f as [[]], t as [[]]. compared_fields.
  - unfold isRoleBindingChanged. rewrite !take_over_spec. destruct f as [[]], t as [[]]. compared_fields.
  - unfold isServiceAccountChanged. rewrite !take_over_spec. destruct f as [[]], t as [[]]. compared_fields.
  - unfold isSecretChanged. rewrite !take_over_spec. destruct f as [[]], t as [[]]. compared_fields.
  - unfold isResourceQuotaChanged. rewrite !take_over_spec. destruct f as [[]], t as [[]]. compared_fields.
Qed.

Lemma kind_of_key x y : object_key x = object_key y -> object_kind x = object_kind y.
Proof. by intros [= ? _ _]. Qed.

(** the comparison of a stored object with a wanted one says that it changed exactly when a
    field that is compared differs, where variables of a container may come in any order; it
    leaves the object with the wanted fields and all others as they were, so that a second
    comparison finds nothing; it panics only for a deployment with more containers than
    wanted. *)
Theorem comparison_settles (found target : StagingObject)
    (Hkind : object_kind found = object_kind target) :
  match IsK8sObjectChanged found target with
  | Ok (changed, found') =>
      (changed = false <-> as_wanted found target) /\ as_wanted found' target /\
      erased found' = erased found /\ object_key found' = object_key found /\
      exists found'', IsK8sObjectChanged found' target = Ok (false, found'')
  | Err _ => False
  | Panic p => p = IndexOutOfRange /\ exists f t, found = ODeployment f /\ target = ODeployment t /\
                 (length (dp_Containers t) < length (dp_Containers f))%nat
  end.
Proof.
  pose proof (compared found target Hkind) as H1.
  destruct (IsK8sObjectChanged found target) as [[changed found']|err|p]; [|done|done].
  destruct H1 as (Hc & Hw & He & Hk). split_and!; try done.
  assert (object_kind found' = object_kind target) as Hkind' by (rewrite <- Hkind; by apply kind_of_key).
  pose proof (compared found' target Hkind') as H2.
  destruct (IsK8sObjectChanged found' target) as [[changed' found'']|err|p]; [|done|].
  - destruct H2 as ([_ H2] & _). exists found''. by rewrite (H2 Hw).
  - destruct H2 as (_ & f & t & -> & -> & Hlt). destruct Hw as (_ & _ & Hw).
    apply (f_equal length) in Hw. rewrite !length_fmap, length_take in Hw. lia.
Qed.

(** ** The objects of a namespace *)

(** The stored objects, by their kinds and names. *)
Class StagingView (W : Type) := staging_view : W -> gmap (nat * (string * string)) StagingObject.
(** What the client promises: a call that fails stores nothing, a read reports what is
    stored, a write that succeeds stores what it is given. *)
Class StagingClientLaws (W : Type) `{StagingClient W, StagingView W} := {
  sc_get_law o w :
    match sc_get o w with
    | (Ok x, w') => staging_view w !! object_key o = Some x /\ object_key x = object_key o /\ staging_view w' = staging_view w
    | (Err err, w') => (IsNotFound err = true -> staging_view w !! object_key o = None) /\ staging_view w' = staging_view w
    | (Panic _, _) => False
    end;
  sc_create_law o w :
    match sc_create o w with
    | (Ok _, w') => staging_view w' = <[object_key o := o]> (staging_view w)
    | (Err _, w') => staging_view w' = staging_view w
    | (Panic _, _) => False
    end;
  sc_update_law o w :
    match sc_update o w with
    | (Ok _, w') => staging_view w' = <[object_key o := o]> (staging_view w)
    | (Err _, w') => staging_view w' = staging_view w
    | (Panic _, _) => False
    end;
  sc_delete_law o w :
    match sc_delete o w with
    | (Ok _, w') => staging_view w' = delete (object_key o) (staging_view w)
    | (Err err, w') => (IsNotFound err = true -> staging_view w !! object_key o = None) /\ staging_view w' = staging_view w
    | (Panic _, _) => False
    end;
}.

Section environment.
Context {W : Type} `{GR : GoRuntime W, OUT : SamsahaiOutside W, RL : ResourceLists, SC : StagingClient W}.
Context `{SV : StagingView W, !StagingClientLaws W, !GoRuntimeLaws W}.
Context (Version : string).
#[local] Instance these_objects : StagingObjects W StagingObject := staging_objects Version.

Lemma as_wanted_refl o : as_wanted o o.
Proof. destruct o; try done. split_and!; try done. unfold containers_wanted. by rewrite firstn_all. Qed.

(** An object that stands: it is stored with the wanted fields. *)
Definition stands (obj : StagingObject) (w : W) : Prop :=
  exists x, staging_view w !! object_key obj = Some x /\ as_wanted x obj.

Lemma wp_deployStagingCtrl obj w (Q : outcome unit -> W -> Prop) :
  (forall err w', Q (Err err) w') -> (forall p w', Q (Panic p) w') ->
  (forall w', stands obj w' -> (forall k, k <> object_key obj -> staging_view w' !! k = staging_view w !! k) -> Q (Ok tt) w') ->
  wp (deployStagingCtrl obj) w Q.
Proof.
  intros He Hp HQ. unfold deployStagingCtrl. repeat wp_step.
  apply run_wp. intros r w1 Heq. pose proof (sc_get_law obj w) as Hg.
  change (so_get obj w) with (sc_get obj w) in Heq. rewrite Heq in Hg.
  destruct r as [found|err|p]; [| |apply Hp]; lazy beta iota.
  - destruct Hg as (Hl & Hk & Hv). wp_step. apply run_wp. intros r w2 Heq2.
    change (so_IsK8sObjectChanged found obj w1) with
      (match IsK8sObjectChanged found obj with
       | Ok (changed, found) => (Ok (if changed : bool then Some found else None), w1)
       | Err err => (Err err, w1) | Panic p => (Panic p, w1) end) in Heq2.
    pose proof (compared found obj (kind_of_key _ _ Hk)) as Hc.
    destruct (IsK8sObjectChanged found obj) as [[[] found']|err|p]; injection Heq2 as <- <-; lazy beta iota; [| |apply He|apply Hp].
    + destruct Hc as (_ & Hw & _ & Hk'). apply run_wp. intros r w3 Heq3. pose proof (sc_update_law found' w1) as Hu.
      change (so_update found' w1) with (sc_update found' w1) in Heq3. rewrite Heq3 in Hu.
      destruct r as [[]|err|p]; [|apply He|apply Hp]. rewrite Hk', Hk, Hv in Hu. apply HQ.
      * exists found'. rewrite Hu. split; [by apply lookup_insert_eq|done].
      * intros k Hne. by rewrite Hu, lookup_insert_ne.
    + wp_step. destruct Hc as ([Hw _] & _). apply HQ; [|intros; by rewrite Hv].
      exists found. rewrite Hv. split; [done|by apply Hw].
  - destruct Hg as [_ Hv]. destruct (IsNotFound err); [|wp_step; apply He].
    apply run_wp. intros r w3 Heq3. pose proof (sc_create_law obj w1) as Hu.
    change (so_create obj w1) with (sc_create obj w1) in Heq3. rewrite Heq3 in Hu.
    destruct r as [[]|err'|p]; [|apply He|apply Hp]. rewrite Hv in Hu. apply HQ.
    + exists obj. rewrite Hu. split; [by apply lookup_insert_eq|apply as_wanted_refl].
    + intros k Hne. by rewrite Hu, lookup_insert_ne.
Qed.

(** Objects of different keys are created one after the other, and all of them stand. *)
Lemma wp_deploy_all objs w (Q : outcome unit -> W -> Prop) :
  NoDup (object_key <$> objs) ->
  (forall err w', Q (Err err) w') -> (forall p w', Q (Panic p) w') ->
  (forall w', (forall obj, obj ∈ objs -> stands obj w') ->
     (forall k, k ∉ object_key <$> objs -> staging_view w' !! k = staging_view w !! k) -> Q (Ok tt) w') ->
  wp (for_each objs (fun obj => wrapping "cannot deploy staging controller" (deployStagingCtrl obj))) w Q.
Proof.
  revert w. induction objs as [|obj objs IH]; intros w Hnd He Hp HQ; cbn [for_each].
  - wp_step. apply HQ; [by intros obj Hin%elem_of_nil|done].
  - rewrite fmap_cons in Hnd. apply NoDup_cons in Hnd as [Hin Hnd]. wp_step. apply wp_wrapping.
    apply wp_deployStagingCtrl; [intros; apply He|intros; apply Hp|]. intros w1 Hs Hkeep. lazy beta iota.
    apply IH; [done..|]. intros w2 Hall Hrest. apply HQ.
    + intros o [->|Ho]%elem_of_cons; [|by apply Hall]. destruct Hs as (x & Hx & Hw). exists x. by rewrite Hrest.
    + intros k Hk. rewrite fmap_cons in Hk. apply not_elem_of_cons in Hk as [Hk1 Hk2]. by rewrite Hrest, Hkeep.
Qed.

(** The variables of the staging controller, sorted, do not depend on the order of the map. *)
Lemma staging_env_order teamName ns url (m : gmap string string) l k :
  l ≡ₚ map_to_list m -> k ≡ₚ map_to_list m ->
  insertion_sort env_before (staging_env teamName ns url l) = insertion_sort env_before (staging_env teamName ns url k).
Proof.
  intros Hl Hk. unfold staging_env. apply insertion_sort_order; [apply env_before_ordering|..].
  - by rewrite Hl, Hk.
  - assert (NoDup l.*1) as Hnd by (rewrite Hl; apply NoDup_fst_map_to_list).
    apply (NoDup_fmap_1 ev_Name). by rewrite <- list_fmap_compose.
  - intros x y Hx Hy Hne. apply env_apart. intros Hn. apply Hne.
    apply list_elem_of_fmap in Hx as ([kx vx] & -> & Hx), Hy as ([ky vy] & -> & Hy). simpl in *. subst ky. f_equal.
    rewrite Hl in Hx, Hy. apply elem_of_map_to_list in Hx, Hy. congruence.
Qed.

(** The deployment stands whatever the order of the map is taken to be. *)
Lemma staging_deployment_order t ns configs l k w :
  l ≡ₚ map_to_list (s2h_StagingEnvs configs) -> k ≡ₚ map_to_list (s2h_StagingEnvs configs) ->
  stands (staging_deployment (W:=W) Version t ns configs l) w -> stands (staging_deployment (W:=W) Version t ns configs k) w.
Proof.
  intros Hl Hk (x & Hx & Hw). unfold staging_deployment in *.
  destruct (container_resources _) as [limits requests]. exists x. split; [exact Hx|].
  destruct x as [f|?|?|?|?|?|?|?|?]; try done. destruct Hw as (H1 & H2 & Hw). split_and!; [done..|].
  unfold containers_wanted in *. cbn [dp_Containers] in *. rewrite Hw. rewrite !fmap_take. f_equal.
  pose proof (staging_env_order (kname t) ns (s2h_SamsahaiURL configs) _ _ _ Hl Hk) as Ho. cbv zeta.
  revert Ho. generalize (staging_env (kname t) ns (s2h_SamsahaiURL configs) l) (staging_env (kname t) ns (s2h_SamsahaiURL configs) k).
  unfold sort_env. generalize (insertion_sort env_before). intros srt e1 e2 Ho. cbn. by rewrite Ho.
Qed.

(** ** What stands in the end *)

Definition is_deployed (t : Team) : bool :=
  match ts_StagingCtrl (tst_Used (team_Status t)) with Some ctrl => stc_IsDeploy ctrl | None => true end.
(** The resources that the quota is made of, besides those of the team; [None] without a quota. *)
Definition quota_given (t : Team) (resources : option ResourceList) : option (option ResourceList) :=
  if (0 <? size (default ∅ resources))%nat then Some resources
  else if (0 <? size (ts_Resources (tst_Used (team_Status t))))%nat then Some None
  else None.
Definition environment_secrets (configs : SamsahaiConfig) : list (string * string) :=
  let cred := s2h_SamsahaiCredential configs in
  [("s2h-auth-token", scr_InternalAuthToken cred); ("teamcity-username", scr_TeamcityUsername cred);
   ("teamcity-password", scr_TeamcityPassword cred); ("gitlab-token", scr_GitlabToken cred);
   ("teamcity-url", s2h_TeamcityURL configs)].
Definition base_objects (configs : SamsahaiConfig) (t : Team) (ns : string) : list StagingObject :=
  [GetService (W:=W) Version t ns; GetServiceAccount Version t ns; GetRole Version t ns; GetRoleBinding Version t ns;
   GetClusterRole Version t ns; GetClusterRoleBinding Version t ns; GetSecret (W:=W) Version t ns (environment_secrets configs)].

Lemma GetResourceQuota_run t ns resources w0 quota :
  fst (GetResourceQuota (W:=W) t ns resources w0) = Ok quota ->
  object_key quota = object_key (GetEmptyResourceQuota ns) /\
  forall w : W, GetResourceQuota t ns resources w = (Ok quota, w).
Proof.
  unfold GetResourceQuota. cbv zeta.
  match goal with |- context [deref ?memory] => generalize memory; intros memory' end.
  match goal with |- context [mbind _ (deref ?cpu)] => generalize cpu; intros cpu' end.
  destruct cpu', memory'; try done. cbn. by intros [= <-].
Qed.

(** The quota before anything is written. *)
Definition quota_ready (t : Team) (ns : string) (resources : option ResourceList) (quotas : list StagingObject) (w : W) : Prop :=
  match quota_given t resources with
  | Some given => exists quota, quotas = [quota] /\ object_key quota = object_key (GetEmptyResourceQuota ns) /\
                    forall w0 : W, GetResourceQuota t ns given w0 = (Ok quota, w0)
  | None => quotas = [] /\ staging_view w !! object_key (GetEmptyResourceQuota ns) = None
  end.

Lemma wp_quota_object t ns resources given w (Q : outcome (list StagingObject) -> W -> Prop) :
  quota_given t resources = Some given ->
  (forall err w', Q (Err err) w') -> (forall p w', Q (Panic p) w') ->
  (forall quotas w', quota_ready t ns resources quotas w' -> Q (Ok quotas) w') ->
  wp (do quotaObj <- GetResourceQuota t ns given; mret [quotaObj]) w Q.
Proof.
  intros Hg He Hp HQ. wp_step. apply run_wp. intros r w' Heq.
  destruct r as [quota|err|p]; [|apply He|apply Hp]. wp_step. apply HQ. unfold quota_ready. rewrite Hg.
  destruct (GetResourceQuota_run t ns given w quota) as [Hk Hrun]; [by rewrite Heq|]. by exists quota.
Qed.

Lemma base_objects_kinds configs t ns : object_kind <$> base_objects configs t ns = [1; 6; 2; 3; 4; 5; 7]%nat.
Proof. reflexivity. Qed.
Lemma staging_deployment_key t ns configs l :
  object_kind (staging_deployment (W:=W) Version t ns configs l) = 0%nat.
Proof. unfold staging_deployment. by destruct (container_resources _). Qed.

(** Kinds that differ make keys that differ. *)
Lemma kinds_keys objs : NoDup (object_kind <$> objs) -> NoDup (object_key <$> objs).
Proof.
  intros H. apply (NoDup_fmap_1 fst). by rewrite <- list_fmap_compose.
Qed.

Lemma wp_all_objects configs t ns resources deployments quotas w (Q : outcome unit -> W -> Prop) :
  (object_kind <$> deployments = [] \/ object_kind <$> deployments = [0%nat]) ->
  quota_ready t ns resources quotas w ->
  (forall err w', Q (Err err) w') -> (forall p w', Q (Panic p) w') ->
  (forall w', (forall obj, obj ∈ base_objects configs t ns ++ deployments ++ quotas -> stands obj w') ->
     (quota_given t resources = None -> staging_view w' !! object_key (GetEmptyResourceQuota ns) = None) -> Q (Ok tt) w') ->
  wp (for_each (base_objects configs t ns ++ deployments ++ quotas)
        (fun obj => wrapping "cannot deploy staging controller" (deployStagingCtrl obj))) w Q.
Proof.
  intros Hd Hq He Hp HQ. unfold quota_ready in Hq.
  assert (object_kind <$> quotas = [] \/ object_kind <$> quotas = [8%nat]) as Hk.
  { destruct (quota_given _ _); [|by left; destruct Hq as [-> _]].
    destruct Hq as (quota & -> & Hk & _). right. by rewrite list_fmap_singleton, (kind_of_key _ _ Hk). }
  apply wp_deploy_all; [|done..|].
  - apply kinds_keys. rewrite !fmap_app, base_objects_kinds. apply (bool_decide_unpack _).
    by destruct Hd as [->| ->], Hk as [->| ->].
  - intros w' Hall Hrest. apply HQ; [done|]. intros Hnone. rewrite Hnone in Hq. destruct Hq as [-> Hq].
    rewrite Hrest; [done|]. rewrite app_nil_r. intros (x & Hx & Hin)%list_elem_of_fmap.
    apply (list_elem_of_fmap_2 object_kind) in Hin. apply kind_of_key in Hx. rewrite <- Hx, fmap_app, base_objects_kinds in Hin.
    apply (bool_decide_eq_true (_ ∈ _)) in Hin. by destruct Hd as [Hd|Hd]; rewrite Hd in Hin.
Qed.

(** C12: when the objects of a namespace were created without an error, all of them stand: the
    service, the account, the roles and the bindings, the secret with the credentials, the
    deployment of the staging controller, unless the team does without (with its variables
    in whatever order the map of the configuration gives them), and the quota of the
    resources that are given, or else of those of the team; without either there is no quota
    left.  An object that stands is stored under its name, with those fields as wanted that
    the code compares: none for cluster roles and their bindings. *)
Theorem environment_stands configs t ns resources w w' :
  createEnvironmentObjects configs t ns resources w = (Ok tt, w') ->
  (forall obj, obj ∈ base_objects configs t ns -> stands obj w') /\
  (is_deployed t = true -> forall envs, envs ≡ₚ map_to_list (s2h_StagingEnvs configs) ->
     stands (staging_deployment (W:=W) Version t ns configs envs) w') /\
  match quota_given t resources with
  | Some given => exists quota, (forall w0 : W, GetResourceQuota t ns given w0 = (Ok quota, w0)) /\ stands quota w'
  | None => staging_view w' !! object_key (GetEmptyResourceQuota ns) = None
  end.
Proof.
  intros Heq. pattern w'. match goal with |- ?G w' => set (P := G) end. refine (wp_run _ _ _ _ (fun r w' => r = Ok tt -> P w') _ Heq eq_refl). clear Heq w'.
  unfold createEnvironmentObjects. cbv zeta. wp_step.
  apply wp_mono with (Q := fun r w1 => match r with
    | Ok deployments => if is_deployed t then exists l, l ≡ₚ map_to_list (s2h_StagingEnvs configs) /\
                          deployments = [staging_deployment (W:=W) Version t ns configs l]
                        else deployments = []
    | _ => True end).
  { unfold is_deployed.
    assert (wp (do d <- so_GetDeployment (StagingObjects := these_objects) t ns configs; mret [d]) w (fun r _ =>
      match r with Ok deployments => exists l, l ≡ₚ map_to_list (s2h_StagingEnvs configs) /\
          deployments = [staging_deployment (W:=W) Version t ns configs l] | _ => True end)) as H.
    { cbn [so_GetDeployment these_objects staging_objects]. unfold GetDeployment. wp_step. wp_step.
      apply wp_range_map. intros l w1 Hl. wp_step. wp_step. exists l. split; [|done].
      pose proof (rt_range_perm _ (s2h_StagingEnvs configs) w) as Hp. by rewrite Hl in Hp. }
    destruct (ts_StagingCtrl _) as [ctrl|]; [destruct (stc_IsDeploy ctrl)|]; [exact H|reflexivity|exact H]. }
  intros [deployments|err|p] w1 Hd; [|done..]. lazy beta iota. wp_step.
  apply wp_mono with (Q := fun r w2 => match r with Ok quotas => quota_ready t ns resources quotas w2 | _ => True end).
  { destruct (0 <? size (default ∅ resources))%nat eqn:E1.
    { eapply wp_quota_object; [by unfold quota_given; rewrite E1|done..]. }
    destruct (0 <? size (ts_Resources _))%nat eqn:E2.
    { eapply wp_quota_object; [by unfold quota_given; rewrite E1, E2|done..]. }
    assert (quota_given t resources = None) as Hnone by (unfold quota_given; by rewrite E1, E2).
    wp_step. wp_step. apply run_wp. intros r w2 Heq. pose proof (sc_delete_law (GetEmptyResourceQuota ns) w1) as Hl.
    change (so_delete _ w1) with (sc_delete (GetEmptyResourceQuota ns) w1) in Heq. rewrite Heq in Hl.
    destruct r as [[]|err|p]; [| |done]; lazy beta iota.
    - wp_step. unfold quota_ready. rewrite Hnone, Hl. split; [done|]. apply lookup_delete_eq.
    - destruct Hl as [Hl Hv]. destruct (IsNotFound err) eqn:E; wp_step; [|done].
      unfold quota_ready. rewrite Hnone, Hv. split; [done|by apply Hl]. }
  intros [quotas|err|p] w2 Hq; [|done..]. lazy beta iota.
  change [so_GetService t ns; _; _; _; _; _; _] with (base_objects configs t ns).
  apply (wp_all_objects configs t ns resources deployments quotas); [|done..|].
  - destruct (is_deployed t); [right|left; by rewrite Hd]. destruct Hd as (l & _ & ->).
    by rewrite list_fmap_singleton, staging_deployment_key.
  - intros w3 Hall Hgone _. unfold P. split_and!.
    + intros obj Hin. apply Hall. apply elem_of_app. by left.
    + intros Ht envs Henvs. rewrite Ht in Hd. destruct Hd as (l & Hl & ->).
      apply (staging_deployment_order t ns configs l envs); [done..|]. apply Hall, elem_of_app. right. left.
    + unfold quota_ready in Hq. destruct (quota_given t resources) as [given|]; [|by apply Hgone].
      destruct Hq as (quota & -> & _ & Hrun). exists quota. split; [done|]. apply Hall. rewrite !elem_of_app. right. right. left.
Qed.
End environment.

(** ** What is not seen *)

(** Cluster roles and their bindings that are stored stay as they are, whatever is wanted. *)
Theorem cluster_role_never_updated found target :
  IsK8sObjectChanged (OClusterRole found) (OClusterRole target) = Ok (false, OClusterRole found) /\
  forall found target,
    IsK8sObjectChanged (OClusterRoleBinding found) (OClusterRoleBinding target) = Ok (false, OClusterRoleBinding found).
Proof. done. Qed.

(** A deployment that got another container, as an injector of sidecars adds one, panics. *)
Theorem sidecar_panics found target :
  (length (dp_Containers target) < length (dp_Containers found))%nat ->
  IsK8sObjectChanged (ODeployment found) (ODeployment target) = Panic IndexOutOfRange.
Proof.
  intros Hlt. pose proof (compared (ODeployment found) (ODeployment target) eq_refl) as H. cbn [IsK8sObjectChanged] in *.
  unfold isDeploymentChanged in *. rewrite !take_over_spec in *. cbn [fst snd] in *.
  pose proof (containers_changed_spec (dp_Containers found) (dp_Containers target)) as Hc.
  assert (forall f : Deployment, dp_Containers f = dp_Containers found ->
    containers_changed (dp_Containers f) (dp_Containers target) = containers_changed (dp_Containers found) (dp_Containers target)) as He
    by by intros f ->.
  rewrite He by (repeat case_decide; done).
  destruct (containers_changed (dp_Containers found) (dp_Containers target)) as [[changed cs]|err|p]; [lia|done|].
  by destruct Hc as [-> _].
Qed.

(** [Cpu()] and [Memory()] of a resource list answer zero, and not [nil], for what is not in
    it: resources without memory make a quota of no memory, whatever the team has. *)
Theorem quota_ignores_team {W : Type} `{GR : GoRuntime W, RL : ResourceLists} t ns resources (w : W) cpu memory :
  rl_Cpu resources = Some cpu -> rl_Memory resources = Some memory ->
  exists quota, GetResourceQuota t ns (Some resources) w = (Ok (OResourceQuota quota), w) /\
    quota_Hard quota !! "limits.cpu" = Some cpu /\ quota_Hard quota !! "limits.memory" = Some memory.
Proof.
  intros Hc Hm. unfold GetResourceQuota. rewrite Hc, Hm. cbn. eexists. split; [done|]. by split.
Qed.

(** ** A namespace *)

Record K8sSim := mkK8sSim { ks_clock : Z; ks_objects : gmap (nat * (string * string)) StagingObject }.
#[export] Instance eta_K8sSim : Eta K8sSim := fun x => mkK8sSim (ks_clock x) (ks_objects x).
#[export] Instance ksim_clock : HasClock K8sSim := {| clock_get := ks_clock; clock_set t w := w <| ks_clock := t |> |}.
#[export] Instance ksim_view : StagingView K8sSim := ks_objects.
Definition ks_missing : error := mkError "not found" (Some ReasonNotFound).
#[export] Instance ksim_client : StagingClient K8sSim := {|
  sc_get o w := match ks_objects w !! object_key o with
                | Some x => if decide (object_key x = object_key o) then (Ok x, w) else (Err (New "misplaced"), w)
                | None => (Err ks_missing, w)
                end;
  sc_create o w := match ks_objects w !! object_key o with
                   | Some _ => (Err (mkError "exists" (Some ReasonAlreadyExists)), w)
                   | None => (Ok tt, w <| ks_objects ::= <[object_key o := o]> |>)
                   end;
  sc_update o w := (Ok tt, w <| ks_objects ::= <[object_key o := o]> |>);
  sc_delete o w := match ks_objects w !! object_key o with
                   | Some _ => (Ok tt, w <| ks_objects ::= delete (object_key o) |>)
                   | None => (Err ks_missing, w)
                   end;
|}.
#[export] Instance ksim_laws : StagingClientLaws K8sSim.
Proof.
  split; intros o w; cbn; unfold staging_view, ksim_view; destruct (ks_objects w !! object_key o) eqn:E; try done.
  by case_decide.
Qed.
#[export] Instance ksim_outside : SamsahaiOutside K8sSim := {|
  out_helm3 _ := MockEngine; out_SetControllerReference _ m := inr m; out_Merge a _ := inr (a, a);
  out_TeamHash _ := "hash"; out_RenderAndExecute _ _ _ _ := mret ""; out_Notify _ _ _ := mret tt;
  out_reporters := mret ∅; out_set_gitlab_reporter _ _ := mret tt; out_NotifyActivePromotionReport _ := mret tt;
  out_GenerateRandomString := mret "id"; out_stamp _ := "" |}.
#[export] Instance ksim_lists : ResourceLists := {|
  rl_Cpu l := Some (default "0" (l !! "cpu")); rl_Memory l := Some (default "0" (l !! "memory")) |}.

Definition ks_configs : SamsahaiConfig :=
  mkSamsahaiConfig "" "" "agoda/samsahai:latest" "" "" "" "http://teamcity" "cluster.local"
    (mkActivePromotionConfig 1 0 0 0 0 None 1 false) (mkPullRequestConfig 3 2 5 (5 * Minute) 7) None ∅ ∅
    {[ "TZ" := "UTC"; "LANG" := "C" ]} "http://s2h"
    (mkSamsahaiCredential "token" "" "" (mkMSTeamsCredential "" "" "" "" "") "" "" "").
Definition ks_team : Team := zeroTeam <| team_Meta := namedMeta "" "shop" |>.
Definition ks_ns : string := "s2h-shop".
(** A namespace of an older version: its deployment has an old image and variables in
    another order, its service another port, and it has a quota. *)
Definition ks_old : list StagingObject :=
  [staging_deployment (W:=K8sSim) "1" ks_team ks_ns (mkSamsahaiConfig "" "" "old" "" "" "" "" "" (s2h_ActivePromotion ks_configs)
     (s2h_PullRequest ks_configs) None ∅ ∅ ∅ "" (s2h_SamsahaiCredential ks_configs)) [("TZ", "UTC"); ("LANG", "C")];
   OService (mkService (namedMeta ks_ns StagingCtrlName) [("http", 80, "TCP", 80)] ∅ "ClusterIP" "10.0.0.1");
   OResourceQuota (mkResourceQuota (namedMeta ks_ns (ks_ns +:+ ResourcesQuotaSuffix)) {[ "limits.cpu" := "1" ]} "")].
Definition ks_world : K8sSim := mkK8sSim 0 (list_to_map (map (fun o => (object_key o, o)) ks_old)).

Lemma environment_stands_witness :
  let res := createEnvironmentObjects (SO := staging_objects "2") ks_configs ks_team ks_ns None ks_world in
  fst res = Ok tt /\
  stands (GetService (W:=K8sSim) "2" ks_team ks_ns) (snd res) /\
  stands (staging_deployment (W:=K8sSim) "2" ks_team ks_ns ks_configs [("TZ", "UTC"); ("LANG", "C")]) (snd res) /\
  ks_objects (snd res) !! object_key (GetEmptyResourceQuota ks_ns) = None.
Proof.
  intros res. assert (fst res = Ok tt) as Hok by by vm_compute.
  destruct (environment_stands "2" ks_configs ks_team ks_ns None ks_world (snd res)) as (Hbase & Hdep & Hquota).
  { rewrite <- Hok. exact (surjective_pairing res). }
  split_and!; [exact Hok| | |exact Hquota].
  - apply Hbase. left.
  - apply Hdep; [reflexivity|].
    change ([("TZ", "UTC"); ("LANG", "C")] ≡ₚ map_to_list (<["TZ" := "UTC"]> {[ "LANG" := "C" ]} : gmap string string)).
    by rewrite map_to_list_insert, map_to_list_singleton.
Defined.
